(* ===== verification/_CoqProject ===== *)
-Q . S2P
Prelude.v
External.v
Wire.v
AuthDb.v
Capacity.v
Files.v
AuditTrail.v
AuditFacts.v
Identity.v
Registry.v
Policy.v
RegistryFacts.v
PolicyFacts.v
Models.v
RegistryHistory.v
KvStore.v
Merkle.v
Transparency.v
TransparencyFacts.v
Secrets.v
Tls.v
Diagnostics.v
Callout.v
CalloutFacts.v
Grants.v
CalloutExamples.v
Roles.v
Ipc.v
IpcFacts.v
RoleExamples.v
Mls.v
ClientDb.v
IdentityStore.v
Revocation.v
Directory.v
Authority.v
RevocationFacts.v
DirectoryFacts.v
ConsumerFacts.v
AuthorityFacts.v
GateFacts.v
Trust.v
TrustFacts.v
TrustExamples.v
Groups.v
Recovery.v
Database.v
DatabaseFacts.v
Inspection.v
Deployment.v
Validation.v
ValidationFacts.v
Online.v
OnlineFacts.v
Backend.v
Delivery.v
RecoveryFacts.v
RecoveryFiles.v
RecoveryExamples.v
Setup.v
SetupFacts.v
Development.v
DeploymentExamples.v
Attachments.v
Relationships.v
Messaging.v
Ephemeral.v
Flush.v
ChatKeeps.v
GroupFacts.v
MessageFacts.v
FlushFacts.v
ClientOps.v
Opening.v
Tui.v
TuiFacts.v
Session.v
SessionFacts.v
Cli.v
ChatExamples.v
