(* ===== verification/Prelude.v ===== *)
(** * EpochGrid: a verification development of the authority and client cores

    EpochGrid is a group messenger over NATS with MLS encryption. An authority
    enrolls devices, signs nothing it does not log, and admits connections; a
    device keeps an encrypted database, trusts on first use, and talks through
    streams that may lose, repeat and reorder. The development is a shallow
    embedding of the Rust code under [src/crates]: pure code is a function,
    code over a database or a service is a function from a state to a result
    and a state ([M] below), a transaction is one that restores the state when
    it fails, and the outside world is explicit, as lists of what is answered
    to come.

    ** The parts of the program and their files

    Paths are relative to [src/crates]; "core", "service" and "client" stand
    for [epochgrid-core/src], [epochgrid-service/src] and
    [epochgrid-client/src].

    - Foundations. [Prelude]: results, the state monad, transactions and
      savepoints, the [keeps] calculus of relations every run preserves, the
      tactics [inv_ok], [inv_err], [bool_prop] and [keeps_auto]. [External]:
      interfaces to libraries (hashes, NKeys, AEAD, postcard, JSON, MLS key
      packages, pages), UTF-8, and the meaning of the SQL used, over finite maps.
      [Merkle], [KvStore], [Files]: Merkle roots, a bucket with
      its compare-and-swap loop, a file system.
    - The authority's registry. [Wire] (core/wire.rs), [AuthDb] (the tables of
      auth.sqlite), [Capacity] (core/capacity.rs), [AuditTrail] and
      [AuditFacts] (core/audit.rs), [Identity] (core/identity.rs), [Registry],
      [RegistryFacts] and [RegistryHistory] (core/identity_model.rs), [Policy]
      and [PolicyFacts] (core/authorization.rs, authorization/delivery.rs).
    - The two logs. [Transparency] and [TransparencyFacts]
      (core/transparency.rs), [Revocation] and [RevocationFacts]
      (core/revocation.rs).
    - Admission. [Callout], [CalloutFacts] and [Grants] (core/auth_callout.rs,
      backend_roles.rs), [Tls] (core/tls.rs), [Secrets] (core/secrets.rs).
    - The authority service. [Directory], [DirectoryFacts] and [ConsumerFacts]
      (the directory and the consumers of core/transport.rs and
      service/dynamic.rs), [Authority], [AuthorityFacts] and [GateFacts] (the
      handler, the gate and its repair), [Diagnostics] (status),
      [Roles], [Ipc] and [IpcFacts] (service/roles.rs: bindings, sockets,
      frames, the session between worker and authority, the status socket),
      [Backend] (the start of each process and the commands beside it:
      service/main.rs, service/audit.rs), [Development] (core/broker_control.rs
      and the development half of core/transport.rs and service/main.rs).
    - Homes and deployments. [Database], [DatabaseFacts] and [Inspection]
      (core/database.rs, database/inspection.rs), [Deployment]
      (core/deployment.rs), [Validation] and [ValidationFacts]
      (core/validation.rs), [Online] and [OnlineFacts] (validation/online.rs),
      [Setup] and [SetupFacts] (service/deployment_setup.rs).
    - The device. [Mls] (OpenMLS as an interface), [ClientDb] and
      [IdentityStore] (the database and its transactions), [Trust] and
      [TrustFacts] (core/trust.rs), [Recovery], [RecoveryFacts] and
      [RecoveryFiles] (core/recovery.rs and the files of client/recovery.rs), [Groups] and
      [GroupFacts] (core/groups.rs, rekey.rs), [Delivery] (core/delivery.rs),
      [Attachments] (core/attachments.rs), [Relationships]
      (core/relationships.rs), [Messaging] and [MessageFacts]
      (core/messaging.rs, epochs.rs, history.rs), [Ephemeral]
      (core/ephemeral.rs, receipts.rs), [Flush] and [FlushFacts] (the outbox),
      [ChatKeeps] (what any sequence of operations keeps).
    - The clients. [ClientOps] (operations both clients use), [Opening] (the
      open of a store with its migrations), [Tui] and
      [TuiFacts] (client/tui/mod.rs), [Session] and [SessionFacts]
      (client/tui/worker.rs), [Cli] (client/main.rs, chat.rs,
      participant.rs and the commands of recovery.rs and tui/mod.rs).
    - Examples. [Models], [TrustExamples], [CalloutExamples], [RoleExamples],
      [RecoveryExamples], [DeploymentExamples] and [ChatExamples] give concrete
      libraries and states, run the definitions on them, and apply the
      theorems there.

    How they interact: [Callout.respond] and [Authority.handle] are handlers
    over the registry of [Registry] and [Policy]; the handler publishes into
    the logs of [Transparency] and [Revocation] with the loop of [KvStore] and
    derives the broker's consumers from the registry; the worker of [Ipc]
    reaches the handler only through framed requests; a device validates both
    logs in [Trust.audit] before [Flush] sends anything, and [Groups] takes the
    coordinator of a group from the revocations it recorded. Interfaces between
    components are classes ([Backend] with [BackendLaws], [Connection] with
    [ConnectionLaws], [Postcard], [Json], [Mls]), and the clients' theorems are
    proved against them.

    ** What is shown

    - Revocation: it takes effect at once, is final over any history, cannot be
      blocked by a full audit trail, reaches the broker before it is confirmed,
      and the gate is open only while registry, log and consumers agree.
    - Admission: the callout answers with what the registry grants, once per
      connection, confined to the device, and never to a revoked key.
    - Registry, policies and evidence: invariants over all handlers; a policy
      changes exactly what it says; evidence is appended, never lost, exported
      exactly, and its reserve suffices for repairs.
    - Logs: a checkpoint commits to its entries, accepted logs extend one
      another, and concurrent appends serialize.
    - The device: evidence about peers only accumulates; messages are encrypted
      only to groups without revoked members, decrypted and recorded in one
      transaction, processed to the end in stream order, sent in order
      once what a revocation concerns is withheld, never lost; events and attachments round-trip and are authentic; commits are
      accepted exactly from those allowed to make them.
    - Credentials and recovery: provisioning never replaces a key wherever it
      stops; a recovery package round-trips into a home all of whose tables are
      empty ([blank_home]) and overwrites nothing; bindings of roles replace nothing.
    - The processes: the worker's session is confined to the control subjects,
      forwarding is a queue, and status answers are the service's snapshot. A
      start calls nothing before its local checks, creates nothing in
      production, and opens the gate only through recovery. An authority's
      sockets replace nothing but sockets of its account. The commands on a
      stopped trail refuse while a backend runs and lose no evidence; an export
      changes no file it finds and publishes complete files only, over nothing that
      is there or comes there ([export_safe], [stopped_commands_safe]). In
      development, a revocation is enforced completely or tried again.
    - Homes: an interrupted open can be repeated until it completes and never
      loses a database or its key; inspection agrees with opening. An upgrade of
      a device's store resumes where it stopped, loses nothing, joins every group at the epoch it is at and completes its
      indexes. A home is
      set up by one last file, in any number of attempts, with the first
      choices and without overwriting anything.
    - Validation: the comparison of a resource with the contract is exact, a
      report that succeeds has seen what it says, every report passes its own
      parser, and a home that passed opens.
    - The clients: a draft is cleared or kept as the worker's answer says, a
      message counts as read when a row of it was drawn, notices are orderly;
      none of the twelve commands, the terminal interface and a recovery among
      them, loses what the device and its vault recorded, offline commands contact
      nobody, an enrollment uses its token for this device alone, and showing
      the unread messages ends.

    ** Bounds and fuel

    Loops of the code over lists are structural. The compare-and-swap loop runs
    at most the four attempts the code makes. The loops that export events,
    process deliveries and flush the outbox take fuel computed from the tables
    ([export_loop] more than the lines allowed, [process_loop] and [flush_loop]
    more than the rows pending), and [drain], which shows the unread messages, as
    many rounds as the transcript has rows; [export_loop_fuel] and [export_exact],
    [process_history_drains], [batches_unobservable] and [unread_drained] show
    it never runs out. Loops that wait (sessions, polls, deadlines) run over the
    list of what happens while they wait. [follow] and [final] follow at most
    the 40 links the kernel allows. Integers are [Z] with the width written
    where the code depends on it: saturating and checked arithmetic, casts and
    the refusal of negative columns.

    ** Not modelled

    The argument parsing of the binaries (derived by clap), the service binary's
    dispatch to the commands modelled, and the layout of what they print; the drawing primitives of the terminal library; building
    TLS configurations, D-Bus, sockets and the NATS protocol, which are library
    calls whose outcomes are parameters; the bytes of postcard, JSON and MLS,
    which are interfaces; the creation of tables, whose constraints are checked
    where rows are written; the operating system's random numbers and clock,
    which are draws and readings passed in. *)
From stdpp Require Export base gmap sets list strings countable.
From Stdlib Require Export ZArith Lia.
From Stdlib Require Export Strings.Byte Strings.Ascii.
From Stdlib Require Strings.String.

#[global] Open Scope Z_scope.
#[global] Open Scope list_scope.

(** ** Data shared by every component

    A [Vec<u8>] is a list of bytes, a [String] is the string of its UTF-8
    bytes, and every machine integer is a [Z] whose width is written out where
    the code depends on it. *)

Abbreviation bytes := (list Byte.byte).

#[global] Instance byte_eq_dec : EqDecision Byte.byte := Byte.byte_eq_dec.
#[global] Instance byte_countable : Countable Byte.byte.
Proof.
  refine (inj_countable' Byte.to_N (fun n => default x00 (Byte.of_N n)) _).
  intros b. by rewrite Byte.of_to_N.
Defined.

(** [str::as_bytes]: the bytes of a string. *)
Definition as_bytes (s : string) : bytes := String.list_byte_of_string s.

Definition slen (s : string) : Z := Z.of_nat (String.length s).
Lemma slen_app a b : slen (a +:+ b) = slen a + slen b.
Proof.
  unfold slen. induction a as [|c a IH]; [done|]. change (String c a +:+ b) with (String c (a +:+ b)).
  cbn [String.length]. lia.
Qed.
Definition zlen {A} (l : list A) : Z := Z.of_nat (List.length l).

Definition i64_max : Z := 2 ^ 63 - 1.
Definition u32_max : Z := 2 ^ 32 - 1.
Definition u64_max : Z := 2 ^ 64 - 1.
Definition u128_max : Z := 2 ^ 128 - 1.

(** [saturating_add] and [saturating_sub] on [u64]. *)
Definition sat_add64 (a b : Z) : Z := Z.min (a + b) u64_max.
Definition sat_sub64 (a b : Z) : Z := Z.max (a - b) 0.
(** [saturating_mul] on [u128]. *)
Definition sat_mul128 (a b : Z) : Z := Z.min (a * b) u128_max.
(** [checked_add] and [checked_mul] on [u64]. *)
Definition checked_add64 (a b : Z) : option Z :=
  if a + b <=? u64_max then Some (a + b) else None.
Definition checked_mul64 (a b : Z) : option Z :=
  if a * b <=? u64_max then Some (a * b) else None.

(** ** Strings *)

Fixpoint string_all (p : ascii -> bool) (s : string) : bool :=
  match s with
  | EmptyString => true
  | String c r => p c && string_all p r
  end.

Definition ascii_between (lo hi c : ascii) : bool :=
  ((N_of_ascii lo <=? N_of_ascii c)%N && (N_of_ascii c <=? N_of_ascii hi)%N).
Definition is_ascii_digit : ascii -> bool := ascii_between "0" "9".
Definition is_ascii_lowercase : ascii -> bool := ascii_between "a" "z".
Definition is_ascii_uppercase : ascii -> bool := ascii_between "A" "Z".
(** The predicate [b.is_ascii_digit() || (b'a'..=b'f').contains(&b)]. *)
Definition is_lower_hex (c : ascii) : bool := is_ascii_digit c || ascii_between "a" "f" c.
(** [u8::is_ascii_hexdigit]. *)
Definition is_ascii_hexdigit (c : ascii) : bool :=
  is_ascii_digit c || ascii_between "a" "f" c || ascii_between "A" "F" c.
Definition is_ascii_alphanumeric (c : ascii) : bool :=
  is_ascii_digit c || is_ascii_lowercase c || is_ascii_uppercase c.

(** Byte order of strings ([str] comparison, SQLite's [BINARY] collation). *)
Definition string_leb : string -> string -> bool := Stdlib.Strings.String.leb.
Definition string_le (a b : string) : Prop := string_leb a b = true.
#[global] Instance string_le_dec : RelDecision string_le.
Proof. intros a b. unfold string_le. apply _. Defined.

(** [str::split] on one separator character: always at least one field. *)
Fixpoint split_on (sep : ascii) (s : string) : list string :=
  match s with
  | EmptyString => [EmptyString]
  | String c r =>
      if decide (c = sep) then EmptyString :: split_on sep r
      else match split_on sep r with
           | [] => [String c EmptyString]
           | f :: fs => String c f :: fs
           end
  end.

(** [str::split_once]: split at the first separator. *)
Fixpoint split_once (sep : ascii) (s : string) : option (string * string) :=
  match s with
  | EmptyString => None
  | String c r =>
      if decide (c = sep) then Some (EmptyString, r)
      else match split_once sep r with
           | Some (a, b) => Some (String c a, b)
           | None => None
           end
  end.

(** [str::strip_prefix]. *)
Fixpoint strip_prefix (p s : string) : option string :=
  match p, s with
  | EmptyString, _ => Some s
  | String c p', String d s' => if decide (c = d) then strip_prefix p' s' else None
  | String _ _, EmptyString => None
  end.
Definition starts_with (p s : string) : bool :=
  match strip_prefix p s with Some _ => true | None => false end.

(** [{:02x}] for one byte. *)
Definition hex_digit (n : N) : ascii :=
  if (n <? 10)%N then ascii_of_N (48 + n) else ascii_of_N (87 + n).
Definition hex_byte (b : Byte.byte) (rest : string) : string :=
  String (hex_digit (Byte.to_N b / 16)) (String (hex_digit (Byte.to_N b mod 16)) rest).
Fixpoint hex_bytes (l : bytes) : string :=
  match l with
  | [] => EmptyString
  | b :: r => hex_byte b (hex_bytes r)
  end.

Lemma string_all_app p a b : string_all p (a +:+ b) = string_all p a && string_all p b.
Proof. induction a as [|c a IH]; simpl; [done|]. by rewrite IH, andb_assoc. Qed.

Lemma string_all_impl (p q : ascii -> bool) s :
  (forall c, p c = true -> q c = true) -> string_all p s = true -> string_all q s = true.
Proof.
  intros Hpq. induction s as [|c s IH]; simpl; [done|].
  intros [Hc Hs]%andb_prop. by rewrite Hpq, IH.
Qed.

(** Fields separated by one character that occurs in none of them. *)
Definition lacks (sep : ascii) (s : string) : bool :=
  string_all (fun c => negb (bool_decide (c = sep))) s.

Lemma split_on_lacks sep s : lacks sep s = true -> split_on sep s = [s].
Proof.
  induction s as [|c s IH]; [done|]. simpl. intros [Hc Hs]%andb_prop.
  case_bool_decide; [done|]. rewrite decide_False by done. by rewrite IH.
Qed.

Lemma split_on_app sep a b :
  lacks sep a = true -> split_on sep (a +:+ String sep b) = a :: split_on sep b.
Proof.
  induction a as [|c a IH]; simpl.
  - by rewrite decide_True.
  - intros [Hc Ha]%andb_prop. case_bool_decide; [done|].
    rewrite decide_False by done. by rewrite IH.
Qed.

Lemma split_once_app sep a b :
  lacks sep a = true -> split_once sep (a +:+ String sep b) = Some (a, b).
Proof.
  induction a as [|c a IH]; simpl.
  - by rewrite decide_True.
  - intros [Hc Ha]%andb_prop. case_bool_decide; [done|].
    rewrite decide_False by done. by rewrite IH.
Qed.

(** ** Errors

    [anyhow::Error] carries a message; the error types the code downcasts,
    matches on or returns typed are constructors of their own. [SqlConstraint]
    and [NoRows] are what a violated table constraint and [query_row] on no row
    give; [External] is an error a library reports. *)
(* @src core/wire.rs 13-23 ProtocolError *)
Inductive ProtocolError : Type := InvalidId | Version | Size | Encoding.

(** The [&'static str] codes of validation's own failures. *)
(* @src core/validation.rs 129-131 LocalFailure *)
Inductive LocalFailure : Type :=
| UnsafeFileType | WrongFileOwner | PermissionsTooOpen | PermissionsInsufficient
| AuthConfigLocation | OperatorSetupIncomplete | CredentialBindingMismatch
| ControlIdentityMismatch | CredentialReuse | DevelopmentTransportInProduction.

Inductive error : Type :=
| Anyhow (msg : string)
| Protocol (e : ProtocolError)
| InvalidMessage
| External
| SqlConstraint
| NoRows
| Local (f : LocalFailure).

Inductive result (A : Type) : Type :=
| Ok (a : A)
| Err (e : error).
Arguments Ok {A} a.
Arguments Err {A} e.

#[global] Instance ProtocolError_eq_dec : EqDecision ProtocolError.
Proof. solve_decision. Defined.
#[global] Instance LocalFailure_eq_dec : EqDecision LocalFailure.
Proof. solve_decision. Defined.
#[global] Instance error_eq_dec : EqDecision error.
Proof. solve_decision. Defined.

Definition is_ok {A} (r : result A) : bool :=
  match r with Ok _ => true | Err _ => false end.
(** [Result::ok]. *)
Definition ok {A} (r : result A) : option A :=
  match r with Ok a => Some a | Err _ => None end.
(** [Option::context] and [ok_or_else]. *)
Definition ok_or {A} (o : option A) (e : error) : result A :=
  match o with Some a => Ok a | None => Err e end.

Definition rbind {A B} (m : result A) (k : A -> result B) : result B :=
  match m with Ok a => k a | Err e => Err e end.
(** [ensure!(b, msg)] in code that has no state. *)
Definition check (b : bool) (msg : string) : result unit :=
  if b then Ok tt else Err (Anyhow msg).

(** [ensure!(b, e)] with a typed error. *)
Definition require (b : bool) (e : error) : result unit :=
  if b then Ok tt else Err e.

Fixpoint rmap {A B} (f : A -> result B) (l : list A) : result (list B) :=
  match l with
  | [] => Ok []
  | a :: r => rbind (f a) (fun b => rbind (rmap f r) (fun bs => Ok (b :: bs)))
  end.
Fixpoint rforall {A} (f : A -> result unit) (l : list A) : result unit :=
  match l with
  | [] => Ok tt
  | a :: r => rbind (f a) (fun _ => rforall f r)
  end.

(** ** State with errors

    Code that runs against a database connection is a function from the state
    of the connection to a result and the state it leaves. An error does not
    undo anything by itself: only [transaction] and [savepoint] do. *)
Definition M (S A : Type) : Type := S -> result A * S.

Section monad.
Context {S : Type}.

Definition ret {A} (a : A) : M S A := fun s => (Ok a, s).
Definition bind {A B} (m : M S A) (k : A -> M S B) : M S B := fun s =>
  match m s with
  | (Ok a, s') => k a s'
  | (Err e, s') => (Err e, s')
  end.
Definition fail {A} (e : error) : M S A := fun s => (Err e, s).
Definition lift {A} (r : result A) : M S A := fun s => (r, s).
(** [ensure!(b, msg)]. *)
Definition ensure (b : bool) (msg : string) : M S unit := fun s =>
  (if b then Ok tt else Err (Anyhow msg), s).
Definition gets {A} (f : S -> A) : M S A := fun s => (Ok (f s), s).
Definition modify (f : S -> S) : M S unit := fun s => (Ok tt, f s).
(** A result the caller inspects instead of propagating ([is_err], [.ok()],
    [let _ =]): the state the failing code left is kept. *)
Definition attempt {A} (m : M S A) : M S (result A) := fun s =>
  match m s with (r, s') => (Ok r, s') end.
Definition when (b : bool) (m : M S unit) : M S unit := if b then m else ret tt.

Fixpoint for_each {A} (l : list A) (f : A -> M S unit) : M S unit :=
  match l with
  | [] => ret tt
  | a :: r => bind (f a) (fun _ => for_each r f)
  end.
End monad.

Declare Scope eg_scope.
Delimit Scope eg_scope with eg.
#[global] Open Scope eg_scope.
Notation "'let*' x ':=' m 'in' k" := (bind m (fun x => k))
  (at level 10, x pattern, m at level 100, k at level 200) : eg_scope.
Notation "'let?' x ':=' m 'in' k" := (rbind m (fun x => k))
  (at level 10, x pattern, m at level 100, k at level 200) : eg_scope.
Notation "m ;;; k" := (bind m (fun _ => k))
  (at level 199, right associativity) : eg_scope.
Notation "m ;;? k" := (rbind m (fun _ => k))
  (at level 199, right associativity) : eg_scope.

(** ** Transactions

    A database connection is in autocommit mode or inside one transaction.
    [transaction] is [BEGIN] ... [COMMIT]: an error, or a [COMMIT] the storage
    refuses ([commit_ok]), leaves the state from before [BEGIN]. SQLite
    rejects a [BEGIN] inside a transaction. *)
Class Connection (S : Type) := {
  autocommit : S -> bool;
  set_autocommit : bool -> S -> S;
  commit_ok : S -> bool;
}.

Class ConnectionLaws (S : Type) `{Connection S} := {
  autocommit_set : forall b s, autocommit (set_autocommit b s) = b;
  set_autocommit_set : forall b c s, set_autocommit b (set_autocommit c s) = set_autocommit b s;
  set_autocommit_id : forall s, set_autocommit (autocommit s) s = s;
  commit_ok_set : forall b s, commit_ok (set_autocommit b s) = commit_ok s;
}.

Section transactions.
Context {S : Type} `{Connection S}.

Definition transaction {A} (m : M S A) : M S A := fun s =>
  if autocommit s then
    match m (set_autocommit false s) with
    | (Ok a, s') =>
        if commit_ok s' then (Ok a, set_autocommit true s')
        else (Err (Anyhow "commit failed"), s)
    | (Err e, _) => (Err e, s)
    end
  else (Err (Anyhow "cannot start a transaction within a transaction"), s).

(** A transaction whose body may return early: dropping the transaction object
    without [commit] rolls it back. The flag says whether [commit] was reached. *)
Definition scoped_transaction {A} (m : M S (bool * A)) : M S A := fun s =>
  if autocommit s then
    match m (set_autocommit false s) with
    | (Ok (true, a), s') =>
        if commit_ok s' then (Ok a, set_autocommit true s')
        else (Err (Anyhow "commit failed"), s)
    | (Ok (false, a), _) => (Ok a, s)
    | (Err e, _) => (Err e, s)
    end
  else (Err (Anyhow "cannot start a transaction within a transaction"), s).

(** [SAVEPOINT p; m; ROLLBACK TO p on error; RELEASE p]. *)
Definition savepoint {A} (m : M S A) : M S (result A) := fun s =>
  match m s with
  | (Ok a, s') => (Ok (Ok a), s')
  | (Err e, _) => (Ok (Err e), s)
  end.
End transactions.

(** ** Reasoning about results

    The [inv_ok] tactic takes a successful run apart into the successful runs
    of its steps and the guards that held. *)
Lemma rbind_Ok {A B} (m : result A) (k : A -> result B) b :
  rbind m k = Ok b -> exists a, m = Ok a /\ k a = Ok b.
Proof. destruct m; [eauto | discriminate]. Qed.

Lemma check_Ok b msg u : check b msg = Ok u -> b = true.
Proof. destruct b; [done | discriminate]. Qed.

Lemma require_Ok b e u : require b e = Ok u -> b = true.
Proof. destruct b; [done | discriminate]. Qed.

Lemma ok_or_Ok {A} (o : option A) e a : ok_or o e = Ok a -> o = Some a.
Proof. destruct o; [by intros [= ->] | discriminate]. Qed.

Lemma check_true msg : check true msg = Ok tt.
Proof. done. Qed.

Lemma rforall_Ok {A} (f : A -> result unit) l u :
  rforall f l = Ok u -> Forall (fun a => f a = Ok tt) l.
Proof.
  induction l as [|a l IH]; intros H; [constructor|].
  apply rbind_Ok in H as ([] & Ha & H). constructor; auto.
Qed.

Lemma rmap_Ok {A B} (f : A -> result B) l bs :
  rmap f l = Ok bs -> Forall2 (fun a b => f a = Ok b) l bs.
Proof.
  revert bs; induction l as [|a l IH]; intros bs H; simpl in H.
  - injection H as <-. constructor.
  - apply rbind_Ok in H as (b & Hb & H).
    apply rbind_Ok in H as (bs' & Hbs & [= <-]). constructor; auto.
Qed.

Section monad_lemmas.
Context {S : Type}.
Implicit Types (s : S).

Lemma bind_Ok {A B} (m : M S A) (k : A -> M S B) s b s' :
  bind m k s = (Ok b, s') -> exists a s1, m s = (Ok a, s1) /\ k a s1 = (Ok b, s').
Proof. unfold bind. destruct (m s) as [[a|e] s1]; [eauto | discriminate]. Qed.

Lemma bind_Err {A B} (m : M S A) (k : A -> M S B) s e s' :
  bind m k s = (Err e, s') ->
  m s = (Err e, s') \/ exists a s1, m s = (Ok a, s1) /\ k a s1 = (Err e, s').
Proof.
  unfold bind. destruct (m s) as [[a|e'] s1]; [eauto|]. intros [= -> ->]. by left.
Qed.

Lemma bind_cases {A B} (m : M S A) (k : A -> M S B) s r s' :
  bind m k s = (r, s') ->
  (exists e, m s = (Err e, s') /\ r = Err e) \/ exists a s1, m s = (Ok a, s1) /\ k a s1 = (r, s').
Proof. unfold bind. destruct (m s) as [[a|e] s1]; [right; eauto|]. intros [= <- <-]. left. eauto. Qed.
Lemma bind_assoc {A B C} (m : M S A) (f : A -> M S B) (g : B -> M S C) s :
  bind (bind m f) g s = bind m (fun a => bind (f a) g) s.
Proof. unfold bind. by destruct (m s) as [[a|e] s1]. Qed.
Lemma bind_run {A B} (m : M S A) (k : A -> M S B) s a s1 :
  m s = (Ok a, s1) -> bind m k s = k a s1.
Proof. unfold bind. by intros ->. Qed.

(** A step that only reads hands its state on. *)
Lemma read_then {A B} (R : S -> S -> Prop) `{!Reflexive R} (m : M S A) (k : A -> M S B) s :
  snd (m s) = s -> (forall a, m s = (Ok a, s) -> R s (snd (k a s))) -> R s (snd (bind m k s)).
Proof.
  unfold bind. destruct (m s) as [[a|e] s1]; cbn [snd]; intros ->; [|done]. intros Hk. by apply Hk.
Qed.
Lemma ensure_Ok b msg s u s' : ensure b msg s = (Ok u, s') -> b = true /\ s' = s.
Proof. unfold ensure. destruct b; intros [=]; auto. Qed.

Lemma lift_Ok {A} (r : result A) s a s' : lift r s = (Ok a, s') -> r = Ok a /\ s' = s.
Proof. unfold lift. intros [=]; auto. Qed.

Lemma gets_Ok {A} (f : S -> A) s a s' : gets f s = (Ok a, s') -> a = f s /\ s' = s.
Proof. unfold gets. intros [=]; auto. Qed.

Lemma modify_Ok (f : S -> S) s u s' : modify f s = (Ok u, s') -> s' = f s.
Proof. unfold modify. intros [=]; auto. Qed.

Lemma ret_Ok {A} (a b : A) s s' : ret a s = (Ok b, s') -> b = a /\ s' = s.
Proof. unfold ret. intros [=]; auto. Qed.

Lemma attempt_Ok {A} (m : M S A) s r s' : attempt m s = (Ok r, s') -> m s = (r, s').
Proof. unfold attempt. destruct (m s). intros [= -> ->]; auto. Qed.

(** A loop that ran through: what each round establishes, and later rounds keep,
    holds for every element at the end. *)
Lemma for_each_Ok {A} (I : S -> Prop) (P : A -> S -> Prop) l (f : A -> M S unit) s s' :
  (forall a s s', I s -> f a s = (Ok tt, s') -> I s' /\ P a s') ->
  (forall a b s s', I s -> P a s -> f b s = (Ok tt, s') -> P a s') ->
  I s -> for_each l f s = (Ok tt, s') ->
  I s' /\ Forall (fun a => P a s') l /\ (forall a, P a s -> P a s').
Proof.
  intros Hf HP. revert s. induction l as [|a l IH]; intros s HI Hrun; simpl in Hrun.
  { apply ret_Ok in Hrun as [_ ->]. auto. }
  apply bind_Ok in Hrun as ([] & s1 & Ha & Hrun). destruct (Hf _ _ _ HI Ha) as [HI1 HPa].
  destruct (IH _ HI1 Hrun) as (HI' & Hall & Hkeep). split_and!; eauto.
Qed.
End monad_lemmas.

(** A run is its result and the state it leaves. *)
Lemma run_fst {S A} (p : result A * S) r : fst p = r -> p = (r, snd p).
Proof. intros <-. by destruct p. Qed.

Ltac inv_ok_step :=
  match goal with
  | H : Ok _ = Ok _ |- _ => injection H as H; try subst
  | H : Err _ = Ok _ |- _ => discriminate H
  | H : Ok _ = Err _ |- _ => discriminate H
  | H : (Err _, _) = (Ok _, _) |- _ => discriminate H
  | H : bind _ _ _ = (Ok _, _) |- _ =>
      let a := fresh "a" in let s := fresh "s" in
      let H1 := fresh "Hm" in let H2 := fresh "Hk" in
      apply bind_Ok in H as (a & s & H1 & H2); cbv beta in H2
  | H : ensure _ _ _ = (Ok _, _) |- _ => apply ensure_Ok in H as [H ->]
  | H : lift _ _ = (Ok _, _) |- _ => apply lift_Ok in H as [H ->]
  | H : gets _ _ = (Ok _, _) |- _ => apply gets_Ok in H as [-> ->]
  | H : modify _ _ = (Ok _, _) |- _ => apply modify_Ok in H as ->
  | H : ret _ _ = (Ok _, _) |- _ =>
      first [apply ret_Ok in H as [-> ->] | apply ret_Ok in H as [H ->]; injection H as H; subst
            | apply ret_Ok in H as [_ ->]]
  | H : fail _ _ = (Ok _, _) |- _ => discriminate H
  | H : rbind _ _ = Ok _ |- _ =>
      let a := fresh "a" in let H1 := fresh "Hm" in let H2 := fresh "Hk" in
      apply rbind_Ok in H as (a & H1 & H2); cbv beta in H2
  | H : check _ _ = Ok _ |- _ => apply check_Ok in H
  | H : require _ _ = Ok _ |- _ => apply require_Ok in H
  | H : ok_or _ _ = Ok _ |- _ => apply ok_or_Ok in H
  | a : unit |- _ => destruct a
  end.
Ltac inv_ok := repeat inv_ok_step.

(** The ways a run can fail: one case per step, each with the state the step
    was given when the step itself changes nothing. *)
Lemma ensure_Err {S} b msg (s : S) e s' : ensure b msg s = (Err e, s') -> b = false /\ s' = s.
Proof. unfold ensure. destruct b; intros [=]; auto. Qed.
Lemma lift_Err {S A} (r : result A) (s : S) e s' : lift r s = (Err e, s') -> r = Err e /\ s' = s.
Proof. unfold lift. intros [=]; auto. Qed.
Lemma attempt_Err {S A} (m : M S A) (s : S) e s' : attempt m s = (Err e, s') -> False.
Proof. unfold attempt. by destruct (m s). Qed.
Ltac inv_err :=
  repeat match goal with
  | H : gets _ _ = (Err _, _) |- _ => discriminate H
  | H : ret _ _ = (Err _, _) |- _ => discriminate H
  | H : modify _ _ = (Err _, _) |- _ => discriminate H
  | H : attempt _ _ = (Err _, _) |- _ => destruct (attempt_Err _ _ _ _ H)
  | H : ensure _ _ _ = (Err _, _) |- _ => apply ensure_Err in H as [H ->]
  | H : lift _ _ = (Err _, _) |- _ => apply lift_Err in H as [H ->]
  | H : bind _ _ _ = (Err _, _) |- _ =>
      let a := fresh "a" in let s := fresh "s" in
      let H1 := fresh "Hm" in
      apply bind_Err in H as [H|(a & s & H1 & H)]; cbv beta in H
  end.

(** Boolean guards to propositions. *)
Ltac bool_prop :=
  repeat match goal with
  | H : _ && _ = true |- _ => apply andb_prop in H as [? ?]
  | H : _ && _ = false |- _ => apply andb_false_iff in H
  | H : _ || _ = true |- _ => apply orb_prop in H
  | H : _ || _ = false |- _ => apply orb_false_elim in H as [? ?]
  | H : negb _ = true |- _ => apply negb_true_iff in H
  | H : negb _ = false |- _ => apply negb_false_iff in H
  | H : bool_decide _ = true |- _ => apply bool_decide_eq_true_1 in H
  | H : bool_decide _ = false |- _ => apply bool_decide_eq_false_1 in H
  | H : (_ <? _) = true |- _ => apply Z.ltb_lt in H
  | H : (_ <? _) = false |- _ => apply Z.ltb_ge in H
  | H : (_ <=? _) = true |- _ => apply Z.leb_le in H
  | H : (_ <=? _) = false |- _ => apply Z.leb_gt in H
  | H : (_ =? _) = true |- _ => apply Z.eqb_eq in H
  | H : (_ =? _) = false |- _ => apply Z.eqb_neq in H
  end.

(** Every check of a list of checks that succeeded. *)
Ltac inv_checks :=
  repeat match goal with
  | H : rforall _ (_ :: _) = Ok _ |- _ => apply rforall_Ok in H
  | H : Forall _ (_ :: _) |- _ =>
      let Hc := fresh "Hc" in
      apply Forall_cons_1 in H as [Hc H]; cbv beta iota in Hc; apply check_Ok in Hc
  | H : Forall _ [] |- _ => clear H
  end; bool_prop.

(** ** Relations kept by every run

    [keeps R m]: whatever [m] returns, the state it leaves is related to the
    one it was given. With [R s s' := I s -> I s'] this is preservation of an
    invariant; with an equality of projections it is a frame condition. *)
Definition keeps {S A} (R : S -> S -> Prop) (m : M S A) : Prop :=
  forall s, R s (snd (m s)).

Create HintDb keeps.

Section keeps.
Context {S : Type} (R : S -> S -> Prop) `{!PreOrder R}.

Lemma keeps_ret {A} (a : A) : keeps R (ret a).
Proof. intros s. reflexivity. Qed.
Lemma keeps_fail {A} e : keeps R (@fail S A e).
Proof. intros s. reflexivity. Qed.
Lemma keeps_lift {A} (r : result A) : keeps R (lift r).
Proof. intros s. reflexivity. Qed.
Lemma keeps_ensure b msg : keeps R (ensure b msg).
Proof. intros s. reflexivity. Qed.
Lemma keeps_gets {A} (f : S -> A) : keeps R (gets f).
Proof. intros s. reflexivity. Qed.
Lemma keeps_modify f : (forall s, R s (f s)) -> keeps R (modify f).
Proof. intros H s. apply H. Qed.
Lemma keeps_bind {A B} (m : M S A) (k : A -> M S B) :
  keeps R m -> (forall a, keeps R (k a)) -> keeps R (bind m k).
Proof.
  intros Hm Hk s. unfold bind. specialize (Hm s).
  destruct (m s) as [[a|e] s1]; [|done]. etrans; [done | apply Hk].
Qed.
(** Along one run, with what the first step returned. *)
Lemma keeps_bind_at {A B} (m : M S A) (k : A -> M S B) s :
  (forall a s1, m s = (Ok a, s1) -> R s (snd (k a s1))) ->
  (forall e s1, m s = (Err e, s1) -> R s s1) ->
  R s (snd (bind m k s)).
Proof. intros HO HE. unfold bind. destruct (m s) as [[a|e] s1]; eauto. Qed.
Lemma keeps_attempt {A} (m : M S A) : keeps R m -> keeps R (attempt m).
Proof. intros Hm s. unfold attempt. specialize (Hm s). by destruct (m s). Qed.
Lemma keeps_when b m : keeps R m -> keeps R (when b m).
Proof. destruct b; [done | intros _; apply keeps_ret]. Qed.
Lemma keeps_for_each {A} (l : list A) f :
  (forall a, keeps R (f a)) -> keeps R (for_each l f).
Proof.
  intros Hf. induction l as [|a l IH]; [apply keeps_ret|].
  by apply keeps_bind; [apply Hf | intros _].
Qed.
Lemma keeps_savepoint {A} (m : M S A) : keeps R m -> keeps R (savepoint m).
Proof.
  intros Hm s. unfold savepoint. specialize (Hm s).
  destruct (m s) as [[a|e] s1]; [done | reflexivity].
Qed.
Lemma keeps_transaction `{Connection S} {A} (m : M S A) :
  (forall b s, R s (set_autocommit b s)) -> keeps R m -> keeps R (transaction m).
Proof.
  intros Hset Hm s. unfold transaction. destruct (autocommit s); [|reflexivity].
  specialize (Hm (set_autocommit false s)).
  destruct (m _) as [[a|e] s1]; [|reflexivity].
  destruct (commit_ok s1); [|reflexivity]. simpl in *.
  etrans; [apply (Hset false)|]. etrans; [done|]. apply Hset.
Qed.
Lemma keeps_scoped_transaction `{Connection S} {A} (m : M S (bool * A)) :
  (forall b s, R s (set_autocommit b s)) -> keeps R m -> keeps R (scoped_transaction m).
Proof.
  intros Hset Hm s. unfold scoped_transaction. destruct (autocommit s); [|reflexivity].
  specialize (Hm (set_autocommit false s)).
  destruct (m _) as [[[[] a]|e] s1]; [|reflexivity..].
  destruct (commit_ok s1); [|reflexivity]. simpl in *.
  etrans; [apply (Hset false)|]. etrans; [done|]. apply Hset.
Qed.
End keeps.

#[export] Hint Resolve keeps_ret keeps_fail keeps_lift keeps_ensure keeps_gets
  keeps_attempt keeps_when keeps_for_each keeps_savepoint : keeps.
#[export] Hint Extern 0 (PreOrder _) => typeclasses eauto : keeps.

(** Apply the [keeps] rules along the structure of a definition. *)
Ltac keeps_step :=
  match goal with
  | |- PreOrder _ => typeclasses eauto
  | |- forall _, keeps _ _ => intros ?; cbv beta
  | |- keeps _ (bind _ _) => apply keeps_bind; try typeclasses eauto
  | |- keeps _ (when _ _) => apply keeps_when; try typeclasses eauto
  | |- keeps _ (attempt _) => apply keeps_attempt; try typeclasses eauto
  | |- keeps _ (savepoint _) => apply keeps_savepoint; try typeclasses eauto
  | |- keeps _ (match ?x with _ => _ end) => destruct x
  | |- keeps _ _ => progress (eauto 3 with keeps)
  end.
Ltac keeps_auto := repeat keeps_step.
(** The same, into the bodies of loops. *)
Ltac keeps_all :=
  repeat first
    [ keeps_step
    | match goal with
      | |- keeps _ (for_each _ _) => apply keeps_for_each; try typeclasses eauto
      end ].

Section transaction_lemmas.
Context {S : Type} `{Connection S}.

(** A failed transaction changes nothing. *)
Lemma transaction_Err {A} (m : M S A) s e s' :
  transaction m s = (Err e, s') -> s' = s.
Proof.
  unfold transaction. destruct (autocommit s); [|by intros [=]].
  destruct (m _) as [[a|e'] s1]; [|by intros [=]].
  destruct (commit_ok s1); by intros [=].
Qed.

Lemma transaction_Ok {A} (m : M S A) s a s' :
  transaction m s = (Ok a, s') ->
  autocommit s = true /\
  exists s1, m (set_autocommit false s) = (Ok a, s1) /\ commit_ok s1 = true /\
    s' = set_autocommit true s1.
Proof.
  unfold transaction. destruct (autocommit s); [|by intros [=]].
  destruct (m _) as [[a'|e'] s1]; [|by intros [=]].
  destruct (commit_ok s1) eqn:?; [|by intros [=]]. intros [= -> <-]. eauto.
Qed.

Lemma scoped_transaction_Err {A} (m : M S (bool * A)) s e s' :
  scoped_transaction m s = (Err e, s') -> s' = s.
Proof.
  unfold scoped_transaction. destruct (autocommit s); [|by intros [=]].
  destruct (m _) as [[[[] a]|e'] s1]; [|by intros [=]..].
  destruct (commit_ok s1); by intros [=].
Qed.

Lemma scoped_transaction_Ok {A} (m : M S (bool * A)) s a s' :
  scoped_transaction m s = (Ok a, s') ->
  autocommit s = true /\
  exists b s1, m (set_autocommit false s) = (Ok (b, a), s1) /\
    s' = (if b then set_autocommit true s1 else s).
Proof.
  unfold scoped_transaction. destruct (autocommit s); [|by intros [=]].
  destruct (m _) as [[[[] a']|e'] s1]; [| |by intros [=]].
  - destruct (commit_ok s1) eqn:?; [|by intros [=]]. intros [= -> <-]. split; [done|].
    by exists true, s1.
  - intros [= -> <-]. split; [done|]. by exists false, s1.
Qed.

Lemma savepoint_Ok {A} (m : M S A) s r s' :
  savepoint m s = (Ok r, s') ->
  (exists a, r = Ok a /\ m s = (Ok a, s')) \/ (exists e, r = Err e /\ s' = s).
Proof.
  unfold savepoint. destruct (m s) as [[a|e] s1]; intros [= <- <-]; eauto.
Qed.
End transaction_lemmas.
