(* ===== verification/External.v ===== *)
(** * External code and SQL

    Interfaces to the code the repository calls but does not contain: the
    clock, hashes, NKey signatures, postcard and JSON encodings, MLS key
    packages and SQLite's page accounting. Each is a class of operations with
    no law of its own; what a theorem relies on is a hypothesis of that theorem.
    The second half gives the meaning of the SQL the code sends to its tables:
    a table is a finite map from its primary key to the other columns. The last
    part is the UTF-8 of the standard library. *)
From S2P Require Import Prelude.

(** ** Cryptography *)

(** [nkeys::KeyPairType]. *)
Inductive KeyPairType : Type :=
  Server | Cluster | Operator | AccountKey | UserKey | ModuleKey | ServiceKey | CurveKey.
#[global] Instance KeyPairType_eq_dec : EqDecision KeyPairType.
Proof. solve_decision. Defined.

(** [nkeys::KeyPair]: [from_public_key] with [key_pair_type], [verify] of a
    signature by a public key, and [sign] with a private one. *)
Record KeyPair : Type := { public_key : string; seed : string }.
Class NKeys : Type := {
  nkey_type : string -> option KeyPairType;
  nkey_verifies : string -> bytes -> bytes -> bool;
  nkey_sign : KeyPair -> bytes -> result bytes;
}.

Section nkeys.
Context `{NKeys}.
Definition key_pair_type (k : string) : result KeyPairType := ok_or (nkey_type k) External.
(** [KeyPair::from_public_key(k)?.verify(msg, sig)]. *)
Definition verify_with (k : string) (msg sig : bytes) : result unit :=
  let? _ := key_pair_type k in
  if nkey_verifies k msg sig then Ok tt else Err External.
End nkeys.

(** SHA-256 of the crypto provider. *)
Class Sha256 : Type := sha256 : bytes -> result bytes.

(** AES-256-GCM of the crypto provider: key, text, nonce, associated data. *)
Class Aead : Type := {
  aead_encrypt : bytes -> bytes -> bytes -> bytes -> option bytes;
  aead_decrypt : bytes -> bytes -> bytes -> bytes -> option bytes;
}.
(** What was encrypted decrypts under the same key, nonce and data. *)
Definition aead_law `{Aead} : Prop :=
  forall key text nonce aad c, aead_encrypt key text nonce aad = Some c ->
    aead_decrypt key c nonce aad = Some text.

(** ** Encodings *)

(** [postcard::to_allocvec] and [postcard::take_from_bytes]. *)
Class Postcard (A : Type) : Type := {
  to_allocvec : A -> result bytes;
  take_from_bytes : bytes -> result (A * bytes);
}.
(** [postcard::from_bytes] ignores what follows the value. *)
Definition from_bytes {A} `{Postcard A} (b : bytes) : result A :=
  let? v := take_from_bytes b in Ok (fst v).

(** The documented law of the format, for one value: an encoding decodes to the
    value it encodes and leaves what follows it. *)
Definition postcard_law {A} `{Postcard A} (a : A) : Prop :=
  exists b, to_allocvec a = Ok b /\ forall rest, take_from_bytes (b ++ rest) = Ok (a, rest).

(** [serde_json::to_string] and [serde_json::from_str]. *)
Class Json (A : Type) : Type := {
  to_json : A -> result string;
  from_json : string -> result A;
}.
Definition json_law {A} `{Json A} (a : A) : Prop :=
  exists s, to_json a = Ok s /\ from_json s = Ok a.

Lemma postcard_law_inj {A} `{Postcard A} (a a' : A) b :
  postcard_law a -> postcard_law a' -> to_allocvec a = Ok b -> to_allocvec a' = Ok b -> a = a'.
Proof.
  intros (b1 & E1 & D1) (b2 & E2 & D2) H1 H2.
  rewrite E1 in H1. rewrite E2 in H2. injection H1 as ->. injection H2 as ->.
  specialize (D1 []). specialize (D2 []). congruence.
Qed.

(** ** MLS key packages

    What [identity.rs] and [trust.rs] read from a serialized key package: the
    fields of the validated package ([KeyPackageIn::validate]) and of the
    unvalidated one. Credentials are TLS-serialized, [None] is a parse error. *)
Record KeyPackage : Type := {
  package_suite_supported : bool;
  package_credential : bytes;
  package_identity : option bytes;
  package_signature_key : bytes;
}.
Class MlsPackages : Type := {
  validated_package : bytes -> option KeyPackage;
  unverified_package : bytes -> option KeyPackage;
}.

(** ** SQLite *)

(** A value SQLite returns for [PRAGMA page_size]. *)
Inductive SqlValue : Type := SqlInteger (n : Z) | SqlText (s : string) | SqlOther.
(** [PRAGMA page_count] and [PRAGMA page_size] of a database. *)
Class Pages (S : Type) : Type := {
  page_count : S -> Z;
  page_size : S -> SqlValue;
}.

(** [str::parse::<u64>]. *)
Definition digit_value (c : ascii) : option Z :=
  if is_ascii_digit c then Some (Z.of_N (N_of_ascii c) - 48) else None.
Fixpoint parse_digits (acc : Z) (s : string) : option Z :=
  match s with
  | EmptyString => Some acc
  | String c r =>
      match digit_value c with
      | Some d => if acc * 10 + d <=? u64_max then parse_digits (acc * 10 + d) r else None
      | None => None
      end
  end.
Definition parse_u64 (s : string) : result Z :=
  let t := match s with String "+" r => r | _ => s end in
  match t with
  | EmptyString => Err External
  | _ => ok_or (parse_digits 0 t) External
  end.

Section tables.
Context {K V : Type} `{Countable K}.
Implicit Types (m : gmap K V) (p : K -> V -> bool).

(** [SELECT ... WHERE p], [SELECT EXISTS(...)] and [SELECT COUNT] over a
    table. *)
Definition rows p m : list (K * V) :=
  List.filter (fun '(k, v) => p k v) (map_to_list m).
Definition exists_row p m : bool := existsb (fun '(k, v) => p k v) (map_to_list m).
Definition count_rows p m : Z := zlen (rows p m).
Definition table_size m : Z := Z.of_nat (size m).

(** [UPDATE t SET f WHERE p] and [DELETE FROM t WHERE p]. *)
Definition update_where p (f : V -> V) m : gmap K V :=
  map_imap (fun k v => Some (if p k v then f v else v)) m.
Definition delete_where p m : gmap K V :=
  map_imap (fun k v => if p k v then None else Some v) m.

(** [INSERT INTO t] fails on a present primary key. *)
Definition insert_row (k : K) (v : V) m : result (gmap K V) :=
  match m !! k with Some _ => Err SqlConstraint | None => Ok (<[k := v]> m) end.
(** [INSERT OR IGNORE]. *)
Definition insert_ignore (k : K) (v : V) m : gmap K V :=
  match m !! k with Some _ => m | None => <[k := v]> m end.

Lemma elem_of_rows p m k v : (k, v) ∈ rows p m <-> m !! k = Some v /\ p k v = true.
Proof.
  unfold rows. rewrite list_elem_of_In, filter_In, <- list_elem_of_In, elem_of_map_to_list.
  done.
Qed.
Lemma exists_row_true p m :
  exists_row p m = true <-> exists k v, m !! k = Some v /\ p k v = true.
Proof.
  unfold exists_row. rewrite existsb_exists. split.
  - intros ([k v] & Hin & Hp). exists k, v.
    by rewrite <- elem_of_map_to_list, list_elem_of_In.
  - intros (k & v & Hk & Hp). exists (k, v). split; [|done].
    by rewrite <- list_elem_of_In, elem_of_map_to_list.
Qed.
Lemma exists_row_false p m :
  exists_row p m = false <-> forall k v, m !! k = Some v -> p k v = false.
Proof.
  rewrite <- not_true_iff_false, exists_row_true. split.
  - intros Hn k v Hk. destruct (p k v) eqn:?; [|done]. destruct Hn; eauto.
  - intros Hall (k & v & Hk & Hp). apply Hall in Hk. congruence.
Qed.

Lemma lookup_update_where p f m k :
  update_where p f m !! k = (fun v => if p k v then f v else v) <$> (m !! k).
Proof. unfold update_where. rewrite map_lookup_imap. by destruct (m !! k). Qed.
Lemma lookup_delete_where p m k :
  delete_where p m !! k = match m !! k with
                          | Some v => if p k v then None else Some v
                          | None => None
                          end.
Proof. unfold delete_where. rewrite map_lookup_imap. by destruct (m !! k). Qed.
Lemma lookup_delete_where_Some p m k v :
  delete_where p m !! k = Some v <-> m !! k = Some v /\ p k v = false.
Proof.
  rewrite lookup_delete_where. destruct (m !! k) as [w|]; [|by split; [|intros [? _]]].
  destruct (p k w) eqn:?; split; intros Hw; destruct_and?; simplify_eq; eauto; congruence.
Qed.
Lemma lookup_update_where_Some p f m k w :
  update_where p f m !! k = Some w <->
  exists v, m !! k = Some v /\ w = if p k v then f v else v.
Proof.
  rewrite lookup_update_where. destruct (m !! k) as [v|]; simpl.
  - split; [intros [= <-]; eauto | by intros (? & [= <-] & ->)].
  - split; [done | by intros (? & ? & _)].
Qed.
Lemma lookup_update_where_None p f m k :
  update_where p f m !! k = None <-> m !! k = None.
Proof. rewrite lookup_update_where. by destruct (m !! k). Qed.

Lemma insert_row_Ok k v m m' :
  insert_row k v m = Ok m' -> m !! k = None /\ m' = <[k := v]> m.
Proof. unfold insert_row. destruct (m !! k); naive_solver. Qed.
End tables.

(** ** UTF-8

    The parts of the standard library's string type the client uses on bytes
    that come from a message: [str::from_utf8], [String::from_utf8_lossy] and
    the classes of characters it refuses. A string is its bytes. *)
Definition byte_val (b : Byte.byte) : N := Byte.to_N b.
Definition in_range (lo hi : N) (b : Byte.byte) : bool :=
  ((lo <=? byte_val b)%N && (byte_val b <=? hi)%N).
Definition continuation : Byte.byte -> bool := in_range 128 191.

(** The first character of a byte string: its code point when the bytes begin
    with a well-formed sequence, and how many bytes it or the ill-formed prefix
    takes. [rest p n l cp]: the continuation bytes after [n] bytes, the first of
    which must satisfy [p]. *)
Definition tail_bits (b : Byte.byte) : N := (byte_val b mod 64)%N.
Definition utf8_next (l : bytes) : option N * nat :=
  match l with
  | [] => (None, 0%nat)
  | b0 :: r =>
      let two (p : Byte.byte -> bool) := match r with
                   | b1 :: _ => if p b1 then Some b1 else None
                   | [] => None end in
      let third := match r with
                   | _ :: b2 :: _ => if continuation b2 then Some b2 else None
                   | _ => None end in
      let fourth := match r with
                    | _ :: _ :: b3 :: _ => if continuation b3 then Some b3 else None
                    | _ => None end in
      let three (p : Byte.byte -> bool) :=
        match two p, third with
        | None, _ => (None, 1%nat)
        | Some _, None => (None, 2%nat)
        | Some b1, Some b2 =>
            (Some ((byte_val b0 mod 16) * 4096 + tail_bits b1 * 64 + tail_bits b2)%N, 3%nat)
        end in
      let four (p : Byte.byte -> bool) :=
        match two p, third, fourth with
        | None, _, _ => (None, 1%nat)
        | Some _, None, _ => (None, 2%nat)
        | Some _, Some _, None => (None, 3%nat)
        | Some b1, Some b2, Some b3 =>
            (Some ((byte_val b0 mod 8) * 262144 + tail_bits b1 * 4096 + tail_bits b2 * 64
                   + tail_bits b3)%N, 4%nat)
        end in
      if in_range 0 127 b0 then (Some (byte_val b0), 1%nat)
      else if in_range 194 223 b0 then
        match two continuation with
        | Some b1 => (Some ((byte_val b0 mod 32) * 64 + tail_bits b1)%N, 2%nat)
        | None => (None, 1%nat)
        end
      else if in_range 224 224 b0 then three (in_range 160 191)
      else if in_range 237 237 b0 then three (in_range 128 159)
      else if in_range 225 239 b0 then three continuation
      else if in_range 240 240 b0 then four (in_range 144 191)
      else if in_range 244 244 b0 then four (in_range 128 143)
      else if in_range 241 243 b0 then four continuation
      else (None, 1%nat)
  end.

(** The string cut into characters and ill-formed pieces; its length is enough
    fuel because every piece takes a byte. *)
Fixpoint utf8_chunks (fuel : nat) (l : bytes) : list (option N * bytes) :=
  match fuel, l with
  | S fuel, _ :: _ =>
      let '(c, n) := utf8_next l in (c, take n l) :: utf8_chunks fuel (drop n l)
  | _, _ => []
  end.
Definition utf8_pieces (l : bytes) : list (option N * bytes) := utf8_chunks (length l) l.
Definition valid_utf8 (l : bytes) : bool :=
  forallb (fun '(c, _) => match c with Some _ => true | None => false end) (utf8_pieces l).

Definition string_of_bytes (l : bytes) : string := String.string_of_list_byte l.
(** [str::from_utf8] and [String::from_utf8]. *)
Definition from_utf8 (l : bytes) : option string :=
  if valid_utf8 l then Some (string_of_bytes l) else None.
(** [String::from_utf8_lossy]: U+FFFD for every ill-formed piece. *)
Definition from_utf8_lossy (l : bytes) : string :=
  string_of_bytes
    (concat (map (fun '(c, p) => match c with Some _ => p | None => [xef; xbf; xbd] end)
                 (utf8_pieces l))).

(** [str::chars] of a string. *)
Definition chars (s : string) : list N := omap fst (utf8_pieces (as_bytes s)).
(** [char::is_control] and [char::is_whitespace]. *)
Definition is_control (c : N) : bool := ((c <? 32) || ((127 <=? c) && (c <=? 159)))%N.
Definition is_whitespace (c : N) : bool :=
  (((9 <=? c) && (c <=? 13)) || (c =? 32) || (c =? 133) || (c =? 160) || (c =? 5760)
   || ((8192 <=? c) && (c <=? 8202)) || (c =? 8232) || (c =? 8233) || (c =? 8239)
   || (c =? 8287) || (c =? 12288))%N.

Lemma from_utf8_bytes l s : from_utf8 l = Some s -> as_bytes s = l.
Proof.
  unfold from_utf8. destruct (valid_utf8 l); intros [= <-].
  apply String.list_byte_of_string_of_list_byte.
Qed.

Example utf8_pieces_example :
  utf8_pieces [x61; xc3; xa9; xff; xe2; x82; xac; xf0; x9f] =
  [(Some 97%N, [x61]); (Some 233%N, [xc3; xa9]); (None, [xff]);
   (Some 8364%N, [xe2; x82; xac]); (None, [xf0; x9f])].
Proof. reflexivity. Qed.

(** [char::encode_utf8] of a code point. *)
Definition byte_of (n : N) : Byte.byte := default x00 (Byte.of_N n).
Definition utf8_encode (c : N) : bytes :=
  (if c <? 128 then [byte_of c]
   else if c <? 2048 then [byte_of (192 + c / 64); byte_of (128 + c mod 64)]
   else if c <? 65536 then
     [byte_of (224 + c / 4096); byte_of (128 + c / 64 mod 64); byte_of (128 + c mod 64)]
   else [byte_of (240 + c / 262144); byte_of (128 + c / 4096 mod 64); byte_of (128 + c / 64 mod 64);
         byte_of (128 + c mod 64)])%N.
Example utf8_encode_example :
  (utf8_pieces ∘ utf8_encode) <$> [97; 233; 8364; 128512]%N =
  [[(Some 97%N, [x61])]; [(Some 233%N, [xc3; xa9])]; [(Some 8364%N, [xe2; x82; xac])];
   [(Some 128512%N, [xf0; x9f; x98; x80])]].
Proof. reflexivity. Qed.
