(* ===== verification/Wire.v ===== *)
(** * The wire format

    [crates/epochgrid-core/src/wire.rs] and the records of the other modules
    that travel inside its [Envelope]: registrations, transparency snapshots,
    revocation logs, signed group policies and Welcome relays. [encode] and
    [decode] are the only way bytes enter or leave the protocol. *)
From S2P Require Import Prelude External.

(* @src core/wire.rs 3-3 VERSION *)
Definition VERSION : Z := 1.
(* @src core/wire.rs 4-4 KEYPACKAGE *)
Definition KEYPACKAGE : string := "epochgrid.v1.identity.keypackage".
(* @src core/wire.rs 5-5 REVOCATIONS *)
Definition REVOCATIONS : string := "epochgrid.v1.identity.revocations".
(* @src core/wire.rs 6-6 REVOKE *)
Definition REVOKE : string := "epochgrid.v1.identity.revoke".
(* @src core/wire.rs 7-7 AUDIT *)
Definition AUDIT : string := "epochgrid.v1.identity.audit".
(* @src core/wire.rs 8-8 DEVICES *)
Definition DEVICES : string := "epochgrid.v1.identity.devices".
(* @src core/wire.rs 9-9 LOOKUP *)
Definition LOOKUP : string := "epochgrid.v1.identity.lookup".
(* @src core/wire.rs 10-10 REGISTER *)
Definition REGISTER : string := "epochgrid.v1.identity.register".
(* @src core/wire.rs 11-11 MAX_WIRE *)
Definition MAX_WIRE : Z := 65536.

(* @src core/wire.rs 25-35 validate_id *)
Definition validate_id (id : string) : result unit :=
  if (slen id =? 0) || (32 <? slen id)
     || negb (string_all (fun b => is_ascii_lowercase b || is_ascii_digit b
                                   || bool_decide (b = "-"%char)) id)
  then Err (Protocol InvalidId)
  else Ok tt.

(* @src core/wire.rs 37-47 RegistrationPayload *)
Record RegistrationPayload : Type := {
  protocol_version : Z;
  user_id : string;
  device_id : string;
  nats_public_key : string;
  mls_credential : bytes;
  mls_key_package : bytes;
  reg_generation : Z;
  created_at : Z;
}.
(* @src core/wire.rs 48-52 DeviceRegistration *)
Record DeviceRegistration : Type := {
  payload : RegistrationPayload;
  reg_signature : bytes;
}.

(* @src core/transparency.rs 13-20 Checkpoint *)
Record Checkpoint : Type := {
  cp_version : Z;
  cp_size : Z;
  cp_root : bytes;
  cp_signer : string;
  cp_signature : bytes;
}.
(* @src core/transparency.rs 21-25 Snapshot *)
Record Snapshot : Type := {
  checkpoint : Checkpoint;
  entries : list DeviceRegistration;
}.

(* @src core/revocation.rs 14-22 RevokeRequest *)
Record RevokeRequest : Type := {
  rr_version : Z;
  rr_user : string;
  rr_device : string;
  rr_nkey : string;
  rr_author : string;
  rr_signature : bytes;
}.
(* @src core/revocation.rs 80-84 Revocation *)
Record Revocation : Type := {
  request : RevokeRequest;
  chat_cutoff : Z;
}.
(* @src core/revocation.rs 85-89 RevocationLog *)
Record RevocationLog : Type := {
  rl_checkpoint : Checkpoint;
  rl_entries : list Revocation;
}.

(* @src core/authorization.rs 11-15 Member *)
Record Member : Type := { nkey : string; leaf : Z }.
(* @src core/authorization.rs 16-24 PolicyUpdate *)
Record PolicyUpdate : Type := {
  pu_version : Z;
  pu_gid : string;
  expected_generation : Z;
  pu_epoch : Z;
  signer : string;
  members : list Member;
}.
(* @src core/authorization.rs 25-29 SignedPolicy *)
Record SignedPolicy : Type := { update : PolicyUpdate; sp_signature : bytes }.
(* @src core/authorization/delivery.rs 12-18 PolicyState *)
Record PolicyState : Type := {
  ps_generation : Z;
  ps_epoch : Z;
  ps_coordinator : string;
  ps_members : list Member;
}.
(* @src core/authorization/delivery.rs 26-36 WelcomeRelay *)
Record WelcomeRelay : Type := {
  wr_version : Z;
  wr_gid : string;
  wr_epoch : Z;
  recipient : string;
  sender : string;
  wr_id : Z;
  wr_payload : bytes;
  wr_signature : bytes;
}.

Module Body.
(* @src core/wire.rs 63-107 Body *)
Inductive t : Type :=
| Register (r : DeviceRegistration)
| Registered
| Rejected
| Lookup (user device : string)
| Found (r : DeviceRegistration)
| NotFound
| ClaimKeyPackage (user device group : string)
| Welcome (payload : bytes)
| ListDevices (user : string)
| Devices (l : list DeviceRegistration)
| Audit
| AuditLog (s : Snapshot)
| RegistrationAudit
| RevocationAudit
| RevocationLog (l : Wire.RevocationLog)
| Revoke (r : RevokeRequest)
| Revoked
| Enroll (token : string) (registration : DeviceRegistration)
| GroupPolicy (p : SignedPolicy)
| PolicyApplied (generation : Z)
| PolicyQuery (gid : string)
| PolicyState (s : option Wire.PolicyState)
| RelayWelcome (r : WelcomeRelay)
| WelcomeRelayed.
End Body.

(* @src core/wire.rs 108-112 Envelope *)
Record Envelope : Type := { version : Z; body : Body.t }.

#[global] Instance RegistrationPayload_eq_dec : EqDecision RegistrationPayload.
Proof. solve_decision. Defined.
#[global] Instance DeviceRegistration_eq_dec : EqDecision DeviceRegistration.
Proof. solve_decision. Defined.
#[global] Instance Checkpoint_eq_dec : EqDecision Checkpoint.
Proof. solve_decision. Defined.
#[global] Instance Snapshot_eq_dec : EqDecision Snapshot.
Proof. solve_decision. Defined.
#[global] Instance RevokeRequest_eq_dec : EqDecision RevokeRequest.
Proof. solve_decision. Defined.
#[global] Instance Revocation_eq_dec : EqDecision Revocation.
Proof. solve_decision. Defined.
#[global] Instance RevocationLog_eq_dec : EqDecision RevocationLog.
Proof. solve_decision. Defined.
#[global] Instance Member_eq_dec : EqDecision Member.
Proof. solve_decision. Defined.
#[global] Instance PolicyUpdate_eq_dec : EqDecision PolicyUpdate.
Proof. solve_decision. Defined.
#[global] Instance PolicyState_eq_dec : EqDecision PolicyState.
Proof. solve_decision. Defined.

(* @src core/wire.rs 59-61 key *)
Definition key (p : RegistrationPayload) : string :=
  "users." +:+ user_id p +:+ ".devices." +:+ device_id p.

(** ** Validated identifiers

    An accepted user or device name holds none of the characters that separate
    or match NATS subject tokens, so it is one token of a subject and one field
    of a directory key. *)
Lemma validate_id_chars id u :
  validate_id id = Ok u ->
  string_all (fun b => is_ascii_lowercase b || is_ascii_digit b || bool_decide (b = "-"%char)) id
  = true /\ 1 <= slen id <= 32.
Proof.
  unfold validate_id. destruct (_ || _) eqn:E; [done|]. intros _. bool_prop.
  assert (0 <= slen id) by (unfold slen; lia). split; [done|lia].
Qed.

Lemma id_char_not (c sep : ascii) :
  is_ascii_lowercase c || is_ascii_digit c || bool_decide (c = "-"%char) = true ->
  is_ascii_lowercase sep || is_ascii_digit sep || bool_decide (sep = "-"%char) = false ->
  negb (bool_decide (c = sep)) = true.
Proof.
  intros Hc Hs. rewrite negb_true_iff. apply bool_decide_eq_false_2. intros ->. congruence.
Qed.

Lemma validate_id_lacks id u sep :
  validate_id id = Ok u ->
  is_ascii_lowercase sep || is_ascii_digit sep || bool_decide (sep = "-"%char) = false ->
  lacks sep id = true.
Proof.
  intros [Hid _]%validate_id_chars Hsep. revert Hid. apply string_all_impl.
  intros c Hc. by apply id_char_not.
Qed.

Lemma key_tokens p u v :
  validate_id (user_id p) = Ok u -> validate_id (device_id p) = Ok v ->
  split_on "." (key p) = ["users"; user_id p; "devices"; device_id p].
Proof.
  intros Hu Hd. unfold key.
  change ("users." +:+ user_id p +:+ ".devices." +:+ device_id p)
    with ("users" +:+ String "." (user_id p +:+ String "." ("devices" +:+ String "." (device_id p)))).
  rewrite !split_on_app by (done || by eapply validate_id_lacks).
  by rewrite split_on_lacks by (by eapply validate_id_lacks).
Qed.

(** A directory key names one device: two registrations whose user and
    device names pass [validate_id] have the same key only if both names
    agree. *)
Theorem key_inj p q :
  validate_id (user_id p) = Ok tt -> validate_id (device_id p) = Ok tt ->
  validate_id (user_id q) = Ok tt -> validate_id (device_id q) = Ok tt ->
  key p = key q -> user_id p = user_id q /\ device_id p = device_id q.
Proof.
  intros Hpu Hpd Hqu Hqd Hk.
  pose proof (key_tokens _ _ _ Hpu Hpd) as Hp. pose proof (key_tokens _ _ _ Hqu Hqd) as Hq.
  rewrite Hk, Hq in Hp. by injection Hp as -> ->.
Qed.

Section codec.
Context `{Postcard Envelope} `{Postcard RegistrationPayload}.

(* @src core/wire.rs 54-58 signing_bytes *)
Definition signing_bytes (p : RegistrationPayload) : result bytes :=
  let? b := to_allocvec p in
  Ok (as_bytes "EpochGrid device registration v1" ++ [x00] ++ b).

(* @src core/wire.rs 113-122 encode *)
Definition encode (b : Body.t) : result bytes :=
  let? bytes := to_allocvec {| version := VERSION; body := b |} in
  if MAX_WIRE <? zlen bytes then Err (Protocol Size) else Ok bytes.

(* @src core/wire.rs 123-137 decode *)
Definition decode (bytes : bytes) : result Body.t :=
  if MAX_WIRE <? zlen bytes then Err (Protocol Size)
  else
    let? (envelope, remaining) := take_from_bytes bytes in
    if negb (bool_decide (remaining = [])) then Err (Protocol Encoding)
    else if negb (version envelope =? VERSION) then Err (Protocol Version)
    else Ok (body envelope).

Lemma decode_Ok bs b :
  decode bs = Ok b <->
  zlen bs <= MAX_WIRE /\ take_from_bytes bs = Ok ({| version := VERSION; body := b |}, []).
Proof.
  unfold decode. split.
  - destruct (MAX_WIRE <? zlen bs) eqn:Hlen; [done|]. intros Hd. inv_ok.
    destruct a as [[v b'] rest]. simpl in *. case_bool_decide; simpl in *; [|done].
    destruct (v =? VERSION) eqn:Hv; simpl in *; [|done]. bool_prop. inv_ok. by subst.
  - intros [Hlen ->]. rewrite (proj2 (Z.ltb_ge _ _)) by lia. done.
Qed.

Lemma encode_Ok b bs :
  encode b = Ok bs <->
  zlen bs <= MAX_WIRE /\ to_allocvec {| version := VERSION; body := b |} = Ok bs.
Proof.
  unfold encode. split.
  - intros He. inv_ok. destruct (MAX_WIRE <? zlen a) eqn:Hlen; [done|]. bool_prop. by inv_ok.
  - intros [Hlen ->]. simpl. by rewrite (proj2 (Z.ltb_ge _ _)) by lia.
Qed.

(** A message the encoder accepts decodes to itself: for every body whose
    encoding fits the wire limit, [decode] of the bytes [encode] returned gives
    that body back (the law of the postcard format for this envelope is the
    only assumption). *)
Theorem encode_decode b bs :
  postcard_law {| version := VERSION; body := b |} ->
  encode b = Ok bs -> decode bs = Ok b.
Proof.
  intros (bs' & He & Hd) [Hlen He']%encode_Ok. apply decode_Ok.
  rewrite He in He'. injection He' as ->. specialize (Hd []). rewrite app_nil_r in Hd. done.
Qed.

Lemma encode_inj b b' bs :
  postcard_law {| version := VERSION; body := b |} ->
  postcard_law {| version := VERSION; body := b' |} ->
  encode b = Ok bs -> encode b' = Ok bs -> b = b'.
Proof.
  intros Hl Hl' [_ He]%encode_Ok [_ He']%encode_Ok.
  pose proof (postcard_law_inj _ _ _ Hl Hl' He He') as Heq. congruence.
Qed.
End codec.
