(* ===== verification/AuthDb.v ===== *)
(** * The authority registry's tables

    The schema [AuthRegistry::open] and [audit::migrate] create in
    [auth.sqlite] ([identity_model.rs], [audit.rs]), one finite map per table,
    with the constraints and triggers the statements rely on. *)
From S2P Require Import Prelude External.

(* @src core/identity_model.rs 145-145 users *)
Record UserRow : Type := { enabled : bool; user_ref : string }.
(* @src core/identity_model.rs 147-147 enrollment_tokens *)
Record TokenRow : Type := { token_user_id : string; expires : Z; used_key : option string }.
(* @src core/identity_model.rs 148-148 devices *)
Record DeviceRow : Type := {
  dev_user_id : string;
  dev_device_id : string;
  registration : bytes;
  ready : bool;
  revoked : bool;
  authorization_generation : Z;
  device_ref : string;
}.
(* @src core/identity_model.rs 153-153 authorization_groups *)
Record GroupRow : Type := {
  generation : Z;
  epoch : Z;
  coordinator : string;
  last_update : bytes;
  group_ref : string;
}.
(* @src core/audit.rs 180-180 audit_state *)
Record AuditState : Type := {
  store_id : string;
  next_sequence : Z;
  retained_from : Z;
  events : Z;
  event_bytes : Z;
  gaps : bool;
  policy_version : Z;
  prune_through : Z;
  degraded : bool;
}.
(* @src core/audit.rs 180-182 audit tables *)
Record AuditTables : Type := {
  audit_state : AuditState;
  audit_pending : gmap string string;
  audit_events : gmap Z string;
}.

(** [schema] is [MAX(version)] of [auth_migrations]. *)
(* @src core/identity_model.rs 144-155 schema *)
Record AuthDb : Type := {
  schema : Z;
  users : gmap string UserRow;
  identity_bindings : gmap (string * string) string;
  enrollment_tokens : gmap bytes TokenRow;
  devices : gmap string DeviceRow;
  authorization_groups : gmap string GroupRow;
  authorization_members : gmap (string * string) Z;
  audit : AuditTables;
  db_autocommit : bool;
  db_commit_ok : bool;
}.

Definition set_users f (d : AuthDb) : AuthDb :=
  {| schema := schema d; users := f (users d); identity_bindings := identity_bindings d;
     enrollment_tokens := enrollment_tokens d; devices := devices d;
     authorization_groups := authorization_groups d;
     authorization_members := authorization_members d; audit := audit d;
     db_autocommit := db_autocommit d; db_commit_ok := db_commit_ok d |}.
Definition set_bindings f (d : AuthDb) : AuthDb :=
  {| schema := schema d; users := users d; identity_bindings := f (identity_bindings d);
     enrollment_tokens := enrollment_tokens d; devices := devices d;
     authorization_groups := authorization_groups d;
     authorization_members := authorization_members d; audit := audit d;
     db_autocommit := db_autocommit d; db_commit_ok := db_commit_ok d |}.
Definition set_tokens f (d : AuthDb) : AuthDb :=
  {| schema := schema d; users := users d; identity_bindings := identity_bindings d;
     enrollment_tokens := f (enrollment_tokens d); devices := devices d;
     authorization_groups := authorization_groups d;
     authorization_members := authorization_members d; audit := audit d;
     db_autocommit := db_autocommit d; db_commit_ok := db_commit_ok d |}.
Definition set_devices f (d : AuthDb) : AuthDb :=
  {| schema := schema d; users := users d; identity_bindings := identity_bindings d;
     enrollment_tokens := enrollment_tokens d; devices := f (devices d);
     authorization_groups := authorization_groups d;
     authorization_members := authorization_members d; audit := audit d;
     db_autocommit := db_autocommit d; db_commit_ok := db_commit_ok d |}.
Definition set_groups f (d : AuthDb) : AuthDb :=
  {| schema := schema d; users := users d; identity_bindings := identity_bindings d;
     enrollment_tokens := enrollment_tokens d; devices := devices d;
     authorization_groups := f (authorization_groups d);
     authorization_members := authorization_members d; audit := audit d;
     db_autocommit := db_autocommit d; db_commit_ok := db_commit_ok d |}.
Definition set_members f (d : AuthDb) : AuthDb :=
  {| schema := schema d; users := users d; identity_bindings := identity_bindings d;
     enrollment_tokens := enrollment_tokens d; devices := devices d;
     authorization_groups := authorization_groups d;
     authorization_members := f (authorization_members d); audit := audit d;
     db_autocommit := db_autocommit d; db_commit_ok := db_commit_ok d |}.
Definition set_audit f (d : AuthDb) : AuthDb :=
  {| schema := schema d; users := users d; identity_bindings := identity_bindings d;
     enrollment_tokens := enrollment_tokens d; devices := devices d;
     authorization_groups := authorization_groups d;
     authorization_members := authorization_members d; audit := f (audit d);
     db_autocommit := db_autocommit d; db_commit_ok := db_commit_ok d |}.
Definition set_db_autocommit b (d : AuthDb) : AuthDb :=
  {| schema := schema d; users := users d; identity_bindings := identity_bindings d;
     enrollment_tokens := enrollment_tokens d; devices := devices d;
     authorization_groups := authorization_groups d;
     authorization_members := authorization_members d; audit := audit d;
     db_autocommit := b; db_commit_ok := db_commit_ok d |}.

#[global] Instance authdb_connection : Connection AuthDb := {
  autocommit := db_autocommit;
  set_autocommit := set_db_autocommit;
  commit_ok := db_commit_ok;
}.
#[global] Instance authdb_connection_laws : ConnectionLaws AuthDb.
Proof. split; try done. by intros []. Qed.

(** ** What two states of the database share *)

(** The tables other than the audit trail. *)
Definition same_registry (d d' : AuthDb) : Prop :=
  schema d' = schema d /\ users d' = users d /\ identity_bindings d' = identity_bindings d /\
  enrollment_tokens d' = enrollment_tokens d /\ devices d' = devices d /\
  authorization_groups d' = authorization_groups d /\
  authorization_members d' = authorization_members d.
#[global] Instance same_registry_preorder : PreOrder same_registry.
Proof.
  split; [by intros d|].
  intros d1 d2 d3 H12 H23. unfold same_registry in *. destruct_and!. repeat split; congruence.
Qed.

Definition same_audit (d d' : AuthDb) : Prop := audit d' = audit d.
#[global] Instance same_audit_preorder : PreOrder same_audit.
Proof. split; [by intros d|]. intros d1 d2 d3 H12 H23. unfold same_audit in *. congruence. Qed.

Lemma same_registry_set_audit f d : same_registry d (set_audit f d).
Proof. done. Qed.
Lemma same_registry_autocommit (b : bool) d : same_registry d (set_autocommit b d).
Proof. done. Qed.

(** ** Statements with constraints *)

(** [INSERT INTO users(id,enabled)]; the trigger [audit_user_reference] draws
    the row's random reference. *)
(* @src core/audit.rs 189-189 audit_user_reference *)
Definition insert_user (id : string) (en : bool) (rnd : string) : M AuthDb unit := fun d =>
  match insert_row id {| enabled := en; user_ref := rnd |} (users d) with
  | Ok t => (Ok tt, set_users (fun _ => t) d)
  | Err e => (Err e, d)
  end.

(** [identity_bindings] references [users(id)]. *)
(* @src core/identity_model.rs 146-146 identity_bindings *)
Definition insert_binding (provider subject uid : string) : M AuthDb unit := fun d =>
  if bool_decide (is_Some (users d !! uid)) then
    match insert_row (provider, subject) uid (identity_bindings d) with
    | Ok t => (Ok tt, set_bindings (fun _ => t) d)
    | Err e => (Err e, d)
    end
  else (Err SqlConstraint, d).

(* @src core/identity_model.rs 147-147 enrollment_tokens *)
Definition insert_token (digest : bytes) (row : TokenRow) : M AuthDb unit := fun d =>
  if bool_decide (is_Some (users d !! token_user_id row)) then
    match insert_row digest row (enrollment_tokens d) with
    | Ok t => (Ok tt, set_tokens (fun _ => t) d)
    | Err e => (Err e, d)
    end
  else (Err SqlConstraint, d).

(** [UNIQUE(user_id,device_id)], the defaults [ready=0], [revoked=0] and
    [authorization_generation=1], and the trigger [audit_device_reference]. *)
(* @src core/audit.rs 190-190 audit_device_reference *)
Definition insert_device (k uid device : string) (reg : bytes) (rnd : string) : M AuthDb unit :=
  fun d =>
  if bool_decide (is_Some (users d !! uid))
     && negb (exists_row (fun _ r => bool_decide (dev_user_id r = uid)
                                     && bool_decide (dev_device_id r = device)) (devices d))
  then
    match insert_row k
            {| dev_user_id := uid; dev_device_id := device; registration := reg;
               ready := false; revoked := false; authorization_generation := 1;
               device_ref := rnd |} (devices d) with
    | Ok t => (Ok tt, set_devices (fun _ => t) d)
    | Err e => (Err e, d)
    end
  else (Err SqlConstraint, d).

(** [authorization_members] references its group and its device, and a leaf is
    unique within a group. *)
(* @src core/identity_model.rs 154-154 authorization_members *)
Definition insert_member (gid k : string) (lf : Z) : M AuthDb unit := fun d =>
  if bool_decide (is_Some (authorization_groups d !! gid))
     && bool_decide (is_Some (devices d !! k))
     && negb (exists_row (fun '(g, _) l => bool_decide (g = gid) && (l =? lf))
                (authorization_members d))
  then
    match insert_row (gid, k) lf (authorization_members d) with
    | Ok t => (Ok tt, set_members (fun _ => t) d)
    | Err e => (Err e, d)
    end
  else (Err SqlConstraint, d).

(** Upsert of a group: the conflict branch keeps the reference column, the
    insert runs the trigger [audit_group_reference]. *)
(* @src core/audit.rs 191-191 audit_group_reference *)
Definition upsert_group (gid : string) (gen ep : Z) (coord : string) (upd : bytes) (rnd : string)
  : M AuthDb unit :=
  modify (set_groups (fun t =>
    <[gid := {| generation := gen; epoch := ep; coordinator := coord; last_update := upd;
                group_ref := match t !! gid with Some r => group_ref r | None => rnd end |}]> t)).

(** ** Frames of the statements *)

Lemma insert_user_audit id en rnd : keeps same_audit (insert_user id en rnd).
Proof. intros d. unfold insert_user. by destruct (insert_row _ _ _). Qed.
Lemma insert_binding_audit p s u : keeps same_audit (insert_binding p s u).
Proof.
  intros d. unfold insert_binding. case_bool_decide; [|done]. by destruct (insert_row _ _ _).
Qed.
Lemma insert_token_audit g r : keeps same_audit (insert_token g r).
Proof.
  intros d. unfold insert_token. case_bool_decide; [|done]. by destruct (insert_row _ _ _).
Qed.
Lemma insert_device_audit k u v r n : keeps same_audit (insert_device k u v r n).
Proof.
  intros d. unfold insert_device. destruct (_ && _); [|done]. by destruct (insert_row _ _ _).
Qed.
Lemma insert_member_audit g k l : keeps same_audit (insert_member g k l).
Proof.
  intros d. unfold insert_member. destruct (_ && _); [|done]. by destruct (insert_row _ _ _).
Qed.
Lemma upsert_group_audit g a b c u r : keeps same_audit (upsert_group g a b c u r).
Proof. by intros d. Qed.
#[export] Hint Resolve insert_user_audit insert_binding_audit insert_token_audit
  insert_device_audit insert_member_audit upsert_group_audit : keeps.

(** What a successful statement did. *)
Lemma insert_user_Ok id en rnd d u d' :
  insert_user id en rnd d = (Ok u, d') ->
  users d !! id = None /\
  d' = set_users (<[id := {| enabled := en; user_ref := rnd |}]>) d.
Proof.
  unfold insert_user. destruct (insert_row _ _ _) eqn:E; [|done]. intros [= <- <-].
  by apply insert_row_Ok in E as [? ->].
Qed.

Lemma insert_binding_Ok p s u d v d' :
  insert_binding p s u d = (Ok v, d') ->
  is_Some (users d !! u) /\ identity_bindings d !! (p, s) = None /\
  d' = set_bindings (<[(p, s) := u]>) d.
Proof.
  unfold insert_binding. case_bool_decide; [|done].
  destruct (insert_row _ _ _) eqn:E; [|done]. intros [= <- <-].
  by apply insert_row_Ok in E as [? ->].
Qed.

Lemma insert_token_Ok g r d v d' :
  insert_token g r d = (Ok v, d') ->
  is_Some (users d !! token_user_id r) /\ enrollment_tokens d !! g = None /\
  d' = set_tokens (<[g := r]>) d.
Proof.
  unfold insert_token. case_bool_decide; [|done].
  destruct (insert_row _ _ _) eqn:E; [|done]. intros [= <- <-].
  by apply insert_row_Ok in E as [? ->].
Qed.

Definition new_device (uid device : string) (reg : bytes) (rnd : string) : DeviceRow :=
  {| dev_user_id := uid; dev_device_id := device; registration := reg; ready := false;
     revoked := false; authorization_generation := 1; device_ref := rnd |}.

Lemma insert_device_Ok k uid device reg rnd d v d' :
  insert_device k uid device reg rnd d = (Ok v, d') ->
  is_Some (users d !! uid) /\ devices d !! k = None /\
  (forall k' r, devices d !! k' = Some r -> dev_user_id r = uid -> dev_device_id r <> device) /\
  d' = set_devices (<[k := new_device uid device reg rnd]>) d.
Proof.
  unfold insert_device. destruct (_ && _) eqn:Hc; [|done].
  destruct (insert_row _ _ _) eqn:E; [|done]. intros [= <- <-].
  apply insert_row_Ok in E as [? ->]. bool_prop. split_and!; try done.
  intros k' r Hr Hu Hd. rewrite exists_row_false in *.
  specialize (H1 _ _ Hr). rewrite !bool_decide_eq_true_2 in H1 by done. done.
Qed.

Lemma insert_member_Ok g k l d v d' :
  insert_member g k l d = (Ok v, d') ->
  is_Some (authorization_groups d !! g) /\ is_Some (devices d !! k) /\
  authorization_members d !! (g, k) = None /\
  (forall k', authorization_members d !! (g, k') <> Some l) /\
  d' = set_members (<[(g, k) := l]>) d.
Proof.
  unfold insert_member. destruct (_ && _) eqn:Hc; [|done].
  destruct (insert_row _ _ _) eqn:E; [|done]. intros [= <- <-].
  apply insert_row_Ok in E as [? ->]. bool_prop. split_and!; try done.
  intros k' Hk'. rewrite exists_row_false in *.
  specialize (H1 (g, k') _ Hk'). simpl in H1.
  rewrite bool_decide_eq_true_2, Z.eqb_refl in H1; done.
Qed.
