(* ===== verification/Capacity.v ===== *)
(** * Capacity policy and rate limits

    [crates/epochgrid-core/src/capacity.rs]: the public, bounded capacity
    policy, the checks that compare it with the registry's tables and the
    database's pages, and the integer token bucket. *)
From S2P Require Import Prelude External AuthDb.

(* @src core/capacity.rs 7-7 REGISTRATION_BYTES *)
Definition REGISTRATION_BYTES : Z := 1536.
(* @src core/capacity.rs 9-9 OUTBOX_BATCH *)
Definition OUTBOX_BATCH : Z := 16.

(* @src core/capacity.rs 11-33 Capacity *)
Record Capacity : Type := {
  cap_version : Z;
  retained_users : Z;
  retained_devices : Z;
  devices_per_user : Z;
  retained_tokens : Z;
  retained_groups : Z;
  membership_edges : Z;
  groups_per_device : Z;
  pending_messages : Z;
  pending_bytes : Z;
  database_bytes : Z;
  recovery_bytes : Z;
  requests_per_second : Z;
  request_burst : Z;
  chat_bytes : Z;
  mailbox_bytes : Z;
  directory_bytes : Z;
  channels_bytes : Z;
  transparency_bytes : Z;
}.

(* @src core/capacity.rs 34-58 default *)
Definition default_capacity : Capacity := {|
  cap_version := 1;
  retained_users := 32;
  retained_devices := 32;
  devices_per_user := 8;
  retained_tokens := 256;
  retained_groups := 32;
  membership_edges := 512;
  groups_per_device := 16;
  pending_messages := 256;
  pending_bytes := 4 * 1024 * 1024;
  database_bytes := 256 * 1024 * 1024;
  recovery_bytes := 16 * 1024 * 1024;
  requests_per_second := 32;
  request_burst := 64;
  chat_bytes := 64 * 1024 * 1024;
  mailbox_bytes := 16 * 1024 * 1024;
  directory_bytes := 1024 * 1024;
  channels_bytes := 1024 * 1024;
  transparency_bytes := 1024 * 1024;
|}.

(* @src core/capacity.rs 60-100 validate *)
Definition validate (c : Capacity) : result unit :=
  check (cap_version c =? 1) "unsupported capacity version" ;;?
  rforall (fun '(value, ceiling) =>
      check ((0 <? value) && (value <=? ceiling)) "capacity range invalid")
    [(retained_users c, 32);
     (retained_devices c, 32);
     (devices_per_user c, 32);
     (retained_tokens c, 4096);
     (retained_groups c, 128);
     (membership_edges c, 4096);
     (groups_per_device c, 16);
     (pending_messages c, 4096);
     (pending_bytes c, 64 * 1024 * 1024);
     (database_bytes c, 16 * 1024 * 1024 * 1024);
     (recovery_bytes c, 1024 * 1024 * 1024);
     (requests_per_second c, 1024);
     (request_burst c, 1024)] ;;?
  check (devices_per_user c <=? retained_devices c) "device capacity inconsistent" ;;?
  check (recovery_bytes c <? database_bytes c)
    "recovery reserve must fit database budget" ;;?
  rforall (fun bytes =>
      check ((262144 <=? bytes) && (bytes <=? 1024 * 1024 * 1024 * 1024))
        "broker byte budget out of range")
    [chat_bytes c; mailbox_bytes c; directory_bytes c; channels_bytes c; transparency_bytes c].

(** The policy file under [home]: absent, unreadable or its bytes. *)
Class CapacityFile : Type := capacity_from_slice : bytes -> result Capacity.

Section file.
Context `{CapacityFile}.

(* @src core/capacity.rs 101-107 load *)
Definition load (file : result (option bytes)) : result Capacity :=
  let? contents := file in
  let? bytes := ok_or contents External in
  check (zlen bytes <=? 8192) "capacity file too large" ;;?
  let? policy := capacity_from_slice bytes in
  validate policy ;;?
  Ok policy.

(* @src core/capacity.rs 110-116 load_or_default *)
Definition load_or_default (file : result (option bytes)) : result Capacity :=
  let? contents := file in
  match contents with
  | Some _ => load file
  | None => Ok default_capacity
  end.

(** Whatever the file holds, a policy that loads is a validated one. *)
Lemma load_or_default_valid file c : load_or_default file = Ok c -> validate c = Ok tt.
Proof.
  unfold load_or_default, load. intros Hl. inv_ok. destruct a as [bs|].
  - inv_ok. congruence.
  - inv_ok. vm_compute. done.
Qed.
End file.

(** [u64] subtraction in a release build wraps. *)
Definition wrapping_sub64 (a b : Z) : Z := (a - b) mod 2 ^ 64.

Section database.
Context {S : Type} `{Pages S}.

(* @src core/capacity.rs 203-218 check_database *)
Definition check_database_pure (c : Capacity) (reserve : bool) (db : S) : result unit :=
  let? pages := (if 0 <=? page_count db then Ok (page_count db) else Err External) in
  let? size := match page_size db with
               | SqlInteger n => if 0 <=? n then Ok n else Err External
               | SqlText n => parse_u64 n
               | SqlOther => Err (Anyhow "invalid database page size")
               end in
  let limit := wrapping_sub64 (database_bytes c) (if reserve then 0 else recovery_bytes c) in
  check (match checked_mul64 pages size with Some bytes => bytes <=? limit | None => false end)
    "capacity exhausted: database; operator storage increase required".

Definition check_database (c : Capacity) (reserve : bool) : M S unit := fun db =>
  (check_database_pure c reserve db, db).
End database.

(** [SELECT COALESCE(MAX(n),0) FROM (SELECT COUNT( * ) n FROM t WHERE p GROUP BY g)]. *)
Definition max_group {K V G} `{Countable K} `{EqDecision G}
    (g : K -> V -> G) (p : K -> V -> bool) (m : gmap K V) : Z :=
  foldr Z.max 0 (map (fun '(k, v) =>
    count_rows (fun k' v' => p k' v' && bool_decide (g k' v' = g k v)) m) (rows p m)).

(** [SELECT COALESCE(MAX(f),0) FROM t]. *)
Definition max_of {K V} `{Countable K} (f : V -> Z) (m : gmap K V) : Z :=
  foldr Z.max 0 (map (fun '(_, v) => f v) (map_to_list m)).

Section registry.
Context `{Pages AuthDb}.

(* @src core/capacity.rs 166-192 check_registry limits *)
Definition registry_usage (c : Capacity) (db : AuthDb) : list (Z * Z) :=
  [(table_size (users db), retained_users c);
   (table_size (devices db), retained_devices c);
   (table_size (enrollment_tokens db), retained_tokens c);
   (table_size (authorization_groups db), retained_groups c);
   (table_size (authorization_members db), membership_edges c);
   (max_group (fun _ r => dev_user_id r) (fun _ r => negb (revoked r)) (devices db),
    devices_per_user c);
   (max_group (fun '(_, k) _ => k) (fun _ _ => true) (authorization_members db),
    groups_per_device c);
   (max_of (fun r => zlen (registration r)) (devices db), REGISTRATION_BYTES)].

(* @src core/capacity.rs 165-201 check_registry *)
Definition check_registry (c : Capacity) : M AuthDb unit :=
  let* usage := gets (registry_usage c) in
  lift (rforall (fun '(count, limit) =>
      check (count <=? limit)
        "capacity exhausted: registry; increase declared limits within representation ceilings")
    usage) ;;;
  check_database c true.
End registry.

(** ** The token bucket *)

(* @src core/capacity.rs 221-228 RateLimit *)
Record RateLimit : Type := { tokens : Z; last : Z; rate : Z; burst : Z }.

Definition NANOS : Z := 1000000000.

(* @src core/capacity.rs 230-237 new *)
Definition new_rate (r b now : Z) : RateLimit :=
  {| tokens := b * NANOS; last := now; rate := r; burst := b * NANOS |}.

(** The bucket after refilling at [now]. *)
(* @src core/capacity.rs 239-244 allow (refill) *)
Definition refill (l : RateLimit) (now : Z) : RateLimit :=
  let elapsed := Z.max (now - last l) 0 in
  let credit := Z.min (sat_mul128 elapsed (rate l)) (burst l) in
  {| tokens := Z.min (sat_add64 (tokens l) credit) (burst l);
     last := Z.max now (last l); rate := rate l; burst := burst l |}.

(* @src core/capacity.rs 238-250 allow *)
Definition allow (l : RateLimit) (now : Z) : bool * RateLimit :=
  let l := refill l now in
  if tokens l <? NANOS then (false, l)
  else (true, {| tokens := tokens l - NANOS; last := last l; rate := rate l; burst := burst l |}).

(** The number of calls a bucket admits over a sequence of call times. *)
Fixpoint admitted (l : RateLimit) (ts : list Z) : Z * RateLimit :=
  match ts with
  | [] => (0, l)
  | t :: ts =>
      let '(b, l') := allow l t in
      let '(n, l'') := admitted l' ts in
      ((if b then 1 else 0) + n, l'')
  end.

(** A bucket [new] or [allow] can produce from [u32] parameters. *)
Definition rate_wf (l : RateLimit) : Prop :=
  0 <= tokens l <= burst l /\ 0 <= rate l <= u32_max /\ 0 <= burst l <= u32_max * NANOS.

Lemma new_rate_wf r b now :
  0 <= r <= u32_max -> 0 <= b <= u32_max -> rate_wf (new_rate r b now).
Proof. unfold rate_wf, new_rate, NANOS. simpl. lia. Qed.

Lemma refill_tokens l now :
  rate_wf l ->
  tokens (refill l now) = Z.min (tokens l + Z.max (now - last l) 0 * rate l) (burst l).
Proof.
  intros (Ht & Hr & Hb). unfold refill, sat_add64, sat_mul128. simpl.
  assert (u32_max * NANOS < u64_max) as Hu by (vm_compute; done).
  assert (u32_max * NANOS < u128_max) as Hu' by (vm_compute; done).
  assert (0 <= Z.max (now - last l) 0 * rate l) by nia.
  set (c := Z.max (now - last l) 0 * rate l) in *. lia.
Qed.

Lemma refill_wf l now : rate_wf l -> rate_wf (refill l now).
Proof.
  intros Hwf. pose proof Hwf as (Ht & Hr & Hb). unfold rate_wf.
  rewrite refill_tokens by done. simpl.
  assert (0 <= Z.max (now - last l) 0 * rate l) by nia. lia.
Qed.

Lemma allow_wf l now b l' : rate_wf l -> allow l now = (b, l') -> rate_wf l'.
Proof.
  intros Hwf%(refill_wf _ now). unfold allow. revert Hwf. generalize (refill l now) as r.
  intros r (Ht & Hr & Hb). destruct (tokens r <? NANOS) eqn:E; intros [= <- <-]; [done|].
  bool_prop. unfold rate_wf, NANOS in *. simpl. lia.
Qed.

(** One call spends only tokens that were held or that time has earned. *)
Lemma allow_budget l now b l' :
  rate_wf l -> allow l now = (b, l') ->
  last l' = Z.max now (last l) /\ rate l' = rate l /\ burst l' = burst l /\
  tokens l' + (if b then NANOS else 0) <= tokens l + (last l' - last l) * rate l.
Proof.
  intros Hwf. pose proof (refill_tokens l now Hwf) as Ht.
  assert (last (refill l now) = Z.max now (last l) /\ rate (refill l now) = rate l /\
          burst (refill l now) = burst l) as Hf by done.
  unfold allow. revert Ht Hf. generalize (refill l now) as r. intros r Ht (Hl & Hr & Hb).
  replace (Z.max (now - last l) 0) with (Z.max now (last l) - last l) in Ht by lia.
  destruct (tokens r <? NANOS); intros [= <- <-]; simpl; rewrite ?Hl, ?Hr, ?Hb;
    (split_and!; [done..|lia]).
Qed.

Lemma admitted_budget l ts n l' :
  rate_wf l -> admitted l ts = (n, l') ->
  rate_wf l' /\ rate l' = rate l /\ burst l' = burst l /\
  last l' = foldl Z.max (last l) ts /\
  n * NANOS + tokens l' <= tokens l + (last l' - last l) * rate l.
Proof.
  revert l n l'; induction ts as [|t ts IH]; intros l n l' Hwf; simpl.
  - intros [= <- <-]. split_and!; try done. lia.
  - destruct (allow l t) as [b l1] eqn:Ha. destruct (admitted l1 ts) as [n1 l2] eqn:Hs.
    intros [= <- <-].
    destruct (allow_budget _ _ _ _ Hwf Ha) as (Hl & Hr & Hb & Hk).
    destruct (IH l1 n1 l2) as (Hwf2 & Hr2 & Hb2 & Hl2 & Hk2);
      [by eapply allow_wf | done |].
    split_and!; try congruence.
    + by rewrite Hl2, Hl, Z.max_comm.
    + rewrite Hr in Hk2. destruct b; lia.
Qed.

(** C34. The token bucket bounds admission. A limiter created with [u32]
    parameters [r] and [b] at time [t0] admits, over any sequence of call times
    (clock regressions included), at most [b] requests plus [r] per elapsed
    second of the largest time seen, and never holds more than its burst. *)
Theorem rate_limit_bound r b t0 ts n l :
  0 <= r <= u32_max -> 0 <= b <= u32_max ->
  admitted (new_rate r b t0) ts = (n, l) ->
  n * NANOS <= b * NANOS + (foldl Z.max t0 ts - t0) * r /\ 0 <= tokens l <= b * NANOS.
Proof.
  intros Hr Hb Ha.
  destruct (admitted_budget _ _ _ _ (new_rate_wf r b t0 Hr Hb) Ha) as (Hwf & _ & Hbu & Hl & Hk).
  rewrite Hl in Hk. simpl in *. destruct Hwf as (Ht & _ & _). rewrite Hbu in Ht. lia.
Qed.

Lemma rate_limit_bound_witness :
  admitted (new_rate 2 2 0) [0; 0; 0; 499000000; 500000000; 0; 3600000000000]
  = (4, {| tokens := 1000000000; last := 3600000000000; rate := 2; burst := 2000000000 |}) /\
  4 * NANOS <= 2 * NANOS + (3600000000000 - 0) * 2.
Proof.
  split; [vm_compute; reflexivity|].
  apply (rate_limit_bound 2 2 0 [0; 0; 0; 499000000; 500000000; 0; 3600000000000] 4
    {| tokens := 1000000000; last := 3600000000000; rate := 2; burst := 2000000000 |});
    [unfold u32_max; lia | unfold u32_max; lia | vm_compute; reflexivity].
Defined.

(** Refill is prompt: a bucket with a non-zero burst admits a call made once
    the elapsed time is worth one request, whatever was spent before, and an
    older clock never adds credit. *)
Theorem rate_limit_refill l now :
  rate_wf l -> NANOS <= burst l ->
  (NANOS <= (now - last l) * rate l -> fst (allow l now) = true) /\
  (now <= last l -> tokens (refill l now) = tokens l).
Proof.
  intros Hwf Hburst. pose proof Hwf as (Ht & Hr & Hb). split; intros Hnow.
  - unfold allow. rewrite refill_tokens by done.
    assert (NANOS <= Z.max (now - last l) 0 * rate l) by nia.
    rewrite (proj2 (Z.ltb_ge _ _)) by lia. done.
  - rewrite refill_tokens by done. rewrite Z.max_r by lia. lia.
Qed.

Lemma rate_limit_refill_witness :
  let l := {| tokens := 0; last := 0; rate := 2; burst := 2 * NANOS |} in
  fst (allow l 500000000) = true.
Proof.
  refine (proj1 (rate_limit_refill _ 500000000 _ _) _);
    unfold rate_wf, u32_max, NANOS; simpl; lia.
Defined.

(** ** The policy a validated file states *)

Lemma validate_ranges c u :
  validate c = Ok u ->
  0 < retained_devices c <= 32 /\ 0 < devices_per_user c <= retained_devices c /\
  0 < recovery_bytes c < database_bytes c /\ database_bytes c <= 16 * 1024 * 1024 * 1024 /\
  0 < requests_per_second c <= 1024 /\ 0 < request_burst c <= 1024.
Proof.
  unfold validate. intros H. inv_ok. inv_checks. lia.
Qed.

(** A validated capacity policy has no arithmetic surprise: the ordinary
    database limit is the declared budget less the recovery reserve, positive
    and below the budget (no [u64] wrap-around), so whatever an ordinary
    operation may store a recovery operation may store too. *)
Theorem check_database_reserve {S} `{Pages S} c (db : S) :
  validate c = Ok tt ->
  wrapping_sub64 (database_bytes c) (recovery_bytes c) = database_bytes c - recovery_bytes c /\
  (check_database_pure c false db = Ok tt -> check_database_pure c true db = Ok tt).
Proof.
  intros Hv%validate_ranges.
  assert (forall x, 0 <= x < 2 ^ 64 -> x mod 2 ^ 64 = x) as Hmod
    by (intros x Hx; by apply Z.mod_small).
  unfold check_database_pure, wrapping_sub64. split; [apply Hmod; lia|].
  intros Hf. inv_ok. rewrite Hm. simpl. rewrite Hm0. simpl.
  destruct (checked_mul64 a a0) as [b|]; [|done]. bool_prop.
  rewrite Hmod in * by lia. by rewrite (proj2 (Z.leb_le _ _)) by lia.
Qed.

Definition page_model : Pages Z := {| page_count := fun n => n; page_size := fun _ => SqlInteger 4096 |}.

Lemma check_database_reserve_witness :
  @check_database_pure Z page_model default_capacity true 1000 = Ok tt.
Proof.
  refine (proj2 (@check_database_reserve Z page_model default_capacity 1000 _) _);
    vm_compute; reflexivity.
Defined.

Lemma check_database_keeps {S} `{Pages S} (R : S -> S -> Prop) `{!PreOrder R} c b :
  keeps R (check_database c b).
Proof. intros s. reflexivity. Qed.
#[export] Hint Resolve check_database_keeps : keeps.
Lemma check_registry_keeps `{Pages AuthDb} (R : AuthDb -> AuthDb -> Prop) `{!PreOrder R} c :
  keeps R (check_registry c).
Proof.
  unfold check_registry. keeps_auto.
Qed.

#[export] Hint Resolve check_registry_keeps : keeps.
