(* ===== verification/Files.v ===== *)
(** * Files

    What the role and validation code sees of the file system: a path leads to a
    node with a type, an owner, a mode and contents; a symbolic link names
    another path. *)
From S2P Require Import Prelude.

Inductive FileType : Type := Regular | Directory | Symlink (target : string) | Socket | Special.
#[global] Instance FileType_eq_dec : EqDecision FileType.
Proof. solve_decision. Defined.

Record Node : Type := { file_type : FileType; owner : Z; mode : Z; contents : bytes }.
Abbreviation Fs := (gmap string Node).

(** [std::io::ErrorKind::NotFound]. *)
Definition NotFoundFile : error := Anyhow "No such file or directory".

Definition is_file (n : Node) : bool := bool_decide (file_type n = Regular).
Definition is_dir (n : Node) : bool := bool_decide (file_type n = Directory).
Definition is_socket (n : Node) : bool := bool_decide (file_type n = Socket).
Definition is_symlink (n : Node) : bool :=
  match file_type n with Symlink _ => true | _ => false end.

(** [symlink_metadata] does not follow a link. *)
Definition symlink_metadata (path : string) (fs : Fs) : result Node :=
  ok_or (fs !! path) NotFoundFile.
(** The kernel follows at most 40 links. *)
Fixpoint follow (fuel : nat) (path : string) (fs : Fs) : result Node :=
  let? n := symlink_metadata path fs in
  match file_type n, fuel with
  | Symlink target, S fuel => follow fuel target fs
  | Symlink _, O => Err External
  | _, _ => Ok n
  end.
Definition path_exists (path : string) (fs : Fs) : bool := is_ok (follow 40 path fs).
Definition read_file (path : string) (fs : Fs) : result bytes :=
  let? n := follow 40 path fs in
  if is_file n then Ok (contents n) else Err External.
(** [Path::join] of a relative name. *)
Definition join (home name : string) : string := home +:+ "/" +:+ name.

(** [mode & bits == 0]. *)
Definition no_bits (n : Node) (bits : Z) : bool := Z.land (mode n) bits =? 0.

(** ** Changing files *)

(** The file system, and for each of the next operations on it whether it fails,
    and how many bytes a failing write had written; the operations after the end
    of the list succeed. *)
Record Disk : Type := { dk_fs : Fs; dk_user : Z; dk_io : list (option nat) }.
Definition disk_op (f : Fs -> Fs) (partial : nat -> Fs -> Fs) : M Disk unit := fun d =>
  let fault := default None (head (dk_io d)) in
  (match fault with None => Ok tt | Some _ => Err External end,
   {| dk_fs := match fault with None => f (dk_fs d) | Some n => partial n (dk_fs d) end;
      dk_user := dk_user d; dk_io := tl (dk_io d) |}).
Definition untouched (_ : nat) (files : Fs) : Fs := files.

(** [write_all] and [sync_all] of an open file. *)
Definition append_to (path : string) (data : bytes) : Fs -> Fs :=
  alter (fun n => {| file_type := file_type n; owner := owner n; mode := mode n;
                     contents := contents n ++ data |}) path.
Definition write_synced (path : string) (data : bytes) : M Disk unit :=
  disk_op (append_to path data) (fun n => append_to path (take n data)) ;;;
  disk_op id untouched.

(** An operation does its work, or fails and leaves what it had written. *)
Lemma disk_op_cases f partial d r d' :
  disk_op f partial d = (r, d') ->
  dk_user d' = dk_user d /\
  (r = Ok tt /\ dk_fs d' = f (dk_fs d) \/ r = Err External /\ exists n, dk_fs d' = partial n (dk_fs d)).
Proof.
  unfold disk_op. destruct (default None (head (dk_io d))) as [n|]; intros [= <- <-]; (split; [done|]); [right|by left].
  split; [done|by exists n].
Qed.
(** While nothing fails. *)
Definition faultless (d : Disk) : Prop := dk_io d = [].
Lemma disk_op_faultless f partial d : faultless d ->
  disk_op f partial d = (Ok tt, {| dk_fs := f (dk_fs d); dk_user := dk_user d; dk_io := [] |}).
Proof. unfold faultless, disk_op. by intros ->. Qed.
Lemma append_to_other p data fs q : q <> p -> append_to p data fs !! q = fs !! q.
Proof. intros Hq. unfold append_to. by rewrite lookup_alter_ne. Qed.
Lemma append_to_at p data fs q :
  append_to p data fs !! q =
  (if decide (q = p) then (fun n => {| file_type := file_type n; owner := owner n; mode := mode n;
                                       contents := contents n ++ data |}) <$> fs !! q else fs !! q).
Proof. unfold append_to. destruct (decide (q = p)) as [->|]; [apply lookup_alter_eq|by apply lookup_alter_ne]. Qed.
Lemma append_to_nil p fs : append_to p [] fs = fs.
Proof.
  apply map_eq. intros q. rewrite append_to_at. destruct (decide _); [|done].
  destruct (fs !! q) as [[]|]; cbn; by rewrite ?app_nil_r.
Qed.
Lemma append_to_app p a b fs : append_to p b (append_to p a fs) = append_to p (a ++ b) fs.
Proof.
  apply map_eq. intros q. rewrite !append_to_at. destruct (decide _); [|done].
  destruct (fs !! q) as [[]|]; cbn; by rewrite ?app_assoc.
Qed.
