(* ===== verification/AuditTrail.v ===== *)
(** * The audit trail of the authority registry

    [crates/epochgrid-core/src/audit.rs]: bounded evidence appended to the
    authority's own database, its repair reserve, its retention, export and
    pruning, and the durable intents of external effects. *)
From stdpp Require Import sorting.
From S2P Require Import Prelude External AuthDb Capacity Files.

(* @src core/audit.rs 7-7 MAX_EVENTS *)
Definition MAX_EVENTS : Z := 100000.
(* @src core/audit.rs 8-8 MAX_BYTES *)
Definition MAX_BYTES : Z := 32 * 1024 * 1024.
(* @src core/audit.rs 9-9 RESERVE_EVENTS *)
Definition RESERVE_EVENTS : Z := 1024.
(* @src core/audit.rs 10-10 RESERVE_BYTES *)
Definition RESERVE_BYTES : Z := 2 * 1024 * 1024.
(* @src core/audit.rs 11-11 MAX_EVENT_BYTES *)
Definition MAX_EVENT_BYTES : Z := 2048.

(* @src core/audit.rs 13-37 Kind *)
Inductive Kind : Type :=
| TokenIssued | DeviceEnrolled | DeviceActivated | DeviceRevoked
| PolicyCommitted | PolicyRejected | Admission | ResponseConstructed
| Reconciliation | RegistrationPublication | RevocationPublication
| AuthorityStarted | WorkerSessionStarted | WorkerSessionEnded
| AdmissionGate | ObservationLoss | StorageRecovered | KExport | KPrune
| RetentionChanged | DenialSummary.
(* @src core/audit.rs 38-45 Stage *)
Inductive Stage : Type := Committed | Intent | Result | Observation.
(* @src core/audit.rs 46-53 Outcome *)
Inductive Outcome : Type := Succeeded | Failed | Unknown | Denied.
(* @src core/audit.rs 54-62 Actor *)
Inductive Actor : Type := LocalOperator | VerifiedDevice | BoundWorker | Authority | Unverified.
(* @src core/audit.rs 63-73 Reason *)
Inductive Reason : Type :=
| Verified | Rejected | ExternalEffect | LocalArtifact | ExplicitPrune
| CoverageUncertain | IdempotentRetry.

#[global] Instance Kind_eq_dec : EqDecision Kind.
Proof. solve_decision. Defined.

(** A [Reference] is the string it wraps. *)
(* @src core/audit.rs 106-108 Reference *)
Definition Reference : Type := string.

(* @src core/audit.rs 74-88 Event *)
Record Event : Type := {
  kind : Kind;
  stage : Stage;
  outcome : Outcome;
  reason : Reason;
  actor : Actor;
  count : Z;
  actor_reference : option Reference;
  target_reference : option Reference;
  ev_generation : option Z;
  window_seconds : option Z;
  sequence_boundary : option Z;
}.

(* @src core/audit.rs 90-104 committed *)
Definition committed (k : Kind) : Event := {|
  kind := k; stage := Committed; outcome := Succeeded; reason := Verified;
  actor := Authority; count := 1; actor_reference := None; target_reference := None;
  ev_generation := None; window_seconds := None; sequence_boundary := None |}.

(* @src core/audit.rs 109-121 try_from *)
Definition reference_try_from (value : string) : result Reference :=
  check ((slen value =? 32) && string_all is_lower_hex value) "invalid audit reference" ;;?
  Ok value.

(** [reference(db, table, column, key)] for the three tables that have an
    [audit_ref] column. *)
Inductive ref_table : Type := RefUser | RefDevice | RefGroup.
(* @src core/audit.rs 127-139 reference *)
Definition reference (t : ref_table) (key : string) : M AuthDb Reference :=
  let* row := gets (fun db => match t with
                              | RefUser => user_ref <$> users db !! key
                              | RefDevice => device_ref <$> devices db !! key
                              | RefGroup => group_ref <$> authorization_groups db !! key
                              end) in
  let* r := lift (ok_or row NoRows) in
  lift (reference_try_from r).

(* @src core/audit.rs 152-157 TimestampQuality *)
Inductive TimestampQuality : Type := UntrustedWallClock | Unavailable.
(* @src core/audit.rs 140-151 Record *)
Record AuditRecord : Type := {
  rec_version : Z;
  rec_store_id : string;
  sequence : Z;
  process_instance : string;
  operation : string;
  wall_seconds : option Z;
  timestamp_quality : TimestampQuality;
  event : Event;
}.

(** What one append takes from its surroundings: 16 random bytes in lower hex
    ([opaque]), the identifier of the process ([instance]) and the wall clock. *)
Record Draw : Type := {
  opaque : result string;
  instance : result string;
  clock : result Z;
}.

(* @src core/audit.rs 202-217 Info *)
Record Info : Type := {
  i_schema : Z;
  i_store_id : string;
  i_retained_from : Z;
  upper_sequence : Z;
  i_events : Z;
  i_bytes : Z;
  event_limit : Z;
  byte_limit : Z;
  known_coverage_gaps : bool;
  i_policy_version : Z;
  i_prune_through : Z;
  unresolved_effects : Z;
  i_degraded : bool;
}.

(** Reading a [u64] column fails on a negative value. *)
Definition u64_column (z : Z) : result Z := if 0 <=? z then Ok z else Err External.

(* @src core/audit.rs 218-241 info *)
Definition info_of (db : AuthDb) : result Info :=
  check (schema db =? 3) "unsupported audit schema" ;;?
  let st := audit_state (audit db) in
  let? retained := u64_column (retained_from st) in
  let? upper := u64_column (next_sequence st - 1) in
  let? evs := u64_column (events st) in
  let? bytes := u64_column (event_bytes st) in
  let? policy := u64_column (policy_version st) in
  let? prune := u64_column (prune_through st) in
  let state := {|
    i_schema := 1; i_store_id := store_id st; i_retained_from := retained;
    upper_sequence := upper; i_events := evs; i_bytes := bytes; event_limit := MAX_EVENTS;
    byte_limit := MAX_BYTES; known_coverage_gaps := gaps st; i_policy_version := policy;
    i_prune_through := prune; unresolved_effects := table_size (audit_pending (audit db));
    i_degraded := degraded st |} in
  let? _ := reference_try_from (i_store_id state) in
  check ((0 <? i_retained_from state)
         && (i_retained_from state <=? sat_add64 (upper_sequence state) 1)
         && (upper_sequence state <? i64_max)
         && (i_events state <=? MAX_EVENTS)
         && (i_bytes state <=? MAX_BYTES)
         && (0 <? i_policy_version state)
         && (i_prune_through state <=? upper_sequence state)
         && (unresolved_effects state <=? 256)) "invalid audit metadata" ;;?
  Ok state.

Definition info : M AuthDb Info := fun db => (info_of db, db).

(** [UPDATE audit_state] and the other statements on the audit tables. *)
Definition set_state f : AuthDb -> AuthDb := set_audit (fun t =>
  {| audit_state := f (audit_state t); audit_pending := audit_pending t;
     audit_events := audit_events t |}).
Definition set_pending f : AuthDb -> AuthDb := set_audit (fun t =>
  {| audit_state := audit_state t; audit_pending := f (audit_pending t);
     audit_events := audit_events t |}).
Definition set_events f : AuthDb -> AuthDb := set_audit (fun t =>
  {| audit_state := audit_state t; audit_pending := audit_pending t;
     audit_events := f (audit_events t) |}).

Definition bump_state (seq len : Z) (st : AuditState) : AuditState :=
  {| store_id := store_id st; next_sequence := seq + 1; retained_from := retained_from st;
     events := events st + 1; event_bytes := event_bytes st + len; gaps := gaps st;
     policy_version := policy_version st; prune_through := prune_through st;
     degraded := degraded st |}.
Definition degrade_state (st : AuditState) : AuditState :=
  {| store_id := store_id st; next_sequence := next_sequence st;
     retained_from := retained_from st; events := events st; event_bytes := event_bytes st;
     gaps := true; policy_version := policy_version st; prune_through := prune_through st;
     degraded := true |}.
Definition recover_state (st : AuditState) : AuditState :=
  {| store_id := store_id st; next_sequence := next_sequence st;
     retained_from := retained_from st; events := events st; event_bytes := event_bytes st;
     gaps := gaps st; policy_version := policy_version st; prune_through := prune_through st;
     degraded := false |}.
Definition retain_state (through : Z) (st : AuditState) : AuditState :=
  {| store_id := store_id st; next_sequence := next_sequence st;
     retained_from := retained_from st; events := events st; event_bytes := event_bytes st;
     gaps := gaps st; policy_version := policy_version st + 1; prune_through := through;
     degraded := degraded st |}.
Definition prune_state (last count bytes : Z) (st : AuditState) : AuditState :=
  {| store_id := store_id st; next_sequence := next_sequence st;
     retained_from := last + 1; events := events st - count;
     event_bytes := event_bytes st - bytes; gaps := gaps st;
     policy_version := policy_version st; prune_through := prune_through st;
     degraded := degraded st |}.

(** [INSERT INTO audit_events] with the table's [CHECK]. *)
Definition insert_event (seq : Z) (payload : string) : M AuthDb unit := fun db =>
  if slen payload <=? 2048 then
    match insert_row seq payload (audit_events (audit db)) with
    | Ok t => (Ok tt, set_events (fun _ => t) db)
    | Err e => (Err e, db)
    end
  else (Err SqlConstraint, db).

(** [UPDATE audit_state SET gaps=1,degraded=1], whose failure is ignored; on its
    own it is a transaction of its own. *)
Definition mark_degraded : M AuthDb unit := fun db =>
  if autocommit db && negb (commit_ok db) then (Ok tt, db)
  else (Ok tt, set_state degrade_state db).

Section audit.
Context `{Json AuditRecord} `{Json Kind} `{Pages AuthDb}.

(* @src core/audit.rs 246-297 append_operation *)
Definition append_operation (ev : Event) (reserve : bool) (op : string) (d : Draw) : M AuthDb Z :=
  let* _ := lift (reference_try_from op) in
  let* auto := gets autocommit in
  ensure (negb auto) "audit insertion requires a transaction" ;;;
  let* state := info in
  ensure (reserve || negb (i_degraded state)) "audit storage requires recovery" ;;;
  let* seq := lift (match checked_add64 (upper_sequence state) 1 with
                    | Some v => if v <? i64_max then Ok v
                                else Err (Anyhow "audit sequence exhausted")
                    | None => Err (Anyhow "audit sequence exhausted")
                    end) in
  let wall := ok (clock d) in
  let* inst := lift (instance d) in
  let record := {|
    rec_version := 1; rec_store_id := i_store_id state; sequence := seq;
    process_instance := inst; operation := op; wall_seconds := wall;
    timestamp_quality := match wall with Some _ => UntrustedWallClock | None => Unavailable end;
    event := ev |} in
  let* payload := lift (to_json record) in
  ensure (slen payload <=? MAX_EVENT_BYTES) "audit event exceeds limit" ;;;
  ensure ((i_events state <? MAX_EVENTS - (if reserve then 0 else RESERVE_EVENTS))
          && (i_bytes state + slen payload
              <=? MAX_BYTES - (if reserve then 0 else RESERVE_BYTES)))
    "audit capacity exhausted" ;;;
  insert_event seq payload ;;;
  modify (set_state (bump_state seq (slen payload))) ;;;
  ret seq.

(* @src core/audit.rs 242-245 append *)
Definition append (ev : Event) (reserve : bool) (d : Draw) : M AuthDb Z :=
  let* op := lift (opaque d) in
  append_operation ev reserve op d.

(* @src core/audit.rs 298-312 repair *)
Definition repair (cap : Capacity) (ev : Event) (d : Draw) : M AuthDb unit :=
  let* r := savepoint (append ev true d ;;; check_database cap true) in
  when (negb (is_ok r)) mark_degraded.

(* @src core/audit.rs 314-323 audit_batch *)
Definition audit_batch (cap : Capacity) (evs : list (Event * Draw)) : M AuthDb unit :=
  ensure (zlen evs <=? 256) "audit batch exceeds bound" ;;;
  transaction (
    for_each evs (fun '(ev, d) => append ev false d ;;; ret tt) ;;;
    check_database cap false).

(* @src core/audit.rs 327-333 audit_correlated *)
Definition audit_correlated (cap : Capacity) (ev : Event) (op : string) (d : Draw)
  : M AuthDb unit :=
  transaction (append_operation ev false op d ;;; check_database cap false).

(* @src core/audit.rs 334-340 audit_event *)
Definition audit_event (cap : Capacity) (ev : Event) (d : Draw) : M AuthDb Z :=
  transaction (
    let* seq := append ev false d in
    check_database cap false ;;;
    ret seq).

(** A [BEGIN] or [COMMIT] the storage refuses is ignored. *)
(* @src core/audit.rs 341-349 audit_repair *)
Definition audit_repair (cap : Capacity) (ev : Event) (d : Draw) : M AuthDb unit :=
  let* _ := attempt (transaction (repair cap ev d)) in
  ret tt.

(** ** Export *)

(* @src core/audit.rs 357-369 Manifest *)
Record Manifest : Type := {
  m_kind : string;
  m_version : Z;
  m_store_id : string;
  requested_after : Z;
  m_retained_from : Z;
  m_upper_sequence : Z;
  m_count : Z;
  continuation_cursor : Z;
  complete : bool;
  m_gaps : bool;
}.
Definition by_sequence (a b : Z * string) : Prop := a.1 <= b.1.
#[export] Instance by_sequence_dec : RelDecision by_sequence.
Proof. intros a b. unfold by_sequence. apply _. Defined.

(** [SELECT sequence,payload FROM audit_events WHERE sequence>lo AND
    sequence<=hi ORDER BY sequence LIMIT limit]. *)
Definition event_rows (lo hi limit : Z) (t : gmap Z string) : list (Z * string) :=
  take (Z.to_nat limit)
    (merge_sort by_sequence (rows (fun k _ => (lo <? k) && (k <=? hi)) t)).

Context `{Json Manifest}.
(** A line is appended to the open file; what fails may have written part of it. *)
Definition line_bytes (text : string) : bytes := as_bytes text ++ [x0a].
(* @src core/audit.rs 446-446 export (writeln) *)
Definition write_line (path text : string) : M Disk unit :=
  disk_op (append_to path (line_bytes text)) (fun n => append_to path (take n (line_bytes text))).
(* @src core/audit.rs 423-424 export (manifest) *)
Definition write_manifest (path : string) (m : Manifest) : M Disk unit :=
  let* text := lift (to_json m) in write_line path text.

(** The rows of a batch, each written as soon as it is checked. *)
(* @src core/audit.rs 430-449 export (rows) *)
Fixpoint export_rows (pending store : string) (count cursor : Z) (rs : list (Z * string)) : M Disk (Z * Z) :=
  match rs with
  | [] => ret (count, cursor)
  | (seq, payload) :: rs =>
      ensure (seq =? cursor + 1) "audit snapshot contains a sequence gap" ;;;
      ensure (slen payload <=? MAX_EVENT_BYTES) "invalid audit record" ;;;
      let* record := lift (from_json payload) in
      let* _ := lift (reference_try_from (rec_store_id record)) in
      let* _ := lift (reference_try_from (operation record)) in
      let* _ := lift (reference_try_from (process_instance record)) in
      ensure ((rec_version record =? 1) && bool_decide (rec_store_id record = store)
              && (sequence record =? seq)) "invalid audit record binding" ;;;
      write_line pending payload ;;;
      export_rows pending store (count + 1) seq rs
  end.

(** The [while] loop; it never uses up fuel for one round more than the lines
    left ([export_loop_fuel]). *)
(* @src core/audit.rs 425-457 export (loop) *)
Fixpoint export_loop (fuel : nat) (t : gmap Z string) (pending store : string) (upper limit : Z)
    (count cursor : Z) : M Disk (Z * Z) :=
  match fuel with
  | O => fail External
  | S fuel =>
      if count <? limit then
        let batch := Z.min (limit - count) 256 in
        let* (count', cursor') := export_rows pending store count cursor (event_rows cursor upper batch t) in
        if count =? count' then
          ensure (cursor' =? upper) "audit snapshot ends before its declared boundary" ;;;
          ret (count', cursor')
        else export_loop fuel t pending store upper limit count' cursor'
      else ret (count, cursor)
  end.

(** The file is written under another name, which nothing may have. *)
(* @src core/audit.rs 399-401 export (pending) *)
Definition pending_name (output : string) : string := output +:+ ".partial".
(* @src core/audit.rs 395-398 export (output) *)
Definition name_unused (path : string) : M Disk unit :=
  let* looked := attempt (disk_op id untouched) in
  let* d := gets id in
  ensure (is_ok looked && bool_decide (dk_fs d !! path = None))
    "audit output already exists or is inaccessible".
(** What the kernel only does to a name that nothing has, be it a dangling link. *)
Definition exclusively (path : string) (f : Z -> Fs -> Fs) : M Disk unit :=
  let* d := gets id in
  if bool_decide (dk_fs d !! path = None) then disk_op (f (dk_user d)) untouched else fail External.
(* @src core/audit.rs 402-410 export (create) *)
Definition create_pending (path : string) : M Disk unit :=
  exclusively path (fun user =>
    insert path {| file_type := Regular; owner := user; mode := 0x180; contents := [] |}).
(** [std::fs::hard_link]: never over another file, wherever that came from. *)
Definition link_file (from to : string) (files : Fs) : Fs :=
  match files !! from with Some n => <[to := n]> files | None => files end.
Definition hard_link (from to : string) : M Disk unit := exclusively to (fun _ => link_file from to).
(** Another process may take the name of the output before it is published. *)
Definition arrives (path : string) (n : option Node) (d : Disk) : Disk :=
  match n, dk_fs d !! path with
  | Some n, None => {| dk_fs := <[path := n]> (dk_fs d); dk_user := dk_user d; dk_io := dk_io d |}
  | _, _ => d
  end.
(* @src core/audit.rs 411-422 export (manifest) *)
Definition export_manifest (state : Info) (store : string) (after upper : Z) (kind : string) (count cursor : Z)
    (fin : bool) : Manifest := {|
  m_kind := kind; m_version := 1; m_store_id := store; requested_after := after;
  m_retained_from := i_retained_from state; m_upper_sequence := upper; m_count := count;
  continuation_cursor := cursor; complete := fin; m_gaps := known_coverage_gaps state |}.
(** What is written before the file is published, and its publication. *)
(* @src core/audit.rs 423-464 export (write) *)
Definition export_write (db : AuthDb) (state : Info) (pending store : string) (after upper limit : Z) : M Disk unit :=
  let manifest := export_manifest state store after upper in
  write_manifest pending (manifest "manifest" 0 after false) ;;;
  let* (count, cursor) := export_loop (S (Z.to_nat limit)) (audit_events (audit db)) pending store upper limit
                            0 after in
  ensure (db_commit_ok db) "commit failed" ;;;
  disk_op id untouched ;;;
  write_manifest pending (manifest "completion" count cursor true) ;;;
  disk_op id untouched.
(* @src core/audit.rs 465-473 export (publish) *)
Definition export_publish (pending output : string) : M Disk unit :=
  hard_link pending output ;;;
  disk_op id untouched ;;;
  disk_op (delete pending) untouched.
(** [inspected] is the database in a snapshot of its own; [meanwhile] what comes
    under the output's name before the file is published. *)
(* @src core/audit.rs 370-474 export *)
Definition export (inspected : result AuthDb) (meanwhile : option Node) (output store : string)
    (after upper limit : Z) : M Disk unit :=
  ensure ((1 <=? limit) && (limit <=? 10000)) "export count must be 1–10000" ;;;
  let* db := lift inspected in
  let* state := lift (info_of db) in
  ensure (bool_decide (store = i_store_id state)) "audit cursor belongs to another store" ;;;
  ensure ((i_retained_from state - 1 <=? after) && (after <=? upper)
          && (upper <=? upper_sequence state)) "audit cursor outside retained snapshot" ;;;
  name_unused output ;;;
  create_pending (pending_name output) ;;;
  export_write db state (pending_name output) store after upper limit ;;;
  modify (arrives output meanwhile) ;;;
  export_publish (pending_name output) output.

(** ** Retention *)

(* @src core/audit.rs 476-498 set_retention *)
Definition set_retention (cap : Capacity) (through : Z) (d : Draw) : M AuthDb unit :=
  let* _ := info in
  transaction (
    let* state := info in
    ensure (through <=? upper_sequence state) "retention boundary exceeds history" ;;;
    modify (set_state (retain_state through)) ;;;
    append {| kind := RetentionChanged; stage := Committed; outcome := Succeeded;
              reason := Verified; actor := LocalOperator; count := 1; actor_reference := None;
              target_reference := None; ev_generation := Some (i_policy_version state + 1);
              window_seconds := None; sequence_boundary := Some through |} true d ;;;
    check_database cap true).

(* @src core/audit.rs 499-504 PruneSummary *)
Record PruneSummary : Type := { eligible : Z; deleted : Z; s_retained_from : Z }.

Definition sum_bytes (rs : list (Z * string)) : Z :=
  foldr Z.add 0 (map (fun '(_, p) => slen p) rs).
Definition max_sequence (rs : list (Z * string)) : option Z :=
  match rs with
  | [] => None
  | (k, _) :: rs => Some (foldr Z.max k (map fst rs))
  end.

(** [opened] is whether the registry opens for the deletion. *)
(* @src core/audit.rs 505-546 prune *)
Definition prune (through : Z) (apply : bool) (opened : result unit) (d : Draw) : M AuthDb PruneSummary :=
  let* state := info in
  ensure (through <=? i_prune_through state) "prune exceeds explicit retention policy" ;;;
  let* elig := gets (fun db => count_rows (fun k _ => k <=? through) (audit_events (audit db))) in
  if negb apply || (elig =? 0) then
    ret {| eligible := elig; deleted := 0; s_retained_from := i_retained_from state |}
  else lift opened ;;; transaction (
    let* batch := gets (fun db => take 256 (merge_sort by_sequence
                          (rows (fun k _ => k <=? through) (audit_events (audit db))))) in
    let* last := lift (ok_or (max_sequence batch) External) in
    let n := zlen batch in
    modify (set_events (delete_where (fun k _ => k <=? last))) ;;;
    modify (set_state (prune_state last n (sum_bytes batch))) ;;;
    append {| kind := KPrune; stage := Committed; outcome := Succeeded;
              reason := ExplicitPrune; actor := LocalOperator; count := n;
              actor_reference := None; target_reference := None;
              ev_generation := Some (i_policy_version state);
              window_seconds := None; sequence_boundary := Some last |} true d ;;;
    ret {| eligible := elig; deleted := n; s_retained_from := last + 1 |}).

(** ** Denials *)

(* @src core/audit.rs 548-561 Denials *)
Record Denials : Type := { started : Z; d_count : Z }.

(** [now1] is the clock of [elapsed], [now2] that of the new window. *)
(* @src core/audit.rs 563-579 observe *)
Definition observe (cap : Capacity) (s : Denials) (now1 now2 : Z) (d : Draw)
  : M AuthDb Denials :=
  if Z.max (now1 - started s) 0 <? 60 * NANOS then
    ret {| started := started s; d_count := sat_add64 (d_count s) 1 |}
  else
    let* _ := attempt (audit_event cap
      {| kind := DenialSummary; stage := Observation; outcome := Denied; reason := Rejected;
         actor := Unverified; count := d_count s; actor_reference := None;
         target_reference := None; ev_generation := None; window_seconds := Some 60;
         sequence_boundary := None |} d) in
    ret {| started := now2; d_count := 1 |}.

(** ** External effects *)

(* @src core/audit.rs 624-628 audit_effect_inner (label) *)
Definition effect_label (k : Kind) (target : option Reference) : result string :=
  let? j := to_json k in
  Ok (j +:+ ":" +:+ default "" target).

Definition intent_event (k : Kind) (target actor_ref : option Reference) : Event := {|
  kind := k; stage := Intent; outcome := Unknown; reason := ExternalEffect;
  actor := match actor_ref with Some _ => VerifiedDevice | None => Authority end;
  count := 1; actor_reference := actor_ref; target_reference := target;
  ev_generation := None; window_seconds := None; sequence_boundary := None |}.

(* @src core/audit.rs 621-660 audit_effect_inner (transaction) *)
Definition effect_transaction (cap : Capacity) (k : Kind) (target : option Reference)
    (reserve : bool) (actor_ref : option Reference) (d : Draw) : M AuthDb string :=
  scoped_transaction (
    let* label := lift (effect_label k target) in
    let* present := gets (fun db => audit_pending (audit db) !! label) in
    match present with
    | Some op => ret (false, op)
    | None =>
        let* pending := gets (fun db => table_size (audit_pending (audit db))) in
        ensure (pending <? 256) "audit pending capacity exhausted" ;;;
        let* op := lift (opaque d) in
        append_operation (intent_event k target actor_ref) reserve op d ;;;
        modify (set_pending (<[label := op]>)) ;;;
        check_database cap reserve ;;;
        ret (true, op)
    end).

(** Run, and on failure mark the trail degraded. *)
Definition or_degrade {A} (m : M AuthDb A) : M AuthDb (result A) :=
  let* r := attempt m in
  when (negb (is_ok r)) mark_degraded ;;;
  ret r.

(* @src core/audit.rs 614-668 audit_effect_inner *)
Definition audit_effect_inner (cap : Capacity) (k : Kind) (target : option Reference)
    (reserve : bool) (actor_ref : option Reference) (d : Draw) : M AuthDb string :=
  let* r := or_degrade (effect_transaction cap k target reserve actor_ref d) in
  lift r.

(* @src core/audit.rs 583-586 audit_effect *)
Definition audit_effect (cap : Capacity) (k : Kind) (d : Draw) : M AuthDb (option string) :=
  let* r := attempt (audit_effect_inner cap k None true None d) in
  ret (ok r).

(* @src core/audit.rs 587-604 audit_effect_target *)
Definition audit_effect_target (cap : Capacity) (k : Kind) (key : string) (required : bool)
    (d : Draw) : M AuthDb (option string) :=
  let* found := attempt (reference RefDevice key) in
  match found with
  | Err e => if negb required then ret None else fail e
  | Ok target =>
      let* result := attempt (audit_effect_inner cap k (Some target) (negb required) None d) in
      if required then lift (let? op := result in Ok (Some op))
      else ret (ok result)
  end.

(* @src core/audit.rs 605-613 audit_revocation_intent *)
Definition audit_revocation_intent (cap : Capacity) (target author : string) (d : Draw)
  : M AuthDb (option string) :=
  let* t := attempt (reference RefDevice target) in
  let* a := attempt (reference RefDevice author) in
  let* r := attempt (audit_effect_inner cap RevocationPublication (ok t) true (ok a) d) in
  ret (ok r).

(* @src core/audit.rs 669-681 audit_export_start *)
Definition audit_export_start (cap : Capacity) (d : Draw) : M AuthDb string :=
  transaction (
    let* op := lift (opaque d) in
    append_operation
      {| kind := KExport; stage := Intent; outcome := Unknown; reason := LocalArtifact;
         actor := LocalOperator; count := 1; actor_reference := None; target_reference := None;
         ev_generation := None; window_seconds := None; sequence_boundary := None |} true op d ;;;
    check_database cap true ;;;
    ret op).

Definition result_event (k : Kind) (success : bool) : Event := {|
  kind := k; stage := Result; outcome := if success then Succeeded else Failed;
  reason := if bool_decide (k = KExport) then LocalArtifact else ExternalEffect;
  actor := if bool_decide (k = KExport) then LocalOperator else Authority;
  count := 1; actor_reference := None; target_reference := None;
  ev_generation := None; window_seconds := None; sequence_boundary := None |}.

(* @src core/audit.rs 682-717 audit_effect_result *)
Definition audit_effect_result (cap : Capacity) (k : Kind) (operation : option string)
    (success : bool) (d : Draw) : M AuthDb unit :=
  match operation with
  | None => ret tt
  | Some op =>
      let* _ := or_degrade (transaction (
        append_operation (result_event k success) true op d ;;;
        when (success || bool_decide (k = KExport))
          (modify (set_pending (delete_where (fun _ o => bool_decide (o = op))))) ;;;
        check_database cap true)) in
      ret tt
  end.

(* @src core/audit.rs 731-749 recover *)
Definition recover (cap : Capacity) (d : Draw) : M AuthDb unit :=
  let* _ := info in
  transaction (
    let* state := info in
    ensure ((i_events state + 1 <? MAX_EVENTS - RESERVE_EVENTS)
            && (i_bytes state + MAX_EVENT_BYTES <=? MAX_BYTES - RESERVE_BYTES))
      "audit ordinary capacity still exhausted" ;;;
    append {| kind := StorageRecovered; stage := Committed; outcome := Succeeded;
              reason := Verified; actor := LocalOperator; count := 1; actor_reference := None;
              target_reference := None; ev_generation := None; window_seconds := None;
              sequence_boundary := None |} true d ;;;
    check_database cap false ;;;
    modify (set_state recover_state)).
End audit.

(** ** Migration *)

(** Version 2 has none of the audit tables; every existing row gets a random
    reference ([row_ref] is the [randomblob] drawn for a row). *)
(* @src core/audit.rs 174-201 migrate *)
Definition migrate (row_ref : ref_table -> string -> string) (store : result string)
  : M AuthDb unit :=
  transaction (
    let* v := gets schema in
    ensure ((2 <=? v) && (v <=? 3)) "unsupported audit schema" ;;;
    if v =? 2 then
      let* id := lift store in
      modify (fun db => {|
        schema := 3;
        users := map_imap (fun k r => Some {| enabled := enabled r;
                                              user_ref := row_ref RefUser k |}) (users db);
        identity_bindings := identity_bindings db;
        enrollment_tokens := enrollment_tokens db;
        devices := map_imap (fun k r => Some {|
          dev_user_id := dev_user_id r; dev_device_id := dev_device_id r;
          registration := registration r; ready := ready r; revoked := revoked r;
          authorization_generation := authorization_generation r;
          device_ref := row_ref RefDevice k |}) (devices db);
        authorization_groups := map_imap (fun k r => Some {|
          generation := generation r; epoch := epoch r; coordinator := coordinator r;
          last_update := last_update r; group_ref := row_ref RefGroup k |})
          (authorization_groups db);
        authorization_members := authorization_members db;
        audit := {|
          audit_state := {| store_id := id; next_sequence := 1; retained_from := 1; events := 0;
                            event_bytes := 0; gaps := true; policy_version := 1;
                            prune_through := 0; degraded := false |};
          audit_pending := ∅; audit_events := ∅ |};
        db_autocommit := db_autocommit db; db_commit_ok := db_commit_ok db |})
    else ret tt).
