(* ===== verification/AuditFacts.v ===== *)
(** * Properties of the audit trail

    The invariant of the audit tables, the relation every operation of
    [AuditTrail.v] keeps, and what append, repair, prune, export and the effect
    journal do. *)
From stdpp Require Import sorting.
From S2P Require Import Prelude External AuthDb Capacity Files AuditTrail.

(** ** The retained trail *)

(** The rows of sequence numbers [lo], ..., [lo+n-1], in order. *)
Definition trail (t : gmap Z string) (lo n : Z) : list (Z * string) :=
  (fun k => (k, default "" (t !! k))) <$> seqZ lo n.

Lemma trail_nil t lo n : n <= 0 -> trail t lo n = [].
Proof. intros. unfold trail. by rewrite seqZ_nil. Qed.

Lemma trail_cons t lo n :
  0 < n -> trail t lo n = (lo, default "" (t !! lo)) :: trail t (lo + 1) (n - 1).
Proof. intros. unfold trail. by rewrite seqZ_cons. Qed.

Lemma trail_app t lo n m :
  0 <= n -> 0 <= m -> trail t lo (n + m) = trail t lo n ++ trail t (lo + n) m.
Proof. intros. unfold trail. by rewrite seqZ_app, fmap_app. Qed.

Lemma trail_snoc t lo n :
  0 <= n -> trail t lo (n + 1) = trail t lo n ++ [(lo + n, default "" (t !! (lo + n)))].
Proof. intros. rewrite trail_app by lia. by rewrite (trail_cons _ (lo + n)), (trail_nil _ (lo + n + 1)) by lia. Qed.

Lemma trail_ext t t' lo n :
  (forall k, lo <= k < lo + n -> t !! k = t' !! k) -> trail t lo n = trail t' lo n.
Proof.
  intros Heq. unfold trail. apply list_fmap_ext. intros i k [-> Hi]%lookup_seqZ.
  rewrite Heq by lia. done.
Qed.

Lemma length_trail t lo n : length (trail t lo n) = Z.to_nat n.
Proof. unfold trail. by rewrite length_fmap, length_seqZ. Qed.

Lemma take_trail t lo n m :
  0 <= m -> take (Z.to_nat m) (trail t lo n) = trail t lo (Z.min m n).
Proof.
  intros Hm. destruct (Z.le_gt_cases n m) as [Hle|Hgt].
  - rewrite Z.min_r by done. apply take_ge. rewrite length_trail. lia.
  - rewrite Z.min_l by lia. replace n with (m + (n - m)) at 1 by lia.
    rewrite trail_app by lia. apply take_app_length'. by rewrite length_trail.
Qed.

Lemma sum_bytes_app a b : sum_bytes (a ++ b) = sum_bytes a + sum_bytes b.
Proof.
  unfold sum_bytes. rewrite map_app. induction (map _ a) as [|x l IH]; simpl; lia.
Qed.

Lemma slen_nonneg s : 0 <= slen s.
Proof. unfold slen. lia. Qed.

Lemma sum_bytes_nonneg l : 0 <= sum_bytes l.
Proof.
  unfold sum_bytes. induction l as [|[k p] l IH]; simpl; [lia|].
  pose proof (slen_nonneg p). lia.
Qed.

Lemma sum_bytes_bound l c :
  (forall k p, (k, p) ∈ l -> slen p <= c) -> sum_bytes l <= zlen l * c.
Proof.
  unfold sum_bytes, zlen. induction l as [|[k p] l IH]; intros Hb; cbn [map foldr length]; [lia|].
  assert (slen p <= c) by (eapply Hb; left).
  specialize (IH ltac:(intros k' p' Hin; apply (Hb k'); by right)). lia.
Qed.

Lemma elem_of_trail t lo n k p :
  (k, p) ∈ trail t lo n <-> lo <= k < lo + n /\ p = default "" (t !! k).
Proof.
  unfold trail. rewrite list_elem_of_fmap. setoid_rewrite elem_of_seqZ. split.
  - intros (y & [= -> ->] & Hy). done.
  - intros [Hk ->]. by exists k.
Qed.

Lemma trail_sorted t lo n : StronglySorted by_sequence (trail t lo n).
Proof.
  unfold trail. destruct (Z.le_gt_cases n 0) as [|Hn]; [by rewrite seqZ_nil; [constructor|] |].
  rewrite <- (Z2Nat.id n) by lia. generalize (Z.to_nat n) as m. clear.
  intros m. revert lo. induction m as [|m IH]; intros lo; [by constructor|].
  rewrite seqZ_cons by lia. simpl. constructor.
  - replace (Z.pred (Z.of_nat (S m))) with (Z.of_nat m) by lia. apply IH.
  - rewrite Forall_fmap, Forall_seqZ. intros k Hk. unfold by_sequence. simpl. lia.
Qed.

#[export] Instance by_sequence_total : Total by_sequence.
Proof. intros a b. unfold by_sequence. lia. Qed.
#[export] Instance by_sequence_trans : Transitive by_sequence.
Proof. intros a b c. unfold by_sequence. lia. Qed.

(** A sorted query over a table whose keys are the interval [r, n) returns a
    segment of the trail. *)
Lemma query_trail t r n p lo hi :
  (forall k, is_Some (t !! k) <-> r <= k < n) ->
  (forall k v, r <= k < n -> (p k v = true <-> lo <= k < hi)) ->
  r <= lo -> hi <= n ->
  merge_sort by_sequence (rows p t) = trail t lo (hi - lo).
Proof.
  intros Hdom Hp Hlo Hhi.
  assert (Helem : forall k v, (k, v) ∈ rows p t <-> (k, v) ∈ trail t lo (hi - lo)).
  { intros k v. rewrite elem_of_rows, elem_of_trail. split.
    - intros [Hk Hpk]. assert (r <= k < n) by (apply Hdom; eauto).
      apply Hp in Hpk; [|done]. rewrite Hk. split; [lia|done].
    - intros [Hk ->]. assert (r <= k < n) as Hin by lia. apply Hdom in Hin as [w Hw].
      rewrite Hw. split; [done|]. apply Hp; [apply Hdom; eauto|lia]. }
  apply (StronglySorted_unique_strong by_sequence).
  - intros [k1 p1] [k2 p2] H1 H2 H12 H21. unfold by_sequence in *. simpl in *.
    assert (k1 = k2) as -> by lia. f_equal.
    rewrite merge_sort_Permutation in H1. apply Helem in H1.
    apply elem_of_trail in H1 as [_ ->]. by apply elem_of_trail in H2 as [_ ->].
  - apply StronglySorted_merge_sort; apply _.
  - apply trail_sorted.
  - rewrite merge_sort_Permutation. apply NoDup_Permutation.
    + unfold rows. apply NoDup_ListNoDup, NoDup_filter, NoDup_ListNoDup, NoDup_map_to_list.
    + unfold trail. apply NoDup_fmap_2; [|apply NoDup_seqZ]. by intros a b [= ->].
    + intros [k v]. apply Helem.
Qed.

(** ** The invariant *)

Section audit_facts.
Context `{Json AuditRecord} `{Json Kind} `{Pages AuthDb}.

(** The hex strings [opaque] and [instance] draw are references. *)
Definition draw_ok (d : Draw) : Prop :=
  forall i, instance d = Ok i -> reference_try_from i = Ok i.

Definition record_ok (sid : string) (k : Z) (p : string) : Prop :=
  slen p <= MAX_EVENT_BYTES /\
  exists r, to_json r = Ok p /\ rec_version r = 1 /\ rec_store_id r = sid /\ sequence r = k /\
    reference_try_from sid = Ok sid /\
    reference_try_from (operation r) = Ok (operation r) /\
    reference_try_from (process_instance r) = Ok (process_instance r).

(** The state row accounts for the rows of [audit_events] exactly. *)
Definition audit_counts (db : AuthDb) : Prop :=
  let st := audit_state (audit db) in
  let t := audit_events (audit db) in
  0 < retained_from st <= next_sequence st /\
  (forall k, is_Some (t !! k) <-> retained_from st <= k < next_sequence st) /\
  events st = next_sequence st - retained_from st /\
  event_bytes st =
    sum_bytes (trail t (retained_from st) (next_sequence st - retained_from st)) /\
  (forall k p, t !! k = Some p -> record_ok (store_id st) k p).

(** The bounds [info] insists on. *)
Definition audit_bounds (db : AuthDb) : Prop :=
  let st := audit_state (audit db) in
  schema db = 3 /\ reference_try_from (store_id st) = Ok (store_id st) /\
  next_sequence st <= i64_max /\ events st <= MAX_EVENTS /\ event_bytes st <= MAX_BYTES /\
  0 < policy_version st /\ 0 <= prune_through st < next_sequence st /\
  table_size (audit_pending (audit db)) <= 256.

Definition audit_wf (db : AuthDb) : Prop := audit_counts db /\ audit_bounds db.

(** What an operation on the trail may do: it keeps the invariant and the
    registry, never reuses a sequence number, and never alters or removes a row
    above the retained boundary. *)
Definition audit_extends (d d' : AuthDb) : Prop :=
  audit_wf d ->
  audit_wf d' /\ same_registry d d' /\
  store_id (audit_state (audit d')) = store_id (audit_state (audit d)) /\
  next_sequence (audit_state (audit d)) <= next_sequence (audit_state (audit d')) /\
  retained_from (audit_state (audit d)) <= retained_from (audit_state (audit d')) /\
  (forall k p, audit_events (audit d) !! k = Some p ->
     retained_from (audit_state (audit d')) <= k -> audit_events (audit d') !! k = Some p).

#[global] Instance audit_extends_preorder : PreOrder audit_extends.
Proof.
  split.
  - intros d Hwf. split_and!; try done.
  - intros d1 d2 d3 H12 H23 Hwf.
    destruct (H12 Hwf) as (Hwf2 & Hr2 & Hs2 & Hn2 & Hf2 & He2).
    destruct (H23 Hwf2) as (Hwf3 & Hr3 & Hs3 & Hn3 & Hf3 & He3).
    split_and!; try congruence || lia.
    + by etrans.
    + intros k p Hk Hle. apply He3; [|done]. apply He2; [done|lia].
Qed.

Lemma reference_Ok s r : reference_try_from s = Ok r -> r = s /\ reference_try_from s = Ok s.
Proof. unfold reference_try_from. intros Hr. inv_ok. by rewrite Hm. Qed.

Lemma audit_extends_autocommit b d : audit_extends d (set_autocommit b d).
Proof. intros Hwf. split_and!; done. Qed.

Lemma audit_counts_nonneg db : audit_counts db -> 0 <= event_bytes (audit_state (audit db)).
Proof. intros (_ & _ & _ & -> & _). apply sum_bytes_nonneg. Qed.

Lemma i64_u64 : i64_max < u64_max.
Proof. vm_compute. done. Qed.

(** What [info] reports. *)
Lemma info_fields db i :
  info_of db = Ok i ->
  i_store_id i = store_id (audit_state (audit db)) /\
  i_retained_from i = retained_from (audit_state (audit db)) /\
  upper_sequence i = next_sequence (audit_state (audit db)) - 1 /\
  i_events i = events (audit_state (audit db)) /\
  i_bytes i = event_bytes (audit_state (audit db)) /\
  i_degraded i = degraded (audit_state (audit db)) /\
  i_prune_through i = prune_through (audit_state (audit db)) /\
  i_policy_version i = policy_version (audit_state (audit db)) /\
  known_coverage_gaps i = gaps (audit_state (audit db)).
Proof.
  unfold info_of, u64_column. intros Hi. inv_ok.
  repeat match goal with H : (if _ then _ else _) = Ok _ |- _ => destruct (0 <=? _); [|done] end.
  inv_ok. split_and!; reflexivity.
Qed.

(** [info] succeeds exactly under the invariant's bounds. *)
Lemma info_wf db : audit_wf db -> exists i,
  info_of db = Ok i /\ i_store_id i = store_id (audit_state (audit db)) /\
  i_retained_from i = retained_from (audit_state (audit db)) /\
  upper_sequence i = next_sequence (audit_state (audit db)) - 1 /\
  i_events i = events (audit_state (audit db)) /\
  i_bytes i = event_bytes (audit_state (audit db)) /\
  i_degraded i = degraded (audit_state (audit db)) /\
  i_prune_through i = prune_through (audit_state (audit db)) /\
  i_policy_version i = policy_version (audit_state (audit db)) /\
  known_coverage_gaps i = gaps (audit_state (audit db)).
Proof.
  intros [Hc Hb]. pose proof (audit_counts_nonneg _ Hc) as Hnn. pose proof i64_u64.
  destruct Hc as (Hfrom & _ & Hev & _ & _).
  destruct Hb as (Hs & Href & Hn & Hme & Hmb & Hp & Hpt & Hpd).
  eexists. split; [|split_and!; reflexivity || shelve].
  unfold info_of, u64_column, sat_add64. rewrite Hs.
  repeat (rewrite (proj2 (Z.leb_le 0 _)) by lia; simpl). simpl. rewrite Href. simpl.
  unfold check. rewrite !(proj2 (Z.leb_le _ _)), !(proj2 (Z.ltb_lt _ _)) by lia.
  simpl. reflexivity.
  Unshelve. all: reflexivity.
Qed.

(** ** Append *)

(** What a successful append wrote. *)
Lemma append_operation_Ok ev reserve op d db seq db' :
  audit_wf db -> append_operation ev reserve op d db = (Ok seq, db') ->
  autocommit db = false /\
  seq = next_sequence (audit_state (audit db)) /\ seq < i64_max /\
  (reserve = true \/ degraded (audit_state (audit db)) = false) /\
  exists payload inst,
    instance d = Ok inst /\ reference_try_from op = Ok op /\
    to_json {| rec_version := 1; rec_store_id := store_id (audit_state (audit db));
               sequence := seq; process_instance := inst; operation := op;
               wall_seconds := ok (clock d);
               timestamp_quality := match ok (clock d) with
                                    | Some _ => UntrustedWallClock | None => Unavailable end;
               event := ev |} = Ok payload /\
    slen payload <= MAX_EVENT_BYTES /\
    events (audit_state (audit db)) < MAX_EVENTS - (if reserve then 0 else RESERVE_EVENTS) /\
    event_bytes (audit_state (audit db)) + slen payload
      <= MAX_BYTES - (if reserve then 0 else RESERVE_BYTES) /\
    db' = set_state (bump_state seq (slen payload)) (set_events (<[seq := payload]>) db).
Proof.
  intros Hwf Hrun. destruct (info_wf _ Hwf) as (i & Hi & E1 & E2 & E3 & E4 & E5 & E6 & _).
  unfold append_operation, info in Hrun. inv_ok. rewrite Hi in Hm2.
  injection Hm2 as <- <-. rewrite E1, E3, E4, E5, E6 in *.
  apply reference_Ok in Hm as [_ Hm]. bool_prop.
  unfold checked_add64 in Hm4. destruct (_ <=? u64_max); [|done].
  destruct (_ <? i64_max) eqn:Hlt; [|done]. inv_ok. bool_prop.
  replace (next_sequence (audit_state (audit db)) - 1 + 1)
    with (next_sequence (audit_state (audit db))) in * by lia.
  unfold insert_event in Hm9. destruct (_ <=? 2048); [|done].
  destruct (insert_row _ _ _) eqn:Hins; [|done]. injection Hm9 as <-.
  apply insert_row_Ok in Hins as [_ ->].
  split_and!; try done.
  { destruct Hm3; bool_prop; auto. }
  exists a6, a5. split_and!; done.
Qed.

Definition appended (payload : string) (db : AuthDb) : AuthDb :=
  let seq := next_sequence (audit_state (audit db)) in
  set_state (bump_state seq (slen payload)) (set_events (<[seq := payload]>) db).

Lemma appended_extends payload db :
  next_sequence (audit_state (audit db)) < i64_max ->
  events (audit_state (audit db)) < MAX_EVENTS ->
  event_bytes (audit_state (audit db)) + slen payload <= MAX_BYTES ->
  record_ok (store_id (audit_state (audit db))) (next_sequence (audit_state (audit db))) payload ->
  audit_extends db (appended payload db).
Proof.
  intros Hseq Hev Hby Hrec [(Hfrom & Hdom & He & Hb & Hall) Hbd].
  destruct Hbd as (Hs & Href & Hn & _ & _ & Hp & Hpt & Hpd).
  set (st := audit_state (audit db)) in *. set (t := audit_events (audit db)) in *.
  assert (t !! next_sequence st = None) as Hfresh.
  { destruct (t !! next_sequence st) eqn:E; [|done].
    assert (is_Some (t !! next_sequence st)) as Hx by eauto. apply Hdom in Hx. lia. }
  split_and!; try done.
  2: { simpl. fold st. lia. }
  2: { simpl. fold st t. intros k p Hk _. rewrite lookup_insert_ne; [done|]. congruence. }
  split; [split_and!|split_and!]; simpl; fold st t; try done; try lia.
  - intros k. destruct (decide (k = next_sequence st)) as [->|Hk].
    + rewrite lookup_insert_eq. split; [lia|eauto].
    + rewrite lookup_insert_ne by done. rewrite Hdom. lia.
  - replace (next_sequence st + 1 - retained_from st)
      with (next_sequence st - retained_from st + 1) by lia.
    rewrite trail_snoc by lia. rewrite sum_bytes_app, Hb.
    replace (retained_from st + (next_sequence st - retained_from st))
      with (next_sequence st) by lia.
    rewrite lookup_insert_eq. unfold sum_bytes at 3. simpl.
    rewrite (trail_ext (<[next_sequence st := payload]> t) t); [lia|]. intros k Hk. rewrite lookup_insert_ne; [done|lia].
  - intros k p. destruct (decide (k = next_sequence st)) as [->|Hk].
    + rewrite lookup_insert_eq. intros [= <-]. done.
    + rewrite lookup_insert_ne by done. apply Hall.
Qed.

(** A failed append changes nothing. *)
Lemma append_operation_Err ev reserve op d db e db' :
  append_operation ev reserve op d db = (Err e, db') -> db' = db.
Proof.
  intros Hrun. unfold append_operation, info in Hrun. inv_err; inv_ok; try done; try congruence.
  unfold insert_event in Hrun. destruct (_ <=? 2048); [|congruence].
  destruct (insert_row _ _ _); congruence.
Qed.

Lemma append_operation_extends ev reserve op d :
  draw_ok d -> keeps audit_extends (append_operation ev reserve op d).
Proof.
  intros Hd db Hwf. destruct (append_operation ev reserve op d db) as [[seq|e] db'] eqn:Hrun.
  - apply append_operation_Ok in Hrun; [|done].
    destruct Hrun as (_ & -> & Hlt & _ & p & inst & Hi & Ho & Hj & Hlen & Hev & Hby & ->).
    destruct Hwf as [Hc Hb]. pose proof Hb as (_ & Href & _).
    apply (appended_extends p db); try done.
    + destruct reserve; unfold RESERVE_EVENTS in *; lia.
    + destruct reserve; unfold RESERVE_BYTES in *; lia.
    + split; [done|]. eexists. split; [done|]. split_and!; simpl; try done. by apply Hd.
  - apply append_operation_Err in Hrun as ->. by apply (reflexivity (R := audit_extends)).
Qed.

Lemma append_extends ev reserve d : draw_ok d -> keeps audit_extends (append ev reserve d).
Proof.
  intros Hd. unfold append. apply keeps_bind; [apply _|apply keeps_lift, _|intros op].
  by apply append_operation_extends.
Qed.

Lemma append_Err ev reserve d db e db' : append ev reserve d db = (Err e, db') -> db' = db.
Proof.
  intros Hrun. unfold append in Hrun. inv_err; [done|]. inv_ok.
  by apply append_operation_Err in Hrun.
Qed.

Lemma mark_degraded_extends : keeps audit_extends mark_degraded.
Proof.
  intros db. unfold mark_degraded. destruct (_ && _); [reflexivity|].
  intros Hwf. split_and!; done.
Qed.
#[local] Hint Resolve append_operation_extends append_extends mark_degraded_extends : keeps.
#[local] Hint Resolve audit_extends_autocommit : core.

(** ** Every operation extends the trail *)

Lemma transaction_extends {A} (m : M AuthDb A) :
  keeps audit_extends m -> keeps audit_extends (transaction m).
Proof. intros Hm. apply keeps_transaction; [apply _|done..]. Qed.
Lemma scoped_transaction_extends {A} (m : M AuthDb (bool * A)) :
  keeps audit_extends m -> keeps audit_extends (scoped_transaction m).
Proof. intros Hm. apply keeps_scoped_transaction; [apply _|done..]. Qed.
Lemma info_extends : keeps audit_extends info.
Proof. intros db. reflexivity. Qed.
Lemma modify_extends f : (forall d, audit_extends d (f d)) -> keeps audit_extends (modify f).
Proof. apply keeps_modify. Qed.
Lemma reference_extends t k : keeps audit_extends (reference t k).
Proof. unfold reference. keeps_auto. Qed.
#[local] Hint Resolve transaction_extends scoped_transaction_extends info_extends
  reference_extends : keeps.

Lemma repair_extends cap ev d : draw_ok d -> keeps audit_extends (repair cap ev d).
Proof. intros Hd. unfold repair. keeps_auto. Qed.

Lemma audit_batch_extends cap evs :
  Forall (fun p => draw_ok p.2) evs -> keeps audit_extends (audit_batch cap evs).
Proof.
  intros Hall. unfold audit_batch. keeps_auto. apply transaction_extends. keeps_auto.
  induction evs as [|[ev d] evs IH]; [apply keeps_ret, _|].
  apply Forall_cons_1 in Hall as [Hd Hall]. simpl in *. keeps_auto.
Qed.

Lemma audit_correlated_extends cap ev op d :
  draw_ok d -> keeps audit_extends (audit_correlated cap ev op d).
Proof. intros Hd. apply transaction_extends. keeps_auto. Qed.

Lemma audit_event_extends cap ev d : draw_ok d -> keeps audit_extends (audit_event cap ev d).
Proof. intros Hd. apply transaction_extends. keeps_auto. Qed.
#[local] Hint Resolve repair_extends audit_event_extends : keeps.

Lemma audit_repair_extends cap ev d : draw_ok d -> keeps audit_extends (audit_repair cap ev d).
Proof. intros Hd. unfold audit_repair. keeps_auto. Qed.

Lemma observe_extends cap s n1 n2 d :
  draw_ok d -> keeps audit_extends (observe cap s n1 n2 d).
Proof.
  intros Hd. unfold observe. keeps_auto.
Qed.

Lemma set_pending_extends f db :
  (audit_wf db -> table_size (f (audit_pending (audit db))) <= 256) ->
  audit_extends db (set_pending f db).
Proof.
  intros Hf Hwf. specialize (Hf Hwf). destruct Hwf as [Hc Hb].
  split_and!; try done. split; [done|]. destruct Hb as (? & ? & ? & ? & ? & ? & ? & ?).
  unfold audit_bounds; simpl; split_and!; done || lia.
Qed.

Lemma size_insert_le (m : gmap string string) k v :
  table_size (<[k := v]> m) <= table_size m + 1.
Proof.
  unfold table_size. destruct (m !! k) eqn:E.
  - rewrite (map_size_insert_Some _ _ _ (mk_is_Some _ _ E)). lia.
  - rewrite (map_size_insert_None _ _ _ E). lia.
Qed.

Lemma delete_where_subseteq {K V} `{Countable K} p (m : gmap K V) : delete_where p m ⊆ m.
Proof.
  apply map_subseteq_spec. intros k v [Hk _]%lookup_delete_where_Some. done.
Qed.

Lemma append_operation_pending ev reserve op d db r db' :
  append_operation ev reserve op d db = (r, db') ->
  audit_pending (audit db') = audit_pending (audit db).
Proof.
  destruct r as [seq|e]; [|by intros ->%append_operation_Err].
  unfold append_operation, info, insert_event. intros Hrun. inv_ok.
  destruct (_ <=? 2048); [|done]. destruct (insert_row _ _ _); [|done]. injection Hm2 as _ <-. by injection Hm9 as <-.
Qed.

Lemma effect_transaction_extends cap k target reserve a d :
  draw_ok d -> keeps audit_extends (effect_transaction cap k target reserve a d).
Proof.
  intros Hd. apply scoped_transaction_extends.
  apply keeps_bind; [apply _|apply keeps_lift, _|intros label].
  apply keeps_bind; [apply _|apply keeps_gets, _|intros [op|]]; [apply keeps_ret, _|].
  intros db. unfold bind, gets, ensure, lift, modify, check_database, ret.
  destruct (_ <? 256) eqn:Hp; [|reflexivity]. destruct (opaque d) as [op|]; [|reflexivity].
  pose proof (append_operation_extends (intent_event k target a) reserve op d Hd db) as He.
  destruct (append_operation _ _ _ _ db) as [[seq|e] db1] eqn:Ha; [|done].
  etrans; [exact He|]. apply append_operation_pending in Ha. bool_prop.
  assert (forall b, audit_extends db1 (set_pending (<[b := op]>) db1)) as Hext.
  { intros b. apply set_pending_extends. intros _. rewrite Ha.
    pose proof (size_insert_le (audit_pending (audit db)) b op). lia. }
  destruct (check_database_pure _ _ _); apply Hext.
Qed.
#[local] Hint Resolve effect_transaction_extends : keeps.

Lemma or_degrade_extends {A} (m : M AuthDb A) :
  keeps audit_extends m -> keeps audit_extends (or_degrade m).
Proof. intros Hm. unfold or_degrade. keeps_auto. Qed.

Lemma audit_effect_inner_extends cap k target reserve a d :
  draw_ok d -> keeps audit_extends (audit_effect_inner cap k target reserve a d).
Proof.
  intros Hd. unfold audit_effect_inner. apply keeps_bind; [apply _| |eauto with keeps].
  apply or_degrade_extends. eauto with keeps.
Qed.

Lemma audit_effect_extends cap k d : draw_ok d -> keeps audit_extends (audit_effect cap k d).
Proof.
  intros Hd. unfold audit_effect. keeps_auto. by apply audit_effect_inner_extends.
Qed.
Lemma audit_effect_target_extends cap k key req d :
  draw_ok d -> keeps audit_extends (audit_effect_target cap k key req d).
Proof.
  intros Hd. unfold audit_effect_target. keeps_auto. by apply audit_effect_inner_extends.
Qed.
Lemma audit_revocation_intent_extends cap t a d :
  draw_ok d -> keeps audit_extends (audit_revocation_intent cap t a d).
Proof.
  intros Hd. unfold audit_revocation_intent. keeps_auto. by apply audit_effect_inner_extends.
Qed.
Lemma audit_export_start_extends cap d :
  draw_ok d -> keeps audit_extends (audit_export_start cap d).
Proof. intros Hd. apply transaction_extends. keeps_auto. Qed.

Lemma delete_pending_extends p : keeps audit_extends (modify (set_pending (delete_where p))).
Proof.
  apply keeps_modify. intros db. apply set_pending_extends. intros [_ Hb].
  destruct Hb as (_ & _ & _ & _ & _ & _ & _ & Hp). unfold table_size in *.
  pose proof (map_subseteq_size _ _ (delete_where_subseteq p (audit_pending (audit db)))). lia.
Qed.
#[local] Hint Resolve delete_pending_extends : keeps.

Lemma audit_effect_result_extends cap k op success d :
  draw_ok d -> keeps audit_extends (audit_effect_result cap k op success d).
Proof.
  intros Hd. unfold audit_effect_result. destruct op as [op|]; [|apply keeps_ret, _].
  apply keeps_bind; [apply _| |intros _; apply keeps_ret, _].
  apply or_degrade_extends, transaction_extends. keeps_auto.
Qed.

Lemma recover_extends cap d : draw_ok d -> keeps audit_extends (recover cap d).
Proof.
  intros Hd. unfold recover. keeps_auto. apply transaction_extends. keeps_auto.
Qed.

Lemma retain_extends through db :
  0 <= through < next_sequence (audit_state (audit db)) ->
  audit_extends db (set_state (retain_state through) db).
Proof.
  intros Ht [Hc (? & ? & ? & ? & ? & ? & ? & ?)]. split_and!; try done.
  split; [done|]. unfold audit_bounds; simpl; split_and!; done || lia.
Qed.

Lemma set_retention_extends cap through d :
  0 <= through -> draw_ok d -> keeps audit_extends (set_retention cap through d).
Proof.
  intros Ht Hd. unfold set_retention. apply keeps_bind; [apply _|apply info_extends|intros _].
  apply transaction_extends. intros db. apply keeps_bind_at; [|by intros ? ? [= _ <-]].
  intros i db1 [= Hi <-]. apply info_fields in Hi as (_ & _ & Hu & _).
  apply keeps_bind_at; [|by intros ? ? [_ ->]%ensure_Err].
  intros [] db1 [Hle ->]%ensure_Ok. bool_prop.
  unfold bind at 1, modify. etrans; [apply (retain_extends through); lia|].
  apply (keeps_bind audit_extends); keeps_auto.
Qed.

(** ** Pruning *)

Definition prune_query (through : Z) (t : gmap Z string) : list (Z * string) :=
  take 256 (merge_sort by_sequence (rows (fun k _ => k <=? through) t)).

(** The batch a prune deletes is the oldest part of the trail. *)
Lemma prune_query_trail db through :
  audit_counts db ->
  let st := audit_state (audit db) in
  prune_query through (audit_events (audit db)) =
  trail (audit_events (audit db)) (retained_from st)
    (Z.min 256 (Z.min (through + 1) (next_sequence st) - retained_from st)).
Proof.
  intros (_ & Hdom & _). simpl. unfold prune_query.
  rewrite (query_trail _ _ _ _ (retained_from (audit_state (audit db)))
             (Z.min (through + 1) (next_sequence (audit_state (audit db)))) Hdom).
  - apply (take_trail _ _ _ 256). lia.
  - intros k v Hk. rewrite Z.leb_le. lia.
  - lia.
  - lia.
Qed.

Lemma max_sequence_trail t lo n : 0 < n -> max_sequence (trail t lo n) = Some (lo + n - 1).
Proof.
  intros Hn. rewrite trail_cons by done. simpl. f_equal.
  assert (forall m lo n, 0 <= n -> Z.to_nat n = m -> lo + n >= lo ->
    foldr Z.max lo (map fst (trail t (lo + 1) n)) = lo + n) as Haux.
  { clear. intros m. induction m as [|m IH]; intros lo n Hn Hm _.
    - rewrite trail_nil by lia. simpl. lia.
    - replace n with (n - 1 + 1) at 1 by lia. rewrite trail_snoc by lia.
      rewrite map_app. simpl. rewrite foldr_app. simpl.
      assert (forall l a, a = lo + n -> (forall x, x ∈ l -> x <= a) ->
                foldr Z.max a l = a) as Hf.
      { intros l a _. induction l as [|x l IHl]; intros Hx; simpl; [done|].
        rewrite IHl by (intros y Hy; apply Hx; by right).
        pose proof (Hx x ltac:(left)). lia. }
      rewrite Z.max_l by lia. rewrite Hf; [lia|lia|].
      intros x Hx. apply list_elem_of_In, in_map_iff in Hx as ([k p] & <- & Hin).
      apply list_elem_of_In, elem_of_trail in Hin. simpl. lia. }
  rewrite (Haux (Z.to_nat (n - 1))); lia.
Qed.

Definition pruned (last c bytes : Z) (db : AuthDb) : AuthDb :=
  set_state (prune_state last c bytes) (set_events (delete_where (fun k _ => k <=? last)) db).

Lemma pruned_extends c db :
  let st := audit_state (audit db) in
  0 < c <= next_sequence st - retained_from st ->
  audit_extends db (pruned (retained_from st + c - 1) c
    (sum_bytes (trail (audit_events (audit db)) (retained_from st) c)) db).
Proof.
  intros st Hc [(Hfrom & Hdom & He & Hb & Hall) (Hs & Href & Hn & Hme & Hmb & Hp & Hpt & Hpd)].
  unfold pruned. fold st in Hfrom, Hdom, He, Hb, Hall, Href, Hn, Hme, Hmb, Hp, Hpt.
  set (t := audit_events (audit db)) in *.
  assert (sum_bytes (trail t (retained_from st) (next_sequence st - retained_from st)) =
          sum_bytes (trail t (retained_from st) c) +
          sum_bytes (trail t (retained_from st + c) (next_sequence st - retained_from st - c)))
    as Hsplit.
  { rewrite <- sum_bytes_app, <- trail_app by lia. do 2 f_equal. lia. }
  pose proof (sum_bytes_nonneg (trail t (retained_from st) c)).
  split_and!; try done; simpl; fold st t.
  2: { lia. }
  2: { intros k p Hk Hle. apply lookup_delete_where_Some. split; [done|]. apply Z.leb_gt. lia. }
  split; unfold audit_counts, audit_bounds; simpl; fold st t; split_and!; try done; try lia.
  - intros k. rewrite lookup_delete_where. specialize (Hdom k).
    destruct (t !! k) as [v|].
    + destruct (k <=? _) eqn:Hle; bool_prop.
      * split; [by intros []|lia].
      * split; [|eauto]. intros _. assert (retained_from st <= k < next_sequence st); [|lia].
        apply Hdom. eauto.
    + split; [by intros []|]. intros Hk. apply Hdom. lia.
  - rewrite Hb, Hsplit.
    replace (retained_from st + c - 1 + 1) with (retained_from st + c) by lia.
    rewrite (trail_ext (delete_where _ _) t).
    + replace (next_sequence st - (retained_from st + c))
        with (next_sequence st - retained_from st - c) by lia. lia.
    + intros k Hk. rewrite lookup_delete_where. destruct (t !! k); [|done].
      by rewrite (proj2 (Z.leb_gt _ _)) by lia.
  - intros k p [Hk _]%lookup_delete_where_Some. by apply Hall.
Qed.

(** A non-empty batch: its size, its last row and its rows. *)
Lemma prune_batch db through last :
  audit_counts db ->
  max_sequence (prune_query through (audit_events (audit db))) = Some last ->
  let st := audit_state (audit db) in
  exists c, 0 < c <= next_sequence st - retained_from st /\
    last = retained_from st + c - 1 /\
    prune_query through (audit_events (audit db)) =
      trail (audit_events (audit db)) (retained_from st) c /\
    zlen (prune_query through (audit_events (audit db))) = c.
Proof.
  intros Hcts Hlast st. pose proof (prune_query_trail db through Hcts) as Hq. fold st in Hq.
  set (c := Z.min 256 (Z.min (through + 1) (next_sequence st) - retained_from st)) in *.
  rewrite Hq in *. destruct (Z.le_gt_cases c 0) as [Hle|Hgt].
  - by rewrite trail_nil in Hlast.
  - rewrite max_sequence_trail in Hlast by lia. injection Hlast as <-.
    exists c. split_and!; try done; [lia..|]. unfold zlen. rewrite length_trail. lia.
Qed.

Lemma prune_extends through apply opened d : draw_ok d -> keeps audit_extends (prune through apply opened d).
Proof.
  intros Hd. unfold prune. apply keeps_bind; [apply _|apply info_extends|intros i].
  apply keeps_bind; [apply _|apply keeps_ensure, _|intros _].
  apply keeps_bind; [apply _|apply keeps_gets, _|intros elig].
  destruct (_ || _); [apply keeps_ret, _|]. apply keeps_bind; [apply _|apply keeps_lift, _|intros _]. apply transaction_extends.
  intros db. unfold bind at 1, gets. fold (prune_query through (audit_events (audit db))).
  unfold bind at 1, lift. destruct (ok_or _ _) as [last|] eqn:Hlast; [|reflexivity].
  unfold bind at 1 2, modify at 1 2.
  set (batch := prune_query through (audit_events (audit db))) in *.
  change (set_state _ (set_events _ db)) with (pruned last (zlen batch) (sum_bytes batch) db).
  etrans; [|apply (keeps_bind audit_extends); keeps_auto].
  apply ok_or_Ok in Hlast. intros Hwf.
  destruct (prune_batch db through last) as (c & Hc & -> & Hb & Hl); [apply Hwf|done|].
  fold batch in Hb, Hl. rewrite Hl, Hb. by apply (pruned_extends c db).
Qed.
(** ** All operations together *)

(** One operation of the trail, by a caller of the module. *)
Inductive audit_op : Type :=
| OpBatch (evs : list (Event * Draw))
| OpCorrelated (ev : Event) (op : string) (d : Draw)
| OpEvent (ev : Event) (d : Draw)
| OpRepair (ev : Event) (d : Draw)
| OpDenial (s : Denials) (now1 now2 : Z) (d : Draw)
| OpRetention (through : Z) (d : Draw)
| OpPrune (through : Z) (apply : bool) (opened : result unit) (d : Draw)
| OpEffect (k : Kind) (d : Draw)
| OpEffectTarget (k : Kind) (key : string) (required : bool) (d : Draw)
| OpRevocationIntent (target author : string) (d : Draw)
| OpExportStart (d : Draw)
| OpEffectResult (k : Kind) (op : option string) (success : bool) (d : Draw)
| OpRecover (d : Draw).

Definition op_ok (o : audit_op) : Prop :=
  match o with
  | OpBatch evs => Forall (fun p => draw_ok p.2) evs
  | OpRetention through d => 0 <= through /\ draw_ok d
  | OpCorrelated _ _ d | OpEvent _ d | OpRepair _ d | OpDenial _ _ _ d | OpPrune _ _ _ d
  | OpEffect _ d | OpEffectTarget _ _ _ d | OpRevocationIntent _ _ d | OpExportStart d
  | OpEffectResult _ _ _ d | OpRecover d => draw_ok d
  end.

(** The state an operation leaves, whatever it returns. *)
Definition run_op (cap : Capacity) (o : audit_op) (db : AuthDb) : AuthDb :=
  match o with
  | OpBatch evs => snd (audit_batch cap evs db)
  | OpCorrelated ev op d => snd (audit_correlated cap ev op d db)
  | OpEvent ev d => snd (audit_event cap ev d db)
  | OpRepair ev d => snd (audit_repair cap ev d db)
  | OpDenial s n1 n2 d => snd (observe cap s n1 n2 d db)
  | OpRetention through d => snd (set_retention cap through d db)
  | OpPrune through ap opened d => snd (prune through ap opened d db)
  | OpEffect k d => snd (audit_effect cap k d db)
  | OpEffectTarget k key req d => snd (audit_effect_target cap k key req d db)
  | OpRevocationIntent t a d => snd (audit_revocation_intent cap t a d db)
  | OpExportStart d => snd (audit_export_start cap d db)
  | OpEffectResult k op ok d => snd (audit_effect_result cap k op ok d db)
  | OpRecover d => snd (recover cap d db)
  end.

Lemma run_op_extends cap o db : op_ok o -> audit_extends db (run_op cap o db).
Proof.
  destruct o; simpl; intros Hok.
  - by apply audit_batch_extends.
  - by apply audit_correlated_extends.
  - by apply audit_event_extends.
  - by apply audit_repair_extends.
  - by apply observe_extends.
  - apply set_retention_extends; tauto.
  - by apply prune_extends.
  - by apply audit_effect_extends.
  - by apply audit_effect_target_extends.
  - by apply audit_revocation_intent_extends.
  - by apply audit_export_start_extends.
  - by apply audit_effect_result_extends.
  - by apply recover_extends.
Qed.

(** C29. The audit trail is append-only evidence. After any sequence of audit
    operations, failed ones included, the state row still accounts for exactly
    the rows present (contiguous sequence numbers, row count, byte count, all
    within the hard caps, at most 256 pending effects), the registry's own tables
    are untouched, sequence numbers are never reused, and every event recorded
    before that is not below the retention boundary is still there, unaltered. *)
Theorem audit_evidence_preserved cap ops db :
  audit_wf db -> Forall op_ok ops ->
  let db' := foldl (fun d o => run_op cap o d) db ops in
  audit_wf db' /\ same_registry db db' /\
  next_sequence (audit_state (audit db)) <= next_sequence (audit_state (audit db')) /\
  (forall k p, audit_events (audit db) !! k = Some p ->
     retained_from (audit_state (audit db')) <= k -> audit_events (audit db') !! k = Some p).
Proof.
  intros Hwf Hok db'. assert (audit_extends db db') as Hext.
  { subst db'. clear Hwf. revert db. induction ops as [|o ops IH]; intros db; simpl.
    - reflexivity.
    - apply Forall_cons_1 in Hok as [Ho Hok].
      etrans; [by apply (run_op_extends cap o) | by apply IH]. }
  destruct (Hext Hwf) as (? & ? & _ & ? & _ & ?). split_and!; done.
Qed.

(** ** Export *)

(** What is written goes to the end of one file. *)
Definition writes (path : string) (d d' : Disk) : Prop :=
  dk_user d' = dk_user d /\ exists data, dk_fs d' = append_to path data (dk_fs d).
#[local] Instance writes_preorder path : PreOrder (writes path).
Proof.
  split.
  - intros d. split; [done|]. exists []. by rewrite append_to_nil.
  - intros d1 d2 d3 [U1 (a & E1)] [U2 (b & E2)]. split; [by rewrite U2|]. exists (a ++ b).
    by rewrite E2, E1, append_to_app.
Qed.
Lemma sync_writes path : keeps (writes path) (disk_op id untouched).
Proof.
  intros d. destruct (disk_op id untouched d) as [r d'] eqn:Hd. apply disk_op_cases in Hd as [U [[_ E]|[_ (n & E)]]];
    (split; [done|]); exists []; by rewrite append_to_nil.
Qed.
Lemma write_line_writes path text : keeps (writes path) (write_line path text).
Proof.
  intros d. unfold write_line. destruct (disk_op _ _ d) as [r d'] eqn:Hd.
  apply disk_op_cases in Hd as [U [[_ E]|[_ [n E]]]]; (split; [done|]); by eexists.
Qed.
Lemma write_line_Ok path text d d' :
  write_line path text d = (Ok tt, d') -> dk_fs d' = append_to path (line_bytes text) (dk_fs d).
Proof. intros Hd. by apply disk_op_cases in Hd as [_ [[_ E]|[[=] _]]]. Qed.
Context `{Json Manifest}.
Lemma write_manifest_writes path m : keeps (writes path) (write_manifest path m).
Proof. pose proof write_line_writes. unfold write_manifest. keeps_auto. Qed.
Lemma write_manifest_Ok path m d d' : write_manifest path m d = (Ok tt, d') ->
  exists text, to_json m = Ok text /\ dk_fs d' = append_to path (line_bytes text) (dk_fs d).
Proof. intros (text & ? & [Ht ->]%lift_Ok & Hw%write_line_Ok)%bind_Ok. by exists text. Qed.
Lemma export_rows_writes path store count cursor rs :
  keeps (writes path) (export_rows path store count cursor rs).
Proof.
  pose proof write_line_writes. revert count cursor.
  induction rs as [|[seq p] rs IH]; intros count cursor; cbn [export_rows]; keeps_auto.
Qed.
Lemma export_loop_writes fuel t path store upper limit count cursor :
  keeps (writes path) (export_loop fuel t path store upper limit count cursor).
Proof.
  pose proof export_rows_writes. revert count cursor.
  induction fuel as [|fuel IH]; intros count cursor; cbn [export_loop]; keeps_auto.
Qed.

(** The lines of a file. *)
Definition lines_bytes (l : list string) : bytes := concat (line_bytes <$> l).
Lemma lines_bytes_app l l' : lines_bytes (l ++ l') = lines_bytes l ++ lines_bytes l'.
Proof. unfold lines_bytes. by rewrite fmap_app, concat_app. Qed.

(** Rows that pass are written, and follow the cursor one by one. *)
Lemma export_rows_Ok path store count cursor rs d c k d' :
  export_rows path store count cursor rs d = (Ok (c, k), d') ->
  c = count + zlen rs /\ k = cursor + zlen rs /\
  dk_fs d' = append_to path (lines_bytes (snd <$> rs)) (dk_fs d) /\
  forall i x, rs !! i = Some x -> fst x = cursor + 1 + Z.of_nat i.
Proof.
  revert count cursor d. induction rs as [|[seq p] rs IH]; intros count cursor d Hr; cbn [export_rows] in Hr.
  - injection Hr as <- <- <-. unfold zlen. cbn. split_and!; [lia..|by rewrite append_to_nil|done].
  - apply bind_Ok in Hr as ([] & ? & [Hs ->]%ensure_Ok & Hr). do 5 (apply bind_Ok in Hr as (? & ? & [_ ->]%lift_Ok & Hr) ||
      apply bind_Ok in Hr as ([] & ? & [_ ->]%ensure_Ok & Hr)).
    apply bind_Ok in Hr as ([] & ? & [_ ->]%ensure_Ok & Hr).
    apply bind_Ok in Hr as ([] & d1 & Hw%write_line_Ok & Hr). apply IH in Hr as (-> & -> & E & Hseq). bool_prop.
    unfold zlen in *. simpl length. split_and!; [lia..| |].
    + rewrite E, Hw, append_to_app. done.
    + intros [|i] row; simpl; [intros [= <-]; simpl; lia|]. intros Hx%Hseq. lia.
Qed.
Lemma event_rows_elem lo hi limit t k v : (k, v) ∈ event_rows lo hi limit t -> t !! k = Some v /\ lo < k <= hi.
Proof.
  unfold event_rows. intros Hin%elem_of_take. destruct Hin as (i & Hi & _). apply list_elem_of_lookup_2 in Hi.
  rewrite merge_sort_Permutation in Hi. apply elem_of_rows in Hi as [Hk Hp]. split; [done|]. bool_prop. lia.
Qed.
Lemma event_rows_short lo hi limit t : 0 <= limit -> zlen (event_rows lo hi limit t) <= limit.
Proof. intros Hl. unfold event_rows, zlen. rewrite length_take. lia. Qed.

(** A loop that ends has written the events after the cursor, without a gap, up to
    the boundary or the limit. *)
Lemma export_loop_Ok fuel t path store upper limit count cursor d c k d' :
  export_loop fuel t path store upper limit count cursor d = (Ok (c, k), d') ->
  count <= limit -> cursor <= upper ->
  exists ps, c = count + zlen ps /\ k = cursor + zlen ps /\
    dk_fs d' = append_to path (lines_bytes ps) (dk_fs d) /\
    (forall i p, ps !! i = Some p -> t !! (cursor + 1 + Z.of_nat i) = Some p) /\
    c <= limit /\ k <= upper /\ (c = limit \/ k = upper).
Proof.
  revert count cursor d. induction fuel as [|fuel IH]; intros count cursor d Hr Hc Hk; [done|]. cbn [export_loop] in Hr.
  destruct (count <? limit) eqn:Hlt; bool_prop.
  2: { injection Hr as <- <- <-. exists []. unfold zlen. cbn. rewrite append_to_nil. split_and!; [lia..|done|done|lia|lia|lia]. }
  apply bind_Ok in Hr as ([c1 k1] & d1 & Hrows & Hr).
  apply export_rows_Ok in Hrows as (-> & -> & E1 & Hseq).
  set (rs := event_rows _ _ _ _) in *.
  assert (forall i p, (snd <$> rs) !! i = Some p -> t !! (cursor + 1 + Z.of_nat i) = Some p /\
    cursor + 1 + Z.of_nat i <= upper) as Hrs.
  { intros i p. rewrite list_lookup_fmap. destruct (rs !! i) as [[key v]|] eqn:Hi; [|done]. intros [= <-].
    pose proof (Hseq _ _ Hi) as Hkey. simpl in Hkey. apply list_elem_of_lookup_2, event_rows_elem in Hi as [Ht Hin].
    rewrite <- Hkey. split; [done|lia]. }
  pose proof (event_rows_short cursor upper (Z.min (limit - count) 256) t ltac:(lia)) as Hshort. fold rs in Hshort.
  assert (cursor + zlen rs <= upper) as Hupper.
  { destruct (Z.eq_dec (zlen rs) 0) as [->|Hne]; [lia|]. unfold zlen in *.
    destruct ((snd <$> rs) !! (length rs - 1)%nat) as [p|] eqn:Hl.
    - apply Hrs in Hl as [_ Hl]. lia.
    - apply lookup_ge_None in Hl. rewrite length_fmap in Hl. lia. }
  destruct (_ =? _) eqn:Hz; bool_prop.
  - apply bind_Ok in Hr as ([] & ? & [Hu ->]%ensure_Ok & [= <- <- <-]). bool_prop. exists (snd <$> rs).
    unfold zlen in *. rewrite length_fmap. split_and!; [lia..|done|intros i p Hi; by apply Hrs|lia|lia|lia].
  - apply IH in Hr as (ps & -> & -> & E & Hps & Hl1 & Hl2 & Hl3); [|lia..]. exists ((snd <$> rs) ++ ps).
    unfold zlen in *. rewrite length_app, length_fmap. split_and!; [lia..| | |lia|lia|lia].
    + by rewrite E, E1, append_to_app, lines_bytes_app.
    + intros i p. destruct (decide (i < length rs)%nat) as [Hi|Hi].
      * rewrite lookup_app_l by (rewrite length_fmap; lia). apply Hrs.
      * rewrite lookup_app_r by (rewrite length_fmap; lia). rewrite length_fmap. intros Hp%Hps.
        by replace (cursor + 1 + Z.of_nat i) with (cursor + Z.of_nat (length rs) + 1 + Z.of_nat (i - length rs)) by lia.
Qed.
(** More fuel than lines left changes nothing: every round writes a line or ends. *)
Lemma export_loop_fuel fuel t path store upper limit count cursor d :
  (Z.to_nat (limit - count) < fuel)%nat ->
  export_loop (S fuel) t path store upper limit count cursor d =
  export_loop fuel t path store upper limit count cursor d.
Proof.
  revert count cursor d. induction fuel as [|fuel IH]; intros count cursor d Hf; [lia|].
  set (S fuel) as f. cbn [export_loop]. subst f. cbn [export_loop]. destruct (count <? limit) eqn:Hlt; [|done]. bool_prop.
  unfold bind. destruct (export_rows _ _ _ _ _ d) as [[[c1 k1]|e] d1] eqn:Hr; [|done].
  apply export_rows_Ok in Hr as (-> & _). destruct (_ =? _) eqn:Hz; [done|]. bool_prop. apply IH. unfold zlen in *. lia.
Qed.

Lemma event_rows_trail db lo hi limit :
  audit_counts db ->
  retained_from (audit_state (audit db)) - 1 <= lo ->
  hi < next_sequence (audit_state (audit db)) -> 0 <= limit ->
  event_rows lo hi limit (audit_events (audit db)) =
  trail (audit_events (audit db)) (lo + 1) (Z.min limit (hi - lo)).
Proof.
  intros (_ & Hdom & _) Hlo Hhi Hlim. unfold event_rows.
  rewrite (query_trail _ _ _ _ (lo + 1) (hi + 1) Hdom); [|intros k v Hk|lia|lia].
  - rewrite take_trail by done. do 2 f_equal. lia.
  - rewrite andb_true_iff, Z.ltb_lt, Z.leb_le. lia.
Qed.

(** The rows of a well-formed trail parse. *)
Definition records_parse (db : AuthDb) : Prop :=
  forall (r : AuditRecord) k p,
    audit_events (audit db) !! k = Some p -> to_json r = Ok p -> from_json p = Ok r.

Lemma write_line_faultless path text d : faultless d ->
  exists d', write_line path text d = (Ok tt, d') /\ faultless d'.
Proof. intros Hd. unfold write_line. rewrite disk_op_faultless by done. by eexists. Qed.
Lemma export_rows_trail db pending count cursor n d :
  audit_counts db -> records_parse db -> faultless d ->
  retained_from (audit_state (audit db)) - 1 <= cursor ->
  cursor + n < next_sequence (audit_state (audit db)) -> 0 <= n ->
  exists d', export_rows pending (store_id (audit_state (audit db))) count cursor
    (trail (audit_events (audit db)) (cursor + 1) n) d = (Ok (count + n, cursor + n), d') /\ faultless d'.
Proof.
  intros Hc Hp Hd Hlo Hhi Hn. pose proof Hc as (_ & Hdom & _ & _ & Hrec).
  assert (exists m, n = Z.of_nat m) as [m ->] by (exists (Z.to_nat n); lia).
  clear Hn. revert count cursor d Hd Hlo Hhi; induction m as [|m IH]; intros count cursor d Hd Hlo Hhi.
  - rewrite trail_nil by lia. cbn [export_rows]. rewrite !Z.add_0_r. by exists d.
  - rewrite trail_cons by lia.
    replace (Z.of_nat (S m) - 1) with (Z.of_nat m) by lia.
    destruct (proj2 (Hdom (cursor + 1)) ltac:(lia)) as [p Hk]. rewrite Hk. simpl default.
    destruct (Hrec _ _ Hk) as (Hlen & r & Hj & Hv & Hs & Hq & Hr1 & Hr2 & Hr3).
    destruct (write_line_faultless pending p d Hd) as (d1 & Hw & Hd1).
    destruct (IH (count + 1) (cursor + 1) d1 Hd1 ltac:(lia) ltac:(lia)) as (d' & Hrows & Hd').
    exists d'. split; [|done]. cbn [export_rows]. rewrite (proj2 (Z.eqb_eq _ _)) by lia.
    rewrite (proj2 (Z.leb_le _ _)) by done. unfold bind, ensure, lift.
    rewrite (Hp r _ _ Hk Hj), Hs, Hr1, Hr2, Hr3, Hv, Hq, bool_decide_eq_true_2, !Z.eqb_refl by done. cbn -[write_line export_rows].
    rewrite Hw, Hrows.
    assert (count + 1 + Z.of_nat m = count + Z.of_nat (S m)) as -> by lia.
    assert (cursor + 1 + Z.of_nat m = cursor + Z.of_nat (S m)) as -> by lia. done.
Qed.
Lemma export_loop_trail db fuel pending upper limit count cursor d :
  audit_counts db -> records_parse db -> faultless d ->
  retained_from (audit_state (audit db)) - 1 <= cursor <= upper ->
  upper < next_sequence (audit_state (audit db)) -> count <= limit ->
  (Z.to_nat (limit - count) < fuel)%nat ->
  exists c d', export_loop fuel (audit_events (audit db)) pending (store_id (audit_state (audit db))) upper limit
    count cursor d = (Ok c, d') /\ faultless d'.
Proof.
  intros Hc Hp. revert count cursor d.
  induction fuel as [|fuel IH]; intros count cursor d Hd Hcur Hup Hlim Hf; [lia|]. cbn [export_loop].
  destruct (count <? limit) eqn:Hlt; bool_prop; [|by eexists _, d].
  rewrite event_rows_trail by (done || lia).
  set (b := Z.min (Z.min (limit - count) 256) (upper - cursor)).
  destruct (export_rows_trail db pending count cursor b d Hc Hp Hd) as (d1 & Hrows & Hd1); [lia..|].
  unfold bind. rewrite Hrows. destruct (_ =? _) eqn:Hz; bool_prop.
  - rewrite (proj2 (Z.eqb_eq _ _)) by lia. by eexists _, d1.
  - apply IH; [done|lia..].
Qed.

(** *** What an export leaves *)

Lemma pending_other output : pending_name output <> output.
Proof.
  intros He. apply (f_equal slen) in He. unfold pending_name in He. rewrite slen_app in He.
  unfold slen at 2 in He. simpl in He. lia.
Qed.
(** A complete file: the opening manifest, the events after the cursor up to the
    limit or the boundary, and the manifest that says so. *)
Definition export_file (inspected : result AuthDb) (user : Z) (store : string) (after upper limit : Z) (n : Node)
  : Prop :=
  exists db state open ps close, inspected = Ok db /\ info_of db = Ok state /\ store = i_store_id state /\
    i_retained_from state - 1 <= after <= upper /\ upper <= upper_sequence state /\
    zlen ps = Z.min limit (upper - after) /\
    (forall i p, ps !! i = Some p -> audit_events (audit db) !! (after + 1 + Z.of_nat i) = Some p) /\
    to_json (export_manifest state store after upper "manifest" 0 after false) = Ok open /\
    to_json (export_manifest state store after upper "completion" (zlen ps) (after + zlen ps) true) = Ok close /\
    n = {| file_type := Regular; owner := user; mode := 0x180; contents := lines_bytes (open :: ps ++ [close]) |}.
Definition blank (user : Z) : Node := {| file_type := Regular; owner := user; mode := 0x180; contents := [] |}.

Lemma export_write_writes db state pending store after upper limit :
  keeps (writes pending) (export_write db state pending store after upper limit).
Proof.
  pose proof write_manifest_writes. pose proof export_loop_writes. pose proof sync_writes.
  unfold export_write. keeps_auto.
Qed.
Lemma export_write_run db state pending store after upper limit d r d' :
  store = i_store_id state -> info_of db = Ok state ->
  i_retained_from state - 1 <= after <= upper -> upper <= upper_sequence state -> 0 <= limit ->
  dk_fs d !! pending = Some (blank (dk_user d)) ->
  export_write db state pending store after upper limit d = (r, d') ->
  writes pending d d' /\
  (r = Ok tt -> exists n, dk_fs d' = <[pending := n]> (dk_fs d) /\
     export_file (Ok db) (dk_user d) store after upper limit n).
Proof.
  intros Hs Hinfo Hfrom Hto Hlim Hblank Hrun. split.
  - pose proof (export_write_writes db state pending store after upper limit d) as Hk. by rewrite Hrun in Hk.
  - intros ->. unfold export_write in Hrun.
    apply bind_Ok in Hrun as ([] & d1 & (open & Ho & E1)%write_manifest_Ok & Hrun).
    apply bind_Ok in Hrun as ([c k] & d2 & Hl & Hrun).
    apply export_loop_Ok in Hl as (ps & -> & -> & E2 & Hps & ? & ? & ?); [|lia..].
    apply bind_Ok in Hrun as ([] & ? & [_ ->]%ensure_Ok & Hrun).
    apply bind_Ok in Hrun as ([] & d3 & [_ [[_ E3]|[[=] _]]]%disk_op_cases & Hrun).
    apply bind_Ok in Hrun as ([] & d4 & (close & Hc & E4)%write_manifest_Ok & Hrun).
    apply disk_op_cases in Hrun as [_ [[_ E5]|[[=] _]]].
    eexists. split; [|exists db, state, open, ps, close; split_and!;
      [done..|lia|lia|lia|lia|exact Hps|exact Ho|exact Hc|reflexivity]].
    rewrite E5, E4, E3, E2, E1. unfold id. rewrite !append_to_app. apply map_eq. intros q. rewrite append_to_at.
    destruct (decide (q = pending)) as [->|]; [|by rewrite lookup_insert_ne].
    rewrite lookup_insert_eq, Hblank. cbn. unfold lines_bytes. cbn. rewrite fmap_app, concat_app. cbn.
    by rewrite app_nil_r, ?app_assoc.
Qed.
Lemma exclusively_run path f d r d' :
  exclusively path f d = (r, d') ->
  dk_user d' = dk_user d /\
  (dk_fs d' = dk_fs d /\ is_ok r = false \/
   dk_fs d !! path = None /\ r = Ok tt /\ dk_fs d' = f (dk_user d) (dk_fs d)).
Proof.
  unfold exclusively, bind, gets, id. destruct (bool_decide _) eqn:Hp; bool_prop; [|intros [= <- <-]; by auto].
  intros [U [[-> E]|[-> (n & E)]]]%disk_op_cases; auto.
Qed.
Lemma sync_run d r d' : disk_op id untouched d = (r, d') -> dk_user d' = dk_user d /\ dk_fs d' = dk_fs d.
Proof. intros [U [[_ E]|[_ (n & E)]]]%disk_op_cases; by split. Qed.
Lemma name_unused_run path d r d' : name_unused path d = (r, d') ->
  dk_user d' = dk_user d /\ dk_fs d' = dk_fs d /\ (r = Ok tt -> dk_fs d !! path = None).
Proof.
  unfold name_unused, bind, attempt, gets, id. destruct (disk_op _ _ d) as [x d0] eqn:Hx. apply sync_run in Hx as [U E].
  unfold ensure. rewrite E. destruct (_ && _) eqn:Hb; intros [= <- <-]; (split_and!; [done..|]); [|done].
  by bool_prop.
Qed.
Lemma export_publish_run pending output d r d' :
  export_publish pending output d = (r, d') ->
  dk_user d' = dk_user d /\
  (dk_fs d' = dk_fs d /\ is_ok r = false \/
   dk_fs d !! output = None /\
     (dk_fs d' = link_file pending output (dk_fs d) /\ is_ok r = false \/
      dk_fs d' = delete pending (link_file pending output (dk_fs d)) /\ r = Ok tt)).
Proof.
  unfold export_publish, hard_link. intros Hrun.
  apply bind_cases in Hrun as [(e & [U1 [[E1 _]|(_ & [=] & _)]]%exclusively_run & ->)
                              |([] & d1 & [U1 [[_ [=]]|(Ho & _ & E1)]]%exclusively_run & Hrun)]; [by auto|].
  apply bind_cases in Hrun as [(e & [U2 E2]%sync_run & ->)|([] & d2 & [U2 E2]%sync_run & Hrun)].
  { split; [by rewrite U2|]. right. split; [done|]. left. by rewrite E2, E1. }
  apply disk_op_cases in Hrun as [U3 [[-> E3]|[-> [n E3]]]]; (split; [by rewrite U3, U2|]); right; (split; [done|]).
  - right. by rewrite E3, E2, E1.
  - left. unfold untouched in E3. by rewrite E3, E2, E1.
Qed.

Lemma arrives_at path n d : dk_user (arrives path n d) = dk_user d /\ dk_io (arrives path n d) = dk_io d /\
  (dk_fs d !! path = None -> dk_fs (arrives path n d) !! path = n) /\
  (forall q, q <> path \/ dk_fs d !! path <> None -> dk_fs (arrives path n d) !! q = dk_fs d !! q).
Proof.
  unfold arrives. destruct n as [n|], (dk_fs d !! path) as [m|] eqn:Hp; cbn; split_and!; try done.
  - intros _. by rewrite lookup_insert_eq.
  - intros q [Hq|Hq]; [by rewrite lookup_insert_ne|done].
Qed.
(** The checks of an export read; past them nothing has the output's name or the
    pending one's. *)
Lemma export_checked inspected meanwhile output store after upper limit d r d' :
  export inspected meanwhile output store after upper limit d = (r, d') ->
  dk_user d' = dk_user d /\ dk_fs d' = dk_fs d /\ is_ok r = false \/
  exists db state d1, inspected = Ok db /\ info_of db = Ok state /\ store = i_store_id state /\
    1 <= limit <= 10000 /\ i_retained_from state - 1 <= after <= upper /\ upper <= upper_sequence state /\
    dk_fs d !! output = None /\ dk_fs d !! pending_name output = None /\ dk_user d1 = dk_user d /\
    dk_fs d1 = <[pending_name output := blank (dk_user d)]> (dk_fs d) /\
    (export_write db state (pending_name output) store after upper limit ;;;
     modify (arrives output meanwhile) ;;;
     export_publish (pending_name output) output) d1 = (r, d').
Proof.
  unfold export. intros Hrun.
  apply bind_cases in Hrun as [(e & [_ ->]%ensure_Err & ->)|([] & ? & [Hl ->]%ensure_Ok & Hrun)]; [by left|].
  apply bind_cases in Hrun as [(e & [_ ->]%lift_Err & ->)|(db & ? & [Hdb ->]%lift_Ok & Hrun)]; [by left|].
  apply bind_cases in Hrun as [(e & [_ ->]%lift_Err & ->)|(state & ? & [Hi ->]%lift_Ok & Hrun)]; [by left|].
  apply bind_cases in Hrun as [(e & [_ ->]%ensure_Err & ->)|([] & ? & [Hs ->]%ensure_Ok & Hrun)]; [by left|].
  apply bind_cases in Hrun as [(e & [_ ->]%ensure_Err & ->)|([] & ? & [Hr ->]%ensure_Ok & Hrun)]; [by left|].
  apply bind_cases in Hrun as [(e & (U1 & E1 & _)%name_unused_run & ->)|([] & d1 & (U1 & E1 & Ho)%name_unused_run & Hrun)];
    [by left|].
  apply bind_cases in Hrun as [(e & [U2 [[E2 _]|(_ & [=] & _)]]%exclusively_run & ->)
                              |([] & d2 & [U2 [[_ [=]]|(Hp & _ & E2)]]%exclusively_run & Hrun)].
  { left. by rewrite U2, E2, E1. }
  right. exists db, state, d2. rewrite U1, E1 in *. bool_prop. split_and!; try done; try lia. by apply Ho.
Qed.

Lemma export_written db state pending store after upper limit user (files : Fs) d r d' :
  store = i_store_id state -> info_of db = Ok state ->
  i_retained_from state - 1 <= after <= upper -> upper <= upper_sequence state -> 0 <= limit ->
  dk_user d = user -> dk_fs d = <[pending := blank user]> files ->
  export_write db state pending store after upper limit d = (r, d') ->
  dk_user d' = user /\ (forall p, p <> pending -> dk_fs d' !! p = files !! p) /\
  (r = Ok tt -> exists n, dk_fs d' = <[pending := n]> files /\
     export_file (Ok db) user store after upper limit n).
Proof.
  intros Hs Hi Hfrom Hto Hl <- E Hx. apply export_write_run in Hx as [[U2 (data & E2)] Hok]; [|done..|].
  2: by rewrite E, lookup_insert_eq.
  split_and!; [by rewrite U2|intros p Hne; by rewrite E2, append_to_other, E, lookup_insert_ne|].
  intros (n & E3 & Hf)%Hok. exists n. by rewrite E3, E, insert_insert_eq.
Qed.
(** An export overwrites nothing and publishes complete files only, whatever
    fails and whoever takes the output's name before it does. *)
Lemma export_safe inspected meanwhile output store after upper limit d r d' :
  export inspected meanwhile output store after upper limit d = (r, d') ->
  dk_user d' = dk_user d /\ dk_fs d ⊆ dk_fs d' /\
  (forall p, p <> output -> p <> pending_name output -> dk_fs d' !! p = dk_fs d !! p) /\
  (dk_fs d !! output <> None \/ dk_fs d !! pending_name output <> None ->
     dk_fs d' = dk_fs d /\ is_ok r = false) /\
  (forall n, dk_fs d !! output = None -> dk_fs d' !! output = Some n -> meanwhile = Some n \/
     meanwhile = None /\ export_file inspected (dk_user d) store after upper limit n) /\
  (r = Ok tt -> exists n, export_file inspected (dk_user d) store after upper limit n /\
     dk_fs d' = <[output := n]> (dk_fs d)).
Proof.
  intros [(U & E & Hr)|(db & state & d1 & -> & Hi & Hs & Hl & Hfrom & Hto & Ho & Hp & U1 & E1 & Hrun)]%export_checked.
  { rewrite U, E. split_and!; try done; [congruence|by intros ->]. }
  set (pending := pending_name output) in *. pose proof (pending_other output : pending <> output) as Hpo.
  assert (forall fs' : Fs, (forall p, p <> output -> p <> pending -> fs' !! p = dk_fs d !! p) -> dk_fs d ⊆ fs') as Hsub.
  { intros fs' Hf. apply map_subseteq_spec. intros p n Hn. rewrite Hf; [done|congruence..]. }
  pose proof (fun x d2 => export_written db state pending store after upper limit (dk_user d) (dk_fs d) d1 x d2
    Hs Hi Hfrom Hto ltac:(lia) U1 E1) as Hwrite.
  apply bind_cases in Hrun as [(e & (U2 & Hother & _)%Hwrite & ->)|([] & d2 & (U2 & Hother & Hfull)%Hwrite & Hrun)].
  { assert (dk_fs d' !! output = None) by (by rewrite Hother).
    split_and!; [done|apply Hsub; auto|auto|by intros [?|?]|intros; congruence|done]. }
  assert (dk_fs d2 !! output = None) as Ho2 by (by rewrite Hother).
  destruct (Hfull eq_refl) as (n & E2 & Hn).
  apply bind_cases in Hrun as [(e & [=] & _)|([] & d3 & [= <-] & Hrun)].
  destruct (arrives_at output meanwhile d2) as (U3 & _ & Hhere & Helse).
  apply export_publish_run in Hrun as [U4 Hrun].
  assert (dk_user d' = dk_user d) as Hu by (by rewrite U4, U3).
  assert (forall p, p <> output -> dk_fs (arrives output meanwhile d2) !! p = dk_fs d2 !! p) as Helse' by (intros; apply Helse; auto).
  assert (dk_fs (arrives output meanwhile d2) !! pending = Some n) as Hpend by (by rewrite Helse', E2, lookup_insert_eq).
  destruct Hrun as [[E4 Hr]|[Hfree [[E4 Hr]|[E4 ->]]]]; unfold link_file in E4; rewrite ?Hpend in E4.
  - assert (forall p, p <> output -> p <> pending -> dk_fs d' !! p = dk_fs d !! p) as Hq
      by (intros; rewrite E4, Helse'; auto).
    split_and!; [done|by apply Hsub|done|by intros [?|?]| |by intros ->].
    intros m _. rewrite E4, Hhere by done. by left.
  - assert (forall p, p <> output -> p <> pending -> dk_fs d' !! p = dk_fs d !! p) as Hq
      by (intros; rewrite E4, lookup_insert_ne, Helse'; auto).
    split_and!; [done|by apply Hsub|done|by intros [?|?]| |by intros ->].
    intros m _. rewrite E4, lookup_insert_eq. intros [= <-]. right. rewrite Hhere in Hfree by done. by subst.
  - assert (dk_fs d' = <[output := n]> (dk_fs d)) as E5.
    { rewrite E4. apply map_eq. intros p. destruct (decide (p = pending)) as [->|].
      - by rewrite lookup_delete_eq, lookup_insert_ne, Hp.
      - rewrite lookup_delete_ne by done. destruct (decide (p = output)) as [->|]; [by rewrite !lookup_insert_eq|].
        rewrite !lookup_insert_ne, Helse' by done. by apply Hother. }
    rewrite E5. split_and!; [done|by apply insert_subseteq|intros; by apply lookup_insert_ne|by intros [?|?]| |by exists n].
    intros m _. rewrite lookup_insert_eq. intros [= <-]. right. rewrite Hhere in Hfree by done. by subst.
Qed.

Lemma ensure_true {S} b msg (s : S) : b = true -> ensure b msg s = (Ok tt, s).
Proof. by intros ->. Qed.
Lemma name_unused_faultless path d : faultless d -> dk_fs d !! path = None ->
  exists d', name_unused path d = (Ok tt, d') /\ faultless d' /\ dk_fs d' = dk_fs d.
Proof.
  intros Hd Hp. unfold name_unused, bind, attempt, gets, ensure. rewrite disk_op_faultless by done. cbn. unfold id.
  rewrite Hp. by eexists.
Qed.
Lemma exclusively_faultless path f d : faultless d -> dk_fs d !! path = None ->
  exists d', exclusively path f d = (Ok tt, d') /\ faultless d' /\ dk_fs d' = f (dk_user d) (dk_fs d).
Proof.
  intros Hd Hp. unfold exclusively, bind, gets, id. rewrite bool_decide_eq_true_2, disk_op_faultless by done. by eexists.
Qed.
Lemma export_write_trail db state pending after upper limit d :
  audit_counts db -> records_parse db -> db_commit_ok db = true ->
  (forall m : Manifest, exists text, to_json m = Ok text) -> faultless d -> 0 <= limit ->
  retained_from (audit_state (audit db)) - 1 <= after <= upper -> upper < next_sequence (audit_state (audit db)) ->
  exists d', export_write db state pending (store_id (audit_state (audit db))) after upper limit d = (Ok tt, d') /\
    faultless d'.
Proof.
  intros Hc Hp Hcommit Hjson Hd Hlim Hafter Hupper.
  assert (forall m d, faultless d -> exists d', write_manifest pending m d = (Ok tt, d') /\ faultless d') as Hwrite.
  { intros m e He. destruct (Hjson m) as [text Ht]. unfold write_manifest, bind, lift. rewrite Ht.
    by apply write_line_faultless. }
  unfold export_write. destruct (Hwrite (export_manifest state (store_id (audit_state (audit db))) after upper "manifest" 0
    after false) d Hd) as (d1 & H1' & Hd1). rewrite (bind_run _ _ _ _ _ H1').
  destruct (export_loop_trail db (S (Z.to_nat limit)) pending upper limit 0 after d1 Hc Hp Hd1) as ([c k] & d2 & H2' & Hd2);
    [lia..|]. rewrite (bind_run _ _ _ _ _ H2'), Hcommit, (bind_run _ _ _ _ _ (ensure_true _ _ _ eq_refl)).
  rewrite (bind_run _ _ _ _ _ (disk_op_faultless _ _ _ Hd2)).
  edestruct Hwrite as (d3 & H3 & Hd3); [|rewrite (bind_run _ _ _ _ _ H3), disk_op_faultless by done; by eexists]. done.
Qed.
(** An export is complete and exact. On a well-formed trail whose records parse,
    an export of a store's own cursor range to an unused name, with nothing in its
    way, succeeds; the file holds the opening manifest, exactly the events
    following the cursor, in order, up to the requested limit or the upper
    boundary, and a manifest with their count and the cursor to continue from. *)
Theorem export_exact db output after upper limit d :
  audit_wf db -> records_parse db -> db_commit_ok db = true -> faultless d ->
  (forall m : Manifest, exists text, to_json m = Ok text) ->
  dk_fs d !! output = None -> dk_fs d !! pending_name output = None ->
  let st := audit_state (audit db) in
  1 <= limit <= 10000 ->
  retained_from st - 1 <= after <= upper -> upper < next_sequence st ->
  exists n d', export (Ok db) None output (store_id st) after upper limit d = (Ok tt, d') /\
    export_file (Ok db) (dk_user d) (store_id st) after upper limit n /\
    dk_fs d' = <[output := n]> (dk_fs d).
Proof.
  intros Hwf Hparse Hcommit Hd Hjson Ho Hp st Hlim Hafter Hupper.
  assert (exists d', export (Ok db) None output (store_id st) after upper limit d = (Ok tt, d')) as [d' Hrun].
  2: { destruct (export_safe _ _ _ _ _ _ _ _ _ _ Hrun) as (_ & _ & _ & _ & _ & Hok).
       destruct (Hok eq_refl) as (n & Hn & E). by exists n, d'. }
  destruct (info_wf _ Hwf) as (i & Hi & E1 & E2 & E3 & _). subst st.
  assert ((1 <=? limit) = true /\ (limit <=? 10000) = true) as [L1 L2] by (split; apply Z.leb_le; lia).
  unfold export. rewrite L1, L2, (bind_run _ _ _ _ _ (ensure_true _ _ _ eq_refl)), (bind_run _ _ d db d eq_refl).
  rewrite (bind_run _ _ d i d), E1, E2, E3 by (unfold lift; by rewrite Hi).
  rewrite (bind_run _ _ d tt d) by (apply ensure_true, bool_decide_eq_true_2; done).
  rewrite (bind_run _ _ d tt d) by (apply ensure_true; rewrite !andb_true_iff, !Z.leb_le; lia).
  destruct (name_unused_faultless output d Hd Ho) as (d1 & R1 & Hd1 & F1). rewrite (bind_run _ _ _ _ _ R1).
  destruct (exclusively_faultless (pending_name output) (fun user => insert (pending_name output) (blank user)) d1)
    as (d2 & R2 & Hd2 & F2); [done|by rewrite F1|]. rewrite (bind_run _ _ _ _ _ R2).
  destruct (export_write_trail db i (pending_name output) after upper limit d2) as (d3 & R3 & Hd3); [by destruct Hwf|done|done|done|done|lia..|].
  rewrite (bind_run _ _ _ _ _ R3), (bind_run _ _ _ tt d3 eq_refl).
  assert (dk_fs d3 !! output = None) as F3.
  { pose proof (export_write_writes db i (pending_name output) (store_id (audit_state (audit db))) after upper limit d2)
      as [_ [data E]]. rewrite R3 in E. cbn [snd] in E. pose proof (pending_other output).
    by rewrite E, append_to_other, F2, lookup_insert_ne, F1 by done. }
  destruct (exclusively_faultless output (fun _ => link_file (pending_name output) output) d3 Hd3 F3)
    as (d4 & R4 & Hd4 & _). unfold export_publish, hard_link. rewrite (bind_run _ _ _ _ _ R4).
  rewrite (bind_run _ _ _ _ _ (disk_op_faultless _ _ _ Hd4)), disk_op_faultless by done. by eexists.
Qed.

(** ** The repair reserve *)

Definition u64_opt (o : option Z) : Prop := forall z, o = Some z -> 0 <= z <= u64_max.
Definition ref_opt (o : option Reference) : Prop :=
  forall r, o = Some r -> reference_try_from r = Ok r.
(** Events whose integers are [u64] and whose references are references. *)
Definition event_typed (ev : Event) : Prop :=
  0 <= count ev <= u64_max /\ ref_opt (actor_reference ev) /\ ref_opt (target_reference ev) /\
  u64_opt (ev_generation ev) /\ u64_opt (window_seconds ev) /\ u64_opt (sequence_boundary ev).
(** Every record of the types the code builds serializes within the event
    limit: all its fields are bounded. *)
Definition records_fit : Prop :=
  forall r : AuditRecord,
    reference_try_from (rec_store_id r) = Ok (rec_store_id r) ->
    reference_try_from (operation r) = Ok (operation r) ->
    reference_try_from (process_instance r) = Ok (process_instance r) ->
    rec_version r = 1 -> sequence r < i64_max ->
    (forall z, wall_seconds r = Some z -> - 2 ^ 63 <= z <= i64_max) ->
    event_typed (event r) ->
    exists s, to_json r = Ok s /\ slen s <= MAX_EVENT_BYTES.
Definition draw_good (d : Draw) : Prop :=
  draw_ok d /\ is_Some (ok (instance d)) /\
  (forall z, clock d = Ok z -> - 2 ^ 63 <= z <= i64_max) /\
  exists o, opaque d = Ok o /\ reference_try_from o = Ok o.

Lemma append_reserve_Ok ev d db :
  records_fit -> draw_good d -> event_typed ev -> audit_wf db -> autocommit db = false ->
  next_sequence (audit_state (audit db)) < i64_max ->
  events (audit_state (audit db)) < MAX_EVENTS ->
  event_bytes (audit_state (audit db)) + MAX_EVENT_BYTES <= MAX_BYTES ->
  exists seq db', append ev true d db = (Ok seq, db') /\ audit_wf db' /\ autocommit db' = false /\
    next_sequence (audit_state (audit db')) = next_sequence (audit_state (audit db)) + 1 /\
    events (audit_state (audit db')) = events (audit_state (audit db)) + 1 /\
    event_bytes (audit_state (audit db')) <= event_bytes (audit_state (audit db)) + MAX_EVENT_BYTES.
Proof.
  intros Hfit (Hd & [i Hi] & Hclk & o & Ho & Hr) Hev Hwf Hauto Hn He Hb.
  assert (exists seq db', append ev true d db = (Ok seq, db')) as (seq & db' & Hrun).
  { destruct (info_wf _ Hwf) as (inf & Hinf & E1 & E2 & E3 & E4 & E5 & _).
    assert (instance d = Ok i) as Hi' by (destruct (instance d); simpl in *; congruence).
    unfold append, append_operation, bind, lift, gets, ensure, info, modify, ret.
    rewrite Ho, Hr, Hauto, Hinf. simpl. rewrite E3.
    unfold checked_add64. replace (_ - 1 + 1) with (next_sequence (audit_state (audit db))) by lia.
    pose proof i64_u64. rewrite (proj2 (Z.leb_le _ u64_max)) by lia.
    rewrite (proj2 (Z.ltb_lt _ i64_max)) by lia. rewrite Hi'.
    match goal with |- context [to_json ?r] =>
      assert (exists s, to_json r = Ok s /\ slen s <= MAX_EVENT_BYTES) as (s & -> & Hs) end.
    { apply Hfit; simpl; try done; [rewrite E1; apply Hwf | by apply Hd |].
      intros z. destruct (clock d) eqn:Hck; [|done]. intros [= <-]. by apply Hclk. }
    rewrite (proj2 (Z.leb_le _ MAX_EVENT_BYTES)) by done. rewrite E4, E5.
    rewrite (proj2 (Z.ltb_lt _ _)), (proj2 (Z.leb_le _ (MAX_BYTES - 0))) by lia. simpl.
    unfold insert_event. rewrite (proj2 (Z.leb_le _ 2048)) by done. unfold insert_row.
    destruct Hwf as [(Hfrom & Hdom & _) _].
    destruct (audit_events (audit db) !! _) eqn:Hx; [|eauto].
    assert (is_Some (audit_events (audit db) !! next_sequence (audit_state (audit db)))) as Hy
      by eauto.
    apply Hdom in Hy. lia. }
  exists seq, db'. split; [done|].
  pose proof (append_extends ev true d Hd db Hwf) as He'. rewrite Hrun in He'.
  split; [apply He'|]. unfold append in Hrun. inv_ok.
  apply append_operation_Ok in Hk as (Ha & -> & _ & _ & p & inst & _ & _ & _ & Hlen & _ & _ & ->);
    [|done]. simpl. split_and!; lia || done.
Qed.

(** The repair reserve is enough. Once a trail holds no more than ordinary
    recording may use (which every ordinary append checks), 1024 further repair
    records of any content succeed, whatever their order, before the trail is
    full: the event reserve and the byte reserve run out together. *)
Theorem reserve_suffices evs db :
  records_fit -> audit_wf db -> autocommit db = false ->
  Forall (fun p => event_typed p.1 /\ draw_good p.2) evs -> zlen evs <= RESERVE_EVENTS ->
  events (audit_state (audit db)) <= MAX_EVENTS - RESERVE_EVENTS ->
  event_bytes (audit_state (audit db)) <= MAX_BYTES - RESERVE_BYTES ->
  next_sequence (audit_state (audit db)) + RESERVE_EVENTS <= i64_max ->
  exists db', for_each evs (fun '(ev, d) => append ev true d ;;; ret tt) db = (Ok tt, db') /\
    events (audit_state (audit db')) = events (audit_state (audit db)) + zlen evs.
Proof.
  intros Hfit Hwf Hauto Hall Hlen He Hb Hn.
  assert (forall n, zlen evs <= n ->
    events (audit_state (audit db)) + n <= MAX_EVENTS ->
    event_bytes (audit_state (audit db)) + n * MAX_EVENT_BYTES <= MAX_BYTES ->
    next_sequence (audit_state (audit db)) + n <= i64_max ->
    exists db', for_each evs (fun '(ev, d) => append ev true d ;;; ret tt) db = (Ok tt, db') /\
      events (audit_state (audit db')) = events (audit_state (audit db)) + zlen evs) as Hgen.
  { clear Hlen He Hb Hn. revert db Hwf Hauto.
    induction evs as [|[ev d] evs IH]; intros db Hwf Hauto n Hlen He Hb Hn; simpl.
    { exists db. split; [done|]. unfold zlen. simpl. lia. }
    apply Forall_cons_1 in Hall as [[Hty Hd] Hall]. unfold zlen in *. simpl length in *.
    unfold MAX_EVENT_BYTES in *.
    destruct (append_reserve_Ok ev d db Hfit Hd Hty) as (seq & db1 & Hr & Hwf1 & Ha1 & Hn1 & He1 & Hb1);
      try done; unfold MAX_EVENT_BYTES in *; try lia.
    destruct (IH Hall db1 Hwf1 Ha1 (n - 1)) as (db2 & Hr2 & He2); try lia.
    exists db2. split; [|lia]. unfold bind at 1 2. rewrite Hr. exact Hr2. }
  unfold RESERVE_EVENTS, RESERVE_BYTES, MAX_EVENT_BYTES, MAX_EVENTS, MAX_BYTES in *.
  apply (Hgen 1024); lia.
Qed.

(** Ordinary recording never touches the reserve and stops while the trail
    is degraded: an ordinary append that succeeds was made inside a transaction on
    a trail that is not degraded, wrote exactly one row (the next sequence number,
    a payload within the event limit) and leaves at least 1024 events and 2 MiB
    for repair records. *)
Theorem ordinary_append_leaves_reserve ev op d db seq db' :
  audit_wf db -> append_operation ev false op d db = (Ok seq, db') ->
  autocommit db = false /\ degraded (audit_state (audit db)) = false /\
  seq = next_sequence (audit_state (audit db)) /\
  (exists p, audit_events (audit db') = <[seq := p]> (audit_events (audit db)) /\
     slen p <= MAX_EVENT_BYTES) /\
  events (audit_state (audit db')) <= MAX_EVENTS - RESERVE_EVENTS /\
  event_bytes (audit_state (audit db')) <= MAX_BYTES - RESERVE_BYTES.
Proof.
  intros Hwf Hrun. apply append_operation_Ok in Hrun; [|done].
  destruct Hrun as (Ha & -> & _ & Hd & p & inst & _ & _ & _ & Hlen & Hev & Hby & ->).
  destruct Hd as [?|Hd]; [done|]. simpl. split_and!; try done; [|lia]. by exists p.
Qed.

(** ** Repair *)

(** Audit failure never blocks a repair and never goes unnoticed: [repair]
    always returns, changes no registry table, and leaves the trail with the new
    record appended, or with its rows as they were and marked both gapped and
    degraded (inside the transaction its caller owns). *)
Theorem repair_total cap ev d db :
  audit_wf db -> draw_ok d -> autocommit db = false ->
  exists db', repair cap ev d db = (Ok tt, db') /\ same_registry db db' /\ audit_wf db' /\
    ((exists p, audit_events (audit db') =
                <[next_sequence (audit_state (audit db)) := p]> (audit_events (audit db))) \/
     (audit_events (audit db') = audit_events (audit db) /\
      gaps (audit_state (audit db')) = true /\ degraded (audit_state (audit db')) = true)).
Proof.
  intros Hwf Hd Hauto. destruct (repair cap ev d db) as [r db'] eqn:Hrun. exists db'.
  pose proof (repair_extends cap ev d Hd db Hwf) as He. rewrite Hrun in He. simpl in He.
  destruct He as (Hwf' & Hreg & _). revert Hrun. unfold repair, savepoint, check_database.
  unfold bind at 1. unfold bind at 1.
  destruct (append ev true d db) as [[seq|e] db1] eqn:Ha; simpl.
  - destruct (check_database_pure cap true db1); simpl.
    + intros [= <- <-]. split_and!; try done. left.
      unfold append in Ha. inv_ok.
      apply append_operation_Ok in Hk as (_ & -> & _ & _ & p & _ & _ & _ & _ & _ & _ & _ & ->);
        [|done]. by exists p.
    + unfold mark_degraded. rewrite Hauto. simpl. intros [= <- <-]. split_and!; try done.
      by right.
  - unfold mark_degraded. rewrite Hauto. simpl. intros [= <- <-]. split_and!; try done.
    by right.
Qed.

(** ** What a prune does *)

(** Pruning is bounded, explicit and documented. A prune that deletes
    something removes at most 256 events, all within the authorised boundary,
    keeps every event above the last one it removed, and records the removal: the
    summary's new boundary is the oldest event kept, and a prune event follows
    the newest one. *)
Theorem prune_effect through opened d db s db' :
  audit_wf db -> prune through true opened d db = (Ok s, db') -> 0 < deleted s ->
  through <= prune_through (audit_state (audit db)) /\
  deleted s <= 256 /\ deleted s <= eligible s /\
  s_retained_from s = retained_from (audit_state (audit db)) + deleted s /\
  retained_from (audit_state (audit db')) = s_retained_from s /\
  s_retained_from s <= through + 1 /\
  (forall k, k < next_sequence (audit_state (audit db)) ->
     audit_events (audit db') !! k =
     if k <? s_retained_from s then None else audit_events (audit db) !! k) /\
  is_Some (audit_events (audit db') !! next_sequence (audit_state (audit db))).
Proof.
  intros Hwf Hrun Hdel. unfold prune in Hrun. apply bind_Ok in Hrun as (i & s1 & Hi & Hrun).
  injection Hi as Hi <-. apply info_fields in Hi as (_ & E2 & _ & _ & _ & _ & E7 & _).
  apply bind_Ok in Hrun as ([] & s1 & [Hle ->]%ensure_Ok & Hrun).
  apply bind_Ok in Hrun as (el & s1 & [-> ->]%gets_Ok & Hrun). cbn [negb orb] in Hrun.
  destruct (_ =? 0) eqn:Hz in Hrun; [apply ret_Ok in Hrun as [-> _]; simpl in Hdel; lia|].
  apply bind_Ok in Hrun as ([] & s1 & [_ ->]%lift_Ok & Hrun).
  apply transaction_Ok in Hrun as (_ & db2 & Hrun & _ & ->).
  pose proof (audit_extends_autocommit false db Hwf) as (Hwf' & _).
  apply bind_Ok in Hrun as (b & s1 & [-> ->]%gets_Ok & Hrun).
  fold (prune_query through (audit_events (audit (set_autocommit false db)))) in Hrun.
  apply bind_Ok in Hrun as (last & s1 & [Hlast ->]%lift_Ok & Hrun). apply ok_or_Ok in Hlast.
  destruct (prune_batch _ _ _ (proj1 Hwf') Hlast) as (c & Hc & -> & Hb & Hl).
  pose proof (prune_query_trail _ through (proj1 Hwf')) as Hq.
  apply bind_Ok in Hrun as ([] & s1 & ->%modify_Ok & Hrun).
  apply bind_Ok in Hrun as ([] & s1 & ->%modify_Ok & Hrun).
  rewrite Hl in Hrun. rewrite Hb in Hrun, Hq. set (db0 := set_autocommit false db) in *.
  destruct (pruned_extends c db0 Hc Hwf') as (Hwfp & _ & _ & Hnext & _).
  change (set_state _ (set_events _ db0)) with
    (pruned (retained_from (audit_state (audit db0)) + c - 1) c
       (sum_bytes (trail (audit_events (audit db0)) (retained_from (audit_state (audit db0))) c))
       db0) in Hrun.
  apply bind_Ok in Hrun as (seq & db3 & Ha & [-> ->]%ret_Ok). unfold append in Ha. inv_ok.
  apply append_operation_Ok in Hk as (_ & Hseq & _ & _ & p & _ & _ & _ & _ & _ & _ & _ & ->);
    [|done].
  cbn [pruned set_state set_events set_audit audit audit_state audit_events prune_state
       next_sequence retained_from bump_state set_autocommit autocommit eligible deleted
       s_retained_from authdb_connection set_db_autocommit] in *.
  change (audit_events (audit db0)) with (audit_events (audit db)) in *.
  change (audit_state (audit db0)) with (audit_state (audit db)) in *.
  set (st := audit_state (audit db)) in *. set (t := audit_events (audit db)) in *.
  assert (c <= 256 /\ retained_from st + c <= through + 1) as [Hc256 Hth].
  { assert (length (trail t (retained_from st) c) = length (trail t (retained_from st)
      (Z.min 256 (Z.min (through + 1) (next_sequence st) - retained_from st)))) as Hlen
      by by rewrite Hq.
    rewrite !length_trail in Hlen. lia. }
  split_and!; try lia.
  - unfold count_rows. rewrite <- Hl. unfold prune_query, zlen.
    rewrite length_take, (Permutation_length (merge_sort_Permutation _ _)). lia.
  - intros k Hk. rewrite lookup_insert_ne by lia. rewrite lookup_delete_where.
    destruct (Hwfp) as [(_ & Hdom & _) _]. destruct Hwf as [(_ & Hd & _) _].
    specialize (Hd k). fold t st in Hd. destruct (t !! k) as [v|].
    + destruct (k <=? _) eqn:Hle2; destruct (k <? _) eqn:Hlt; bool_prop; done || lia.
    + by destruct (k <? _).
  - rewrite Hseq, lookup_insert_eq. eauto.
Qed.

(** ** The journal of external effects *)

Lemma audit_effect_inner_Ok cap k target reserve a d db op db' :
  audit_effect_inner cap k target reserve a d db = (Ok op, db') ->
  effect_transaction cap k target reserve a d db = (Ok op, db').
Proof.
  unfold audit_effect_inner, or_degrade, bind, lift, attempt, ret.
  destruct (effect_transaction _ _ _ _ _ _ _) as [[o|e] s1]; simpl; [by intros [= -> ->]|].
  unfold mark_degraded. by destruct (_ && _).
Qed.

Lemma effect_transaction_pending cap k target reserve a d db op db' label :
  effect_label k target = Ok label ->
  effect_transaction cap k target reserve a d db = (Ok op, db') ->
  autocommit db' = true /\ audit_pending (audit db') !! label = Some op.
Proof.
  intros Hlab Hrun. unfold effect_transaction in Hrun.
  apply scoped_transaction_Ok in Hrun as (Hauto & b & db1 & Hrun & ->).
  rewrite Hlab in Hrun. apply bind_Ok in Hrun as (l & s1 & [[= <-] ->]%lift_Ok & Hrun).
  apply bind_Ok in Hrun as (present & s1 & [-> ->]%gets_Ok & Hrun).
  change (audit (set_autocommit false db)) with (audit db) in Hrun.
  destruct (audit_pending (audit db) !! label) as [op'|] eqn:Hp.
  - apply ret_Ok in Hrun as [[= -> ->] ->]. done.
  - inv_ok. split; [done|]. unfold check_database in *. simplify_eq. simpl.
    by rewrite lookup_insert_eq.
Qed.

(** An external effect has one durable intent. Once [audit_effect_inner] has
    returned an operation identifier, the identifier is recorded under the
    effect's label, and every retry (any reserve, actor or random draw) returns
    the same identifier and leaves the database exactly as it is: no second
    intent, no request replay. *)
Theorem audit_effect_idempotent cap k target reserve a d db op db' label :
  effect_label k target = Ok label ->
  audit_effect_inner cap k target reserve a d db = (Ok op, db') ->
  audit_pending (audit db') !! label = Some op /\
  forall reserve' a' d', audit_effect_inner cap k target reserve' a' d' db' = (Ok op, db').
Proof.
  intros Hlab Hrun%audit_effect_inner_Ok.
  destruct (effect_transaction_pending _ _ _ _ _ _ _ _ _ _ Hlab Hrun) as [Hauto Hp].
  split; [done|]. intros reserve' a' d'.
  unfold audit_effect_inner, or_degrade, effect_transaction, scoped_transaction, attempt.
  unfold bind, lift, gets. rewrite Hauto, Hlab. simpl. by rewrite Hp.
Qed.

(** ** A migrated database *)

Lemma migrate_wf row_ref store db db' :
  (forall s, store = Ok s -> reference_try_from s = Ok s) ->
  schema db = 2 -> migrate row_ref store db = (Ok tt, db') -> audit_wf db'.
Proof.
  intros Hstore Hs Hrun. unfold migrate in Hrun.
  apply transaction_Ok in Hrun as (_ & db1 & Hrun & _ & ->).
  apply bind_Ok in Hrun as (v & s1 & [-> ->]%gets_Ok & Hrun).
  apply bind_Ok in Hrun as ([] & s1 & [_ ->]%ensure_Ok & Hrun).
  change (schema (set_autocommit false db)) with (schema db) in Hrun. rewrite Hs in Hrun.
  simpl in Hrun. inv_ok. split; [split_and!|split_and!]; simpl; try done.
  - intros k. rewrite lookup_empty. split; [by intros []|lia].
  - by apply Hstore.
Qed.
End audit_facts.

(** ** Concrete runs

    A codec of one shape of record (a run of [x] whose length is the sequence
    number), a database of ten pages and a fresh trail, for the theorems'
    hypotheses. *)
Definition zeros : string := "00000000000000000000000000000000".

#[global] Instance Event_eq_dec : EqDecision Event.
Proof.
  assert (EqDecision Stage) by solve_decision. assert (EqDecision Outcome) by solve_decision.
  assert (EqDecision Actor) by solve_decision. assert (EqDecision Reason) by solve_decision.
  assert (EqDecision Reference) by (unfold Reference; apply _).
  solve_decision.
Defined.
#[global] Instance AuditRecord_eq_dec : EqDecision AuditRecord.
Proof. assert (EqDecision TimestampQuality) by solve_decision. solve_decision. Defined.

Definition canonical (k : Z) : AuditRecord := {|
  rec_version := 1; rec_store_id := zeros; sequence := k; process_instance := zeros;
  operation := zeros; wall_seconds := None; timestamp_quality := Unavailable;
  event := committed Admission |}.
Fixpoint unary (n : nat) : string :=
  match n with O => EmptyString | S n => String "x" (unary n) end.

Definition record_model : Json AuditRecord := {|
  to_json := fun r => if decide (r = canonical (sequence r) /\ 0 < sequence r <= 2000)
                      then Ok (unary (Z.to_nat (sequence r))) else Ok "other";
  from_json := fun s => Ok (canonical (slen s)) |}.
Definition kind_model : Json Kind := {|
  to_json := fun _ => Ok "admission"; from_json := fun _ => Ok Admission |}.
Definition auth_pages : Pages AuthDb := {|
  page_count := fun _ => 10; page_size := fun _ => SqlInteger 4096 |}.
Definition draw_model : Draw := {| opaque := Ok zeros; instance := Ok zeros; clock := Err External |}.
Definition empty_registry : AuthDb := {|
  schema := 2; users := ∅; identity_bindings := ∅; enrollment_tokens := ∅; devices := ∅;
  authorization_groups := ∅; authorization_members := ∅;
  audit := {| audit_state := {| store_id := zeros; next_sequence := 1; retained_from := 1;
                events := 0; event_bytes := 0; gaps := true; policy_version := 1;
                prune_through := 0; degraded := false |};
              audit_pending := ∅; audit_events := ∅ |};
  db_autocommit := true; db_commit_ok := true |}.
Definition fresh_trail : AuthDb :=
  snd (migrate (fun _ _ => zeros) (Ok zeros) empty_registry).

#[local] Existing Instances record_model kind_model auth_pages.

Lemma unary_len n : slen (unary n) = Z.of_nat n.
Proof. unfold slen. induction n as [|n IH]; simpl in *; lia. Qed.
Lemma zeros_reference : reference_try_from zeros = Ok zeros.
Proof. reflexivity. Qed.
Lemma draw_model_good : draw_good draw_model.
Proof.
  split_and!; [|by exists zeros|done|by exists zeros]. intros i [= <-]. reflexivity.
Qed.
Lemma fresh_trail_wf : audit_wf fresh_trail.
Proof.
  apply (migrate_wf (fun _ _ => zeros) (Ok zeros) empty_registry); [|done..].
  by intros s [= <-].
Qed.
Lemma records_fit_model : records_fit.
Proof.
  intros r _ _ _ _ _ _ _. simpl. destruct (decide _) as [[_ Hs]|]; eexists; (split; [reflexivity|]).
  - rewrite unary_len. unfold MAX_EVENT_BYTES. lia.
  - unfold MAX_EVENT_BYTES. vm_compute. discriminate.
Qed.

(** The trail after one recorded admission. *)
Definition one_event : AuthDb :=
  snd (audit_event default_capacity (committed Admission) draw_model fresh_trail).
Lemma one_event_wf : audit_wf one_event.
Proof.
  apply (audit_event_extends default_capacity (committed Admission) draw_model
           (proj1 draw_model_good) fresh_trail fresh_trail_wf).
Qed.
Lemma one_event_events : audit_events (audit one_event) = {[ 1 := "x" ]}.
Proof. vm_compute. reflexivity. Qed.
Lemma one_event_parse : records_parse one_event.
Proof.
  intros r k p. rewrite one_event_events. intros [<- <-]%lookup_singleton_Some.
  simpl. destruct (decide _) as [[Hr Hs]|]; intros Hx; [|done].
  assert (sequence r = 1) as Hone.
  { assert (slen (unary (Z.to_nat (sequence r))) = 1) as Hl by by injection Hx as ->.
    rewrite unary_len in Hl. lia. }
  rewrite Hone in Hr. rewrite Hr. reflexivity.
Qed.

Lemma audit_evidence_preserved_witness :
  audit_wf (foldl (fun d o => run_op default_capacity o d) fresh_trail
    [OpEvent (committed Admission) draw_model; OpEffect Reconciliation draw_model;
     OpRetention 1 draw_model; OpPrune 1 true (Ok tt) draw_model]).
Proof.
  refine (proj1 (audit_evidence_preserved default_capacity _ fresh_trail fresh_trail_wf _)).
  pose proof (proj1 draw_model_good) as Hd. repeat constructor; simpl; done.
Defined.

(** A manifest is its kind. *)
Definition manifest_text : Json Manifest := {|
  to_json := fun m => Ok (m_kind m); from_json := fun _ => Err External |}.
#[local] Existing Instance manifest_text.
Definition spool (files : Fs) : Disk := {| dk_fs := files; dk_user := 7; dk_io := [] |}.
Example taken_name_refused :
  is_ok (fst (export (Ok one_event) None "o" zeros 0 1 10 (spool {["o.partial" := blank 9]}))) = false /\
  is_ok (fst (export (Ok one_event) (Some (blank 9)) "o" zeros 0 1 10 (spool ∅))) = false.
Proof. vm_compute. done. Qed.
Lemma export_exact_witness :
  exists n d', export (Ok one_event) None "o" zeros 0 1 10 (spool ∅) = (Ok tt, d') /\
    dk_fs d' = {["o" := n]} /\ contents n = lines_bytes ["manifest"; "x"; "completion"].
Proof.
  destruct (export_exact one_event "o" 0 1 10 (spool ∅) one_event_wf one_event_parse) as (n & d' & Hrun & Hn & E);
    [reflexivity|reflexivity|by intros m; exists (m_kind m)|reflexivity|reflexivity|vm_compute; intuition discriminate..|].
  exists n, d'. split; [exact Hrun|]. split; [exact E|].
  destruct Hn as (db & state & open & ps & close & [= <-] & _ & _ & _ & _ & Hz & Hps & [= <-] & [= <-] & ->).
  destruct ps as [|p [|p' ps]]; [discriminate Hz| |exfalso; unfold zlen in Hz; simpl in Hz; lia].
  specialize (Hps 0%nat p eq_refl). rewrite one_event_events in Hps. by injection Hps as <-.
Defined.

Lemma reserve_suffices_witness :
  exists db', for_each [(committed Admission, draw_model); (committed KPrune, draw_model)]
      (fun '(ev, d) => append ev true d ;;; ret tt) (set_autocommit false fresh_trail)
    = (Ok tt, db') /\ events (audit_state (audit db')) = 2.
Proof.
  refine (reserve_suffices _ (set_autocommit false fresh_trail) records_fit_model _ _ _ _ _ _ _);
    [apply (audit_extends_autocommit false _ fresh_trail_wf) | reflexivity | |
     vm_compute; discriminate ..].
  assert (forall k, event_typed (committed k)) as Hk.
  { intros k. split_and!; try done; vm_compute; discriminate. }
  apply Forall_cons_2; [|apply Forall_cons_2; [|apply Forall_nil_2]];
    (split; [apply Hk|apply draw_model_good]).
Defined.

Lemma ordinary_append_leaves_reserve_witness :
  events (audit_state (audit (snd (append_operation (committed Admission) false zeros draw_model
    (set_autocommit false fresh_trail))))) <= MAX_EVENTS - RESERVE_EVENTS.
Proof.
  refine (proj1 (proj2 (proj2 (proj2 (proj2 (ordinary_append_leaves_reserve
    (committed Admission) zeros draw_model (set_autocommit false fresh_trail) 1 _ _ _)))))).
  - apply (audit_extends_autocommit false _ fresh_trail_wf).
  - vm_compute. reflexivity.
Defined.

Lemma repair_total_witness :
  exists db', repair default_capacity (committed DeviceRevoked) draw_model
      (set_autocommit false fresh_trail) = (Ok tt, db') /\
    same_registry (set_autocommit false fresh_trail) db'.
Proof.
  destruct (repair_total default_capacity (committed DeviceRevoked) draw_model
    (set_autocommit false fresh_trail)) as (db' & Hr & Hs & _).
  - apply (audit_extends_autocommit false _ fresh_trail_wf).
  - apply draw_model_good.
  - reflexivity.
  - exists db'. split; [exact Hr | exact Hs].
Defined.

(** A trail of one event whose removal has been authorised. *)
Definition retained_one : AuthDb :=
  snd (set_retention default_capacity 1 draw_model one_event).
Lemma prune_effect_witness :
  deleted {| eligible := 1; deleted := 1; s_retained_from := 2 |} <= 256.
Proof.
  refine (proj1 (proj2 (prune_effect 1 (Ok tt) draw_model retained_one
    {| eligible := 1; deleted := 1; s_retained_from := 2 |}
    (snd (prune 1 true (Ok tt) draw_model retained_one)) _ _ _))).
  - apply (set_retention_extends default_capacity 1 draw_model ltac:(lia)
             (proj1 draw_model_good) one_event one_event_wf).
  - vm_compute. reflexivity.
  - reflexivity.
Defined.

Lemma audit_effect_idempotent_witness :
  audit_pending (audit (snd (audit_effect_inner default_capacity Reconciliation None true None
    draw_model fresh_trail))) !! "admission:" = Some zeros.
Proof.
  refine (proj1 (audit_effect_idempotent default_capacity Reconciliation None true None
    draw_model fresh_trail zeros _ "admission:" _ _)); vm_compute; reflexivity.
Defined.
