(* ===== verification/Identity.v ===== *)
(** * Device registrations

    [crates/epochgrid-core/src/identity.rs]: what makes a device registration
    authentic: its own NKey signature, and the MLS key package it carries. *)
From S2P Require Import Prelude External Wire.

Section identity.
Context `{NKeys} `{MlsPackages} `{Postcard Envelope} `{Postcard RegistrationPayload}.

(* @src core/identity.rs 297-309 verify_signature *)
Definition verify_signature (r : DeviceRegistration) : result unit :=
  let p := payload r in
  validate_id (user_id p) ;;?
  validate_id (device_id p) ;;?
  check ((protocol_version p =? VERSION) && (reg_generation p =? 1) && (0 <? created_at p))
    "invalid registration version/generation/time" ;;?
  check (starts_with "U" (nats_public_key p)) "NATS user key required" ;;?
  let? _ := key_pair_type (nats_public_key p) in
  let? bytes := signing_bytes p in
  verify_with (nats_public_key p) bytes (reg_signature r).

(* @src core/identity.rs 310-328 verify *)
Definition verify (r : DeviceRegistration) : result unit :=
  verify_signature r ;;?
  let p := payload r in
  let? package := ok_or (validated_package (mls_key_package p)) External in
  check (package_suite_supported package) "unsupported ciphersuite" ;;?
  check (bool_decide (package_credential package = mls_credential p)) "credential mismatch" ;;?
  let? basic := ok_or (package_identity package) External in
  check (bool_decide (basic = as_bytes (user_id p +:+ "/" +:+ device_id p)))
    "MLS identity mismatch".

(** What a verified registration establishes. *)
Lemma verify_signature_Ok r u :
  verify_signature r = Ok u ->
  let p := payload r in
  validate_id (user_id p) = Ok tt /\ validate_id (device_id p) = Ok tt /\
  protocol_version p = VERSION /\ reg_generation p = 1 /\ 0 < created_at p /\
  exists bytes, signing_bytes p = Ok bytes /\
    nkey_verifies (nats_public_key p) bytes (reg_signature r) = true.
Proof.
  unfold verify_signature, verify_with. intros Hv. inv_ok. bool_prop. split_and!; try done.
  eexists. split; [done|]. by destruct (nkey_verifies _ _ _).
Qed.

(** A verified registration binds one user and device to one NKey and one
    MLS credential: its identifiers are canonical, the NKey it names signed
    exactly its payload, and the MLS package it carries validates and names
    the same user and device. *)
Theorem verify_binding r :
  verify r = Ok tt ->
  let p := payload r in
  (exists bytes, signing_bytes p = Ok bytes /\
     nkey_verifies (nats_public_key p) bytes (reg_signature r) = true) /\
  exists package, validated_package (mls_key_package p) = Some package /\
    package_suite_supported package = true /\
    package_credential package = mls_credential p /\
    package_identity package = Some (as_bytes (user_id p +:+ "/" +:+ device_id p)).
Proof.
  unfold verify. intros Hv. inv_ok. bool_prop.
  split; [by apply verify_signature_Ok in Hm as (_ & _ & _ & _ & _ & ?)|].
  eexists. split_and!; eauto; congruence.
Qed.
End identity.
