(* ===== verification/Registry.v ===== *)
(** * The identity registry

    [crates/epochgrid-core/src/identity_model.rs]: provider bindings, one-time
    enrollment tokens, device admission, activation, authorization and
    revocation, each a handler over the tables of [AuthDb.v]. *)
From stdpp Require Import sorting.
From S2P Require Import Prelude External Wire AuthDb Capacity AuditTrail Identity.

(** [data_encoding::BASE32_NOPAD]. *)
Class Base32 : Type := {
  base32_decode : bytes -> option bytes;
  base32_encode : bytes -> string;
}.

(** [str::to_ascii_uppercase] and [to_ascii_lowercase]. *)
Fixpoint map_string (f : ascii -> ascii) (s : string) : string :=
  match s with EmptyString => EmptyString | String c r => String (f c) (map_string f r) end.
Definition to_ascii_uppercase : string -> string :=
  map_string (fun c => if is_ascii_lowercase c then ascii_of_N (N_of_ascii c - 32) else c).
Definition to_ascii_lowercase : string -> string :=
  map_string (fun c => if is_ascii_uppercase c then ascii_of_N (N_of_ascii c + 32) else c).

(* @src core/identity_model.rs 44-48 IdentityBinding *)
Record IdentityBinding : Type := { provider : string; subject : string }.
(* @src core/identity_model.rs 84-90 DeviceAuthorization *)
Record DeviceAuthorization : Type := {
  auth_user : string;
  auth_device : string;
  auth_nkey : string;
  auth_generation : Z;
}.

(** The trusted [users.{user}.devices.{device}] to NKey bindings. *)
Definition Enrollment : Type := gmap string string.

(** A group's members, by leaf. *)
Definition by_leaf (a b : Member) : Prop := leaf a <= leaf b.
#[export] Instance by_leaf_dec : RelDecision by_leaf.
Proof. intros a b. unfold by_leaf. apply _. Defined.
Definition group_members (gid : string) (t : gmap (string * string) Z) : list Member :=
  merge_sort by_leaf ((fun '((_, k), l) => {| nkey := k; leaf := l |})
                        <$> rows (fun '(g, _) _ => bool_decide (g = gid)) t).

Section registry.
Context `{NKeys} `{MlsPackages} `{Postcard Envelope} `{Postcard RegistrationPayload}
  `{Sha256} `{Base32} `{Json AuditRecord} `{Json Kind} `{Pages AuthDb}.

(** A [UserId] is the string it wraps. *)
(* @src core/identity_model.rs 13-32 UserId *)
Definition user_id_try_from (value : string) : result string :=
  let? suffix := ok_or (strip_prefix "egusr-" value) (Anyhow "canonical EpochGrid UserId required") in
  let? bytes := ok_or (base32_decode (as_bytes (to_ascii_uppercase suffix))) External in
  check ((zlen bytes =? 16)
         && bool_decide (to_ascii_lowercase (base32_encode bytes) = suffix))
    "invalid canonical UserId" ;;?
  Ok value.

(* @src core/identity_model.rs 75-83 token_user *)
Definition token_user (token : string) : result string :=
  check (slen token <=? 256) "oversized enrollment token" ;;?
  match split_on "." token with
  | [f0; f1; f2] =>
      check (bool_decide (f0 = "EG1") && (slen f2 =? 52)) "invalid enrollment token" ;;?
      user_id_try_from f1
  | _ => Err (Anyhow "invalid enrollment token")
  end.

(** The joined row of [authenticate]: an unused, unexpired token of an enabled
    user with a local binding; [query_row] takes the first one. *)
(* @src core/identity_model.rs 55-62 authenticate *)
Definition authenticate (credential : string) (clock : result Z) (db : AuthDb)
  : result IdentityBinding :=
  let? uid := token_user credential in
  let? digest := sha256 (as_bytes credential) in
  let? now := clock in
  let row :=
    match enrollment_tokens db !! digest with
    | Some t =>
        if bool_decide (token_user_id t = uid) && (now <? expires t)
           && bool_decide (used_key t = None)
           && match users db !! uid with Some u => enabled u | None => false end
        then head (rows (fun '(p, _) u => bool_decide (u = uid) && bool_decide (p = "local"))
                     (identity_bindings db))
        else None
    | None => None
    end in
  let? found := ok_or row (Anyhow "invalid or expired enrollment credential") in
  let '((_, s), _) := found in
  Ok {| provider := "local"; subject := s |}.

(* @src core/identity_model.rs 166-172 resolve *)
Definition resolve (b : IdentityBinding) (db : AuthDb) : result string :=
  let? uid := ok_or (identity_bindings db !! (provider b, subject b)) NoRows in
  user_id_try_from uid.

(** The random draws of one [invite]: a new user id, its row's reference and
    the token's secret. *)
Record InviteDraw : Type := {
  id_bytes : result bytes;
  row_reference : string;
  secret_bytes : result bytes;
}.

(* @src core/identity_model.rs 173-230 invite *)
Definition invite (cap : Capacity) (handle : string) (ttl : Z) (clock : result Z)
    (rnd : InviteDraw) (d : Draw) : M AuthDb string :=
  lift (validate_id handle) ;;;
  ensure ((1 <=? ttl) && (ttl <=? 3600)) "enrollment lifetime must be 1–3600 seconds" ;;;
  transaction (
    let* found := gets (fun db => identity_bindings db !! ("local", handle)) in
    let* uid := match found with
                | Some id => ret id
                | None =>
                    let* bytes := lift (id_bytes rnd) in
                    let id := "egusr-" +:+ to_ascii_lowercase (base32_encode bytes) in
                    insert_user id true (row_reference rnd) ;;;
                    insert_binding "local" handle id ;;;
                    ret id
                end in
    let* row := gets (fun db => users db !! uid) in
    let* user := lift (ok_or row NoRows) in
    ensure (enabled user) "user disabled" ;;;
    let* secret := lift (secret_bytes rnd) in
    let token := "EG1." +:+ uid +:+ "." +:+ base32_encode secret in
    let* digest := lift (sha256 (as_bytes token)) in
    let* now := lift clock in
    insert_token digest {| token_user_id := uid; expires := now + ttl; used_key := None |} ;;;
    let* target := reference RefUser uid in
    append {| kind := TokenIssued; stage := Committed; outcome := Succeeded; reason := Verified;
              actor := LocalOperator; count := 1; actor_reference := None;
              target_reference := Some target; ev_generation := None; window_seconds := None;
              sequence_boundary := None |} false d ;;;
    check_registry cap ;;;
    check_database cap false ;;;
    ret token).

(* @src core/identity_model.rs 232-240 enrollment_admission *)
Definition enrollment_admission (token k : string) (clock clock' : result Z) (db : AuthDb)
  : result string :=
  match authenticate token clock db with
  | Ok binding => resolve binding db
  | Err _ =>
      let? uid := token_user token in
      let? digest := sha256 (as_bytes token) in
      let? now := clock' in
      check (match enrollment_tokens db !! digest, devices db !! k with
             | Some t, Some dv =>
                 bool_decide (used_key t = Some k) && bool_decide (token_user_id t = uid)
                 && (now <? expires t) && negb (revoked dv)
                 && match users db !! dev_user_id dv with Some u => enabled u | None => false end
             | _, _ => false
             end) "enrollment credential not admitted" ;;?
      Ok uid
  end.

(** Columns [used_key], [ready], ... of one row. *)
Definition set_used (k : string) (t : TokenRow) : TokenRow :=
  {| token_user_id := token_user_id t; expires := expires t; used_key := Some k |}.
Definition set_ready (r : DeviceRow) : DeviceRow :=
  {| dev_user_id := dev_user_id r; dev_device_id := dev_device_id r;
     registration := registration r; ready := true; revoked := revoked r;
     authorization_generation := authorization_generation r; device_ref := device_ref r |}.
Definition bump_device (r : DeviceRow) : DeviceRow :=
  {| dev_user_id := dev_user_id r; dev_device_id := dev_device_id r;
     registration := registration r; ready := ready r; revoked := revoked r;
     authorization_generation := authorization_generation r + 1; device_ref := device_ref r |}.
Definition revoke_device (r : DeviceRow) : DeviceRow :=
  {| dev_user_id := dev_user_id r; dev_device_id := dev_device_id r;
     registration := registration r; ready := ready r; revoked := true;
     authorization_generation := authorization_generation r + 1; device_ref := device_ref r |}.

Definition enrolled_event (reference : string) (retry : bool) : Event := {|
  kind := DeviceEnrolled; stage := if retry then Result else Committed; outcome := Succeeded;
  reason := if retry then IdempotentRetry else Verified; actor := VerifiedDevice; count := 1;
  actor_reference := Some reference;
  target_reference := if retry then None else Some reference;
  ev_generation := None; window_seconds := None; sequence_boundary := None |}.

(** [UPDATE enrollment_tokens SET used_key=k WHERE digest=g AND used_key IS NULL
    AND expires>now AND the user is enabled]: whether a row was updated. *)
(* @src core/identity_model.rs 283-283 enroll (token) *)
Definition consume_token (digest : bytes) (k : string) (now : Z) : M AuthDb bool := fun db =>
  match enrollment_tokens db !! digest with
  | Some t =>
      if bool_decide (used_key t = None) && (now <? expires t)
         && match users db !! token_user_id t with Some u => enabled u | None => false end
      then (Ok true, set_tokens (<[digest := set_used k t]>) db)
      else (Ok false, db)
  | None => (Ok false, db)
  end.

(** The transaction of a first enrollment. *)
(* @src core/identity_model.rs 280-297 enroll (transaction) *)
Definition enroll_transaction (cap : Capacity) (r : DeviceRegistration) (uid : string)
    (digest encoded : bytes) (clock : result Z) (row_ref : string) (d : Draw) : M AuthDb unit :=
  let k := nats_public_key (payload r) in
  transaction (
    let* now := lift clock in
    let* used := consume_token digest k now in
    ensure used "enrollment token expired or consumed" ;;;
    insert_device k uid (device_id (payload r)) encoded row_ref ;;;
    let* target := reference RefDevice k in
    append (enrolled_event target false) false d ;;;
    check_registry cap ;;;
    check_database cap false).

(* @src core/identity_model.rs 241-298 enroll *)
Definition enroll (cap : Capacity) (token : string) (r : DeviceRegistration)
    (clock clock' : result Z) (row_ref : string) (d : Draw) : M AuthDb unit :=
  lift (verify r) ;;;
  let* uid := lift (token_user token) in
  ensure (bool_decide (user_id (payload r) = uid) && (reg_generation (payload r) =? 1))
    "enrollment identity mismatch" ;;;
  let* digest := lift (sha256 (as_bytes token)) in
  let* encoded := lift (encode (Body.Register r)) in
  let k := nats_public_key (payload r) in
  let* previous := gets (fun db => enrollment_tokens db !! digest ≫= used_key) in
  match previous with
  | Some previous =>
      ensure (bool_decide (previous = k)) "enrollment token already consumed" ;;;
      let* row := gets (fun db =>
        dv ← devices db !! k;
        if negb (revoked dv)
           && match users db !! dev_user_id dv with Some u => enabled u | None => false end
        then Some (registration dv) else None) in
      let* old := lift (ok_or row NoRows) in
      ensure (bool_decide (old = encoded)) "enrollment retry changed device binding" ;;;
      let* target := reference RefDevice k in
      audit_event cap (enrolled_event target true) d ;;;
      ret tt
  | None =>
      let* authenticated := gets (authenticate token clock) in
      let* binding := lift authenticated in
      let* resolved := gets (resolve binding) in
      let* found := lift resolved in
      ensure (bool_decide (found = uid)) "provider binding mismatch" ;;;
      enroll_transaction cap r uid digest encoded clock' row_ref d
  end.

(* @src core/identity_model.rs 299-315 activate *)
Definition activate (cap : Capacity) (k : string) (d : Draw) : M AuthDb unit :=
  transaction (
    let* row := gets (fun db =>
      dv ← devices db !! k; if revoked dv then None else Some (ready dv)) in
    let* is_ready := lift (ok_or row NoRows) in
    when (negb is_ready) (
      modify (set_devices (alter set_ready k)) ;;;
      let* target := reference RefDevice k in
      append {| kind := DeviceActivated; stage := Committed; outcome := Succeeded;
                reason := Verified; actor := Authority; count := 1; actor_reference := None;
                target_reference := Some target; ev_generation := None;
                window_seconds := None; sequence_boundary := None |} false d ;;;
      check_database cap false)).

(* @src core/identity_model.rs 316-335 authorize *)
Definition authorize (k : string) (db : AuthDb) : result DeviceAuthorization :=
  let row :=
    dv ← devices db !! k;
    if ready dv && negb (revoked dv)
       && match users db !! dev_user_id dv with Some u => enabled u | None => false end
    then Some dv else None in
  let? dv := ok_or row (Anyhow "device not admitted") in
  let? generation := (if 0 <=? authorization_generation dv then Ok (authorization_generation dv)
                      else Err External) in
  let? decoded := decode (registration dv) in
  match decoded with
  | Body.Register r =>
      verify_signature r ;;?
      check (bool_decide (nats_public_key (payload r) = k)
             && bool_decide (user_id (payload r) = dev_user_id dv)
             && bool_decide (device_id (payload r) = dev_device_id dv))
        "admission registration binding mismatch" ;;?
      check (0 <? generation) "invalid authorization generation" ;;?
      let? user := user_id_try_from (dev_user_id dv) in
      Ok {| auth_user := user; auth_device := dev_device_id dv; auth_nkey := k;
            auth_generation := generation |}
  | _ => Err (Anyhow "invalid admission registration")
  end.

(** [gid IN (SELECT gid FROM authorization_members WHERE nkey=k)]. *)
Definition in_group (k gid : string) (db : AuthDb) : bool :=
  bool_decide (is_Some (authorization_members db !! (gid, k))).
(** [k' IN (SELECT m.nkey FROM authorization_members m WHERE m.gid IN ...)]. *)
Definition shares_group (k k' : string) (db : AuthDb) : bool :=
  exists_row (fun '(g, n) _ => bool_decide (n = k') && in_group k g db)
    (authorization_members db).

(** The coordinator SQL picks when the device that was one is removed. *)
Definition next_coordinator (gid : string) (t : gmap (string * string) Z) : string :=
  match group_members gid t with m :: _ => nkey m | [] => EmptyString end.

(** The five statements of [revoke], in order. *)
(* @src core/identity_model.rs 347-351 revoke (statements) *)
Definition revoke_statements (k : string) (db : AuthDb) : AuthDb :=
  let db := set_devices (fun t => update_where (fun k' _ => shares_group k k' db) bump_device t) db in
  let db := set_groups (fun t => update_where (fun g _ => in_group k g db)
              (fun r => {| generation := generation r + 1; epoch := epoch r;
                           coordinator := coordinator r; last_update := [];
                           group_ref := group_ref r |}) t) db in
  let db := set_members (delete_where (fun '(_, n) _ => bool_decide (n = k))) db in
  let db := set_groups (map_imap (fun g r => Some
              (if bool_decide (coordinator r = k)
               then {| generation := generation r; epoch := epoch r;
                       coordinator := next_coordinator g (authorization_members db);
                       last_update := last_update r; group_ref := group_ref r |}
               else r))) db in
  set_devices (update_where (fun n r => bool_decide (n = k) && negb (revoked r)) revoke_device) db.

(* @src core/identity_model.rs 336-358 revoke *)
Definition revoke (cap : Capacity) (k : string) (d : Draw) : M AuthDb unit :=
  transaction (
    let* active := gets (fun db =>
      match devices db !! k with Some r => negb (revoked r) | None => false end) in
    if negb active then ret tt
    else
      modify (revoke_statements k) ;;;
      let* target := attempt (reference RefDevice k) in
      repair cap {| kind := DeviceRevoked; stage := Committed; outcome := Succeeded;
                    reason := Verified; actor := Authority; count := 1; actor_reference := None;
                    target_reference := ok target; ev_generation := None;
                    window_seconds := None; sequence_boundary := None |} d ;;;
      check_database cap true).

(* @src core/identity_model.rs 367-383 enrollment_records *)
Definition enrollment_records (include_revoked : bool) (db : AuthDb) : Enrollment :=
  list_to_map (reverse ((fun '(k, r) =>
      ("users." +:+ dev_user_id r +:+ ".devices." +:+ dev_device_id r, k))
    <$> rows (fun _ r => include_revoked || negb (revoked r)) (devices db))).
(* @src core/identity_model.rs 360-362 enrollment *)
Definition enrollment : AuthDb -> Enrollment := enrollment_records false.
(* @src core/identity_model.rs 363-366 historical_enrollment *)
Definition historical_enrollment : AuthDb -> Enrollment := enrollment_records true.

(* @src core/identity_model.rs 384-394 registrations *)
Definition registrations (db : AuthDb) : result (list DeviceRegistration) :=
  rmap (fun '(_, r) =>
    let? b := decode (registration r) in
    match b with
    | Body.Register reg => Ok reg
    | _ => Err (Anyhow "invalid registry registration")
    end) (rows (fun _ r => negb (revoked r)) (devices db)).

(** [open] on the tables: the schema steps, the audit migration, the capacity
    policy and its check. *)
Definition set_schema (v : Z) (db : AuthDb) : AuthDb :=
  {| schema := v; users := users db; identity_bindings := identity_bindings db;
     enrollment_tokens := enrollment_tokens db; devices := devices db;
     authorization_groups := authorization_groups db;
     authorization_members := authorization_members db; audit := audit db;
     db_autocommit := db_autocommit db; db_commit_ok := db_commit_ok db |}.
(** [CREATE TABLE]: version 0 has no identity table, version 1 no group table. *)
Definition create_identity (db : AuthDb) : AuthDb :=
  set_schema 1 (set_users (fun _ => ∅) (set_bindings (fun _ => ∅) (set_tokens (fun _ => ∅)
    (set_devices (fun _ => ∅) db)))).
Definition create_groups (db : AuthDb) : AuthDb :=
  set_schema 2 (set_groups (fun _ => ∅) (set_members (fun _ => ∅) db)).

(* @src core/identity_model.rs 133-165 open *)
Definition open_registry `{CapacityFile} (file : result (option bytes))
    (row_ref : ref_table -> string -> string) (store : result string) : M AuthDb Capacity :=
  let* version := gets schema in
  ensure (version <=? 3) "auth registry is newer than this service" ;;;
  when (version =? 0) (modify create_identity) ;;;
  when (version <? 2) (modify create_groups) ;;;
  migrate row_ref store ;;;
  let* cap := lift (load_or_default file) in
  check_registry cap ;;;
  ret cap.
End registry.
