(* ===== verification/Policy.v ===== *)
(** * Group authorization

    [crates/epochgrid-core/src/authorization.rs] and its [delivery.rs]: signed
    membership policies applied by the authority, the projection it answers
    queries from, and the relay of Welcome messages to current members. *)
From stdpp Require Import sorting.
From S2P Require Import Prelude External Wire AuthDb Capacity AuditTrail Identity Registry.

(* @src core/authorization.rs 8-8 SUBJECT *)
Definition SUBJECT : string := "epochgrid.v1.channel.policy".
(* @src core/authorization/delivery.rs 11-11 RELAY *)
Definition RELAY : string := "epochgrid.v1.channel.welcome".
(* @src core/authorization.rs 10-10 DOMAIN *)
Definition DOMAIN : bytes := as_bytes "epochgrid/group-authorization/v1" ++ [x00].

(** The runtime handle: the database, the policy and the in-memory limiters. *)
(* @src core/identity_model.rs 91-95 AuthRegistry *)
Record AuthRegistry : Type := {
  reg_db : AuthDb;
  reg_capacity : Capacity;
  principal_rates : gmap string RateLimit;
}.
Definition set_reg_db (db : AuthDb) (r : AuthRegistry) : AuthRegistry :=
  {| reg_db := db; reg_capacity := reg_capacity r; principal_rates := principal_rates r |}.
Definition set_rates (m : gmap string RateLimit) (r : AuthRegistry) : AuthRegistry :=
  {| reg_db := reg_db r; reg_capacity := reg_capacity r; principal_rates := m |}.

(** Code on the database part of the handle. *)
Definition on_db {A} (m : M AuthDb A) : M AuthRegistry A := fun r =>
  match m (reg_db r) with (a, db) => (a, set_reg_db db r) end.

(* @src core/authorization.rs 212-221 validate_gid *)
Definition validate_gid (gid : string) : result unit :=
  check ((slen gid =? 32) && string_all is_lower_hex gid) "invalid authorization group ID".

(** [ORDER BY gid]. *)
Definition by_name (a b : string) : Prop := string_leb a b = true.
#[export] Instance by_name_dec : RelDecision by_name.
Proof. intros a b. unfold by_name. apply _. Defined.

(** [MlsMessageIn::tls_deserialize_exact(..)?.extract()] is a Welcome; [None] is
    a parse error. *)
Class MlsMessages : Type := welcome_message : bytes -> option bool.

(** The tuple a relay signs. *)
Definition RelayTuple : Type := (Z * string * Z * string * string * Z * bytes)%type.

Section policy.
Context `{NKeys} `{MlsPackages} `{Postcard Envelope} `{Postcard RegistrationPayload}
  `{Postcard PolicyUpdate} `{Sha256} `{Base32} `{Json AuditRecord} `{Json Kind} `{Pages AuthDb}.

(* @src core/authorization.rs 31-35 bytes *)
Definition policy_bytes (u : PolicyUpdate) : result bytes :=
  let? b := to_allocvec u in Ok (DOMAIN ++ b).

(* @src core/authorization.rs 36-42 sign *)
Definition sign_policy (u : PolicyUpdate) (k : KeyPair) : result SignedPolicy :=
  check (bool_decide (signer u = public_key k)) "policy signer mismatch" ;;?
  let? b := policy_bytes u in
  let? s := nkey_sign k b in
  Ok {| update := u; sp_signature := s |}.

(** The loop over the listed members: distinct devices, increasing leaves, each
    device authorized; the set of devices seen. *)
(* @src core/authorization.rs 103-113 apply_policy_inner (members) *)
Fixpoint check_members (db : AuthDb) (keys : gset string) (previous : option Z)
    (ms : list Member) : result (gset string) :=
  match ms with
  | [] => Ok keys
  | m :: ms =>
      check (negb (bool_decide (nkey m ∈ keys))) "duplicate policy device" ;;?
      check (match previous with None => true | Some l => l <? leaf m end)
        "policy leaves must be unique and ordered" ;;?
      let? _ := authorize (nkey m) db in
      check_members db ({[ nkey m ]} ∪ keys) (Some (leaf m)) ms
  end.

(** What the update finds: an exact replay, or a change it may make. *)
(* @src core/authorization.rs 114-142 apply_policy_inner (current) *)
Definition policy_precondition (u : PolicyUpdate) (encoded : bytes) (db : AuthDb)
  : result (option Z) :=
  match authorization_groups db !! pu_gid u with
  | Some r =>
      let? gen := u64_column (generation r) in
      let? ep := u64_column (epoch r) in
      if (gen =? expected_generation u + 1) && bool_decide (last_update r = encoded)
      then Ok (Some gen)
      else
        check (gen =? expected_generation u) "stale policy generation" ;;?
        check (bool_decide (coordinator r = signer u)) "only coordinator may change policy" ;;?
        check (ep <? pu_epoch u) "policy requires a newer MLS epoch" ;;?
        Ok None
  | None =>
      check ((expected_generation u =? 0) && (pu_epoch u =? 0)
             && match members u with
                | [m] => bool_decide (nkey m = signer u) && (leaf m =? 0)
                | _ => false
                end) "new policy must contain only creator at epoch zero" ;;?
      Ok None
  end.

Definition group_size (gid : string) (db : AuthDb) : Z :=
  count_rows (fun '(g, _) _ => bool_decide (g = gid)) (authorization_members db).

(** Whether every listed member already is one, in a group that has some. *)
(* @src core/authorization.rs 143-144 apply_policy_inner (reducing) *)
Definition is_reducing (u : PolicyUpdate) (db : AuthDb) : bool :=
  (0 <? group_size (pu_gid u) db)
  && forallb (fun m => bool_decide (is_Some (authorization_members db !! (pu_gid u, nkey m))))
       (members u).

(** The statements that replace the group's row and its members. *)
(* @src core/authorization.rs 150-163 apply_policy_inner (statements) *)
Definition policy_statements (u : PolicyUpdate) (encoded : bytes) (row_ref : string)
  : M AuthDb unit :=
  modify (fun db => set_devices (update_where
    (fun k _ => bool_decide (is_Some (authorization_members db !! (pu_gid u, k)))) bump_device) db) ;;;
  upsert_group (pu_gid u) (expected_generation u + 1) (pu_epoch u) (signer u) encoded row_ref ;;;
  modify (set_members (delete_where (fun '(g, _) _ => bool_decide (g = pu_gid u)))) ;;;
  for_each (members u) (fun m =>
    insert_member (pu_gid u) (nkey m) (leaf m) ;;;
    modify (set_devices (alter bump_device (nkey m)))).

Definition policy_event (gen : Z) (actor_ref target_ref : option string) : Event := {|
  kind := PolicyCommitted; stage := Committed; outcome := Succeeded; reason := Verified;
  actor := VerifiedDevice; count := 1; actor_reference := actor_ref;
  target_reference := target_ref; ev_generation := Some gen; window_seconds := None;
  sequence_boundary := None |}.

(* @src core/authorization.rs 164-183 apply_policy_inner (evidence) *)
Definition policy_evidence (cap : Capacity) (u : PolicyUpdate) (reducing : bool) (d : Draw)
  : M AuthDb unit :=
  let gen := expected_generation u + 1 in
  let* a := attempt (reference RefDevice (signer u)) in
  let* t := attempt (reference RefGroup (pu_gid u)) in
  (if reducing then repair cap (policy_event gen (ok a) (ok t)) d
   else
     let* a := lift a in
     let* t := lift t in
     append (policy_event gen (Some a) (Some t)) false d ;;;
     ret tt) ;;;
  check_registry cap ;;;
  check_database cap reducing.

(** The closure run between [BEGIN IMMEDIATE] and [COMMIT]. *)
(* @src core/authorization.rs 102-185 apply_policy_inner (transaction) *)
Definition policy_body (cap : Capacity) (u : PolicyUpdate) (encoded : bytes) (row_ref : string)
    (d : Draw) : M AuthDb Z :=
  let* db := gets id in
  lift (authorize (signer u) db) ;;;
  let* keys := lift (check_members db ∅ None (members u)) in
  let* current := lift (policy_precondition u encoded db) in
  match current with
  | Some gen => ret gen
  | None =>
      let reducing := is_reducing u db in
      ensure (bool_decide (signer u ∈ keys)) "coordinator must remain a member" ;;;
      policy_statements u encoded row_ref ;;;
      policy_evidence cap u reducing d ;;;
      ret (expected_generation u + 1)
  end.

(** The limiter of the signing principal: at most 32 are kept. *)
(* @src core/authorization.rs 86-97 apply_policy_inner (rate) *)
Definition principal_allow (k : string) (now : Z) : M AuthRegistry unit :=
  let* rates := gets principal_rates in
  ensure (bool_decide (is_Some (rates !! k)) || (table_size rates <? 32))
    "policy principal capacity exhausted" ;;;
  let '(allowed, l) := allow (default (new_rate 4 16 now) (rates !! k)) now in
  modify (set_rates (<[k := l]> rates)) ;;;
  ensure allowed "policy principal overload".

(* @src core/authorization.rs 71-201 apply_policy_inner *)
Definition apply_policy_inner (signed : SignedPolicy) (now : Z) (row_ref : string) (d : Draw)
  : M AuthRegistry Z :=
  let u := update signed in
  ensure (pu_version u =? 1) "unsupported policy version" ;;;
  lift (validate_gid (pu_gid u)) ;;;
  ensure (negb (bool_decide (members u = [])) && (zlen (members u) <=? 128))
    "invalid policy size" ;;;
  ensure ((pu_epoch u <=? i64_max) && (expected_generation u <? i64_max))
    "policy counter overflow" ;;;
  lift (let? _ := key_pair_type (signer u) in
        let? b := policy_bytes u in
        verify_with (signer u) b (sp_signature signed)) ;;;
  on_db (fun db => (authorize (signer u) db, db)) ;;;
  principal_allow (signer u) now ;;;
  let* encoded := lift (to_allocvec u) in
  let* cap := gets reg_capacity in
  on_db (transaction (policy_body cap u encoded row_ref d)).

Definition rejected_event (actor_ref : option string) : Event := {|
  kind := PolicyRejected; stage := Result; outcome := Denied; reason := Rejected;
  actor := VerifiedDevice; count := 1; actor_reference := actor_ref; target_reference := None;
  ev_generation := None; window_seconds := None; sequence_boundary := None |}.

(** Only a rejected update of an authenticated, authorized device is recorded. *)
(* @src core/authorization.rs 46-70 apply_policy *)
Definition apply_policy (signed : SignedPolicy) (now : Z) (row_ref : string) (d d' : Draw)
  : M AuthRegistry Z :=
  let u := update signed in
  let* result := attempt (apply_policy_inner signed now row_ref d) in
  let* authorized := gets (fun r => is_ok (authorize (signer u) (reg_db r))) in
  when (negb (is_ok result) && (zlen (members u) <=? 128)
        && is_ok (let? _ := key_pair_type (signer u) in
                  verify_with (signer u) (match policy_bytes u with Ok b => b | Err _ => [] end)
                    (sp_signature signed))
        && authorized) (
    let* cap := gets reg_capacity in
    let* a := on_db (attempt (reference RefDevice (signer u))) in
    let* _ := attempt (on_db (audit_event cap (rejected_event (ok a)) d')) in
    ret tt) ;;;
  lift result.

(* @src core/authorization.rs 202-210 authorized_groups *)
Definition authorized_groups (k : string) (db : AuthDb) : result (list string) :=
  let? _ := authorize k db in
  Ok (merge_sort by_name
        ((fun '((g, _), _) => g)
           <$> rows (fun '(_, n) _ => bool_decide (n = k)) (authorization_members db))).

(* @src core/authorization/delivery.rs 81-111 policy_state *)
Definition policy_state (gid : string) (db : AuthDb) : result (option PolicyState) :=
  validate_gid gid ;;?
  match authorization_groups db !! gid with
  | None => Ok None
  | Some r =>
      let? gen := u64_column (generation r) in
      let? ep := u64_column (epoch r) in
      Ok (Some {| ps_generation := gen; ps_epoch := ep; ps_coordinator := coordinator r;
                  ps_members := group_members gid (authorization_members db) |})
  end.

(** ** Welcome relay *)

(* @src core/authorization/delivery.rs 38-50 bytes *)
Definition relay_bytes `{Postcard RelayTuple} (w : WelcomeRelay) : result bytes :=
  let? b := to_allocvec (wr_version w, wr_gid w, wr_epoch w, recipient w, sender w, wr_id w,
                         wr_payload w) in
  Ok (as_bytes "epochgrid/welcome-relay/v1" ++ [x00] ++ b).

(** The subject a valid relay is published on. *)
(* @src core/authorization/delivery.rs 51-78 validate *)
Definition validate_relay `{Postcard RelayTuple} `{MlsMessages} (w : WelcomeRelay) (db : AuthDb)
  : result string :=
  check ((wr_version w =? 1) && (0 <? wr_id w)) "invalid Welcome relay" ;;?
  let? _ := key_pair_type (sender w) in
  let? b := relay_bytes w in
  verify_with (sender w) b (wr_signature w) ;;?
  let? _ := authorize (sender w) db in
  let? to := authorize (recipient w) db in
  let? found := policy_state (wr_gid w) db in
  let? state := ok_or found (Anyhow "unknown group") in
  check (bool_decide (ps_coordinator state = sender w) && (ps_epoch state =? wr_epoch w)
         && existsb (fun m => bool_decide (nkey m = recipient w)) (ps_members state))
    "Welcome relay is not authorized by current membership" ;;?
  let? decoded := decode (wr_payload w) in
  match decoded with
  | Body.Welcome payload =>
      let? is_welcome := ok_or (welcome_message payload) External in
      check is_welcome "expected MLS Welcome" ;;?
      Ok ("epochgrid.v1.user." +:+ auth_user to +:+ "." +:+ auth_device to +:+ ".inbox")
  | _ => Err (Anyhow "expected Welcome envelope")
  end.

(** ** Local intents *)

(* @src core/authorization/delivery.rs 19-25 Intent *)
Record Intent : Type := {
  in_version : Z;
  in_gid : string;
  in_epoch : Z;
  leaves : list (Z * bytes * bytes);
}.

(** The one directory record that carries a leaf's credential and signature
    key; records before a parse error are kept, the error ends the search. *)
(* @src core/authorization/delivery.rs 178-206 dispatch (members) *)
Fixpoint leaf_records (records : list DeviceRegistration) (signature credential : bytes)
  : result (list DeviceRegistration) :=
  match records with
  | [] => Ok []
  | r :: rs =>
      if negb (bool_decide (mls_credential (payload r) = credential))
      then leaf_records rs signature credential
      else
        let? package := ok_or (unverified_package (mls_key_package (payload r))) External in
        let? rest := leaf_records rs signature credential in
        Ok (if bool_decide (package_signature_key package = signature) then r :: rest else rest)
  end.
Definition intent_members (s : Snapshot) (i : Intent) : result (list Member) :=
  rmap (fun '(l, signature, credential) =>
    let? found := leaf_records (entries s) signature credential in
    match found with
    | [r] => Ok {| nkey := nats_public_key (payload r); leaf := l |}
    | _ => Err (Anyhow "MLS member must have one authenticated directory binding")
    end) (leaves i).

(** What a queued intent still has to send, given the authority's answer to the
    policy query. *)
(* @src core/authorization/delivery.rs 207-238 dispatch (decision) *)
Definition intent_policy (k : KeyPair) (i : Intent) (ms : list Member)
    (state : option PolicyState) : result (option SignedPolicy) :=
  if match state with
     | Some s => (ps_epoch s =? in_epoch i) && bool_decide (ps_members s = ms)
                 && bool_decide (ps_coordinator s = public_key k)
     | None => false
     end
  then Ok None
  else
    let? signed := sign_policy
      {| pu_version := 1; pu_gid := in_gid i;
         expected_generation := match state with Some s => ps_generation s | None => 0 end;
         pu_epoch := in_epoch i; signer := public_key k; members := ms |} k in
    Ok (Some signed).
End policy.
