(* ===== verification/RegistryFacts.v ===== *)
(** * Properties of the registry

    What every handler of [Registry.v] and [Policy.v] keeps: the consistency of
    the tables, and the monotone history of devices, tokens and groups; and
    what the security-relevant handlers establish. *)
From stdpp Require Import sorting.
From S2P Require Import Prelude External Wire AuthDb Capacity AuditTrail Identity Registry Policy.

(** ** Audit code leaves the registry alone *)

Section frames.
Context `{Json AuditRecord} `{Json Kind} `{Pages AuthDb}.

Lemma insert_event_registry k p : keeps same_registry (insert_event k p).
Proof.
  intros d. unfold insert_event. destruct (_ <=? _); [|done]. by destruct (insert_row _ _ _).
Qed.
Lemma set_state_registry f : keeps same_registry (modify (set_state f)).
Proof. by intros d. Qed.
Lemma mark_degraded_registry : keeps same_registry mark_degraded.
Proof. intros d. unfold mark_degraded. by destruct (_ && _). Qed.
Lemma info_registry : keeps same_registry info.
Proof. by intros d. Qed.
Lemma reference_registry t k : keeps same_registry (reference t k).
Proof. by intros d; unfold reference, bind, gets, lift; destruct (ok_or _ _). Qed.
#[local] Hint Resolve insert_event_registry set_state_registry mark_degraded_registry
  info_registry : keeps.
Lemma append_registry ev reserve d : keeps same_registry (append ev reserve d).
Proof. unfold append, append_operation. keeps_auto. Qed.
#[local] Hint Resolve append_registry : keeps.
Lemma repair_registry cap ev d : keeps same_registry (repair cap ev d).
Proof. unfold repair. keeps_auto. Qed.
Lemma audit_event_registry cap ev d : keeps same_registry (audit_event cap ev d).
Proof. unfold audit_event. apply keeps_transaction; [apply _|done|]. keeps_auto. Qed.
End frames.
#[export] Hint Resolve reference_registry append_registry repair_registry audit_event_registry : keeps.

(** ** The history of the registry *)

Definition device_evolves (r r' : DeviceRow) : Prop :=
  dev_user_id r' = dev_user_id r /\ dev_device_id r' = dev_device_id r /\
  registration r' = registration r /\ device_ref r' = device_ref r /\
  (ready r = true -> ready r' = true) /\ (revoked r = true -> revoked r' = true) /\
  authorization_generation r <= authorization_generation r'.
Definition token_evolves (t t' : TokenRow) : Prop :=
  token_user_id t' = token_user_id t /\ expires t' = expires t /\
  (used_key t = None \/ used_key t' = used_key t).
Definition group_evolves (g g' : GroupRow) : Prop :=
  generation g <= generation g' /\ epoch g <= epoch g' /\ group_ref g' = group_ref g.

Definition rows_evolve {K V} `{Countable K} (R : V -> V -> Prop) (m m' : gmap K V) : Prop :=
  forall k v, m !! k = Some v -> exists v', m' !! k = Some v' /\ R v v'.

#[global] Instance rows_evolve_preorder {K V} `{Countable K} (R : V -> V -> Prop) `{!PreOrder R} :
  PreOrder (rows_evolve (K := K) R).
Proof.
  split.
  - intros m k v Hk. exists v. split; [done|reflexivity].
  - intros m1 m2 m3 H12 H23 k v1 (v2 & Hk2 & H2)%H12.
    apply H23 in Hk2 as (v3 & Hk3 & H3). exists v3. split; [done|]. by etrans.
Qed.
#[global] Instance device_evolves_preorder : PreOrder device_evolves.
Proof.
  split; [intros r; split_and!; done || lia|].
  intros r1 r2 r3 (?&?&?&?&?&?&?) (?&?&?&?&?&?&?). split_and!; try congruence; auto. lia.
Qed.
#[global] Instance token_evolves_preorder : PreOrder token_evolves.
Proof.
  split; [intros r; split_and!; auto|].
  intros r1 r2 r3 (?&?&[]) (?&?&[]); split_and!; try congruence; auto.
  - left. congruence.
  - right. congruence.
Qed.
#[global] Instance group_evolves_preorder : PreOrder group_evolves.
Proof.
  split; [intros r; split_and!; done || lia|].
  intros r1 r2 r3 (?&?&?) (?&?&?). split_and!; try congruence; lia.
Qed.

(** Nothing recorded is forgotten or reversed: devices keep their identity and
    never become active again once revoked, a token keeps the key that used it,
    users and bindings stay, generations and epochs never decrease. *)
Definition evolves (d d' : AuthDb) : Prop :=
  rows_evolve device_evolves (devices d) (devices d') /\
  rows_evolve token_evolves (enrollment_tokens d) (enrollment_tokens d') /\
  rows_evolve group_evolves (authorization_groups d) (authorization_groups d') /\
  users d ⊆ users d' /\ identity_bindings d ⊆ identity_bindings d'.

#[global] Instance evolves_preorder : PreOrder evolves.
Proof.
  split.
  - intros d. split_and!; reflexivity.
  - intros d1 d2 d3 (?&?&?&?&?) (?&?&?&?&?). split_and!; by etrans.
Qed.
Lemma same_registry_evolves d d' : same_registry d d' -> evolves d d'.
Proof.
  intros (_ & Hu & Hb & Ht & Hd & Hg & _). unfold evolves.
  rewrite Hu, Hb, Ht, Hd, Hg. split_and!; reflexivity.
Qed.

(** ** The consistency of the tables *)

Record registry_wf (d : AuthDb) : Prop := {
  (** A member is a known device that is not revoked, of a known group. *)
  wf_members : forall g k l, authorization_members d !! (g, k) = Some l ->
    is_Some (authorization_groups d !! g) /\
    exists r, devices d !! k = Some r /\ revoked r = false;
  (** A leaf holds one member. *)
  wf_leaves : forall g k k' l, authorization_members d !! (g, k) = Some l ->
    authorization_members d !! (g, k') = Some l -> k = k';
  (** A coordinator is a member, or there is none in an empty group. *)
  wf_coordinator : forall g r, authorization_groups d !! g = Some r ->
    is_Some (authorization_members d !! (g, coordinator r)) \/
    (coordinator r = EmptyString /\ forall k, authorization_members d !! (g, k) = None);
  (** A device belongs to a known user and is its only device of that name. *)
  wf_devices : forall k r, devices d !! k = Some r ->
    is_Some (users d !! dev_user_id r) /\ 0 < authorization_generation r;
  wf_names : forall k k' r r', devices d !! k = Some r -> devices d !! k' = Some r' ->
    dev_user_id r = dev_user_id r' -> dev_device_id r = dev_device_id r' -> k = k';
  (** A token belongs to a known user, and a used one to a device of that user. *)
  wf_tokens : forall g t, enrollment_tokens d !! g = Some t ->
    is_Some (users d !! token_user_id t) /\
    forall k, used_key t = Some k ->
      exists r, devices d !! k = Some r /\ dev_user_id r = token_user_id t;
  wf_bindings : forall b u, identity_bindings d !! b = Some u -> is_Some (users d !! u);
}.

Lemma same_registry_wf d d' : same_registry d d' -> registry_wf d -> registry_wf d'.
Proof.
  intros (_ & Hu & Hb & Ht & Hd & Hg & Hm) []. split; rewrite ?Hu, ?Hb, ?Ht, ?Hd, ?Hg, ?Hm; done.
Qed.

(** What every handler keeps. *)
Definition registry_step (d d' : AuthDb) : Prop :=
  evolves d d' /\ (registry_wf d -> registry_wf d').
#[global] Instance registry_step_preorder : PreOrder registry_step.
Proof.
  split; [intros d; split; [reflexivity|done]|].
  intros d1 d2 d3 [] []. split; [by etrans|auto].
Qed.
Lemma same_registry_step d d' : same_registry d d' -> registry_step d d'.
Proof. intros Hs. split; [by apply same_registry_evolves | by apply same_registry_wf]. Qed.
Lemma keeps_same_step {A} (m : M AuthDb A) : keeps same_registry m -> keeps registry_step m.
Proof. intros Hm d. apply same_registry_step, Hm. Qed.
#[export] Hint Resolve keeps_same_step : keeps.
Lemma transaction_step {A} (m : M AuthDb A) :
  keeps registry_step m -> keeps registry_step (transaction m).
Proof. intros Hm. apply keeps_transaction; [apply _|by intros; apply same_registry_step|done]. Qed.

Lemma rows_evolve_insert {K V} `{Countable K} (R : V -> V -> Prop) `{!PreOrder R}
    (m : gmap K V) k v :
  (forall w, m !! k = Some w -> R w v) -> rows_evolve R m (<[k := v]> m).
Proof.
  intros Hr k' w Hk. destruct (decide (k' = k)) as [->|Hne].
  - exists v. rewrite lookup_insert_eq. eauto.
  - exists w. rewrite lookup_insert_ne by done. split; [done|reflexivity].
Qed.
Lemma rows_evolve_update {K V} `{Countable K} (R : V -> V -> Prop) `{!PreOrder R}
    (m : gmap K V) p f :
  (forall v, R v (f v)) -> rows_evolve R m (update_where p f m).
Proof.
  intros Hf k v Hk. rewrite lookup_update_where, Hk. eexists. split; [done|].
  destruct (p k v); [done|reflexivity].
Qed.
Lemma insert_new_subseteq {K V} `{Countable K} (m : gmap K V) k v :
  m !! k = None -> m ⊆ <[k := v]> m.
Proof. apply insert_subseteq. Qed.

Lemma bump_evolves r : device_evolves r (bump_device r).
Proof. split_and!; simpl; done || lia. Qed.
Lemma ready_evolves r : device_evolves r (set_ready r).
Proof. split_and!; simpl; done || lia. Qed.
Lemma revoke_evolves r : device_evolves r (revoke_device r).
Proof. split_and!; simpl; done || lia. Qed.

(** ** Statements *)

(** A handler step given by what a successful run did. *)
Lemma keeps_by {S A} (R : S -> S -> Prop) (m : M S A) :
  (forall s a s', m s = (Ok a, s') -> R s s') -> (forall s e s', m s = (Err e, s') -> R s s') ->
  keeps R m.
Proof. intros HO HE s. destruct (m s) as [[a|e] s'] eqn:Hr; simpl; eauto. Qed.

Lemma set_users_step id v d :
  users d !! id = None -> registry_step d (set_users (<[id := v]>) d).
Proof.
  intros Hn. pose proof (insert_new_subseteq (users d) id v Hn) as Hsub. split.
  - split_and!; simpl; reflexivity || done.
  - assert (forall u, is_Some (users d !! u) -> is_Some (<[id := v]> (users d) !! u)) as Hu
      by (intros u [x Hx]; exists x; by eapply lookup_weaken).
    intros [Hm Hl Hc Hd Hnm Ht Hb]. split; simpl; try done.
    + intros k r Hk. destruct (Hd _ _ Hk). auto.
    + intros g t Hg. destruct (Ht _ _ Hg). auto.
    + intros b u Hb'. eauto.
Qed.

Lemma insert_user_step id en rnd : keeps registry_step (insert_user id en rnd).
Proof.
  apply keeps_by.
  - intros d [] d' (Hn & ->)%insert_user_Ok. by apply set_users_step.
  - intros d e d' Hr. unfold insert_user in Hr. destruct (insert_row _ _ _); simplify_eq. reflexivity.
Qed.

Lemma insert_binding_step p s u : keeps registry_step (insert_binding p s u).
Proof.
  apply keeps_by.
  - intros d [] d' (Hu & Hn & ->)%insert_binding_Ok. split.
    + split_and!; simpl; try reflexivity. by apply insert_new_subseteq.
    + intros [Hm Hl Hc Hd Hnm Ht Hb]. split; simpl; try done.
      intros b u' [[<- <-]|[_ Hb']]%lookup_insert_Some; eauto.
  - intros d e d' Hr. unfold insert_binding in Hr.
    case_bool_decide; [destruct (insert_row _ _ _)|]; simplify_eq; reflexivity.
Qed.

Lemma insert_token_step g uid ex :
  keeps registry_step
    (insert_token g {| token_user_id := uid; expires := ex; used_key := None |}).
Proof.
  apply keeps_by.
  - intros d [] d' (Hu & Hn & ->)%insert_token_Ok. split.
    + split_and!; simpl; try reflexivity. apply rows_evolve_insert; [apply _|].
      intros w Hw. congruence.
    + intros [Hm Hl Hc Hd Hnm Ht Hb]. split; simpl; try done.
      intros g' t [[<- <-]|[_ Hb']]%lookup_insert_Some; [done|eauto].
  - intros d e d' Hr. unfold insert_token in Hr.
    case_bool_decide; [destruct (insert_row _ _ _)|]; simplify_eq; reflexivity.
Qed.

Lemma set_ready_step k : keeps registry_step (modify (set_devices (alter set_ready k))).
Proof.
  apply keeps_modify. intros d. split.
  - split_and!; simpl; try reflexivity. intros k' r Hk.
    destruct (decide (k' = k)) as [->|Hne].
    + exists (set_ready r). rewrite lookup_alter_eq, Hk. split; [done|apply ready_evolves].
    + exists r. rewrite lookup_alter_ne by done. split; [done|reflexivity].
  - intros [Hm Hl Hc Hd Hnm Ht Hb].
    assert (forall k' r', alter set_ready k (devices d) !! k' = Some r' ->
      exists r, devices d !! k' = Some r /\ (r' = r \/ r' = set_ready r)) as Hinv.
    { intros k' r'. destruct (decide (k' = k)) as [->|Hne].
      - rewrite lookup_alter_eq. destruct (devices d !! k) as [r|]; intros [= <-]; eauto.
      - rewrite lookup_alter_ne by done. eauto. }
    assert (forall k' r, devices d !! k' = Some r -> exists r',
      alter set_ready k (devices d) !! k' = Some r' /\ revoked r' = revoked r /\
      dev_user_id r' = dev_user_id r) as Hfwd.
    { intros k' r Hk. destruct (decide (k' = k)) as [->|Hne].
      - exists (set_ready r). by rewrite lookup_alter_eq, Hk.
      - exists r. by rewrite lookup_alter_ne. }
    split; simpl; try done.
    + intros g k' l Hg. destruct (Hm _ _ _ Hg) as (Hg' & r & Hr & Hrev). split; [done|].
      destruct (Hfwd _ _ Hr) as (r' & ? & ? & _). exists r'. split; congruence.
    + intros k' r' (r & Hr & [->| ->])%Hinv; apply (Hd _ _ Hr).
    + intros k1 k2 r1 r2 (a & Ha & Ea)%Hinv (b & Hb' & Eb)%Hinv Hu Hdv.
      apply (Hnm _ _ _ _ Ha Hb'); destruct Ea, Eb; subst; done.
    + intros g t Hg. destruct (Ht _ _ Hg) as [Hu Hk]. split; [done|].
      intros k' Hk'. destruct (Hk _ Hk') as (r & Hr & Hru).
      destruct (Hfwd _ _ Hr) as (r' & ? & _ & ?). exists r'. split; congruence.
Qed.
#[export] Hint Resolve insert_user_step insert_binding_step insert_token_step set_ready_step : keeps.

Section handlers.
Context `{NKeys} `{MlsPackages} `{Postcard Envelope} `{Postcard RegistrationPayload}
  `{Sha256} `{Base32} `{Json AuditRecord} `{Json Kind} `{Pages AuthDb}.

Lemma invite_step cap handle ttl clock rnd d :
  keeps registry_step (invite cap handle ttl clock rnd d).
Proof. unfold invite. keeps_auto. apply transaction_step. keeps_auto. Qed.

Lemma activate_step cap k d : keeps registry_step (activate cap k d).
Proof. unfold activate. apply transaction_step. keeps_auto. Qed.

(** Consuming a token and inserting its device, as one step. *)
Lemma consume_token_Ok digest k now d d' :
  consume_token digest k now d = (Ok true, d') ->
  exists t u, enrollment_tokens d !! digest = Some t /\ used_key t = None /\ now < expires t /\
    users d !! token_user_id t = Some u /\ enabled u = true /\
    d' = set_tokens (<[digest := set_used k t]>) d.
Proof.
  unfold consume_token. destruct (enrollment_tokens d !! digest) as [t|] eqn:Ht; [|done].
  destruct (_ && _) eqn:Hc; [|done]. intros [= <-]. bool_prop.
  destruct (users d !! token_user_id t) as [u|] eqn:Hu; [|done]. by exists t, u.
Qed.

Definition enrolled (digest : bytes) (t : TokenRow) (k uid device : string) (reg : bytes)
    (rnd : string) (d : AuthDb) : AuthDb :=
  set_devices (<[k := new_device uid device reg rnd]>) (set_tokens (<[digest := set_used k t]>) d).

Lemma enrolled_step digest t k uid device reg rnd d :
  enrollment_tokens d !! digest = Some t -> used_key t = None -> token_user_id t = uid ->
  is_Some (users d !! uid) -> devices d !! k = None ->
  (forall k' r, devices d !! k' = Some r -> dev_user_id r = uid -> dev_device_id r <> device) ->
  registry_step d (enrolled digest t k uid device reg rnd d).
Proof.
  intros Ht Hused Huid Hu Hk Hname. split.
  - split_and!; simpl; try reflexivity.
    + apply rows_evolve_insert; [apply _|]. intros w Hw. congruence.
    + apply rows_evolve_insert; [apply _|]. intros w Hw. split_and!; simpl; try congruence.
      left. congruence.
  - intros [Hm Hl Hc Hd Hnm Htk Hb]. split; simpl; try done.
    + intros g n l Hg. destruct (Hm _ _ _ Hg) as (Hg' & r & Hr & Hrev). split; [done|].
      exists r. rewrite lookup_insert_ne; [done|congruence].
    + intros n r [[<- <-]|[_ Hr]]%lookup_insert_Some; [split; [done|simpl; lia]|eauto].
    + intros k1 k2 r1 r2 [[<- <-]|[Hk1 Hr1]]%lookup_insert_Some
        [[<- <-]|[Hk2 Hr2]]%lookup_insert_Some; simpl; intros Hus Hds; try done.
      * destruct (Hname _ _ Hr2); congruence.
      * destruct (Hname _ _ Hr1); congruence.
      * eauto.
    + intros g tk [[<- <-]|[_ Hg]]%lookup_insert_Some; simpl.
      * split; [congruence|]. intros n [= <-]. exists (new_device uid device reg rnd).
        rewrite lookup_insert_eq. done.
      * destruct (Htk _ _ Hg) as [Htu Hkk]. split; [done|]. intros n Hn.
        destruct (Hkk _ Hn) as (r & Hr & Hru). exists r.
        rewrite lookup_insert_ne; [done|congruence].
Qed.

Lemma authenticate_Ok token clock d b :
  authenticate token clock d = Ok b ->
  provider b = "local" /\
  exists uid digest now t u, token_user token = Ok uid /\
    sha256 (as_bytes token) = Ok digest /\ clock = Ok now /\
    enrollment_tokens d !! digest = Some t /\ token_user_id t = uid /\ now < expires t /\
    used_key t = None /\ users d !! uid = Some u /\ enabled u = true /\
    identity_bindings d !! ("local", subject b) = Some uid.
Proof.
  unfold authenticate. intros Ha. inv_ok. destruct a2 as [[p s] v]. inv_ok.
  destruct (enrollment_tokens d !! a0) as [t|] eqn:Ht; [|done].
  destruct (_ && _) eqn:Hc; [|done]. bool_prop.
  destruct (users d !! a) as [u|] eqn:Hu; [|done].
  assert (((p, s), v) ∈ rows (fun '(p, _) u => bool_decide (u = a) && bool_decide (p = "local"))
            (identity_bindings d)) as Hin.
  { match goal with Hh : head ?l = Some _ |- _ => destruct l; [done|injection Hh as ->] end.
    by left. }
  apply elem_of_rows in Hin as [Hb Hp]. bool_prop. subst. split; [done|].
  eexists _, _, _, t, u. split_and!; done.
Qed.

Lemma insert_device_Err k u v r n d e d' : insert_device k u v r n d = (Err e, d') -> d' = d.
Proof.
  unfold insert_device. destruct (_ && _); [|by intros [=]].
  destruct (insert_row _ _ _); by intros [=].
Qed.

(** A first enrollment, given the row the token was authenticated with. *)
Lemma enroll_transaction_step cap r uid digest encoded clock rnd dr d t :
  enrollment_tokens d !! digest = Some t -> token_user_id t = uid ->
  registry_step d (snd (enroll_transaction cap r uid digest encoded clock rnd dr d)).
Proof.
  intros Ht Huid. unfold enroll_transaction.
  destruct (transaction _ d) as [[[]|e] d'] eqn:Hrun; [|by apply transaction_Err in Hrun as ->].
  apply transaction_Ok in Hrun as (_ & d1 & Hrun & _ & ->). simpl.
  apply bind_Ok in Hrun as (now & s1 & [-> ->]%lift_Ok & Hrun).
  apply bind_Ok in Hrun as (used & s1 & Hused & Hrun).
  apply bind_Ok in Hrun as ([] & s2 & [-> ->]%ensure_Ok & Hrun).
  apply consume_token_Ok in Hused as (t' & u & Ht' & Hnone & _ & Hu & _ & ->).
  simpl in Ht', Hu. assert (t' = t) as -> by congruence.
  apply bind_Ok in Hrun as ([] & s2 & (_ & Hk & Hname & ->)%insert_device_Ok & Hrun).
  simpl in Hk, Hname.
  assert (keeps registry_step (let* target := reference RefDevice (nats_public_key (payload r)) in
            append (enrolled_event target false) false dr ;;;
            check_registry cap ;;; check_database cap false)) as Hkeep by keeps_auto.
  transitivity d1; [|by apply same_registry_step].
  match type of Hrun with ?m ?s = _ => pose proof (Hkeep s) as Hstep end.
  rewrite Hrun in Hstep. simpl in Hstep. etrans; [|exact Hstep].
  subst uid.
  transitivity (enrolled digest t (nats_public_key (payload r)) (token_user_id t)
                  (device_id (payload r)) encoded rnd d); [|by apply same_registry_step].
  apply enrolled_step; eauto.
Qed.

Lemma enroll_step cap token r c c' rnd d : keeps registry_step (enroll cap token r c c' rnd d).
Proof.
  unfold enroll. apply keeps_bind; [apply _|apply keeps_lift, _|intros _].
  intros db. apply keeps_bind_at; [|by intros ? ? [_ ->]%lift_Err].
  intros uid s1 [Huid ->]%lift_Ok. apply keeps_bind_at; [|by intros ? ? [_ ->]%ensure_Err].
  intros [] s1 [_ ->]%ensure_Ok. apply keeps_bind_at; [|by intros ? ? [_ ->]%lift_Err].
  intros digest s1 [Hdig ->]%lift_Ok. apply keeps_bind_at; [|by intros ? ? [_ ->]%lift_Err].
  intros encoded s1 [_ ->]%lift_Ok. apply keeps_bind_at; [|done].
  intros prev s1 [-> ->]%gets_Ok. destruct (_ ≫= used_key) as [p|].
  - match goal with |- registry_step _ (snd (?m _)) => assert (keeps registry_step m) as Hk end;
      [|apply Hk]. keeps_auto.
  - apply keeps_bind_at; [|done]. intros a s1 [-> ->]%gets_Ok.
    apply keeps_bind_at; [|by intros ? ? [_ ->]%lift_Err]. intros b s1 [Ha ->]%lift_Ok.
    apply keeps_bind_at; [|done]. intros a s1 [-> ->]%gets_Ok.
    apply keeps_bind_at; [|by intros ? ? [_ ->]%lift_Err]. intros f s1 [_ ->]%lift_Ok.
    apply keeps_bind_at; [|by intros ? ? [_ ->]%ensure_Err]. intros [] s1 [_ ->]%ensure_Ok.
    apply authenticate_Ok in Ha as (_ & uid' & digest' & now & t & u & Hu' & Hd' & _ & Ht & Htu & _).
    rewrite Huid in Hu'. rewrite Hdig in Hd'. simplify_eq.
    by apply (enroll_transaction_step cap r (token_user_id t) digest' encoded c' rnd d db t).
Qed.
End handlers.

(** ** Revocation *)

#[export] Instance by_leaf_total : Total by_leaf.
Proof. intros a b. unfold by_leaf. lia. Qed.
#[export] Instance by_leaf_trans : Transitive by_leaf.
Proof. intros a b c. unfold by_leaf. lia. Qed.

Lemma elem_of_group_members gid t m :
  m ∈ group_members gid t <-> t !! (gid, nkey m) = Some (leaf m).
Proof.
  unfold group_members. rewrite merge_sort_Permutation, list_elem_of_fmap. split.
  - intros ([[g k] l] & -> & Hin). apply elem_of_rows in Hin as [Hk Hg]. bool_prop. by subst.
  - intros Hk. exists ((gid, nkey m), leaf m). split; [by destruct m|].
    apply elem_of_rows. split; [done|]. by apply bool_decide_eq_true_2.
Qed.

Lemma group_members_sorted gid t : StronglySorted by_leaf (group_members gid t).
Proof. apply StronglySorted_merge_sort; apply _. Qed.

(** The next coordinator is the member on the lowest leaf; an empty group has
    none. *)
Lemma next_coordinator_spec gid t :
  (next_coordinator gid t = EmptyString /\ forall k, t !! (gid, k) = None) \/
  exists l, t !! (gid, next_coordinator gid t) = Some l /\
    forall k l', t !! (gid, k) = Some l' -> l <= l'.
Proof.
  unfold next_coordinator. pose proof (elem_of_group_members gid t) as He.
  pose proof (group_members_sorted gid t) as Hs.
  destruct (group_members gid t) as [|m ms].
  - left. split; [done|]. intros k. destruct (t !! (gid, k)) as [l|] eqn:Hk; [|done].
    specialize (He {| nkey := k; leaf := l |}). apply He in Hk. by apply not_elem_of_nil in Hk.
  - right. exists (leaf m). split; [apply He; by left|]. intros k l' Hk.
    specialize (He {| nkey := k; leaf := l' |}). apply He in Hk.
    apply StronglySorted_inv in Hs as [_ Hs].
    apply elem_of_cons in Hk as [<-|Hk]; [simpl; lia|].
    apply list_elem_of_In in Hk. by apply (proj1 (Forall_forall _ _) Hs) in Hk.
Qed.

Section revoke.
Implicit Types (d : AuthDb).

Lemma shares_group_true k n d :
  shares_group k n d = true <->
  exists g l l', authorization_members d !! (g, k) = Some l /\
    authorization_members d !! (g, n) = Some l'.
Proof.
  unfold shares_group, in_group. rewrite exists_row_true. split.
  - intros ([g n'] & l' & Hl' & Hp). bool_prop. subst.
    match goal with Hs : is_Some _ |- _ => destruct Hs as [l Hl] end. by exists g, l, l'.
  - intros (g & l & l' & Hl & Hl'). exists (g, n), l'. split; [done|].
    by rewrite !bool_decide_eq_true_2 by (done || eauto).
Qed.

(** The tables after the five statements. *)
Lemma revoke_devices k d n :
  devices (revoke_statements k d) !! n =
  (fun r => let r1 := if shares_group k n d then bump_device r else r in
            if bool_decide (n = k) && negb (revoked r1) then revoke_device r1 else r1)
    <$> devices d !! n.
Proof.
  unfold revoke_statements. simpl. rewrite !lookup_update_where.
  by destruct (devices d !! n).
Qed.
Lemma revoke_members k d g n :
  authorization_members (revoke_statements k d) !! (g, n) =
  if bool_decide (n = k) then None else authorization_members d !! (g, n).
Proof.
  unfold revoke_statements. simpl. rewrite lookup_delete_where.
  by destruct (authorization_members d !! (g, n)); case_bool_decide.
Qed.
Lemma revoke_groups k d g r :
  authorization_groups d !! g = Some r ->
  exists r', authorization_groups (revoke_statements k d) !! g = Some r' /\
    group_ref r' = group_ref r /\ epoch r' = epoch r /\
    generation r' = generation r + (if in_group k g d then 1 else 0) /\
    last_update r' = (if in_group k g d then [] else last_update r) /\
    coordinator r' = (if bool_decide (coordinator r = k)
                      then next_coordinator g (authorization_members (revoke_statements k d))
                      else coordinator r).
Proof.
  intros Hg. unfold revoke_statements. simpl. rewrite map_lookup_imap, lookup_update_where, Hg.
  simpl. eexists. split; [done|]. unfold in_group. simpl.
  destruct (bool_decide (is_Some _)); simpl; case_bool_decide; simpl; split_and!; done || lia.
Qed.
Lemma revoke_groups_inv k d g r' :
  authorization_groups (revoke_statements k d) !! g = Some r' ->
  is_Some (authorization_groups d !! g).
Proof.
  unfold revoke_statements. simpl. rewrite map_lookup_imap, lookup_update_where.
  destruct (authorization_groups d !! g); [eauto|done].
Qed.

Lemma revoke_device_cases k d n r' :
  devices (revoke_statements k d) !! n = Some r' ->
  exists r, devices d !! n = Some r /\ device_evolves r r' /\
    (n <> k -> revoked r' = revoked r) /\ (n = k -> revoked r' = true).
Proof.
  rewrite revoke_devices. destruct (devices d !! n) as [r|]; [|done]. intros [= <-].
  exists r. split; [done|].
  assert (device_evolves r (if shares_group k n d then bump_device r else r)) as He.
  { destruct (shares_group _ _ _); [apply bump_evolves|reflexivity]. }
  assert (revoked (if shares_group k n d then bump_device r else r) = revoked r) as Hr
    by by destruct (shares_group _ _ _).
  revert He Hr. generalize (if shares_group k n d then bump_device r else r) as r1.
  intros r1 He Hr. case_bool_decide; simpl; [|by split_and!].
  destruct (revoked r1) eqn:Hrev; simpl; split_and!; try done.
  etrans; [exact He|apply revoke_evolves].
Qed.

Lemma revoke_statements_step k d :
  registry_step d (revoke_statements k d).
Proof.
  split.
  - split_and!; try (unfold revoke_statements; simpl; reflexivity).
    + intros n r Hr. pose proof (revoke_devices k d n) as Hd. rewrite Hr in Hd. simpl in Hd.
      eexists. split; [exact Hd|]. by apply revoke_device_cases in Hd as (r0 & Hr0 & He & _); simplify_eq.
    + intros g r Hr. destruct (revoke_groups k d g r Hr) as (r' & Hr' & ? & ? & Hgen & _).
      exists r'. split; [done|]. split_and!; try done; [|lia]. destruct (in_group _ _ _); lia.
  - intros [Hm Hl Hc Hd Hnm Ht Hb]. split.
    + intros g n l. rewrite revoke_members. case_bool_decide as Hn; [done|]. intros Hg.
      destruct (Hm _ _ _ Hg) as ([gr Hgr] & r & Hr & Hrev).
      destruct (revoke_groups k d g gr Hgr) as (gr' & Hgr' & _). split; [eauto|].
      pose proof (revoke_devices k d n) as Hd'. rewrite Hr in Hd'. simpl in Hd'.
      eexists. split; [exact Hd'|].
      apply revoke_device_cases in Hd' as (r0 & Hr0 & _ & Hk & _). simplify_eq.
      rewrite Hk; done.
    + intros g n n' l. rewrite !revoke_members. case_bool_decide; [done|].
      case_bool_decide; [done|]. apply Hl.
    + intros g r' Hg. destruct (revoke_groups_inv _ _ _ _ Hg) as [r Hr].
      destruct (revoke_groups k d g r Hr) as (r2 & Hr2 & _ & _ & _ & _ & Hco). simplify_eq.
      case_bool_decide as Hk.
      * destruct (next_coordinator_spec g (authorization_members (revoke_statements k d)))
          as [[Hn Hnone]|(l & Hin & _)]; rewrite Hco; eauto.
      * destruct (Hc _ _ Hr) as [[l Hin]|[He Hnone]]; rewrite Hco.
        -- left. exists l. rewrite revoke_members. by rewrite bool_decide_eq_false_2.
        -- right. split; [done|]. intros n. rewrite revoke_members. by case_bool_decide.
    + intros n r' (r & Hr & He & _)%revoke_device_cases. destruct (Hd _ _ Hr) as [Hu Hp].
      destruct He as (Eu & _ & _ & _ & _ & _ & Hge). rewrite Eu. split; [done|lia].
    + intros n n' r1 r2 (s1 & Hs1 & E1 & _)%revoke_device_cases
        (s2 & Hs2 & E2 & _)%revoke_device_cases Hu Hdv.
      destruct E1 as (? & ? & _), E2 as (? & ? & _). apply (Hnm _ _ _ _ Hs1 Hs2); congruence.
    + intros g t Hg. destruct (Ht _ _ Hg) as [Hu Hk]. split; [done|]. intros n Hn.
      destruct (Hk _ Hn) as (r & Hr & Hru). pose proof (revoke_devices k d n) as Hd'.
      rewrite Hr in Hd'. simpl in Hd'. eexists. split; [exact Hd'|].
      apply revoke_device_cases in Hd' as (r0 & Hr0 & (Eu & _) & _). simplify_eq. congruence.
    + exact Hb.
Qed.
End revoke.

Section revoke_handler.
Context `{NKeys} `{MlsPackages} `{Postcard Envelope} `{Postcard RegistrationPayload}
  `{Sha256} `{Base32} `{Json AuditRecord} `{Json Kind} `{Pages AuthDb}.

Lemma revoke_step cap k dr : keeps registry_step (revoke cap k dr).
Proof.
  unfold revoke. apply transaction_step. keeps_auto.
  apply keeps_modify. intros d. apply revoke_statements_step.
Qed.

(** What a successful revocation of an active device committed. *)
Lemma revoke_Ok cap k dr d d' :
  revoke cap k dr d = (Ok tt, d') ->
  (same_registry d d' /\ forall r, devices d !! k = Some r -> revoked r = true) \/
  (same_registry (revoke_statements k d) d' /\
   exists r, devices d !! k = Some r /\ revoked r = false).
Proof.
  unfold revoke. intros (_ & d1 & Hrun & _ & ->)%transaction_Ok.
  apply bind_Ok in Hrun as (active & s1 & [-> ->]%gets_Ok & Hrun).
  change (devices (set_autocommit false d)) with (devices d) in Hrun.
  destruct (devices d !! k) as [r|] eqn:Hr.
  2: { apply ret_Ok in Hrun as [_ ->]. by left. }
  destruct (revoked r) eqn:Hrev; simpl in Hrun.
  { apply ret_Ok in Hrun as [_ ->]. left. split; [done|]. congruence. }
  right. split; [|eauto].
  apply bind_Ok in Hrun as ([] & s1 & ->%modify_Ok & Hrun).
  match type of Hrun with ?m ?s = _ =>
    assert (keeps same_registry m) as Hk by keeps_auto; pose proof (Hk s) as Hs end.
  rewrite Hrun in Hs. exact Hs.
Qed.

Lemma authorize_revoked k d r :
  devices d !! k = Some r -> revoked r = true -> is_ok (authorize k d) = false.
Proof.
  intros Hk Hr. unfold authorize. rewrite Hk. simpl. rewrite Hr, andb_false_r. done.
Qed.
Lemma authorize_unknown k d : devices d !! k = None -> is_ok (authorize k d) = false.
Proof. intros Hk. unfold authorize. by rewrite Hk. Qed.

(** C1. Revocation takes effect at once and completely. After a successful
    [revoke], on tables that were consistent, the device can no longer be
    authorized, is a member and a coordinator of no group; every group it was in
    has a new generation and no accepted last update (an earlier signed policy
    cannot be replayed), and every device that shared a group with it has a new
    authorization generation, so credentials issued before are stale. *)
Theorem revoke_effective cap k dr d d' :
  registry_wf d -> k <> EmptyString -> revoke cap k dr d = (Ok tt, d') ->
  is_ok (authorize k d') = false /\
  (forall g, authorization_members d' !! (g, k) = None) /\
  (forall g r, authorization_groups d' !! g = Some r -> coordinator r <> k) /\
  (forall g l r, authorization_members d !! (g, k) = Some l ->
     authorization_groups d !! g = Some r ->
     exists r', authorization_groups d' !! g = Some r' /\
       generation r' = generation r + 1 /\ last_update r' = []) /\
  (forall g n l l' r, n <> k -> authorization_members d !! (g, k) = Some l ->
     authorization_members d !! (g, n) = Some l' -> devices d !! n = Some r ->
     exists r', devices d' !! n = Some r' /\
       authorization_generation r' = authorization_generation r + 1).
Proof.
  intros Hwf Hk [[Hs Hrev]|[Hs (r & Hr & Hact)]]%revoke_Ok.
  - pose proof Hs as (_ & _ & _ & _ & Hd & Hg & Hm). rewrite Hd, Hg, Hm.
    assert (forall g, authorization_members d !! (g, k) = None) as Hnone.
    { intros g. destruct (authorization_members d !! (g, k)) eqn:E; [|done].
      destruct (wf_members d Hwf _ _ _ E) as (_ & r & Hr & Hx). rewrite (Hrev _ Hr) in Hx. done. }
    split_and!; try done.
    + destruct (devices d !! k) as [r|] eqn:E.
      * apply (authorize_revoked k d' r); [by rewrite Hd|eauto].
      * apply authorize_unknown. by rewrite Hd.
    + intros g r Hg' Hc. destruct (wf_coordinator d Hwf _ _ Hg') as [[l Hl]|[He _]].
      * rewrite Hc, Hnone in Hl. done.
      * congruence.
    + intros g l r Hl. by rewrite Hnone in Hl.
    + intros g n l l' r _ Hl. by rewrite Hnone in Hl.
  - pose proof Hs as (_ & _ & _ & _ & Hd & Hg & Hm). rewrite Hd, Hg, Hm.
    assert (forall g, authorization_members (revoke_statements k d) !! (g, k) = None) as Hnone.
    { intros g. rewrite revoke_members. by rewrite bool_decide_eq_true_2. }
    pose proof (proj2 (revoke_statements_step k d) Hwf) as Hwf'.
    split_and!; try done.
    + destruct (devices d' !! k) as [r'|] eqn:E; [|by apply authorize_unknown].
      rewrite Hd in E. pose proof E as E'. apply revoke_device_cases in E' as (_ & _ & _ & _ & Ht).
      apply (authorize_revoked k d' r'); [by rewrite Hd|auto].
    + intros g r' Hg' Hc. destruct (wf_coordinator _ Hwf' _ _ Hg') as [[l Hl]|[He _]].
      * rewrite Hc, Hnone in Hl. done.
      * congruence.
    + intros g l r0 Hl Hg'. destruct (revoke_groups k d g r0 Hg') as (r' & ? & _ & _ & Hgen & Hlu & _).
      assert (in_group k g d = true) as Hin by (apply bool_decide_eq_true_2; eauto).
      rewrite Hin in *. eauto.
    + intros g n l l' r0 Hn Hl Hl' Hr0. rewrite revoke_devices, Hr0. simpl.
      assert (shares_group k n d = true) as -> by (apply shares_group_true; eauto).
      rewrite bool_decide_eq_false_2 by done. simpl. eauto.
Qed.

(** ** Revocation does not depend on the audit trail *)

Definition same_commit (d d' : AuthDb) : Prop := commit_ok d' = commit_ok d.
#[local] Instance same_commit_preorder : PreOrder same_commit.
Proof. split; [by intros d|]. unfold same_commit. intros d1 d2 d3 ? ?. congruence. Qed.

Lemma repair_commit cap ev dr : keeps same_commit (repair cap ev dr).
Proof.
  assert (keeps same_commit mark_degraded) as Hmark.
  { intros d. unfold mark_degraded. by destruct (_ && _). }
  assert (forall k p, keeps same_commit (insert_event k p)) as Hins.
  { intros k p d. unfold insert_event. destruct (_ <=? _); [|done]. by destruct (insert_row _ _ _). }
  assert (forall f, keeps same_commit (modify (set_state f))) as Hset by by intros f d.
  assert (keeps same_commit info) as Hinfo by by intros d.
  unfold repair, append, append_operation. keeps_auto; eauto.
Qed.

Lemma repair_returns cap ev dr d : exists d', repair cap ev dr d = (Ok tt, d').
Proof.
  unfold repair. generalize (append ev true dr ;;; check_database cap true) as m. intros m.
  unfold savepoint, bind. destruct (m d) as [[[]|e] d1]; simpl; [by eexists|].
  unfold mark_degraded. destruct (_ && _); by eexists.
Qed.

(** C31. A full, degraded or failing audit trail cannot block a revocation: as long
    as the database accepts commits and is within its page budget (reserve
    included), [revoke] succeeds whatever the audit tables hold and whatever the
    random source, the clock and the serializer return. *)
Theorem revoke_not_blocked_by_audit cap k dr d :
  autocommit d = true -> commit_ok d = true ->
  (forall db, check_database_pure cap true db = Ok tt) ->
  exists d', revoke cap k dr d = (Ok tt, d').
Proof.
  intros Ha Hc Hpages. unfold revoke, transaction. rewrite Ha.
  unfold bind at 1, gets. destruct (negb _); simpl.
  - simpl in Hc. rewrite Hc. eauto.
  - unfold bind at 1, modify. unfold bind at 1, attempt.
    destruct (reference _ _ _) as [res d1] eqn:Href.
    assert (d1 = revoke_statements k (set_autocommit false d)) as ->.
    { revert Href. unfold reference, bind, gets, lift. destruct (ok_or _ _); by intros [=]. }
    unfold bind at 1.
    match goal with |- context [repair cap ?ev dr ?s] =>
      destruct (repair_returns cap ev dr s) as [d2 Hr];
      pose proof (repair_commit cap ev dr s) as Hcm; rewrite Hr in Hcm |- * end.
    unfold check_database. rewrite Hpages.
    assert (commit_ok d2 = true) as Hc2 by (etrans; [exact Hcm|exact Hc]). simpl in *.
    rewrite Hc2. eauto.
Qed.
End revoke_handler.
