(* ===== verification/PolicyFacts.v ===== *)
(** * Properties of group authorization

    What an accepted policy update requires and does, that a rejected one does
    nothing, and the invariant of the whole registry under every handler. *)
From stdpp Require Import sorting.
From S2P Require Import Prelude External Wire AuthDb Capacity AuditTrail Identity Registry Policy RegistryFacts.

(** ** The loop that installs the members *)

Definition install (gid : string) (ms : list Member) : M AuthDb unit :=
  for_each ms (fun m =>
    insert_member gid (nkey m) (leaf m) ;;;
    modify (set_devices (alter bump_device (nkey m)))).

(** The tables a policy update does not touch. *)
Definition same_rest (d d' : AuthDb) : Prop :=
  schema d' = schema d /\ users d' = users d /\ identity_bindings d' = identity_bindings d /\
  enrollment_tokens d' = enrollment_tokens d.

Definition leaves_unique (d : AuthDb) : Prop :=
  forall g k k' l, authorization_members d !! (g, k) = Some l ->
    authorization_members d !! (g, k') = Some l -> k = k'.

Lemma install_Ok gid ms d d' :
  install gid ms d = (Ok tt, d') ->
  same_rest d d' /\ authorization_groups d' = authorization_groups d /\
  (forall g n l, authorization_members d' !! (g, n) = Some l <->
     authorization_members d !! (g, n) = Some l \/
     (g = gid /\ {| nkey := n; leaf := l |} ∈ ms)) /\
  (forall n, devices d' !! n =
     (if bool_decide (n ∈ nkey <$> ms) then bump_device else id) <$> devices d !! n) /\
  (forall m, m ∈ ms -> authorization_members d !! (gid, nkey m) = None) /\
  (leaves_unique d -> leaves_unique d').
Proof.
  revert d; induction ms as [|m ms IH]; intros d Hrun; simpl in Hrun.
  { apply ret_Ok in Hrun as [_ ->]. split_and!; try done.
    - intros g n l. split; [by left|]. intros [?|[_ Hin]]; [done|].
      by apply not_elem_of_nil in Hin.
    - intros n. rewrite bool_decide_eq_false_2 by apply not_elem_of_nil. by rewrite map_fmap_id || by destruct (devices d !! n).
    - intros m Hin. by apply not_elem_of_nil in Hin. }
  apply bind_Ok in Hrun as ([] & d2 & Hstep & Hrun).
  apply bind_Ok in Hstep as ([] & d1 & (Hg & [rm Hrm] & Hfresh & Hleaf & ->)%insert_member_Ok & ->%modify_Ok).
  apply IH in Hrun as (Hrest & Hgr & Hmem & Hdev & Hnone & Huniq). simpl in *.
  assert (nkey m ∉ nkey <$> ms) as Hnotin.
  { intros (m' & Em & Hin)%list_elem_of_fmap. specialize (Hnone _ Hin). rewrite <- Em in Hnone.
    by rewrite lookup_insert_eq in Hnone. }
  split_and!; try done.
  - intros g n l. rewrite Hmem, elem_of_cons. split.
    + intros [[[[= <- <-] <-]|[_ Hl]]%lookup_insert_Some|[-> Hin]]; auto.
      right. split; [done|]. left. by destruct m.
    + intros [Hl|[-> [<-|Hin]]].
      * left. rewrite lookup_insert_ne; [done|]. congruence.
      * left. by rewrite lookup_insert_eq.
      * auto.
  - intros n. rewrite Hdev. destruct (decide (n = nkey m)) as [->|Hn].
    + rewrite lookup_alter_eq, Hrm. rewrite bool_decide_eq_false_2 by done.
      rewrite bool_decide_eq_true_2 by by left. done.
    + rewrite lookup_alter_ne by done. f_equal.
      destruct (decide (n ∈ nkey <$> ms)) as [Hin|Hin].
      * rewrite !bool_decide_eq_true_2; [done|by right|done].
      * rewrite !bool_decide_eq_false_2; [done| |done]. simpl.
        intros [?|?]%elem_of_cons; done.
  - intros m' [->|Hin]%elem_of_cons; [done|]. specialize (Hnone _ Hin).
    by apply lookup_insert_None in Hnone as [? _].
  - intros Hu. apply Huniq. intros g k k' l; simpl.
    intros [[E1 F1]|[N1 H1]]%lookup_insert_Some [[E2 F2]|[N2 H2]]%lookup_insert_Some;
      simplify_eq; try done.
    + by destruct (Hleaf k').
    + by destruct (Hleaf k).
    + by eapply Hu.
Qed.

(** ** The members a policy may list *)

Section policy_facts.
Context `{NKeys} `{MlsPackages} `{Postcard Envelope} `{Postcard RegistrationPayload}
  `{Postcard PolicyUpdate} `{Sha256} `{Base32} `{Json AuditRecord} `{Json Kind} `{Pages AuthDb}.

Lemma authorize_Ok k d a :
  authorize k d = Ok a ->
  exists r u, devices d !! k = Some r /\ ready r = true /\ revoked r = false /\
    users d !! dev_user_id r = Some u /\ enabled u = true /\
    auth_nkey a = k /\ auth_device a = dev_device_id r /\
    auth_generation a = authorization_generation r /\ 0 < authorization_generation r /\
    exists reg, decode (registration r) = Ok (Body.Register reg) /\
      verify_signature reg = Ok tt /\ nats_public_key (payload reg) = k /\
      user_id (payload reg) = dev_user_id r /\ device_id (payload reg) = dev_device_id r.
Proof.
  unfold authorize. destruct (devices d !! k) as [r|] eqn:Hr; [|done]. simpl.
  destruct (_ && _) eqn:Hc; [|done]. simpl. destruct (0 <=? _); [|done]. simpl. intros Ha.
  inv_ok. destruct a0; try done. inv_ok. bool_prop.
  destruct (users d !! dev_user_id r) as [u|] eqn:Hu; [|done].
  exists r, u. split_and!; try done. eexists. split_and!; done.
Qed.

Lemma check_members_Ok d keys prev ms keys' :
  check_members d keys prev ms = Ok keys' ->
  Forall (fun m => is_ok (authorize (nkey m) d) = true) ms /\
  NoDup (nkey <$> ms) /\
  StronglySorted Z.lt (match prev with Some l => [l] | None => [] end ++ (leaf <$> ms)) /\
  (forall n, n ∈ keys' <-> n ∈ keys \/ n ∈ nkey <$> ms) /\
  Forall (fun m => nkey m ∉ keys) ms.
Proof.
  revert keys prev; induction ms as [|m ms IH]; intros keys prev Hc; simpl in Hc.
  { inv_ok. split_and!; try constructor.
    - destruct prev; repeat constructor.
    - by left.
    - intros [?|Hin]; [done|]. by apply not_elem_of_nil in Hin. }
  inv_ok. bool_prop.
  match goal with Hx : check_members _ _ _ _ = Ok _ |- _ =>
    apply IH in Hx as (Hall & Hnd & Hs & Hin & Hfresh) end.
  match goal with Hx : authorize _ _ = Ok _ |- _ => rename Hx into Ha end.
  split_and!.
  - constructor; [|done]. by rewrite Ha.
  - simpl. constructor; [|done]. intros (m' & Em & Hm')%list_elem_of_fmap.
    apply list_elem_of_In in Hm'. apply (proj1 (Forall_forall _ _) Hfresh) in Hm'. set_solver.
  - destruct prev as [l|]; simpl in *; [|done]. bool_prop.
    apply StronglySorted_inv in Hs as [Hs Hf]. constructor; [by constructor|].
    constructor; [done|]. eapply Forall_impl; [|exact Hf]. intros x Hx. simpl in Hx. lia.
  - intros n. rewrite Hin. simpl. rewrite elem_of_cons. set_solver.
  - constructor; [done|]. eapply Forall_impl; [|exact Hfresh]. intros x Hx. simpl in Hx. set_solver.
Qed.

(** ** The statements of an accepted change *)

Lemma policy_statements_Ok u encoded rnd d d' :
  policy_statements u encoded rnd d = (Ok tt, d') ->
  same_rest d d' /\
  (forall g n l, authorization_members d' !! (g, n) = Some l <->
     if decide (g = pu_gid u) then {| nkey := n; leaf := l |} ∈ members u
     else authorization_members d !! (g, n) = Some l) /\
  (exists row, authorization_groups d' = <[pu_gid u := row]> (authorization_groups d) /\
     generation row = expected_generation u + 1 /\ epoch row = pu_epoch u /\
     coordinator row = signer u /\ last_update row = encoded /\
     forall old, authorization_groups d !! pu_gid u = Some old -> group_ref row = group_ref old) /\
  (forall n, devices d' !! n =
     (fun r =>
       let r := if bool_decide (is_Some (authorization_members d !! (pu_gid u, n)))
                then bump_device r else r in
       if bool_decide (n ∈ nkey <$> members u) then bump_device r else r) <$> devices d !! n) /\
  (leaves_unique d -> leaves_unique d').
Proof.
  unfold policy_statements. intros Hrun.
  apply bind_Ok in Hrun as ([] & d1 & ->%modify_Ok & Hrun).
  apply bind_Ok in Hrun as ([] & d1 & ->%modify_Ok & Hrun).
  apply bind_Ok in Hrun as ([] & d1 & ->%modify_Ok & Hrun).
  fold (install (pu_gid u) (members u)) in Hrun.
  apply install_Ok in Hrun as (Hrest & Hg & Hm & Hd & _ & Huniq). simpl in *.
  split_and!; [exact Hrest| | | |].
  - intros g n l. rewrite Hm, lookup_delete_where_Some.
    destruct (decide (g = pu_gid u)) as [->|Hne].
    + rewrite bool_decide_eq_true_2 by done. naive_solver.
    + rewrite bool_decide_eq_false_2 by done. naive_solver.
  - eexists. split; [exact Hg|]. split_and!; try done. intros old Ho. simpl. by rewrite Ho.
  - intros n. rewrite Hd, lookup_update_where. destruct (devices d !! n); [|done]. simpl.
    by destruct (bool_decide (n ∈ _)).
  - intros Hu. apply Huniq. intros g k k' l [? _]%lookup_delete_where_Some
      [? _]%lookup_delete_where_Some. by eapply Hu.
Qed.

Lemma policy_statements_step u encoded rnd d d' keys :
  policy_statements u encoded rnd d = (Ok tt, d') ->
  check_members d ∅ None (members u) = Ok keys -> signer u ∈ keys ->
  policy_precondition u encoded d = Ok None ->
  registry_step d d'.
Proof.
  intros Hrun Hc Hsig Hpre. apply check_members_Ok in Hc as (Hauth & _ & _ & Hkeys & _).
  apply policy_statements_Ok in Hrun as ((Hs & Hu & Hb & Ht) & Hm & (row & Hg & Egen & Eep & Eco & _ & Eref)
    & Hd & Huniq).
  assert (forall n r', devices d' !! n = Some r' -> exists r, devices d !! n = Some r /\
            device_evolves r r' /\ revoked r' = revoked r) as Hinv.
  { intros n r'. rewrite Hd. destruct (devices d !! n) as [r|]; [|done]. intros [= <-].
    exists r. split; [done|]. destruct (bool_decide _), (bool_decide _); split; try done;
      split_and!; simpl; done || lia. }
  assert (forall n r, devices d !! n = Some r -> exists r', devices d' !! n = Some r' /\
            device_evolves r r' /\ revoked r' = revoked r) as Hfwd.
  { intros n r Hr. specialize (Hd n). rewrite Hr in Hd. simpl in Hd. eexists. split; [exact Hd|].
    apply Hinv in Hd as (r0 & Hr0 & ?). by simplify_eq. }
  split.
  - unfold evolves. rewrite Ht, Hu, Hb, Hg. split_and!; try reflexivity.
    + intros n r Hr. destruct (Hfwd _ _ Hr) as (r' & ? & ? & _). eauto.
    + apply rows_evolve_insert; [apply _|]. intros old Ho.
      unfold policy_precondition in Hpre. rewrite Ho in Hpre. inv_ok.
      unfold u64_column in *. destruct (0 <=? generation old); [|done].
      destruct (0 <=? epoch old); [|done]. inv_ok. destruct (_ && _); [done|]. inv_ok. bool_prop.
      split_and!; [lia|lia|]. by apply Eref.
  - intros [Wm Wl Wc Wd Wn Wt Wb]. split.
    + intros g n l Hl. apply Hm in Hl. rewrite Hg. destruct (decide (g = pu_gid u)) as [->|Hne].
      * rewrite lookup_insert_eq. split; [eauto|].
        apply list_elem_of_In in Hl. apply (proj1 (Forall_forall _ _) Hauth) in Hl. simpl in Hl.
        destruct (authorize n d) eqn:Ha; [|done]. apply authorize_Ok in Ha as (r & _ & Hr & _ & Hrev & _).
        destruct (Hfwd _ _ Hr) as (r' & ? & _ & E). exists r'. split; congruence.
      * rewrite lookup_insert_ne by done. destruct (Wm _ _ _ Hl) as (? & r & Hr & Hrev).
        split; [done|]. destruct (Hfwd _ _ Hr) as (r' & ? & _ & E). exists r'. split; congruence.
    + by apply Huniq.
    + intros g r. rewrite Hg. intros [[<- <-]|[Hne Hr]]%lookup_insert_Some.
      * left. rewrite Eco. apply Hkeys in Hsig as [?|(m & Em & Hin)%list_elem_of_fmap]; [set_solver|].
        exists (leaf m). apply Hm. rewrite decide_True by done. rewrite Em. by destruct m.
      * destruct (Wc _ _ Hr) as [[l Hl]|[He Hnone]].
        -- left. exists l. apply Hm. by rewrite decide_False.
        -- right. split; [done|]. intros k. destruct (authorization_members d' !! (g, k)) eqn:E; [|done].
           apply Hm in E. rewrite decide_False in E by done. by rewrite Hnone in E.
    + intros n r' (r & Hr & He & _)%Hinv. destruct (Wd _ _ Hr). rewrite Hu.
      destruct He as (Eu & _ & _ & _ & _ & _ & ?). rewrite Eu. split; [done|lia].
    + intros n n' r1 r2 (s1 & Hs1 & (? & ? & _) & _)%Hinv (s2 & Hs2 & (? & ? & _) & _)%Hinv ? ?.
      apply (Wn _ _ _ _ Hs1 Hs2); congruence.
    + rewrite Ht, Hu. intros g t Hgt. destruct (Wt _ _ Hgt) as [? Hk]. split; [done|].
      intros n Hn. destruct (Hk _ Hn) as (r & Hr & ?). destruct (Hfwd _ _ Hr) as (r' & ? & (E & _) & _).
      exists r'. split; congruence.
    + rewrite Hb, Hu. exact Wb.
Qed.

(** ** The transaction *)

Lemma policy_evidence_registry cap u red dr : keeps same_registry (policy_evidence cap u red dr).
Proof. unfold policy_evidence. keeps_auto. Qed.

(** A successful run: a replay that changes nothing, or one change. *)
Lemma policy_body_Ok cap u encoded rnd dr d gen d' :
  policy_body cap u encoded rnd dr d = (Ok gen, d') ->
  is_ok (authorize (signer u) d) = true /\
  exists keys, check_members d ∅ None (members u) = Ok keys /\
    ((policy_precondition u encoded d = Ok (Some gen) /\ d' = d) \/
     (policy_precondition u encoded d = Ok None /\ signer u ∈ keys /\
      gen = expected_generation u + 1 /\
      exists d1, policy_statements u encoded rnd d = (Ok tt, d1) /\ same_registry d1 d')).
Proof.
  unfold policy_body. intros Hrun. apply bind_Ok in Hrun as (db & s1 & [-> ->]%gets_Ok & Hrun).
  apply bind_Ok in Hrun as (a & s1 & [Ha ->]%lift_Ok & Hrun). unfold id in *.
  apply bind_Ok in Hrun as (keys & s1 & [Hk ->]%lift_Ok & Hrun).
  apply bind_Ok in Hrun as (cur & s1 & [Hp ->]%lift_Ok & Hrun).
  split; [by rewrite Ha|]. exists keys. split; [done|]. destruct cur as [g|].
  - left. by apply ret_Ok in Hrun as [-> ->].
  - right. apply bind_Ok in Hrun as ([] & s1 & [Hs ->]%ensure_Ok & Hrun). bool_prop.
    apply bind_Ok in Hrun as ([] & d1 & Hst & Hrun).
    apply bind_Ok in Hrun as ([] & d2 & Hev & [-> ->]%ret_Ok).
    split_and!; try done. exists d1. split; [done|].
    pose proof (policy_evidence_registry cap u (is_reducing u d) dr d1) as Hr.
    by rewrite Hev in Hr.
Qed.

Lemma policy_transaction_step cap u encoded rnd dr :
  keeps registry_step (transaction (policy_body cap u encoded rnd dr)).
Proof.
  intros d. destruct (transaction _ d) as [[gen|e] d'] eqn:Hrun.
  2: { apply transaction_Err in Hrun as ->. reflexivity. }
  apply transaction_Ok in Hrun as (_ & d1 & Hrun & _ & ->). simpl.
  transitivity d1; [|by apply same_registry_step].
  transitivity (set_autocommit false d); [by apply same_registry_step|].
  apply policy_body_Ok in Hrun as (_ & keys & Hk & [[_ ->]|(Hp & Hs & _ & d2 & Hst & Hsame)]).
  - reflexivity.
  - etrans; [|by apply same_registry_step]. by eapply policy_statements_step.
Qed.

Lemma on_db_step {A} (m : M AuthDb A) r :
  keeps registry_step m -> registry_step (reg_db r) (reg_db (snd (on_db m r))).
Proof. intros Hm. unfold on_db. specialize (Hm (reg_db r)). by destruct (m (reg_db r)). Qed.

Definition reg_step (r r' : AuthRegistry) : Prop := registry_step (reg_db r) (reg_db r').
#[global] Instance reg_step_preorder : PreOrder reg_step.
Proof. split; [intros r; apply (reflexivity (R := registry_step))|]. intros a b c. apply (transitivity (R := registry_step)). Qed.

Lemma principal_allow_db k now r : reg_db (snd (principal_allow k now r)) = reg_db r.
Proof.
  unfold principal_allow, bind, gets, ensure. destruct (_ || _); [|done].
  destruct (allow _ _) as [b l]. simpl. by destruct b.
Qed.

Lemma apply_policy_inner_step signed now rnd dr :
  keeps reg_step (apply_policy_inner signed now rnd dr).
Proof.
  assert (forall A (m : M AuthDb A), keeps registry_step m -> keeps reg_step (on_db m)) as Hon.
  { intros A m Hm r. by apply on_db_step. }
  unfold apply_policy_inner. keeps_auto.
  - apply Hon. intros d. reflexivity.
  - intros r. unfold reg_step. rewrite principal_allow_db. reflexivity.
  - apply Hon, policy_transaction_step.
Qed.

Lemma apply_policy_step signed now rnd dr dr' :
  keeps reg_step (apply_policy signed now rnd dr dr').
Proof.
  assert (forall A (m : M AuthDb A), keeps registry_step m -> keeps reg_step (on_db m)) as Hon.
  { intros A m Hm r. by apply on_db_step. }
  unfold apply_policy. keeps_auto. { apply apply_policy_inner_step. }
  apply Hon. keeps_auto.
Qed.

(** ** An accepted update *)

Lemma on_db_Ok {A} (m : M AuthDb A) r a r' :
  on_db m r = (Ok a, r') -> exists d', m (reg_db r) = (Ok a, d') /\ r' = set_reg_db d' r.
Proof. unfold on_db. destruct (m (reg_db r)) as [x d']. intros [= -> <-]. eauto. Qed.

(** The guards of [apply_policy_inner] and the transaction it ran. *)
Lemma apply_policy_inner_Ok signed now rnd dr r gen r' :
  apply_policy_inner signed now rnd dr r = (Ok gen, r') ->
  let u := update signed in
  pu_version u = 1 /\ validate_gid (pu_gid u) = Ok tt /\ 1 <= zlen (members u) <= 128 /\
  (exists b, policy_bytes u = Ok b /\ nkey_verifies (signer u) b (sp_signature signed) = true) /\
  exists encoded d', to_allocvec u = Ok encoded /\
    transaction (policy_body (reg_capacity r) u encoded rnd dr) (reg_db r) = (Ok gen, d') /\
    reg_db r' = d' /\ reg_capacity r' = reg_capacity r.
Proof.
  unfold apply_policy_inner. intros Hrun.
  apply bind_Ok in Hrun as ([] & s1 & [Hv ->]%ensure_Ok & Hrun).
  apply bind_Ok in Hrun as ([] & s1 & [Hgid ->]%lift_Ok & Hrun).
  apply bind_Ok in Hrun as ([] & s1 & [Hsz ->]%ensure_Ok & Hrun).
  apply bind_Ok in Hrun as ([] & s1 & [_ ->]%ensure_Ok & Hrun).
  apply bind_Ok in Hrun as ([] & s1 & [Hsig ->]%lift_Ok & Hrun).
  apply bind_Ok in Hrun as (a & s1 & Ha & Hrun).
  apply on_db_Ok in Ha as (d1 & [= _ <-] & ->).
  apply bind_Ok in Hrun as ([] & s1 & Hpa & Hrun).
  apply bind_Ok in Hrun as (enc & s2 & [He ->]%lift_Ok & Hrun).
  apply bind_Ok in Hrun as (cap & s2 & [-> ->]%gets_Ok & Hrun).
  apply on_db_Ok in Hrun as (d' & Hrun & ->). bool_prop.
  pose proof (principal_allow_db (signer (update signed)) now (set_reg_db (reg_db r) r)) as Hdb.
  assert (reg_capacity s1 = reg_capacity r) as Hcap.
  { revert Hpa. unfold principal_allow, bind, gets, ensure. destruct (_ || _); [|done].
    destruct (allow _ _) as [b l]. destruct b; by intros [= <-]. }
  rewrite Hpa in Hdb. simpl in Hdb. rewrite Hdb, Hcap in Hrun.
  assert (1 <= zlen (members (update signed))).
  { destruct (members (update signed)); [done|]. unfold zlen. simpl. lia. }
  split_and!; try done.
  - inv_ok. eexists. split; [done|]. unfold verify_with in Hk0. inv_ok.
    by destruct (nkey_verifies _ _ _).
  - exists enc, d'. simpl. split_and!; done.
Qed.

(** C6. What an accepted policy update means. If [apply_policy] returns a
    generation, the update carried a signature of its signer over its exact
    bytes, the signer and every listed device were authorized, and either it was
    an exact replay of the last accepted update, which changes no registry table,
    or: the group was new and holds only its creator, or the signer was its
    coordinator, the update named the group's current generation and a strictly
    newer epoch; the group now has the next generation, the update's epoch and
    exactly the listed members on their leaves; and every device that was or
    became a member has a new authorization generation. *)
Theorem policy_applied signed now rnd dr dr' r gen r' :
  apply_policy signed now rnd dr dr' r = (Ok gen, r') ->
  let u := update signed in let d := reg_db r in let d' := reg_db r' in
  (exists b, policy_bytes u = Ok b /\ nkey_verifies (signer u) b (sp_signature signed) = true) /\
  is_ok (authorize (signer u) d) = true /\
  Forall (fun m => is_ok (authorize (nkey m) d) = true) (members u) /\
  ((same_registry d d' /\ exists row, authorization_groups d !! pu_gid u = Some row /\
      gen = generation row /\ gen = expected_generation u + 1 /\
      to_allocvec u = Ok (last_update row)) \/
   (gen = expected_generation u + 1 /\
    match authorization_groups d !! pu_gid u with
    | Some old => coordinator old = signer u /\ generation old = expected_generation u /\
                  epoch old < pu_epoch u
    | None => members u = [{| nkey := signer u; leaf := 0 |}] /\ pu_epoch u = 0 /\ gen = 1
    end /\
    (exists row, authorization_groups d' !! pu_gid u = Some row /\ generation row = gen /\
       epoch row = pu_epoch u /\ coordinator row = signer u) /\
    (forall n l, authorization_members d' !! (pu_gid u, n) = Some l <->
       {| nkey := n; leaf := l |} ∈ members u) /\
    (forall n row, devices d !! n = Some row ->
       is_Some (authorization_members d !! (pu_gid u, n)) \/ n ∈ nkey <$> members u ->
       exists row', devices d' !! n = Some row' /\
         authorization_generation row < authorization_generation row'))).
Proof.
  intros Hrun u d d'. assert (apply_policy_inner signed now rnd dr r = (Ok gen, r')) as Hin.
  { unfold apply_policy in Hrun. apply bind_Ok in Hrun as (res & s1 & Hres%attempt_Ok & Hrun).
    apply bind_Ok in Hrun as (b & s2 & [-> ->]%gets_Ok & Hrun).
    apply bind_Ok in Hrun as ([] & s2 & Hw & [-> ->]%lift_Ok). simpl in Hw.
    apply ret_Ok in Hw as [_ ->]. done. }
  apply apply_policy_inner_Ok in Hin as (_ & _ & _ & Hsig & enc & d2 & He & Htx & Hd2 & _).
  apply transaction_Ok in Htx as (_ & d1 & Hbody & _ & ->).
  apply policy_body_Ok in Hbody as (Hauth & keys & Hk & Hcase). fold u in Hsig, He, Hauth, Hk, Hcase.
  split; [done|]. split; [done|].
  pose proof (check_members_Ok _ _ _ _ _ Hk) as (Hall & _). split; [done|].
  assert (forall d3, same_registry d3 d1 -> same_registry d3 d') as Hfinal
    by (intros d3 Hs; subst d'; rewrite Hd2; exact Hs).
  destruct Hcase as [[Hp ->]|(Hp & Hs & -> & d3 & Hst & Hsame)].
  - left. split; [by apply Hfinal|]. unfold policy_precondition in Hp. simpl in Hp.
    destruct (authorization_groups (reg_db r) !! pu_gid u) as [row|] eqn:Hrow; [|by inv_ok].
    unfold u64_column in Hp. inv_ok. destruct (0 <=? generation row); [|done].
    destruct (0 <=? epoch row); [|done]. inv_ok. destruct (_ && _) eqn:Hc; [|by inv_ok].
    inv_ok. simplify_eq. bool_prop. exists row. split_and!; try done. congruence.
  - right. split; [done|].
    apply policy_statements_Ok in Hst as (_ & Hm & (row & Hg & Eg & Ee & Ec & _) & Hd & _).
    pose proof (Hfinal _ Hsame) as (_ & _ & _ & _ & Ed & Egr & Em). rewrite Ed, Egr, Em.
    split_and!.
    + unfold policy_precondition in Hp. simpl in Hp. fold d in Hp.
      destruct (authorization_groups d !! pu_gid u) as [old|].
      * unfold u64_column in Hp. inv_ok. destruct (0 <=? generation old); [|done].
        destruct (0 <=? epoch old); [|done]. inv_ok. destruct (_ && _); [done|]. inv_ok.
        bool_prop. done.
      * inv_ok. bool_prop. destruct (members u) as [|[n l] []]; try done. bool_prop.
        simpl in *. subst. split_and!; [done..|lia].
    + exists row. rewrite Hg, lookup_insert_eq. done.
    + intros n l. rewrite Hm. by rewrite decide_True.
    + intros n row0 Hr0 Hmem. specialize (Hd n). simpl in Hd. fold d in Hd.
      rewrite Hr0 in Hd. simpl in Hd. eexists. split; [exact Hd|].
      destruct (bool_decide (is_Some _)) eqn:B1, (bool_decide (n ∈ _)) eqn:B2; simpl; try lia.
      bool_prop. by destruct Hmem.
Qed.

Lemma apply_policy_inner_Err signed now rnd dr r e r' :
  apply_policy_inner signed now rnd dr r = (Err e, r') -> reg_db r' = reg_db r.
Proof.
  assert (forall k n s s1 a, principal_allow k n s = (a, s1) -> reg_db s1 = reg_db s) as Hpa.
  { intros k n s s1 a Hp. pose proof (principal_allow_db k n s) as Hx. by rewrite Hp in Hx. }
  assert (forall s s1 (a : result DeviceAuthorization),
    on_db (fun db => (authorize (signer (update signed)) db, db)) s = (a, s1) ->
    reg_db s1 = reg_db s) as Hau by by intros s s1 a [= _ <-].
  unfold apply_policy_inner. intros Hrun. inv_err; inv_ok; try done;
    repeat match goal with
    | Hx : principal_allow _ _ _ = _ |- _ => apply Hpa in Hx
    | Hx : on_db (fun db => (authorize _ _, db)) _ = _ |- _ => apply Hau in Hx
    end; try congruence.
  unfold on_db in Hrun. destruct (transaction _ _) as [x d'] eqn:E. injection Hrun as -> <-.
  apply transaction_Err in E as ->. simpl. congruence.
Qed.

(** A rejected policy update is harmless: whatever made [apply_policy] fail
    (a guard, the limiter, a constraint, the capacity checks, the audit trail or
    the commit), no user, binding, token, device, group or membership changed. *)
Theorem policy_rejected signed now rnd dr dr' r e r' :
  apply_policy signed now rnd dr dr' r = (Err e, r') ->
  same_registry (reg_db r) (reg_db r').
Proof.
  intros Hrun. unfold apply_policy in Hrun.
  apply bind_Err in Hrun as [Hrun|(res & s1 & Hres & Hrun)]; [by apply attempt_Err in Hrun|].
  apply attempt_Ok in Hres.
  apply bind_Err in Hrun as [Hrun|(b & s2 & [-> ->]%gets_Ok & Hrun)]; [done|].
  set (R := fun r r' : AuthRegistry => same_registry (reg_db r) (reg_db r')).
  assert (PreOrder R) as HR.
  { subst R. split; [intros x; done|]. intros x y z. apply transitivity. }
  assert (forall A (m : M AuthDb A), keeps same_registry m -> keeps R (on_db m)) as Hon.
  { intros A m Hm x. unfold on_db, R. specialize (Hm (reg_db x)). by destruct (m (reg_db x)). }
  match type of Hrun with ?m ?s = _ => assert (keeps R m) as Hk end.
  { keeps_auto; apply Hon; keeps_auto. }
  assert (R s1 r') as Hlast by (specialize (Hk s1); by rewrite Hrun in Hk).
  assert (res = Err e) as ->.
  { apply bind_Err in Hrun as [Hrun|([] & s2 & _ & [Hl _]%lift_Err)]; [|done].
    revert Hrun. destruct (_ && _); simpl; [|done]. intros Hrun. inv_err; try done.
    unfold on_db in Hrun. destruct (attempt _ _) as [[x|x] y] eqn:E; [done|].
    by apply attempt_Err in E. }
  apply apply_policy_inner_Err in Hres. unfold R in Hlast. by rewrite Hres in Hlast.
Qed.

(** ** Replay of an accepted update *)

Lemma authorize_kept k d d' r r' :
  devices d !! k = Some r -> devices d' !! k = Some r' -> device_evolves r r' ->
  revoked r' = revoked r -> users d ⊆ users d' ->
  is_ok (authorize k d) = true -> is_ok (authorize k d') = true.
Proof.
  intros Hr Hr' (Eu & Ed & Eg & _ & Hrd & _ & Hge) Hrev Husers Ha.
  destruct (authorize k d) as [a|] eqn:E; [|done]. pose proof E as E'.
  apply authorize_Ok in E' as (r0 & u & Hr0 & Hready & Hact & Hu & Hen & _ & _ & _ & Hpos &
    reg & Hdec & Hsig & Hk & Hus & Hdv). simplify_eq.
  unfold authorize in E |- *. rewrite Hr in E. rewrite Hr'. simpl in *.
  rewrite (Hrd Hready), Hrev, Hact, Eu, (lookup_weaken _ _ _ _ Hu Husers), Hen. simpl.
  rewrite Hready, Hact, Hu, Hen in E. simpl in E. rewrite Eg, Ed.
  rewrite (proj2 (Z.leb_le _ _)) by lia. simpl. rewrite Hdec in *. simpl in *.
  rewrite Hsig in *. simpl in *.
  rewrite (proj2 (Z.leb_le _ _)) in E by lia. simpl in E.
  destruct (check _ "admission registration binding mismatch") as [[]|]; [|done]. simpl in *.
  rewrite (proj2 (Z.ltb_lt _ _)) by lia. rewrite (proj2 (Z.ltb_lt _ _)) in E by lia. simpl in *.
  rewrite Eu, Hus, Hdv, !bool_decide_eq_true_2 by done. simpl. by destruct (user_id_try_from _).
Qed.

Lemma check_members_kept d d' keys prev ms keys' :
  (forall m, m ∈ ms -> is_ok (authorize (nkey m) d) = true ->
     is_ok (authorize (nkey m) d') = true) ->
  check_members d keys prev ms = Ok keys' -> check_members d' keys prev ms = Ok keys'.
Proof.
  revert keys prev; induction ms as [|m ms IH]; intros keys prev Hk Hc; simpl in *; [done|].
  destruct (check _ "duplicate policy device") as [[]|]; [|done]. simpl in *.
  destruct (check _ "policy leaves must be unique and ordered") as [[]|]; [|done]. simpl in *.
  specialize (Hk m ltac:(left)) as Hm. destruct (authorize (nkey m) d); [|done]. simpl in *.
  specialize (Hm eq_refl). destruct (authorize (nkey m) d'); [|done]. simpl.
  apply IH; [|done]. intros m' Hm'. apply Hk. by right.
Qed.

(** A policy update is idempotent. Running the transaction of an accepted
    update again (its reply may have been lost) finds the stored update, returns
    the same generation and leaves the database exactly as it is: generations
    are not advanced and no evidence is written twice. *)
Theorem policy_replay cap u encoded rnd dr d gen d' :
  0 <= expected_generation u -> 0 <= pu_epoch u ->
  transaction (policy_body cap u encoded rnd dr) d = (Ok gen, d') ->
  forall rnd' dr', transaction (policy_body cap u encoded rnd' dr') d' = (Ok gen, d').
Proof.
  intros He Hep (Ha & d1 & Hrun & Hcm & ->)%transaction_Ok rnd' dr'.
  apply policy_body_Ok in Hrun as (Hauth & keys & Hk & Hcase).
  set (d2 := set_autocommit false (set_autocommit true d1)).
  assert (is_ok (authorize (signer u) d2) = true /\ check_members d2 ∅ None (members u) = Ok keys /\
          policy_precondition u encoded d2 = Ok (Some gen)) as (Ha2 & Hk2 & Hp2).
  { destruct Hcase as [[Hp ->]|(Hp & Hs & -> & d3 & Hst & Hsame)]; [done|].
    apply policy_statements_Ok in Hst as ((_ & Hu & _) & _ & (row & Hg & Eg & Ee & _ & Elu & _) & Hd & _).
    destruct Hsame as (_ & Su & _ & _ & Sd & Sg & _).
    assert (forall k, is_ok (authorize k (set_autocommit false d)) = true ->
                      is_ok (authorize k d2) = true) as Hkept.
    { intros k Hok. destruct (authorize k (set_autocommit false d)) as [a|] eqn:Ea; [|done].
      pose proof Ea as (r & _ & Hr & _)%authorize_Ok.
      specialize (Hd k). rewrite Hr in Hd. simpl in Hd. rewrite <- Sd in Hd.
      eapply (authorize_kept k (set_autocommit false d) d2 r _ Hr Hd).
      - destruct (bool_decide _), (bool_decide _); split_and!; simpl; done || lia.
      - by destruct (bool_decide _), (bool_decide _).
      - change (users d2) with (users d1). rewrite Su, Hu. reflexivity.
      - by rewrite Ea. }
    split; [by apply Hkept|]. split.
    - eapply check_members_kept; [|exact Hk]. intros m _. apply Hkept.
    - unfold policy_precondition. change (authorization_groups d2) with (authorization_groups d1).
      rewrite Sg, Hg, lookup_insert_eq. unfold u64_column. rewrite Eg, Ee, Elu.
      rewrite !(proj2 (Z.leb_le _ _)) by lia. simpl.
      by rewrite Z.eqb_refl, bool_decide_eq_true_2. }
  unfold transaction. rewrite autocommit_set. fold d2. unfold policy_body, bind, gets, lift, id.
  destruct (authorize (signer u) d2); [|done]. rewrite Hk2, Hp2. unfold ret.
  subst d2. by rewrite commit_ok_set, commit_ok_set, Hcm, !set_autocommit_set.
Qed.
End policy_facts.
