(* ===== verification/Models.v ===== *)
(** * Concrete models of the external code

    Small executable stand-ins for the interfaces of [External.v] and the
    classes of the other files, and a registry with two enrolled devices built
    with them by the handlers themselves. The witnesses of the theorems run on
    these. *)
From S2P Require Import Prelude External Wire AuthDb Capacity AuditTrail AuditFacts Identity Registry Policy.

(** Every key is a user key and accepts one signature. *)
Definition good_signature : bytes := [x01].
Definition nkeys_model : NKeys := {|
  nkey_type := fun k => if bool_decide (k = EmptyString) then None else Some UserKey;
  nkey_verifies := fun _ _ s => bool_decide (s = good_signature);
  nkey_sign := fun _ _ => Ok good_signature |}.

(** A key package whose bytes are its identity and its credential. *)
Definition packages_model : MlsPackages :=
  let parse b := Some {| package_suite_supported := true; package_credential := b;
                         package_identity := Some b; package_signature_key := b |} in
  {| validated_package := parse; unverified_package := parse |}.

(** Runs of one letter: 16 bytes are 26 letters and 32 bytes are 52. *)
Definition repeat_char (n : nat) (c : ascii) : string := String.string_of_list_ascii (repeat c n).
Definition base32_model : Base32 := {|
  base32_encode := fun l =>
    repeat_char (Z.to_nat ((zlen l * 8 + 4) / 5))
      (ascii_of_N (65 + match l with b :: _ => Byte.to_N b | [] => 0 end));
  base32_decode := fun l =>
    match l with
    | b :: _ => if forallb (fun c => bool_decide (c = b)) l
                then c ← Byte.of_N (Byte.to_N b - 65);
                     Some (repeat c (Z.to_nat (zlen l * 5 / 8)))
                else None
    | [] => None
    end |}.
Definition sha_model : Sha256 := fun b => Ok b.

Definition alice : string := "egusr-aaaaaaaaaaaaaaaaaaaaaaaaaa".
Definition sample_registration (device k : string) : DeviceRegistration := {|
  payload := {| protocol_version := 1; user_id := alice; device_id := device;
                nats_public_key := k;
                mls_credential := as_bytes (alice +:+ "/" +:+ device);
                mls_key_package := as_bytes (alice +:+ "/" +:+ device);
                reg_generation := 1; created_at := 7 |};
  reg_signature := good_signature |}.
Definition reg_a : DeviceRegistration := sample_registration "laptop" "UA".
Definition reg_b : DeviceRegistration := sample_registration "phone" "UB".

(** The envelopes that occur in the runs, by number. *)
Definition envelope_model : Postcard Envelope := {|
  to_allocvec := fun e =>
    match version e, body e with
    | 1, Body.Register r => if bool_decide (r = reg_a) then Ok [x01]
                            else if bool_decide (r = reg_b) then Ok [x02] else Err External
    | 1, Body.Welcome [x07] => Ok [x03]
    | 1, Body.Registered => Ok [x04]
    | _, _ => Err External
    end;
  take_from_bytes := fun b =>
    match b with
    | x01 :: rest => Ok ({| version := 1; body := Body.Register reg_a |}, rest)
    | x02 :: rest => Ok ({| version := 1; body := Body.Register reg_b |}, rest)
    | x03 :: rest => Ok ({| version := 1; body := Body.Welcome [x07] |}, rest)
    | x04 :: rest => Ok ({| version := 1; body := Body.Registered |}, rest)
    | _ => Err External
    end |}.
Definition payload_model : Postcard RegistrationPayload := {|
  to_allocvec := fun p => Ok (as_bytes (device_id p));
  take_from_bytes := fun _ => Err External |}.
(** An encoding of an update that tells the epochs of the runs apart. *)
Definition policy_model : Postcard PolicyUpdate := {|
  to_allocvec := fun u => Ok (repeat x01 (S (Z.to_nat (pu_epoch u))));
  take_from_bytes := fun _ => Err External |}.

#[export] Existing Instances nkeys_model packages_model base32_model sha_model envelope_model
  payload_model policy_model record_model kind_model auth_pages.

(** ** A registry with two devices and a group *)

Definition id_draw (secret : Byte.byte) : InviteDraw := {|
  id_bytes := Ok (repeat x00 16); row_reference := zeros; secret_bytes := Ok (repeat secret 32) |}.
Definition token_1 : string := "EG1." +:+ alice +:+ "." +:+ repeat_char 52 "A".
Definition token_2 : string := "EG1." +:+ alice +:+ "." +:+ repeat_char 52 "B".

Definition invited : AuthDb :=
  snd (invite default_capacity "alice" 60 (Ok 1000) (id_draw x01) draw_model
    (snd (invite default_capacity "alice" 60 (Ok 1000) (id_draw x00) draw_model fresh_trail))).
Definition enrolled_a : AuthDb :=
  snd (enroll default_capacity token_1 reg_a (Ok 1001) (Ok 1001) zeros draw_model invited).
Definition two_devices : AuthDb :=
  snd (activate default_capacity "UB" draw_model
    (snd (enroll default_capacity token_2 reg_b (Ok 1001) (Ok 1001) zeros draw_model
      (snd (activate default_capacity "UA" draw_model enrolled_a))))).

Definition gid_1 : string := "0123456789abcdef0123456789abcdef".
Definition policy_0 : SignedPolicy := {|
  update := {| pu_version := 1; pu_gid := gid_1; expected_generation := 0; pu_epoch := 0;
               signer := "UA"; members := [{| nkey := "UA"; leaf := 0 |}] |};
  sp_signature := good_signature |}.
Definition policy_1 : SignedPolicy := {|
  update := {| pu_version := 1; pu_gid := gid_1; expected_generation := 1; pu_epoch := 1;
               signer := "UA";
               members := [{| nkey := "UA"; leaf := 0 |}; {| nkey := "UB"; leaf := 1 |}] |};
  sp_signature := good_signature |}.
Definition authority_0 : AuthRegistry :=
  {| reg_db := two_devices; reg_capacity := default_capacity; principal_rates := ∅ |}.
Definition authority_1 : AuthRegistry :=
  snd (apply_policy policy_0 5 zeros draw_model draw_model authority_0).
Definition authority_2 : AuthRegistry :=
  snd (apply_policy policy_1 6 zeros draw_model draw_model authority_1).

Example invite_runs : fst (invite default_capacity "alice" 60 (Ok 1000) (id_draw x00) draw_model
  fresh_trail) = Ok token_1.
Proof. vm_compute. reflexivity. Qed.
Example two_devices_authorized :
  is_ok (authorize "UA" two_devices) && is_ok (authorize "UB" two_devices) = true.
Proof. vm_compute. reflexivity. Qed.
Example policies_apply :
  fst (apply_policy policy_0 5 zeros draw_model draw_model authority_0) = Ok 1 /\
  fst (apply_policy policy_1 6 zeros draw_model draw_model authority_1) = Ok 2.
Proof. vm_compute. split; reflexivity. Qed.
Example members_installed :
  policy_state gid_1 (reg_db authority_2) =
  Ok (Some {| ps_generation := 2; ps_epoch := 1; ps_coordinator := "UA";
              ps_members := members (update policy_1) |}).
Proof. vm_compute. reflexivity. Qed.
