(* ===== verification/RegistryHistory.v ===== *)
(** * The registry over time

    Every handler as one operation of the authority, the invariant of any
    sequence of them, and the security properties that follow: revocation is
    final and a token enrolls one device. *)
From S2P Require Import Prelude External Wire AuthDb Capacity AuditTrail AuditFacts Identity Registry Policy RegistryFacts PolicyFacts Models.

Section history.
Context `{NKeys} `{MlsPackages} `{Postcard Envelope} `{Postcard RegistrationPayload}
  `{Postcard PolicyUpdate} `{Sha256} `{Base32} `{Json AuditRecord} `{Json Kind} `{Pages AuthDb}.

Inductive reg_op : Type :=
| OpInvite (handle : string) (ttl : Z) (clock : result Z) (rnd : InviteDraw) (d : Draw)
| OpEnroll (token : string) (r : DeviceRegistration) (clock clock' : result Z) (row_ref : string)
    (d : Draw)
| OpActivate (k : string) (d : Draw)
| OpRevoke (k : string) (d : Draw)
| OpPolicy (signed : SignedPolicy) (now : Z) (row_ref : string) (d d' : Draw)
| OpAuditEvent (ev : Event) (d : Draw).

Definition run_reg_op (o : reg_op) (r : AuthRegistry) : AuthRegistry :=
  let cap := reg_capacity r in
  match o with
  | OpInvite handle ttl clock rnd d => snd (on_db (invite cap handle ttl clock rnd d) r)
  | OpEnroll token reg c c' row_ref d => snd (on_db (enroll cap token reg c c' row_ref d) r)
  | OpActivate k d => snd (on_db (activate cap k d) r)
  | OpRevoke k d => snd (on_db (revoke cap k d) r)
  | OpPolicy signed now row_ref d d' => snd (apply_policy signed now row_ref d d' r)
  | OpAuditEvent ev d => snd (on_db (audit_event cap ev d) r)
  end.
Definition run_reg_ops (ops : list reg_op) (r : AuthRegistry) : AuthRegistry :=
  foldl (fun r o => run_reg_op o r) r ops.

Lemma run_reg_op_step o r : reg_step r (run_reg_op o r).
Proof.
  destruct o; simpl; try apply on_db_step.
  - apply invite_step.
  - apply enroll_step.
  - apply activate_step.
  - apply revoke_step.
  - apply apply_policy_step.
  - eauto with keeps.
Qed.
Lemma run_reg_ops_step ops r : reg_step r (run_reg_ops ops r).
Proof.
  unfold run_reg_ops. revert r. induction ops as [|o ops IH]; intros r; simpl; [reflexivity|].
  etrans; [apply (run_reg_op_step o)|apply IH].
Qed.

(** C14. The registry stays consistent and only moves forward. After any sequence
    of handlers, failed ones included: every group member is a known device that
    is not revoked, on a leaf of its own; every coordinator is a member of its
    group; devices, tokens and bindings refer to known users; a used token refers
    to a device of its user; no device, user, binding, token or group disappears
    or changes identity; and generations and epochs never decrease. *)
Theorem registry_consistent ops r :
  registry_wf (reg_db r) ->
  registry_wf (reg_db (run_reg_ops ops r)) /\ evolves (reg_db r) (reg_db (run_reg_ops ops r)).
Proof. intros Hwf. destruct (run_reg_ops_step ops r) as [He Hw]. auto. Qed.

(** C2. Revocation is final. Once a device is revoked, no sequence of handlers
    (enrollments of the same key, activations, policies that list it) makes it
    authorized again, nor a member of any group. *)
Theorem revocation_is_final ops r k row :
  registry_wf (reg_db r) -> devices (reg_db r) !! k = Some row -> revoked row = true ->
  let r' := run_reg_ops ops r in
  is_ok (authorize k (reg_db r')) = false /\
  forall g, authorization_members (reg_db r') !! (g, k) = None.
Proof.
  intros Hwf Hk Hrev r'. destruct (run_reg_ops_step ops r) as [(Hd & _) Hw].
  destruct (Hd _ _ Hk) as (row' & Hk' & (_ & _ & _ & _ & _ & Hr & _)).
  split; [by apply (authorize_revoked k _ row'); auto|].
  intros g. destruct (authorization_members (reg_db r') !! (g, k)) as [l|] eqn:E; [|done].
  destruct (wf_members _ (Hw Hwf) _ _ _ E) as (_ & r2 & Hr2 & Hact).
  subst r'. rewrite Hk' in Hr2. injection Hr2 as <-. rewrite (Hr Hrev) in Hact. done.
Qed.

(** ** Enrollment *)

Lemma enroll_transaction_Ok cap r uid digest encoded c rnd dr d d' :
  enroll_transaction cap r uid digest encoded c rnd dr d = (Ok tt, d') ->
  let k := nats_public_key (payload r) in
  exists t, enrollment_tokens d' !! digest = Some (set_used k t) /\
    devices d' !! k = Some (new_device uid (device_id (payload r)) encoded rnd).
Proof.
  unfold enroll_transaction. intros (_ & d1 & Hrun & _ & ->)%transaction_Ok.
  apply bind_Ok in Hrun as (now & s1 & [-> ->]%lift_Ok & Hrun).
  apply bind_Ok in Hrun as (used & s1 & Hused & Hrun).
  apply bind_Ok in Hrun as ([] & s2 & [-> ->]%ensure_Ok & Hrun).
  apply consume_token_Ok in Hused as (t & u & _ & _ & _ & _ & _ & ->).
  apply bind_Ok in Hrun as ([] & s2 & (_ & _ & _ & ->)%insert_device_Ok & Hrun).
  match type of Hrun with ?m ?s = _ =>
    assert (keeps same_registry m) as Hs by keeps_auto; specialize (Hs s) end.
  rewrite Hrun in Hs. destruct Hs as (_ & _ & _ & Et & Ed & _). simpl in Et, Ed.
  exists t. simpl. rewrite Et, Ed. by rewrite !lookup_insert_eq.
Qed.

(** What a successful enrollment established. *)
Lemma enroll_Ok cap token r c c' rnd dr d d' :
  enroll cap token r c c' rnd dr d = (Ok tt, d') ->
  verify r = Ok tt /\ token_user token = Ok (user_id (payload r)) /\
  exists digest encoded t dv, sha256 (as_bytes token) = Ok digest /\
    encode (Body.Register r) = Ok encoded /\
    enrollment_tokens d' !! digest = Some t /\ used_key t = Some (nats_public_key (payload r)) /\
    devices d' !! nats_public_key (payload r) = Some dv /\ registration dv = encoded /\
    revoked dv = false.
Proof.
  unfold enroll. intros Hrun.
  apply bind_Ok in Hrun as ([] & s1 & [Hv ->]%lift_Ok & Hrun).
  apply bind_Ok in Hrun as (uid & s1 & [Hu ->]%lift_Ok & Hrun).
  apply bind_Ok in Hrun as ([] & s1 & [Hid ->]%ensure_Ok & Hrun). bool_prop.
  apply bind_Ok in Hrun as (digest & s1 & [Hdig ->]%lift_Ok & Hrun).
  apply bind_Ok in Hrun as (encoded & s1 & [Henc ->]%lift_Ok & Hrun).
  apply bind_Ok in Hrun as (prev & s1 & [-> ->]%gets_Ok & Hrun).
  split; [done|]. split; [congruence|].
  destruct (enrollment_tokens d !! digest ≫= used_key) as [p|] eqn:Hp.
  - apply bind_Some in Hp as (t & Ht & Hp). apply bind_Ok in Hrun as ([] & s1 & [Hk ->]%ensure_Ok & Hrun). bool_prop. subst p.
    apply bind_Ok in Hrun as (row & s1 & [-> ->]%gets_Ok & Hrun).
    apply bind_Ok in Hrun as (old & s1 & [Hrow ->]%lift_Ok & Hrun). apply ok_or_Ok in Hrow.
    apply bind_Ok in Hrun as ([] & s1 & [Hold ->]%ensure_Ok & Hrun). bool_prop. subst old.
    destruct (devices d !! _) as [dv|] eqn:Hdv; [|done]. simpl in Hrow.
    destruct (_ && _) eqn:Hc; [|done]. bool_prop. injection Hrow as Hreg.
    match type of Hrun with ?m ?s = _ =>
      assert (keeps same_registry m) as Hs by keeps_auto; specialize (Hs s) end.
    rewrite Hrun in Hs. destruct Hs as (_ & _ & _ & Et & Ed & _).
    exists digest, encoded, t, dv. simpl in Et, Ed. rewrite Et, Ed. split_and!; done.
  - apply bind_Ok in Hrun as (a & s1 & [-> ->]%gets_Ok & Hrun).
    apply bind_Ok in Hrun as (b & s1 & [_ ->]%lift_Ok & Hrun).
    apply bind_Ok in Hrun as (a & s1 & [-> ->]%gets_Ok & Hrun).
    apply bind_Ok in Hrun as (f & s1 & [_ ->]%lift_Ok & Hrun).
    apply bind_Ok in Hrun as ([] & s1 & [_ ->]%ensure_Ok & Hrun).
    destruct (enroll_transaction_Ok _ _ _ _ _ _ _ _ _ _ Hrun) as (t & Ht & Hd).
    eexists digest, encoded, _, _. split_and!; done.
Qed.

(** A token that enrolled a device changes nothing in the registry any more, and is
    taken only with the registration stored for that device. *)
Lemma enroll_used cap token r c c' rnd dr d digest t k dv :
  sha256 (as_bytes token) = Ok digest -> enrollment_tokens d !! digest = Some t -> used_key t = Some k ->
  devices d !! k = Some dv ->
  let '(out, d') := enroll cap token r c c' rnd dr d in
  same_registry d d' /\
  (out = Ok tt -> nats_public_key (payload r) = k /\ encode (Body.Register r) = Ok (registration dv)).
Proof.
  intros Hdig Ht Hused Hdv. destruct (enroll cap token r c c' rnd dr d) as [out d'] eqn:Hrun. split.
  - replace d' with (snd (enroll cap token r c c' rnd dr d)) by by rewrite Hrun. unfold enroll.
    do 3 (apply read_then; [apply _|by first [done|unfold ensure; case_match]|intros ? _]).
    apply read_then; [apply _|done|]. intros ? [Hd _]%lift_Ok. rewrite Hdig in Hd. injection Hd as <-.
    do 2 (apply read_then; [apply _|done|intros ? [-> _]%gets_Ok || intros ? _]).
    rewrite Ht. simpl. rewrite Hused.
    match goal with |- same_registry _ (snd (?m _)) => assert (keeps same_registry m) as Hs by keeps_auto end.
    exact (Hs d).
  - intros ->. unfold enroll in Hrun.
    apply bind_Ok in Hrun as ([] & s1 & [_ ->]%lift_Ok & Hrun).
    apply bind_Ok in Hrun as (uid & s1 & [_ ->]%lift_Ok & Hrun).
    apply bind_Ok in Hrun as ([] & s1 & [_ ->]%ensure_Ok & Hrun).
    apply bind_Ok in Hrun as (digest2 & s1 & [Hdig2 ->]%lift_Ok & Hrun).
    apply bind_Ok in Hrun as (encoded & s1 & [Henc ->]%lift_Ok & Hrun).
    apply bind_Ok in Hrun as (prev & s1 & [-> ->]%gets_Ok & Hrun).
    rewrite Hdig in Hdig2. injection Hdig2 as <-. rewrite Ht in Hrun. simpl in Hrun. rewrite Hused in Hrun.
    apply bind_Ok in Hrun as ([] & s1 & [Hk ->]%ensure_Ok & Hrun). bool_prop. subst k.
    apply bind_Ok in Hrun as (row & s1 & [-> ->]%gets_Ok & Hrun).
    apply bind_Ok in Hrun as (old & s1 & [Hrow ->]%lift_Ok & Hrun). apply ok_or_Ok in Hrow.
    apply bind_Ok in Hrun as ([] & s1 & [Hold ->]%ensure_Ok & _). bool_prop. subst old.
    rewrite Hdv in Hrow. simpl in Hrow. destruct (_ && _); [|done]. injection Hrow as ->. by rewrite Henc.
Qed.

(** C13. A token enrolls one device. After a successful enrollment, whatever else
    happens to the registry, the device's stored registration stays the one that
    was verified then, and its token stays spent on it. Using that token again
    changes nothing in the registry, whether it is answered or refused; it is
    answered only to the same key with the same registration, never to another
    key or another registration of the same key. *)
Theorem token_enrolls_one_device token r1 c c' rnd dr auth d' ops :
  enroll (reg_capacity auth) token r1 c c' rnd dr (reg_db auth) = (Ok tt, d') ->
  let auth' := run_reg_ops ops (set_reg_db d' auth) in
  let stored := fun db => exists dv, devices db !! nats_public_key (payload r1) = Some dv /\
    encode (Body.Register r1) = Ok (registration dv) in
  verify r1 = Ok tt /\ stored (reg_db auth') /\
  (exists digest t, sha256 (as_bytes token) = Ok digest /\
     enrollment_tokens (reg_db auth') !! digest = Some t /\
     used_key t = Some (nats_public_key (payload r1))) /\
  forall r2 c2 c2' rnd2 dr2,
    let '(out, d2) := enroll (reg_capacity auth') token r2 c2 c2' rnd2 dr2 (reg_db auth') in
    same_registry (reg_db auth') d2 /\ stored d2 /\
    (out = Ok tt -> nats_public_key (payload r2) = nats_public_key (payload r1) /\
       encode (Body.Register r2) = encode (Body.Register r1)).
Proof.
  intros Hfirst auth' stored.
  apply enroll_Ok in Hfirst as (Hv & _ & dig & enc & t & dv & Hdig & Henc & Ht & Hused & Hdv & Hreg & _).
  destruct (run_reg_ops_step ops (set_reg_db d' auth)) as [(Hd & Hts & _) _]. fold auth' in Hd, Hts.
  destruct (Hts _ _ Ht) as (t' & Ht' & (_ & _ & [Hx|Hused'])); [congruence|].
  destruct (Hd _ _ Hdv) as (dv' & Hdv' & (_ & _ & Hreg' & _)).
  rewrite Hused in Hused'. assert (encode (Body.Register r1) = Ok (registration dv')) as Henc' by congruence.
  split_and!; [done|by exists dv'|by exists dig, t'|]. intros r2 c2 c2' rnd2 dr2.
  pose proof (enroll_used (reg_capacity auth') token r2 c2 c2' rnd2 dr2 _ _ _ _ _ Hdig Ht' Hused' Hdv') as Hsecond.
  destruct (enroll _ _ _ _ _ _ _ _) as [out d2]. destruct Hsecond as [Hsame Hok]. split_and!; [done| |].
  - exists dv'. destruct Hsame as (_ & _ & _ & _ & -> & _). done.
  - intros Ho. destruct (Hok Ho) as [Hk He]. by rewrite Henc'.
Qed.
End history.

(** ** Concrete runs *)

Lemma fresh_registry_wf : registry_wf fresh_trail.
Proof.
  split; intros *; simpl; rewrite ?lookup_empty; try done.
Qed.
Definition fresh_authority : AuthRegistry :=
  {| reg_db := fresh_trail; reg_capacity := default_capacity; principal_rates := ∅ |}.
Definition setup : list reg_op :=
  [OpInvite "alice" 60 (Ok 1000) (id_draw x00) draw_model;
   OpInvite "alice" 60 (Ok 1000) (id_draw x01) draw_model;
   OpEnroll token_1 reg_a (Ok 1001) (Ok 1001) zeros draw_model;
   OpActivate "UA" draw_model;
   OpEnroll token_2 reg_b (Ok 1001) (Ok 1001) zeros draw_model;
   OpActivate "UB" draw_model;
   OpPolicy policy_0 5 zeros draw_model draw_model;
   OpPolicy policy_1 6 zeros draw_model draw_model].
Definition running : AuthRegistry := run_reg_ops setup fresh_authority.
Lemma running_wf : registry_wf (reg_db running).
Proof. exact (proj2 (run_reg_ops_step setup fresh_authority) fresh_registry_wf). Qed.

Lemma registry_consistent_witness :
  registry_wf (reg_db running) /\
  authorization_members (reg_db running) !! (gid_1, "UB") = Some 1.
Proof.
  split; [|vm_compute; reflexivity].
  unfold running. apply (registry_consistent setup fresh_authority fresh_registry_wf).
Defined.

Definition revoked_state : AuthRegistry := run_reg_op (OpRevoke "UB" draw_model) running.
Lemma revoked_state_wf : registry_wf (reg_db revoked_state).
Proof. exact (proj2 (run_reg_op_step (OpRevoke "UB" draw_model) running) running_wf). Qed.

Lemma revocation_is_final_witness :
  is_ok (authorize "UB" (reg_db (run_reg_ops
    [OpActivate "UB" draw_model; OpPolicy policy_1 7 zeros draw_model draw_model]
    revoked_state))) = false.
Proof.
  destruct (devices (reg_db revoked_state) !! "UB") as [row|] eqn:E;
    [|vm_compute in E; discriminate E].
  refine (proj1 (revocation_is_final _ revoked_state "UB" row revoked_state_wf E _)).
  vm_compute in E. injection E as <-. reflexivity.
Defined.

Definition before_enroll : AuthRegistry := set_reg_db invited authority_0.
#[local] Abbreviation first_run :=
  (enroll (reg_capacity before_enroll) token_1 reg_a (Ok 1001) (Ok 1001) zeros draw_model
    (reg_db before_enroll)).
#[local] Abbreviation after_enroll :=
  (run_reg_ops [OpActivate "UA" draw_model] (set_reg_db (snd first_run) before_enroll)).
#[local] Abbreviation retry reg :=
  (enroll (reg_capacity after_enroll) token_1 reg (Ok 1002) (Ok 1002) zeros draw_model
    (reg_db after_enroll)).
Lemma first_enroll : first_run = (Ok tt, snd first_run).
Proof. apply run_fst. vm_compute. reflexivity. Qed.
(** The device is activated and the token offered again, with the same key and a
    registration that was signed anew. *)
Definition reg_a' : DeviceRegistration := {|
  payload := payload reg_a; reg_signature := repeat x05 64 |}.
Lemma token_enrolls_one_device_witness :
  (exists dv, devices (reg_db after_enroll) !! "UA" = Some dv /\
     encode (Body.Register reg_a) = Ok (registration dv) /\ ready dv = true) /\
  is_ok (fst (retry reg_a)) = true /\ same_registry (reg_db after_enroll) (snd (retry reg_a')).
Proof.
  destruct (token_enrolls_one_device token_1 reg_a (Ok 1001) (Ok 1001) zeros draw_model
    before_enroll (snd first_run) [OpActivate "UA" draw_model] first_enroll) as (_ & (dv & Hdv & Henc) & _ & Hall).
  split; [|split; [vm_compute; reflexivity|]].
  - exists dv. split; [exact Hdv|]. split; [exact Henc|].
    assert (ready <$> devices (reg_db after_enroll) !! "UA" = Some true) as Hr by (vm_compute; reflexivity).
    change (nats_public_key (payload reg_a)) with "UA" in Hdv. rewrite Hdv in Hr. by injection Hr.
  - specialize (Hall reg_a' (Ok 1002) (Ok 1002) zeros draw_model).
    destruct (enroll _ _ _ _ _ _ _ _) as [out d2]. exact (proj1 Hall).
Defined.

#[local] Abbreviation revoke_run :=
  (revoke default_capacity "UB" draw_model (reg_db running)).
Lemma revoke_run_ok : revoke_run = (Ok tt, snd revoke_run).
Proof. apply run_fst. vm_compute. reflexivity. Qed.
Lemma revoke_effective_witness : is_ok (authorize "UB" (snd revoke_run)) = false.
Proof.
  exact (proj1 (revoke_effective default_capacity "UB" draw_model (reg_db running)
    (snd revoke_run) running_wf ltac:(discriminate) revoke_run_ok)).
Defined.

Definition failing_draw : Draw :=
  {| opaque := Err External; instance := Err External; clock := Err External |}.
Lemma running_autocommit : autocommit (reg_db running) = true.
Proof. vm_compute. reflexivity. Qed.
Lemma running_commit : commit_ok (reg_db running) = true.
Proof. vm_compute. reflexivity. Qed.
Lemma pages_within (db : AuthDb) : check_database_pure default_capacity true db = Ok tt.
Proof. vm_compute. reflexivity. Qed.
Lemma revoke_not_blocked_by_audit_witness :
  exists d', revoke default_capacity "UB" failing_draw (reg_db running) = (Ok tt, d').
Proof.
  exact (revoke_not_blocked_by_audit default_capacity "UB" failing_draw (reg_db running)
    running_autocommit running_commit pages_within).
Defined.

#[local] Abbreviation policy_run :=
  (apply_policy policy_1 6 zeros draw_model draw_model authority_1).
Lemma policy_run_ok : policy_run = (Ok 2, snd policy_run).
Proof. apply run_fst. vm_compute. reflexivity. Qed.
Lemma policy_applied_witness : is_ok (authorize "UA" (reg_db authority_1)) = true.
Proof.
  exact (proj1 (proj2 (policy_applied policy_1 6 zeros draw_model draw_model authority_1 2
    (snd policy_run) policy_run_ok))).
Defined.

(** The same update signed by a device that is not the coordinator. *)
Definition policy_by_b : SignedPolicy := {|
  update := {| pu_version := 1; pu_gid := gid_1; expected_generation := 2; pu_epoch := 2;
               signer := "UB"; members := members (update policy_1) |};
  sp_signature := good_signature |}.
#[local] Abbreviation rejected_run :=
  (apply_policy policy_by_b 7 zeros draw_model draw_model authority_2).
Lemma rejected_run_err :
  rejected_run = (Err (Anyhow "only coordinator may change policy"), snd rejected_run).
Proof. apply run_fst. vm_compute. reflexivity. Qed.
Lemma policy_rejected_witness : same_registry (reg_db authority_2) (reg_db (snd rejected_run)).
Proof.
  exact (policy_rejected policy_by_b 7 zeros draw_model draw_model authority_2
    (Anyhow "only coordinator may change policy") (snd rejected_run) rejected_run_err).
Defined.

#[local] Abbreviation policy_tx rnd db :=
  (transaction (policy_body default_capacity (update policy_1) [x01; x01] rnd draw_model) db).
#[local] Abbreviation after_policy_1 := (snd (policy_tx zeros (reg_db authority_1))).
Lemma policy_tx_ok : policy_tx zeros (reg_db authority_1) = (Ok 2, after_policy_1).
Proof. apply run_fst. vm_compute. reflexivity. Qed.
Lemma policy_replay_witness : policy_tx alice after_policy_1 = (Ok 2, after_policy_1).
Proof.
  exact (policy_replay default_capacity (update policy_1) [x01; x01] zeros draw_model
    (reg_db authority_1) 2 after_policy_1 ltac:(simpl; lia) ltac:(simpl; lia) policy_tx_ok
    alice draw_model).
Defined.
