(* ===== verification/KvStore.v ===== *)
(** * The key-value store and its compare-and-swap loop

    A JetStream bucket as [transparency.rs] and [revocation.rs] use it, the
    retry loop their [append] functions share, and the rely-guarantee argument
    for that loop: clients that only extend the stored value, each with a fresh
    revision, cannot make each other lose anything. *)
From S2P Require Import Prelude External.

(** A value has a revision, [update] succeeds on the revision the caller read,
    [create] on an absent key. Revisions only grow. *)
Record Entry : Type := { value : bytes; revision : Z }.
Record Kv : Type := { kv_entries : gmap string Entry; kv_last : Z }.
Definition kv_put (k : string) (v : bytes) (kv : Kv) : Kv :=
  {| kv_entries := <[k := {| value := v; revision := kv_last kv + 1 |}]> (kv_entries kv);
     kv_last := kv_last kv + 1 |}.
Definition kv_update (k : string) (v : bytes) (rev : Z) (kv : Kv) : bool * Kv :=
  match kv_entries kv !! k with
  | Some e => if revision e =? rev then (true, kv_put k v kv) else (false, kv)
  | None => (false, kv)
  end.
Definition kv_create (k : string) (v : bytes) (kv : Kv) : Kv :=
  match kv_entries kv !! k with Some _ => kv | None => kv_put k v kv end.

(** What happens around one attempt: the changes other clients make between the
    read and the update, and whether the update's acknowledgment arrives. *)
Record Attempt : Type := { interference : Kv -> Kv; acknowledged : bool }.

(** What an attempt decides from the value it read: stop with a result, or
    publish new bytes and return a result once they are in. *)
Inductive Plan (A : Type) : Type := Done (a : A) | Publish (b : bytes) (a : A).
Arguments Done {A} a.
Arguments Publish {A} b a.

(** [for _ in 0..n { entry; plan; update }] and the errors for an absent key and
    for an exhausted loop. *)
Section cas.
Context {A : Type} (key missing giving_up : string) (plan : bytes -> result (Plan A)).

Fixpoint cas_loop (attempts : list Attempt) (kv : Kv) : result A * Kv :=
  match attempts with
  | [] => (Err (Anyhow giving_up), kv)
  | a :: attempts =>
      match kv_entries kv !! key with
      | None => (Err (Anyhow missing), kv)
      | Some current =>
          match plan (value current) with
          | Err e => (Err e, kv)
          | Ok (Done r) => (Ok r, kv)
          | Ok (Publish b r) =>
              let '(applied, kv) := kv_update key b (revision current) (interference a kv) in
              if applied && acknowledged a then (Ok r, kv) else cas_loop attempts kv
          end
      end
  end.
End cas.

(** ** Rely-guarantee *)

(** No revision is above the last one. *)
Definition kv_wf (kv : Kv) : Prop :=
  forall k e, kv_entries kv !! k = Some e -> revision e <= kv_last kv.
(** A new value has a new revision. *)
Definition kv_fresh (kv kv' : Kv) : Prop :=
  kv_last kv <= kv_last kv' /\
  forall k e, kv_entries kv' !! k = Some e ->
    kv_entries kv !! k = Some e \/ kv_last kv < revision e <= kv_last kv'.

Section rely.
Context {V : Type} (key : string) (dec : bytes -> result V) (grows : V -> V -> Prop)
  `{!PreOrder grows}.

Definition stored (kv : Kv) (v : V) : Prop :=
  exists e, kv_entries kv !! key = Some e /\ dec (value e) = Ok v.
(** What every client of the store relies on and guarantees. *)
Definition kv_step (kv kv' : Kv) : Prop :=
  kv_wf kv -> kv_wf kv' /\ kv_fresh kv kv' /\
  (forall v, stored kv v -> exists v', stored kv' v' /\ grows v v').

#[global] Instance kv_step_preorder : PreOrder kv_step.
Proof.
  split.
  - intros kv Hwf. split_and!; [done|split; [lia|auto]|]. intros s Hs. exists s. done.
  - intros a b c Hab Hbc Hwf. destruct (Hab Hwf) as (Hb & [Hl1 Hf1] & Hg1).
    destruct (Hbc Hb) as (Hc & [Hl2 Hf2] & Hg2). split_and!; [done| |].
    + split; [lia|]. intros k e He. destruct (Hf2 _ _ He) as [He'|?]; [|right; lia].
      destruct (Hf1 _ _ He') as [?|?]; [by left|right; lia].
    + intros s Hs. destruct (Hg1 _ Hs) as (s1 & Hs1 & Hp1).
      destruct (Hg2 _ Hs1) as (s2 & Hs2 & Hp2). exists s2. split; [done|]. by etrans.
Qed.

Lemma stored_put kv b v : dec b = Ok v -> stored (kv_put key b kv) v.
Proof. intros Hb. eexists. simpl. rewrite lookup_insert_eq. split; [done|]. done. Qed.

Lemma kv_put_step kv b e v v' :
  kv_entries kv !! key = Some e -> dec (value e) = Ok v -> dec b = Ok v' -> grows v v' ->
  kv_step kv (kv_put key b kv).
Proof.
  intros He Hs Hs' Hg Hwf. split_and!.
  - intros k e' Hk. simpl in *. apply lookup_insert_Some in Hk as [[<- <-]|[_ Hk]]; simpl; [lia|].
    apply Hwf in Hk. lia.
  - split; simpl; [lia|]. intros k e' Hk. apply lookup_insert_Some in Hk as [[<- <-]|[_ Hk]]; simpl.
    + right. lia.
    + by left.
  - intros s0 (e0 & He0 & Hs0). exists v'. split; [by apply stored_put|].
    rewrite He in He0. injection He0 as <-. rewrite Hs in Hs0. by injection Hs0 as <-.
Qed.

(** The loop extends the value it finds, and what it reports is stored.
    [good] says what a result promises about a stored value. *)
Lemma cas_loop_step {A} missing giving_up (plan : bytes -> result (Plan A))
  (good : A -> V -> Prop) attempts kv r kv' :
  (forall cur a, plan cur = Ok (Done a) -> exists v, dec cur = Ok v /\ good a v) ->
  (forall cur b a, plan cur = Ok (Publish b a) ->
     exists v v', dec cur = Ok v /\ dec b = Ok v' /\ grows v v' /\ good a v') ->
  kv_wf kv -> Forall (fun a => forall kv, kv_step kv (interference a kv)) attempts ->
  cas_loop key missing giving_up plan attempts kv = (r, kv') ->
  kv_step kv kv' /\ (forall a, r = Ok a -> exists v, stored kv' v /\ good a v).
Proof.
  intros Hdone Hpub. revert kv.
  induction attempts as [|at_ ats IH]; intros kv Hwf Hall; simpl; [by intros [= <- <-]|].
  apply Forall_cons_1 in Hall as [Hat Hats].
  destruct (kv_entries kv !! key) as [e|] eqn:He; [|by intros [= <- <-]].
  destruct (plan (value e)) as [[a|b a]|err] eqn:Hp; [| |by intros [= <- <-]].
  { intros [= <- <-]. split; [reflexivity|]. intros a' [= <-].
    apply Hdone in Hp as (v & Hv & Hg). exists v. split; [by exists e|done]. }
  apply Hpub in Hp as (v & v' & Hv & Hv' & Hg & Hgood).
  destruct (Hat kv Hwf) as (Hwf1 & [Hl Hf] & _). unfold kv_update.
  assert (kv_step kv (interference at_ kv)) as Hstep by apply Hat.
  set (kv1 := interference at_ kv) in *.
  assert (forall kv2, kv_step kv kv2 ->
    cas_loop key missing giving_up plan ats kv2 = (r, kv') ->
    kv_step kv kv' /\ (forall a, r = Ok a -> exists v, stored kv' v /\ good a v)) as Hretry.
  { intros kv2 Hs Hrun. destruct (IH _ (proj1 (Hs Hwf)) Hats Hrun). split; [|done].
    by etrans. }
  destruct (kv_entries kv1 !! key) as [e1|] eqn:He1; [|by apply Hretry].
  destruct (revision e1 =? revision e) eqn:Hrev; [|by apply Hretry].
  bool_prop. assert (e1 = e) as ->.
  { destruct (Hf _ _ He1) as [Hold|Hnew]; [congruence|]. apply Hwf in He. lia. }
  assert (kv_step kv (kv_put key b kv1)) as Hput.
  { etrans; [exact Hstep|]. by eapply kv_put_step. }
  simpl. destruct (acknowledged at_); [|by apply Hretry]. intros [= <- <-].
  split; [done|]. intros a' [= <-]. exists v'. split; [by apply stored_put|done].
Qed.
End rely.

(** ** A sole writer *)

(** When nobody else writes, a loop keeps whatever its own updates keep, and
    reports what its plan made of the value it found. *)
Lemma cas_loop_alone {A} key missing giving_up (plan : bytes -> result (Plan A))
    (I : Kv -> Prop) attempts kv r kv' :
  Forall (fun a => forall kv, interference a kv = kv) attempts ->
  (forall kv e b a, I kv -> kv_entries kv !! key = Some e ->
     plan (value e) = Ok (Publish b a) -> I (kv_put key b kv)) ->
  I kv -> cas_loop key missing giving_up plan attempts kv = (r, kv') ->
  I kv' /\
  (forall a, r = Ok a ->
     (exists e, kv_entries kv' !! key = Some e /\ plan (value e) = Ok (Done a)) \/
     (exists kv0 e b, kv' = kv_put key b kv0 /\ kv_entries kv0 !! key = Some e /\
        plan (value e) = Ok (Publish b a))).
Proof.
  intros Halone Hput. revert kv.
  induction attempts as [|t ts IH]; intros kv HI; simpl; [by intros [= <- <-]|].
  apply Forall_cons_1 in Halone as [Ht Hts]. specialize (IH Hts).
  destruct (kv_entries kv !! key) as [e|] eqn:He; [|by intros [= <- <-]].
  destruct (plan (value e)) as [[a|b a]|err] eqn:Hp; [| |by intros [= <- <-]].
  { intros [= <- <-]. split; [done|]. intros a' [= <-]. left. eauto. }
  rewrite Ht. unfold kv_update. rewrite He, Z.eqb_refl. simpl.
  assert (I (kv_put key b kv)) as HI' by eauto.
  destruct (acknowledged t); [|by apply IH]. intros [= <- <-]. split; [done|].
  intros a' [= <-]. right. eauto 6.
Qed.
