(* ===== verification/Merkle.v ===== *)
(** * Merkle roots

    The tree shape that [transparency.rs] and [revocation.rs] share: leaves and
    nodes are hashed under different tags and a list splits at half of the next
    power of two. The section's parameter is the encoding of a leaf. A root
    commits to its list: two lists with one root are equal or exhibit a
    collision of the hash. *)
From S2P Require Import Prelude External.

(** [transparency::hash]: SHA-256 with its length checked. *)
(* @src core/transparency.rs 26-32 hash *)
Definition hash `{Sha256} (b : bytes) : result bytes :=
  let? h := sha256 b in
  if decide (length h = 32%nat) then Ok h else Err (Anyhow "unexpected SHA-256 length").

(** Half of [next_power_of_two], for a length of at least two. *)
Definition split_at (n : nat) : nat := Nat.pow 2 (Nat.log2_up n - 1).

Lemma split_at_bounds n : (2 <= n)%nat -> (1 <= split_at n < n)%nat.
Proof.
  intros Hn. unfold split_at. split.
  - apply Nat.neq_0_lt_0, Nat.pow_nonzero. lia.
  - destruct (Nat.log2_up_spec n ltac:(lia)) as [Hlt _].
    replace (Nat.log2_up n - 1)%nat with (Nat.pred (Nat.log2_up n)) by lia. exact Hlt.
Qed.

Section merkle.
Context `{Sha256} {A : Type} (leaf : A -> result bytes).

(** The recursion halves the list; the list's length is enough fuel. *)
Fixpoint root_fuel (fuel : nat) (l : list A) : option (result bytes) :=
  match l with
  | [] => Some (hash [])
  | [a] => Some (let? b := leaf a in hash (x00 :: b))
  | _ :: _ :: _ =>
      match fuel with
      | O => None
      | S fuel =>
          match root_fuel fuel (take (split_at (length l)) l),
                root_fuel fuel (drop (split_at (length l)) l) with
          | Some lh, Some rh =>
              Some (let? lh := lh in let? rh := rh in hash (x01 :: lh ++ rh))
          | _, _ => None
          end
      end
  end.
Definition merkle_root (l : list A) : result bytes :=
  match root_fuel (length l) l with Some r => r | None => Err External end.

Lemma root_fuel_node fuel l :
  (2 <= length l)%nat ->
  root_fuel (S fuel) l =
    match root_fuel fuel (take (split_at (length l)) l),
          root_fuel fuel (drop (split_at (length l)) l) with
    | Some lh, Some rh =>
        Some (let? lh := lh in let? rh := rh in hash (x01 :: lh ++ rh))
    | _, _ => None
    end.
Proof. destruct l as [|a [|b l]]; simpl length; [lia..|]. done. Qed.

(** The fuel is enough. *)
Lemma root_fuel_some fuel l : (length l <= fuel)%nat -> root_fuel fuel l <> None.
Proof.
  revert l; induction fuel as [|fuel IH]; intros l Hl.
  - by destruct l; [|simpl in Hl; lia].
  - destruct (decide (2 <= length l)%nat) as [H2|H2]; [|by destruct l as [|a [|b l]]; simpl in *; [..|lia]].
    rewrite root_fuel_node by done. pose proof (split_at_bounds (length l) H2) as Hs.
    set (s := split_at _) in *.
    pose proof (IH (take s l) ltac:(rewrite length_take; lia)).
    pose proof (IH (drop s l) ltac:(rewrite length_drop; lia)).
    by destruct (root_fuel fuel (take s l)), (root_fuel fuel (drop s l)).
Qed.

Lemma root_fuel_mono fuel fuel' l r :
  root_fuel fuel l = Some r -> (fuel <= fuel')%nat -> root_fuel fuel' l = Some r.
Proof.
  revert fuel' l r; induction fuel as [|fuel IH]; intros fuel' l r Hr Hle.
  - destruct l as [|a [|b l]]; by destruct fuel'.
  - destruct fuel' as [|fuel']; [lia|].
    destruct (decide (2 <= length l)%nat) as [H2|H2]; [|by destruct l as [|a [|b l]]; simpl in *; [..|lia]].
    rewrite root_fuel_node in * by done.
    destruct (root_fuel fuel (take _ _)) as [x|] eqn:E1; [|done].
    destruct (root_fuel fuel (drop _ _)) as [y|] eqn:E2; [|done].
    by rewrite (IH fuel' _ _ E1), (IH fuel' _ _ E2) by lia.
Qed.

(** The equations of the recursive function of the source. *)
Lemma merkle_root_nil : merkle_root [] = hash [].
Proof. done. Qed.
Lemma merkle_root_one a : merkle_root [a] = let? b := leaf a in hash (x00 :: b).
Proof. done. Qed.
Lemma merkle_root_node l :
  (2 <= length l)%nat ->
  merkle_root l =
    let? lh := merkle_root (take (split_at (length l)) l) in
    let? rh := merkle_root (drop (split_at (length l)) l) in
    hash (x01 :: lh ++ rh).
Proof.
  intros Hl. unfold merkle_root at 1.
  destruct (length l) as [|n] eqn:Hlen; [lia|]. rewrite root_fuel_node, Hlen by lia.
  pose proof (split_at_bounds (S n) Hl) as Hs. set (s := split_at (S n)) in *.
  assert (forall k, (length k <= n)%nat ->
    exists r, root_fuel n k = Some r /\ merkle_root k = r) as Hsub.
  { intros k Hk. unfold merkle_root. pose proof (root_fuel_some (length k) k ltac:(lia)) as Hn.
    destruct (root_fuel (length k) k) as [r|] eqn:E; [|done]. exists r. split; [|done].
    by apply (root_fuel_mono (length k)). }
  destruct (Hsub (take s l)) as (x & -> & ->); [rewrite length_take; lia|].
  destruct (Hsub (drop s l)) as (y & -> & ->); [rewrite length_drop; lia|]. done.
Qed.

(** ** Binding *)

Definition collision : Prop :=
  exists a b h, a <> b /\ sha256 a = Ok h /\ sha256 b = Ok h.

Lemma hash_Ok b h : hash b = Ok h -> sha256 b = Ok h /\ length h = 32%nat.
Proof. unfold hash. intros Hh. inv_ok. destruct (decide _); [|done]. by inv_ok. Qed.

Lemma hash_eq a b h : hash a = Ok h -> hash b = Ok h -> a = b \/ collision.
Proof.
  intros [Ha _]%hash_Ok [Hb _]%hash_Ok. destruct (decide (a = b)) as [|Hne]; [by left|].
  right. by exists a, b, h.
Qed.

(** What was hashed into a root. *)
Lemma merkle_root_Ok l h :
  merkle_root l = Ok h ->
  (l = [] /\ hash [] = Ok h) \/
  (exists a b, l = [a] /\ leaf a = Ok b /\ hash (x00 :: b) = Ok h) \/
  (exists lh rh, (2 <= length l)%nat /\
     merkle_root (take (split_at (length l)) l) = Ok lh /\
     merkle_root (drop (split_at (length l)) l) = Ok rh /\
     length lh = 32%nat /\ hash (x01 :: lh ++ rh) = Ok h).
Proof.
  destruct l as [|a [|b l]]; intros Hr.
  - by left.
  - right; left. rewrite merkle_root_one in Hr. inv_ok. eauto.
  - right; right. rewrite merkle_root_node in Hr by (simpl; lia).
    apply rbind_Ok in Hr as (x & Hx & Hr). apply rbind_Ok in Hr as (y & Hy & Hr).
    exists x, y. split_and!; try done; [simpl; lia|].
    revert Hx. set (k := take _ _). clearbody k. clear. intros Hx.
    unfold merkle_root in Hx. destruct (root_fuel (length k) k) as [r|] eqn:E; [|done]. subst r.
    destruct k as [|c [|d k]].
    + injection E as E. by apply hash_Ok in E as [_ ?].
    + injection E as E. inv_ok.
      match goal with Hh : hash _ = Ok x |- _ => by apply hash_Ok in Hh as [_ ?] end.
    + simpl length in E. rewrite root_fuel_node in E by (simpl; lia).
      destruct (root_fuel _ (take _ _)) as [r1|]; [|done].
      destruct (root_fuel _ (drop _ _)) as [r2|]; [|done]. injection E as E. inv_ok.
      match goal with Hh : hash _ = Ok x |- _ => by apply hash_Ok in Hh as [_ ?] end.
Qed.

Lemma take_elem_of n (l : list A) a : a ∈ take n l -> a ∈ l.
Proof. intros Ha. rewrite <- (take_drop n l), elem_of_app. by left. Qed.
Lemma drop_elem_of n (l : list A) a : a ∈ drop n l -> a ∈ l.
Proof. intros Ha. rewrite <- (take_drop n l), elem_of_app. by right. Qed.

Lemma merkle_root_inj l l' h :
  (forall a a' b, a ∈ l -> a' ∈ l' -> leaf a = Ok b -> leaf a' = Ok b -> a = a') ->
  merkle_root l = Ok h -> merkle_root l' = Ok h -> l = l' \/ collision.
Proof.
  remember (length l) as n eqn:Hn. revert l l' h Hn.
  induction n as [n IH] using (well_founded_induction lt_wf). intros l l' h -> Hleaf Hl Hl'.
  apply merkle_root_Ok in Hl as [(-> & Hh)|[(a & b & -> & Hb & Hh)|(x & y & Hlen & Hx & Hy & Lx & Hh)]];
  apply merkle_root_Ok in Hl' as [(-> & Hh')|[(a' & b' & -> & Hb' & Hh')|(x' & y' & Hlen' & Hx' & Hy' & Lx' & Hh')]];
  destruct (hash_eq _ _ _ Hh Hh') as [Heq|?]; try (by right); try done.
  - by left.
  - left. injection Heq as <-. f_equal. apply (Hleaf a a' b); [by left|by left|done|done].
  - injection Heq as Heq. apply app_inj_1 in Heq as [<- <-]; [|congruence].
    pose proof (split_at_bounds (length l) Hlen) as Hs.
    destruct (IH (length (take (split_at (length l)) l)) ltac:(rewrite length_take; lia)
                (take (split_at (length l)) l) (take (split_at (length l')) l') x eq_refl) as [Ht|?];
      [|done|done| |by right].
    { intros c c' e Hc Hc'. apply Hleaf; by eapply take_elem_of. }
    destruct (IH (length (drop (split_at (length l)) l)) ltac:(rewrite length_drop; lia)
                (drop (split_at (length l)) l) (drop (split_at (length l')) l') y eq_refl) as [Hd|?];
      [|done|done| |by right].
    { intros c c' e Hc Hc'. apply Hleaf; by eapply drop_elem_of. }
    left. rewrite <- (take_drop (split_at (length l)) l), Ht, Hd. apply take_drop.
Qed.
End merkle.
