(* ===== verification/Transparency.v ===== *)
(** * The transparency log

    [crates/epochgrid-core/src/transparency.rs]: signed Merkle snapshots of the
    registration log, their validation and prefix check, and the append that
    publishes entries and checkpoint by one compare-and-swap. *)
From stdpp Require Import sorting.
From S2P Require Import Prelude External Wire Identity KvStore Merkle.

(** The tuple a checkpoint signs. *)
Definition CheckpointTuple : Type := (Z * Z * bytes * string)%type.

Section transparency.
Context `{NKeys} `{MlsPackages} `{Sha256} `{Postcard Envelope} `{Postcard RegistrationPayload}
  `{Postcard CheckpointTuple}.

(* @src core/transparency.rs 36-40 root (leaf) *)
Definition registration_leaf (r : DeviceRegistration) : result bytes := encode (Body.Register r).
(* @src core/transparency.rs 33-49 root *)
Definition root : list DeviceRegistration -> result bytes := merkle_root registration_leaf.

(* @src core/transparency.rs 51-60 signing_bytes *)
Definition checkpoint_bytes (cp : Checkpoint) : result bytes :=
  let? b := to_allocvec (cp_version cp, cp_size cp, cp_root cp, cp_signer cp) in
  Ok (as_bytes "EpochGrid transparency checkpoint v1" ++ [x00] ++ b).

(** The entries in order, with the endpoints and keys seen before each. *)
(* @src core/transparency.rs 99-110 validate (entries) *)
Fixpoint validate_entries (endpoints keys : gset string) (es : list DeviceRegistration)
  : result unit :=
  match es with
  | [] => Ok tt
  | e :: es =>
      verify_signature e ;;?
      check (negb (bool_decide (key (payload e) ∈ endpoints))
             && negb (bool_decide (nats_public_key (payload e) ∈ keys)))
        "duplicate transparency identity" ;;?
      validate_entries ({[key (payload e)]} ∪ endpoints)
        ({[nats_public_key (payload e)]} ∪ keys) es
  end.

(* @src core/transparency.rs 79-112 validate *)
Definition validate (s : Snapshot) : result unit :=
  check (zlen (entries s) <=? 256) "transparency entry limit exceeded" ;;?
  let? _ := encode (Body.AuditLog s) in
  let cp := checkpoint s in
  check ((cp_version cp =? 1) && (cp_size cp =? zlen (entries s)))
    "invalid transparency version/size" ;;?
  check (starts_with "U" (cp_signer cp)) "transparency signer must be a user NKey" ;;?
  let? _ := key_pair_type (cp_signer cp) in
  let? b := checkpoint_bytes cp in
  verify_with (cp_signer cp) b (cp_signature cp) ;;?
  let? r := root (entries s) in
  check (bool_decide (r = cp_root cp)) "transparency root mismatch" ;;?
  validate_entries ∅ ∅ (entries s).

(* @src core/transparency.rs 63-78 signed *)
Definition signed (es : list DeviceRegistration) (k : KeyPair) : result Snapshot :=
  let? r := root es in
  let cp s := {| cp_version := 1; cp_size := zlen es; cp_root := r; cp_signer := public_key k;
                 cp_signature := s |} in
  let? b := checkpoint_bytes (cp []) in
  let? s := nkey_sign k b in
  let snapshot := {| checkpoint := cp s; entries := es |} in
  validate snapshot ;;?
  Ok snapshot.

(** The slice is taken after its bound was checked. *)
(* @src core/transparency.rs 113-127 extends *)
Definition extends (s : Snapshot) (previous : Checkpoint) : result unit :=
  check (bool_decide (cp_signer (checkpoint s) = cp_signer previous))
    "TRANSPARENCY FAILURE: directory signer changed" ;;?
  check (cp_size previous <=? zlen (entries s)) "TRANSPARENCY FAILURE: log truncated" ;;?
  let? r := root (take (Z.to_nat (cp_size previous)) (entries s)) in
  check (bool_decide (r = cp_root previous))
    "TRANSPARENCY FAILURE: registration history rewritten".

(* @src core/transparency.rs 171-177 decode *)
Definition decode_snapshot (b : bytes) : result Snapshot :=
  let? body := decode b in
  match body with
  | Body.AuditLog s => validate s ;;? Ok s
  | _ => Err (Anyhow "transparency response missing or unsupported")
  end.

(** What one attempt of [append] decides from the value it read: nothing to do,
    or the bytes to publish. *)
(* @src core/transparency.rs 141-159 append (attempt) *)
Definition append_plan (k : KeyPair) (r : DeviceRegistration) (current : bytes)
  : result (Plan unit) :=
  let? s := decode_snapshot current in
  check (bool_decide (cp_signer (checkpoint s) = public_key k)) "directory signer changed" ;;?
  match List.find (fun e => bool_decide (key (payload e) = key (payload r))) (entries s) with
  | Some existing =>
      check (bool_decide (existing = r)) "immutable transparency registration conflict" ;;?
      Ok (Done tt)
  | None =>
      let? s := signed (entries s ++ [r]) k in
      let? b := encode (Body.AuditLog s) in
      Ok (Publish b tt)
  end.

(** [for _ in 0..4]: the first four of the attempts the environment allows. *)
(* @src core/transparency.rs 130-170 append *)
Definition append (k : KeyPair) (r : DeviceRegistration) (env : list Attempt) (kv : Kv)
  : result unit * Kv :=
  match verify r with
  | Err e => (Err e, kv)
  | Ok _ =>
      cas_loop "snapshot" "transparency log missing; restart service"
        "transparency append could not be confirmed; retry registration"
        (append_plan k r) (take 4 env) kv
  end.

(* @src core/transparency.rs 178-185 read *)
Definition read (kv : Kv) : result Snapshot :=
  let? e := ok_or (kv_entries kv !! "snapshot") (Anyhow "transparency log missing") in
  decode_snapshot (value e).

(** [during] is what a competing initializer does before the [create]. *)
(* @src core/transparency.rs 186-197 initialize *)
Definition initialize (k : KeyPair) (during : Kv -> Kv) (kv : Kv) : result unit * Kv :=
  let after kv := (let? s := read kv in
                   check (bool_decide (cp_signer (checkpoint s) = public_key k))
                     "directory signer differs from persisted log", kv) in
  match kv_entries kv !! "snapshot" with
  | Some _ => after kv
  | None =>
      match (let? s := signed [] k in encode (Body.AuditLog s)) with
      | Err e => (Err e, kv)
      | Ok b => after (kv_create "snapshot" b (during kv))
      end
  end.

(** ** Client queries, on an authenticated snapshot *)

(* @src core/transparency.rs 233-245 lookup *)
Definition find_record (s : Snapshot) (user device : string) : option DeviceRegistration :=
  List.find (fun r => bool_decide (user_id (payload r) = user)
                      && bool_decide (device_id (payload r) = device)) (entries s).

Definition by_device (a b : DeviceRegistration) : Prop :=
  string_leb (device_id (payload a)) (device_id (payload b)) = true.
#[local] Instance by_device_dec : RelDecision by_device.
Proof. intros a b. unfold by_device. apply _. Defined.
(* @src core/transparency.rs 253-264 devices *)
Definition user_records (s : Snapshot) (user : string) : list DeviceRegistration :=
  merge_sort by_device
    (List.filter (fun r => bool_decide (user_id (payload r) = user)) (entries s)).
End transparency.
