(* ===== verification/TransparencyFacts.v ===== *)
(** * Properties of the transparency log

    A checkpoint commits to the entries it was issued for, an accepted snapshot
    extends the accepted ones before it, and concurrent appends never lose or
    reorder an entry. *)
From S2P Require Import Prelude External Wire Identity Models KvStore Merkle Transparency.

Section facts.
Context `{NKeys} `{MlsPackages} `{Sha256} `{Postcard Envelope} `{Postcard RegistrationPayload}
  `{Postcard CheckpointTuple}.

(** ** What validation establishes *)

Lemma validate_entries_Ok eps ks es u :
  validate_entries eps ks es = Ok u ->
  Forall (fun e => verify_signature e = Ok tt) es /\
  NoDup ((fun e => key (payload e)) <$> es) /\
  NoDup ((fun e => nats_public_key (payload e)) <$> es) /\
  (forall e, e ∈ es -> (key (payload e) ∉ eps) /\ (nats_public_key (payload e) ∉ ks)).
Proof.
  revert eps ks; induction es as [|e es IH]; intros eps ks Hv; simpl in Hv.
  { split_and!; [constructor..|]. intros e Hin. by apply not_elem_of_nil in Hin. }
  apply rbind_Ok in Hv as ([] & Hsig & Hv). apply rbind_Ok in Hv as ([] & Hc & Hv).
  apply check_Ok in Hc. apply andb_prop in Hc as [Hc1 Hc2].
  apply negb_true_iff, bool_decide_eq_false in Hc1, Hc2.
  apply IH in Hv as (Hall & Hk & Hn & Hout).
  assert (forall e', e' ∈ es -> key (payload e') <> key (payload e) /\
    nats_public_key (payload e') <> nats_public_key (payload e) /\
    (key (payload e') ∉ eps) /\ (nats_public_key (payload e') ∉ ks)) as Hsep.
  { intros e' Hin. destruct (Hout _ Hin) as [Ha Hb].
    rewrite elem_of_union, elem_of_singleton in Ha, Hb. tauto. }
  split_and!.
  - by constructor.
  - rewrite fmap_cons. constructor; [|done]. intros (e' & Ee & Hin)%list_elem_of_fmap.
    by destruct (Hsep _ Hin) as [? _].
  - rewrite fmap_cons. constructor; [|done]. intros (e' & Ee & Hin)%list_elem_of_fmap.
    by destruct (Hsep _ Hin) as (_ & ? & _).
  - intros e' [->|Hin]%elem_of_cons; [done|]. by destruct (Hsep _ Hin) as (_ & _ & ?).
Qed.

Lemma validate_Ok s u :
  validate s = Ok u ->
  cp_size (checkpoint s) = zlen (entries s) /\ zlen (entries s) <= 256 /\
  root (entries s) = Ok (cp_root (checkpoint s)) /\
  (exists b, checkpoint_bytes (checkpoint s) = Ok b /\
     nkey_verifies (cp_signer (checkpoint s)) b (cp_signature (checkpoint s)) = true) /\
  validate_entries ∅ ∅ (entries s) = Ok tt.
Proof.
  unfold validate, verify_with. intros Hv. inv_ok. bool_prop.
  destruct (nkey_verifies _ _ _) eqn:Hs; [|by inv_ok].
  split_and!; try done; [congruence|]. eexists. by split.
Qed.

(** A validated snapshot is what its signer published: its checkpoint carries
    a signature of the named signer over the size and the Merkle root of exactly
    these entries, each entry is signed by its own device key, and no user-device
    name and no device key occurs twice. *)
Theorem validate_sound s :
  validate s = Ok tt ->
  (exists b, checkpoint_bytes (checkpoint s) = Ok b /\
     nkey_verifies (cp_signer (checkpoint s)) b (cp_signature (checkpoint s)) = true) /\
  cp_size (checkpoint s) = zlen (entries s) /\
  root (entries s) = Ok (cp_root (checkpoint s)) /\
  Forall (fun e => verify_signature e = Ok tt) (entries s) /\
  NoDup ((fun e => key (payload e)) <$> entries s) /\
  NoDup ((fun e => nats_public_key (payload e)) <$> entries s).
Proof.
  intros (Hsz & _ & Hr & Hsig & He)%validate_Ok.
  apply validate_entries_Ok in He as (? & ? & ? & _). split_and!; done.
Qed.

(** ** Prefix evidence *)

Definition register_law (r : DeviceRegistration) : Prop :=
  postcard_law {| version := VERSION; body := Body.Register r |}.

Lemma extends_prefix_inj old new :
  (forall r r' b, r ∈ entries old -> r' ∈ entries new ->
     registration_leaf r = Ok b -> registration_leaf r' = Ok b -> r = r') ->
  validate old = Ok tt -> extends new (checkpoint old) = Ok tt ->
  cp_signer (checkpoint new) = cp_signer (checkpoint old) /\
  (entries old `prefix_of` entries new \/ collision).
Proof.
  intros Hinj (Hsz & _ & Hro & _)%validate_Ok He. unfold extends in He. inv_ok. bool_prop.
  split; [done|]. subst. rewrite Hsz in *.
  destruct (merkle_root_inj registration_leaf (entries old)
    (take (Z.to_nat (zlen (entries old))) (entries new)) (cp_root (checkpoint old)))
    as [Heq|?]; [|done|done| |by right].
  - intros r r' b Hr Hr'. apply Hinj; [done|]. by eapply take_elem_of.
  - left. rewrite Heq. apply prefix_take.
Qed.

(** History cannot be rewritten unnoticed. If a validated snapshot extends the
    checkpoint of an earlier validated snapshot, then it has the same signer and
    the earlier entries are a prefix of its entries, or two different inputs of
    SHA-256 with the same digest have been found. *)
Theorem extends_prefix old new :
  (forall r, r ∈ entries old ++ entries new -> register_law r) ->
  validate old = Ok tt -> validate new = Ok tt -> extends new (checkpoint old) = Ok tt ->
  cp_signer (checkpoint new) = cp_signer (checkpoint old) /\
  (entries old `prefix_of` entries new \/ collision).
Proof.
  intros Hlaw Hv _. apply extends_prefix_inj; [|done]. intros r r' b Hr Hr' Hb Hb'.
  assert (register_law r) as L1 by (apply Hlaw; rewrite elem_of_app; by left).
  assert (register_law r') as L2 by (apply Hlaw; rewrite elem_of_app; by right).
  pose proof (encode_inj _ _ _ L1 L2 Hb Hb') as Hi. congruence.
Qed.

(** ** Concurrent appends *)

Lemma signed_Ok es k s :
  signed es k = Ok s ->
  validate s = Ok tt /\ entries s = es /\ cp_signer (checkpoint s) = public_key k.
Proof. unfold signed. intros Hs. inv_ok. done. Qed.

Lemma decode_snapshot_Ok b s : decode_snapshot b = Ok s -> decode b = Ok (Body.AuditLog s) /\ validate s = Ok tt.
Proof.
  unfold decode_snapshot. intros Hd. apply rbind_Ok in Hd as (body & Hb & Hd).
  destruct body; try done. inv_ok. done.
Qed.

(** Snapshots the encoder accepts come back from the decoder. *)
Definition snapshot_codec : Prop :=
  forall s b, encode (Body.AuditLog s) = Ok b -> decode b = Ok (Body.AuditLog s).

(** The log only grows, under its signer. *)
Definition log_grows (s s' : Snapshot) : Prop :=
  entries s `prefix_of` entries s' /\ cp_signer (checkpoint s') = cp_signer (checkpoint s).
#[global] Instance log_grows_preorder : PreOrder log_grows.
Proof.
  split; [done|]. intros a b c [Hab Eab] [Hbc Ebc]. split; [by etrans|congruence].
Qed.
(** What every client of the store relies on and guarantees about the log. *)
Definition snapshot_step : Kv -> Kv -> Prop := kv_step "snapshot" decode_snapshot log_grows.

Lemma append_plan_publish k r cur b u :
  snapshot_codec -> append_plan k r cur = Ok (Publish b u) ->
  exists s s', decode_snapshot cur = Ok s /\ decode_snapshot b = Ok s' /\
    log_grows s s' /\ r ∈ entries s'.
Proof.
  intros Hcodec Hp. unfold append_plan in Hp. apply rbind_Ok in Hp as (s & Hs & Hp).
  apply rbind_Ok in Hp as ([] & Hk & Hp). apply check_Ok in Hk. bool_prop.
  destruct (List.find _ (entries s)) eqn:Hf; [by inv_ok|].
  apply rbind_Ok in Hp as (s' & Hs' & Hp). apply rbind_Ok in Hp as (b' & Hb & [= ->]).
  apply signed_Ok in Hs' as (Hv & He & Hsg). exists s, s'. split_and!; [done| | |].
  - unfold decode_snapshot. rewrite (Hcodec _ _ Hb). simpl. by rewrite Hv.
  - split; [rewrite He; by exists [r]|congruence].
  - rewrite He, elem_of_app. right. by left.
Qed.

Lemma append_plan_present k r cur u :
  append_plan k r cur = Ok (Done u) -> exists s, decode_snapshot cur = Ok s /\ r ∈ entries s.
Proof.
  unfold append_plan. intros Hp. apply rbind_Ok in Hp as (s & Hs & Hp). exists s.
  split; [done|]. apply rbind_Ok in Hp as ([] & _ & Hp).
  destruct (List.find _ (entries s)) as [e|] eqn:Hf; [|by inv_ok].
  inv_ok. bool_prop. subst e. apply List.find_some in Hf as [Hin _]. by apply list_elem_of_In.
Qed.

Lemma stored_read kv s : stored "snapshot" decode_snapshot kv s <-> read kv = Ok s.
Proof.
  unfold stored, read. split.
  - intros (e & He & Hd). by rewrite He.
  - intros Hr. destruct (kv_entries kv !! "snapshot") as [e|] eqn:He; [|done]. by exists e.
Qed.

(** The log is append-only under concurrency. Whatever other clients of the
    store do between the reads and the updates of an append, as long as each of
    their writes also only extends the log and gets a fresh revision, the append
    itself does so too, on every outcome (success, conflict, lost
    acknowledgment, four failed attempts): a log that could be read before is a
    prefix of the log that can be read afterwards. When the append reports
    success, the registration is in the log. *)
Theorem append_rely_guarantee k r env kv res kv' :
  snapshot_codec -> kv_wf kv ->
  Forall (fun a => forall kv, snapshot_step kv (interference a kv)) env ->
  append k r env kv = (res, kv') ->
  snapshot_step kv kv' /\
  (forall s, read kv = Ok s -> exists s', read kv' = Ok s' /\ log_grows s s') /\
  (res = Ok tt -> exists s, read kv' = Ok s /\ r ∈ entries s).
Proof.
  intros Hcodec Hwf Henv Hrun.
  assert (snapshot_step kv kv' /\ (res = Ok tt -> exists s, read kv' = Ok s /\ r ∈ entries s))
    as [Hstep Hres].
  { unfold append in Hrun. destruct (verify r); [|by injection Hrun as <- <-].
    destruct (cas_loop_step "snapshot" decode_snapshot log_grows _ _ _ (fun _ s => r ∈ entries s)
      _ _ _ _ (append_plan_present k r) (fun cur b u => append_plan_publish k r cur b u Hcodec)
      Hwf (Forall_take _ _ _ Henv) Hrun) as [Hs Hg]. split; [done|]. intros ->. destruct (Hg tt eq_refl) as (s & Hst & ?). exists s.
    by rewrite <- stored_read. }
  split_and!; [done| |done]. intros s Hs%stored_read. destruct (Hstep Hwf) as (_ & _ & Hgrow).
  destruct (Hgrow s Hs) as (s' & Hs' & ?). exists s'. by rewrite <- stored_read.
Qed.
End facts.

(** ** A log with one registration *)

Definition operator : KeyPair := {| public_key := "UDIR"; seed := "SUDIR" |}.
(** The last bytes are the digest: inputs share their first ones. *)
Definition digest_model : Sha256 := fun b => Ok (take 32 (rev b ++ repeat x00 32)).
Definition signed_model (es : list DeviceRegistration) (h : bytes) : Snapshot :=
  {| checkpoint := {| cp_version := 1; cp_size := zlen es; cp_root := h; cp_signer := "UDIR";
                      cp_signature := good_signature |};
     entries := es |}.
Definition log_0 : Snapshot := signed_model [] (repeat x00 32).
Definition log_1 : Snapshot := signed_model [reg_a] (x01 :: repeat x00 31).
Definition log_envelope_model : Postcard Envelope := {|
  to_allocvec := fun e =>
    if negb (version e =? 1) then Err External
    else match body e with
    | Body.Register r => if bool_decide (r = reg_a) then Ok [x01] else Err External
    | Body.AuditLog s => if bool_decide (s = log_0) then Ok [x10]
                         else if bool_decide (s = log_1) then Ok [x11] else Err External
    | _ => Err External
    end;
  take_from_bytes := fun b =>
    match b with
    | x01 :: rest => Ok ({| version := 1; body := Body.Register reg_a |}, rest)
    | x10 :: rest => Ok ({| version := 1; body := Body.AuditLog log_0 |}, rest)
    | x11 :: rest => Ok ({| version := 1; body := Body.AuditLog log_1 |}, rest)
    | _ => Err External
    end |}.
Definition checkpoint_model : Postcard CheckpointTuple := {|
  to_allocvec := fun _ => Ok [x00];
  take_from_bytes := fun _ => Err External |}.
#[local] Existing Instances digest_model log_envelope_model checkpoint_model.

Lemma log_codec : snapshot_codec.
Proof.
  intros s b [_ He]%encode_Ok. simpl in He. apply decode_Ok. case_bool_decide; [|case_bool_decide; [|done]].
  all: injection He as <-; subst; split; [vm_compute; discriminate|reflexivity].
Qed.

Lemma validate_sound_witness :
  NoDup ((fun e => nats_public_key (payload e)) <$> entries log_1).
Proof. apply (validate_sound log_1). vm_compute. reflexivity. Defined.

Lemma extends_prefix_witness :
  cp_signer (checkpoint log_1) = cp_signer (checkpoint log_0) /\
  (entries log_0 `prefix_of` entries log_1 \/ collision).
Proof.
  apply (extends_prefix log_0 log_1); [|vm_compute; reflexivity..].
  intros r Hr. exists [x01]. apply list_elem_of_singleton in Hr as ->.
  split; [vm_compute; reflexivity|done].
Defined.

(** A bucket with the empty log; the first update loses its acknowledgment and
    another client rewrites the same value before the second. *)
Definition bucket : Kv := kv_put "snapshot" [x10] {| kv_entries := ∅; kv_last := 0 |}.
Definition flaky : list Attempt :=
  [{| interference := id; acknowledged := false |}; {| interference := id; acknowledged := true |}].
Lemma append_rely_guarantee_witness :
  exists s, read (snd (append operator reg_a flaky bucket)) = Ok s /\ reg_a ∈ entries s.
Proof.
  refine (proj2 (proj2 (append_rely_guarantee operator reg_a flaky bucket (Ok tt) _
    log_codec _ _ _)) eq_refl).
  - intros k e He. simpl in He. apply lookup_insert_Some in He as [[_ <-]|[_ He]]; [done|].
    by rewrite lookup_empty in He.
  - apply List.Forall_forall. intros a [<-|[<-|[]]] kv; done.
  - apply run_fst. vm_compute. reflexivity.
Defined.
