(* ===== verification/Secrets.v ===== *)
(** * Credentials

    [crates/epochgrid-core/src/secrets.rs]: references to credentials that live
    in a keyring, the keyring backend, and the provisioning of a role's
    credential, which survives a crash at any point without ever replacing a
    key. The reference and its checks come first, the vault after them. *)
From S2P Require Import Prelude External Merkle.

(* @src core/secrets.rs 15-22 Kind *)
Inductive Kind : Type := User | Account | XKey | Database.
#[global] Instance Kind_eq_dec : EqDecision Kind.
Proof. solve_decision. Defined.

(** Key pairs from their seeds: [nkeys::XKey::from_seed] and
    [nkeys::KeyPair::from_seed], the latter with its type. *)
Class Seeds : Type := {
  xkey_public : string -> option string;
  seed_pair : string -> option (KeyPairType * string);
}.

Section kinds.
Context `{Seeds} `{Sha256}.

(* @src core/secrets.rs 39-67 Kind::public *)
Definition kind_public (k : Kind) (secret : string) : result string :=
  match k with
  | Database =>
      check ((slen secret =? 64) && string_all is_lower_hex secret) "invalid database key" ;;?
      let? h := hash (as_bytes secret) in
      Ok (hex_bytes h)
  | XKey => ok_or (xkey_public secret) (Anyhow "invalid XKey credential")
  | _ =>
      let? (type, public) := ok_or (seed_pair secret) (Anyhow "invalid NKey credential") in
      let expected := match k with User => UserKey | _ => AccountKey end in
      check (bool_decide (type = expected)) "credential type mismatch" ;;?
      Ok public
  end.
End kinds.

(* @src core/secrets.rs 88-95 SecretRef *)
Record SecretRef : Type := { sr_id : string; sr_kind : Kind; sr_public_key : string }.
#[global] Instance SecretRef_eq_dec : EqDecision SecretRef.
Proof. solve_decision. Defined.

(* @src core/secrets.rs 110-120 validate_id *)
Definition validate_secret_id (id : string) : result unit :=
  check ((slen id =? 56) && starts_with "U" id
         && string_all (fun b => is_ascii_uppercase b || ascii_between "2" "7" b) id)
    "invalid credential reference".

(* @src core/secrets.rs 70-86 Error *)
Definition Binding : error := Anyhow "credential public binding mismatch".
Definition Unavailable : error :=
  Anyhow "Secret Service unavailable; start a Linux Secret Service session".
Definition Locked : error :=
  Anyhow "keyring is locked; unlock it with your OS keyring manager, then retry".
Definition Missing : error :=
  Anyhow "credential missing from keyring; restore the keyring or enroll a fresh device".
Definition Duplicate : error :=
  Anyhow "duplicate credential items; resolve the duplicate in your keyring manager".
Definition Timeout : error :=
  Anyhow "Secret Service operation timed out; check your session and retry".
Definition BackendDenied : error := Anyhow "Secret Service denied or failed the operation".

(** ** Backends

    [Backend]: reading may fail but changes nothing; [create] "must never
    replace an existing item", which is the class of laws below. *)
(* @src core/secrets.rs 122-126 Backend *)
Class Backend (S : Type) : Type := {
  backend_read : string -> S -> result (option string);
  backend_create : string -> string -> M S unit;
}.
Class BackendLaws (S : Type) `{Backend S} : Prop := {
  create_keeps : forall id secret s r s', backend_create id secret s = (r, s') ->
    forall id' v, backend_read id' s = Ok (Some v) -> backend_read id' s' = Ok (Some v);
}.

(** The Secret Service's items that carry the application's attribute. *)
Record Item : Type := { item_id : string; item_locked : bool; item_secret : string }.
Record Keyring : Type := {
  items : list Item;
  service_available : bool;
  default_collection : option bool;
  accepts : bool;
}.

(** [search_items] with the attributes of one ID. *)
Definition found (id : string) (k : Keyring) : list Item :=
  List.filter (fun i => bool_decide (item_id i = id)) (items k).

(** The checks before either operation. *)
(* @src core/secrets.rs 160-176 operate *)
Definition operate_search (id : string) (k : Keyring) : result (list Item) :=
  validate_secret_id id ;;?
  require (service_available k) Unavailable ;;?
  require (zlen (found id k) <=? 1) Duplicate ;;?
  require (forallb (fun i => negb (item_locked i)) (found id k)) Locked ;;?
  Ok (found id k).

(** [default_collection] is [None] when there is none and else whether it is
    locked; [accepts] is whether [create_item] succeeds. *)
(* @src core/secrets.rs 177-187 operate *)
Definition keyring_read (id : string) (k : Keyring) : result (option string) :=
  let? l := operate_search id k in
  Ok (item_secret <$> head l).
(* @src core/secrets.rs 188-211 operate (Create) *)
Definition keyring_create (id secret : string) : M Keyring unit := fun k =>
  match (let? l := operate_search id k in
         require (bool_decide (l = [])) Duplicate ;;?
         let? locked := ok_or (default_collection k) Unavailable in
         require (negb locked) Locked ;;?
         require (accepts k) External) with
  | Ok _ =>
      (Ok tt, {| items := items k ++ [{| item_id := id; item_locked := false;
                                         item_secret := secret |}];
                 service_available := service_available k;
                 default_collection := default_collection k; accepts := accepts k |})
  | Err e => (Err e, k)
  end.

#[global] Instance keyring_eq_items : EqDecision Item.
Proof. solve_decision. Defined.
(* @src core/secrets.rs 215-223 LinuxKeyring *)
#[global] Instance linux_keyring : Backend Keyring := {
  backend_read := keyring_read;
  backend_create := keyring_create;
}.

Section reference.
Context {S : Type} `{Backend S} `{Seeds} `{Sha256}.

(* @src core/secrets.rs 100-108 SecretRef::read_with *)
Definition read_with (r : SecretRef) (s : S) : result string :=
  validate_secret_id (sr_id r) ;;?
  let? o := backend_read (sr_id r) s in
  let? secret := ok_or o Missing in
  let? public := kind_public (sr_kind r) secret in
  require (bool_decide (public = sr_public_key r)) Binding ;;?
  Ok secret.
End reference.

(** ** The vault *)

(* @src core/secrets.rs 225-231 Slot *)
Record Slot : Type := { slot_id : string; slot_kind : Kind; slot_public_key : option string }.
(* @src core/secrets.rs 232-237 Metadata *)
Record Metadata : Type := { md_version : Z; slots : gmap string Slot }.

(** The metadata file and the keyring. The file is absent, unreadable, or holds
    a value. [save] replaces it atomically: [saves] says, for each of the next
    calls, whether the new file was moved into place and whether the directory
    was synced after that; a call without an entry succeeds. *)
Record VaultState (S : Type) : Type := {
  metadata_file : option (result Metadata);
  keyring : S;
  saves : list (bool * bool);
}.
Arguments metadata_file {S}. Arguments keyring {S}. Arguments saves {S}.

Section vault.
Context {S : Type} `{Backend S} `{Seeds} `{Sha256}.
Implicit Types (v : VaultState S).

(* @src core/secrets.rs 377-385 save *)
Definition save (m : Metadata) : M (VaultState S) unit := fun v =>
  let '(moved, synced) := hd (true, true) (saves v) in
  (if moved && synced then Ok tt else Err External,
   {| metadata_file := if moved : bool then Some (Ok m) else metadata_file v;
      keyring := keyring v; saves := tl (saves v) |}).
Definition lift_backend {A} (m : M S A) : M (VaultState S) A := fun v =>
  let '(r, k) := m (keyring v) in
  (r, {| metadata_file := metadata_file v; keyring := k; saves := saves v |}).
Definition read_metadata (v : VaultState S) : result Metadata :=
  match metadata_file v with
  | None => Ok {| md_version := 1; slots := ∅ |}
  | Some r => r
  end.
Definition bread (id : string) : M (VaultState S) (option string) := fun v =>
  (backend_read id (keyring v), v).

(** The slot's secret: the one in the keyring, or a new one when the slot never
    had one. *)
(* @src core/secrets.rs 325-339 ensure (secret) *)
Definition slot_secret (k : Kind) (imported : option string) (generated : result string)
  (slot : Slot) : M (VaultState S) string :=
  let* o := bread (slot_id slot) in
  match o with
  | Some secret => ret secret
  | None =>
      lift (require (bool_decide (slot_public_key slot = None)) Missing) ;;;
      let* secret := lift (match imported with Some value => Ok value | None => generated end) in
      let* _ := lift (kind_public k secret) in
      lift_backend (backend_create (slot_id slot) secret) ;;;
      let* o := bread (slot_id slot) in
      let* readback := lift (ok_or o Missing) in
      ensure (bool_decide (secret = readback)) "credential readback mismatch" ;;;
      ret readback
  end.

(** The slot of the role is on disk before its secret exists. [fresh] is the
    public key of a new user key. *)
(* @src core/secrets.rs 311-322 ensure (pending slot) *)
Definition pending_slot (role : string) (k : Kind) (fresh : string) (metadata : Metadata)
  : M (VaultState S) Metadata :=
  match slots metadata !! role with
  | Some _ => ret metadata
  | None =>
      let metadata :=
        {| md_version := md_version metadata;
           slots := <[role := {| slot_id := fresh; slot_kind := k; slot_public_key := None |}]>
                      (slots metadata) |} in
      save metadata ;;;
      ret metadata
  end.

(* @src core/secrets.rs 323-360 ensure (secret and reference) *)
Definition finish_slot (role : string) (k : Kind) (imported : option string)
  (generated : result string) (metadata : Metadata) : M (VaultState S) SecretRef :=
  let* slot := lift (ok_or (slots metadata !! role) External) in
  ensure (bool_decide (slot_kind slot = k)) "credential role type mismatch" ;;;
  lift (validate_secret_id (slot_id slot)) ;;;
  let* secret := slot_secret k imported generated slot in
  let* public := lift (kind_public k secret) in
  ensure (match slot_public_key slot with
          | Some expected => bool_decide (expected = public)
          | None => true
          end) "credential public binding mismatch" ;;;
  match imported with
  | Some value =>
      let* p := lift (kind_public k value) in
      ensure (bool_decide (p = public)) "pending restore belongs to a different identity"
  | None => ret tt
  end ;;;
  save {| md_version := md_version metadata;
          slots := <[role := {| slot_id := slot_id slot; slot_kind := slot_kind slot;
                                slot_public_key := Some public |}]> (slots metadata) |} ;;;
  ret {| sr_id := slot_id slot; sr_kind := k; sr_public_key := public |}.

(** [lock_free] is whether the vault's file lock was free, [generated] a fresh
    secret of the kind. *)
(* @src core/secrets.rs 284-361 ensure *)
Definition vault_ensure (role : string) (k : Kind) (imported : option string)
  (lock_free : bool) (fresh : string) (generated : result string) : M (VaultState S) SecretRef :=
  ensure (negb (bool_decide (role = EmptyString)) && (slen role <=? 64))
    "invalid credential role" ;;;
  ensure lock_free "credential initialization already in progress" ;;;
  let* r := gets read_metadata in
  let* metadata := lift r in
  ensure (md_version metadata =? 1)
    "unsupported credential metadata version; use fresh state" ;;;
  let* metadata := pending_slot role k fresh metadata in
  finish_slot role k imported generated metadata.

(* @src core/secrets.rs 250-254 provision *)
Definition provision (role : string) (k : Kind) (lock_free : bool) (fresh : string)
  (generated : result string) : M (VaultState S) SecretRef :=
  vault_ensure role k None lock_free fresh generated.
(* @src core/secrets.rs 281-283 import *)
Definition import (role : string) (k : Kind) (secret : string) (lock_free : bool) (fresh : string)
  : M (VaultState S) SecretRef :=
  vault_ensure role k (Some secret) lock_free fresh (Err External).

(* @src core/secrets.rs 255-280 existing *)
Definition existing (role : string) (k : Kind) (v : VaultState S) : result SecretRef :=
  let? metadata := match metadata_file v with
                   | None => Err (Anyhow "existing credential metadata required")
                   | Some r => r
                   end in
  check (md_version metadata =? 1) "unsupported credential metadata version" ;;?
  let? slot := ok_or (slots metadata !! role) (Anyhow "credential role missing") in
  check (bool_decide (slot_kind slot = k)) "credential role type mismatch" ;;?
  let? public := ok_or (slot_public_key slot) (Anyhow "credential initialization incomplete") in
  let reference := {| sr_id := slot_id slot; sr_kind := k; sr_public_key := public |} in
  let? _ := read_with reference (keyring v) in
  Ok reference.
End vault.

(** ** What provisioning keeps *)

Lemma operate_search_Ok id k l :
  operate_search id k = Ok l ->
  l = found id k /\ forall k', found id k' = found id k -> service_available k' = service_available k ->
    operate_search id k' = Ok l.
Proof.
  unfold operate_search. intros Hs. inv_ok. split; [done|]. intros k' Hf Ha.
  rewrite Hf, Ha. repeat match goal with Hb : _ = true |- _ => rewrite Hb; clear Hb
    | Hu : validate_secret_id _ = Ok _ |- _ => rewrite Hu; clear Hu end. done.
Qed.

(** The keyring never replaces an item: [create] appends, and only where the
    search found nothing. *)
#[global] Instance keyring_laws : BackendLaws Keyring.
Proof.
  split. intros id secret k r k' Hc id' v Hr. simpl in Hc, Hr |- *. unfold keyring_create in Hc.
  destruct (rbind _ _) as [u|e] eqn:Hs; [|by injection Hc as <- <-].
  injection Hc as <- <-. apply rbind_Ok in Hs as (l & [-> _]%operate_search_Ok & Hs).
  apply rbind_Ok in Hs as ([] & Hnil & _). apply require_Ok, bool_decide_eq_true in Hnil.
  unfold keyring_read in *. apply rbind_Ok in Hr as (l & [-> Hsame]%operate_search_Ok & Hr).
  rewrite Hsame; [done| |done]. unfold found. simpl. rewrite List.filter_app. simpl.
  rewrite bool_decide_eq_false_2; [by rewrite app_nil_r|]. intros ->. by rewrite Hnil in Hr.
Qed.

Definition slot_le (s s' : Slot) : Prop :=
  slot_id s' = slot_id s /\ slot_kind s' = slot_kind s /\
  forall p, slot_public_key s = Some p -> slot_public_key s' = Some p.
Definition metadata_le (m m' : Metadata) : Prop :=
  md_version m' = md_version m /\
  forall role s, slots m !! role = Some s ->
    exists s', slots m' !! role = Some s' /\ slot_le s s'.
#[global] Instance metadata_le_preorder : PreOrder metadata_le.
Proof.
  split.
  - intros m. split; [done|]. intros role s Hs. exists s. split; [done|]. by split_and!.
  - intros a b c [Vab Hab] [Vbc Hbc]. split; [congruence|]. intros role s Hs.
    destruct (Hab _ _ Hs) as (s1 & Hs1 & I1 & K1 & P1).
    destruct (Hbc _ _ Hs1) as (s2 & Hs2 & I2 & K2 & P2). exists s2.
    split; [done|]. split_and!; [congruence..|]. auto.
Qed.

(** Inserting a slot that is new or keeps what the old one fixed. *)
Lemma metadata_le_insert m role s :
  (forall s0, slots m !! role = Some s0 -> slot_le s0 s) ->
  metadata_le m {| md_version := md_version m; slots := <[role := s]> (slots m) |}.
Proof.
  intros Hs. split; [done|]. intros role' s0 Hs0. simpl. destruct (decide (role' = role)) as [->|Hne].
  - rewrite lookup_insert_eq. exists s. split; [done|]. by apply Hs.
  - rewrite lookup_insert_ne by done. exists s0. split; [done|]. by split_and!.
Qed.

Section vault_facts.
Context {S : Type} `{BackendLaws S} `{Seeds} `{Sha256}.
Implicit Types (v : VaultState S).

Definition keyring_le v v' : Prop :=
  forall id x, backend_read id (keyring v) = Ok (Some x) ->
    backend_read id (keyring v') = Ok (Some x).
Definition vault_le v v' : Prop :=
  keyring_le v v' /\
  forall m, read_metadata v = Ok m ->
    exists m', read_metadata v' = Ok m' /\ metadata_le m m'.
#[global] Instance vault_le_preorder : PreOrder vault_le.
Proof.
  split.
  - intros v. split; [by intros ? ?|]. intros m Hm. by exists m.
  - intros a b c [Kab Mab] [Kbc Mbc]. split; [intros ? ? ?; by apply Kbc, Kab|].
    intros m Hm. destruct (Mab _ Hm) as (m1 & Hm1 & L1). destruct (Mbc _ Hm1) as (m2 & Hm2 & L2).
    exists m2. split; [done|]. by etrans.
Qed.

(** What does not touch the metadata file. *)
Definition same_file v v' : Prop := metadata_file v' = metadata_file v /\ keyring_le v v'.
#[local] Instance same_file_preorder : PreOrder same_file.
Proof.
  split; [by intros v; split; [|intros ? ?]|]. intros a b c [Fab Kab] [Fbc Kbc].
  split; [congruence|]. intros ? ? ?. by apply Kbc, Kab.
Qed.
Lemma same_file_le v v' : same_file v v' -> vault_le v v'.
Proof.
  intros [Hf Hk]. split; [done|]. intros m Hm. exists m. unfold read_metadata in *. by rewrite Hf.
Qed.

Lemma slot_secret_keeps k imported generated slot :
  keeps same_file (slot_secret k imported generated slot).
Proof.
  unfold slot_secret. keeps_auto; try (intros v; reflexivity).
  intros v. unfold lift_backend. destruct (backend_create _ _ _) as [r k'] eqn:Hc. simpl.
  split; [done|]. intros id y. simpl. by eapply create_keeps.
Qed.

Lemma slot_secret_Ok k imported generated slot v secret v' :
  slot_secret k imported generated slot v = (Ok secret, v') ->
  backend_read (slot_id slot) (keyring v') = Ok (Some secret).
Proof.
  unfold slot_secret, bread. intros Hs. apply bind_Ok in Hs as (o & v1 & Ho & Hs).
  injection Ho as Ho <-. destruct o as [x|]; [inv_ok; by rewrite Ho|].
  do 4 (let a := fresh in let w := fresh in apply bind_Ok in Hs as (a & w & _ & Hs)).
  apply bind_Ok in Hs as (o & v6 & Ho' & Hs). injection Ho' as Ho' <-.
  inv_ok. congruence.
Qed.

Lemma save_run m v r v' :
  save m v = (r, v') ->
  keyring v' = keyring v /\
  (metadata_file v' = Some (Ok m) /\ (r = Ok tt \/ exists e, r = Err e) \/
   (exists e, r = Err e) /\ metadata_file v' = metadata_file v).
Proof.
  unfold save. destruct (hd _ _) as [[] []]; intros [= <- <-]; simpl; (split; [done|]); eauto 10.
Qed.

Lemma save_le m0 m v r v' :
  read_metadata v = Ok m0 -> metadata_le m0 m -> save m v = (r, v') -> vault_le v v'.
Proof.
  intros Hm0 Hle (Hk & [[Hf _]|[_ Hf]])%save_run.
  - split; [intros ? ?; by rewrite Hk|]. intros m1 Hm1. rewrite Hm0 in Hm1. injection Hm1 as <-.
    exists m. unfold read_metadata. by rewrite Hf.
  - apply same_file_le. split; [done|]. intros ? ?. by rewrite Hk.
Qed.

Lemma pending_slot_run role k fresh m v r v' :
  read_metadata v = Ok m -> pending_slot role k fresh m v = (r, v') ->
  vault_le v v' /\ forall m', r = Ok m' -> read_metadata v' = Ok m'.
Proof.
  intros Hm. unfold pending_slot. destruct (slots m !! role) eqn:Hrole.
  { intros [= <- <-]. split; [reflexivity|]. by intros m' [= <-]. }
  intros Hrun. match type of Hrun with bind (save ?m1) _ _ = _ => set (m1' := m1) in * end.
  destruct (save m1' v) as [rs vs] eqn:Hsave. unfold bind in Hrun. rewrite Hsave in Hrun.
  assert (vault_le v vs) as Hle.
  { eapply save_le; [exact Hm| |exact Hsave]. apply metadata_le_insert. congruence. }
  apply save_run in Hsave as (_ & [[Hf [->|[e ->]]]|[[e ->] Hf]]); injection Hrun as <- <-;
    (split; [done|]); [|done..].
  intros m' [= <-]. unfold read_metadata. by rewrite Hf.
Qed.

(** After the checks of [finish_slot] the slot it saves extends the one read. *)
Lemma finish_slot_le role k imported generated m v :
  read_metadata v = Ok m -> vault_le v (snd (finish_slot role k imported generated m v)).
Proof.
  intros Hm. unfold finish_slot.
  apply keeps_bind_at; [intros slot ? [Hslot ->]%lift_Ok|by intros ? ? [_ ->]%lift_Err].
  apply ok_or_Ok in Hslot.
  apply keeps_bind_at; [intros [] ? [_ ->]%ensure_Ok|by intros ? ? [_ ->]%ensure_Err].
  apply keeps_bind_at; [intros [] ? [_ ->]%lift_Ok|by intros ? ? [_ ->]%lift_Err].
  pose proof (slot_secret_keeps k imported generated slot v) as Hk.
  apply keeps_bind_at; [|intros ? ? He; rewrite He in Hk; by apply same_file_le].
  intros secret v1 Hs. rewrite Hs in Hk. destruct Hk as [Hf Hkr]. simpl in Hf, Hkr.
  etrans; [by apply same_file_le; split|].
  assert (read_metadata v1 = Ok m) as Hm1 by (unfold read_metadata in *; by rewrite Hf).
  apply keeps_bind_at; [intros public ? [_ ->]%lift_Ok|by intros ? ? [_ ->]%lift_Err].
  apply keeps_bind_at; [intros [] ? [Hpub ->]%ensure_Ok|by intros ? ? [_ ->]%ensure_Err].
  apply keeps_bind_at.
  - intros [] v2 Hi. assert (v2 = v1) as ->.
    { destruct imported; inv_ok; done. }
    apply keeps_bind_at; [intros [] v3 Hsave|intros e v3 Hsave].
    all: eapply save_le; [exact Hm1| |exact Hsave].
    all: apply metadata_le_insert; intros s0 Hs0; rewrite Hslot in Hs0; injection Hs0 as <-.
    all: split_and!; [done..|]; intros p Hp; simpl; rewrite Hp in Hpub; bool_prop; congruence.
  - intros e v2 Hi. destruct imported as [x|]; [|done].
    by apply bind_Err in Hi as [[_ ->]%lift_Err|(a & s & [_ ->]%lift_Ok & [_ ->]%ensure_Err)].
Qed.

Lemma vault_ensure_le role k imported lock_free fresh generated :
  keeps vault_le (vault_ensure role k imported lock_free fresh generated).
Proof.
  intros v. unfold vault_ensure.
  do 2 (apply keeps_bind_at; [intros [] ? [_ ->]%ensure_Ok|by intros ? ? [_ ->]%ensure_Err]).
  apply keeps_bind_at; [intros rm ? [-> ->]%gets_Ok|done].
  apply keeps_bind_at; [intros m ? [Hm ->]%lift_Ok|by intros ? ? [_ ->]%lift_Err].
  apply keeps_bind_at; [intros [] ? [_ ->]%ensure_Ok|by intros ? ? [_ ->]%ensure_Err].
  apply keeps_bind_at; intros x v1 Hp; apply (pending_slot_run _ _ _ _ _ _ _ Hm) in Hp as [Hle Hm1];
    [|done].
  etrans; [exact Hle|]. apply finish_slot_le. by apply Hm1.
Qed.

(** Provisioning never replaces a credential, wherever it stops. Whatever a
    call to [ensure] returns, a failed write of the metadata included: every
    secret the keyring held before can still be read unchanged, and every slot
    of the metadata keeps its item ID, its kind and, once it has one, its public
    key. A retry therefore finds the pending item again. *)
Theorem vault_never_replaces role k imported lock_free fresh generated v r v' :
  vault_ensure role k imported lock_free fresh generated v = (r, v') ->
  (forall id secret, backend_read id (keyring v) = Ok (Some secret) ->
     backend_read id (keyring v') = Ok (Some secret)) /\
  (forall m, read_metadata v = Ok m ->
     exists m', read_metadata v' = Ok m' /\ metadata_le m m').
Proof.
  intros Hrun. pose proof (vault_ensure_le role k imported lock_free fresh generated v) as Hle.
  rewrite Hrun in Hle. exact Hle.
Qed.

(** A provisioned credential is usable. When [ensure] succeeds, the reference
    it returns has the requested kind, reading it from the keyring gives a
    secret that matches its public key, a later [existing] for the role returns
    the same reference, and an imported secret is one with that public key. *)
Theorem vault_provisions role k imported lock_free fresh generated v reference v' :
  vault_ensure role k imported lock_free fresh generated v = (Ok reference, v') ->
  sr_kind reference = k /\
  (exists secret, read_with reference (keyring v') = Ok secret /\
     kind_public k secret = Ok (sr_public_key reference)) /\
  existing role k v' = Ok reference /\
  (forall value, imported = Some value -> kind_public k value = Ok (sr_public_key reference)).
Proof.
  unfold vault_ensure. intros Hrun. apply bind_Ok in Hrun as ([] & v1 & [_ ->]%ensure_Ok & Hrun).
  apply bind_Ok in Hrun as ([] & v2 & [_ ->]%ensure_Ok & Hrun).
  apply bind_Ok in Hrun as (rm & v2 & [-> ->]%gets_Ok & Hrun).
  apply bind_Ok in Hrun as (m & v2 & [Hm ->]%lift_Ok & Hrun).
  apply bind_Ok in Hrun as ([] & v2 & [Hver ->]%ensure_Ok & Hrun).
  apply bind_Ok in Hrun as (m1 & v2 & Hp & Hrun).
  assert (md_version m1 = 1) as Hver1.
  { bool_prop. unfold pending_slot in Hp. destruct (slots m !! role); inv_ok; done. }
  apply (pending_slot_run _ _ _ _ _ _ _ Hm) in Hp as [_ _].
  unfold finish_slot in Hrun. apply bind_Ok in Hrun as (slot & v3 & [Hslot ->]%lift_Ok & Hrun).
  apply bind_Ok in Hrun as ([] & v3 & [Hkind ->]%ensure_Ok & Hrun).
  apply bind_Ok in Hrun as ([] & v3 & [Hid ->]%lift_Ok & Hrun).
  apply bind_Ok in Hrun as (secret & v3 & Hs%slot_secret_Ok & Hrun).
  apply bind_Ok in Hrun as (public & v4 & [Hpub ->]%lift_Ok & Hrun).
  apply bind_Ok in Hrun as ([] & v4 & [_ ->]%ensure_Ok & Hrun).
  apply bind_Ok in Hrun as ([] & v4 & Hi & Hrun).
  assert (v4 = v3 /\ forall value, imported = Some value -> kind_public k value = Ok public)
    as [-> Himp].
  { destruct imported as [x|]; [|by inv_ok]. apply bind_Ok in Hi as (p & v5 & [Hx ->]%lift_Ok & Hi).
    apply ensure_Ok in Hi as [Heq ->]. bool_prop. split; [done|]. by intros ? [= <-]; subst. }
  apply bind_Ok in Hrun as ([] & v4 & Hsave%save_run & Hret).
  apply ret_Ok in Hret as [-> ->]. destruct Hsave as (Hk & [[Hf _]|[[? ?] _]]); [|done].
  assert (read_with {| sr_id := slot_id slot; sr_kind := k; sr_public_key := public |} (keyring v4)
    = Ok secret) as Hread.
  { unfold read_with. simpl. rewrite Hid, Hk. simpl. rewrite Hs. simpl. rewrite Hpub. simpl.
    by rewrite bool_decide_eq_true_2. }
  split_and!; [done|by exists secret| |done].
  unfold existing. rewrite Hf. simpl. rewrite Hver1. simpl. rewrite lookup_insert_eq. simpl.
  rewrite Hkind. simpl. by rewrite Hread.
Qed.
End vault_facts.

(** ** A provisioning that is interrupted and retried *)

#[local] Instance seeds_model : Seeds := {
  xkey_public := fun s => Some s;
  seed_pair := fun s => Some (UserKey, "U" +:+ s) }.
#[local] Instance digest_identity : Sha256 := fun b => Ok b.
Definition slot_name : string := "UAAAAAAABBBBBBBBAAAAAAAABBBBBBBBAAAAAAAABBBBBBBBAAAAAAAA".
Definition empty_keyring : Keyring :=
  {| items := []; service_available := true; default_collection := Some false; accepts := true |}.
(** The second write of the metadata fails: the secret exists, the slot does
    not name its public key yet. *)
Definition crashing : VaultState Keyring :=
  {| metadata_file := None; keyring := empty_keyring; saves := [(true, true); (false, true)] |}.
#[local] Abbreviation first_run :=
  (vault_ensure "device" User None true slot_name (Ok "SEED1") crashing).
(** The retry generates other randomness and must not use it. *)
#[local] Abbreviation second_run :=
  (vault_ensure "device" User None true "UX" (Ok "SEED2") (snd first_run)).

Lemma vault_never_replaces_witness :
  fst first_run = Err External /\
  backend_read slot_name (keyring (snd second_run)) = Ok (Some "SEED1").
Proof.
  split; [vm_compute; reflexivity|].
  apply (vault_never_replaces "device" User None true "UX" (Ok "SEED2") (snd first_run)
    (fst second_run)); [by destruct second_run|]. vm_compute. reflexivity.
Defined.

Lemma vault_provisions_witness :
  existing "device" User (snd second_run) =
  Ok {| sr_id := slot_name; sr_kind := User; sr_public_key := "USEED1" |}.
Proof.
  apply (vault_provisions "device" User None true "UX" (Ok "SEED2") (snd first_run)).
  apply run_fst. vm_compute. reflexivity.
Defined.
