(* ===== verification/Tls.v ===== *)
(** * Transport policy and operational counters

    [crates/epochgrid-core/src/tls.rs]: the transport policy every connection
    goes through, read from the environment, which fails closed. And
    [diagnostics.rs]: the saturating counters of the services and the checks a
    status report must pass before it is shown. *)
From S2P Require Import Prelude External Capacity.

(** ** The transport policy *)

(* @src core/tls.rs 7-12 Profile *)
Inductive Profile : Type := Production | Development.
(* @src core/tls.rs 13-18 MinimumVersion *)
Inductive MinimumVersion : Type := Tls12 | Tls13.
#[global] Instance Profile_eq_dec : EqDecision Profile.
Proof. solve_decision. Defined.
#[global] Instance MinimumVersion_eq_dec : EqDecision MinimumVersion.
Proof. solve_decision. Defined.

(* @src core/tls.rs 19-25 TlsConfig *)
Record TlsConfig : Type := {
  profile : Profile;
  ca_path : option string;
  minimum : MinimumVersion;
  first : bool;
}.

(** [get] reads one environment variable: absent, its value or not UTF-8. *)
(* @src core/tls.rs 34-67 from_lookup *)
Definition from_lookup (get : string -> result (option string)) : result TlsConfig :=
  let? p := get "EPOCHGRID_PROFILE" in
  let? profile := (let v := default "production" p in
    if bool_decide (v = "production") then Ok Production
    else if bool_decide (v = "development") then Ok Development
    else Err (Anyhow "EPOCHGRID_PROFILE must be production or development")) in
  let? m := get "EPOCHGRID_TLS_MIN_VERSION" in
  let? minimum := (let v := default "1.3" m in
    if bool_decide (v = "1.2") then Ok Tls12
    else if bool_decide (v = "1.3") then Ok Tls13
    else Err (Anyhow "EPOCHGRID_TLS_MIN_VERSION must be 1.2 or 1.3")) in
  let? f := get "EPOCHGRID_TLS_FIRST" in
  let? first := (let v := default "false" f in
    if bool_decide (v = "true") then Ok true
    else if bool_decide (v = "false") then Ok false
    else Err (Anyhow "EPOCHGRID_TLS_FIRST must be true or false")) in
  let? ca_path := get "EPOCHGRID_TLS_CA_PATH" in
  check (match ca_path with None => true | Some p => negb (bool_decide (p = EmptyString)) end)
    "EPOCHGRID_TLS_CA_PATH cannot be empty" ;;?
  Ok {| profile := profile; ca_path := ca_path; minimum := minimum; first := first |}.

(** [async_nats::ServerAddr]: what its parser makes of a URL. *)
Record ServerAddr : Type := {
  username : option string;
  password : option string;
  tls_required : bool;
}.
Class ServerAddrs : Type := server_addr : string -> option ServerAddr.

(* @src core/tls.rs 76-100 validate_endpoint *)
Definition validate_endpoint `{ServerAddrs} (c : TlsConfig) (url : string) : result bool :=
  check (starts_with "tls://" url || starts_with "nats://" url)
    "use an explicit tls:// endpoint (nats:// only in development)" ;;?
  let? endpoint := ok_or (server_addr url) (Anyhow "invalid NATS endpoint") in
  check (bool_decide (username endpoint = None) && bool_decide (password endpoint = None))
    "endpoint URLs must not contain credentials" ;;?
  let tls := tls_required endpoint in
  check (tls || bool_decide (profile c = Development))
    "production requires tls://; EPOCHGRID_PROFILE=development is only for explicit development fixtures" ;;?
  check (tls || negb (first c)) "TLS-first requires a tls:// endpoint" ;;?
  check (tls || bool_decide (ca_path c = None)) "a CA bundle requires a tls:// endpoint" ;;?
  Ok tls.

(** The certificates of a PEM file, in order, [None] for one that does not
    parse; the platform's certificates and whether loading them reported an
    error; and which certificates the root store takes. *)
Class TrustStore : Type := {
  pem_certificates : string -> result (list (option string));
  native_errors : bool;
  native_certificates : list string;
  root_add : string -> bool;
}.
(* @src core/tls.rs 124-134 ClientConfig *)
Record ClientConfig : Type := { roots : list string; versions : list MinimumVersion }.

Fixpoint add_roots `{TrustStore} (cs : list (option string)) : result (list string) :=
  match cs with
  | [] => Ok []
  | c :: cs =>
      let? c := ok_or c (Anyhow "invalid CA PEM") in
      check (root_add c) "invalid CA certificate" ;;?
      let? rest := add_roots cs in
      Ok (c :: rest)
  end.

(* @src core/tls.rs 105-135 client_config *)
Definition client_config `{TrustStore} (c : TlsConfig) : result ClientConfig :=
  let? roots := match ca_path c with
                | Some path => let? cs := pem_certificates path in add_roots cs
                | None =>
                    check (negb native_errors) "platform trust store could not be loaded" ;;?
                    add_roots (Some <$> native_certificates)
                end in
  check (negb (bool_decide (roots = []))) "TLS trust store contains no certificates" ;;?
  Ok {| roots := roots;
        versions := match minimum c with Tls12 => [Tls13; Tls12] | Tls13 => [Tls13] end |}.

(* @src core/tls.rs 102-104 validate_local *)
Definition validate_local `{TrustStore} (c : TlsConfig) : result unit :=
  let? _ := client_config c in Ok tt.

(** The connection options the policy sets. *)
Record ConnectOptions : Type := {
  subscription_capacity : Z;
  client_capacity : Z;
  connection_seconds : Z;
  require_tls : bool;
  tls_client_config : option ClientConfig;
  opt_tls_first : bool;
}.
(* @src core/capacity.rs 8-8 SUBSCRIPTION_MESSAGES *)
Definition SUBSCRIPTION_MESSAGES : Z := 64.

(* @src core/tls.rs 136-153 apply *)
Definition apply `{ServerAddrs} `{TrustStore} (c : TlsConfig) (url : string)
    (o : ConnectOptions) : result ConnectOptions :=
  let? tls := validate_endpoint c url in
  if negb tls then
    Ok {| subscription_capacity := SUBSCRIPTION_MESSAGES;
          client_capacity := SUBSCRIPTION_MESSAGES; connection_seconds := 5;
          require_tls := require_tls o; tls_client_config := tls_client_config o;
          opt_tls_first := opt_tls_first o |}
  else
    let? config := client_config c in
    Ok {| subscription_capacity := SUBSCRIPTION_MESSAGES;
          client_capacity := SUBSCRIPTION_MESSAGES; connection_seconds := 5;
          require_tls := true; tls_client_config := Some config;
          opt_tls_first := first c || opt_tls_first o |}.

Section policy_facts.
Context `{ServerAddrs} `{TrustStore}.

Lemma add_roots_Ok cs rs : add_roots cs = Ok rs -> Forall (fun r => root_add r = true) rs.
Proof.
  revert rs; induction cs as [|c cs IH]; intros rs Hr; simpl in Hr; inv_ok; constructor; auto.
Qed.

Lemma client_config_Ok c k :
  client_config c = Ok k ->
  roots k <> [] /\ Forall (fun r => root_add r = true) (roots k) /\
  (Tls12 ∈ versions k -> minimum c = Tls12).
Proof.
  unfold client_config. intros Hk. inv_ok. bool_prop. simpl. split_and!; [done| |].
  - destruct (ca_path c); inv_ok; by eapply add_roots_Ok.
  - destruct (minimum c); set_solver.
Qed.

(** The policy fails closed: whatever the environment says, options the
    production profile returns require TLS with a non-empty set of roots, all of
    them certificates the root store took, from a URL without credentials; and
    TLS 1.2 is offered only when the environment asked for it. *)
Theorem tls_fails_closed get c url o o' :
  from_lookup get = Ok c -> apply c url o = Ok o' -> profile c = Production ->
  require_tls o' = true /\
  (exists a, server_addr url = Some a /\ tls_required a = true /\ username a = None
             /\ password a = None) /\
  exists k, tls_client_config o' = Some k /\ roots k <> [] /\
    Forall (fun r => root_add r = true) (roots k) /\
    (Tls12 ∈ versions k -> get "EPOCHGRID_TLS_MIN_VERSION" = Ok (Some "1.2")).
Proof.
  intros Hget Happly Hprod.
  assert (minimum c = Tls12 -> get "EPOCHGRID_TLS_MIN_VERSION" = Ok (Some "1.2")) as Hmin.
  { unfold from_lookup in Hget. inv_ok. simpl in *. intros ->.
    destruct a1 as [v|]; simpl in *; [|by repeat case_bool_decide].
    by repeat case_bool_decide; subst. }
  unfold apply, validate_endpoint in Happly. inv_ok. bool_prop. subst.
  rewrite Hprod in *.
  destruct Hm2 as [Htls|?%bool_decide_eq_true_1]; [|done]. rewrite Htls in Hk. simpl in Hk.
  inv_ok. simpl. split; [done|]. split; [eauto|]. eexists. split; [done|].
  apply client_config_Ok in Hm1 as (? & ? & Hv). split_and!; auto.
Qed.
End policy_facts.
