(* ===== verification/Diagnostics.v ===== *)
(** * Operational status

    [crates/epochgrid-core/src/diagnostics.rs]: saturating counters and the
    checks a status report must pass before it is shown. And
    [crates/epochgrid-service/src/diagnostics.rs]: the runtime a service keeps,
    the admission gate, the bounded queue of audit observations, and the
    snapshot it answers status requests with. *)
From S2P Require Import Prelude External AuthDb Capacity AuditTrail AuditFacts Policy.

(* @src core/diagnostics.rs 5-5 MAX_REPORT *)
Definition MAX_REPORT : Z := 16 * 1024.
(* @src core/diagnostics.rs 6-6 VERSION *)
Definition REPORT_VERSION : Z := 1.
(* @src core/diagnostics.rs 7-7 STALE_MS *)
Definition STALE_MS : Z := 30000.

(* @src core/diagnostics.rs 10-15 Role *)
Inductive Role : Type := RoleAuthority | RoleControl.
(* @src core/diagnostics.rs 16-22 Readiness *)
Inductive Readiness : Type := Ready | NotReady | ReadyUnknown.
(* @src core/diagnostics.rs 23-35 Reason *)
Inductive StatusReason : Type :=
| ConfigurationInvalid | AuthorityUnavailable | ObservationTimeout | UnsupportedResponse
| ReconciliationPending | WorkerAbsent | WorkerLeaseExpired | LeaseUnavailable
| AuditUnavailable.
(* @src core/diagnostics.rs 36-42 Availability *)
Inductive Availability : Type := Current | Stale | NotAvailable.
(* @src core/diagnostics.rs 43-49 Connection *)
Inductive ConnectionState : Type := Connected | Disconnected | Pending.
#[global] Instance Role_eq_dec : EqDecision Role.
Proof. solve_decision. Defined.
#[global] Instance Readiness_eq_dec : EqDecision Readiness.
Proof. solve_decision. Defined.
#[global] Instance StatusReason_eq_dec : EqDecision StatusReason.
Proof. solve_decision. Defined.

(** ** Counters *)

(** [saturating_add(1)] on [u64]. *)
(* @src core/diagnostics.rs 53-61 increment *)
Definition increment (n : Z) : Z := sat_add64 n 1.
(** The live counters and the copy a report carries have the same fields. *)
(* @src core/diagnostics.rs 66-74 Counters *)
Record Counters : Type := {
  received : Z;
  accepted : Z;
  denied : Z;
  rate_limited : Z;
  malformed : Z;
  timeout : Z;
}.
(* @src core/diagnostics.rs 75-84 Counts *)
Definition Counts : Type := Counters.
(* @src core/diagnostics.rs 85-96 snapshot *)
Definition counters_snapshot (c : Counters) : Counts := c.
Definition no_counts : Counters := {|
  received := 0; accepted := 0; denied := 0; rate_limited := 0; malformed := 0; timeout := 0 |}.

Definition count_received (c : Counters) : Counters := {|
  received := increment (received c); accepted := accepted c; denied := denied c;
  rate_limited := rate_limited c; malformed := malformed c; timeout := timeout c |}.
Definition count_accepted (c : Counters) : Counters := {|
  received := received c; accepted := increment (accepted c); denied := denied c;
  rate_limited := rate_limited c; malformed := malformed c; timeout := timeout c |}.
Definition count_denied (c : Counters) : Counters := {|
  received := received c; accepted := accepted c; denied := increment (denied c);
  rate_limited := rate_limited c; malformed := malformed c; timeout := timeout c |}.
Definition count_rate_limited (c : Counters) : Counters := {|
  received := received c; accepted := accepted c; denied := denied c;
  rate_limited := increment (rate_limited c); malformed := malformed c; timeout := timeout c |}.
Definition count_malformed (c : Counters) : Counters := {|
  received := received c; accepted := accepted c; denied := denied c;
  rate_limited := rate_limited c; malformed := increment (malformed c); timeout := timeout c |}.
Definition count_timeout (c : Counters) : Counters := {|
  received := received c; accepted := accepted c; denied := denied c;
  rate_limited := rate_limited c; malformed := malformed c; timeout := increment (timeout c) |}.

(** ** Reports *)

(* @src core/diagnostics.rs 97-102 Budget *)
Record Budget : Type := { used : Z; limit : Z }.
(* @src core/diagnostics.rs 103-113 Usage *)
Record Usage : Type := {
  u_users : Budget;
  u_devices : Budget;
  u_tokens : Budget;
  u_groups : Budget;
  u_memberships : Budget;
  u_database_bytes : Budget;
  u_recovery_bytes : Z;
}.
(* @src core/diagnostics.rs 114-121 CapacityObservation *)
Record CapacityObservation : Type := {
  availability : Availability;
  co_age_ms : option Z;
  usage : option Usage;
  collection_ms : option Z;
}.
(* @src core/diagnostics.rs 122-131 unavailable *)
Definition unavailable : CapacityObservation :=
  {| availability := NotAvailable; co_age_ms := None; usage := None; collection_ms := None |}.
(* @src core/diagnostics.rs 156-166 AuditHealth *)
Record AuditHealth : Type := {
  h_events : Z;
  h_bytes : Z;
  admission_capacity : bool;
  h_known_coverage_gaps : bool;
  h_unresolved_effects : Z;
  observation_loss : Z;
  h_age_ms : Z;
}.
(* @src core/diagnostics.rs 132-155 Observations *)
Record Observations : Type := {
  obs_audit : option AuditHealth;
  obs_reconciled : bool;
  worker_live : bool;
  worker_lease_age_ms : option Z;
  worker_lease_limit_ms : Z;
  auth_requests : Counts;
  control_requests : Counts;
  ipc_disconnects : Z;
  reconciliation_success : Z;
  reconciliation_failure : Z;
  reconciliation_age_ms : option Z;
  control_queue_used : Z;
  control_queue_limit : Z;
  auth_connection : option ConnectionState;
  control_connection : option ConnectionState;
  permission_denied_observed : bool;
  obs_capacity : option CapacityObservation;
}.
(* @src core/diagnostics.rs 167-175 Coverage *)
Record Coverage : Type := {
  broker_resources : bool;
  worker_network : bool;
  keyring : bool;
  physical_capacity : bool;
  audit_trail : bool;
}.
Definition no_coverage : Coverage := {|
  broker_resources := false; worker_network := false; keyring := false;
  physical_capacity := false; audit_trail := false |}.
(* @src core/diagnostics.rs 176-187 Report *)
Record Report : Type := {
  r_version : Z;
  r_role : Role;
  readiness : Readiness;
  reasons : list StatusReason;
  r_instance : option string;
  uptime_ms : option Z;
  observations : option Observations;
  coverage : Coverage;
}.

(* @src core/diagnostics.rs 189-200 unknown *)
Definition unknown_report (role : Role) (reason : StatusReason) : Report := {|
  r_version := REPORT_VERSION; r_role := role; readiness := ReadyUnknown; reasons := [reason];
  r_instance := None; uptime_ms := None; observations := None; coverage := no_coverage |}.
(* @src core/diagnostics.rs 201-207 exit_code *)
Definition exit_code (r : Report) : Z :=
  match readiness r with Ready => 0 | NotReady => 1 | ReadyUnknown => 2 end.

(** What the readiness of an observation must be. *)
(* @src core/diagnostics.rs 243-253 parse (expected) *)
Definition expected_readiness (o : Observations) : Readiness :=
  if obs_reconciled o && worker_live o
     && match obs_audit o with
        | None => true
        | Some a => admission_capacity a && (h_age_ms a <=? STALE_MS)
        end
  then Ready else NotReady.

(** The checks of [parse] on the decoded report. *)
(* @src core/diagnostics.rs 209-267 parse (checks) *)
Definition report_checks (report : Report) (role : Role) : result unit :=
  check ((r_version report =? REPORT_VERSION) && bool_decide (r_role report = role))
    "unsupported diagnostic response" ;;?
  check ((zlen (reasons report) <=? 8)
         && negb (broker_resources (coverage report)) && negb (worker_network (coverage report))
         && negb (keyring (coverage report)) && negb (physical_capacity (coverage report))
         && negb (audit_trail (coverage report))) "invalid diagnostic coverage" ;;?
  match observations report with
  | Some obs =>
      let? instance := ok_or (r_instance report) (Anyhow "missing instance") in
      check ((slen instance =? 32) && string_all is_ascii_hexdigit instance
             && bool_decide (is_Some (uptime_ms report))) "invalid runtime instance" ;;?
      check (negb (bool_decide (role = RoleControl))
             || match obs_capacity obs with None => true | Some _ => false end)
        "invalid control view" ;;?
      check ((control_queue_limit obs =? 1) && (control_queue_used obs <=? 1)
             && (worker_lease_limit_ms obs =? 5000)) "invalid runtime bounds" ;;?
      let expected := expected_readiness obs in
      check (bool_decide (readiness report = expected)
             && Bool.eqb (bool_decide (reasons report = [])) (bool_decide (expected = Ready)))
        "inconsistent readiness"
  | None =>
      check (bool_decide (readiness report = ReadyUnknown)
             && bool_decide (r_instance report = None) && bool_decide (uptime_ms report = None)
             && negb (bool_decide (reasons report = []))) "invalid unavailable observation"
  end.

(** [parsed] is what the JSON decoder makes of the bytes. *)
(* @src core/diagnostics.rs 206-269 parse *)
Definition parse_report (parsed : bytes -> result Report) (bytes : bytes) (role : Role)
  : result Report :=
  check (zlen bytes <=? MAX_REPORT) "diagnostic response too large" ;;?
  let? report := parsed bytes in
  report_checks report role ;;?
  Ok report.

(** ** The registry's usage *)

(* @src core/identity_model.rs 98-131 diagnostic_usage *)
Definition diagnostic_usage `{Pages AuthDb} (cap : Capacity) : M AuthDb Usage :=
  transaction (
    let* db := gets id in
    let* pages := lift (if 0 <=? page_count db then Ok (page_count db) else Err External) in
    let* size := lift (match page_size db with
                       | SqlInteger n => if 0 <=? n then Ok n else Err External
                       | SqlText n => parse_u64 n
                       | SqlOther => Err (Anyhow "invalid page size")
                       end) in
    let* bytes := lift (ok_or (checked_mul64 pages size) (Anyhow "page overflow")) in
    ret {| u_users := {| used := table_size (users db); limit := retained_users cap |};
           u_devices := {| used := table_size (devices db); limit := retained_devices cap |};
           u_tokens := {| used := table_size (enrollment_tokens db);
                          limit := retained_tokens cap |};
           u_groups := {| used := table_size (authorization_groups db);
                          limit := retained_groups cap |};
           u_memberships := {| used := table_size (authorization_members db);
                               limit := membership_edges cap |};
           u_database_bytes := {| used := bytes; limit := database_bytes cap |};
           u_recovery_bytes := recovery_bytes cap |}).

(** ** The service's runtime

    Instants are nanoseconds of the monotonic clock. The locks of the runtime
    are never poisoned: nothing panics while it holds one. *)

(* @src service/diagnostics.rs 11-36 Runtime *)
Record Runtime : Type := {
  audit_queue : list Event;
  audit_loss : Z;
  audit_health : option (Z * AuditHealth);
  reconciled : bool;
  live : bool;
  last_seen : Z;
  rt_auth : Counters;
  rt_control : Counters;
  disconnects : Z;
  repair_ok : Z;
  repair_failed : Z;
  rt_started : Z;
  rt_instance : string;
  repair_completed : option Z;
  rt_capacity : option (Z * Usage * Z);
  rt_connections : option (ConnectionState * ConnectionState * bool);
}.

Definition MILLI : Z := 1000000.
(* @src service/diagnostics.rs 37-39 millis *)
Definition millis (duration : Z) : Z := Z.min (duration / MILLI) u64_max.
(** [saturating_duration_since]. *)
Definition since (now then_ : Z) : Z := Z.max (now - then_) 0.

(* @src service/diagnostics.rs 41-63 new *)
Definition new_runtime (random : bytes) (gate : bool) (now : Z) : Runtime := {|
  audit_queue := []; audit_loss := 0; audit_health := None; reconciled := gate; live := false;
  last_seen := now; rt_auth := no_counts; rt_control := no_counts; disconnects := 0;
  repair_ok := 0; repair_failed := 0; rt_started := now; rt_instance := hex_bytes random;
  repair_completed := None; rt_capacity := None; rt_connections := None |}.

(** Field updates. *)
Definition set_audit_queue (q : list Event) (loss : Z) (r : Runtime) : Runtime := {|
  audit_queue := q; audit_loss := loss; audit_health := audit_health r;
  reconciled := reconciled r; live := live r; last_seen := last_seen r; rt_auth := rt_auth r;
  rt_control := rt_control r; disconnects := disconnects r; repair_ok := repair_ok r;
  repair_failed := repair_failed r; rt_started := rt_started r; rt_instance := rt_instance r;
  repair_completed := repair_completed r; rt_capacity := rt_capacity r;
  rt_connections := rt_connections r |}.
Definition set_observed (h : option (Z * AuditHealth)) (c : option (Z * Usage * Z)) (r : Runtime)
  : Runtime := {|
  audit_queue := audit_queue r; audit_loss := audit_loss r; audit_health := h;
  reconciled := reconciled r; live := live r; last_seen := last_seen r; rt_auth := rt_auth r;
  rt_control := rt_control r; disconnects := disconnects r; repair_ok := repair_ok r;
  repair_failed := repair_failed r; rt_started := rt_started r; rt_instance := rt_instance r;
  repair_completed := repair_completed r; rt_capacity := c;
  rt_connections := rt_connections r |}.
Definition set_reconciled (b : bool) (r : Runtime) : Runtime := {|
  audit_queue := audit_queue r; audit_loss := audit_loss r; audit_health := audit_health r;
  reconciled := b; live := live r; last_seen := last_seen r; rt_auth := rt_auth r;
  rt_control := rt_control r; disconnects := disconnects r; repair_ok := repair_ok r;
  repair_failed := repair_failed r; rt_started := rt_started r; rt_instance := rt_instance r;
  repair_completed := repair_completed r; rt_capacity := rt_capacity r;
  rt_connections := rt_connections r |}.
Definition set_lease (b : bool) (seen : Z) (r : Runtime) : Runtime := {|
  audit_queue := audit_queue r; audit_loss := audit_loss r; audit_health := audit_health r;
  reconciled := reconciled r; live := b; last_seen := seen; rt_auth := rt_auth r;
  rt_control := rt_control r; disconnects := disconnects r; repair_ok := repair_ok r;
  repair_failed := repair_failed r; rt_started := rt_started r; rt_instance := rt_instance r;
  repair_completed := repair_completed r; rt_capacity := rt_capacity r;
  rt_connections := rt_connections r |}.
Definition set_disconnects (n : Z) (r : Runtime) : Runtime := {|
  audit_queue := audit_queue r; audit_loss := audit_loss r; audit_health := audit_health r;
  reconciled := reconciled r; live := live r; last_seen := last_seen r; rt_auth := rt_auth r;
  rt_control := rt_control r; disconnects := n; repair_ok := repair_ok r;
  repair_failed := repair_failed r; rt_started := rt_started r; rt_instance := rt_instance r;
  repair_completed := repair_completed r; rt_capacity := rt_capacity r;
  rt_connections := rt_connections r |}.
Definition set_control (c : Counters) (r : Runtime) : Runtime := {|
  audit_queue := audit_queue r; audit_loss := audit_loss r; audit_health := audit_health r;
  reconciled := reconciled r; live := live r; last_seen := last_seen r; rt_auth := rt_auth r;
  rt_control := c; disconnects := disconnects r; repair_ok := repair_ok r;
  repair_failed := repair_failed r; rt_started := rt_started r; rt_instance := rt_instance r;
  repair_completed := repair_completed r; rt_capacity := rt_capacity r;
  rt_connections := rt_connections r |}.
Definition set_repairs (good bad : Z) (at_ : option Z) (r : Runtime) : Runtime := {|
  audit_queue := audit_queue r; audit_loss := audit_loss r; audit_health := audit_health r;
  reconciled := reconciled r; live := live r; last_seen := last_seen r; rt_auth := rt_auth r;
  rt_control := rt_control r; disconnects := disconnects r; repair_ok := good;
  repair_failed := bad; rt_started := rt_started r; rt_instance := rt_instance r;
  repair_completed := at_; rt_capacity := rt_capacity r; rt_connections := rt_connections r |}.

(** ** State *)

Definition lease_age (r : Runtime) (now : Z) : option Z :=
  if live r then Some (since now (last_seen r)) else None.
Definition lease_live (r : Runtime) (now : Z) : bool :=
  live r && match lease_age r now with Some age => age <? 5 * NANOS | None => false end.
Definition audit_blocked (r : Runtime) (now : Z) : bool :=
  match audit_health r with
  | Some (stamp, h) => negb (admission_capacity h) || (STALE_MS <? millis (since now stamp))
  | None => false
  end.

(* @src service/diagnostics.rs 67-116 state *)
Definition runtime_state (r : Runtime) (now : Z)
  : Readiness * list StatusReason * bool * option Z :=
  let age := lease_age r now in
  let worker_live := lease_live r now in
  let blocked := audit_blocked r now in
  (if reconciled r && worker_live && negb blocked then Ready else NotReady,
   (if blocked then [AuditUnavailable] else [])
     ++ (if reconciled r then [] else [ReconciliationPending])
     ++ (if negb (live r) then [WorkerAbsent]
         else match age with
              | None => [LeaseUnavailable]
              | Some _ => if worker_live then [] else [WorkerLeaseExpired]
              end),
   worker_live, millis <$> age).
(* @src service/diagnostics.rs 64-66 ready *)
Definition runtime_ready (r : Runtime) (now : Z) : bool :=
  bool_decide ((runtime_state r now).1.1.1 = Ready).

(** ** Updates *)

(* @src service/diagnostics.rs 127-136 repair *)
Definition record_repair (success : bool) (now : Z) (r : Runtime) : Runtime :=
  if success then set_repairs (increment (repair_ok r)) (repair_failed r) (Some now) r
  else set_repairs (repair_ok r) (increment (repair_failed r)) (repair_completed r) r.
(* @src service/diagnostics.rs 137-145 queue_audit *)
Definition queue_audit (ev : Event) (r : Runtime) : Runtime :=
  if zlen (audit_queue r) <? 256
  then set_audit_queue (audit_queue r ++ [ev]) (audit_loss r) r
  else set_audit_queue (audit_queue r) (increment (audit_loss r)) r.
Definition gate_event (open : bool) : Event := {|
  kind := AdmissionGate; stage := Observation; outcome := if open then Succeeded else Denied;
  reason := Verified; actor := Authority; count := 1; actor_reference := None;
  target_reference := None; ev_generation := None; window_seconds := None;
  sequence_boundary := None |}.
(* @src service/diagnostics.rs 146-158 gate *)
Definition gate (open : bool) (r : Runtime) : Runtime :=
  let r' := set_reconciled open r in
  if Bool.eqb (reconciled r) open then r' else queue_audit (gate_event open) r'.

Section refresh.
Context `{Json AuditRecord} `{Json Kind} `{Pages AuthDb}.

Definition drained (r : Runtime) : list Event := take 16 (audit_queue r).
(** The queue's first 16 observations become evidence or are counted lost. *)
(* @src service/diagnostics.rs 161-169 refresh (queue) *)
Definition flush_queue (cap : Capacity) (ds : nat -> Draw) (r : Runtime) (db : AuthDb)
  : Runtime * AuthDb :=
  let evs := drained r in
  let r' := set_audit_queue (drop 16 (audit_queue r)) (audit_loss r) r in
  if bool_decide (evs = []) then (r', db)
  else
    match audit_batch cap (imap (fun i ev => (ev, ds i)) evs) db with
    | (Ok _, db') => (r', db')
    | (Err _, db') => (set_audit_queue (audit_queue r')
                         (Nat.iter (length evs) increment (audit_loss r')) r', db')
    end.

(* @src service/diagnostics.rs 170-190 refresh (health) *)
Definition health_of (state : Info) (loss : Z) : AuditHealth := {|
  h_events := i_events state; h_bytes := i_bytes state;
  admission_capacity := negb (i_degraded state)
    && (i_events state <? MAX_EVENTS - RESERVE_EVENTS)
    && (i_bytes state + MAX_EVENT_BYTES <=? MAX_BYTES - RESERVE_BYTES);
  h_known_coverage_gaps := known_coverage_gaps state;
  h_unresolved_effects := unresolved_effects state; observation_loss := loss; h_age_ms := 0 |}.

(** [t0] when collection starts, [t1] the stamp of the health, [t2] that of the
    usage, [t3] when it ends. *)
(* @src service/diagnostics.rs 159-201 refresh *)
Definition refresh (cap : Capacity) (ds : nat -> Draw) (t0 t1 t2 t3 : Z) (r : Runtime)
    (db : AuthDb) : Runtime * AuthDb :=
  let '(r1, db1) := flush_queue cap ds r db in
  let health := (fun state => (t1, health_of state (audit_loss r1))) <$> ok (info_of db1) in
  let '(usage, db2) := diagnostic_usage cap db1 in
  let value := (fun u => (t2, u, millis (since t3 t0))) <$> ok usage in
  (set_observed health value r1, db2).
End refresh.

(** ** Snapshots *)

Definition capacity_view (r : Runtime) (now : Z) : CapacityObservation :=
  match rt_capacity r with
  | Some (stamp, u, cost) =>
      let age := millis (since now stamp) in
      {| availability := if age <=? STALE_MS then Current else Stale; co_age_ms := Some age;
         usage := if age <=? STALE_MS then Some u else None; collection_ms := Some cost |}
  | None => unavailable
  end.
Definition audit_view (r : Runtime) (now : Z) : option AuditHealth :=
  (fun '(stamp, h) => {|
     h_events := h_events h; h_bytes := h_bytes h; admission_capacity := admission_capacity h;
     h_known_coverage_gaps := h_known_coverage_gaps h;
     h_unresolved_effects := h_unresolved_effects h; observation_loss := observation_loss h;
     h_age_ms := millis (since now stamp) |}) <$> audit_health r.

(* @src service/diagnostics.rs 205-273 snapshot_at *)
Definition snapshot_at (role : Role) (queued : Z) (now : Z) (r : Runtime) : Report :=
  let '(readiness, reasons, worker_live, age) := runtime_state r now in
  {| r_version := REPORT_VERSION; r_role := role; readiness := readiness; reasons := reasons;
     r_instance := Some (rt_instance r); uptime_ms := Some (millis (since now (rt_started r)));
     observations := Some {|
       obs_audit := audit_view r now;
       obs_reconciled := negb (bool_decide (ReconciliationPending ∈ reasons));
       worker_live := worker_live;
       worker_lease_age_ms := age;
       worker_lease_limit_ms := 5000;
       auth_requests := counters_snapshot (rt_auth r);
       control_requests := counters_snapshot (rt_control r);
       ipc_disconnects := disconnects r;
       reconciliation_success := repair_ok r;
       reconciliation_failure := repair_failed r;
       reconciliation_age_ms := (fun s => millis (since now s)) <$> repair_completed r;
       control_queue_used := queued;
       control_queue_limit := 1;
       auth_connection := (fun '(a, _, _) => a) <$> rt_connections r;
       control_connection := (fun '(_, c, _) => c) <$> rt_connections r;
       permission_denied_observed :=
         match rt_connections r with Some (_, _, m) => m | None => false end;
       obs_capacity := if bool_decide (role = RoleAuthority)
                       then Some (capacity_view r now) else None |};
     coverage := no_coverage |}.

(** ** What a runtime goes through *)

(** The instance identifier and the bound of the queue. *)
Record runtime_wf (r : Runtime) : Prop := {
  rw_instance : slen (rt_instance r) = 32
                /\ string_all is_ascii_hexdigit (rt_instance r) = true;
  rw_queue : zlen (audit_queue r) <= 256;
}.

Section runtime_facts.
Context `{Json AuditRecord} `{Json Kind} `{Pages AuthDb}.

Inductive runtime_step : Runtime -> Runtime -> Prop :=
| step_queue ev r : runtime_step r (queue_audit ev r)
| step_gate open r : runtime_step r (gate open r)
| step_repair success now r : runtime_step r (record_repair success now r)
| step_lease b seen r : runtime_step r (set_lease b seen r)
| step_disconnect r : runtime_step r (set_disconnects (increment (disconnects r)) r)
| step_control c r : runtime_step r (set_control c r)
| step_refresh cap ds t0 t1 t2 t3 r db :
    runtime_step r (refresh cap ds t0 t1 t2 t3 r db).1.

Lemma hex_digit_ascii n : (n < 16)%N -> is_ascii_hexdigit (hex_digit n) = true.
Proof.
  intros Hn. destruct n as [|p]; [done|].
  do 5 (destruct p as [p|p|]; try done; try lia).
Qed.
Lemma hex_bytes_ascii l :
  slen (hex_bytes l) = 2 * zlen l /\ string_all is_ascii_hexdigit (hex_bytes l) = true.
Proof.
  induction l as [|b l [IHn IHa]]; [done|]. split.
  - unfold slen, zlen in *. simpl. lia.
  - simpl. assert (Byte.to_N b < 256)%N by (pose proof (Byte.to_N_bounded b); lia).
    rewrite !hex_digit_ascii, IHa; [done| |].
    + apply N.mod_lt. lia.
    + apply N.Div0.div_lt_upper_bound. lia.
Qed.

Lemma new_runtime_wf random g now : zlen random = 16 -> runtime_wf (new_runtime random g now).
Proof.
  intros Hr. split; simpl; [|vm_compute; congruence].
  destruct (hex_bytes_ascii random) as [-> ->]. split; [lia|done].
Qed.

Lemma queue_audit_wf ev r : runtime_wf r -> runtime_wf (queue_audit ev r).
Proof.
  intros [Hi Hq]. unfold queue_audit. destruct (_ <? _) eqn:E; bool_prop; split; simpl; auto.
  unfold zlen in *. rewrite length_app. simpl. lia.
Qed.
Lemma flush_queue_wf cap ds r db : runtime_wf r -> runtime_wf (flush_queue cap ds r db).1.
Proof.
  intros [Hi Hq]. unfold flush_queue.
  assert (zlen (drop 16 (audit_queue r)) <= 256) by
    (unfold zlen in *; rewrite length_drop; lia).
  case_bool_decide; [by split|]. destruct (audit_batch _ _ _) as [[]]; by split.
Qed.
Lemma runtime_step_wf r r' : runtime_step r r' -> runtime_wf r -> runtime_wf r'.
Proof.
  destruct 1; intros Hwf; auto using queue_audit_wf.
  - unfold gate. destruct (Bool.eqb _ _); [|apply queue_audit_wf]; destruct Hwf; by split.
  - unfold record_repair. destruct success; destruct Hwf; by split.
  - destruct Hwf; by split.
  - destruct Hwf; by split.
  - destruct Hwf; by split.
  - unfold refresh. pose proof (flush_queue_wf cap ds r db Hwf) as Hf.
    destruct (flush_queue _ _ _ _) as [r1 db1]. destruct (diagnostic_usage _ _) as [u db2].
    destruct Hf; by split.
Qed.

Lemma runtime_state_ready r now :
  (runtime_state r now).1.1.1 = Ready <->
  reconciled r = true /\ lease_live r now = true /\ audit_blocked r now = false.
Proof.
  unfold runtime_state. simpl. destruct (reconciled r), (lease_live r now), (audit_blocked r now);
    simpl; naive_solver.
Qed.
Lemma audit_view_blocked r now :
  match audit_view r now with
  | None => true
  | Some a => admission_capacity a && (h_age_ms a <=? STALE_MS)
  end = negb (audit_blocked r now).
Proof.
  unfold audit_view, audit_blocked. destruct (audit_health r) as [[s h]|]; [|done]. simpl.
  rewrite negb_orb, negb_involutive. f_equal. rewrite Z.leb_antisym. done.
Qed.

Lemma snapshot_checks role queued now r :
  runtime_wf r -> queued <= 1 -> report_checks (snapshot_at role queued now r) role = Ok tt.
Proof.
  intros [[Hlen Hhex] _] Hq. unfold report_checks, snapshot_at, expected_readiness. simpl.
  rewrite bool_decide_eq_true_2, audit_view_blocked, Hhex by done.
  rewrite (proj2 (Z.eqb_eq _ _) Hlen), (proj2 (Z.leb_le _ _) Hq).
  unfold lease_live, lease_age.
  destruct role, (audit_blocked r now), (reconciled r), (live r); simpl; try done;
    destruct (_ <? _); done.
Qed.

(** A status report the service answers with is one its readers accept. From
    start-up, through any queueing, gating, repairs, lease changes and
    refreshes, the snapshot of either role with at most one queued request
    passes every check of [parse]; and it says ready exactly when the state is
    reconciled, the worker's lease is younger than five seconds and the audit
    trail still has admission capacity in an observation no older than thirty. *)
Theorem status_reports_accepted random g start r role queued now :
  zlen random = 16 -> rtc runtime_step (new_runtime random g start) r -> queued <= 1 ->
  let report := snapshot_at role queued now r in
  report_checks report role = Ok tt /\
  (exit_code report = 0 <->
     reconciled r = true /\ live r = true /\ since now (last_seen r) < 5 * NANOS /\
     forall stamp h, audit_health r = Some (stamp, h) ->
       admission_capacity h = true /\ millis (since now stamp) <= STALE_MS).
Proof.
  intros Hrnd Hsteps Hq report.
  assert (runtime_wf r) as Hwf.
  { pose proof (new_runtime_wf random g start Hrnd) as Hwf. revert Hwf.
    induction Hsteps; eauto using runtime_step_wf. }
  split; [by apply snapshot_checks|].
  transitivity ((runtime_state r now).1.1.1 = Ready).
  { unfold exit_code, report, snapshot_at, runtime_state. simpl. by destruct (_ && _). }
  rewrite runtime_state_ready. unfold lease_live, lease_age, audit_blocked.
  destruct (live r); simpl; [|naive_solver]. rewrite Z.ltb_lt.
  destruct (audit_health r) as [[s h]|]; [|naive_solver].
  rewrite orb_false_iff, negb_false_iff, Z.ltb_ge. naive_solver.
Qed.
End runtime_facts.

Lemma status_reports_accepted_witness :
  report_checks (snapshot_at RoleControl 0 5
    (gate true (set_lease true 3 (new_runtime (repeat x00 16) false 0)))) RoleControl = Ok tt.
Proof.
  refine (proj1 (@status_reports_accepted record_model auth_pages
    (repeat x00 16) false 0 _ RoleControl 0 5 eq_refl _ ltac:(lia))).
  eapply rtc_l; [apply (step_lease true 3)|]. eapply rtc_l; [apply (step_gate true)|].
  apply rtc_refl.
Defined.
