(* ===== verification/Callout.v ===== *)
(** * Admission

    [crates/epochgrid-core/src/auth_callout.rs] and [backend_roles.rs]: the
    authorization callout that decides, for every connection the broker asks
    about, whether it is admitted and which subjects it may use. The callout
    keeps the connections it has answered, an ingress limiter and one limiter
    per principal; the registry it consults is the one of [Registry.v]. *)
From S2P Require Import Prelude External Wire Secrets AuthDb Capacity Tls AuditTrail Registry Policy Diagnostics.

(* @src core/auth_callout.rs 17-36 FailureStage *)
Inductive FailureStage : Type :=
| Ingress | Decryption | RequestDecode | RequestValidation | ReplayCheck | AdmissionAudit
| ResponseSigning | ResponseEncryption | ResponseAudit.

(* @src core/auth_callout.rs 58-58 ENROLL *)
Definition ENROLL : string := "epochgrid.v1.identity.enroll".

(** ** Configuration *)

(* @src core/auth_callout.rs 62-65 OperatorJwt *)
Record OperatorJwt : Type := { auth_account : string; connection_jwt : string }.
(* @src core/auth_callout.rs 68-79 Config *)
Record Config : Type := {
  cfg_version : Z;
  issuer : SecretRef;
  encryption : SecretRef;
  connection : SecretRef;
  target_account : string;
  control_nkey : string;
  authorization_ttl_seconds : Z;
  development_plaintext : bool;
  operator_jwt : option OperatorJwt;
}.

(** What [load_inner] reads of a decoded user JWT. *)
Record UserToken : Type := {
  ut_is_user : bool;
  ut_version : Z;
  ut_sub : string;
  ut_iss : string;
  ut_issuer_account : option string;
  ut_bearer : option bool;
  ut_exp : option Z;
  ut_nbf : option Z;
}.
(** [serde_json] on the configuration file: the [version] field of the value
    when it is a [u64], and the whole configuration; and the decoder of a user
    JWT, which checks its signature. *)
Class ConfigJson : Type := {
  json_version : bytes -> result (option Z);
  config_of_json : bytes -> result Config;
  user_token_decode : string -> result UserToken;
}.

Section config.
Context `{NKeys} `{ConfigJson}.

(* @src core/auth_callout.rs 119-159 load_inner (operator) *)
Definition check_operator (config : Config) (operator : OperatorJwt) (allow_pending : bool)
    (now : result Z) : result unit :=
  rforall (fun account =>
      let? type := key_pair_type account in
      check (bool_decide (type = AccountKey)) "operator mode requires account public keys")
    [auth_account operator; target_account config] ;;?
  check (negb (bool_decide (auth_account operator = target_account config)))
    "authentication and application accounts must be separate" ;;?
  if bool_decide (connection_jwt operator = EmptyString) then
    check allow_pending "operator setup incomplete: supply the signed non-bearer auth service JWT in auth.json.operator_jwt.connection_jwt"
  else
    let? jwt := user_token_decode (connection_jwt operator) in
    check (ut_is_user jwt && (ut_version jwt =? 2)) "expected a version-2 user JWT" ;;?
    check (bool_decide (ut_sub jwt = sr_public_key (connection config))
           && bool_decide (default (ut_iss jwt) (ut_issuer_account jwt) = auth_account operator)
           && negb (bool_decide (ut_bearer jwt = Some true)))
      "auth service JWT must bind the connection key and authentication account" ;;?
    let? timestamp := now in
    check (match ut_exp jwt with None => true | Some expiry => timestamp <? expiry end
           && match ut_nbf jwt with None => true | Some start => start <=? timestamp end)
      "auth service JWT is not current".

(* @src core/auth_callout.rs 89-161 load_inner *)
Definition load_inner (file : result bytes) (allow_pending : bool) (now : result Z)
  : result Config :=
  let? bytes := file in
  let? v := json_version bytes in
  check (bool_decide (v = Some 2))
    "pre-Milestone-24 or unsupported callout configuration; initialize a fresh backend" ;;?
  let? config := config_of_json bytes in
  check (cfg_version config =? 2) "unsupported callout configuration version" ;;?
  check ((2 <=? authorization_ttl_seconds config) && (authorization_ttl_seconds config <=? 60))
    "authorization TTL must be 2–60 seconds" ;;?
  check (negb (bool_decide (target_account config = EmptyString))
         && (slen (target_account config) <=? 64)
         && string_all (fun b => is_ascii_alphanumeric b || bool_decide (b = "_"%char)
                                 || bool_decide (b = "-"%char)) (target_account config))
    "invalid target account name" ;;?
  check (bool_decide (sr_kind (issuer config) = Account)
         && bool_decide (sr_kind (encryption config) = XKey)
         && bool_decide (sr_kind (connection config) = User))
    "invalid callout credential types" ;;?
  match operator_jwt config with
  | Some operator => check_operator config operator allow_pending now
  | None => Ok tt
  end ;;?
  Ok config.
(* @src core/auth_callout.rs 81-83 load *)
Definition load_config (file : result bytes) (now : result Z) : result Config :=
  load_inner file false now.
(* @src core/auth_callout.rs 86-88 load_for_export *)
Definition load_for_export (file : result bytes) (now : result Z) : result Config :=
  load_inner file true now.
End config.

(* @src core/auth_callout.rs 162-174 check_transport *)
Definition check_transport `{ServerAddrs} (c : Config) (tls : result TlsConfig) (url : string)
  : result unit :=
  let? tls := tls in
  let? _ := validate_endpoint tls url in
  check (negb (development_plaintext c) || bool_decide (profile tls = Development))
    "development_plaintext requires EPOCHGRID_PROFILE=development" ;;?
  check (development_plaintext c || starts_with "tls://" url)
    "TLS required; development_plaintext is a development-only bypass".

(** ** Requests and responses *)

(* @src core/auth_callout.rs 200-229 Request *)
Record Request : Type := {
  server_id : string;
  server_xkey : string;
  user_nkey : string;
  nonce : string;
  connect_nkey : string;
  sig : string;
  auth_token : option string;
  client_tls : bool;
  rq_kind : string;
  rq_version : Z;
}.
(** [Claims<Request>]. *)
Record RequestClaims : Type := {
  rq_aud : option string;
  rq_sub : string;
  rq_iss : string;
  rq_exp : option Z;
  rq_iat : Z;
  rq_nbf : option Z;
  rq_nats : Request;
}.
Record Limits : Type := { lim_payload : option Z; lim_subs : option Z }.
(** The fields of [Claims<User>] the callout sets. *)
Record UserClaims : Type := {
  uc_name : option string;
  uc_sub : string;
  uc_aud : option string;
  uc_exp : option Z;
  uc_issuer_account : option string;
  uc_version : Z;
  publish_allow : list string;
  subscribe_allow : list string;
  uc_limits : option (option Limits);
}.
(** [Claims<AuthResponse>]. *)
Record AuthResponse : Type := {
  rs_sub : string;
  rs_aud : option string;
  rs_exp : option Z;
  rs_jwt : string;
  rs_error : string;
}.
(** The JWT library: decoding checks the signature of the issuer. *)
Class Jwt : Type := {
  request_decode : string -> result RequestClaims;
  new_claims : string -> string -> UserClaims;
  generic_claim : string -> AuthResponse;
  user_encode : KeyPair -> UserClaims -> result string;
  response_encode : KeyPair -> AuthResponse -> result string;
}.
(** [nkeys::XKey]: sealed boxes between the callout's key and a peer's. *)
Class XKeys : Type := {
  xkey_valid : string -> bool;
  xkey_open : KeyPair -> string -> bytes -> result bytes;
  xkey_seal : KeyPair -> string -> bytes -> result bytes;
}.
(** [URL_SAFE_NO_PAD.decode]. *)
Class Base64 : Type := base64_decode : string -> result bytes.

(** ** State *)

(* @src core/auth_callout.rs 230-240 Callout *)
Record Callout : Type := {
  audit_denials : Denials;
  diagnostics : Counters;
  co_issuer : KeyPair;
  co_encryption : KeyPair;
  co_config : Config;
  seen : gmap string Z;
  worker : option string;
  ingress : RateLimit;
  principals : gmap string RateLimit;
}.
Definition set_denials d (c : Callout) : Callout := {|
  audit_denials := d; diagnostics := diagnostics c; co_issuer := co_issuer c;
  co_encryption := co_encryption c; co_config := co_config c; seen := seen c;
  worker := worker c; ingress := ingress c; principals := principals c |}.
Definition set_diagnostics f (c : Callout) : Callout := {|
  audit_denials := audit_denials c; diagnostics := f (diagnostics c); co_issuer := co_issuer c;
  co_encryption := co_encryption c; co_config := co_config c; seen := seen c;
  worker := worker c; ingress := ingress c; principals := principals c |}.
Definition set_seen m (c : Callout) : Callout := {|
  audit_denials := audit_denials c; diagnostics := diagnostics c; co_issuer := co_issuer c;
  co_encryption := co_encryption c; co_config := co_config c; seen := m;
  worker := worker c; ingress := ingress c; principals := principals c |}.
Definition set_worker w (c : Callout) : Callout := {|
  audit_denials := audit_denials c; diagnostics := diagnostics c; co_issuer := co_issuer c;
  co_encryption := co_encryption c; co_config := co_config c; seen := seen c;
  worker := w; ingress := ingress c; principals := principals c |}.
Definition set_ingress l (c : Callout) : Callout := {|
  audit_denials := audit_denials c; diagnostics := diagnostics c; co_issuer := co_issuer c;
  co_encryption := co_encryption c; co_config := co_config c; seen := seen c;
  worker := worker c; ingress := l; principals := principals c |}.
Definition set_principals m (c : Callout) : Callout := {|
  audit_denials := audit_denials c; diagnostics := diagnostics c; co_issuer := co_issuer c;
  co_encryption := co_encryption c; co_config := co_config c; seen := seen c;
  worker := worker c; ingress := ingress c; principals := m |}.

(** [read] is [SecretRef::read] for the two references. *)
(* @src core/auth_callout.rs 242-260 new *)
Definition new_callout `{Seeds} (config : Config) (read : SecretRef -> result string) (now : Z)
  : result Callout :=
  let? s := read (issuer config) in
  let? (type, public) := ok_or (seed_pair s) External in
  check (bool_decide (type = AccountKey)) "callout issuer must be an account key" ;;?
  let? e := read (encryption config) in
  let? xpublic := ok_or (xkey_public e) External in
  Ok {| audit_denials := {| started := now; d_count := 0 |}; diagnostics := no_counts;
        co_issuer := {| public_key := public; seed := s |};
        co_encryption := {| public_key := xpublic; seed := e |};
        co_config := config; seen := ∅; worker := None; ingress := new_rate 32 64 now;
        principals := ∅ |}.
(* @src core/auth_callout.rs 261-268 with_capacity *)
Definition with_capacity (policy : Capacity) (now : Z) (c : Callout) : Callout :=
  set_ingress (new_rate (requests_per_second policy) (request_burst policy) now) c.
(* @src core/auth_callout.rs 270-278 with_worker *)
Definition with_worker `{NKeys} (w : string) (c : Callout) : result Callout :=
  let? type := key_pair_type w in
  check (bool_decide (type = UserKey)
         && negb (bool_decide (w = control_nkey (co_config c)))) "invalid worker identity" ;;?
  Ok (set_worker (Some w) c).

(** ** Capabilities of the service roles *)

(* @src core/backend_roles.rs 6-40 authority_publish *)
Definition authority_publish : list string :=
  "$JS.API.INFO" ::
  ((fun stream => "$JS.API.STREAM.INFO." +:+ stream)
     <$> ["CHAT"; "MAILBOX"; "KV_IDENTITIES"; "KV_CHANNELS"; "KV_TRANSPARENCY"])
  ++ (stream ← ["CHAT"; "MAILBOX"];
      ["$JS.API.CONSUMER.INFO." +:+ stream +:+ ".*";
       "$JS.API.CONSUMER.DELETE." +:+ stream +:+ ".*";
       "$JS.API.CONSUMER.CREATE." +:+ stream +:+ ".>"])
  ++ (bucket ← ["IDENTITIES"; "TRANSPARENCY"];
      ["$JS.API.STREAM.MSG.GET.KV_" +:+ bucket;
       "$JS.API.DIRECT.GET.KV_" +:+ bucket +:+ ".>";
       "$JS.API.DIRECT.GET.KV_" +:+ bucket;
       "$KV." +:+ bucket +:+ ".>"])
  ++ ["epochgrid.v1.user.*.*.inbox"; AUDIT; REVOCATIONS; REVOKE].
(* @src core/backend_roles.rs 43-45 worker_publish *)
Definition worker_publish : list string := ["_INBOX.>"].
(* @src core/backend_roles.rs 47-52 worker_subscribe *)
Definition worker_subscribe : list string := ["epochgrid.v1.identity.*"; "epochgrid.v1.channel.*"].

(** ** Answering a request *)

(** The callout, the registry it was given and the stage of the request. *)
Record Door : Type := { door_callout : Callout; door_registry : AuthRegistry;
                        door_stage : FailureStage }.
Definition set_callout f (w : Door) : Door :=
  {| door_callout := f (door_callout w); door_registry := door_registry w;
     door_stage := door_stage w |}.
Definition set_registry r (w : Door) : Door :=
  {| door_callout := door_callout w; door_registry := r; door_stage := door_stage w |}.
Definition set_stage s (w : Door) : Door :=
  {| door_callout := door_callout w; door_registry := door_registry w; door_stage := s |}.
Definition at_stage (s : FailureStage) : M Door unit := modify (set_stage s).
Definition counting (f : Counters -> Counters) : M Door unit :=
  modify (set_callout (set_diagnostics f)).
(** Code on the registry. *)
Definition on_registry {A} (m : M AuthDb A) : M Door A := fun w =>
  match on_db m (door_registry w) with (r, reg) => (r, set_registry reg w) end.
Definition door_db (w : Door) : AuthDb := reg_db (door_registry w).

(** The clock readings and random draws of one request. *)
Record Turn : Type := {
  t_ingress : Z;
  t_now : result Z;
  t_enroll : result Z;
  t_enroll' : result Z;
  t_principal : Z;
  t_operation : result string;
  t_admission : Draw;
  t_response : Draw;
  t_denial : Z * Z * Draw;
  t_failure : Z * Z * Draw;
}.

Definition observe_denial (cap : Capacity) (d : Z * Z * Draw) `{Json AuditRecord} `{Pages AuthDb}
  : M Door unit :=
  let '(now1, now2, draw) := d in
  let* c := gets door_callout in
  let* s := on_registry (observe cap (audit_denials c) now1 now2 draw) in
  modify (set_callout (set_denials s)).

Section answer.
Context `{NKeys} `{MlsPackages} `{Postcard Envelope} `{Postcard RegistrationPayload} `{Sha256}
  `{Base32} `{Json AuditRecord} `{Pages AuthDb} `{Jwt} `{XKeys} `{Base64}.

(* @src core/auth_callout.rs 319-322 respond_inner (ingress) *)
Definition ingress_allow (now : Z) : M Door unit :=
  let* c := gets door_callout in
  let '(allowed, l) := allow (ingress c) now in
  modify (set_callout (set_ingress l)) ;;;
  when (negb allowed) (counting count_rate_limited) ;;;
  ensure allowed "callout overload".

(** Size, rate, seal and encoding of what arrived. *)
(* @src core/auth_callout.rs 312-328 respond_inner (open) *)
Definition open_request (server_xkey : string) (encrypted : bytes) (t : Turn)
  : M Door RequestClaims :=
  when (MAX_WIRE <? zlen encrypted) (counting count_malformed) ;;;
  ensure (zlen encrypted <=? MAX_WIRE) "oversized callout request" ;;;
  ingress_allow (t_ingress t) ;;;
  at_stage Decryption ;;;
  let* c := gets door_callout in
  ensure (xkey_valid server_xkey) "invalid server key" ;;;
  let* plaintext := lift (xkey_open (co_encryption c) server_xkey encrypted) in
  at_stage RequestDecode ;;;
  let* text := lift (ok_or (from_utf8 plaintext) External) in
  lift (request_decode text).

(** The subject a request must name. *)
Definition expected_subject (c : Callout) : string :=
  match operator_jwt (co_config c) with
  | Some operator => auth_account operator
  | None => public_key (co_issuer c)
  end.

(** [timestamp as u64] on a clock that is not negative. *)
(* @src core/auth_callout.rs 331-364 respond_inner (validation) *)
Definition validate_request (c : Callout) (server : string) (timestamp : Z) (r : RequestClaims)
  : result Z :=
  let n := rq_nats r in
  let? expires := ok_or (rq_exp r) (Anyhow "missing request expiry") in
  check (bool_decide (rq_aud r = Some "nats-authorization-request")
         && bool_decide (rq_sub r = expected_subject c)) "invalid callout audience/subject" ;;?
  check (bool_decide (rq_kind n = "authorization_request") && (rq_version n =? 2))
    "unsupported callout request type" ;;?
  check (bool_decide (rq_iss r = server_id n)) "callout server binding mismatch" ;;?
  let? type := key_pair_type (rq_iss r) in
  check (bool_decide (type = Server) && bool_decide (server_xkey n = server))
    "callout server binding mismatch" ;;?
  check ((timestamp <? expires) && (expires <=? timestamp + 60)
         && (rq_iat r <=? timestamp + 2) && (timestamp <=? rq_iat r + 60)
         && match rq_nbf r with None => true | Some v => v <=? timestamp end)
    "stale callout request" ;;?
  let? user := key_pair_type (user_nkey n) in
  check (bool_decide (user = UserKey)) "invalid connection key" ;;?
  Ok expires.

(* @src core/auth_callout.rs 367-367 respond_inner (connection) *)
Definition connection_key (r : RequestClaims) : string :=
  rq_iss r +:+ ":" +:+ user_nkey (rq_nats r).

(* @src core/auth_callout.rs 366-373 respond_inner (replay) *)
Definition replay_check (timestamp expires : Z) (r : RequestClaims) : M Door unit :=
  modify (set_callout (fun c =>
    set_seen (delete_where (fun _ e => negb (timestamp <? e)) (seen c)) c)) ;;;
  let* c := gets door_callout in
  ensure (negb (bool_decide (is_Some (seen c !! connection_key r))))
    "replayed connection request" ;;;
  ensure (table_size (seen c) <? 4096) "callout replay capacity exhausted" ;;;
  modify (set_callout (fun c => set_seen (<[connection_key r := expires]> (seen c)) c)).

(** Whether a key is one of the two roles that repair the registry. *)
Definition is_worker (c : Callout) (k : string) : bool := bool_decide (worker c = Some k).
Definition is_control (c : Callout) (k : string) : bool :=
  bool_decide (k = control_nkey (co_config c)).

(** Transport, readiness and possession of the device key. *)
(* @src core/auth_callout.rs 375-396 respond_inner (possession) *)
Definition check_possession (c : Callout) (devices_ready : bool) (n : Request) : result unit :=
  check (development_plaintext (co_config c) || client_tls n)
    "TLS required for device admission" ;;?
  check (devices_ready || is_control c (connect_nkey n) || is_worker c (connect_nkey n))
    "revocation reconciliation pending" ;;?
  let? device := key_pair_type (connect_nkey n) in
  check (bool_decide (device = UserKey) && negb (bool_decide (nonce n = EmptyString))
         && (slen (nonce n) <=? 256)) "invalid device possession proof" ;;?
  let? s := base64_decode (sig n) in
  verify_with (connect_nkey n) (as_bytes (nonce n)) s.

Definition inbox (k : string) : string := "_INBOX." +:+ k +:+ ".>".

(** The claims every admitted connection starts from. *)
(* @src core/auth_callout.rs 397-407 respond_inner (claims) *)
Definition base_claims (c : Callout) (timestamp : Z) (n : Request) : UserClaims :=
  let u := new_claims "EpochGrid device" (user_nkey n) in
  let operator := bool_decide (is_Some (operator_jwt (co_config c))) in
  {| uc_name := uc_name u; uc_sub := uc_sub u;
     uc_aud := if operator then uc_aud u else Some (target_account (co_config c));
     uc_exp := Some (timestamp + authorization_ttl_seconds (co_config c));
     uc_issuer_account := if operator then Some (target_account (co_config c))
                          else uc_issuer_account u;
     uc_version := 2; publish_allow := publish_allow u;
     subscribe_allow := [inbox (connect_nkey n)]; uc_limits := uc_limits u |}.
Definition with_grant (name : string) (exp : option Z) (publish subscribe : list string)
    (u : UserClaims) : UserClaims :=
  {| uc_name := Some name; uc_sub := uc_sub u; uc_aud := uc_aud u; uc_exp := exp;
     uc_issuer_account := uc_issuer_account u; uc_version := uc_version u;
     publish_allow := publish; subscribe_allow := subscribe; uc_limits := uc_limits u |}.

(* @src core/auth_callout.rs 408-411 respond_inner (enrollment) *)
Definition enrollment_claims (u : UserClaims) : UserClaims :=
  with_grant "EpochGrid enrollment" (uc_exp u) [ENROLL] (subscribe_allow u) u.
(* @src core/auth_callout.rs 412-422 respond_inner (worker) *)
Definition worker_claims (timestamp : Z) (u : UserClaims) : UserClaims :=
  with_grant "EpochGrid control worker" (Some (timestamp + 60)) worker_publish
    (subscribe_allow u ++ worker_subscribe) u.
Definition control_publish : list string :=
  ["$JS.API.>"; "$KV.IDENTITIES.>"; "$KV.CHANNELS.>"; "$KV.TRANSPARENCY.>"; "_INBOX.>";
   AUDIT; REVOCATIONS; REVOKE; "epochgrid.v1.user.*.*.inbox"].
(* @src core/auth_callout.rs 423-456 respond_inner (control) *)
Definition control_claims (c : Callout) (timestamp : Z) (k : string) (u : UserClaims)
  : UserClaims :=
  match worker c with
  | Some _ => with_grant "EpochGrid control service" (Some (timestamp + 60)) authority_publish
                [inbox k] u
  | None => with_grant "EpochGrid control service" (Some (timestamp + 60)) control_publish
              (subscribe_allow u ++ ["epochgrid.v1.identity.*"; "epochgrid.v1.channel.*"]) u
  end.

Definition user_inbox (a : DeviceAuthorization) : string :=
  "epochgrid.v1.user." +:+ auth_user a +:+ "." +:+ auth_device a +:+ ".inbox".
Definition device_requests : list string :=
  [ENROLL; Policy.SUBJECT; RELAY; KEYPACKAGE; REGISTER; LOOKUP; DEVICES; AUDIT; REVOCATIONS;
   REVOKE].
Definition group_subjects (gid : string) : list string :=
  (fun kind => "epochgrid.v1.group." +:+ gid +:+ "." +:+ kind)
    <$> ["message"; "handshake"; "ephemeral"].
Definition stream_subjects (k stream : string) : list string :=
  ["$JS.API.CONSUMER.INFO." +:+ stream +:+ ".device_" +:+ k;
   "$JS.API.CONSUMER.MSG.NEXT." +:+ stream +:+ ".device_" +:+ k;
   "$JS.ACK." +:+ stream +:+ ".device_" +:+ k +:+ ".>"].
Definition consumer_subjects (k : string) : list string :=
  stream_subjects k "CHAT" ++ stream_subjects k "MAILBOX".
(** [{}] of a generation. *)
Definition generation_text (z : Z) : string := pretty.pretty z.

(* @src core/auth_callout.rs 474-536 respond_inner (grants) *)
Definition device_claims (a : DeviceAuthorization) (groups : list string) (k : string)
    (u : UserClaims) : UserClaims :=
  with_grant (auth_user a +:+ "/" +:+ auth_device a +:+ "@" +:+ generation_text (auth_generation a))
    (uc_exp u)
    (device_requests ++ concat (group_subjects <$> groups) ++ consumer_subjects k)
    (subscribe_allow u ++ user_inbox a :: concat (group_subjects <$> groups)) u.

(** The limiter of one principal; at most 32 devices have one. *)
(* @src core/auth_callout.rs 460-473 respond_inner (principal) *)
Definition principal_admission (k : string) (now : Z) : M Door unit :=
  let* c := gets door_callout in
  ensure (bool_decide (is_Some (principals c !! k)) || (table_size (principals c) <? 32))
    "principal rate capacity exhausted" ;;;
  let '(allowed, l) := allow (default (new_rate 4 8 now) (principals c !! k)) now in
  modify (set_callout (fun c => set_principals (<[k := l]> (principals c)) c)) ;;;
  when (negb allowed) (counting count_rate_limited) ;;;
  ensure allowed "principal admission overload".

(* @src core/auth_callout.rs 457-538 respond_inner (device) *)
Definition admit_device (k : string) (now : Z) (u : UserClaims) : M Door UserClaims :=
  let* authorization := gets (fun w => authorize k (door_db w)) in
  let* authorization := lift authorization in
  principal_admission k now ;;;
  let* groups := gets (fun w => authorized_groups k (door_db w)) in
  let* groups := lift groups in
  lift (rforall validate_gid groups) ;;;
  ret (device_claims authorization groups k u).

(* @src core/auth_callout.rs 539-544 respond_inner (limits) *)
Definition limit_claims (u : UserClaims) : UserClaims :=
  {| uc_name := uc_name u; uc_sub := uc_sub u; uc_aud := uc_aud u; uc_exp := uc_exp u;
     uc_issuer_account := uc_issuer_account u; uc_version := uc_version u;
     publish_allow := publish_allow u; subscribe_allow := subscribe_allow u;
     uc_limits := match uc_limits u with
                  | Some (Some _) => Some (Some {| lim_payload := Some MAX_WIRE;
                                                   lim_subs := Some 128 |})
                  | other => other
                  end |}.

(** The closure that decides: an enrollment token first, then the worker, the
    control service, and last a device of the registry. *)
(* @src core/auth_callout.rs 374-546 respond_inner (decision) *)
Definition admission (t : Turn) (timestamp : Z) (devices_ready : bool) (n : Request)
  : M Door UserClaims :=
  let k := connect_nkey n in
  let* c := gets door_callout in
  lift (check_possession c devices_ready n) ;;;
  let u := base_claims c timestamp n in
  let* user :=
    match auth_token n with
    | Some token =>
        let* admitted := gets (fun w =>
          enrollment_admission token k (t_enroll t) (t_enroll' t) (door_db w)) in
        let* _ := lift admitted in
        ret (enrollment_claims u)
    | None =>
        if is_worker c k then ret (worker_claims timestamp u)
        else if is_control c k then ret (control_claims c timestamp k u)
        else admit_device k (t_principal t) u
    end in
  ret (limit_claims user).

Definition grant_event (c : Callout) (k : string) (reference : option string) : Event := {|
  kind := Admission; stage := Result; outcome := Succeeded; reason := Verified;
  actor := if is_control c k then Authority
           else if is_worker c k then BoundWorker else VerifiedDevice;
  count := 1; actor_reference := reference; target_reference := None; ev_generation := None;
  window_seconds := None; sequence_boundary := None |}.
Definition response_event (ev : Event) : Event := {|
  kind := ResponseConstructed; stage := stage ev; outcome := outcome ev; reason := reason ev;
  actor := actor ev; count := count ev; actor_reference := actor_reference ev;
  target_reference := target_reference ev; ev_generation := ev_generation ev;
  window_seconds := window_seconds ev; sequence_boundary := sequence_boundary ev |}.

(** Evidence is required of a device grant, attempted for a repair role. *)
Definition record_grant (cap : Capacity) (repair_role : bool) (ev : Event) (op : string) (d : Draw)
  : M Door unit :=
  if repair_role then
    let* _ := attempt (on_registry (audit_correlated cap ev op d)) in ret tt
  else on_registry (audit_correlated cap ev op d).

Definition with_jwt (jwt : string) (r : AuthResponse) : AuthResponse :=
  {| rs_sub := rs_sub r; rs_aud := rs_aud r; rs_exp := rs_exp r; rs_jwt := jwt;
     rs_error := rs_error r |}.
Definition with_error (e : string) (r : AuthResponse) : AuthResponse :=
  {| rs_sub := rs_sub r; rs_aud := rs_aud r; rs_exp := rs_exp r; rs_jwt := rs_jwt r;
     rs_error := e |}.

(* @src core/auth_callout.rs 547-590 respond_inner (response) *)
Definition build_response (t : Turn) (op : string) (r : RequestClaims) (expires : Z)
    (result : result UserClaims) : M Door (AuthResponse * option Event) :=
  let k := connect_nkey (rq_nats r) in
  let* c := gets door_callout in
  let repair_role := is_control c k || is_worker c k in
  let* cap := gets (fun w => reg_capacity (door_registry w)) in
  let g := generic_claim (user_nkey (rq_nats r)) in
  let response := {| rs_sub := rs_sub g; rs_aud := Some (rq_iss r); rs_exp := Some expires;
                     rs_jwt := rs_jwt g; rs_error := rs_error g |} in
  match result with
  | Ok user =>
      let* ref := (if repair_role then ret None
                   else let* x := on_registry (attempt (reference RefDevice k)) in ret (ok x)) in
      let ev := grant_event c k ref in
      record_grant cap repair_role ev op (t_admission t) ;;;
      at_stage ResponseSigning ;;;
      let* jwt := lift (user_encode (co_issuer c) user) in
      counting count_accepted ;;;
      ret (with_jwt jwt response, Some ev)
  | Err _ =>
      observe_denial cap (t_denial t) ;;;
      counting count_denied ;;;
      ret (with_error "EpochGrid admission denied" response, None)
  end.

(** Sign and seal the answer; the second event only once it is constructed. *)
(* @src core/auth_callout.rs 591-608 respond_inner (seal) *)
Definition seal_response (server k op : string) (t : Turn) (response : AuthResponse)
    (granted : option Event) : M Door bytes :=
  let* c := gets door_callout in
  at_stage ResponseSigning ;;;
  let* encoded := lift (response_encode (co_issuer c) response) in
  ensure (slen encoded <=? MAX_WIRE - 256) "authorization response capacity exceeded" ;;;
  at_stage ResponseEncryption ;;;
  let* sealed := lift (xkey_seal (co_encryption c) server (as_bytes encoded)) in
  at_stage ResponseAudit ;;;
  let* cap := gets (fun w => reg_capacity (door_registry w)) in
  match granted with
  | Some ev => record_grant cap (is_control c k || is_worker c k) (response_event ev) op
                 (t_response t)
  | None => ret tt
  end ;;;
  ret sealed.

(* @src core/auth_callout.rs 304-609 respond_inner *)
Definition respond_inner (server : string) (encrypted : bytes) (devices_ready : bool) (t : Turn)
  : M Door bytes :=
  let* r := open_request server encrypted t in
  at_stage RequestValidation ;;;
  let* timestamp := lift (t_now t) in
  let* c := gets door_callout in
  let* expires := lift (validate_request c server timestamp r) in
  at_stage ReplayCheck ;;;
  replay_check timestamp expires r ;;;
  let* result := attempt (admission t timestamp devices_ready (rq_nats r)) in
  at_stage AdmissionAudit ;;;
  let* op := lift (t_operation t) in
  let* (response, granted) := build_response t op r expires result in
  seal_response server (connect_nkey (rq_nats r)) op t response granted.

(** A failure is counted, observed and reported by the stage it happened in. *)
(* @src core/auth_callout.rs 286-303 respond *)
Definition respond (server : string) (encrypted : bytes) (devices_ready : bool) (t : Turn)
  : M Door bytes :=
  counting count_received ;;;
  at_stage Ingress ;;;
  let* result := attempt (respond_inner server encrypted devices_ready t) in
  when (negb (is_ok result)) (
    counting count_denied ;;;
    let* cap := gets (fun w => reg_capacity (door_registry w)) in
    observe_denial cap (t_failure t)) ;;;
  lift result.
End answer.
