(* ===== verification/CalloutFacts.v ===== *)
(** * What admission guarantees

    The callout of [Callout.v] composed with the registry of [Registry.v]: what
    a grant allows, that a request is answered once, that its tables are
    bounded, that a device grant leaves evidence, and that a revoked device is
    never admitted again. *)
From S2P Require Import Prelude External Wire Secrets AuthDb Capacity Tls AuditTrail AuditFacts Identity Registry Policy RegistryFacts PolicyFacts Models RegistryHistory Diagnostics Callout.

Section facts.
Context `{NKeys} `{MlsPackages} `{Postcard Envelope} `{Postcard RegistrationPayload}
  `{Postcard PolicyUpdate} `{Sha256} `{Base32} `{Json AuditRecord} `{Json Kind} `{Pages AuthDb}
  `{Jwt} `{XKeys} `{Base64}.
Implicit Types (w : Door) (t : Turn) (r : RequestClaims) (n : Request).

(** ** Frames *)

(** What asking the callout never changes: its keys and configuration, the
    worker it is bound to and the registry's tables other than the trail. *)
Definition door_frame w w' : Prop :=
  co_issuer (door_callout w') = co_issuer (door_callout w) /\
  co_encryption (door_callout w') = co_encryption (door_callout w) /\
  co_config (door_callout w') = co_config (door_callout w) /\
  worker (door_callout w') = worker (door_callout w) /\
  reg_capacity (door_registry w') = reg_capacity (door_registry w) /\
  same_registry (door_db w) (door_db w').
#[local] Instance door_frame_preorder : PreOrder door_frame.
Proof.
  split; [by intros w; split_and!|].
  intros a b c Hab Hbc. unfold door_frame in *. destruct_and!. split_and!; try congruence.
  by etrans.
Qed.

(** The tables of the callout itself. *)
Definition same_seen w w' : Prop := seen (door_callout w') = seen (door_callout w).
Definition same_principals w w' : Prop :=
  principals (door_callout w') = principals (door_callout w).
#[local] Instance same_seen_preorder : PreOrder same_seen.
Proof. split; [done|]. intros a b c. unfold same_seen. congruence. Qed.
#[local] Instance same_principals_preorder : PreOrder same_principals.
Proof. split; [done|]. intros a b c. unfold same_principals. congruence. Qed.

Lemma keeps_on_registry {A} (R : Door -> Door -> Prop) (m : M AuthDb A) :
  (forall w db, snd (m (door_db w)) = db -> R w (set_registry (set_reg_db db (door_registry w)) w)) ->
  keeps R (on_registry m).
Proof.
  intros HR w. unfold on_registry, on_db. unfold door_db in HR.
  specialize (HR w _ eq_refl). by destruct (m (reg_db (door_registry w))).
Qed.
Lemma keeps_on_registry_frame {A} (m : M AuthDb A) :
  keeps same_registry m -> keeps door_frame (on_registry m).
Proof.
  intros Hm. apply keeps_on_registry. intros w db <-. split_and!; try done.
Qed.
Lemma keeps_on_registry_seen {A} (m : M AuthDb A) : keeps same_seen (on_registry m).
Proof. by apply keeps_on_registry. Qed.
Lemma keeps_on_registry_principals {A} (m : M AuthDb A) : keeps same_principals (on_registry m).
Proof. by apply keeps_on_registry. Qed.

#[local] Hint Resolve insert_event_registry set_state_registry info_registry : keeps.
Lemma append_operation_registry ev reserve op d :
  keeps same_registry (append_operation ev reserve op d).
Proof. unfold append_operation. keeps_auto. Qed.
#[local] Hint Resolve append_operation_registry : keeps.
Lemma audit_correlated_registry cap ev op d : keeps same_registry (audit_correlated cap ev op d).
Proof. unfold audit_correlated. apply keeps_transaction; [apply _|done|]. keeps_auto. Qed.
Lemma observe_registry cap s x1 x2 d : keeps same_registry (observe cap s x1 x2 d).
Proof. unfold observe. keeps_auto. Qed.

Lemma modify_callout_frame f :
  (forall c, co_issuer (f c) = co_issuer c /\ co_encryption (f c) = co_encryption c /\
             co_config (f c) = co_config c /\ worker (f c) = worker c) ->
  keeps door_frame (modify (set_callout f)).
Proof. intros Hf w. destruct (Hf (door_callout w)) as (?&?&?&?). by split_and!. Qed.
Lemma at_stage_frame s : keeps door_frame (at_stage s).
Proof. intros w. by split_and!. Qed.
Lemma counting_frame f : keeps door_frame (counting f).
Proof. by apply modify_callout_frame. Qed.
#[local] Hint Resolve audit_correlated_registry observe_registry at_stage_frame counting_frame
  : keeps.
Lemma observe_denial_frame cap d : keeps door_frame (observe_denial cap d).
Proof.
  unfold observe_denial. destruct d as [[x1 x2] draw]. keeps_auto.
  - apply keeps_on_registry_frame. auto with keeps.
  - by apply modify_callout_frame.
Qed.
Lemma record_grant_frame cap b ev op d : keeps door_frame (record_grant cap b ev op d).
Proof. unfold record_grant. keeps_auto; apply keeps_on_registry_frame; auto with keeps. Qed.
#[local] Hint Resolve observe_denial_frame record_grant_frame : keeps.
Lemma ingress_allow_frame now : keeps door_frame (ingress_allow now).
Proof. unfold ingress_allow. keeps_auto; by apply modify_callout_frame. Qed.
#[local] Hint Resolve ingress_allow_frame : keeps.
Lemma open_request_frame server bytes t : keeps door_frame (open_request server bytes t).
Proof. unfold open_request. keeps_auto; by apply modify_callout_frame. Qed.
Lemma replay_check_frame ts ex r : keeps door_frame (replay_check ts ex r).
Proof. unfold replay_check. keeps_auto; by apply modify_callout_frame. Qed.
Lemma admit_frame t ts ready n : keeps door_frame (admission t ts ready n).
Proof.
  unfold admission, admit_device, principal_admission. keeps_auto; by apply modify_callout_frame.
Qed.
Lemma build_response_frame t op r ex res : keeps door_frame (build_response t op r ex res).
Proof.
  unfold build_response. keeps_auto. apply keeps_on_registry_frame. keeps_auto.
Qed.
Lemma seal_response_frame server k op t response g :
  keeps door_frame (seal_response server k op t response g).
Proof. unfold seal_response. keeps_auto. Qed.
#[local] Hint Resolve seal_response_frame open_request_frame replay_check_frame admit_frame build_response_frame
  : keeps.
Lemma respond_inner_frame server bytes ready t :
  keeps door_frame (respond_inner server bytes ready t).
Proof. unfold respond_inner. keeps_auto. Qed.
#[local] Hint Resolve respond_inner_frame : keeps.
Lemma respond_frame server bytes ready t : keeps door_frame (respond server bytes ready t).
Proof. unfold respond. keeps_auto. Qed.

(** ** The decision *)

(** What a grant is made of: an admitted token gives the enrollment subject and
    nothing else, the two bound roles their fixed capabilities, and any other
    key what the registry authorizes for it. *)
Definition granted (c : Callout) (t : Turn) (ts : Z) (n : Request) (db : AuthDb)
    (user : UserClaims) : Prop :=
  let k := connect_nkey n in
  let u := base_claims c ts n in
  match auth_token n with
  | Some token =>
      is_ok (enrollment_admission token k (t_enroll t) (t_enroll' t) db) = true /\
      user = limit_claims (enrollment_claims u)
  | None =>
      if is_worker c k then user = limit_claims (worker_claims ts u)
      else if is_control c k then user = limit_claims (control_claims c ts k u)
      else exists a groups, authorize k db = Ok a /\ authorized_groups k db = Ok groups /\
             Forall (fun gid => validate_gid gid = Ok tt) groups /\
             user = limit_claims (device_claims a groups k u)
  end.

Lemma principal_admission_registry k now w :
  door_registry (snd (principal_admission k now w)) = door_registry w.
Proof.
  unfold principal_admission, bind, gets. simpl. unfold ensure.
  destruct (_ || _); [|done]. destruct (allow _ _) as [[] l]; done.
Qed.

Lemma admit_device_Ok k now u w user w' :
  admit_device k now u w = (Ok user, w') ->
  exists a groups, authorize k (door_db w) = Ok a /\ authorized_groups k (door_db w) = Ok groups /\
    Forall (fun gid => validate_gid gid = Ok tt) groups /\ user = device_claims a groups k u.
Proof.
  unfold admit_device. intros Hrun.
  apply bind_Ok in Hrun as (a & s1 & [-> ->]%gets_Ok & Hrun).
  apply bind_Ok in Hrun as (b & s1 & [Ha ->]%lift_Ok & Hrun).
  apply bind_Ok in Hrun as ([] & w1 & Hp & Hrun).
  pose proof (principal_admission_registry k now w) as Hreg. rewrite Hp in Hreg. simpl in Hreg.
  apply bind_Ok in Hrun as (a & s1 & [-> ->]%gets_Ok & Hrun).
  apply bind_Ok in Hrun as (gs & s1 & [Hg ->]%lift_Ok & Hrun).
  apply bind_Ok in Hrun as ([] & s1 & [Hv ->]%lift_Ok & Hrun).
  apply ret_Ok in Hrun as [-> _]. unfold door_db in *. rewrite Hreg in Hg.
  exists b, gs. split_and!; try done. by apply rforall_Ok in Hv.
Qed.

Lemma admit_Ok t ts ready n w user w' :
  admission t ts ready n w = (Ok user, w') ->
  check_possession (door_callout w) ready n = Ok tt /\
  granted (door_callout w) t ts n (door_db w) user.
Proof.
  unfold admission. intros Hrun.
  apply bind_Ok in Hrun as (c & s1 & [-> ->]%gets_Ok & Hrun).
  apply bind_Ok in Hrun as ([] & s1 & [Hc ->]%lift_Ok & Hrun).
  apply bind_Ok in Hrun as (u & s1 & Hu & [-> _]%ret_Ok). split; [done|]. unfold granted.
  destruct (auth_token n) as [token|].
  - apply bind_Ok in Hu as (a & s2 & [-> ->]%gets_Ok & Hu).
    apply bind_Ok in Hu as (b & s2 & [Ha ->]%lift_Ok & [-> _]%ret_Ok). by rewrite Ha.
  - destruct (is_worker _ _); [by apply ret_Ok in Hu as [-> _]|].
    destruct (is_control _ _); [by apply ret_Ok in Hu as [-> _]|].
    apply admit_device_Ok in Hu as (a & gs & ? & ? & ? & ->). eauto 10.
Qed.

(** ** One answered request *)

(** The two ways an answer is made, with the state the claims were decided in. *)
Definition is_denial (r : RequestClaims) (ex : Z) (response : AuthResponse) : Prop :=
  response = with_error "EpochGrid admission denied"
    {| rs_sub := rs_sub (generic_claim (user_nkey (rq_nats r))); rs_aud := Some (rq_iss r);
       rs_exp := Some ex; rs_jwt := rs_jwt (generic_claim (user_nkey (rq_nats r)));
       rs_error := rs_error (generic_claim (user_nkey (rq_nats r))) |}.
Definition is_grant (r : RequestClaims) (ex : Z) (response : AuthResponse) (jwt : string) : Prop :=
  response = with_jwt jwt
    {| rs_sub := rs_sub (generic_claim (user_nkey (rq_nats r))); rs_aud := Some (rq_iss r);
       rs_exp := Some ex; rs_jwt := rs_jwt (generic_claim (user_nkey (rq_nats r)));
       rs_error := rs_error (generic_claim (user_nkey (rq_nats r))) |}.
Definition repair_role (c : Callout) (k : string) : bool := is_control c k || is_worker c k.

(** One event of the trail. *)
Definition recorded (ev : Event) (op : string) (seq : Z) (db : AuthDb) : Prop :=
  exists rec payload, to_json rec = Ok payload /\ event rec = ev /\ operation rec = op /\
    sequence rec = seq /\ audit_events (audit db) !! seq = Some payload.
Definition next_event (db : AuthDb) : Z := next_sequence (audit_state (audit db)).

Lemma audit_correlated_Ok cap ev op d db db' :
  audit_wf db -> draw_ok d -> audit_correlated cap ev op d db = (Ok tt, db') ->
  audit_wf db' /\ recorded ev op (next_event db) db' /\ next_event db' = next_event db + 1 /\
  forall ev' op' seq, recorded ev' op' seq db -> recorded ev' op' seq db'.
Proof.
  intros Hwf Hd Hrun. pose proof (audit_correlated_extends cap ev op d Hd db Hwf) as Hext.
  rewrite Hrun in Hext. destruct Hext as (Hwf' & _ & _ & _ & _ & Hold). simpl in Hwf', Hold.
  unfold audit_correlated in Hrun. apply transaction_Ok in Hrun as (_ & s1 & Hrun & _ & ->).
  apply bind_Ok in Hrun as (seq & s2 & Happ & [= _ <-]).
  apply append_operation_Ok in Happ; [|by apply (audit_extends_autocommit false)].
  destruct Happ as (_ & -> & _ & _ & p & inst & _ & _ & Hj & _ & _ & _ & ->).
  split; [done|]. split_and!; [|done|].
  - eexists _, p. split; [done|]. split_and!; try done. simpl. by rewrite lookup_insert_eq.
  - intros ev' op' seq (rec & p' & Hj' & ? & ? & ? & Hp). exists rec, p'. split_and!; try done.
    destruct Hwf as [(_ & Hdom & _) _]. simpl. rewrite lookup_insert_ne; [done|]. intros <-.
    assert (is_Some (audit_events (audit db) !! next_sequence (audit_state (audit db)))) as Hx
      by eauto. apply Hdom in Hx. lia.
Qed.

(** Evidence of a grant: required of a device, attempted for a repair role. *)
Lemma record_grant_Ok cap role ev op d w u w' :
  record_grant cap role ev op d w = (Ok u, w') ->
  door_callout w' = door_callout w /\
  (role = false -> exists db', audit_correlated cap ev op d (door_db w) = (Ok tt, db') /\
     door_registry w' = set_reg_db db' (door_registry w)).
Proof.
  unfold record_grant, on_registry, on_db, attempt, bind, ret. destruct u. intros Hrun. split.
  - destruct role; simpl in Hrun; destruct (audit_correlated _ _ _ _ _) as [[[]|e] db'];
      by simplify_eq.
  - intros ->. unfold door_db. destruct (audit_correlated _ _ _ _ _) as [[[]|e] db'];
      [|done]. simplify_eq. eauto.
Qed.

Lemma reference_same tb k db : snd (reference tb k db) = db.
Proof. unfold reference, bind, gets, lift. by destruct (ok_or _ _). Qed.

Lemma build_response_Ok t op r ex res w response granted w' :
  build_response t op r ex res w = (Ok (response, granted), w') ->
  let c := door_callout w in
  let k := connect_nkey (rq_nats r) in
  match res with
  | Ok user =>
      exists ref jwt w2, user_encode (co_issuer c) user = Ok jwt /\ is_grant r ex response jwt /\
        granted = Some (grant_event c k ref) /\
        record_grant (reg_capacity (door_registry w)) (repair_role c k) (grant_event c k ref) op
          (t_admission t) w = (Ok tt, w2) /\ door_registry w' = door_registry w2
  | Err _ => is_denial r ex response /\ granted = None
  end.
Proof.
  unfold build_response. intros Hrun.
  apply bind_Ok in Hrun as (c & s1 & [-> ->]%gets_Ok & Hrun).
  apply bind_Ok in Hrun as (cap & s1 & [-> ->]%gets_Ok & Hrun).
  fold (repair_role (door_callout w) (connect_nkey (rq_nats r))) in Hrun.
  destruct res as [user|e].
  - apply bind_Ok in Hrun as (ref & s1 & Href & Hrun).
    assert (s1 = w) as ->.
    { destruct (repair_role _ _); [by apply ret_Ok in Href as [_ ->]|].
      apply bind_Ok in Href as (x & s2 & Hx & [_ ->]%ret_Ok).
      unfold on_registry, on_db, attempt in Hx. pose proof (reference_same RefDevice
        (connect_nkey (rq_nats r)) (reg_db (door_registry w))) as Hs.
      destruct (reference _ _ _) as [z db]. injection Hx as _ <-. simpl in Hs. subst db.
      by destruct w as [? []]. }
    apply bind_Ok in Hrun as ([] & w2 & Hrec & Hrun).
    apply bind_Ok in Hrun as ([] & s1 & Hs & Hrun). apply modify_Ok in Hs as ->.
    apply bind_Ok in Hrun as (jwt & s1 & [Hjwt ->]%lift_Ok & Hrun).
    apply bind_Ok in Hrun as ([] & s1 & Hs & Hrun). apply modify_Ok in Hs as ->.
    apply ret_Ok in Hrun as [[= -> ->] ->]. exists ref, jwt, w2. by split_and!.
  - apply bind_Ok in Hrun as ([] & w2 & _ & Hrun).
    apply bind_Ok in Hrun as ([] & s1 & _ & Hrun).
    by apply ret_Ok in Hrun as [[= -> ->] _].
Qed.

Lemma ingress_allow_Ok now w u w' :
  ingress_allow now w = (Ok u, w') -> exists l, w' = set_callout (set_ingress l) w.
Proof.
  unfold ingress_allow, bind, gets, modify, ensure, when, ret. destruct (allow _ _) as [[] l];
    simpl; intros Hrun; [|done]. exists l. by simplify_eq.
Qed.

(** Up to the decision nothing but the callout's own tables changed. *)
Lemma open_request_Ok server encrypted t w r w' :
  open_request server encrypted t w = (Ok r, w') ->
  zlen encrypted <= MAX_WIRE /\ door_registry w' = door_registry w /\
  seen (door_callout w') = seen (door_callout w) /\
  principals (door_callout w') = principals (door_callout w) /\
  exists plaintext text, xkey_open (co_encryption (door_callout w)) server encrypted = Ok plaintext
    /\ from_utf8 plaintext = Some text /\ request_decode text = Ok r.
Proof.
  unfold open_request. intros Hrun.
  apply bind_Ok in Hrun as ([] & w1 & Hw & Hrun).
  apply bind_Ok in Hrun as ([] & s1 & [Hlen ->]%ensure_Ok & Hrun). bool_prop.
  rewrite (proj2 (Z.ltb_ge _ _)) in Hw by lia. apply ret_Ok in Hw as [_ ->].
  apply bind_Ok in Hrun as ([] & w1 & (l & ->)%ingress_allow_Ok & Hrun).
  apply bind_Ok in Hrun as ([] & w1 & ->%modify_Ok & Hrun).
  apply bind_Ok in Hrun as (c & s1 & [-> ->]%gets_Ok & Hrun).
  apply bind_Ok in Hrun as ([] & w1 & [_ ->]%ensure_Ok & Hrun).
  apply bind_Ok in Hrun as (pt & w1 & [Hpt ->]%lift_Ok & Hrun).
  apply bind_Ok in Hrun as ([] & w1 & ->%modify_Ok & Hrun).
  apply bind_Ok in Hrun as (text & w1 & [Htext%ok_or_Ok ->]%lift_Ok & Hrun).
  apply lift_Ok in Hrun as [Hr ->]. split_and!; try done. by exists pt, text.
Qed.

(** The decision depends on the callout's configuration, keys and worker. *)
Definition same_role (c c' : Callout) : Prop :=
  co_issuer c' = co_issuer c /\ co_config c' = co_config c /\ worker c' = worker c.
Lemma granted_same c c' t ts n db u :
  same_role c c' -> granted c' t ts n db u -> granted c t ts n db u.
Proof.
  intros (_ & Hc & Hw). unfold granted, base_claims, control_claims, is_worker, is_control.
  by rewrite Hc, Hw.
Qed.
Lemma possession_same c c' ready n :
  same_role c c' -> check_possession c' ready n = check_possession c ready n.
Proof. intros (_ & Hc & Hw). unfold check_possession, is_worker, is_control. by rewrite Hc, Hw. Qed.
Lemma validate_same c c' server ts r :
  same_role c c' -> validate_request c' server ts r = validate_request c server ts r.
Proof. intros (Hi & Hc & _). unfold validate_request, expected_subject. by rewrite Hc, Hi. Qed.

Lemma frame_role w w' : door_frame w w' -> same_role (door_callout w) (door_callout w').
Proof. intros (? & _ & ? & ? & _). done. Qed.

(** What an answer is, and what it left behind: a denial, or the claims that
    were granted and, for a device, the two events of its admission. *)
Definition answered (c : Callout) (server : string) (ready : bool) (t : Turn) (db db' : AuthDb)
    (r : RequestClaims) (ts ex : Z) (op : string) (response : AuthResponse) : Prop :=
  t_now t = Ok ts /\ validate_request c server ts r = Ok ex /\
  (is_denial r ex response \/
   exists user jwt, user_encode (co_issuer c) user = Ok jwt /\ is_grant r ex response jwt /\
     check_possession c ready (rq_nats r) = Ok tt /\ granted c t ts (rq_nats r) db user /\
     (repair_role c (connect_nkey (rq_nats r)) = false -> audit_wf db ->
        draw_ok (t_admission t) -> draw_ok (t_response t) ->
        exists ref, recorded (grant_event c (connect_nkey (rq_nats r)) ref) op (next_event db) db'
          /\ recorded (response_event (grant_event c (connect_nkey (rq_nats r)) ref)) op
               (next_event db + 1) db')).

(** The tables of the registry are only touched by the evidence. *)
Definition same_handle w w' : Prop := door_registry w' = door_registry w.
#[local] Instance same_handle_preorder : PreOrder same_handle.
Proof. split; [done|]. intros a b c. unfold same_handle. congruence. Qed.
Lemma modify_handle f : keeps same_handle (modify (set_callout f)).
Proof. done. Qed.
Lemma at_stage_handle s : keeps same_handle (at_stage s).
Proof. done. Qed.
Lemma counting_handle f : keeps same_handle (counting f).
Proof. done. Qed.
#[local] Hint Resolve modify_handle at_stage_handle counting_handle : keeps.
Lemma replay_check_handle ts ex r : keeps same_handle (replay_check ts ex r).
Proof. unfold replay_check. keeps_auto. Qed.
Lemma admit_handle t ts ready n : keeps same_handle (admission t ts ready n).
Proof. unfold admission, admit_device, principal_admission. keeps_auto. Qed.

Lemma seal_response_Ok server k op t response g w sealed w' :
  seal_response server k op t response g w = (Ok sealed, w') ->
  exists encoded, response_encode (co_issuer (door_callout w)) response = Ok encoded /\
    xkey_seal (co_encryption (door_callout w)) server (as_bytes encoded) = Ok sealed /\
    match g with
    | Some ev => repair_role (door_callout w) k = false ->
        exists cap, audit_correlated cap (response_event ev) op (t_response t) (door_db w)
                    = (Ok tt, door_db w')
    | None => True
    end.
Proof.
  unfold seal_response. intros Hrun.
  apply bind_Ok in Hrun as (c & s1 & [-> ->]%gets_Ok & Hrun).
  apply bind_Ok in Hrun as ([] & s1 & ->%modify_Ok & Hrun).
  apply bind_Ok in Hrun as (encoded & s1 & [Henc ->]%lift_Ok & Hrun).
  apply bind_Ok in Hrun as ([] & s1 & [_ ->]%ensure_Ok & Hrun).
  apply bind_Ok in Hrun as ([] & s1 & ->%modify_Ok & Hrun).
  apply bind_Ok in Hrun as (sl & s1 & [Hseal ->]%lift_Ok & Hrun).
  apply bind_Ok in Hrun as ([] & s1 & ->%modify_Ok & Hrun).
  apply bind_Ok in Hrun as (cap & s1 & [-> ->]%gets_Ok & Hrun).
  apply bind_Ok in Hrun as ([] & s1 & Hg & [-> ->]%ret_Ok).
  exists encoded. split_and!; [done..|]. destruct g as [ev|]; [|done]. intros Hrole.
  apply record_grant_Ok in Hg as (_ & Hg). destruct (Hg Hrole) as (db' & Hdb & Hreg).
  eexists. unfold door_db at 2. rewrite Hreg. exact Hdb.
Qed.

Lemma respond_inner_Ok server encrypted ready t w sealed w' :
  respond_inner server encrypted ready t w = (Ok sealed, w') ->
  let c := door_callout w in
  exists r ts ex op response encoded plaintext text,
    xkey_open (co_encryption c) server encrypted = Ok plaintext /\
    from_utf8 plaintext = Some text /\ request_decode text = Ok r /\
    t_operation t = Ok op /\ answered c server ready t (door_db w) (door_db w') r ts ex op response /\
    response_encode (co_issuer c) response = Ok encoded /\
    xkey_seal (co_encryption c) server (as_bytes encoded) = Ok sealed.
Proof.
  unfold respond_inner. intros Hrun.
  apply bind_Ok in Hrun as (r & w1 & Hopen & Hrun).
  pose proof (open_request_frame server encrypted t w) as F1. rewrite Hopen in F1. simpl in F1.
  apply open_request_Ok in Hopen as (_ & Hreg1 & _ & _ & pt & text & Hpt & Htext & Hdec).
  apply bind_Ok in Hrun as ([] & s1 & ->%modify_Ok & Hrun).
  apply bind_Ok in Hrun as (ts & s1 & [Hts ->]%lift_Ok & Hrun).
  apply bind_Ok in Hrun as (c & s1 & [-> ->]%gets_Ok & Hrun).
  apply bind_Ok in Hrun as (ex & s1 & [Hex ->]%lift_Ok & Hrun).
  apply bind_Ok in Hrun as ([] & s1 & ->%modify_Ok & Hrun).
  apply bind_Ok in Hrun as ([] & w2 & Hreplay & Hrun).
  pose proof (replay_check_frame ts ex r (set_stage ReplayCheck (set_stage RequestValidation w1)))
    as F2. rewrite Hreplay in F2. simpl in F2.
  pose proof (replay_check_handle ts ex r (set_stage ReplayCheck (set_stage RequestValidation w1)))
    as R2. rewrite Hreplay in R2. simpl in R2.
  apply bind_Ok in Hrun as (res & w3 & Hadmit%attempt_Ok & Hrun).
  pose proof (admit_frame t ts ready (rq_nats r) w2) as F3. rewrite Hadmit in F3. simpl in F3.
  pose proof (admit_handle t ts ready (rq_nats r) w2) as R3. rewrite Hadmit in R3. simpl in R3.
  apply bind_Ok in Hrun as ([] & s1 & ->%modify_Ok & Hrun).
  apply bind_Ok in Hrun as (op & s1 & [Hop ->]%lift_Ok & Hrun).
  apply bind_Ok in Hrun as ([response g] & w4 & Hbuild & Hseal).
  pose proof (build_response_frame t op r ex res (set_stage AdmissionAudit w3)) as F4.
  rewrite Hbuild in F4. simpl in F4.
  assert (door_frame w w2) as G2 by (etrans; [exact F1|exact F2]).
  assert (door_frame w w3) as G3 by (etrans; [exact G2|exact F3]).
  assert (door_frame w w4) as G4 by (etrans; [exact G3|exact F4]).
  assert (door_db w2 = door_db w) as D2.
  { unfold door_db. rewrite R2. simpl. by rewrite Hreg1. }
  assert (door_db w3 = door_db w) as D3 by (unfold door_db in *; by rewrite R3).
  apply seal_response_Ok in Hseal as (encoded & Henc & Hsl & Hev).
  pose proof G4 as (I4 & E4 & _). rewrite I4 in Henc. rewrite E4 in Hsl.
  exists r, ts, ex, op, response, encoded, pt, text. split_and!; try done.
  apply build_response_Ok in Hbuild. simpl in Hbuild.
  split; [done|]. split.
  { rewrite <- Hex. symmetry. apply (validate_same (door_callout w)). by apply frame_role. }
  destruct res as [user|e]; [right|left; exact (proj1 Hbuild)].
  destruct Hbuild as (ref & jwt & w5 & Hjwt & Hgrant & -> & Hrec & Hreg5).
  apply admit_Ok in Hadmit as [Hposs Hgranted]. rewrite D2 in Hgranted.
  rewrite (possession_same (door_callout w)) in Hposs by (by apply frame_role).
  apply (granted_same (door_callout w)) in Hgranted; [|by apply frame_role].
  destruct (frame_role _ _ G3) as (I3 & C3 & W3). rewrite I3 in Hjwt.
  exists user, jwt. split_and!; try done.
  intros Hrole Hwf Hd1 Hd2.
  assert (forall x, door_frame w x ->
    repair_role (door_callout x) (connect_nkey (rq_nats r)) = false) as Hroles.
  { intros x (_ & C & W)%frame_role. rewrite <- Hrole. unfold repair_role, is_control, is_worker.
    by rewrite C, W. }
  apply record_grant_Ok in Hrec as (_ & Hrec). destruct (Hrec (Hroles _ G3)) as (db1 & Hc1 & Hr5).
  destruct (Hev (Hroles _ G4)) as (cap & Hc2). unfold door_db at 1 in Hc1. simpl in Hc1.
  fold (door_db w3) in Hc1. rewrite D3 in Hc1.
  assert (door_db w4 = db1) as D4 by (unfold door_db; by rewrite Hreg5, Hr5).
  rewrite D4 in Hc2. clear Hr5 Hreg5.
  apply audit_correlated_Ok in Hc1 as (Hwf1 & Hrec1 & Hn1 & _); [|done..].
  apply audit_correlated_Ok in Hc2 as (_ & Hrec2 & _ & Hkeep); [|done..].
  rewrite Hn1 in Hrec2. exists ref. unfold grant_event in *. unfold is_control, is_worker in *.
  rewrite C3, W3 in *. split; [by apply Hkeep|done].
Qed.

Lemma respond_run server encrypted ready t w sealed w' :
  respond server encrypted ready t w = (Ok sealed, w') ->
  respond_inner server encrypted ready t
    (set_stage Ingress (set_callout (set_diagnostics count_received) w)) = (Ok sealed, w').
Proof.
  unfold respond. intros Hrun.
  apply bind_Ok in Hrun as ([] & s1 & ->%modify_Ok & Hrun).
  apply bind_Ok in Hrun as ([] & s1 & ->%modify_Ok & Hrun).
  apply bind_Ok in Hrun as (res & s1 & Hinner%attempt_Ok & Hrun).
  apply bind_Ok in Hrun as ([] & s2 & Hw & [-> ->]%lift_Ok).
  by apply ret_Ok in Hw as [_ ->].
Qed.

(** C4. Admission is decided by the registry. When the callout answers, the answer is
    the sealed encoding, signed by its own key, of a response to the server's
    decrypted and verified request, fresh at the callout's clock; and that
    response either denies, or carries claims the callout signed for a
    connection that proved possession of its key, made of what the registry (or
    its fixed role) grants at that moment. A device's or enrollment's claims
    leave the two correlated events of its admission at the end of the trail;
    when they cannot be recorded there is no answer at all. *)
Theorem admission_sound server encrypted ready t w sealed w' :
  respond server encrypted ready t w = (Ok sealed, w') ->
  let c := door_callout w in
  exists r ts ex op response encoded plaintext text,
    xkey_open (co_encryption c) server encrypted = Ok plaintext /\
    from_utf8 plaintext = Some text /\ request_decode text = Ok r /\
    t_operation t = Ok op /\ answered c server ready t (door_db w) (door_db w') r ts ex op response /\
    response_encode (co_issuer c) response = Ok encoded /\
    xkey_seal (co_encryption c) server (as_bytes encoded) = Ok sealed.
Proof. intros Hrun%respond_run%respond_inner_Ok. exact Hrun. Qed.

(** ** Over time *)

Inductive door_op : Type :=
| Ask (server : string) (encrypted : bytes) (ready : bool) (t : Turn)
| Manage (o : reg_op).
Definition run_door_op (o : door_op) (w : Door) : Door :=
  match o with
  | Ask server encrypted ready t => snd (respond server encrypted ready t w)
  | Manage o => set_registry (run_reg_op o (door_registry w)) w
  end.
Definition run_door_ops (ops : list door_op) (w : Door) : Door :=
  foldl (fun w o => run_door_op o w) w ops.

(** *** Bounds *)

Record door_wf (w : Door) : Prop := {
  dw_seen : table_size (seen (door_callout w)) <= 4096;
  dw_principals : table_size (principals (door_callout w)) <= 32;
  dw_ingress : rate_wf (ingress (door_callout w));
  dw_limits : map_Forall (fun _ l => rate_wf l) (principals (door_callout w));
}.
Definition wf_kept w w' : Prop := door_wf w -> door_wf w'.
#[local] Instance wf_kept_preorder : PreOrder wf_kept.
Proof. split; [by intros w Hw|]. intros a b c Hab Hbc Ha. auto. Qed.

Lemma modify_wf f :
  (forall c, seen (f c) = seen c /\ principals (f c) = principals c /\ ingress (f c) = ingress c) ->
  keeps wf_kept (modify (set_callout f)).
Proof.
  intros Hf w [Hs Hp Hi Hl]. destruct (Hf (door_callout w)) as (Es & Ep & Ei).
  split; simpl; rewrite ?Es, ?Ep, ?Ei; done.
Qed.
Lemma at_stage_wf s : keeps wf_kept (at_stage s).
Proof. intros w [Hs Hp Hi Hl]. by split. Qed.
Lemma counting_wf f : keeps wf_kept (counting f).
Proof. by apply modify_wf. Qed.
Lemma on_registry_wf {A} (m : M AuthDb A) : keeps wf_kept (on_registry m).
Proof. apply keeps_on_registry. intros w db _ [Hs Hp Hi Hl]. by split. Qed.
#[local] Hint Resolve at_stage_wf counting_wf on_registry_wf : keeps.
Lemma observe_denial_wf cap d : keeps wf_kept (observe_denial cap d).
Proof. unfold observe_denial. destruct d as [[x1 x2] draw]. keeps_auto. by apply modify_wf. Qed.
Lemma record_grant_wf cap b ev op d : keeps wf_kept (record_grant cap b ev op d).
Proof. unfold record_grant. keeps_auto. Qed.
#[local] Hint Resolve observe_denial_wf record_grant_wf : keeps.

Lemma table_size_insert {V} (m : gmap string V) k v :
  table_size (<[k := v]> m) <= table_size m + 1 /\
  (is_Some (m !! k) -> table_size (<[k := v]> m) = table_size m).
Proof.
  unfold table_size. split.
  - destruct (m !! k) eqn:E; [rewrite map_size_insert_Some by eauto | rewrite map_size_insert_None by done]; lia.
  - intros Hs. by rewrite map_size_insert_Some.
Qed.
Lemma table_size_delete_where {V} (p : string -> V -> bool) (m : gmap string V) :
  table_size (delete_where p m) <= table_size m.
Proof. unfold table_size. pose proof (map_subseteq_size _ _ (delete_where_subseteq p m)). lia. Qed.

Lemma allow_counted (b : bool) (msg : string) (w : Door) :
  door_wf w -> door_wf (snd ((when (negb b) (counting count_rate_limited) ;;; ensure b msg) w)).
Proof.
  match goal with |- _ -> door_wf (snd (?m _)) => assert (keeps wf_kept m) as Hk by keeps_auto end.
  apply Hk.
Qed.
Lemma ingress_allow_wf now : keeps wf_kept (ingress_allow now).
Proof.
  intros w [Hs Hp Hi Hl]. unfold ingress_allow, bind at 1, gets.
  destruct (allow _ _) as [b l] eqn:Hallow. apply (allow_counted b).
  split; simpl; try done. by eapply allow_wf.
Qed.
#[local] Hint Resolve ingress_allow_wf : keeps.
Lemma open_request_wf server bytes t : keeps wf_kept (open_request server bytes t).
Proof. unfold open_request. keeps_auto. Qed.
Lemma replay_check_wf ts ex r : keeps wf_kept (replay_check ts ex r).
Proof.
  intros w [Hs Hp Hi Hl]. unfold replay_check, bind, modify, gets, ensure. simpl.
  set (m := delete_where _ _).
  assert (table_size m <= 4096) by (etrans; [apply table_size_delete_where|done]).
  destruct (negb _); [|by split]. simpl.
  destruct (table_size m <? 4096) eqn:E; [|by split]. bool_prop. split; simpl; try done.
  etrans; [apply (proj1 (table_size_insert _ _ _))|]. fold m. lia.
Qed.
Lemma principal_admission_wf k now : keeps wf_kept (principal_admission k now).
Proof.
  intros w [Hs Hp Hi Hl]. unfold principal_admission. unfold bind at 1, gets. simpl.
  unfold bind at 1, ensure at 1.
  destruct (_ || _) eqn:Hroom; [|by split].
  destruct (allow _ _) as [b l] eqn:Hallow.
  assert (rate_wf l) as Hrate.
  { eapply allow_wf; [|done]. destruct (_ !! k) eqn:E; simpl; [by eapply Hl|].
    apply new_rate_wf; vm_compute; split; discriminate. }
  unfold bind at 1, modify. simpl.
  match goal with |- door_wf (snd (?m ?w')) =>
    assert (keeps wf_kept m) as Hk by keeps_auto; apply (Hk w') end.
  split; simpl; try done; [|by apply map_Forall_insert_2].
  destruct (table_size_insert (principals (door_callout w)) k l) as [Hle Heq].
  apply orb_prop in Hroom as [Hin|Hlt]; bool_prop; [rewrite Heq by done; done|lia].
Qed.
#[local] Hint Resolve open_request_wf replay_check_wf principal_admission_wf : keeps.
Lemma admit_wf t ts ready n : keeps wf_kept (admission t ts ready n).
Proof. unfold admission, admit_device. keeps_auto. Qed.
Lemma build_response_wf t op r ex res : keeps wf_kept (build_response t op r ex res).
Proof. unfold build_response. keeps_auto. Qed.
Lemma seal_response_wf server k op t response g :
  keeps wf_kept (seal_response server k op t response g).
Proof. unfold seal_response. keeps_auto. Qed.
#[local] Hint Resolve admit_wf build_response_wf seal_response_wf : keeps.
Lemma respond_wf server bytes ready t : keeps wf_kept (respond server bytes ready t).
Proof. unfold respond, respond_inner. keeps_auto. Qed.

(** The callout's memory is bounded and its limiters stay sound. Whatever the
    broker asks and the authority does in between, at most 4096 connections are
    remembered, at most 32 principals have a limiter, and every limiter holds
    no more tokens than its burst. *)
Theorem callout_bounded ops w : door_wf w -> door_wf (run_door_ops ops w).
Proof.
  unfold run_door_ops. revert w. induction ops as [|o ops IH]; intros w Hwf; simpl; [done|].
  apply IH. destruct o; simpl; [by apply respond_wf|]. destruct Hwf. by split.
Qed.

(** *** Replay *)

(** The request a sealed body carries. *)
Definition opened (c : Callout) (server : string) (encrypted : bytes) : result RequestClaims :=
  let? plaintext := xkey_open (co_encryption c) server encrypted in
  let? text := ok_or (from_utf8 plaintext) External in
  request_decode text.

Lemma modify_seen f :
  (forall c, seen (f c) = seen c) -> keeps same_seen (modify (set_callout f)).
Proof. intros Hf w. apply Hf. Qed.
Lemma at_stage_seen s : keeps same_seen (at_stage s).
Proof. done. Qed.
Lemma counting_seen f : keeps same_seen (counting f).
Proof. done. Qed.
#[local] Hint Resolve @keeps_on_registry_seen at_stage_seen counting_seen : keeps.
Lemma observe_denial_seen cap d : keeps same_seen (observe_denial cap d).
Proof. unfold observe_denial. destruct d as [[x1 x2] draw]. keeps_auto. by apply modify_seen. Qed.
Lemma record_grant_seen cap b ev op d : keeps same_seen (record_grant cap b ev op d).
Proof. unfold record_grant. keeps_auto. Qed.
#[local] Hint Resolve observe_denial_seen record_grant_seen : keeps.
Lemma open_request_seen server bytes t : keeps same_seen (open_request server bytes t).
Proof. unfold open_request, ingress_allow. keeps_auto; by apply modify_seen. Qed.
Lemma admit_seen t ts ready n : keeps same_seen (admission t ts ready n).
Proof. unfold admission, admit_device, principal_admission. keeps_auto; by apply modify_seen. Qed.
Lemma build_response_seen t op r ex res : keeps same_seen (build_response t op r ex res).
Proof. unfold build_response. keeps_auto. Qed.
Lemma seal_response_seen server k op t response g :
  keeps same_seen (seal_response server k op t response g).
Proof. unfold seal_response. keeps_auto. Qed.

Lemma replay_check_Ok ts ex r w u w' :
  replay_check ts ex r w = (Ok u, w') ->
  (forall e, seen (door_callout w) !! connection_key r = Some e -> e <= ts) /\
  seen (door_callout w') !! connection_key r = Some ex.
Proof.
  unfold replay_check. intros Hrun.
  apply bind_Ok in Hrun as ([] & w1 & ->%modify_Ok & Hrun).
  apply bind_Ok in Hrun as (c & s1 & [-> ->]%gets_Ok & Hrun).
  apply bind_Ok in Hrun as ([] & s1 & [Hnew ->]%ensure_Ok & Hrun).
  apply bind_Ok in Hrun as ([] & s1 & [_ ->]%ensure_Ok & ->%modify_Ok). simpl in *. split.
  - intros e He. bool_prop. rewrite lookup_delete_where, He in Hnew.
    destruct (ts <? e) eqn:Hlt; bool_prop; [|done]. simpl in Hnew. by destruct Hnew.
  - apply lookup_insert_eq.
Qed.
Lemma replay_check_remembers ts ex r k e w :
  ts < e -> seen (door_callout w) !! k = Some e ->
  seen (door_callout (snd (replay_check ts ex r w))) !! k = Some e.
Proof.
  intros Hts He. unfold replay_check, bind, modify, gets, ensure. simpl.
  set (m := delete_where _ _). assert (m !! k = Some e) as Hm.
  { unfold m. rewrite lookup_delete_where, He. by rewrite (proj2 (Z.ltb_lt _ _)). }
  destruct (negb _) eqn:Hnew; [|done]. destruct (_ <? _); [|done]. simpl.
  bool_prop. rewrite lookup_insert_ne; [done|]. intros <-. rewrite Hm in Hnew. by destruct Hnew.
Qed.

(** What is remembered until [e] stays remembered at any clock before it. *)
Definition remembers (k : string) (e : Z) w w' : Prop :=
  seen (door_callout w) !! k = Some e -> seen (door_callout w') !! k = Some e.
#[local] Instance remembers_preorder k e : PreOrder (remembers k e).
Proof. split; [by intros w Hw|]. intros a b c Hab Hbc Ha. auto. Qed.
Lemma seen_remembers {A} (m : M Door A) k e : keeps same_seen m -> keeps (remembers k e) m.
Proof. intros Hm w Hw. by rewrite (Hm w). Qed.

Lemma keeps_lift_bind {S A B} (R : S -> S -> Prop) `{!PreOrder R} (x : result A) (k : A -> M S B) :
  (forall a, x = Ok a -> keeps R (k a)) -> keeps R (bind (lift x) k).
Proof.
  intros Hk s. unfold bind, lift. destruct x as [a|e]; [by apply Hk|]. simpl. reflexivity.
Qed.
Create HintDb seen.
#[local] Hint Resolve open_request_seen admit_seen build_response_seen seal_response_seen : seen.
#[local] Hint Extern 1 (keeps (remembers _ _) _) =>
  (apply seen_remembers; solve [auto with seen keeps]) : keeps.

Lemma respond_remembers server encrypted ready t k e w :
  (forall ts, t_now t = Ok ts -> ts < e) ->
  remembers k e w (snd (respond server encrypted ready t w)).
Proof.
  intros Hclock. revert w. change (keeps (remembers k e) (respond server encrypted ready t)).
  assert (keeps (remembers k e) (respond_inner server encrypted ready t)) as Hinner.
  { unfold respond_inner. apply keeps_bind; [apply _|auto with keeps|intros r].
    apply keeps_bind; [apply _|auto with keeps|intros _].
    apply keeps_lift_bind; [apply _|]. intros ts Hts%Hclock. keeps_auto.
    intros w Hw. by apply replay_check_remembers. }
  unfold respond. keeps_auto.
Qed.

Lemma respond_Ok_seen server encrypted ready t w sealed w' :
  respond server encrypted ready t w = (Ok sealed, w') ->
  exists r ts ex, opened (door_callout w) server encrypted = Ok r /\ t_now t = Ok ts /\
    rq_exp r = Some ex /\
    (forall e, seen (door_callout w) !! connection_key r = Some e -> e <= ts) /\
    seen (door_callout w') !! connection_key r = Some ex.
Proof.
  intros Hrun%respond_run. unfold respond_inner in Hrun.
  apply bind_Ok in Hrun as (r & w1 & Hopen & Hrun).
  apply open_request_Ok in Hopen as (_ & _ & S1 & _ & pt & text & Hpt & Htext & Hdec).
  apply bind_Ok in Hrun as ([] & s1 & ->%modify_Ok & Hrun).
  apply bind_Ok in Hrun as (ts & s1 & [Hts ->]%lift_Ok & Hrun).
  apply bind_Ok in Hrun as (c & s1 & [-> ->]%gets_Ok & Hrun).
  apply bind_Ok in Hrun as (ex & s1 & [Hex ->]%lift_Ok & Hrun).
  apply bind_Ok in Hrun as ([] & s1 & ->%modify_Ok & Hrun).
  apply bind_Ok in Hrun as ([] & w2 & [Hold Hnew]%replay_check_Ok & Hrun). simpl in Hold, S1.
  rewrite S1 in Hold. exists r, ts, ex. split_and!; try done.
  - unfold opened. simpl in Hpt. rewrite Hpt. simpl. by rewrite Htext.
  - unfold validate_request in Hex. apply rbind_Ok in Hex as (e & He%ok_or_Ok & Hex). inv_ok. done.
  - match type of Hrun with ?m _ = _ =>
      assert (keeps same_seen m) as Hk by (keeps_auto; auto with seen keeps) end.
    specialize (Hk w2). rewrite Hrun in Hk. simpl in Hk. by rewrite Hk.
Qed.

(** The clock of every request asked in between. *)
Definition op_before (e : Z) (o : door_op) : Prop :=
  match o with Ask _ _ _ t => forall ts, t_now t = Ok ts -> ts < e | Manage _ => True end.

Lemma run_door_frame ops w : co_encryption (door_callout (run_door_ops ops w))
  = co_encryption (door_callout w) /\ same_role (door_callout w) (door_callout (run_door_ops ops w)).
Proof.
  unfold run_door_ops. revert w. induction ops as [|o ops IH]; intros w; simpl; [done|].
  destruct (IH (run_door_op o w)) as (E & I & C & W).
  enough (co_encryption (door_callout (run_door_op o w)) = co_encryption (door_callout w) /\
          same_role (door_callout w) (door_callout (run_door_op o w))) as (E' & I' & C' & W').
  { rewrite E, E'. split; [done|]. split_and!; congruence. }
  destruct o as [server bytes ready t|o]; simpl; [|done].
  pose proof (respond_frame server bytes ready t w) as F. split; [apply F|by apply frame_role].
Qed.
Lemma run_door_remembers k e ops w :
  Forall (op_before e) ops -> remembers k e w (run_door_ops ops w).
Proof.
  unfold run_door_ops. intros Hops. revert w. induction Hops as [|o ops Ho Hops IH]; intros w;
    simpl; [by intros Hw|]. etrans; [|apply IH].
  destruct o; simpl; [by apply respond_remembers|by intros Hw].
Qed.

(** A connection request is answered once. After the callout answered a request,
    grant or denial, no request for the same server and connection key is
    answered before the first one's expiry, whatever is asked of the callout and
    done to the registry in between, and whichever sealed body carries it. *)
Theorem request_answered_once server encrypted ready t w sealed w1 ops server' encrypted' ready'
    t' r r' ex :
  respond server encrypted ready t w = (Ok sealed, w1) ->
  opened (door_callout w) server encrypted = Ok r -> rq_exp r = Some ex ->
  opened (door_callout w) server' encrypted' = Ok r' -> connection_key r' = connection_key r ->
  Forall (op_before ex) ops -> op_before ex (Ask server' encrypted' ready' t') ->
  is_ok (fst (respond server' encrypted' ready' t' (run_door_ops ops w1))) = false.
Proof.
  intros Hrun Hr Hex Hr' Hkey Hops Hnow.
  pose proof (respond_frame server encrypted ready t w) as (_ & E1 & _). rewrite Hrun in E1. simpl in E1.
  apply respond_Ok_seen in Hrun as (r0 & ts & ex0 & Hr0 & _ & Hex0 & _ & Hseen).
  rewrite Hr in Hr0. injection Hr0 as <-. rewrite Hex in Hex0. injection Hex0 as <-.
  destruct (respond _ _ _ _ _) as [[sealed'|] w'] eqn:Hrun'; [|done]. exfalso.
  apply respond_Ok_seen in Hrun' as (r1 & ts' & ex' & Hr1 & Hts' & _ & Hold & _).
  unfold opened in Hr1. rewrite (proj1 (run_door_frame ops w1)), E1 in Hr1.
  unfold opened in Hr'. rewrite Hr' in Hr1. injection Hr1 as <-.
  apply (run_door_remembers _ _ ops) in Hseen; [|done]. rewrite <- Hkey in Hseen.
  apply Hold in Hseen. apply Hnow in Hts'. lia.
Qed.

(** *** Revocation *)

Lemma run_door_op_step o w : reg_step (door_registry w) (door_registry (run_door_op o w)).
Proof.
  destruct o as [server bytes ready t|o]; simpl; [|apply run_reg_op_step].
  apply same_registry_step. apply respond_frame.
Qed.
Lemma run_door_ops_step ops w : reg_step (door_registry w) (door_registry (run_door_ops ops w)).
Proof.
  unfold run_door_ops. revert w. induction ops as [|o ops IH]; intros w; simpl; [reflexivity|].
  etrans; [apply run_door_op_step|apply IH].
Qed.

(** C5. A revoked device is never admitted again. Once the registry has a device
    revoked, no sequence of requests and registry operations lets a connection
    with its key in: any answer it gets is the signed denial, unless it presents
    an enrollment token, which admits to the enrollment subject only. *)
Theorem revoked_never_admitted ops w k row server encrypted ready t r sealed w' :
  registry_wf (door_db w) -> devices (door_db w) !! k = Some row -> revoked row = true ->
  repair_role (door_callout w) k = false ->
  opened (door_callout w) server encrypted = Ok r -> connect_nkey (rq_nats r) = k ->
  respond server encrypted ready t (run_door_ops ops w) = (Ok sealed, w') ->
  exists response encoded, response_encode (co_issuer (door_callout w)) response = Ok encoded /\
    xkey_seal (co_encryption (door_callout w)) server (as_bytes encoded) = Ok sealed /\
    ((exists ex, is_denial r ex response) \/
     exists token ex user jwt, auth_token (rq_nats r) = Some token /\ is_grant r ex response jwt /\
       user_encode (co_issuer (door_callout w)) user = Ok jwt /\
       publish_allow user = [ENROLL] /\ subscribe_allow user = [inbox k]).
Proof.
  intros Hwf Hk Hrev Hrole Hr Hrk Hrun.
  destruct (run_door_frame ops w) as (E & I & C & W).
  destruct (run_door_ops_step ops w) as [(Hd & _) _].
  destruct (Hd _ _ Hk) as (row' & Hk' & (_ & _ & _ & _ & _ & Hr' & _)).
  apply admission_sound in Hrun as (r0 & ts & ex & op & response & encoded & pt & text & Hpt & Htext
    & Hdec & _ & (_ & _ & Hans) & Henc & Hseal).
  rewrite E in *. rewrite I in *.
  assert (r0 = r) as ->.
  { unfold opened in Hr. rewrite Hpt in Hr. simpl in Hr. rewrite Htext in Hr. simpl in Hr.
    congruence. }
  exists response, encoded. split; [done|]. split; [done|].
  destruct Hans as [Hden|(user & jwt & Hjwt & Hgrant & _ & Hgranted & _)]; [eauto|right].
  unfold granted in Hgranted. rewrite Hrk in Hgranted.
  destruct (auth_token (rq_nats r)) as [token|] eqn:Htoken.
  - destruct Hgranted as [_ ->]. eexists token, ex, _, jwt. split_and!; try done. simpl. by rewrite Hrk.
  - apply orb_false_iff in Hrole as [Hctl Hwk]. unfold is_control, is_worker in *.
    rewrite C, W, Hwk, Hctl in Hgranted.
    destruct Hgranted as (a & gs & Hauth & _).
    pose proof (authorize_revoked k _ row' Hk' (Hr' Hrev)) as Hno.
    unfold door_db in Hauth. by rewrite Hauth in Hno.
Qed.

End facts.
