(* ===== verification/Grants.v ===== *)
(** * What a grant allows

    The subjects the claims of [Callout.v] open, under the broker's matching of
    tokens and wildcards: a device's own inbox, its groups and its two
    consumers, and nothing of another device. *)
From stdpp Require Import sorting.
From S2P Require Import Prelude External Wire Secrets AuthDb Capacity Tls AuditTrail Identity Registry Policy Diagnostics Callout CalloutFacts.

(** ** Subjects and grants

    NATS matches a subject against a grant token by token: [*] matches one
    token and [>] all that is left. *)
Fixpoint match_tokens (grant subject : list string) : bool :=
  match grant, subject with
  | [], [] => true
  | a :: grant, s :: subject =>
      bool_decide (a = ">") || ((bool_decide (a = "*") || bool_decide (a = s))
                                && match_tokens grant subject)
  | _, _ => false
  end.
Definition permits (grants : list string) (subject : string) : bool :=
  existsb (fun g => match_tokens (split_on "." g) (split_on "." subject)) grants.

(** A name that is one literal token. *)
Definition literal (s : string) : bool :=
  lacks "." s && negb (bool_decide (s = "*")) && negb (bool_decide (s = ">")).

Lemma match_literal a g s subject :
  literal a = true -> match_tokens (a :: g) (s :: subject) = true ->
  s = a /\ match_tokens g subject = true.
Proof.
  unfold literal. simpl. intros Hl Hm. apply andb_prop in Hl as [[_ Hs]%andb_prop Hg].
  apply negb_true_iff in Hs, Hg. rewrite Hs, Hg in Hm. simpl in Hm. by bool_prop.
Qed.
(** Literal tokens are matched by themselves only. *)
Lemma match_literals g subject :
  forallb literal g = true -> match_tokens g subject = true -> subject = g.
Proof.
  revert subject. induction g as [|a g IH]; intros [|s subject] Hl Hm; try done.
  simpl in Hl. apply andb_prop in Hl as [Ha Hg].
  apply match_literal in Hm as [-> Hm]; [|done]. f_equal. auto.
Qed.
Lemma match_prefix g subject :
  forallb literal g = true -> match_tokens (g ++ [">"]) subject = true ->
  exists rest, rest <> [] /\ subject = g ++ rest.
Proof.
  revert subject. induction g as [|a g IH]; intros [|s subject] Hl Hm; try done; simpl in *.
  - by exists (s :: subject).
  - apply andb_prop in Hl as [Ha Hg]. apply match_literal in Hm as [-> Hm]; [|done].
    destruct (IH subject Hg Hm) as (rest & Hrest & ->). by exists rest.
Qed.

Lemma permits_app g g' s : permits (g ++ g') s = permits g s || permits g' s.
Proof. apply existsb_app. Qed.
Lemma permits_concat gs s :
  permits (concat gs) s = true -> exists g, g ∈ gs /\ permits g s = true.
Proof.
  induction gs as [|g gs IH]; simpl; [done|]. rewrite permits_app.
  intros [Hg|Hg]%orb_prop; [exists g; set_solver|]. destruct (IH Hg) as (g' & Hin & Hg').
  exists g'. set_solver.
Qed.

(** A subject is its tokens. *)
Lemma join_split s : String.concat "." (split_on "." s) = s.
Proof.
  induction s as [|c s IH]; [done|]. simpl. destruct (decide (c = "."%char)) as [->|Hc].
  - revert IH. destruct (split_on "." s) as [|f fs] eqn:E; [|intros <-; done].
    by destruct s as [|d s']; simpl in E; [|destruct (decide _); [|destruct (split_on _ s')]].
  - revert IH. destruct (split_on "." s) as [|f fs] eqn:E; simpl.
    + by destruct s as [|d s']; simpl in E; [|destruct (decide _); [|destruct (split_on _ s')]].
    + by destruct fs; intros <-.
Qed.
Lemma split_inj s s' : split_on "." s = split_on "." s' -> s = s'.
Proof. intros Hs. by rewrite <- (join_split s), Hs, join_split. Qed.

Ltac tokens := rewrite !split_on_app by done; rewrite ?split_on_lacks by done; done.
Lemma lacks_app sep a b : lacks sep a = true -> lacks sep b = true -> lacks sep (a +:+ b) = true.
Proof. unfold lacks. intros Ha Hb. by rewrite string_all_app, Ha, Hb. Qed.
Lemma literal_lacks s : literal s = true -> lacks "." s = true.
Proof. unfold literal. intros [[? _]%andb_prop _]%andb_prop. done. Qed.

Lemma split_inbox k : literal k = true -> split_on "." (inbox k) = ["_INBOX"; k; ">"].
Proof.
  intros Hk%literal_lacks. unfold inbox.
  change ("_INBOX." +:+ k +:+ ".>") with ("_INBOX" +:+ String "." (k +:+ String "." ">")). tokens.
Qed.
Lemma split_user_inbox a :
  literal (auth_user a) = true -> literal (auth_device a) = true ->
  split_on "." (user_inbox a) = ["epochgrid"; "v1"; "user"; auth_user a; auth_device a; "inbox"].
Proof.
  intros Hu%literal_lacks Hd%literal_lacks. unfold user_inbox.
  change ("epochgrid.v1.user." +:+ ?x) with
    ("epochgrid" +:+ String "." ("v1" +:+ String "." ("user" +:+ String "." x))).
  change ("." +:+ ?x) with (String "." x). change ".inbox" with (String "." "inbox"). tokens.
Qed.
Lemma split_group gid kind :
  literal gid = true -> literal kind = true ->
  split_on "." ("epochgrid.v1.group." +:+ gid +:+ "." +:+ kind)
  = ["epochgrid"; "v1"; "group"; gid; kind].
Proof.
  intros Hg%literal_lacks Hk%literal_lacks.
  change ("epochgrid.v1.group." +:+ ?x) with
    ("epochgrid" +:+ String "." ("v1" +:+ String "." ("group" +:+ String "." x))).
  change ("." +:+ ?x) with (String "." x). tokens.
Qed.

Section names.
Context `{NKeys} `{MlsPackages} `{Postcard Envelope} `{Postcard RegistrationPayload} `{Base32}.

(** The names the registry puts into a subject are literal tokens. *)
Lemma strip_prefix_Some p s r : strip_prefix p s = Some r -> s = p +:+ r.
Proof.
  revert s. induction p as [|c p IH]; intros s Hs; simpl in Hs; [by injection Hs as ->|].
  destruct s as [|d s]; [done|]. destruct (decide (c = d)) as [->|]; [|done].
  exact (f_equal (String d) (IH s Hs)).
Qed.
Lemma lacks_map f s :
  (forall c, c <> "."%char -> f c <> "."%char) -> lacks "." s = true -> lacks "." (map_string f s) = true.
Proof.
  intros Hf. unfold lacks. induction s as [|c s IH]; [done|]. simpl.
  intros [Hc Hs]%andb_prop. rewrite IH by done. case_bool_decide; [done|].
  rewrite bool_decide_eq_false_2 by auto. done.
Qed.
Definition base32_plain : Prop :=
  forall l bs, base32_decode l = Some bs -> lacks "." (base32_encode bs) = true.
Lemma user_id_literal s u : base32_plain -> user_id_try_from s = Ok u -> literal u = true.
Proof.
  intros Hb Hu. unfold user_id_try_from in Hu. inv_ok. bool_prop.
  apply strip_prefix_Some in Hm as ->. unfold literal.
  rewrite !bool_decide_eq_false_2 by discriminate. rewrite !andb_true_r.
  apply lacks_app; [done|].
  match goal with Hl : to_ascii_lowercase _ = _ |- _ => rewrite <- Hl end.
  apply lacks_map; [|by eapply Hb]. intros c Hc.
  destruct c as [[] [] [] [] [] [] [] []]; vm_compute; congruence.
Qed.
Lemma validate_id_literal s u : validate_id s = Ok u -> literal s = true.
Proof.
  intros Hs. unfold literal. rewrite (validate_id_lacks _ _ "." Hs) by done.
  rewrite !bool_decide_eq_false_2; [done|intros ->; vm_compute in Hs; discriminate..].
Qed.
Lemma validate_gid_literal g : validate_gid g = Ok tt -> literal g = true.
Proof.
  unfold validate_gid. intros Hg. inv_ok. bool_prop. unfold literal.
  rewrite !bool_decide_eq_false_2 by (intros ->; vm_compute in *; discriminate).
  rewrite !andb_true_r. unfold lacks.
  match goal with Hh : string_all _ _ = true |- _ => revert Hh end. apply string_all_impl.
  intros c Hc. apply negb_true_iff, bool_decide_eq_false. by intros ->.
Qed.
Lemma authorize_literal k d a :
  base32_plain -> authorize k d = Ok a ->
  literal (auth_user a) = true /\ literal (auth_device a) = true.
Proof.
  intros Hb. unfold authorize. intros Ha. inv_ok.
  match goal with Hx : match ?b with _ => _ end = Ok _ |- _ => destruct b; try discriminate Hx end.
  inv_ok. bool_prop. simpl. split; [by eapply user_id_literal|].
  match goal with Hv : verify_signature _ = Ok _ |- _ =>
    apply verify_signature_Ok in Hv as (_ & Hd & _) end.
  match goal with Hd' : device_id _ = _ |- _ => rewrite <- Hd' end. by eapply validate_id_literal.
Qed.
Lemma authorized_groups_member k d gs g :
  authorized_groups k d = Ok gs -> g ∈ gs -> is_Some (authorization_members d !! (g, k)).
Proof.
  unfold authorized_groups. intros Hgs Hg. inv_ok. rewrite merge_sort_Permutation in Hg.
  apply list_elem_of_fmap in Hg as ([[g' k'] l] & -> & Hr). apply elem_of_rows in Hr as [Hr Hk].
  bool_prop. subst k'. simpl. eauto.
Qed.
End names.

(** ** Isolation *)

Section isolation.
Context `{NKeys} `{MlsPackages} `{Postcard Envelope} `{Postcard RegistrationPayload} `{Sha256}
  `{Base32} `{Json AuditRecord} `{Json Kind} `{Pages AuthDb} `{Jwt} `{XKeys} `{Base64}.

(** The subjects of a group the device is a member of. *)
Definition own_group (db : AuthDb) (k subject : string) : Prop :=
  exists gid kind, split_on "." subject = ["epochgrid"; "v1"; "group"; gid; kind] /\
    kind ∈ ["message"; "handshake"; "ephemeral"] /\
    is_Some (authorization_members db !! (gid, k)).
(** The requests of the device's own consumers: their state, their next message
    and their acknowledgements. *)
Definition own_consumer (k subject : string) : Prop :=
  exists stream, stream ∈ ["CHAT"; "MAILBOX"] /\
    (split_on "." subject = ["$JS"; "API"; "CONSUMER"; "INFO"; stream; "device_" +:+ k] \/
     split_on "." subject = ["$JS"; "API"; "CONSUMER"; "MSG"; "NEXT"; stream; "device_" +:+ k] \/
     exists rest, rest <> [] /\
       split_on "." subject = ["$JS"; "ACK"; stream; "device_" +:+ k] ++ rest).

Lemma permits_one g s : permits [g] s = match_tokens (split_on "." g) (split_on "." s).
Proof. apply orb_false_r. Qed.

Lemma permits_groups k db gs s :
  Forall (fun gid => validate_gid gid = Ok tt) gs ->
  (forall g, g ∈ gs -> is_Some (authorization_members db !! (g, k))) ->
  permits (concat (group_subjects <$> gs)) s = true -> own_group db k s.
Proof.
  intros Hv Hm (l & Hl & Hp)%permits_concat.
  apply list_elem_of_fmap in Hl as (gid & -> & Hgid).
  rewrite list.Forall_forall in Hv. pose proof (validate_gid_literal _ (Hv _ Hgid)) as Hlit.
  unfold group_subjects in Hp. unfold permits in Hp. simpl in Hp. rewrite orb_false_r in Hp.
  assert (forall kind, kind ∈ ["message"; "handshake"; "ephemeral"] -> literal kind = true ->
    match_tokens (split_on "." ("epochgrid.v1.group." +:+ gid +:+ "." +:+ kind))
      (split_on "." s) = true -> own_group db k s) as Hone.
  { intros kind Hkind Hlk Hmt. rewrite split_group in Hmt by done.
    apply match_literals in Hmt; [|simpl; by rewrite Hlit, Hlk].
    exists gid, kind. eauto. }
  repeat (apply orb_prop in Hp as [Hp|Hp]); (eapply Hone; [..|exact Hp]; [set_solver|done]).
Qed.

Lemma permits_consumers k s :
  literal k = true -> permits (consumer_subjects k) s = true -> own_consumer k s.
Proof.
  intros Hk Hp. pose proof (literal_lacks _ Hk) as Hlk.
  assert (literal ("device_" +:+ k) = true) as Hd.
  { unfold literal. rewrite (lacks_app _ "device_" k) by done.
    by rewrite !bool_decide_eq_false_2 by discriminate. }
  assert (forall stream, stream ∈ ["CHAT"; "MAILBOX"] -> literal stream = true ->
    permits (stream_subjects k stream) s = true -> own_consumer k s) as Hone.
  { intros stream Hs Hls Hps. pose proof (literal_lacks _ Hls) as Hls'.
    unfold permits, stream_subjects in Hps. cbn [existsb] in Hps. rewrite orb_false_r in Hps.
    exists stream. split; [done|].
    pose proof (literal_lacks _ Hd) as Hld.
    repeat (apply orb_prop in Hps as [Hps|Hps]); [left|right; left|right; right].
    - change ("$JS.API.CONSUMER.INFO." +:+ ?x) with ("$JS" +:+ String "." ("API" +:+ String "."
        ("CONSUMER" +:+ String "." ("INFO" +:+ String "." x)))) in Hps.
      change (".device_" +:+ k) with (String "." ("device_" +:+ k)) in Hps.
      rewrite !split_on_app, split_on_lacks in Hps by done.
      apply match_literals in Hps; [done|]. simpl. by rewrite Hls, Hd.
    - change ("$JS.API.CONSUMER.MSG.NEXT." +:+ ?x) with ("$JS" +:+ String "." ("API" +:+ String "."
        ("CONSUMER" +:+ String "." ("MSG" +:+ String "." ("NEXT" +:+ String "." x))))) in Hps.
      change (".device_" +:+ k) with (String "." ("device_" +:+ k)) in Hps.
      rewrite !split_on_app, split_on_lacks in Hps by done.
      apply match_literals in Hps; [done|]. simpl. by rewrite Hls, Hd.
    - change ("$JS.ACK." +:+ ?x) with ("$JS" +:+ String "." ("ACK" +:+ String "." x)) in Hps.
      change (".device_" +:+ k +:+ ".>") with (String "." (("device_" +:+ k) +:+ String "." ">"))
        in Hps.
      rewrite !split_on_app, split_on_lacks in Hps by done.
      apply (match_prefix ["$JS"; "ACK"; stream; "device_" +:+ k]) in Hps; [done|].
      simpl. by rewrite Hls, Hd. }
  unfold consumer_subjects in Hp. rewrite permits_app in Hp.
  apply orb_prop in Hp as [Hp|Hp]; (eapply Hone; [..|exact Hp]; [set_solver|done]).
Qed.

Lemma permits_requests s : permits device_requests s = true -> s ∈ device_requests.
Proof.
  intros Hp. unfold permits in Hp. apply existsb_exists in Hp as (q & Hq & Hm).
  apply list_elem_of_In in Hq. replace s with q; [done|]. apply split_inj. symmetry.
  apply match_literals; [|done].
  assert (Forall (fun q => forallb literal (split_on "." q) = true) device_requests) as Hall
    by (repeat constructor).
  rewrite list.Forall_forall in Hall. by apply Hall.
Qed.

(** C15. A device's grant is confined to the device. The claims the callout decides
    for a key that is not a bound role and presents no token are those of a
    device the registry authorizes, and let it subscribe to nothing but its own
    reply inbox, its user's inbox for that device and the subjects of groups it
    is a member of, and publish nothing but the listed requests, those groups'
    subjects and the requests of its own two consumers: no name in a grant
    smuggles in a wildcard or another subject. *)
Theorem grant_isolated t ts ready n w user w' :
  admission t ts ready n w = (Ok user, w') -> auth_token n = None ->
  repair_role (door_callout w) (connect_nkey n) = false ->
  literal (connect_nkey n) = true -> base32_plain ->
  let k := connect_nkey n in
  exists a, authorize k (door_db w) = Ok a /\
    (forall s, permits (subscribe_allow user) s = true ->
       (exists rest, rest <> [] /\ split_on "." s = ["_INBOX"; k] ++ rest) \/ s = user_inbox a \/
       own_group (door_db w) k s) /\
    (forall s, permits (publish_allow user) s = true ->
       s ∈ device_requests \/ own_group (door_db w) k s \/ own_consumer k s).
Proof.
  intros Hrun Htoken Hrole Hk Hb k. apply admit_Ok in Hrun as [_ Hg]. unfold granted in Hg.
  rewrite Htoken in Hg. apply orb_false_iff in Hrole as [Hc Hw]. rewrite Hw, Hc in Hg.
  destruct Hg as (a & gs & Ha & Hgs & Hv & ->). exists a. split; [done|].
  destruct (authorize_literal _ _ _ Hb Ha) as [Hu Hd].
  assert (forall s, permits (concat (group_subjects <$> gs)) s = true -> own_group (door_db w) k s)
    as Hgroups.
  { intros s. apply permits_groups; [done|]. intros g. by apply authorized_groups_member. }
  split; intros s Hp; simpl in Hp.
  - change (permits ([inbox k] ++ [user_inbox a] ++ concat (group_subjects <$> gs)) s = true) in Hp.
    rewrite !permits_app, !permits_one, split_inbox, split_user_inbox in Hp by done.
    apply orb_prop in Hp as [Hp|[Hp|Hp]%orb_prop]; [left|right; left|right; right].
    + apply (match_prefix ["_INBOX"; k]) in Hp; [done|]. simpl. unfold k. by rewrite Hk.
    + apply split_inj. rewrite split_user_inbox by done. apply match_literals; [|done].
      simpl. by rewrite Hu, Hd.
    + by apply Hgroups.
  - change (permits (device_requests ++ concat (group_subjects <$> gs) ++ consumer_subjects k) s
            = true) in Hp.
    rewrite !permits_app in Hp. apply orb_prop in Hp as [Hp|[Hp|Hp]%orb_prop].
    + left. by apply permits_requests.
    + right; left. by apply Hgroups.
    + right; right. by apply permits_consumers.
Qed.
End isolation.
