(* ===== verification/CalloutExamples.v ===== *)
(** * Admission, on concrete requests

    Stand-ins for the JWT, box and signature libraries, and a callout in front of
    the registry of [RegistryHistory.v] with two devices and one group; the
    witnesses of the theorems on admission run on these. *)
From S2P Require Import Prelude External Wire Secrets AuthDb Capacity Tls AuditTrail AuditFacts Identity Registry Policy RegistryFacts PolicyFacts Models RegistryHistory Diagnostics Callout CalloutFacts Grants.

(** The type of a key is its first letter. *)
Definition letter_keys : NKeys := {|
  nkey_type := fun k => match k with
                        | String "U" _ => Some UserKey
                        | String "N" _ => Some Server
                        | String "A" _ => Some AccountKey
                        | _ => None
                        end;
  nkey_verifies := fun _ _ s => bool_decide (s = good_signature);
  nkey_sign := fun _ _ => Ok good_signature |}.
#[local] Existing Instance letter_keys.

Definition ask (k : string) : RequestClaims := {|
  rq_aud := Some "nats-authorization-request"; rq_sub := "AISSUER"; rq_iss := "NSERVER";
  rq_exp := Some 1030; rq_iat := 1000; rq_nbf := None;
  rq_nats := {| server_id := "NSERVER"; server_xkey := "X"; user_nkey := "UCONNECTION";
                nonce := "nonce"; connect_nkey := k; sig := "signature"; auth_token := None;
                client_tls := true; rq_kind := "authorization_request"; rq_version := 2 |} |}.
(** A request's text is the key that connects. *)
Definition jwt_model : Jwt := {|
  request_decode := fun s => if starts_with "U" s then Ok (ask s) else Err External;
  new_claims := fun name sub => {|
    uc_name := Some name; uc_sub := sub; uc_aud := None; uc_exp := None;
    uc_issuer_account := None; uc_version := 0; publish_allow := []; subscribe_allow := [];
    uc_limits := Some (Some {| lim_payload := None; lim_subs := None |}) |};
  generic_claim := fun sub => {| rs_sub := sub; rs_aud := None; rs_exp := None; rs_jwt := "";
                                 rs_error := "" |};
  user_encode := fun _ u => Ok ("jwt " +:+ default "" (uc_name u));
  response_encode := fun _ r => Ok (rs_jwt r +:+ rs_error r) |}.
Definition box_model : XKeys := {|
  xkey_valid := fun _ => true; xkey_open := fun _ _ b => Ok b; xkey_seal := fun _ _ b => Ok b |}.
Definition base64_model : Base64 := fun _ => Ok good_signature.
#[local] Existing Instances jwt_model box_model base64_model.

Definition door_config : Config := {|
  cfg_version := 2;
  issuer := {| sr_id := "I"; sr_kind := Account; sr_public_key := "AISSUER" |};
  encryption := {| sr_id := "E"; sr_kind := XKey; sr_public_key := "X" |};
  connection := {| sr_id := "C"; sr_kind := User; sr_public_key := "UCONN" |};
  target_account := "APP"; control_nkey := "UCONTROL"; authorization_ttl_seconds := 5;
  development_plaintext := false; operator_jwt := None |}.
Definition front : Callout := {|
  audit_denials := {| started := 0; d_count := 0 |}; diagnostics := no_counts;
  co_issuer := {| public_key := "AISSUER"; seed := "" |};
  co_encryption := {| public_key := "X"; seed := "" |}; co_config := door_config; seen := ∅;
  worker := Some "UWORKER"; ingress := new_rate 32 64 0; principals := ∅ |}.
Definition door : Door := {|
  door_callout := front; door_registry := running; door_stage := Ingress |}.
Definition turn_at (now : Z) : Turn := {|
  t_ingress := 0; t_now := Ok now; t_enroll := Ok now; t_enroll' := Ok now; t_principal := 0;
  t_operation := Ok zeros; t_admission := draw_model; t_response := draw_model;
  t_denial := (0, 0, draw_model); t_failure := (0, 0, draw_model) |}.

#[local] Abbreviation first_answer := (respond "X" (as_bytes "UA") true (turn_at 1000) door).
Example device_is_admitted : fst first_answer = Ok (as_bytes ("jwt " +:+ alice +:+ "/laptop@4")).
Proof. vm_compute. reflexivity. Qed.

Lemma first_answer_ok : first_answer = (Ok (as_bytes ("jwt " +:+ alice +:+ "/laptop@4")), snd first_answer).
Proof. apply run_fst. vm_compute. reflexivity. Qed.

Lemma admission_sound_witness :
  exists r ts ex op response, request_decode "UA" = Ok r /\
    answered front "X" true (turn_at 1000) (door_db door) (door_db (snd first_answer)) r ts ex op
      response.
Proof.
  destruct (admission_sound "X" (as_bytes "UA") true (turn_at 1000) door _ _ first_answer_ok)
    as (r & ts & ex & op & response & encoded & pt & text & Hpt & Htext & Hdec & _ & Hans & _).
  exists r, ts, ex, op, response. split; [|exact Hans].
  injection Hpt as <-. vm_compute in Htext. injection Htext as <-. exact Hdec.
Defined.

Lemma door_is_wf : door_wf door.
Proof.
  split; [vm_compute; discriminate|vm_compute; discriminate| |apply map_Forall_empty].
  apply new_rate_wf; vm_compute; split; discriminate.
Qed.
Lemma callout_bounded_witness :
  door_wf (run_door_ops [Ask "X" (as_bytes "UA") true (turn_at 1000)] door).
Proof. exact (callout_bounded _ door door_is_wf). Defined.

Lemma asked_a : opened (door_callout door) "X" (as_bytes "UA") = Ok (ask "UA").
Proof. vm_compute. reflexivity. Qed.
Lemma request_answered_once_witness :
  is_ok (fst (respond "X" (as_bytes "UA") true (turn_at 1029)
    (run_door_ops [Manage (OpRevoke "UB" draw_model); Ask "X" (as_bytes "UB") true (turn_at 1010)]
       (snd first_answer)))) = false.
Proof.
  refine (request_answered_once "X" (as_bytes "UA") true (turn_at 1000) door _ _
    [Manage (OpRevoke "UB" draw_model); Ask "X" (as_bytes "UB") true (turn_at 1010)]
    "X" (as_bytes "UA") true (turn_at 1029) (ask "UA") (ask "UA") 1030 first_answer_ok
    asked_a eq_refl asked_a eq_refl _ _).
  - apply list.Forall_cons; split; [exact I|]. apply list.Forall_cons; split; [|apply list.Forall_nil; exact I].
    intros ts [= <-]. lia.
  - intros ts [= <-]. lia.
Defined.

(** The phone is revoked, then asks. *)
Definition revoked_door : Door := set_registry revoked_state door.
#[local] Abbreviation refusal :=
  (respond "X" (as_bytes "UB") true (turn_at 1000) (run_door_ops [] revoked_door)).
Lemma refusal_ok : refusal = (Ok (as_bytes "EpochGrid admission denied"), snd refusal).
Proof. apply run_fst. vm_compute. reflexivity. Qed.
Lemma asked_b : opened (door_callout revoked_door) "X" (as_bytes "UB") = Ok (ask "UB").
Proof. vm_compute. reflexivity. Qed.
Lemma revoked_never_admitted_witness :
  exists response encoded, response_encode (co_issuer front) response = Ok encoded /\
    as_bytes encoded = as_bytes "EpochGrid admission denied".
Proof.
  destruct (devices (door_db revoked_door) !! "UB") as [row|] eqn:E;
    [|vm_compute in E; discriminate E].
  assert (revoked row = true) as Hrev by (vm_compute in E; injection E as <-; reflexivity).
  destruct (revoked_never_admitted [] revoked_door "UB" row "X" (as_bytes "UB") true (turn_at 1000)
    (ask "UB") _ _ revoked_state_wf E Hrev eq_refl asked_b eq_refl refusal_ok)
    as (response & encoded & Henc & Hseal & _).
  exists response, encoded. split; [exact Henc|]. injection Hseal as Hs. exact Hs.
Defined.

Lemma base32_model_plain : base32_plain.
Proof.
  intros l bs Hd. unfold base32_decode in Hd. simpl in Hd. destruct l as [|b l]; [done|].
  destruct (forallb _ _) eqn:Hall; [|done].
  apply bind_Some in Hd as (c & Hc & [= <-]).
  assert (forall n a, a <> "."%char -> lacks "." (repeat_char n a) = true) as Hrep.
  { intros n a Ha. unfold lacks, repeat_char. induction n as [|n IH]; [done|]. simpl.
    rewrite IH. by rewrite bool_decide_eq_false_2. }
  unfold base32_encode. simpl. apply Hrep.
  destruct (Z.to_nat _) as [|n]; simpl; [done|]. revert Hc. clear.
  destruct b; vm_compute; intros [= <-]; vm_compute; congruence.
Qed.
#[local] Abbreviation decision := (admission (turn_at 1000) 1000 true (rq_nats (ask "UA")) door).
Definition laptop_claims : UserClaims :=
  match fst decision with Ok u => u | Err _ => new_claims "" "" end.
Lemma decision_ok : decision = (Ok laptop_claims, snd decision).
Proof. apply run_fst. vm_compute. reflexivity. Qed.
Lemma grant_isolated_witness :
  exists a, authorize "UA" (door_db door) = Ok a /\
    forall s, permits (subscribe_allow laptop_claims) s = true ->
      (exists rest, rest <> [] /\ split_on "." s = ["_INBOX"; "UA"] ++ rest) \/ s = user_inbox a \/
      own_group (door_db door) "UA" s.
Proof.
  destruct (grant_isolated (turn_at 1000) 1000 true (rq_nats (ask "UA")) door _ _ decision_ok
    eq_refl eq_refl eq_refl base32_model_plain) as (a & Ha & Hs & _).
  exists a. split; [exact Ha|exact Hs].
Defined.
