(* ===== verification/Roles.v ===== *)
(** * Backend roles

    [crates/epochgrid-service/src/roles.rs], the set-up half: the accounts and
    the socket the authority and its control worker are bound to, and the files
    that record them. Setting up is retried until it completes and never
    replaces what is there. *)
From S2P Require Import Prelude External Wire AuthDb Identity Registry Policy Secrets Callout Files.

Definition ROLE_VERSION : Z := 1.
(* @src service/roles.rs 29-29 BINDINGS *)
Definition BINDINGS : string := "backend-roles.json".

(* @src service/roles.rs 33-39 Bindings *)
Record Bindings : Type := {
  b_version : Z;
  authority_uid : Z;
  worker_uid : Z;
  worker_nkey : string;
  socket : string;
}.
(* @src service/roles.rs 43-47 WorkerConfig *)
Record WorkerConfig : Type := {
  wc_version : Z;
  wc_connection : SecretRef;
  wc_bindings : Bindings;
}.
#[global] Instance Bindings_eq_dec : EqDecision Bindings.
Proof. solve_decision. Defined.

(** What [serde_json] makes of the files, and the pretty form it writes. *)
Class RoleJson : Type := {
  bindings_from_slice : bytes -> result Bindings;
  bindings_to_vec_pretty : Bindings -> result bytes;
  worker_config_from_slice : bytes -> result WorkerConfig;
  worker_config_to_vec_pretty : WorkerConfig -> result bytes;
  (** The capability document: the two keys and the three subject lists. *)
  capabilities_to_vec_pretty :
    (string * list string * list string) * (string * list string * list string) -> result bytes;
}.

(** The machine a role command runs on. [disk] says, for each file published,
    whether writing the temporary file succeeds and whether the final [fsync] of
    the directory does. *)
Record Machine : Type := {
  fs : Fs;
  euid : Z;
  runtime_active : bool;
  disk : list (bool * bool);
}.
Definition set_fs f (m : Machine) : Machine := {|
  fs := f (fs m); euid := euid m; runtime_active := runtime_active m; disk := disk m |}.
Definition set_disk d (m : Machine) : Machine := {|
  fs := fs m; euid := euid m; runtime_active := runtime_active m; disk := d |}.

Section roles.
Context `{NKeys} `{RoleJson} `{ConfigJson}.

(* @src service/roles.rs 53-68 owned *)
Definition owned (path : string) (who : Z) (private : bool) (files : Fs) : result unit :=
  let? meta := symlink_metadata path files in
  check (is_file meta || is_dir meta) "role path must be a regular file or directory" ;;?
  check (negb (is_symlink meta) && (owner meta =? who)) "role path ownership mismatch" ;;?
  check (no_bits meta (if private then 0x3f else 0x12)) "unsafe role path permissions".

Definition owned_by_me (path : string) (private : bool) : M Machine unit :=
  let* m := gets id in
  lift (owned path (euid m) private (fs m)).

(** The lock file is created when missing and never truncated. *)
(* @src service/roles.rs 70-89 runtime_lock *)
Definition runtime_lock (home : string) : M Machine unit :=
  owned_by_me home true ;;;
  let path := join home "runtime.lock" in
  let* m := gets id in
  match fs m !! path with
  | Some n => ensure (negb (is_symlink n)) "too many levels of symbolic links"
  | None => modify (set_fs (<[path := {| file_type := Regular; owner := euid m; mode := 0x180;
                                         contents := [] |}]>))
  end ;;;
  owned_by_me path true ;;;
  let* n := gets (fun m => symlink_metadata path (fs m)) in
  let* n := lift n in
  ensure (is_file n) "runtime lock must be a regular file" ;;;
  ensure (negb (runtime_active m))
    "backend runtime is active; stop it before changing role bindings".

(* @src service/roles.rs 92-111 validate *)
Definition bindings_validate (b : Bindings) : result unit :=
  check ((b_version b =? ROLE_VERSION) && negb (authority_uid b =? worker_uid b))
    "distinct authority and worker accounts required" ;;?
  check (negb (authority_uid b =? 0) && negb (worker_uid b =? 0))
    "runtime roles must not run as root" ;;?
  check (starts_with "/" (socket b) && (slen (socket b) <? 100))
    "absolute short Unix socket path required" ;;?
  let? type := key_pair_type (worker_nkey b) in
  check (bool_decide (type = UserKey)) "invalid worker public key".

(* @src service/roles.rs 112-120 load *)
Definition bindings_load (home : string) : M Machine Bindings :=
  let path := join home BINDINGS in
  owned_by_me home true ;;;
  owned_by_me path true ;;;
  let* m := gets id in
  let* value := lift (let? b := read_file path (fs m) in bindings_from_slice b) in
  lift (bindings_validate value) ;;;
  ensure (authority_uid value =? euid m) "authority account required" ;;;
  ret value.

(** Written aside and moved into place only where nothing is. *)
(* @src service/roles.rs 123-134 publish *)
Definition publish (path : string) (data : bytes) : M Machine unit :=
  let* m := gets id in
  let '(written, synced) := match disk m with d :: _ => d | [] => (true, true) end in
  modify (set_disk (tail (disk m))) ;;;
  ensure written "temporary file" ;;;
  ensure (bool_decide (fs m !! path = None)) "output exists; refusing replacement" ;;;
  modify (set_fs (<[path := {| file_type := Regular; owner := euid m; mode := 0x180;
                               contents := data |}]>)) ;;;
  ensure synced "directory sync".

(** A file this account owns with exactly these contents, or a new one. *)
(* @src service/roles.rs 197-206 bind (export) *)
Definition publish_or_match (path : string) (data : bytes) (differs : string) : M Machine unit :=
  let* m := gets id in
  if path_exists path (fs m) then
    owned_by_me path true ;;;
    let* current := lift (read_file path (fs m)) in
    ensure (bool_decide (current = data)) differs
  else publish path data.

Definition capabilities (config : Config) (b : Bindings)
  : (string * list string * list string) * (string * list string * list string) :=
  ((control_nkey config, authority_publish, ["_INBOX." +:+ control_nkey config +:+ ".>"]),
   (worker_nkey b, worker_publish,
    ("_INBOX." +:+ worker_nkey b +:+ ".>") :: worker_subscribe)).

(** [canonical] is [canonicalize]; [parent] is [Path::parent], the empty path
    replaced by [.]. The capabilities are written before the binding that marks
    completion. *)
(* @src service/roles.rs 145-213 bind *)
Definition bind_roles (canonical : string -> result string) (parent : string -> string)
    (now : result Z) (home auth_config : string) (worker : Z) (nkey sock : string)
  : M Machine bytes :=
  owned_by_me home true ;;;
  let* m := gets id in
  let bindings := {| b_version := ROLE_VERSION; authority_uid := euid m; worker_uid := worker;
                     worker_nkey := nkey; socket := sock |} in
  lift (bindings_validate bindings) ;;;
  runtime_lock home ;;;
  owned_by_me auth_config true ;;;
  let* a := lift (canonical (parent auth_config)) in
  let* h := lift (canonical home) in
  ensure (bool_decide (a = h)) "auth configuration must reside in authority home" ;;;
  let* m := gets id in
  let* config := lift (load_inner (read_file auth_config (fs m)) false now) in
  ensure (negb (bool_decide (nkey = control_nkey config))
          && negb (bool_decide (nkey = sr_public_key (connection config))))
    "worker must have an independent connection identity" ;;;
  let* data := lift (bindings_to_vec_pretty bindings) in
  let path := join home BINDINGS in
  let bound := path_exists path (fs m) in
  when bound (
    owned_by_me path true ;;;
    let* current := lift (read_file path (fs m)) in
    ensure (bool_decide (current = data)) "role binding already exists with different choices") ;;;
  let* caps := lift (capabilities_to_vec_pretty (capabilities config bindings)) in
  publish_or_match (join home "runtime-permissions.json") caps
    "runtime permission artifact differs; refusing replacement" ;;;
  when (negb bound) (publish path data) ;;;
  ret data.

(** [existing] is the vault's answer for the worker's credential. *)
(* @src service/roles.rs 215-240 worker_configure *)
Definition worker_configure (existing : result SecretRef) (home bindings_path : string)
  : M Machine unit :=
  let* m := gets id in
  let* b := lift (let? data := read_file bindings_path (fs m) in bindings_from_slice data) in
  lift (bindings_validate b) ;;;
  ensure (worker_uid b =? euid m) "worker account required" ;;;
  let* c := lift existing in
  ensure (bool_decide (sr_public_key c = worker_nkey b)) "worker binding mismatch" ;;;
  let* data := lift (worker_config_to_vec_pretty
    {| wc_version := ROLE_VERSION; wc_connection := c; wc_bindings := b |}) in
  publish_or_match (join home "worker.json") data "worker configuration already differs".

(* @src service/roles.rs 633-650 worker_config *)
Definition worker_config (existing : result SecretRef) (home : string) : M Machine WorkerConfig :=
  let path := join home "worker.json" in
  owned_by_me home true ;;;
  owned_by_me path true ;;;
  let* m := gets id in
  let* config := lift (let? b := read_file path (fs m) in worker_config_from_slice b) in
  lift (bindings_validate (wc_bindings config)) ;;;
  ensure ((wc_version config =? ROLE_VERSION) && (worker_uid (wc_bindings config) =? euid m)
          && bool_decide (sr_kind (wc_connection config) = User)
          && bool_decide (sr_public_key (wc_connection config) = worker_nkey (wc_bindings config)))
    "worker binding mismatch" ;;;
  let* credential := lift existing in
  ensure (bool_decide (credential = wc_connection config)) "worker credential mismatch" ;;;
  ret config.
(** The public bindings of a home, read without its credentials and without the
    runtime lock. *)
(* @src service/roles.rs 545-589 diagnostic_bindings *)
Definition diagnostic_bindings (home : string) (authority : bool) : M Machine Bindings :=
  owned_by_me home true ;;;
  let path := join home (if authority then BINDINGS else "worker.json") in
  owned_by_me path true ;;;
  let* m := gets id in
  let* meta := lift (symlink_metadata path (fs m)) in
  ensure (is_file meta && (owner meta =? euid m) && no_bits meta 0x3f) "invalid role file" ;;;
  ensure (zlen (contents meta) <=? 8192) "role configuration too large" ;;;
  let* bindings := lift (
    if authority then bindings_from_slice (contents meta)
    else let? config := worker_config_from_slice (contents meta) in
         check (wc_version config =? ROLE_VERSION) "unsupported worker configuration" ;;?
         Ok (wc_bindings config)) in
  lift (bindings_validate bindings) ;;;
  ensure (euid m =? (if authority then authority_uid bindings else worker_uid bindings)) "wrong role account" ;;;
  ret bindings.

(** The worker's credential, of which only the public key is printed. *)
(* @src service/roles.rs 136-142 worker_init *)
Definition worker_init (provisioned : result SecretRef) : M Machine string :=
  let* m := gets id in
  ensure (negb (euid m =? 0)) "worker must not run as root" ;;;
  let* reference := lift provisioned in
  ret (sr_public_key reference).

(** *** The sockets of the authority *)

(* @src service/roles.rs 516-520 status_path *)
Definition status_path (sock : string) : string := sock +:+ ".status".
(** A socket this account left behind is removed; anything else stays. *)
(* @src service/roles.rs 376-383 bind (stale socket) *)
Definition release_stale (path unsafe : string) : M Machine unit :=
  let* m := gets id in
  if path_exists path (fs m) then
    let* meta := lift (symlink_metadata path (fs m)) in
    ensure (is_socket meta && (owner meta =? euid m)) unsafe ;;;
    modify (set_fs (delete path))
  else ret tt.
(** [UnixListener::bind], which needs a free path, and the permissions after it. *)
(* @src service/roles.rs 384-385 bind (listener) *)
Definition listen (path : string) : M Machine unit :=
  let* m := gets id in
  ensure (bool_decide (fs m !! path = None)) "address in use" ;;;
  modify (set_fs (<[path := {| file_type := Socket; owner := euid m; mode := 0x1b6; contents := [] |}]>)).
(** [free] is whether no other process holds the lock. *)
(* @src service/roles.rs 366-375 bind (lock) *)
Definition authority_lock (path : string) (free : bool) : M Machine unit :=
  let* m := gets id in
  match fs m !! path with
  | Some n => ensure (is_file n) "not a regular file"
  | None => modify (set_fs (<[path := {| file_type := Regular; owner := euid m; mode := 0x180; contents := [] |}]>))
  end ;;;
  ensure free "authority already running".
(* @src service/roles.rs 354-413 bind *)
Definition server_bind (parent : string -> option string) (free : bool) (b : Bindings) : M Machine unit :=
  lift (bindings_validate b) ;;;
  let* m := gets id in
  ensure (euid m =? authority_uid b) "authority account required" ;;;
  let* dir := lift (ok_or (parent (socket b)) (Anyhow "socket directory required")) in
  owned_by_me dir false ;;;
  authority_lock (join dir "authority.lock") free ;;;
  release_stale (socket b) "unsafe stale socket" ;;;
  listen (socket b) ;;;
  release_stale (status_path (socket b)) "unsafe stale status socket" ;;;
  listen (status_path (socket b)).
(** [remove_file], which does not remove a directory. *)
Definition remove_file (path : string) : M Machine unit :=
  let* m := gets id in
  let* meta := lift (symlink_metadata path (fs m)) in
  ensure (negb (is_dir meta)) "is a directory" ;;;
  modify (set_fs (delete path)).
(* @src service/roles.rs 344-352 Server::drop *)
Definition server_drop (b : Bindings) : M Machine unit :=
  let* _ := attempt (remove_file (socket b)) in
  let* _ := attempt (remove_file (status_path (socket b))) in
  ret tt.
End roles.

(** ** The sockets of an authority *)

Lemma owned_by_me_Ok path private m m' : owned_by_me path private m = (Ok tt, m') -> m' = m.
Proof. unfold owned_by_me. intros Ho. by inv_ok. Qed.
(** What holds of a run that replaces no file but sockets of its own account,
    and changes nothing outside [P]. *)
Definition own_sockets (P : string -> Prop) (m m' : Machine) : Prop :=
  euid m' = euid m /\
  forall path, fs m' !! path = fs m !! path \/
    P path /\ forall n, fs m !! path = Some n -> is_socket n = true /\ owner n = euid m.
#[export] Instance own_sockets_preorder P : PreOrder (own_sockets P).
Proof.
  split; [by intros m; split; [|left]|]. intros a b c [Eab Hab] [Ebc Hbc]. split; [congruence|].
  intros path. destruct (Hab path) as [Eq|[? ?]]; [|by right]. destruct (Hbc path) as [Eq'|[? Hn]]; [left; congruence|].
  right. split; [done|]. rewrite <- Eq, <- Eab. done.
Qed.

Section sockets.
Context `{NKeys}.
Variable P : string -> Prop.

Lemma owned_by_me_own path private : keeps (own_sockets P) (owned_by_me path private).
Proof. unfold owned_by_me. keeps_auto. Qed.
Lemma set_free_own path node m :
  P path -> fs m !! path = None -> own_sockets P m (set_fs (<[path := node]>) m).
Proof.
  intros Hp Hn. split; [done|]. intros q. simpl. destruct (decide (q = path)) as [->|Hq].
  - right. split; [done|]. by rewrite Hn.
  - left. by rewrite lookup_insert_ne.
Qed.
Lemma listen_own path : P path -> keeps (own_sockets P) (listen path).
Proof.
  intros Hp m. unfold listen, bind, gets, id, ensure, modify.
  case_bool_decide as Hn; [|reflexivity]. by apply set_free_own.
Qed.
Lemma authority_lock_own path free : P path -> keeps (own_sockets P) (authority_lock path free).
Proof.
  intros Hp m. unfold authority_lock. unfold bind at 1, gets, id. destruct (fs m !! path) as [n|] eqn:Hn.
  - unfold bind, ensure. destruct (is_file n), free; reflexivity.
  - unfold bind, modify, ensure. destruct free; by apply set_free_own.
Qed.
Lemma release_stale_own path unsafe : P path -> keeps (own_sockets P) (release_stale path unsafe).
Proof.
  intros Hp m. unfold release_stale. unfold bind at 1, gets, id. destruct (path_exists path (fs m)); [|reflexivity].
  unfold symlink_metadata, lift, bind, ensure, modify, ok_or.
  destruct (fs m !! path) as [n|] eqn:Hn; [|reflexivity]. simpl.
  destruct (is_socket n && (owner n =? euid m)) eqn:Hc; [|reflexivity]. bool_prop. split; [done|]. intros q. simpl.
  destruct (decide (q = path)) as [->|Hq].
  - right. split; [done|]. rewrite Hn. by intros ? [= <-].
  - left. by rewrite lookup_delete_ne.
Qed.
Lemma listen_Ok path m m' :
  listen path m = (Ok tt, m') ->
  m' = set_fs (<[path := {| file_type := Socket; owner := euid m; mode := 0x1b6; contents := [] |}]>) m.
Proof. unfold listen. intros Hr. inv_ok. done. Qed.
(** Releasing the socket of another path leaves a path alone. *)
Lemma release_stale_other path other unsafe m m' :
  path <> other -> release_stale other unsafe m = (Ok tt, m') ->
  fs m' !! path = fs m !! path /\ euid m' = euid m.
Proof.
  intros Hne. unfold release_stale. intros Hr. apply bind_Ok in Hr as (m0 & m1 & [-> ->]%gets_Ok & Hr).
  unfold id in Hr. destruct (path_exists _ _); inv_ok; [|done]. simpl. by rewrite lookup_delete_ne.
Qed.
Lemma remove_file_Ok path m n :
  fs m !! path = Some n -> is_dir n = false -> remove_file path m = (Ok tt, set_fs (delete path) m).
Proof.
  intros Hn Hd. unfold remove_file, symlink_metadata, bind, gets, id, lift, ok_or. rewrite Hn. simpl. by rewrite Hd.
Qed.
End sockets.

Lemma status_path_ne sock : status_path sock <> sock.
Proof. induction sock as [|c sock IH]; [done|]. intros [= Heq]. by apply IH. Qed.

Lemma server_bind_own `{NKeys} parent free b :
  keeps (own_sockets (fun path => exists dir, parent (socket b) = Some dir /\
    path ∈ [join dir "authority.lock"; socket b; status_path (socket b)])) (server_bind parent free b).
Proof.
  unfold server_bind. apply keeps_bind; [apply _|apply keeps_lift; apply _|intros _].
  apply keeps_bind; [apply _|apply keeps_gets; apply _|intros m0].
  apply keeps_bind; [apply _|apply keeps_ensure; apply _|intros _].
  destruct (parent (socket b)) as [dir|] eqn:Hd; [|by intros m].
  match goal with |- keeps ?R (bind _ ?k) => change (keeps R (k dir)) end. cbv beta.
  repeat (apply keeps_bind; [apply _| |intros _]);
    first [apply owned_by_me_own|apply authority_lock_own|apply listen_own|apply release_stale_own];
    exists dir; (split; [done|set_solver]).
Qed.
Lemma authority_lock_Ok path free m m' :
  authority_lock path free m = (Ok tt, m') -> free = true /\ euid m' = euid m.
Proof.
  unfold authority_lock. intros Hr. apply bind_Ok in Hr as (m0 & m1 & [-> ->]%gets_Ok & Hr).
  unfold id in Hr. destruct (fs m !! path); by inv_ok.
Qed.
Lemma release_stale_euid path unsafe m m' :
  release_stale path unsafe m = (Ok tt, m') -> euid m' = euid m.
Proof.
  unfold release_stale. intros Hr. apply bind_Ok in Hr as (m0 & m1 & [-> ->]%gets_Ok & Hr).
  unfold id in Hr. destruct (path_exists _ _); by inv_ok.
Qed.

(** Opening the authority's sockets changes at most its lock and its two
    sockets, whatever fails on the way, and what it replaces there is a socket
    of its own account: never a file, a link, a directory or another account's
    socket. When it succeeds the bindings are valid, the account is the
    authority's, no other authority holds the lock, both sockets belong to the
    account and are open to every local peer; and closing the server removes the
    two sockets and nothing else. *)
Theorem server_confined `{NKeys} parent free b m r m' :
  server_bind parent free b m = (r, m') ->
  own_sockets (fun path => exists dir, parent (socket b) = Some dir /\
    path ∈ [join dir "authority.lock"; socket b; status_path (socket b)]) m m' /\
  (r = Ok tt ->
     let open := {| file_type := Socket; owner := authority_uid b; mode := 0x1b6; contents := [] |} in
     bindings_validate b = Ok tt /\ euid m = authority_uid b /\ free = true /\
     fs m' !! socket b = Some open /\ fs m' !! status_path (socket b) = Some open /\
     exists m'', server_drop b m' = (Ok tt, m'') /\
       fs m'' = delete (status_path (socket b)) (delete (socket b) (fs m'))).
Proof.
  intros Hrun. split.
  - pose proof (server_bind_own parent free b m) as Hk. by rewrite Hrun in Hk.
  - intros ->. intros open. unfold server_bind in Hrun.
    apply bind_Ok in Hrun as ([] & m1 & [Hv ->]%lift_Ok & Hrun).
    apply bind_Ok in Hrun as (m0 & m1 & [-> ->]%gets_Ok & Hrun). unfold id in Hrun.
    apply bind_Ok in Hrun as ([] & m1 & [He ->]%ensure_Ok & Hrun).
    apply bind_Ok in Hrun as (dir & m1 & [Hd ->]%lift_Ok & Hrun).
    apply bind_Ok in Hrun as ([] & m1 & ->%owned_by_me_Ok & Hrun).
    apply bind_Ok in Hrun as ([] & m1 & [Hf E1]%authority_lock_Ok & Hrun).
    apply bind_Ok in Hrun as ([] & m2 & E2%release_stale_euid & Hrun).
    apply bind_Ok in Hrun as ([] & m3 & ->%listen_Ok & Hrun).
    apply bind_Ok in Hrun as ([] & m4 & [Hs E4]%(release_stale_other (socket b)) & ->%listen_Ok);
      [|apply not_eq_sym, status_path_ne].
    bool_prop. simpl in Hs, E4 |- *. rewrite E4, E2, E1, He. fold open.
    rewrite lookup_insert_eq in Hs. rewrite E2, E1, He in Hs. fold open in Hs.
    assert (<[status_path (socket b) := open]> (fs m4) !! socket b = Some open) as Hsock.
    { rewrite lookup_insert_ne; [done|apply status_path_ne]. }
    split_and!; [exact Hv|congruence|exact Hf|exact Hsock|by apply lookup_insert_eq|]. eexists. split.
    + unfold server_drop, attempt. unfold bind at 1. erewrite remove_file_Ok; [|exact Hsock|done].
      unfold bind at 1. erewrite (remove_file_Ok (status_path (socket b)) _ open); [reflexivity| |done]. simpl.
      rewrite lookup_delete_ne by (apply not_eq_sym, status_path_ne). apply lookup_insert_eq.
    + done.
Qed.

(** ** What setting up leaves alone *)

Section facts.
Context `{NKeys} `{RoleJson} `{ConfigJson}.

(** Files appear; none changes or goes. *)
Definition adds_files (m m' : Machine) : Prop := fs m ⊆ fs m' /\ euid m' = euid m.
#[export] Instance adds_files_preorder : PreOrder adds_files.
Proof.
  split; [intros m; by split|]. intros a b c [Hab Eab] [Hbc Ebc]. split; [by etrans|congruence].
Qed.

Lemma owned_by_me_adds path private : keeps adds_files (owned_by_me path private).
Proof. unfold owned_by_me. keeps_auto. Qed.
#[local] Hint Resolve owned_by_me_adds : keeps.
Lemma publish_adds path data : keeps adds_files (publish path data).
Proof.
  intros m. unfold publish. unfold bind at 1, gets, id. cbv beta.
  destruct (match disk m with d :: _ => d | [] => (true, true) end) as [written synced].
  unfold bind, modify, ensure. simpl. destruct written; [|done].
  case_bool_decide as Hnew; [|done]. assert (fs m ⊆ <[path := {| file_type := Regular;
    owner := euid m; mode := 0x180; contents := data |}]> (fs m)) by by apply insert_subseteq.
  simpl in *. by destruct synced.
Qed.
#[local] Hint Resolve publish_adds : keeps.
Lemma publish_or_match_adds path data differs : keeps adds_files (publish_or_match path data differs).
Proof. unfold publish_or_match. keeps_auto. Qed.
#[local] Hint Resolve publish_or_match_adds : keeps.
(** Files appear under the names of [l]; none changes or goes. *)
Definition only_files (l : list string) (m m' : Machine) : Prop :=
  adds_files m m' /\ forall p, p ∉ l -> fs m' !! p = fs m !! p.
#[export] Instance only_files_preorder l : PreOrder (only_files l).
Proof.
  split; [intros m; by split|]. intros m1 m2 m3 [A1 E1] [A2 E2]. split; [by etrans|]. intros p Hp. by rewrite E2, E1.
Qed.
Lemma runtime_lock_only home : keeps (only_files [join home "runtime.lock"]) (runtime_lock home).
Proof.
  assert (forall path private, keeps (only_files [join home "runtime.lock"]) (owned_by_me path private)) as Ho
    by (intros; unfold owned_by_me; keeps_auto).
  unfold runtime_lock. apply keeps_bind; [apply _|apply Ho|intros _].
  intros m. unfold bind at 1, gets, id. set (R := only_files [_]).
  assert (forall f : Machine -> result unit * Machine,
    R m (snd (f m)) -> forall g : unit -> M Machine unit,
    (forall u, keeps R (g u)) -> R m (snd (bind f g m))) as Hseq.
  { intros f Hf g Hg. unfold bind. destruct (f m) as [[u|e] m1]; [|exact Hf]. etrans; [exact Hf|apply Hg]. }
  apply Hseq; [|intros u; subst R; keeps_auto].
  destruct (fs m !! _) eqn:Hnew; [unfold ensure; by destruct (negb _)|]. split; [split; [|done]|].
  - simpl. by apply insert_subseteq.
  - intros p Hp. simpl. apply lookup_insert_ne. set_solver.
Qed.
Lemma runtime_lock_adds home : keeps adds_files (runtime_lock home).
Proof. intros m. apply runtime_lock_only. Qed.
#[local] Hint Resolve runtime_lock_adds : keeps.

Lemma follow_regular n path files node :
  files !! path = Some node -> file_type node = Regular -> follow n path files = Ok node.
Proof. intros Hn Ht. destruct n; simpl; unfold symlink_metadata; rewrite Hn; simpl; by rewrite Ht. Qed.
Lemma read_file_grows path files files' data :
  files ⊆ files' -> read_file path files = Ok data -> read_file path files' = Ok data.
Proof.
  intros Hsub. unfold read_file. intros Hr. apply rbind_Ok in Hr as (node & Hf & Hr).
  assert (follow 40 path files' = Ok node) as ->; [|done].
  revert path Hf. generalize 40%nat. intros n. induction n as [|n IH]; intros path Hf; simpl in *;
    apply rbind_Ok in Hf as (node' & Hn%ok_or_Ok & Hf);
    assert (files' !! path = Some node') as Hn' by (by eapply lookup_weaken);
    unfold symlink_metadata; rewrite Hn'; simpl;
    destruct (file_type node'); try done. by apply IH.
Qed.
Lemma publish_Ok path data m u m' :
  publish path data m = (Ok u, m') -> read_file path (fs m') = Ok data.
Proof.
  unfold publish. unfold bind at 1, gets, id. cbv beta.
  destruct (match disk m with d :: _ => d | [] => (true, true) end) as [written synced].
  unfold bind, modify, ensure. simpl. destruct written; [|done]. case_bool_decide; [|done].
  destruct synced; intros [= _ <-]; simpl. unfold read_file.
  erewrite follow_regular; [|apply lookup_insert_eq|done]. done.
Qed.
Lemma publish_or_match_Ok path data differs m u m' :
  publish_or_match path data differs m = (Ok u, m') -> read_file path (fs m') = Ok data.
Proof.
  unfold publish_or_match. intros Hr. apply bind_Ok in Hr as (m0 & m1 & [-> ->]%gets_Ok & Hr).
  unfold id in Hr. destruct (path_exists _ _); [|by apply publish_Ok in Hr].
  apply bind_Ok in Hr as ([] & m1 & Ho & Hr). unfold owned_by_me in Ho. inv_ok.
  bool_prop. by subst.
Qed.

Lemma runtime_lock_idle home m m' :
  runtime_lock home m = (Ok tt, m') -> runtime_active m = false.
Proof.
  unfold runtime_lock. intros Hl. apply bind_Ok in Hl as ([] & a & ->%owned_by_me_Ok & Hl).
  apply bind_Ok in Hl as (? & a & [-> ->]%gets_Ok & Hl). unfold id in Hl.
  apply bind_Ok in Hl as ([] & a & Hc & Hl).
  apply bind_Ok in Hl as ([] & b & ->%owned_by_me_Ok & Hl). inv_ok. by apply negb_true_iff.
Qed.
(** A file found there with the right contents changes nothing. *)
Lemma matching_file_Ok found path data differs m m' :
  when found (owned_by_me path true ;;;
    let* current := lift (read_file path (fs m)) in
    ensure (bool_decide (current = data)) differs) m = (Ok tt, m') ->
  m' = m /\ (found = true -> read_file path (fs m) = Ok data).
Proof.
  destruct found; simpl; intros Hb; [|by inv_ok].
  apply bind_Ok in Hb as ([] & a2 & ->%owned_by_me_Ok & Hb). inv_ok. bool_prop. by subst.
Qed.

(** Binding the roles replaces nothing, whatever fails on the way: every file
    that was there is still there with the same contents, owner and mode. When
    it completes, the binding and the capability document are on disk as
    announced; the two accounts are distinct and neither is root; the worker's
    key is a user key other than the control and connection keys; and no runtime
    was active. *)
Theorem bind_never_replaces canonical parent now home auth_config worker nkey sock m r m' :
  bind_roles canonical parent now home auth_config worker nkey sock m = (r, m') ->
  fs m ⊆ fs m' /\
  (forall data, r = Ok data ->
     read_file (join home BINDINGS) (fs m') = Ok data /\
     exists config caps,
       read_file (join home "runtime-permissions.json") (fs m') = Ok caps /\
       capabilities_to_vec_pretty (capabilities config {| b_version := ROLE_VERSION;
         authority_uid := euid m; worker_uid := worker; worker_nkey := nkey; socket := sock |})
         = Ok caps /\
       euid m <> worker /\ euid m <> 0 /\ worker <> 0 /\ nkey_type nkey = Some UserKey /\
       nkey <> control_nkey config /\ nkey <> sr_public_key (connection config) /\
       runtime_active m = false).
Proof.
  intros Hrun. split.
  { assert (keeps adds_files (bind_roles canonical parent now home auth_config worker nkey sock)) as Hk.
    { unfold bind_roles. keeps_auto. }
    specialize (Hk m). rewrite Hrun in Hk. apply Hk. }
  intros data ->. unfold bind_roles in Hrun.
  apply bind_Ok in Hrun as ([] & m1 & ->%owned_by_me_Ok & Hrun).
  apply bind_Ok in Hrun as (m0 & m1 & [-> ->]%gets_Ok & Hrun).
  unfold id in Hrun. apply bind_Ok in Hrun as ([] & m1 & [Hv ->]%lift_Ok & Hrun).
  apply bind_Ok in Hrun as ([] & m1 & Hidle%runtime_lock_idle & Hrun).
  apply bind_Ok in Hrun as ([] & m2 & ->%owned_by_me_Ok & Hrun).
  apply bind_Ok in Hrun as (a & m2 & [_ ->]%lift_Ok & Hrun).
  apply bind_Ok in Hrun as (h & m2 & [_ ->]%lift_Ok & Hrun).
  apply bind_Ok in Hrun as ([] & m2 & [_ ->]%ensure_Ok & Hrun).
  apply bind_Ok in Hrun as (m0 & m2 & [-> ->]%gets_Ok & Hrun). unfold id in Hrun.
  apply bind_Ok in Hrun as (config & m2 & [_ ->]%lift_Ok & Hrun).
  apply bind_Ok in Hrun as ([] & m2 & [Hkeys ->]%ensure_Ok & Hrun).
  apply bind_Ok in Hrun as (data' & m2 & [_ ->]%lift_Ok & Hrun).
  apply bind_Ok in Hrun as ([] & m2 & [-> Hbound]%matching_file_Ok & Hrun).
  apply bind_Ok in Hrun as (caps & m2 & [Hcaps ->]%lift_Ok & Hrun).
  apply bind_Ok in Hrun as ([] & m2 & Hp & Hrun).
  pose proof (publish_or_match_adds (join home "runtime-permissions.json") caps
    "runtime permission artifact differs; refusing replacement" m1) as [Hsub _].
  rewrite Hp in Hsub. simpl in Hsub. apply publish_or_match_Ok in Hp.
  apply bind_Ok in Hrun as ([] & m3 & Hw & [-> ->]%ret_Ok).
  unfold bindings_validate in Hv. simpl in Hv. inv_ok. bool_prop.
  assert (fs m2 ⊆ fs m3 /\ read_file (join home BINDINGS) (fs m3) = Ok data') as [Hsub3 Hread].
  { destruct (path_exists _ _); simpl in Hw.
    - apply ret_Ok in Hw as [_ ->]. split; [done|]. eapply read_file_grows; [exact Hsub|auto].
    - pose proof (publish_adds (join home BINDINGS) data' m2) as [Hs3 _]. rewrite Hw in Hs3.
      split; [done|by apply publish_Ok in Hw]. }
  split; [done|]. exists config, caps. split_and!; try done.
  - by eapply read_file_grows.
  - match goal with Ht : key_pair_type nkey = Ok _ |- _ => apply ok_or_Ok in Ht; congruence end.
Qed.
End facts.
