(* ===== verification/Ipc.v ===== *)
(** * The local control transport

    [crates/epochgrid-service/src/roles.rs], the running half: the control worker
    forwards requests it receives from the broker to the authority over a local
    socket, one at a time and numbered; the authority's listener answers only
    the bound worker, keeps its lease, and closes on the first frame out of
    order. A second socket answers status questions. *)
From S2P Require Import Prelude External Wire AuthDb AuditTrail Identity Registry Policy Diagnostics Callout Roles.

(* @src service/roles.rs 27-27 LIMIT *)
Definition LIMIT : Z := 512 * 1024.

(** ** Frames *)

(* @src service/roles.rs 252-273 Operation *)
Inductive Operation : Type :=
| OReady
| OHeartbeat
| ORequest (subject : string) (payload : bytes)
| OResponse (payload : bytes)
| OInspect
| OStatus (reconciled worker_live : bool)
| ODiagnose (version : Z)
| ODiagnostic (report : Report).
(* @src service/roles.rs 244-248 Frame *)
Record Frame : Type := { f_version : Z; f_sequence : Z; f_operation : Operation }.

(** [serde_json::to_vec] and [from_slice] on frames and on reports. *)
Class FrameJson : Type := {
  frame_to_vec : Frame -> result bytes;
  frame_from_slice : bytes -> result Frame;
  report_to_vec : Report -> result bytes;
  report_from_slice : bytes -> result Report;
}.

(** [write_u32]: big endian. *)
Definition byte_of_Z (z : Z) : Byte.byte := default x00 (Byte.of_N (Z.to_N (z mod 256))).
Definition byte_to_Z (b : Byte.byte) : Z := Z.of_N (Byte.to_N b).
Definition write_u32 (n : Z) : bytes :=
  [byte_of_Z (n / 2 ^ 24); byte_of_Z (n / 2 ^ 16); byte_of_Z (n / 2 ^ 8); byte_of_Z n].
Definition read_u32 (input : bytes) : result (Z * bytes) :=
  match input with
  | a :: b :: c :: d :: rest =>
      Ok (byte_to_Z a * 2 ^ 24 + byte_to_Z b * 2 ^ 16 + byte_to_Z c * 2 ^ 8 + byte_to_Z d, rest)
  | _ => Err (Anyhow "IPC read deadline")
  end.

Section frames.
Context `{FrameJson}.

(** [input] is what arrives before the deadline; fewer bytes than announced are
    an error of the read. *)
(* @src service/roles.rs 278-290 read_limit *)
Definition read_limit (limit : Z) (input : bytes) : result (Frame * bytes) :=
  let? (size, input) := read_u32 input in
  check ((0 <? size) && (size <=? limit)) "invalid IPC frame length" ;;?
  check (size <=? zlen input) "IPC read deadline" ;;?
  let? frame := frame_from_slice (take (Z.to_nat size) input) in
  check (f_version frame =? ROLE_VERSION) "unsupported IPC version" ;;?
  Ok (frame, drop (Z.to_nat size) input).
(* @src service/roles.rs 292-306 write *)
Definition write_frame (sequence : Z) (op : Operation) : result bytes :=
  let? b := frame_to_vec {| f_version := ROLE_VERSION; f_sequence := sequence; f_operation := op |} in
  check (zlen b <=? LIMIT) "IPC output too large" ;;?
  Ok (write_u32 (zlen b) ++ b).

(** ** One end of a connection *)

(** Bytes to read, bytes written, the requests handed to the authority, the
    messages published to the broker, the authority's runtime. *)
Record Link : Type := {
  lk_in : bytes;
  lk_out : bytes;
  lk_asked : list (string * bytes);
  lk_published : list (string * bytes);
  lk_runtime : Runtime;
}.
Definition set_lk_in b (l : Link) : Link := {|
  lk_in := b; lk_out := lk_out l; lk_asked := lk_asked l; lk_published := lk_published l;
  lk_runtime := lk_runtime l |}.
Definition set_lk_out b (l : Link) : Link := {|
  lk_in := lk_in l; lk_out := b; lk_asked := lk_asked l; lk_published := lk_published l;
  lk_runtime := lk_runtime l |}.
Definition ask_authority q (l : Link) : Link := {|
  lk_in := lk_in l; lk_out := lk_out l; lk_asked := lk_asked l ++ [q];
  lk_published := lk_published l; lk_runtime := lk_runtime l |}.
Definition publish_reply q (l : Link) : Link := {|
  lk_in := lk_in l; lk_out := lk_out l; lk_asked := lk_asked l;
  lk_published := lk_published l ++ [q]; lk_runtime := lk_runtime l |}.
Definition set_lk_runtime f (l : Link) : Link := {|
  lk_in := lk_in l; lk_out := lk_out l; lk_asked := lk_asked l; lk_published := lk_published l;
  lk_runtime := f (lk_runtime l) |}.

Definition read : M Link Frame :=
  let* l := gets id in
  let* (frame, rest) := lift (read_limit LIMIT (lk_in l)) in
  modify (set_lk_in rest) ;;;
  ret frame.
Definition write (sequence : Z) (op : Operation) : M Link unit :=
  let* b := lift (write_frame sequence op) in
  modify (fun l => set_lk_out (lk_out l ++ b) l).

(** ** The authority's end *)

Definition control_subjects : list string :=
  [REGISTER; LOOKUP; DEVICES; KEYPACKAGE; AUDIT; REVOKE; REVOCATIONS; ENROLL; Policy.SUBJECT; RELAY].
(* @src service/roles.rs 787-801 allowed *)
Definition allowed (subject : string) : bool :=
  existsb (fun s => bool_decide (s = subject)) control_subjects.

(** One round: when its frame was read, and what the authority answered within
    the deadline. *)
Record Turn : Type := { tu_now : Z; tu_answer : option bytes }.

Definition checked_next (sequence : Z) : result Z :=
  ok_or (checked_add64 sequence 1) (Anyhow "IPC sequence exhausted").

(* @src service/roles.rs 752-783 session (round) *)
Definition session_round (turn : Turn) (sequence : Z) : M Link Z :=
  let* frame := read in
  ensure (f_sequence frame =? sequence) "stale IPC sequence" ;;;
  modify (set_lk_runtime (set_lease true (tu_now turn))) ;;;
  let* operation := match f_operation frame with
    | OHeartbeat => ret OHeartbeat
    | ORequest subject payload =>
        ensure ((zlen payload <=? MAX_WIRE) && allowed subject) "invalid control request" ;;;
        modify (ask_authority (subject, payload)) ;;;
        let* b := lift (ok_or (tu_answer turn) (Anyhow "authority operation deadline")) in
        ret (OResponse b)
    | _ => fail (Anyhow "unexpected IPC operation")
    end in
  write sequence operation ;;;
  lift (checked_next sequence).

(** The rounds there are turns for; without one the session is still open. *)
Fixpoint session_loop (turns : list Turn) (sequence : Z) : M Link Z :=
  match turns with
  | [] => ret sequence
  | turn :: turns =>
      let* sequence := session_round turn sequence in
      session_loop turns sequence
  end.
(* @src service/roles.rs 733-785 session *)
Definition session (now : Z) (turns : list Turn) : M Link Z :=
  let* first := read in
  ensure ((f_sequence first =? 0)
          && match f_operation first with OReady => true | _ => false end)
    "worker handshake required" ;;;
  write 0 OHeartbeat ;;;
  modify (set_lk_runtime (set_lease true now)) ;;;
  session_loop turns 1.

Definition session_event (k : Kind) : Event := {|
  kind := k; stage := Observation; outcome := Succeeded; reason := Verified; actor := BoundWorker;
  count := 1; actor_reference := None; target_reference := None; ev_generation := None;
  window_seconds := None; sequence_boundary := None |}.
(** One accepted connection, to its end: the lease falls with the session. *)
(* @src service/roles.rs 474-501 bind (connection) *)
Definition accept_worker (worker : Z) (peer : result Z) (now : Z) (turns : list Turn)
  : M Link unit :=
  if match peer with Ok u => u =? worker | Err _ => false end then
    modify (set_lk_runtime (queue_audit (session_event WorkerSessionStarted))) ;;;
    let* r := attempt (session now turns) in
    when (negb (is_ok r))
      (modify (set_lk_runtime (fun rt => set_disconnects (increment (disconnects rt)) rt))) ;;;
    modify (set_lk_runtime (queue_audit (session_event WorkerSessionEnded))) ;;;
    modify (set_lk_runtime (fun rt => set_lease false (last_seen rt) rt))
  else ret tt.

(** The queue between listener and service: requests of an expired session are
    discarded, a closed queue is an error. *)
(* @src service/roles.rs 308-313 Request *)
Record QueuedRequest : Type := { qr_subject : string; qr_payload : bytes; qr_active : bool }.
(* @src service/roles.rs 317-327 next_request *)
Fixpoint next_request (queue : list QueuedRequest) : result (QueuedRequest * list QueuedRequest) :=
  match queue with
  | [] => Err (Anyhow "local control listener ended")
  | q :: queue => if qr_active q then Ok (q, queue) else next_request queue
  end.

(** ** The worker's end *)

Inductive WorkerEvent : Type :=
| WTick
| WMessage (subject : string) (reply : option string) (payload : bytes).

(** What the worker forwards, and where the answer goes. *)
(* @src service/roles.rs 861-872 worker (select) *)
Definition select (e : WorkerEvent) : option (Operation * option string) :=
  match e with
  | WTick => Some (OHeartbeat, None)
  | WMessage subject None _ => None
  | WMessage subject (Some reply) payload =>
      if negb (starts_with "_INBOX." reply) || negb (allowed subject) || (MAX_WIRE <? zlen payload)
      then None else Some (ORequest subject payload, Some reply)
  end.
(* @src service/roles.rs 874-887 worker (answer) *)
Definition worker_receive (reply : option string) (sequence : Z) : M Link Z :=
  let* response := read in
  ensure (f_sequence response =? sequence) "stale authority response" ;;;
  match reply, f_operation response with
  | Some reply, OResponse payload =>
      ensure (zlen payload <=? MAX_WIRE) "oversized authority response" ;;;
      modify (publish_reply (reply, payload))
  | None, OHeartbeat => ret tt
  | _, _ => fail (Anyhow "unexpected authority response")
  end ;;;
  lift (checked_next sequence).
(** The hello of both ends. *)
(* @src service/roles.rs 851-855 worker (handshake) *)
Definition worker_greeted : M Link unit :=
  let* first := read in
  ensure ((f_sequence first =? 0)
          && match f_operation first with OHeartbeat => true | _ => false end)
    "invalid authority handshake".
End frames.

(** ** The two ends together

    The socket between the ends delivers what one writes to the other; each end
    waits for the other, so a round is a write, the session's round, a read. *)
Section linked.
Context `{FrameJson}.

Record Ends : Type := { worker_end : Link; authority_end : Link }.
Definition at_worker {A} (m : M Link A) : M Ends A := fun e =>
  let '(r, l) := m (worker_end e) in (r, {| worker_end := l; authority_end := authority_end e |}).
Definition at_authority {A} (m : M Link A) : M Ends A := fun e =>
  let '(r, l) := m (authority_end e) in (r, {| worker_end := worker_end e; authority_end := l |}).
Definition to_authority : M Ends unit := modify (fun e => {|
  worker_end := set_lk_out [] (worker_end e);
  authority_end := set_lk_in (lk_in (authority_end e) ++ lk_out (worker_end e)) (authority_end e) |}).
Definition to_worker : M Ends unit := modify (fun e => {|
  worker_end := set_lk_in (lk_in (worker_end e) ++ lk_out (authority_end e)) (worker_end e);
  authority_end := set_lk_out [] (authority_end e) |}).

(* @src service/roles.rs 873-887 worker (round) *)
Definition linked_round (op : Operation) (reply : option string) (turn : Turn) (sequence : Z)
  : M Ends Z :=
  at_worker (write sequence op) ;;;
  to_authority ;;;
  let* _ := at_authority (session_round turn sequence) in
  to_worker ;;;
  at_worker (worker_receive reply sequence).
(** The events there are turns for. *)
Fixpoint linked_loop (events : list WorkerEvent) (turns : list Turn) (sequence : Z) : M Ends Z :=
  match events with
  | [] => ret sequence
  | e :: events =>
      match select e, turns with
      | None, _ => linked_loop events turns sequence
      | Some _, [] => ret sequence
      | Some (op, reply), turn :: turns =>
          let* sequence := linked_round op reply turn sequence in
          linked_loop events turns sequence
      end
  end.
(* @src service/roles.rs 850-888 worker (connection) *)
Definition linked (now : Z) (events : list WorkerEvent) (turns : list Turn) : M Ends Z :=
  at_worker (write 0 OReady) ;;;
  to_authority ;;;
  at_authority (
    let* first := read in
    ensure ((f_sequence first =? 0)
            && match f_operation first with OReady => true | _ => false end)
      "worker handshake required" ;;;
    write 0 OHeartbeat ;;;
    modify (set_lk_runtime (set_lease true now))) ;;;
  to_worker ;;;
  at_worker worker_greeted ;;;
  linked_loop events turns 1.
End linked.

(** ** Status *)

Section status.
Context `{FrameJson}.

(** [report] is the snapshot for the peer's role. The answer, or nothing: the
    connection is closed. *)
(* @src service/roles.rs 414-466 bind (status) *)
Definition status_answer (authority worker : Z) (peer : result Z) (snapshot : Role -> Report)
    (input : bytes) : result bytes :=
  let? peer := peer in
  let? role := if peer =? authority then Ok RoleAuthority
               else if peer =? worker then Ok RoleControl else Err External in
  let? (request, _) := read_limit 256 input in
  check (f_sequence request =? 0) "status sequence required" ;;?
  let report := snapshot role in
  let? response := match f_operation request with
    | OInspect =>
        let? obs := ok_or (observations report) (Anyhow "runtime unavailable") in
        Ok (OStatus (obs_reconciled obs) (worker_live obs))
    | ODiagnose version =>
        if version =? REPORT_VERSION then Ok (ODiagnostic report)
        else Err (Anyhow "unsupported status operation")
    | _ => Err (Anyhow "unsupported status operation")
    end in
  let? encoded := frame_to_vec {| f_version := ROLE_VERSION; f_sequence := 0;
                                  f_operation := response |} in
  check (zlen encoded <=? MAX_REPORT) "diagnostic output limit" ;;?
  Ok (write_u32 (zlen encoded) ++ encoded).

(** [peer] is the account behind the socket, [reply] what it sends back for the
    bytes written to it. *)
(* @src service/roles.rs 522-543 inspect *)
Definition inspect (authority : Z) (peer : result Z) (reply : bytes -> bytes) : result bool :=
  let? peer := peer in
  check (peer =? authority) "unexpected authority peer" ;;?
  let? b := write_frame 0 OInspect in
  let? (response, _) := read_limit LIMIT (reply b) in
  check (f_sequence response =? 0) "invalid status sequence" ;;?
  match f_operation response with
  | OStatus reconciled worker_live => Ok (reconciled && worker_live)
  | _ => Err (Anyhow "status response required")
  end.
(** [bindings] is what [diagnostic_bindings] found. *)
(* @src service/roles.rs 591-631 diagnostic_status *)
Definition diagnostic_status (bindings : result Bindings) (role : Role) (peer : result Z)
    (reply : bytes -> option bytes) : Report :=
  match bindings with
  | Err _ => unknown_report role ConfigurationInvalid
  | Ok b =>
      if negb (match peer with Ok u => u =? authority_uid b | Err _ => false end)
      then unknown_report role AuthorityUnavailable
      else
        match write_frame 0 (ODiagnose REPORT_VERSION) with
        | Err _ => unknown_report role AuthorityUnavailable
        | Ok bytes =>
            match reply bytes with
            | None => unknown_report role ObservationTimeout
            | Some answer =>
                match read_limit MAX_REPORT answer with
                | Ok ({| f_sequence := 0; f_operation := ODiagnostic report |}, _) =>
                    match (let? b := report_to_vec report in parse_report report_from_slice b role) with
                    | Ok report => report
                    | Err _ => unknown_report role UnsupportedResponse
                    end
                | _ => unknown_report role UnsupportedResponse
                end
            end
        end
  end.
End status.
