(* ===== verification/IpcFacts.v ===== *)
(** * The local control transport is faithful

    Frames survive the wire; a worker session asks the authority only what it
    may and holds the lease only while it lasts; and the two ends together are
    no more than a queue: every answer published is the authority's answer to
    the request that named its reply subject, in order. *)
From S2P Require Import Prelude External Wire AuthDb AuditTrail Identity Registry Policy Diagnostics Callout Roles Ipc.

(** ** Numbers on the wire *)

Lemma byte_of_Z_spec z : byte_to_Z (byte_of_Z z) = z mod 256.
Proof.
  unfold byte_to_Z, byte_of_Z. pose proof (Z.mod_pos_bound z 256 eq_refl) as Hb.
  destruct (Byte.of_N (Z.to_N (z mod 256))) as [b|] eqn:Hz.
  - apply Byte.to_of_N in Hz. simpl. rewrite Hz. apply Z2N.id. lia.
  - apply Byte.of_N_None_iff in Hz. lia.
Qed.
Lemma read_write_u32 n rest : 0 <= n < 2 ^ 32 -> read_u32 (write_u32 n ++ rest) = Ok (n, rest).
Proof.
  intros Hn. unfold read_u32, write_u32. simpl app. cbv beta iota. rewrite !byte_of_Z_spec.
  assert (n / 2 ^ 24 mod 256 = n / 2 ^ 24) as ->.
  { apply Z.mod_small. split; [apply Z.div_pos; lia|apply Z.div_lt_upper_bound; lia]. }
  f_equal. f_equal.
  pose proof (Z.div_mod n (2 ^ 8) ltac:(lia)) as D1.
  pose proof (Z.div_mod (n / 2 ^ 8) (2 ^ 8) ltac:(lia)) as D2.
  pose proof (Z.div_mod (n / 2 ^ 8 / 2 ^ 8) (2 ^ 8) ltac:(lia)) as D3.
  rewrite !Z.div_div in * by lia. change (2 ^ 8 * 2 ^ 8) with (2 ^ 16) in *.
  change (2 ^ 16 * 2 ^ 8) with (2 ^ 24) in *. change 256 with (2 ^ 8). lia.
Qed.

Section facts.
Context `{FrameJson}.

(** What the code relies on of [serde_json]: a serialized frame parses back, and
    nothing parses as a frame. *)
Record frame_law : Prop := {
  frame_back : forall f b, frame_to_vec f = Ok b -> frame_from_slice b = Ok f;
  frame_nonempty : is_ok (frame_from_slice []) = false;
}.
Context (law : frame_law).

Lemma frame_size f b : frame_to_vec f = Ok b -> 0 < zlen b.
Proof.
  intros Hb. destruct b as [|c b]; [|unfold zlen; simpl; lia].
  apply (frame_back law) in Hb. pose proof (frame_nonempty law) as Hne. by rewrite Hb in Hne.
Qed.
Lemma read_encoded limit seq op b rest :
  frame_to_vec {| f_version := ROLE_VERSION; f_sequence := seq; f_operation := op |} = Ok b ->
  zlen b <= limit -> limit <= LIMIT ->
  read_limit limit ((write_u32 (zlen b) ++ b) ++ rest)
    = Ok ({| f_version := ROLE_VERSION; f_sequence := seq; f_operation := op |}, rest).
Proof.
  intros Hb Hl HL. unfold read_limit. rewrite <- app_assoc.
  pose proof (frame_size _ _ Hb) as Hpos. unfold LIMIT in HL. rewrite read_write_u32 by lia. simpl.
  rewrite (proj2 (Z.ltb_lt _ _) Hpos), (proj2 (Z.leb_le _ _) Hl). simpl.
  assert (zlen b <=? zlen (b ++ rest) = true) as ->.
  { apply Z.leb_le. unfold zlen. rewrite length_app. lia. }
  simpl. unfold zlen. rewrite Nat2Z.id, take_app_length, drop_app_length, (frame_back law _ _ Hb).
  done.
Qed.

(** Frames round-trip: whatever one end manages to write, the other reads back as
    the same sequence number and operation, and the reader stops exactly at the
    frame's end. *)
Theorem frame_roundtrip sequence op b rest :
  write_frame sequence op = Ok b ->
  read_limit LIMIT (b ++ rest)
    = Ok ({| f_version := ROLE_VERSION; f_sequence := sequence; f_operation := op |}, rest).
Proof.
  unfold write_frame. intros Hw. apply rbind_Ok in Hw as (e & He & Hw).
  apply rbind_Ok in Hw as ([] & Hl%check_Ok & [= <-]). bool_prop. by apply read_encoded.
Qed.
Lemma written_read sequence op b rest l :
  write_frame sequence op = Ok b -> lk_in l = b ++ rest ->
  read l = (Ok {| f_version := ROLE_VERSION; f_sequence := sequence; f_operation := op |},
            set_lk_in rest l).
Proof.
  unfold write_frame. intros Hw Hin. apply rbind_Ok in Hw as (e & He & Hw).
  apply rbind_Ok in Hw as ([] & Hl%check_Ok & [= <-]). bool_prop.
  unfold read, bind, gets, lift, id. rewrite Hin, (read_encoded LIMIT _ _ _ _ He) by lia. done.
Qed.
Lemma write_run sequence op b l :
  write_frame sequence op = Ok b -> write sequence op l = (Ok tt, set_lk_out (lk_out l ++ b) l).
Proof. intros Hw. unfold write, bind, lift, modify. by rewrite Hw. Qed.

(** ** What a session may do *)

(** Only allowed requests of bounded size are added. *)
Definition asks_allowed (l l' : Link) : Prop :=
  exists new, lk_asked l' = lk_asked l ++ new /\
    Forall (fun q => allowed q.1 = true /\ zlen q.2 <= MAX_WIRE) new.
#[local] Instance asks_allowed_preorder : PreOrder asks_allowed.
Proof.
  split; [intros l; exists []; by rewrite app_nil_r|].
  intros a b c (n1 & H1' & F1) (n2 & H2' & F2). exists (n1 ++ n2).
  rewrite H2', H1', app_assoc. split; [done|]. by apply Forall_app.
Qed.
Lemma asks_same f : (forall l, lk_asked (f l) = lk_asked l) -> keeps asks_allowed (modify f).
Proof. intros Hf l. exists []. simpl. by rewrite Hf, app_nil_r. Qed.
Lemma read_asks : keeps asks_allowed read.
Proof.
  unfold read. apply keeps_bind; [apply _|apply keeps_gets, _|]. intros l.
  apply keeps_bind; [apply _|apply keeps_lift, _|]. intros [frame rest].
  apply keeps_bind; [apply _|by apply asks_same|]. intros _. apply keeps_ret, _.
Qed.
Lemma write_asks sequence op : keeps asks_allowed (write sequence op).
Proof.
  unfold write. apply keeps_bind; [apply _|apply keeps_lift, _|]. intros b. by apply asks_same.
Qed.
#[local] Hint Resolve read_asks write_asks : keeps.
Lemma session_round_asks turn sequence : keeps asks_allowed (session_round turn sequence).
Proof.
  assert (forall f, keeps asks_allowed (modify (set_lk_runtime f))) as Hrt
    by (intros f; by apply asks_same).
  assert (forall subject payload (f : unit -> M Link Operation),
    (forall u, keeps asks_allowed (f u)) ->
    keeps asks_allowed (ensure ((zlen payload <=? MAX_WIRE) && allowed subject) "invalid control request" ;;;
      (modify (ask_authority (subject, payload)) ;;; f tt))) as Hask.
  { intros subject payload f Hf l. unfold bind at 1, ensure.
    destruct (_ && _) eqn:Hok; [|reflexivity]. bool_prop.
    unfold bind, modify. etrans; [|apply Hf]. exists [(subject, payload)]. split; [done|].
    by constructor. }
  unfold session_round. apply keeps_bind; [apply _|apply read_asks|]. intros frame.
  apply keeps_bind; [apply _|apply keeps_ensure, _|]. intros _.
  apply keeps_bind; [apply _|apply Hrt|]. intros _.
  apply keeps_bind; [apply _| |intros op; keeps_auto].
  destruct (f_operation frame); try (keeps_auto; fail). apply (Hask subject payload
    (fun _ => let* b := lift (ok_or (tu_answer turn) (Anyhow "authority operation deadline")) in
              ret (OResponse b))). intros _. keeps_auto.
Qed.
Lemma session_asks now turns : keeps asks_allowed (session now turns).
Proof.
  assert (forall turns sequence, keeps asks_allowed (session_loop turns sequence)) as Hloop.
  { induction turns0 as [|turn ts IH]; intros sequence; simpl; [keeps_auto|].
    apply keeps_bind; [apply _|apply session_round_asks|]. intros s. apply IH. }
  assert (keeps asks_allowed (modify (set_lk_runtime (set_lease true now)))) as Hrt by by apply asks_same.
  unfold session. keeps_auto; apply Hloop.
Qed.

(** The gate is not the session's to move. *)
Definition same_gate (l l' : Link) : Prop :=
  reconciled (lk_runtime l') = reconciled (lk_runtime l).
#[local] Instance same_gate_preorder : PreOrder same_gate.
Proof. split; [by intros l|]. unfold same_gate. intros a b c ? ?. congruence. Qed.
Lemma runtime_gate f :
  (forall rt, reconciled (f rt) = reconciled rt) -> keeps same_gate (modify (set_lk_runtime f)).
Proof. intros Hf l. apply Hf. Qed.
Lemma queue_audit_gate ev rt : reconciled (queue_audit ev rt) = reconciled rt.
Proof. unfold queue_audit. by destruct (_ <? _). Qed.
Lemma session_gate now turns : keeps same_gate (session now turns).
Proof.
  assert (keeps same_gate read) as Hread.
  { intros l. unfold read, bind, gets, lift. by destruct (read_limit _ _) as [[]|]. }
  assert (forall s op, keeps same_gate (write s op)) as Hwrite.
  { intros s op l. unfold write, bind, lift. by destruct (write_frame _ _). }
  assert (forall f : Link -> Link, (forall l, lk_runtime (f l) = lk_runtime l) ->
    keeps same_gate (modify f)) as Hmod by (intros f Hf l; unfold same_gate; simpl; by rewrite Hf).
  assert (forall q, keeps same_gate (modify (ask_authority q))) as Hask by (intros q; by apply Hmod).
  assert (forall n, keeps same_gate (modify (set_lk_runtime (set_lease true n)))) as Hlease
    by (intros n; by apply runtime_gate).
  assert (forall turns sequence, keeps same_gate (session_loop turns sequence)) as Hloop.
  { induction turns0 as [|turn ts IH]; intros sequence; simpl; [keeps_auto|].
    apply keeps_bind; [apply _| |intros s; apply IH]. unfold session_round. keeps_auto. }
  unfold session. keeps_auto; apply Hloop.
Qed.

(** A worker session is confined, whatever bytes arrive. A connection from any
    account but the bound worker's changes nothing. One from the worker can put
    before the authority only requests on the ten control subjects and of at
    most 65536 bytes; when it ends, however it ends, the lease is down and the
    gate is where it was. *)
Theorem session_confined worker peer now turns l :
  let l' := snd (accept_worker worker peer now turns l) in
  (peer <> Ok worker -> l' = l) /\
  (peer = Ok worker -> live (lk_runtime l') = false) /\
  reconciled (lk_runtime l') = reconciled (lk_runtime l) /\
  exists new, lk_asked l' = lk_asked l ++ new /\
    Forall (fun q => allowed q.1 = true /\ zlen q.2 <= MAX_WIRE) new.
Proof.
  assert (peer = Ok worker \/ peer <> Ok worker) as [->|Hne].
  { destruct peer as [u|e]; [|by right]. destruct (Z.eq_dec u worker) as [->|]; [by left|right; congruence]. }
  - intros l'. split; [done|]. split; [intros _|split].
    + subst l'. unfold accept_worker. rewrite Z.eqb_refl.
      unfold bind, modify, attempt. destruct (session _ _ _) as [r l1]. by destruct r.
    + assert (keeps same_gate (accept_worker worker (Ok worker) now turns)) as Hk; [|apply Hk].
      pose proof session_gate. unfold accept_worker. rewrite Z.eqb_refl.
      pose proof queue_audit_gate. keeps_auto; by apply runtime_gate.
    + assert (keeps asks_allowed (accept_worker worker (Ok worker) now turns)) as Hk; [|apply Hk].
      pose proof session_asks. unfold accept_worker. rewrite Z.eqb_refl.
      keeps_auto; by apply asks_same.
  - assert (accept_worker worker peer now turns l = (Ok tt, l)) as ->.
    { unfold accept_worker. destruct peer as [u|e]; [|done].
      destruct (u =? worker) eqn:E; [bool_prop; congruence|done]. }
    split_and!; [done|done|done|]. exists []. by rewrite app_nil_r.
Qed.

(** ** The two ends together *)

(** What forwarding promises, without frames and sequence numbers. *)
Fixpoint forwarded (events : list WorkerEvent) (turns : list Turn) : list (string * bytes) :=
  match events with
  | [] => []
  | e :: events =>
      match select e, turns with
      | None, _ => forwarded events turns
      | Some _, [] => []
      | Some (_, None), _ :: turns => forwarded events turns
      | Some (_, Some reply), turn :: turns =>
          match tu_answer turn with
          | Some b => if zlen b <=? MAX_WIRE then (reply, b) :: forwarded events turns else []
          | None => []
          end
      end
  end.
(** The requests the authority sees: the first unanswered one is the last. *)
Fixpoint asked (events : list WorkerEvent) (turns : list Turn) : list (string * bytes) :=
  match events with
  | [] => []
  | e :: events =>
      match select e, turns with
      | None, _ => asked events turns
      | Some _, [] => []
      | Some (ORequest subject payload, _), turn :: turns =>
          (subject, payload) ::
          match tu_answer turn with
          | Some b => if zlen b <=? MAX_WIRE then asked events turns else []
          | None => []
          end
      | Some _, _ :: turns => asked events turns
      end
  end.

(** Every frame of a round fits: heartbeats, requests and answers of at most
    65536 bytes, whose JSON form has at most four characters for each byte. *)
Definition round_fits : Prop := forall sequence op,
  0 <= sequence <= u64_max ->
  match op with
  | OReady | OHeartbeat => True
  | ORequest subject payload => allowed subject = true /\ zlen payload <= MAX_WIRE
  | OResponse payload => zlen payload <= MAX_WIRE
  | _ => False
  end -> is_ok (write_frame sequence op) = true.
Context (fits : round_fits).

Definition idle (e : Ends) : Prop :=
  lk_in (worker_end e) = [] /\ lk_out (worker_end e) = [] /\
  lk_in (authority_end e) = [] /\ lk_out (authority_end e) = [].

Lemma select_Some ev op reply :
  select ev = Some (op, reply) ->
  (op = OHeartbeat /\ reply = None /\ ev = WTick) \/
  exists subject r payload, op = ORequest subject payload /\ reply = Some r /\
    ev = WMessage subject (Some r) payload /\ allowed subject = true /\ zlen payload <= MAX_WIRE.
Proof.
  destruct ev as [|subject [r|] payload]; simpl; [by intros [= <- <-]; left| |done].
  destruct (_ || _) eqn:Hc; [done|]. intros [= <- <-]. right. bool_prop.
  exists subject, r, payload. split_and!; done.
Qed.
Lemma fits_write sequence op :
  0 <= sequence <= u64_max ->
  match op with
  | OReady | OHeartbeat => True
  | ORequest subject payload => allowed subject = true /\ zlen payload <= MAX_WIRE
  | OResponse payload => zlen payload <= MAX_WIRE
  | _ => False
  end -> exists b, write_frame sequence op = Ok b.
Proof. intros Hs Hop. pose proof (fits sequence op Hs Hop). destruct (write_frame _ _); [eauto|done]. Qed.

Lemma checked_next_Ok sequence :
  0 <= sequence < u64_max -> checked_next sequence = Ok (sequence + 1).
Proof.
  intros Hs. unfold checked_next, checked_add64. by rewrite (proj2 (Z.leb_le _ _)) by lia.
Qed.
Lemma read_all sequence op b l :
  write_frame sequence op = Ok b -> lk_in l = b ->
  read l = (Ok {| f_version := ROLE_VERSION; f_sequence := sequence; f_operation := op |},
            set_lk_in [] l).
Proof. intros Hb Hin. rewrite <- (app_nil_r b) in Hin. by eapply written_read. Qed.

(** The session's part of a round. *)
Lemma session_heartbeat turn sequence b l :
  write_frame sequence OHeartbeat = Ok b -> lk_in l = b -> 0 <= sequence < u64_max ->
  session_round turn sequence l =
    (Ok (sequence + 1), set_lk_out (lk_out l ++ b)
       (set_lk_runtime (set_lease true (tu_now turn)) (set_lk_in [] l))).
Proof.
  intros Hb Hin Hs. unfold session_round.
  rewrite (bind_run _ _ _ _ _ (read_all _ _ _ _ Hb Hin)). simpl.
  unfold bind at 1, ensure at 1. rewrite Z.eqb_refl.
  unfold bind at 1, modify at 1. unfold bind at 1, ret at 1.
  rewrite (bind_run _ _ _ _ _ (write_run _ _ _ _ Hb)). unfold lift.
  by rewrite checked_next_Ok.
Qed.
Lemma session_request turn sequence subject payload b l :
  write_frame sequence (ORequest subject payload) = Ok b -> lk_in l = b ->
  allowed subject = true -> zlen payload <= MAX_WIRE ->
  let l1 := ask_authority (subject, payload)
              (set_lk_runtime (set_lease true (tu_now turn)) (set_lk_in [] l)) in
  session_round turn sequence l =
    match tu_answer turn with
    | None => (Err (Anyhow "authority operation deadline"), l1)
    | Some answer => bind (write sequence (OResponse answer)) (fun _ => lift (checked_next sequence)) l1
    end.
Proof.
  intros Hb Hin Ha Hp l1. unfold session_round.
  rewrite (bind_run _ _ _ _ _ (read_all _ _ _ _ Hb Hin)). simpl.
  unfold bind at 1, ensure at 1. rewrite Z.eqb_refl.
  unfold bind at 1, modify at 1. unfold bind at 2, ensure at 1.
  rewrite (proj2 (Z.leb_le _ _) Hp), Ha. simpl.
  unfold bind at 1, modify at 1. unfold bind at 1, lift at 1.
  by destruct (tu_answer turn).
Qed.

Lemma at_worker_run {A} (m : M Link A) e r l :
  m (worker_end e) = (r, l) ->
  at_worker m e = (r, {| worker_end := l; authority_end := authority_end e |}).
Proof. intros Hm. unfold at_worker. by rewrite Hm. Qed.
Lemma at_authority_run {A} (m : M Link A) e r l :
  m (authority_end e) = (r, l) ->
  at_authority m e = (r, {| worker_end := worker_end e; authority_end := l |}).
Proof. intros Hm. unfold at_authority. by rewrite Hm. Qed.

(** The worker's write and its delivery. *)
Definition delivered (b : bytes) (e : Ends) : Ends := {|
  worker_end := set_lk_out [] (set_lk_out b (worker_end e));
  authority_end := set_lk_in b (authority_end e) |}.
Lemma round_sent {A} (f : M Ends A) sequence op b e :
  idle e -> write_frame sequence op = Ok b ->
  (at_worker (write sequence op) ;;; to_authority ;;; f) e = f (delivered b e).
Proof.
  intros (Hwi & Hwo & Hai & Hao) Hb.
  rewrite (bind_run _ _ _ _ _ (at_worker_run _ _ _ _ (write_run _ _ _ _ Hb))).
  unfold to_authority, bind, modify, delivered. simpl. by rewrite Hwo, Hai.
Qed.
Lemma bind_fails {S A B} (m : M S A) (f : A -> M S B) s e s' :
  m s = (Err e, s') -> bind m f s = (Err e, s').
Proof. unfold bind. by intros ->. Qed.

(** A heartbeat goes round and leaves both ends idle. *)
Lemma heartbeat_round turn sequence e :
  idle e -> 0 <= sequence < u64_max ->
  exists e', linked_round OHeartbeat None turn sequence e = (Ok (sequence + 1), e') /\ idle e' /\
    lk_published (worker_end e') = lk_published (worker_end e) /\
    lk_asked (authority_end e') = lk_asked (authority_end e).
Proof.
  intros He Hs. destruct (fits_write sequence OHeartbeat ltac:(lia) I) as [b Hb].
  unfold linked_round. rewrite (round_sent _ _ _ _ _ He Hb).
  pose proof He as (Hwi & Hwo & Hai & Hao).
  rewrite (bind_run _ _ _ _ _ (at_authority_run _ _ _ _
    (session_heartbeat turn sequence b (authority_end (delivered b e)) Hb eq_refl Hs))).
  unfold to_worker. unfold bind at 1, modify at 1. simpl. rewrite Hwi, Hao. simpl.
  eexists. split; [|split].
  - apply at_worker_run. unfold worker_receive.
    erewrite bind_run by (eapply read_all; [exact Hb|reflexivity]). simpl.
    unfold bind at 1, ensure. rewrite Z.eqb_refl. unfold bind, ret, lift.
    by rewrite checked_next_Ok.
  - by split_and!.
  - done.
Qed.
(** A request that is answered in time goes round; one that is not ends the
    connection, and so does an answer that is too long. *)
Lemma request_round turn sequence subject payload reply e :
  idle e -> 0 <= sequence < u64_max -> allowed subject = true -> zlen payload <= MAX_WIRE ->
  let p := linked_round (ORequest subject payload) (Some reply) turn sequence e in
  lk_asked (authority_end (snd p)) = lk_asked (authority_end e) ++ [(subject, payload)] /\
  match tu_answer turn with
  | Some answer =>
      if zlen answer <=? MAX_WIRE then
        fst p = Ok (sequence + 1) /\ idle (snd p) /\
        lk_published (worker_end (snd p)) = lk_published (worker_end e) ++ [(reply, answer)]
      else is_ok (fst p) = false /\
        lk_published (worker_end (snd p)) = lk_published (worker_end e)
  | None => is_ok (fst p) = false /\
      lk_published (worker_end (snd p)) = lk_published (worker_end e)
  end.
Proof.
  intros He Hs Ha Hp. cbv zeta.
  destruct (fits_write sequence (ORequest subject payload) ltac:(lia) (conj Ha Hp)) as [b Hb].
  unfold linked_round. rewrite (round_sent _ _ _ _ _ He Hb).
  pose proof He as (Hwi & Hwo & Hai & Hao).
  pose proof (session_request turn sequence subject payload b (authority_end (delivered b e)) Hb
    eq_refl Ha Hp) as Hround. cbv zeta in Hround.
  destruct (tu_answer turn) as [answer|].
  2: { by rewrite (bind_fails _ _ _ _ _ (at_authority_run _ _ _ _ Hround)). }
  destruct (write_frame sequence (OResponse answer)) as [c|err] eqn:Hc.
  2: { assert (zlen answer <=? MAX_WIRE = false) as ->.
       { apply Z.leb_gt. destruct (Z.le_gt_cases (zlen answer) MAX_WIRE) as [Hle|]; [|done].
         destruct (fits_write sequence (OResponse answer) ltac:(lia) Hle) as [c Hc']. congruence. }
       unfold bind at 1, write, bind at 1, lift at 1 in Hround. rewrite Hc in Hround.
       by rewrite (bind_fails _ _ _ _ _ (at_authority_run _ _ _ _ Hround)). }
  rewrite (bind_run _ _ _ _ _ (write_run _ _ _ _ Hc)) in Hround. unfold lift in Hround.
  rewrite checked_next_Ok in Hround by done.
  rewrite (bind_run _ _ _ _ _ (at_authority_run _ _ _ _ Hround)).
  erewrite (bind_run to_worker) by reflexivity. simpl. rewrite Hwi, Hao. simpl.
  match goal with |- context [at_worker (worker_receive (Some reply) sequence) ?x] => set (e1 := x) end.
  assert (worker_receive (Some reply) sequence (worker_end e1) =
    (if zlen answer <=? MAX_WIRE then Ok (sequence + 1) else Err (Anyhow "oversized authority response"),
     if zlen answer <=? MAX_WIRE then publish_reply (reply, answer) (set_lk_in [] (worker_end e1))
     else set_lk_in [] (worker_end e1))) as Hrecv.
  { unfold worker_receive.
    erewrite bind_run by (eapply read_all; [exact Hc|reflexivity]). simpl.
    unfold bind at 1, ensure at 1. rewrite Z.eqb_refl. unfold bind, ensure.
    destruct (_ <=? _); [|done]. unfold modify, lift. by rewrite checked_next_Ok. }
  rewrite (at_worker_run _ _ _ _ Hrecv). subst e1.
  destruct (zlen answer <=? MAX_WIRE); split_and!; done.
Qed.

(** Everything after the hello. *)
Lemma linked_loop_forwards events turns sequence e :
  idle e -> 0 <= sequence -> sequence + zlen events < u64_max ->
  let e' := snd (linked_loop events turns sequence e) in
  lk_published (worker_end e') = lk_published (worker_end e) ++ forwarded events turns /\
  lk_asked (authority_end e') = lk_asked (authority_end e) ++ asked events turns.
Proof.
  revert turns sequence e. induction events as [|ev events IH]; intros turns sequence e He Hs Hlen.
  { simpl. by rewrite !app_nil_r. }
  assert (sequence + 1 + zlen events < u64_max /\ sequence + zlen events < u64_max) as [Hl1 Hl2].
  { unfold zlen in *. simpl in Hlen. lia. }
  pose proof (select_Some ev) as Hsel. simpl. destruct (select ev) as [[op reply]|] eqn:Hev.
  2: { by apply IH. }
  destruct turns as [|turn turns]; [by destruct op, reply; rewrite !app_nil_r|].
  assert (0 <= sequence < u64_max) as Hb by (unfold zlen in *; lia).
  destruct (Hsel op reply eq_refl) as [(-> & -> & ->)|(subject & r & payload & -> & -> & -> & Ha & Hp)].
  - destruct (heartbeat_round turn sequence e He Hb) as (e1 & Hrun & He1 & Hpub & Hask).
    rewrite (bind_run _ _ _ _ _ Hrun). rewrite <- Hpub, <- Hask. apply IH; [done|lia|done].
  - destruct (request_round turn sequence subject payload r e He Hb Ha Hp) as [Hask Hres].
    destruct (linked_round _ _ _ _ e) as [res e1] eqn:Hrun. simpl in Hask, Hres.
    destruct (tu_answer turn) as [answer|].
    + destruct (zlen answer <=? MAX_WIRE).
      * destruct Hres as (-> & He1 & Hpub). rewrite (bind_run _ _ _ _ _ Hrun).
        destruct (IH turns (sequence + 1) e1 He1 ltac:(lia) Hl1) as [-> ->].
        by rewrite Hpub, Hask, <- !app_assoc.
      * destruct Hres as [Hr Hpub]. destruct res as [n|err]; [done|].
        rewrite (bind_fails _ _ _ _ _ Hrun). simpl. by rewrite Hpub, Hask, app_nil_r.
    + destruct Hres as [Hr Hpub]. destruct res as [n|err]; [done|].
      rewrite (bind_fails _ _ _ _ _ Hrun). simpl. by rewrite Hpub, Hask, app_nil_r.
Qed.

(** C38. The connected ends implement the queue. From a fresh connection, whatever
    the worker receives and whenever the authority answers, the messages the
    worker publishes are exactly, in order, the authority's answers to the
    acceptable requests, each under the reply subject of its own request, up to
    the first that is not answered in time or is too long; and the authority is
    asked exactly those requests, each once. No byte on the socket, no sequence
    number and no frame shows through. *)
Theorem forwarding_refines_queue now events turns e :
  idle e -> lk_published (worker_end e) = [] -> lk_asked (authority_end e) = [] ->
  1 + zlen events < u64_max ->
  let e' := snd (linked now events turns e) in
  lk_published (worker_end e') = forwarded events turns /\
  lk_asked (authority_end e') = asked events turns.
Proof.
  intros He Hpub Hask Hlen. destruct (fits_write 0 OReady ltac:(done) I) as [b Hb].
  destruct (fits_write 0 OHeartbeat ltac:(done) I) as [c Hc]. unfold linked.
  rewrite (round_sent _ _ _ _ _ He Hb). pose proof He as (Hwi & Hwo & Hai & Hao).
  assert (bind read (fun first =>
      ensure ((f_sequence first =? 0)
              && match f_operation first with OReady => true | _ => false end)
        "worker handshake required" ;;;
      (write 0 OHeartbeat ;;; modify (set_lk_runtime (set_lease true now))))
    (authority_end (delivered b e)) =
    (Ok tt, set_lk_runtime (set_lease true now)
      (set_lk_out (lk_out (authority_end e) ++ c) (set_lk_in [] (authority_end (delivered b e)))))) as Hhello.
  { erewrite bind_run by (eapply read_all; [exact Hb|reflexivity]). simpl.
    unfold bind at 1, ensure at 1. simpl. by rewrite (bind_run _ _ _ _ _ (write_run _ _ _ _ Hc)). }
  rewrite (bind_run _ _ _ _ _ (at_authority_run _ _ _ _ Hhello)).
  erewrite (bind_run to_worker) by reflexivity. simpl. rewrite Hwi, Hao. simpl.
  match goal with |- context [at_worker worker_greeted ;;; ?f] =>
    match goal with |- context [bind (at_worker worker_greeted) _ ?x] => set (e1 := x) end end.
  assert (worker_greeted (worker_end e1) = (Ok tt, set_lk_in [] (worker_end e1))) as Hgreet.
  { unfold worker_greeted. by erewrite bind_run by (eapply read_all; [exact Hc|reflexivity]). }
  rewrite (bind_run _ _ _ _ _ (at_worker_run _ _ _ _ Hgreet)).
  match goal with |- context [linked_loop events turns 1 ?x] =>
    destruct (linked_loop_forwards events turns 1 x) as [-> ->] end; [done|lia|done|].
  simpl. by rewrite Hpub, Hask.
Qed.

(** ** Status over the socket *)

Definition report_json_law (r : Report) : Prop :=
  exists b, report_to_vec r = Ok b /\ report_from_slice b = Ok r /\ zlen b <= MAX_REPORT.

(** A status question gets the snapshot. For either role's account, when question
    and answer fit their bounds and a report parses back, what
    [diagnostic_status] returns through the status socket is exactly the
    snapshot of the service's runtime for that role: the checks on the way
    neither reject nor change it. Any other account gets no report. *)
Theorem status_end_to_end b role r queued now question answer caller :
  runtime_wf r -> queued <= 1 -> authority_uid b <> worker_uid b ->
  write_frame 0 (ODiagnose REPORT_VERSION) = Ok question -> zlen question <= 260 ->
  frame_to_vec {| f_version := ROLE_VERSION; f_sequence := 0;
                  f_operation := ODiagnostic (snapshot_at role queued now r) |} = Ok answer ->
  zlen answer <= MAX_REPORT ->
  report_json_law (snapshot_at role queued now r) ->
  let ask uid := status_answer (authority_uid b) (worker_uid b) (Ok uid)
                   (fun role => snapshot_at role queued now r) in
  diagnostic_status (Ok b) role (Ok (authority_uid b))
    (fun input => ok (ask (match role with RoleAuthority => authority_uid b
                                         | RoleControl => worker_uid b end) input))
    = snapshot_at role queued now r /\
  (caller <> authority_uid b -> caller <> worker_uid b -> is_ok (ask caller question) = false).
Proof.
  intros Hwf Hq Hne Hw Hwl Ha Hal (rb & Hrb & Hback & Hrl) ask.
  pose proof (snapshot_checks role queued now r Hwf Hq) as Hchecks.
  assert (ask (match role with RoleAuthority => authority_uid b | RoleControl => worker_uid b end)
    question = Ok (write_u32 (zlen answer) ++ answer)) as Hask.
  { unfold ask, status_answer.
    assert (exists e, frame_to_vec {| f_version := ROLE_VERSION; f_sequence := 0;
        f_operation := ODiagnose REPORT_VERSION |} = Ok e /\ question = (write_u32 (zlen e) ++ e) ++ [] /\
        zlen e <= 256) as (e & He & Hqe & Hle).
    { unfold write_frame in Hw. apply rbind_Ok in Hw as (e & He & Hw).
      apply rbind_Ok in Hw as ([] & _ & [= <-]). exists e. split_and!; [done|by rewrite app_nil_r|].
      unfold zlen in *. simpl in Hwl. lia. }
    rewrite Hqe, (read_encoded 256 _ _ _ _ He Hle) by done. simpl rbind.
    assert ((if (match role with RoleAuthority => authority_uid b | RoleControl => worker_uid b end)
                =? authority_uid b then Ok RoleAuthority
             else if (match role with RoleAuthority => authority_uid b | RoleControl => worker_uid b end)
                =? worker_uid b then Ok RoleControl else Err External) = Ok role) as ->.
    { destruct role; rewrite ?Z.eqb_refl; [done|]. by rewrite (proj2 (Z.eqb_neq _ _)). }
    simpl. rewrite Ha. simpl. by rewrite (proj2 (Z.leb_le _ _) Hal). }
  split.
  - unfold diagnostic_status. rewrite Z.eqb_refl, Hw, Hask. cbn [negb ok].
    rewrite <- (app_nil_r (_ ++ answer)), (read_encoded MAX_REPORT _ _ _ _ Ha Hal) by done.
    rewrite Hrb. simpl. unfold parse_report. rewrite (proj2 (Z.leb_le _ _) Hrl). simpl.
    rewrite Hback. simpl. by rewrite Hchecks.
  - intros Hca Hcw. unfold ask, status_answer. simpl.
    by rewrite (proj2 (Z.eqb_neq _ _) Hca), (proj2 (Z.eqb_neq _ _) Hcw).
Qed.
End facts.
