(* ===== verification/RoleExamples.v ===== *)
(** * An authority and a worker

    Concrete files, a concrete frame codec and a conversation on which the
    theorems of [Roles] and [IpcFacts] are applied. *)
From S2P Require Import Prelude External Wire AuthDb Capacity AuditTrail AuditFacts Identity Registry Policy Models Secrets Diagnostics Callout CalloutExamples Files Roles Ipc IpcFacts.

(** ** A codec for frames *)

Fixpoint position (s : string) (l : list string) : option nat :=
  match l with
  | [] => None
  | x :: l => if decide (x = s) then Some O else S <$> position s l
  end.
Lemma position_lookup s l i : position s l = Some i -> l !! i = Some s.
Proof.
  revert i; induction l as [|x l IH]; intros i; simpl; [done|].
  case_decide as Hx; [by intros [= <-]; subst|].
  intros (j & Hj & ->)%fmap_Some. by apply IH.
Qed.
#[local] Instance Budget_eq_dec : EqDecision Budget.
Proof. solve_decision. Defined.
#[local] Instance Usage_eq_dec : EqDecision Usage.
Proof. solve_decision. Defined.
#[local] Instance Availability_eq_dec : EqDecision Availability.
Proof. solve_decision. Defined.
#[local] Instance CapacityObservation_eq_dec : EqDecision CapacityObservation.
Proof. solve_decision. Defined.
#[local] Instance AuditHealth_eq_dec : EqDecision AuditHealth.
Proof. solve_decision. Defined.
#[local] Instance Counters_eq_dec : EqDecision Counters.
Proof. solve_decision. Defined.
#[local] Instance ConnectionState_eq_dec : EqDecision ConnectionState.
Proof. solve_decision. Defined.
#[local] Instance Counts_eq_dec : EqDecision Counts := Counters_eq_dec.
#[local] Instance Observations_eq_dec : EqDecision Observations.
Proof. solve_decision. Defined.
#[local] Instance Coverage_eq_dec : EqDecision Coverage.
Proof. solve_decision. Defined.
#[local] Instance Report_eq_dec : EqDecision Diagnostics.Report.
Proof. solve_decision. Defined.
Definition the_report : Report :=
  snapshot_at RoleControl 0 5 (gate true (set_lease true 3 (new_runtime (repeat x00 16) false 0))).
Definition u64_bytes (n : Z) : bytes := write_u32 (n / 2 ^ 32) ++ write_u32 (n mod 2 ^ 32).
(** A tag, eight bytes of sequence number, the rest. *)
Definition operation_bytes (op : Operation) : option (Byte.byte * bytes) :=
  match op with
  | OReady => Some (x01, [])
  | OHeartbeat => Some (x02, [])
  | ORequest subject payload =>
      (fun i => (x03, write_u32 (Z.of_nat i) ++ payload)) <$> position subject control_subjects
  | OResponse payload => Some (x04, payload)
  | ODiagnose version => if version =? REPORT_VERSION then Some (x05, []) else None
  | ODiagnostic report => if bool_decide (report = the_report) then Some (x06, []) else None
  | _ => None
  end.
Definition operation_of (tag : Byte.byte) (rest : bytes) : result Operation :=
  match tag, rest with
  | x01, [] => Ok OReady
  | x02, [] => Ok OHeartbeat
  | x03, _ => let? (i, payload) := read_u32 rest in
              let? subject := ok_or (control_subjects !! Z.to_nat i) External in
              Ok (ORequest subject payload)
  | x04, _ => Ok (OResponse rest)
  | x05, [] => Ok (ODiagnose REPORT_VERSION)
  | x06, [] => Ok (ODiagnostic the_report)
  | _, _ => Err External
  end.
Definition frames_model : FrameJson := {|
  frame_to_vec := fun f =>
    if negb (f_version f =? ROLE_VERSION) || negb ((0 <=? f_sequence f) && (f_sequence f <=? u64_max))
    then Err External
    else let? (tag, rest) := ok_or (operation_bytes (f_operation f)) External in
         Ok (tag :: u64_bytes (f_sequence f) ++ rest);
  frame_from_slice := fun b =>
    match b with
    | tag :: b =>
        let? (hi, b) := read_u32 b in
        let? (lo, b) := read_u32 b in
        let? op := operation_of tag b in
        Ok {| f_version := ROLE_VERSION; f_sequence := hi * 2 ^ 32 + lo; f_operation := op |}
    | [] => Err External
    end;
  report_to_vec := fun r => if bool_decide (r = the_report) then Ok [x07] else Err External;
  report_from_slice := fun b => if bool_decide (b = [x07]) then Ok the_report else Err External |}.
#[local] Existing Instance frames_model.

Lemma operation_back op tag rest : operation_bytes op = Some (tag, rest) -> operation_of tag rest = Ok op.
Proof.
  destruct op; cbn [operation_bytes]; try by intros [= <- <-].
  - destruct (position subject control_subjects) as [i|] eqn:Hi; [|done]. intros Heq.
    assert (tag = x03 /\ rest = write_u32 (Z.of_nat i) ++ payload) as [-> ->] by by inversion Heq.
    apply position_lookup in Hi as Hl. cbn [operation_of].
    assert (Z.of_nat i < 10) by (apply lookup_lt_Some in Hl; simpl in Hl; lia).
    rewrite read_write_u32 by lia. simpl. by rewrite Nat2Z.id, Hl.
  - destruct (version =? REPORT_VERSION) eqn:Hv; [|done]. intros [= <- <-]. bool_prop. by subst.
  - case_bool_decide; [|done]. intros [= <- <-]. by subst.
Qed.
Lemma frames_law : frame_law.
Proof.
  split; [|done]. intros [v s op] b Hb. simpl in Hb.
  destruct (_ || _) eqn:Hc; [done|]. bool_prop. subst v.
  destruct (operation_bytes op) as [[tag rest]|] eqn:Hop; [|done].
  change (Ok (tag :: u64_bytes s ++ rest) = Ok b) in Hb.
  assert (b = tag :: u64_bytes s ++ rest) as -> by congruence.
  apply operation_back in Hop. unfold u64_bytes, u64_max in *. cbn [frame_from_slice frames_model].
  rewrite <- app_assoc, read_write_u32.
  2: { split; [apply Z.div_pos; lia|apply Z.div_lt_upper_bound; lia]. }
  cbn [rbind]. rewrite read_write_u32 by (apply Z.mod_pos_bound; lia). cbn [rbind]. rewrite Hop. simpl.
  f_equal. f_equal. pose proof (Z.div_mod s (2 ^ 32) ltac:(lia)). lia.
Qed.
Lemma allowed_position subject : allowed subject = true -> is_Some (position subject control_subjects).
Proof.
  unfold allowed. generalize control_subjects. intros l. induction l as [|x l IH]; simpl; [done|].
  case_decide as Hx; [eauto|]. rewrite bool_decide_eq_false_2 by done. simpl.
  intros [i Hi]%IH. rewrite Hi. by eexists.
Qed.
Lemma frames_fit : round_fits.
Proof.
  intros s op Hs Hop.
  assert (exists tag rest, operation_bytes op = Some (tag, rest) /\ zlen rest <= MAX_WIRE + 4)
    as (tag & rest & Hr & Hl).
  { destruct op; try done; cbn [operation_bytes].
    - exists x01, []. done.
    - exists x02, []. done.
    - destruct Hop as [[i Hi]%allowed_position Hp]. rewrite Hi. do 2 eexists.
      split; [reflexivity|]. unfold zlen in *. simpl. lia.
    - exists x04, payload. split; [done|]. lia. }
  unfold write_frame. cbn [frame_to_vec frames_model]. cbn [f_version f_sequence f_operation].
  rewrite (proj2 (Z.leb_le 0 s)), (proj2 (Z.leb_le s u64_max)), Hr by lia. cbn [negb andb orb].
  rewrite Z.eqb_refl. simpl.
  assert (zlen (tag :: u64_bytes s ++ rest) <=? LIMIT = true) as Hle.
  { apply Z.leb_le. unfold zlen, LIMIT, MAX_WIRE in *. simpl. lia. }
  unfold zlen in *. simpl in Hle |- *. by rewrite Hle.
Qed.

Lemma frame_roundtrip_witness :
  exists b, write_frame 7 (ORequest LOOKUP [x41]) = Ok b /\
    read_limit LIMIT (b ++ [x42]) = Ok ({| f_version := 1; f_sequence := 7;
      f_operation := ORequest LOOKUP [x41] |}, [x42]).
Proof.
  eexists. split; [vm_compute; reflexivity|].
  apply (frame_roundtrip frames_law 7 (ORequest LOOKUP [x41])). vm_compute. reflexivity.
Defined.

(** ** A conversation *)

Definition no_link : Link := {|
  lk_in := []; lk_out := []; lk_asked := []; lk_published := [];
  lk_runtime := new_runtime (repeat x00 16) false 0 |}.
Definition fresh_ends : Ends := {| worker_end := no_link; authority_end := no_link |}.
Definition received_events : list WorkerEvent :=
  [WTick; WMessage "sign" (Some "_INBOX.a") [x01]; WMessage LOOKUP (Some "_INBOX.b") [x02];
   WMessage LOOKUP None [x03]; WMessage REVOKE (Some "_INBOX.c") [x04];
   WMessage AUDIT (Some "_INBOX.d") [x05]].
Definition answered : list Turn :=
  [{| tu_now := 1; tu_answer := None |}; {| tu_now := 2; tu_answer := Some [x12] |};
   {| tu_now := 3; tu_answer := Some [x14] |}; {| tu_now := 9; tu_answer := None |}].
Lemma forwarding_refines_queue_witness :
  let e' := snd (linked 0 received_events answered fresh_ends) in
  lk_published (worker_end e') = [("_INBOX.b", [x12]); ("_INBOX.c", [x14])] /\
  lk_asked (authority_end e') = [(LOOKUP, [x02]); (REVOKE, [x04]); (AUDIT, [x05])].
Proof.
  exact (forwarding_refines_queue frames_law frames_fit 0 received_events answered fresh_ends
    (conj eq_refl (conj eq_refl (conj eq_refl eq_refl))) eq_refl eq_refl eq_refl).
Defined.

Definition role_bindings : Bindings := {|
  b_version := 1; authority_uid := 1000; worker_uid := 1001; worker_nkey := "UWORKER";
  socket := "/run/epochgrid/control.sock" |}.
Lemma the_runtime_wf :
  runtime_wf (gate true (set_lease true 3 (new_runtime (repeat x00 16) false 0))).
Proof. split; [vm_compute; done|vm_compute; discriminate]. Qed.
Lemma the_report_law : report_json_law the_report.
Proof.
  exists [x07]. cbn [report_to_vec report_from_slice frames_model].
  rewrite !bool_decide_eq_true_2 by done. done.
Qed.
Lemma the_answer : frame_to_vec {| f_version := ROLE_VERSION; f_sequence := 0;
  f_operation := ODiagnostic the_report |} = Ok (x06 :: u64_bytes 0).
Proof.
  cbn [frame_to_vec frames_model f_version f_sequence f_operation operation_bytes].
  by rewrite bool_decide_eq_true_2 by done.
Qed.
Lemma status_end_to_end_witness :
  exists ask, diagnostic_status (Ok role_bindings) RoleControl (Ok 1000) ask = the_report.
Proof.
  eexists.
  refine (proj1 (status_end_to_end frames_law role_bindings RoleControl
    (gate true (set_lease true 3 (new_runtime (repeat x00 16) false 0))) 0 5
    (write_u32 9 ++ x05 :: u64_bytes 0) (x06 :: u64_bytes 0) 1002 the_runtime_wf
    ltac:(lia) ltac:(done) eq_refl _ the_answer _ the_report_law)); vm_compute; discriminate.
Defined.

(** ** A home *)

#[local] Existing Instance letter_keys.
Definition role_json_model : RoleJson := {|
  bindings_from_slice := fun _ => Ok role_bindings;
  bindings_to_vec_pretty := fun b => Ok (as_bytes (worker_nkey b) ++ as_bytes (socket b));
  worker_config_from_slice := fun _ => Err External;
  worker_config_to_vec_pretty := fun _ => Err External;
  capabilities_to_vec_pretty := fun '((a, _, _), (w, _, _)) => Ok (as_bytes a ++ as_bytes w) |}.
Definition config_json_model : ConfigJson := {|
  json_version := fun _ => Ok (Some 2); config_of_json := fun _ => Ok door_config;
  user_token_decode := fun _ => Err External |}.
#[local] Existing Instances role_json_model config_json_model.

Definition private (t : FileType) : Node :=
  {| file_type := t; owner := 1000; mode := match t with Directory => 0x1c0 | _ => 0x180 end;
     contents := [] |}.
Definition machine : Machine := {|
  fs := {["/home/eg" := private Directory; "/home/eg/auth.json" := private Regular]};
  euid := 1000; runtime_active := false; disk := [(true, false); (true, true)] |}.
Definition bind_run m := bind_roles (fun p => Ok p) (fun _ => "/home/eg") (Ok 0) "/home/eg"
  "/home/eg/auth.json" 1001 "UWORKER" "/run/epochgrid/control.sock" m.
(** The first attempt loses the directory sync of its first file; the retry
    finds that file and completes. *)
Definition interrupted : Machine := snd (bind_run machine).
Example first_fails : is_ok (fst (bind_run machine)) = false.
Proof. vm_compute. reflexivity. Qed.
Lemma retry_run :
  bind_run interrupted =
  (Ok (as_bytes "UWORKER" ++ as_bytes "/run/epochgrid/control.sock"), snd (bind_run interrupted)).
Proof. apply run_fst. vm_compute. reflexivity. Qed.
Lemma bind_never_replaces_witness :
  fs interrupted ⊆ fs (snd (bind_run interrupted)) /\
  read_file "/home/eg/backend-roles.json" (fs (snd (bind_run interrupted)))
    = Ok (as_bytes "UWORKER" ++ as_bytes "/run/epochgrid/control.sock").
Proof.
  destruct (bind_never_replaces _ _ _ _ _ _ _ _ _ _ _ retry_run) as [Hsub Hok].
  split; [exact Hsub|]. exact (proj1 (Hok _ eq_refl)).
Defined.
