(* ===== verification/Mls.v ===== *)
(** * The MLS library

    What the repository reads from and asks of OpenMLS, as an interface: the
    views of groups, messages, processed messages, staged commits and Welcomes,
    and the operations on the provider's storage, whose type is a parameter.
    Nothing here is defined; the client's theorems hold for every
    implementation, or under a hypothesis they state. *)
From S2P Require Import Prelude External.

(** A credential: its TLS bytes and, when it is a basic credential, the identity. *)
Record Credential : Type := { cred_tls : bytes; cred_identity : option bytes }.
#[global] Instance Credential_eq_dec : EqDecision Credential.
Proof. solve_decision. Defined.

Record MlsMember : Type := {
  m_index : Z;
  m_signature_key : bytes;
  m_credential : Credential;
}.
(** A group as its accessors show it: [group_id], [epoch], [members],
    [own_leaf_index] and [is_active]. *)
Record MlsGroup : Type := {
  group_id : bytes;
  g_epoch : Z;
  g_members : list MlsMember;
  own_leaf : Z;
  is_active : bool;
}.
Record Signer : Type := { signer_public : bytes; signer_private : bytes }.

(** A parsed message: its wire format, and the header of a protocol message. *)
Inductive ContentType : Type := ApplicationContent | ProposalContent | CommitContent.
#[global] Instance ContentType_eq_dec : EqDecision ContentType.
Proof. solve_decision. Defined.
Record ProtocolMessage : Type := {
  pm_group_id : bytes; pm_epoch : Z; pm_content : ContentType; pm_bytes : bytes;
}.
Record MlsMessage : Type := {
  private_message : bool;
  protocol_message : option ProtocolMessage;
  welcome_message : bool;
}.

(** A staged commit: the leaf of its update path (signature key and
    credential), how many proposals it queues, how many add members, which
    leaves the rest removes. *)
Record StagedCommit : Type := {
  update_path : option (bytes * Credential);
  queued_proposals : Z;
  add_proposals : Z;
  remove_proposals : list Z;
  commit_state : bytes;
}.
Inductive Content : Type :=
| ApplicationMessage (b : bytes)
| StagedCommitMessage (c : StagedCommit)
| OtherContent.
(** [sender] is the leaf of a member, [None] for any other sender. *)
Record Processed : Type := {
  pr_credential : Credential;
  pr_sender : option Z;
  pr_content : Content;
}.
(** The errors of [process_message] the code tells apart. *)
Inductive ProcessError : Type := StorageFailure | LibraryFailure | GroupStateFailure | InvalidPacket.

Record StagedWelcome : Type := {
  sw_sender : option (bytes * Credential);
  sw_members : Z;
  sw_group_id : bytes;
  sw_epoch : Z;
  sw_state : bytes;
}.

(** The library over a provider of type [St]. [rnd] is the randomness one call
    draws. *)
Class Mls (St : Type) : Type := {
  mls_load : bytes -> St -> result (option MlsGroup);
  read_signer : bytes -> St -> option Signer;
  new_signer : bytes -> result Signer;
  store_signer : Signer -> M St unit;
  build_key_package : Signer -> bytes -> bytes -> M St (bytes * bytes);
  new_group : Signer -> bytes -> Credential -> bytes -> M St MlsGroup;
  create_message : Signer -> MlsGroup -> bytes -> bytes -> M St bytes;
  add_members : Signer -> MlsGroup -> bytes -> bytes -> M St (bytes * bytes);
  remove_members : Signer -> MlsGroup -> list Z -> bytes -> M St (bytes * option bytes);
  merge_pending_commit : MlsGroup -> M St MlsGroup;
  process_message : MlsGroup -> ProtocolMessage -> St -> (Processed + ProcessError) * St;
  merge_staged_commit : MlsGroup -> StagedCommit -> M St MlsGroup;
  parse_message : bytes -> option MlsMessage;
  stage_welcome : bytes -> M St StagedWelcome;
  into_group : StagedWelcome -> M St unit;
}.
