(* ===== verification/ClientDb.v ===== *)
(** * The device database

    [identity.sqlite], the database behind [IdentityStore]: the local identity,
    trust pins, revocations, groups, outbox, staged deliveries, transcript and
    the indexes over it, with the constraints of their [CREATE TABLE]
    statements, and the transactions of [identity.rs]. The OpenMLS storage
    provider shares the database, so its state [St] is a field and a rollback
    covers it. *)
From S2P Require Import Prelude External Wire.

(** ** Tables *)

(* @src core/trust.rs 64-67 device_trust *)
Record TrustRow : Type := { pinned : string; latest : string; trust_state : string }.
(* @src core/trust.rs 64-69 trust tables *)
Record TrustTables : Type := {
  device_trust_t : gmap (string * string) TrustRow;
  transparency_state : option (string * option bytes);
  trust_alert : option string;
}.

(* @src core/revocation.rs 242-242 revoked_devices *)
Record RevokedRow : Type := {
  rv_user : string; rv_device : string; rv_mls_key : bytes; rv_cutoff : Z;
}.
(** [revoked_devices] is in the order of insertion: the code looks rows up by a
    column that is not its key and takes the first. *)
(* @src core/revocation.rs 242-246 revocation tables *)
Record RevocationTables : Type := {
  revoked_devices : list (string * RevokedRow);
  group_coordinators : gmap string bytes;
  blocked_outbox : gset Z;
  revocation_checkpoint_t : option bytes;
}.

Record GroupEntry : Type := { ge_gid : string; ge_mls_id : bytes }.
Record OutboxRow : Type := { ob_subject : string; ob_payload : bytes; ob_sent : bool }.
Inductive DeliveryState : Type := Pending | ProcessedDelivery | RejectedDelivery.
#[global] Instance DeliveryState_eq_dec : EqDecision DeliveryState.
Proof. solve_decision. Defined.
Record Delivery : Type := { dl_subject : string; dl_payload : bytes; dl_state : DeliveryState }.
Record TranscriptRow : Type := {
  tr_gid : string;
  tr_payload : bytes;
  tr_sender : option string;
  tr_plaintext : option bytes;
  tr_outgoing : bool;
  tr_sequence : option Z;
  tr_displayed : bool;
}.
(* @src core/identity.rs 84-101 messaging tables *)
Record ChatTables : Type := {
  groups_t : gmap string GroupEntry;
  join_epochs : gmap string Z;
  outbox : gmap Z OutboxRow;
  welcomes : gmap bytes string;
  received : gset bytes;
  chat_deliveries : gmap Z Delivery;
  transcript : gmap Z TranscriptRow;
}.

Record EventRow : Type := {
  ev_gid : string;
  ev_message_id : string;
  ev_target : option string;
  ev_kind : Z;
  ev_counter : Z;
  ev_event : bytes;
}.
Record EventTables : Type := {
  receipt_messages : gmap Z (string * bytes);
  device_receipts : gmap (Z * string) Z;
  message_events : gmap Z EventRow;
  attachments_t : gmap (string * string) bytes;
  participant_events : gset (string * string);
}.

(** [local_identity] holds the JSON reference to the secret and the encoded
    registration. *)
(* @src core/identity.rs 53-60 IdentityStore *)
Record ClientDb (St : Type) : Type := {
  local_identity : option (string * bytes);
  trust : TrustTables;
  revocations : RevocationTables;
  chat : ChatTables;
  events : EventTables;
  mls : St;
  recovery_metadata : option bytes;
  cached_key : option KeyPair;
  recovery_budget : bool;
  cl_autocommit : bool;
  cl_commit_ok : bool;
}.
Arguments local_identity {St}. Arguments trust {St}. Arguments revocations {St}.
Arguments chat {St}. Arguments events {St}. Arguments mls {St}.
Arguments recovery_metadata {St}. Arguments cached_key {St}. Arguments recovery_budget {St}. Arguments cl_autocommit {St}. Arguments cl_commit_ok {St}.

Section setters.
Context {St : Type}.
Implicit Types (d : ClientDb St).

Definition set_identity f d : ClientDb St :=
  {| local_identity := f (local_identity d); trust := trust d; revocations := revocations d;
     chat := chat d; events := events d; mls := mls d; recovery_metadata := recovery_metadata d;
     cached_key := cached_key d; recovery_budget := recovery_budget d;
     cl_autocommit := cl_autocommit d; cl_commit_ok := cl_commit_ok d |}.
Definition set_trust f d : ClientDb St :=
  {| local_identity := local_identity d; trust := f (trust d); revocations := revocations d;
     chat := chat d; events := events d; mls := mls d; recovery_metadata := recovery_metadata d;
     cached_key := cached_key d; recovery_budget := recovery_budget d;
     cl_autocommit := cl_autocommit d; cl_commit_ok := cl_commit_ok d |}.
Definition set_revocations f d : ClientDb St :=
  {| local_identity := local_identity d; trust := trust d; revocations := f (revocations d);
     chat := chat d; events := events d; mls := mls d; recovery_metadata := recovery_metadata d;
     cached_key := cached_key d; recovery_budget := recovery_budget d;
     cl_autocommit := cl_autocommit d; cl_commit_ok := cl_commit_ok d |}.
Definition set_chat f d : ClientDb St :=
  {| local_identity := local_identity d; trust := trust d; revocations := revocations d;
     chat := f (chat d); events := events d; mls := mls d; recovery_metadata := recovery_metadata d;
     cached_key := cached_key d; recovery_budget := recovery_budget d;
     cl_autocommit := cl_autocommit d; cl_commit_ok := cl_commit_ok d |}.
Definition set_events f d : ClientDb St :=
  {| local_identity := local_identity d; trust := trust d; revocations := revocations d;
     chat := chat d; events := f (events d); mls := mls d; recovery_metadata := recovery_metadata d;
     cached_key := cached_key d; recovery_budget := recovery_budget d;
     cl_autocommit := cl_autocommit d; cl_commit_ok := cl_commit_ok d |}.
Definition set_mls f d : ClientDb St :=
  {| local_identity := local_identity d; trust := trust d; revocations := revocations d;
     chat := chat d; events := events d; mls := f (mls d); recovery_metadata := recovery_metadata d;
     cached_key := cached_key d; recovery_budget := recovery_budget d;
     cl_autocommit := cl_autocommit d; cl_commit_ok := cl_commit_ok d |}.
Definition set_recovery b d : ClientDb St :=
  {| local_identity := local_identity d; trust := trust d; revocations := revocations d;
     chat := chat d; events := events d; mls := mls d; recovery_metadata := recovery_metadata d;
     cached_key := cached_key d; recovery_budget := b;
     cl_autocommit := cl_autocommit d; cl_commit_ok := cl_commit_ok d |}.
Definition set_recovery_metadata m d : ClientDb St :=
  {| local_identity := local_identity d; trust := trust d; revocations := revocations d;
     chat := chat d; events := events d; mls := mls d; recovery_metadata := m;
     cached_key := cached_key d; recovery_budget := recovery_budget d;
     cl_autocommit := cl_autocommit d; cl_commit_ok := cl_commit_ok d |}.
Definition set_cached_key k d : ClientDb St :=
  {| local_identity := local_identity d; trust := trust d; revocations := revocations d;
     chat := chat d; events := events d; mls := mls d; recovery_metadata := recovery_metadata d;
     cached_key := k; recovery_budget := recovery_budget d;
     cl_autocommit := cl_autocommit d; cl_commit_ok := cl_commit_ok d |}.
Definition set_cl_autocommit b d : ClientDb St :=
  {| local_identity := local_identity d; trust := trust d; revocations := revocations d;
     chat := chat d; events := events d; mls := mls d; recovery_metadata := recovery_metadata d;
     cached_key := cached_key d; recovery_budget := recovery_budget d;
     cl_autocommit := b; cl_commit_ok := cl_commit_ok d |}.

#[global] Instance client_connection : Connection (ClientDb St) := {
  autocommit := cl_autocommit;
  set_autocommit := set_cl_autocommit;
  commit_ok := cl_commit_ok;
}.
#[global] Instance client_connection_laws : ConnectionLaws (ClientDb St).
Proof. split; try done. by intros []. Qed.
End setters.

Definition set_device_trust f t : TrustTables :=
  {| device_trust_t := f (device_trust_t t); transparency_state := transparency_state t;
     trust_alert := trust_alert t |}.
Definition set_transparency f t : TrustTables :=
  {| device_trust_t := device_trust_t t; transparency_state := f (transparency_state t);
     trust_alert := trust_alert t |}.
Definition set_alert a t : TrustTables :=
  {| device_trust_t := device_trust_t t; transparency_state := transparency_state t;
     trust_alert := a |}.

Definition set_revoked f t : RevocationTables :=
  {| revoked_devices := f (revoked_devices t); group_coordinators := group_coordinators t;
     blocked_outbox := blocked_outbox t; revocation_checkpoint_t := revocation_checkpoint_t t |}.
Definition set_coordinators f t : RevocationTables :=
  {| revoked_devices := revoked_devices t; group_coordinators := f (group_coordinators t);
     blocked_outbox := blocked_outbox t; revocation_checkpoint_t := revocation_checkpoint_t t |}.
Definition set_blocked f t : RevocationTables :=
  {| revoked_devices := revoked_devices t; group_coordinators := group_coordinators t;
     blocked_outbox := f (blocked_outbox t); revocation_checkpoint_t := revocation_checkpoint_t t |}.
Definition set_revocation_checkpoint c t : RevocationTables :=
  {| revoked_devices := revoked_devices t; group_coordinators := group_coordinators t;
     blocked_outbox := blocked_outbox t; revocation_checkpoint_t := c |}.

Definition set_groups_t f t : ChatTables :=
  {| groups_t := f (groups_t t); join_epochs := join_epochs t; outbox := outbox t;
     welcomes := welcomes t; received := received t; chat_deliveries := chat_deliveries t;
     transcript := transcript t |}.
Definition set_join_epochs f t : ChatTables :=
  {| groups_t := groups_t t; join_epochs := f (join_epochs t); outbox := outbox t;
     welcomes := welcomes t; received := received t; chat_deliveries := chat_deliveries t;
     transcript := transcript t |}.
Definition set_outbox f t : ChatTables :=
  {| groups_t := groups_t t; join_epochs := join_epochs t; outbox := f (outbox t);
     welcomes := welcomes t; received := received t; chat_deliveries := chat_deliveries t;
     transcript := transcript t |}.
Definition set_welcomes f t : ChatTables :=
  {| groups_t := groups_t t; join_epochs := join_epochs t; outbox := outbox t;
     welcomes := f (welcomes t); received := received t; chat_deliveries := chat_deliveries t;
     transcript := transcript t |}.
Definition set_received f t : ChatTables :=
  {| groups_t := groups_t t; join_epochs := join_epochs t; outbox := outbox t;
     welcomes := welcomes t; received := f (received t); chat_deliveries := chat_deliveries t;
     transcript := transcript t |}.
Definition set_deliveries f t : ChatTables :=
  {| groups_t := groups_t t; join_epochs := join_epochs t; outbox := outbox t;
     welcomes := welcomes t; received := received t; chat_deliveries := f (chat_deliveries t);
     transcript := transcript t |}.
Definition set_transcript f t : ChatTables :=
  {| groups_t := groups_t t; join_epochs := join_epochs t; outbox := outbox t;
     welcomes := welcomes t; received := received t; chat_deliveries := chat_deliveries t;
     transcript := f (transcript t) |}.

Definition set_receipt_messages f t : EventTables :=
  {| receipt_messages := f (receipt_messages t); device_receipts := device_receipts t;
     message_events := message_events t; attachments_t := attachments_t t;
     participant_events := participant_events t |}.
Definition set_device_receipts f t : EventTables :=
  {| receipt_messages := receipt_messages t; device_receipts := f (device_receipts t);
     message_events := message_events t; attachments_t := attachments_t t;
     participant_events := participant_events t |}.
Definition set_message_events f t : EventTables :=
  {| receipt_messages := receipt_messages t; device_receipts := device_receipts t;
     message_events := f (message_events t); attachments_t := attachments_t t;
     participant_events := participant_events t |}.
Definition set_attachments f t : EventTables :=
  {| receipt_messages := receipt_messages t; device_receipts := device_receipts t;
     message_events := message_events t; attachments_t := f (attachments_t t);
     participant_events := participant_events t |}.
Definition set_participant_events f t : EventTables :=
  {| receipt_messages := receipt_messages t; device_receipts := device_receipts t;
     message_events := message_events t; attachments_t := attachments_t t;
     participant_events := f (participant_events t) |}.
