(* ===== verification/IdentityStore.v ===== *)
(** * The identity store

    [crates/epochgrid-core/src/identity.rs], the part of [IdentityStore] every
    other client component builds on: budgeted transactions, the one local
    identity and its key; and from [recovery.rs] the marker that separates a
    restored home from a messaging one. *)
From S2P Require Import Prelude External Wire Capacity Identity Secrets Mls ClientDb.

(* @src core/recovery.rs 60-64 GroupHint *)
Record GroupHint : Type := { hint_name : string; hint_gid : string }.
(* @src core/recovery.rs 65-71 RecoveryStatus *)
Record RecoveryStatus : Type := {
  exported_at : Z;
  restored_at : Z;
  rs_fingerprint : string;
  rs_groups : list GroupHint;
}.

(** [SecretRef::read] on the keyring as it is. *)
Class Credentials : Type := credential : SecretRef -> result string.

(** [KeyPair::from_seed]. *)
Definition from_seed `{Seeds} (s : string) : result KeyPair :=
  let? (_, public) := ok_or (seed_pair s) External in
  Ok {| public_key := public; seed := s |}.

Section store.
Context {St : Type} `{Pages (ClientDb St)} `{Mls St} (capacity : Capacity).

(** A rollback restores the database; the key cached in memory stays. *)
Definition rolled_back (before after : ClientDb St) : ClientDb St :=
  set_cached_key (cached_key after) (set_recovery false before).
(* @src core/identity.rs 164-189 transaction_budget *)
Definition transaction_budget {A} (recovery : bool) (action : M (ClientDb St) A)
  : M (ClientDb St) A := fun d =>
  if autocommit d then
    match (let* value := action in
           check_database capacity recovery ;;;
           ret value) (set_recovery recovery (set_autocommit false d)) with
    | (Ok value, d') =>
        if commit_ok d' then (Ok value, set_autocommit true (set_recovery false d'))
        else (Err (Anyhow "commit failed"), rolled_back d d')
    | (Err e, d') => (Err e, rolled_back d d')
    end
  else (Err (Anyhow "cannot start a transaction within a transaction"), d).
(* @src core/identity.rs 158-160 transaction *)
Definition transaction {A} (action : M (ClientDb St) A) : M (ClientDb St) A :=
  transaction_budget false action.
(* @src core/identity.rs 161-163 recovery_transaction *)
Definition recovery_transaction {A} (action : M (ClientDb St) A) : M (ClientDb St) A :=
  transaction_budget true action.

(** An operation of the MLS provider, which shares the connection. *)
Definition provider {A} (m : M St A) : M (ClientDb St) A := fun d =>
  let '(r, s) := m (mls d) in (r, set_mls (fun _ => s) d).

(** A committed transaction ran its action to the end; any other outcome leaves
    the database as it was. *)
Lemma transaction_budget_Ok {A} recovery (action : M (ClientDb St) A) d v d' :
  transaction_budget recovery action d = (Ok v, d') ->
  autocommit d = true /\
  exists d1, action (set_recovery recovery (set_autocommit false d)) = (Ok v, d1) /\
    check_database_pure capacity recovery d1 = Ok tt /\ commit_ok d1 = true /\
    d' = set_autocommit true (set_recovery false d1).
Proof.
  unfold transaction_budget. destruct (autocommit d); [|done]. intros Hrun. split; [done|].
  destruct (bind _ _ _) as [[a|e] d1] eqn:Hb; [|done].
  destruct (commit_ok d1) eqn:Hc; [|done]. injection Hrun as <- <-.
  apply bind_Ok in Hb as (x & d2 & Hx & Hb). apply bind_Ok in Hb as ([] & d3 & Hd & Hb).
  apply ret_Ok in Hb as [-> ->]. unfold check_database in Hd. injection Hd as Hd ->.
  by eexists.
Qed.
Lemma transaction_budget_Err {A} recovery (action : M (ClientDb St) A) d e d' :
  transaction_budget recovery action d = (Err e, d') ->
  d' = d \/ exists k, d' = set_cached_key k (set_recovery false d).
Proof.
  unfold transaction_budget. destruct (autocommit d); [|by intros [= _ <-]; left].
  destruct (bind _ _ _) as [[a|e'] d1]; [|intros [= _ <-]; right; by eexists].
  destruct (commit_ok d1); [done|]. intros [= _ <-]. right. by eexists.
Qed.

Lemma keeps_transaction_budget {A} (R : ClientDb St -> ClientDb St -> Prop) `{!PreOrder R} recovery
  (action : M (ClientDb St) A) :
  (forall b d, R d (set_autocommit b d)) -> (forall b d, R d (set_recovery b d)) ->
  (forall k d, R d (set_cached_key k d)) ->
  keeps R action -> keeps R (transaction_budget recovery action).
Proof.
  intros Hset Hrec Hkey Hm d. destruct (transaction_budget recovery action d) as [[v|e] d'] eqn:Hrun; simpl.
  - apply transaction_budget_Ok in Hrun as (_ & d1 & Hrun & _ & _ & ->).
    specialize (Hm (set_recovery recovery (set_autocommit false d))). rewrite Hrun in Hm. simpl in Hm.
    etrans; [apply (Hset false)|]. etrans; [apply (Hrec recovery)|]. etrans; [exact Hm|].
    etrans; [apply (Hrec false)|]. apply Hset.
  - apply transaction_budget_Err in Hrun as [->|[k ->]]; [done|]. etrans; [apply (Hrec false)|apply Hkey].
Qed.
Lemma keeps_provider {A} (R : ClientDb St -> ClientDb St -> Prop) (m : M St A) :
  (forall s d, R d (set_mls (fun _ => s) d)) -> keeps R (provider m).
Proof. intros Hset d. unfold provider. destruct (m (mls d)) as [r s]. apply Hset. Qed.

(** ** The local identity *)

Context `{NKeys} `{Seeds} `{Credentials} `{Json SecretRef} `{Postcard DeviceRegistration}
  `{Postcard RegistrationPayload} `{Postcard RecoveryStatus}.

(* @src core/identity.rs 266-276 registration *)
Definition registration (d : ClientDb St) : result DeviceRegistration :=
  let? row := ok_or (local_identity d) (Anyhow "run identity init first") in
  from_bytes (snd row).

(** The key is read once and cached for the life of the store. *)
(* @src core/identity.rs 277-295 nkey *)
Definition store_nkey : M (ClientDb St) KeyPair :=
  let* cached := gets cached_key in
  match cached with
  | Some k => ret k
  | None =>
      let* row := gets local_identity in
      let* encoded := lift (ok_or (fst <$> row) NoRows) in
      let* reference := lift (from_json encoded) in
      let* own := gets registration in
      let* bound := lift (match sr_kind reference with
                          | User => let? r := own in
                                    Ok (bool_decide (sr_public_key reference
                                                     = nats_public_key (payload r)))
                          | _ => Ok false
                          end) in
      ensure bound "identity credential binding mismatch" ;;;
      let* secret := lift (credential reference) in
      let* key := lift (from_seed secret) in
      modify (set_cached_key (Some key)) ;;;
      ret key
  end.

(** [clock] is the wall clock in seconds, [r1] and [r2] the randomness of the
    signature key and of the key package. *)
(* @src core/identity.rs 206-265 initialize *)
Definition initialize (user device : string) (reference : SecretRef) (key : KeyPair)
  (clock : result Z) (r1 r2 : bytes) : M (ClientDb St) DeviceRegistration :=
  lift (validate_id user) ;;;
  lift (validate_id device) ;;;
  let* row := gets local_identity in
  ensure (bool_decide (row = None)) "identity already initialized" ;;;
  let* signer := lift (new_signer r1) in
  provider (store_signer signer) ;;;
  let* (credential, package) :=
    provider (build_key_package signer (as_bytes (user +:+ "/" +:+ device)) r2) in
  let* now := lift clock in
  let payload := {| protocol_version := VERSION; user_id := user; device_id := device;
                    nats_public_key := public_key key; mls_credential := credential;
                    mls_key_package := package; reg_generation := 1; created_at := now |} in
  let* bytes := lift (signing_bytes payload) in
  let* signature := lift (nkey_sign key bytes) in
  let registration := {| payload := payload; reg_signature := signature |} in
  let* encoded_ref := lift (to_json reference) in
  let* encoded := lift (to_allocvec registration) in
  let* row := gets local_identity in
  lift (match row with Some _ => Err SqlConstraint | None => Ok tt end) ;;;
  modify (set_identity (fun _ => Some (encoded_ref, encoded))) ;;;
  ret registration.

(** [provisioned] is what [vault.provision] returned. *)
(* @src core/identity.rs 190-205 init *)
Definition init (user device : string) (provisioned : result SecretRef) (clock : result Z)
  (r1 r2 : bytes) : M (ClientDb St) DeviceRegistration :=
  lift (validate_id user) ;;;
  lift (validate_id device) ;;;
  let* row := gets local_identity in
  ensure (bool_decide (row = None)) "identity already initialized" ;;;
  let* reference := lift provisioned in
  let* secret := lift (credential reference) in
  let* key := lift (from_seed secret) in
  let* registration := transaction (initialize user device reference key clock r1 r2) in
  modify (set_cached_key (Some key)) ;;;
  ret registration.

(** ** The recovery marker *)

(* @src core/recovery.rs 258-270 recovery_status *)
Definition recovery_status (d : ClientDb St) : result (option RecoveryStatus) :=
  match recovery_metadata d with
  | None => Ok None
  | Some b => let? s := from_bytes b in Ok (Some s)
  end.
(* @src core/recovery.rs 271-277 ensure_messaging_identity *)
Definition ensure_messaging_identity : M (ClientDb St) unit :=
  let* r := gets recovery_status in
  let* status := lift r in
  ensure (match status with Some _ => false | None => true end)
    "recovery-only home: enroll a fresh device and obtain a new invitation to resume messaging".

(* @src core/groups.rs 44-62 signer *)
Definition signer `{MlsPackages} : M (ClientDb St) (Signer * Credential) :=
  ensure_messaging_identity ;;;
  let* r := gets registration in
  let* own := lift r in
  let* package := lift (ok_or (validated_package (mls_key_package (payload own))) External) in
  let* provider := gets mls in
  let* signer := lift (ok_or (read_signer (package_signature_key package) provider)
                        (Anyhow "MLS signing key missing")) in
  ret (signer, {| cred_tls := package_credential package; cred_identity := package_identity package |}).
End store.
