(* ===== verification/Revocation.v ===== *)
(** * Revocations

    [crates/epochgrid-core/src/revocation.rs]: signed revocation requests, the
    operator's append-only revocation log, and the device's record of who is
    revoked. *)
From S2P Require Import Prelude External Wire Capacity Identity KvStore Merkle Transparency Mls ClientDb IdentityStore.

Definition RequestTuple : Type := (Z * string * string * string * string)%type.

Section revocation.
Context `{NKeys} `{MlsPackages} `{Sha256} `{Postcard Envelope} `{Postcard RegistrationPayload}
  `{Postcard CheckpointTuple} `{Postcard RequestTuple} `{Postcard Revocation}.

(** ** Requests *)

(* @src core/revocation.rs 24-34 RevokeRequest::signing_bytes *)
Definition request_bytes (r : RevokeRequest) : result bytes :=
  let? b := to_allocvec (rr_version r, rr_user r, rr_device r, rr_nkey r, rr_author r) in
  Ok (as_bytes "EpochGrid device revocation v1" ++ [x00] ++ b).

(* @src core/revocation.rs 35-48 RevokeRequest::signed *)
Definition request_signed (user device nkey : string) (k : KeyPair) : result RevokeRequest :=
  validate_id user ;;?
  validate_id device ;;?
  let request s := {| rr_version := 1; rr_user := user; rr_device := device; rr_nkey := nkey;
                      rr_author := public_key k; rr_signature := s |} in
  let? b := request_bytes (request []) in
  let? s := nkey_sign k b in
  Ok (request s).

(** [previous] is the log before the request. *)
(* @src core/revocation.rs 49-78 RevokeRequest::validate *)
Definition request_validate (r : RevokeRequest) (registrations : Snapshot)
  (previous : list Revocation) : result unit :=
  validate_id (rr_user r) ;;?
  validate_id (rr_device r) ;;?
  check (rr_version r =? 1) "unsupported revocation version" ;;?
  let? _ := key_pair_type (rr_author r) in
  let? b := request_bytes r in
  verify_with (rr_author r) b (rr_signature r) ;;?
  check (existsb (fun e => bool_decide (user_id (payload e) = rr_user r)
                           && bool_decide (device_id (payload e) = rr_device r)
                           && bool_decide (nats_public_key (payload e) = rr_nkey r))
           (entries registrations))
    "revocation endpoint/key not registered" ;;?
  check (negb (existsb (fun p => bool_decide (rr_nkey (request p) = rr_author r)) previous))
    "revoked device cannot authorize revocation" ;;?
  check (bool_decide (rr_author r = cp_signer (checkpoint registrations))
         || existsb (fun e => bool_decide (nats_public_key (payload e) = rr_author r)
                              && bool_decide (user_id (payload e) = rr_user r))
              (entries registrations))
    "only an active device of this user or the operator may revoke".

(** ** The log *)

(* @src core/revocation.rs 90-106 root *)
Definition revocation_root : list Revocation -> result bytes := merkle_root to_allocvec.

(* @src core/revocation.rs 107-113 checkpoint_bytes *)
Definition revocation_checkpoint_bytes (cp : Checkpoint) : result bytes :=
  let? b := to_allocvec (cp_version cp, cp_size cp, cp_root cp, cp_signer cp) in
  Ok (as_bytes "EpochGrid revocation checkpoint v1" ++ [x00] ++ b).

(* @src core/revocation.rs 115-130 RevocationLog::signed *)
Definition log_signed (es : list Revocation) (k : KeyPair) : result RevocationLog :=
  let? r := revocation_root es in
  let cp s := {| cp_version := 1; cp_size := zlen es; cp_root := r; cp_signer := public_key k;
                 cp_signature := s |} in
  let? b := revocation_checkpoint_bytes (cp []) in
  let? s := nkey_sign k b in
  let log := {| rl_checkpoint := cp s; rl_entries := es |} in
  let? _ := encode (Body.RevocationLog log) in
  Ok log.

(** The entries in order: [previous] holds those before the current one. *)
(* @src core/revocation.rs 152-160 RevocationLog::validate (entries) *)
Fixpoint validate_revocations (registrations : Snapshot) (previous : list Revocation)
  (keys : gset string) (es : list Revocation) : result unit :=
  match es with
  | [] => Ok tt
  | e :: es =>
      request_validate (request e) registrations previous ;;?
      check (negb (bool_decide (rr_nkey (request e) ∈ keys))) "duplicate revocation" ;;?
      check (chat_cutoff e <=? i64_max) "invalid revocation CHAT cutoff" ;;?
      validate_revocations registrations (previous ++ [e]) ({[rr_nkey (request e)]} ∪ keys) es
  end.

(* @src core/revocation.rs 131-162 RevocationLog::validate *)
Definition log_validate (l : RevocationLog) (registrations : Snapshot) : result unit :=
  Transparency.validate registrations ;;?
  let cp := rl_checkpoint l in
  check ((zlen (rl_entries l) <=? 256) && (cp_size cp =? zlen (rl_entries l)) && (cp_version cp =? 1))
    "invalid revocation log size/version" ;;?
  check (bool_decide (cp_signer cp = cp_signer (checkpoint registrations)))
    "revocation signer differs from directory" ;;?
  let? _ := key_pair_type (cp_signer cp) in
  let? b := revocation_checkpoint_bytes cp in
  verify_with (cp_signer cp) b (cp_signature cp) ;;?
  let? r := revocation_root (rl_entries l) in
  check (bool_decide (r = cp_root cp)) "revocation root mismatch" ;;?
  let? _ := encode (Body.RevocationLog l) in
  validate_revocations registrations [] ∅ (rl_entries l).

(* @src core/revocation.rs 163-168 RevocationLog::keys *)
Definition log_keys (l : RevocationLog) : gset string :=
  list_to_set (map (fun e => rr_nkey (request e)) (rl_entries l)).

(* @src core/revocation.rs 175-179 read (decode) *)
Definition decode_log (msg : string) (registrations : Snapshot) (b : bytes) : result RevocationLog :=
  let? body := decode b in
  match body with
  | Body.RevocationLog l => log_validate l registrations ;;? Ok l
  | _ => Err (Anyhow msg)
  end.

(* @src core/revocation.rs 170-180 read *)
Definition read_log (registrations : Snapshot) (kv : Kv) : result RevocationLog :=
  let? e := ok_or (kv_entries kv !! "revocations")
              (Anyhow "revocation log missing; upgrade service") in
  decode_log "invalid revocation envelope" registrations (value e).

(** [during] is what a competing initializer does before the [create]. *)
(* @src core/revocation.rs 181-192 initialize *)
Definition initialize_log (registrations : Snapshot) (k : KeyPair) (during : Kv -> Kv) (kv : Kv)
  : result unit * Kv :=
  let after kv := (let? _ := read_log registrations kv in Ok tt, kv) in
  match kv_entries kv !! "revocations" with
  | Some _ => after kv
  | None =>
      match (let? l := log_signed [] k in encode (Body.RevocationLog l)) with
      | Err e => (Err e, kv)
      | Ok b => after (kv_create "revocations" b (during kv))
      end
  end.

(* @src core/revocation.rs 200-228 append (attempt) *)
Definition append_log_plan (registrations : Snapshot) (k : KeyPair) (r : RevokeRequest)
  (cutoff : Z) (current : bytes) : result (Plan RevocationLog) :=
  let? l := decode_log "invalid revocation log" registrations current in
  request_validate r registrations (rl_entries l) ;;?
  if existsb (fun e => bool_decide (rr_nkey (request e) = rr_nkey r)) (rl_entries l)
  then Ok (Done l)
  else
    let? l := log_signed (rl_entries l ++ [{| request := r; chat_cutoff := cutoff |}]) k in
    log_validate l registrations ;;?
    let? b := encode (Body.RevocationLog l) in
    Ok (Publish b l).
(* @src core/revocation.rs 193-232 append *)
Definition append_log (registrations : Snapshot) (k : KeyPair) (r : RevokeRequest) (cutoff : Z)
  (env : list Attempt) (kv : Kv) : result RevocationLog * Kv :=
  cas_loop "revocations" "revocation log missing" "revocation could not be confirmed; retry"
    (append_log_plan registrations k r cutoff) (take 4 env) kv.

(** ** The device's record *)

Section device.
Context {St : Type} `{Pages (ClientDb St)} `{Postcard Checkpoint} (capacity : Capacity).

(* @src core/revocation.rs 255-267 revocation_checkpoint *)
Definition revocation_checkpoint (d : ClientDb St) : result (option Checkpoint) :=
  match revocation_checkpoint_t (revocations d) with
  | None => Ok None
  | Some b => let? cp := from_bytes b in Ok (Some cp)
  end.

(* @src core/revocation.rs 268-274 is_revoked *)
Definition is_revoked (nkey : string) (d : ClientDb St) : bool :=
  existsb (fun '(k, _) => bool_decide (k = nkey)) (revoked_devices (revocations d)).

(* @src core/revocation.rs 275-284 revoked_mls_key *)
Definition revoked_mls_key (k : bytes) (d : ClientDb St) : option Z :=
  (rv_cutoff ∘ snd) <$> List.find (fun '(_, r) => bool_decide (rv_mls_key r = k))
                          (revoked_devices (revocations d)).

(** [INSERT OR IGNORE INTO revoked_devices]. *)
Definition insert_revoked (nkey : string) (r : RevokedRow) : M (ClientDb St) unit :=
  modify (set_revocations (set_revoked (fun l =>
    if existsb (fun '(k, _) => bool_decide (k = nkey)) l then l else l ++ [(nkey, r)]))).

(* @src core/revocation.rs 294-298 accept_revocations (entries) *)
Definition record_revocation (registrations : Snapshot) (e : Revocation) : M (ClientDb St) unit :=
  let* registration :=
    lift (ok_or (List.find (fun r => bool_decide (nats_public_key (payload r) = rr_nkey (request e)))
                   (entries registrations))
            (Anyhow "revoked registration missing")) in
  let* package := lift (ok_or (unverified_package (mls_key_package (payload registration))) External) in
  insert_revoked (rr_nkey (request e))
    {| rv_user := rr_user (request e); rv_device := rr_device (request e);
       rv_mls_key := package_signature_key package; rv_cutoff := chat_cutoff e |}.

(** The slice is taken after its bound was checked. *)
(* @src core/revocation.rs 285-302 accept_revocations *)
Definition accept_revocations (l : RevocationLog) (registrations : Snapshot)
  : M (ClientDb St) unit :=
  lift (log_validate l registrations) ;;;
  recovery_transaction capacity (
    let* previous := gets (fun d => revocation_checkpoint_t (revocations d)) in
    match previous with
    | Some b =>
        let* previous := lift (from_bytes b) in
        ensure (bool_decide (cp_signer previous = cp_signer (rl_checkpoint l))
                && (cp_size previous <=? zlen (rl_entries l)))
          "REVOCATION FAILURE: signer changed or log truncated" ;;;
        let* r := lift (revocation_root (take (Z.to_nat (cp_size previous)) (rl_entries l))) in
        ensure (bool_decide (r = cp_root previous)) "REVOCATION FAILURE: history rewritten"
    | None => ret tt
    end ;;;
    for_each (rl_entries l) (record_revocation registrations) ;;;
    let* b := lift (to_allocvec (rl_checkpoint l)) in
    modify (set_revocations (set_revocation_checkpoint (Some b)))).
End device.
End revocation.
