(* ===== verification/Directory.v ===== *)
(** * The device directory and the broker it lives in

    The broker resources of the authority (the transparency log, the directory
    of registrations, the consumers of every device) with the calls on them, and
    what [transport.rs], [transparency.rs], [devices.rs] and
    [authorization/delivery.rs] do with them on the service's side: projection,
    lookup, reservation of key packages, reconciliation of log and directory,
    and of consumers with the registry's policy. *)
From stdpp Require Import sorting.
From S2P Require Import Prelude External Wire AuthDb Capacity AuditTrail Identity Registry Policy KvStore Merkle Transparency Revocation Diagnostics.

(** ** The broker *)

(** What [consumer::Config] and its pull variant carry of the code's settings. *)
(* @src core/transport.rs 348-357 provision_mailboxes (config) *)
Record Consumer : Type := {
  filter_subject : string;
  filter_subjects : list string;
  max_ack_pending : Z;
  max_batch : Z;
  deliver_subject : option string;
  ack_explicit : bool;
  ack_wait : Z;
}.
#[global] Instance Consumer_eq_dec : EqDecision Consumer.
Proof. solve_decision. Defined.

(** [b_published] is the retained messages of the MAILBOX stream: subject,
    [Nats-Msg-Id] and payload. *)
Record Broker : Type := {
  b_log : Kv;
  b_directory : Kv;
  b_chat : gmap string Consumer;
  b_mailbox : gmap string Consumer;
  b_chat_last : Z;
  b_published : list (string * string * bytes);
}.
Definition set_log kv (b : Broker) : Broker := {|
  b_log := kv; b_directory := b_directory b; b_chat := b_chat b; b_mailbox := b_mailbox b;
  b_chat_last := b_chat_last b; b_published := b_published b |}.
Definition set_directory kv (b : Broker) : Broker := {|
  b_log := b_log b; b_directory := kv; b_chat := b_chat b; b_mailbox := b_mailbox b;
  b_chat_last := b_chat_last b; b_published := b_published b |}.
Definition set_chat_consumers f (b : Broker) : Broker := {|
  b_log := b_log b; b_directory := b_directory b; b_chat := f (b_chat b);
  b_mailbox := b_mailbox b; b_chat_last := b_chat_last b; b_published := b_published b |}.
Definition set_mailbox_consumers f (b : Broker) : Broker := {|
  b_log := b_log b; b_directory := b_directory b; b_chat := b_chat b;
  b_mailbox := f (b_mailbox b); b_chat_last := b_chat_last b; b_published := b_published b |}.
Definition set_published f (b : Broker) : Broker := {|
  b_log := b_log b; b_directory := b_directory b; b_chat := b_chat b; b_mailbox := b_mailbox b;
  b_chat_last := b_chat_last b; b_published := f (b_published b) |}.

(** One call on the broker: what others do to it before, whether the request
    gets there, whether the answer comes back, and what surrounds each attempt
    when the call is a compare-and-swap loop. *)
Record Call : Type := {
  meddle : Broker -> Broker;
  delivered : bool;
  answered : bool;
  tries : list Attempt;
}.

(** The clock readings and random draws of the service, in order of use. *)
Record Moment : Type := {
  mo_instant : Z;
  mo_clock : result Z;
  mo_clock' : result Z;
  mo_ref : string;
  mo_draw : Draw;
  mo_draw' : Draw;
}.

(** The service: its registry, runtime and limiters, the broker, the calls the
    current deadline leaves room for, and whether it has passed. *)
Record Service : Type := {
  sv_registry : AuthRegistry;
  sv_broker : Broker;
  sv_calls : list Call;
  sv_cancelled : bool;
  sv_moment : nat;
  sv_runtime : Runtime;
  control_rate : RateLimit;
  revocation_rate : RateLimit;
  sv_denials : Denials;
}.
Definition set_sv_registry r (s : Service) : Service := {|
  sv_registry := r; sv_broker := sv_broker s; sv_calls := sv_calls s;
  sv_cancelled := sv_cancelled s; sv_moment := sv_moment s; sv_runtime := sv_runtime s;
  control_rate := control_rate s; revocation_rate := revocation_rate s;
  sv_denials := sv_denials s |}.
Definition set_sv_broker b (s : Service) : Service := {|
  sv_registry := sv_registry s; sv_broker := b; sv_calls := sv_calls s;
  sv_cancelled := sv_cancelled s; sv_moment := sv_moment s; sv_runtime := sv_runtime s;
  control_rate := control_rate s; revocation_rate := revocation_rate s;
  sv_denials := sv_denials s |}.
Definition set_sv_calls cs dead (s : Service) : Service := {|
  sv_registry := sv_registry s; sv_broker := sv_broker s; sv_calls := cs;
  sv_cancelled := dead; sv_moment := sv_moment s; sv_runtime := sv_runtime s;
  control_rate := control_rate s; revocation_rate := revocation_rate s;
  sv_denials := sv_denials s |}.
Definition set_sv_moment n (s : Service) : Service := {|
  sv_registry := sv_registry s; sv_broker := sv_broker s; sv_calls := sv_calls s;
  sv_cancelled := sv_cancelled s; sv_moment := n; sv_runtime := sv_runtime s;
  control_rate := control_rate s; revocation_rate := revocation_rate s;
  sv_denials := sv_denials s |}.
Definition set_sv_runtime f (s : Service) : Service := {|
  sv_registry := sv_registry s; sv_broker := sv_broker s; sv_calls := sv_calls s;
  sv_cancelled := sv_cancelled s; sv_moment := sv_moment s; sv_runtime := f (sv_runtime s);
  control_rate := control_rate s; revocation_rate := revocation_rate s;
  sv_denials := sv_denials s |}.
Definition set_sv_rates c v (s : Service) : Service := {|
  sv_registry := sv_registry s; sv_broker := sv_broker s; sv_calls := sv_calls s;
  sv_cancelled := sv_cancelled s; sv_moment := sv_moment s; sv_runtime := sv_runtime s;
  control_rate := c; revocation_rate := v; sv_denials := sv_denials s |}.
Definition set_sv_denials d (s : Service) : Service := {|
  sv_registry := sv_registry s; sv_broker := sv_broker s; sv_calls := sv_calls s;
  sv_cancelled := sv_cancelled s; sv_moment := sv_moment s; sv_runtime := sv_runtime s;
  control_rate := control_rate s; revocation_rate := revocation_rate s; sv_denials := d |}.
Definition sv_db (s : Service) : AuthDb := reg_db (sv_registry s).

Definition Deadline : error := Anyhow "deadline exceeded".
Definition Lost : error := Anyhow "request failed".

(** A call waits for its answer: with no room left under the deadline the
    future is dropped there and nothing after it runs. *)
Definition call {A} (f : list Attempt -> Broker -> result A * Broker) : M Service A := fun s =>
  match sv_calls s with
  | [] => (Err Deadline, set_sv_calls [] true s)
  | c :: cs =>
      let b := meddle c (sv_broker s) in
      let s' := set_sv_calls cs (sv_cancelled s) s in
      if delivered c then
        let '(r, b') := f (tries c) b in
        (if answered c then r else Err Lost, set_sv_broker b' s')
      else (Err Lost, set_sv_broker b s')
  end.
Definition ask {A} (f : Broker -> A) : M Service A := call (fun _ b => (Ok (f b), b)).

(** [let result = m.await;]: the result is inspected only when the deadline has
    not passed inside. *)
Definition awaited {A} (m : M Service A) : M Service (result A) := fun s =>
  let '(r, s') := m s in
  if sv_cancelled s' then (Err Deadline, s') else (Ok r, s').

(** [tokio::time::timeout] around [m], with the calls that fit in it. *)
Definition within {A} (calls : list Call) (m : M Service A) : M Service (result (result A)) := fun s =>
  let '(r, s') := m (set_sv_calls calls false s) in
  (Ok (if sv_cancelled s' then Err Deadline else Ok r), set_sv_calls [] false s').

(** Code on the registry, which does not wait. *)
Definition with_registry {A} (m : M AuthRegistry A) : M Service A := fun s =>
  match m (sv_registry s) with (r, reg) => (r, set_sv_registry reg s) end.
Definition with_db {A} (m : Capacity -> M AuthDb A) : M Service A :=
  let* cap := gets (fun s => reg_capacity (sv_registry s)) in
  with_registry (on_db (m cap)).
Definition runtime (f : Runtime -> Runtime) : M Service unit := modify (set_sv_runtime f).

(** [BTreeMap] order. *)
Definition sorted_keys (e : Enrollment) : list string :=
  merge_sort by_name (fst <$> map_to_list e).
Definition endpoints (e : Enrollment) : list (string * string) :=
  omap (fun k => (fun v => (k, v)) <$> e !! k) (sorted_keys e).

Section directory.
Context `{NKeys} `{MlsPackages} `{Sha256} `{Postcard Envelope} `{Postcard RegistrationPayload}
  `{Postcard CheckpointTuple} `{Base32} `{Json AuditRecord} `{Json Kind} `{Pages AuthDb}.
Variable moments : nat -> Moment.

Definition moment : M Service Moment :=
  let* n := gets sv_moment in
  modify (set_sv_moment (S n)) ;;;
  ret (moments n).

(** [store.get] and [store.create]. *)
Definition directory_get (k : string) : M Service (option bytes) :=
  ask (fun b => value <$> kv_entries (b_directory b) !! k).
Definition directory_create (k : string) (v : bytes) : M Service unit :=
  call (fun _ b =>
    match kv_entries (b_directory b) !! k with
    | Some _ => (Err (Anyhow "key exists"), b)
    | None => (Ok tt, set_directory (kv_put k v (b_directory b)) b)
    end).

(** ** Registrations *)

(** What a directory record must be to answer a query for its key. *)
(* @src core/transport.rs 77-86 find (record) *)
Definition find_record (enrollment : Enrollment) (k : string) (bytes : bytes) : result Body.t :=
  let? body := decode bytes in
  match body with
  | Body.Register registration =>
      verify registration ;;?
      check (bool_decide (key (payload registration) = k)
             && bool_decide (enrollment !! k = Some (nats_public_key (payload registration))))
        "directory enrollment mismatch" ;;?
      Ok (Body.Found registration)
  | _ => Err (Anyhow "invalid directory record")
  end.
(* @src core/transport.rs 65-87 find *)
Definition find (enrollment : Enrollment) (user device : string) : M Service Body.t :=
  lift (validate_id user) ;;;
  lift (validate_id device) ;;;
  let k := "users." +:+ user +:+ ".devices." +:+ device in
  let* found := directory_get k in
  match found with
  | None => ret Body.NotFound
  | Some bytes => lift (find_record enrollment k bytes)
  end.

(* @src core/transport.rs 146-170 project_registration *)
Definition project_registration (enrollment : Enrollment) (r : DeviceRegistration)
  : M Service unit :=
  lift (verify_signature r) ;;;
  let k := key (payload r) in
  ensure (bool_decide (enrollment !! k = Some (nats_public_key (payload r))))
    "device is not enrolled" ;;;
  let* bytes := lift (encode (Body.Register r)) in
  let* created := awaited (directory_create k bytes) in
  match created with
  | Ok _ => ret tt
  | Err _ =>
      let* existing := directory_get k in
      ensure (bool_decide (existing = Some bytes)) "registration conflict"
  end.
(* @src core/transport.rs 136-143 accept *)
Definition accept (enrollment : Enrollment) (r : DeviceRegistration) : M Service unit :=
  lift (verify r) ;;;
  project_registration enrollment r.

(** One reservation per device: the first group that asks keeps it. *)
(* @src core/transport.rs 281-299 claim *)
Definition claim (enrollment : Enrollment) (user device group : string) : M Service Body.t :=
  lift (validate_id group) ;;;
  let* found := find enrollment user device in
  ensure (match found with Body.Found _ => true | _ => false end) "device not found" ;;;
  let k := "claims." +:+ user +:+ "." +:+ device in
  let* created := awaited (directory_create k (as_bytes group)) in
  match created with
  | Ok _ => ret tt
  | Err _ =>
      let* existing := directory_get k in
      ensure (bool_decide (existing = Some (as_bytes group)))
        "KeyPackage already reserved for another group"
  end ;;;
  ret found.

(** The loop over the user's endpoints. *)
(* @src core/devices.rs 17-23 find_devices (loop) *)
Fixpoint find_each (enrollment : Enrollment) (user : string) (devices : list string)
    (found : list DeviceRegistration) : M Service (list DeviceRegistration) :=
  match devices with
  | [] => ret found
  | device :: devices =>
      let* b := find enrollment user device in
      match b with
      | Body.Found r =>
          ensure (zlen (found ++ [r]) <=? 32) "device listing limit exceeded" ;;;
          find_each enrollment user devices (found ++ [r])
      | _ => find_each enrollment user devices found
      end
  end.
(* @src core/devices.rs 9-25 find_devices *)
Definition find_devices (enrollment : Enrollment) (user : string) : M Service Body.t :=
  lift (validate_id user) ;;;
  let prefix := "users." +:+ user +:+ ".devices." in
  let* rs := find_each enrollment user (omap (strip_prefix prefix) (sorted_keys enrollment)) [] in
  ret (Body.Devices rs).

(** ** The log and its projection *)

(* @src core/transparency.rs 178-185 read (call) *)
Definition read_registrations : M Service Snapshot :=
  let* r := ask (fun b => Transparency.read (b_log b)) in
  lift r.
Definition append_registration (k : KeyPair) (r : DeviceRegistration) : M Service unit :=
  call (fun env b => let '(res, kv) := Transparency.append k r env (b_log b) in
                     (res, set_log kv b)).

(* @src core/transparency.rs 336-356 register *)
Definition register (enrollment : Enrollment) (k : KeyPair) (r : DeviceRegistration)
  : M Service unit :=
  lift (verify r) ;;;
  ensure (bool_decide (enrollment !! key (payload r) = Some (nats_public_key (payload r))))
    "device not enrolled" ;;;
  let* existing := directory_get (key (payload r)) in
  match existing with
  | Some bytes =>
      let* b := lift (decode bytes) in
      ensure (match b with Body.Register r' => bool_decide (r' = r) | _ => false end)
        "directory registration conflict"
  | None => ret tt
  end ;;;
  append_registration k r ;;;
  accept enrollment r.

Definition initialize_registrations (k : KeyPair) : M Service unit :=
  call (fun env b =>
    let during := match env with a :: _ => interference a | [] => id end in
    let '(res, kv) := Transparency.initialize k during (b_log b) in (res, set_log kv b)).

(** One endpoint of the existing directory. *)
(* @src core/transparency.rs 307-328 reconcile (endpoint) *)
Definition import_endpoint (enrollment : Enrollment) (k : KeyPair) (existing : Snapshot)
    (endpoint : string) : M Service unit :=
  let* found := directory_get endpoint in
  match found with
  | None => ret tt
  | Some bytes =>
      let* b := lift (decode bytes) in
      match b with
      | Body.Register registration =>
          ensure (bool_decide (key (payload registration) = endpoint))
            "legacy directory endpoint mismatch" ;;;
          match List.find (fun r => bool_decide (key (payload r) = endpoint)) (entries existing) with
          | Some logged =>
              ensure (bool_decide (logged = registration))
                "directory projection differs from authenticated log"
          | None => register enrollment k registration
          end
      | _ => fail (Anyhow "invalid legacy registration")
      end
  end.
(* @src core/transparency.rs 298-335 reconcile *)
Definition reconcile (enrollment : Enrollment) (k : KeyPair) : M Service unit :=
  initialize_registrations k ;;;
  let* existing := read_registrations in
  for_each (sorted_keys enrollment) (import_endpoint enrollment k existing) ;;;
  let* log := read_registrations in
  for_each (entries log) (project_registration enrollment).

(** ** Consumers *)

Definition device_name (k : string) : string := "device_" +:+ k.

(** An endpoint key is [users.USER.devices.DEVICE]. *)
(* @src core/transport.rs 338-345 provision_mailboxes (endpoint) *)
Definition mailbox_subject (endpoint k : string) : result string :=
  match split_on "." endpoint with
  | [u; user; d; device] =>
      check (bool_decide (u = "users") && bool_decide (d = "devices"))
        "invalid enrollment endpoint" ;;?
      validate_id user ;;?
      validate_id device ;;?
      let? _ := key_pair_type k in
      Ok ("epochgrid.v1.user." +:+ user +:+ "." +:+ device +:+ ".inbox")
  | _ => Err (Anyhow "invalid enrollment endpoint")
  end.
Definition mailbox_config (subject : string) : Consumer := {|
  filter_subject := subject; filter_subjects := []; max_ack_pending := 1; max_batch := 1;
  deliver_subject := None; ack_explicit := true; ack_wait := 5 |}.
(** [get_or_create_consumer] returns the configuration the server has. *)
Definition get_or_create_mailbox (name : string) (c : Consumer) : M Service Consumer :=
  call (fun _ b => match b_mailbox b !! name with
                   | Some old => (Ok old, b)
                   | None => (Ok c, set_mailbox_consumers (<[name := c]>) b)
                   end).
(* @src core/transport.rs 360-369 provision_mailboxes (safety) *)
Definition safe_mailbox (subject : string) (c : Consumer) : bool :=
  bool_decide (filter_subject c = subject) && bool_decide (filter_subjects c = [])
  && (max_ack_pending c =? 1) && (max_batch c =? 1) && bool_decide (deliver_subject c = None)
  && ack_explicit c.
(* @src core/transport.rs 331-372 provision_mailboxes *)
Definition provision_mailboxes (enrollment : Enrollment) : M Service unit :=
  ask (fun _ => tt) ;;;
  for_each (endpoints enrollment) (fun '(endpoint, k) =>
    let* subject := lift (mailbox_subject endpoint k) in
    let* c := get_or_create_mailbox (device_name k) (mailbox_config subject) in
    ensure (safe_mailbox subject c)
      "MAILBOX consumer has unsafe configuration; admission remains closed").

Definition chat_delete (name : string) : M Service unit :=
  call (fun _ b => match b_chat b !! name with
                   | Some _ => (Ok tt, set_chat_consumers (delete name) b)
                   | None => (Err (Anyhow "consumer not found"), b)
                   end).
(** A missing mailbox consumer is not an error here. *)
Definition mailbox_delete (name : string) : M Service unit :=
  call (fun _ b => (Ok tt, set_mailbox_consumers (delete name) b)).
Definition chat_create (name : string) (c : Consumer) : M Service unit :=
  call (fun _ b => (Ok tt, set_chat_consumers (<[name := c]>) b)).

(* @src core/authorization/delivery.rs 309-321 reconcile_consumers_inner (filters) *)
Definition chat_filters (groups : list string) : list string :=
  match concat ((fun gid => ["epochgrid.v1.group." +:+ gid +:+ ".handshake";
                             "epochgrid.v1.group." +:+ gid +:+ ".message"]) <$> groups) with
  | [] => ["epochgrid.v1.group._none_.message"]
  | filters => filters
  end.
Definition chat_config (filters : list string) : Consumer := {|
  filter_subject := EmptyString; filter_subjects := filters; max_ack_pending := 1;
  max_batch := 1; deliver_subject := None; ack_explicit := true; ack_wait := 2 |}.
(* @src core/authorization/delivery.rs 323-329 reconcile_consumers_inner (unchanged) *)
Definition safe_chat (filters : list string) (c : Consumer) : bool :=
  bool_decide (filter_subjects c = filters) && bool_decide (filter_subject c = EmptyString)
  && (max_ack_pending c =? 1) && (max_batch c =? 1) && ack_explicit c
  && bool_decide (deliver_subject c = None).

(** The consumers of one device, past or present. *)
(* @src core/authorization/delivery.rs 281-346 reconcile_consumers_inner (device) *)
Definition reconcile_device (active : Enrollment) (k : string) : M Service unit :=
  let name := device_name k in
  let* existing := ask (fun b => b_chat b !! name) in
  if negb (existsb (fun '(_, v) => bool_decide (v = k)) (map_to_list active)) then
    when (bool_decide (is_Some existing)) (chat_delete name) ;;;
    mailbox_delete name
  else
    let* groups := gets (fun s => authorized_groups k (sv_db s)) in
    let* groups := lift groups in
    let filters := chat_filters groups in
    match existing with
    | Some c =>
        if safe_chat filters c then ret tt
        else chat_delete name ;;; chat_create name (chat_config filters)
    | None => chat_create name (chat_config filters)
    end.
(* @src core/authorization/delivery.rs 272-348 reconcile_consumers_inner *)
Definition reconcile_consumers_inner : M Service unit :=
  let* active := gets (fun s => enrollment (sv_db s)) in
  provision_mailboxes active ;;;
  ask (fun _ => tt) ;;;
  ask (fun _ => tt) ;;;
  let* historical := gets (fun s => historical_enrollment (sv_db s)) in
  for_each (snd <$> endpoints historical) (reconcile_device active).

(* @src core/authorization/delivery.rs 259-271 reconcile_consumers *)
Definition reconcile_consumers : M Service unit :=
  let* m := moment in
  let* operation := with_db (fun cap => audit_effect cap Reconciliation (mo_draw m)) in
  let* result := awaited reconcile_consumers_inner in
  with_db (fun cap => audit_effect_result cap Reconciliation operation (is_ok result) (mo_draw' m)) ;;;
  lift result.
End directory.
