(* ===== verification/Authority.v ===== *)
(** * The authority service

    [crates/epochgrid-service/src/dynamic.rs]: the one process that answers
    control requests. It closes the admission gate before a request that may
    change lifecycle state, and opens it again only when the broker's consumers
    have been reconciled with the registry; a request that fails or runs out of
    time leaves the gate closed until a repair succeeds. *)
From stdpp Require Import sorting.
From S2P Require Import Prelude External Wire AuthDb Capacity AuditTrail Identity Registry Policy KvStore Merkle Transparency Revocation Diagnostics Callout Directory.

Section authority.
Context `{NKeys} `{MlsPackages} `{Sha256} `{Postcard Envelope} `{Postcard RegistrationPayload}
  `{Postcard CheckpointTuple} `{Postcard RequestTuple} `{Postcard Revocation}
  `{Postcard PolicyUpdate} `{Postcard RelayTuple} `{MlsMessages} `{Base32} `{Json AuditRecord}
  `{Json Kind} `{Pages AuthDb}.
Variable moments : nat -> Moment.
Variable k : KeyPair.

(* @src service/dynamic.rs 379-400 publish_registration *)
Definition publish_registration (enrollment : Enrollment) (r : DeviceRegistration)
    (required : bool) : M Service unit :=
  let* m := moment moments in
  let* operation := with_db (fun cap =>
    audit_effect_target cap RegistrationPublication (nats_public_key (payload r)) required
      (mo_draw m)) in
  let* result := awaited (Directory.register enrollment k r) in
  with_db (fun cap =>
    audit_effect_result cap RegistrationPublication operation (is_ok result) (mo_draw' m)) ;;;
  lift result.

Definition read_revocations (registrations : Snapshot) : M Service RevocationLog :=
  let* r := ask (fun b => read_log registrations (b_log b)) in
  lift r.
(** [for key in log.keys() { registry.revoke(&key)? }], in the order of the set. *)
Definition revoke_key (key : string) : M Service unit :=
  let* m := moment moments in
  with_db (fun cap => revoke cap key (mo_draw m)).
Definition revoke_logged (l : RevocationLog) : M Service unit :=
  for_each (merge_sort by_name (elements (log_keys l))) revoke_key.
Definition activate_device (r : DeviceRegistration) : M Service unit :=
  let* m := moment moments in
  with_db (fun cap => activate cap (nats_public_key (payload r)) (mo_draw m)).

(** Publish and activate every registration of the registry. *)
(* @src service/dynamic.rs 28-40 repair_state (registrations) *)
Definition project_all (enrollment : Enrollment) : M Service unit :=
  let* registrations := gets (fun s => registrations (sv_db s)) in
  let* registrations := lift registrations in
  for_each registrations (fun r =>
    publish_registration enrollment r false ;;;
    activate_device r).

(* @src service/dynamic.rs 16-42 repair_state *)
Definition repair_state : M Service unit :=
  let* registrations := read_registrations in
  let* revocations := read_revocations registrations in
  revoke_logged revocations ;;;
  let* enrollment := gets (fun s => historical_enrollment (sv_db s)) in
  project_all enrollment ;;;
  reconcile_consumers moments.

(** ** Control requests *)

Definition mutating (b : Body.t) : bool :=
  match b with
  | Body.GroupPolicy _ | Body.Enroll _ _ | Body.Revoke _ | Body.Register _ => true
  | _ => false
  end.
Definition control (f : Counters -> Counters) : M Service unit :=
  runtime (fun r => set_control (f (rt_control r)) r).
Definition chat_cutoff_call : M Service Z :=
  ask (fun _ => tt) ;;; ask b_chat_last.

(** Revocations have a limiter of their own, so that other traffic cannot keep
    one out. *)
(* @src service/dynamic.rs 292-296 serve_inner (rate) *)
Definition control_allow (subject : string) : M Service unit :=
  let* s := gets id in
  let* m := moment moments in
  let now := mo_instant m in
  let '(permitted, s') :=
    if bool_decide (subject = REVOKE) then
      let '(b, l) := allow (revocation_rate s) now in (b, set_sv_rates (control_rate s) l)
    else let '(b, l) := allow (control_rate s) now in (b, set_sv_rates l (revocation_rate s)) in
  modify s' ;;;
  when (negb permitted) (control count_rate_limited) ;;;
  ensure permitted "control overload".

(** A validated relay is published to its recipient's mailbox stream. *)
(* @src service/dynamic.rs 306-312 serve_inner (relay) *)
Definition relay_welcome (w : WelcomeRelay) : M Service Body.t :=
  let* valid := gets (fun s => validate_relay w (sv_db s)) in
  let* subject := lift valid in
  let id := "welcome:" +:+ sender w +:+ ":" +:+ pretty.pretty (wr_id w) in
  call (fun _ b => (Ok tt, set_published (fun l => l ++ [(subject, id, wr_payload w)]) b)) ;;;
  ret Body.WelcomeRelayed.

(* @src service/dynamic.rs 317-323 serve_inner (enroll) *)
Definition enroll_device (token : string) (r : DeviceRegistration) : M Service Body.t :=
  let* m := moment moments in
  with_db (fun cap => enroll cap token r (mo_clock m) (mo_clock' m) (mo_ref m) (mo_draw m)) ;;;
  let* active := gets (fun s => enrollment (sv_db s)) in
  publish_registration active r true ;;;
  activate_device r ;;;
  ret Body.Registered.
(* @src service/dynamic.rs 331-340 serve_inner (revoke) *)
Definition revoke_request (registrations : Snapshot) (revocations : RevocationLog)
    (request : RevokeRequest) : M Service Body.t :=
  lift (request_validate request registrations (rl_entries revocations)) ;;;
  let* m := moment moments in
  let* operation := with_db (fun cap =>
    audit_revocation_intent cap (rr_nkey request) (rr_author request) (mo_draw m)) in
  let* cutoff := chat_cutoff_call in
  let* result := awaited (call (fun env b =>
    let '(res, kv) := append_log registrations k request cutoff env (b_log b) in
    (res, set_log kv b))) in
  with_db (fun cap =>
    audit_effect_result cap RevocationPublication operation (is_ok result) (mo_draw' m)) ;;;
  let* revoked := lift result in
  revoke_logged revoked ;;;
  ret Body.Revoked.

(** The answer to a decoded request on a subject. *)
(* @src service/dynamic.rs 304-344 serve_inner (dispatch) *)
Definition dispatch (subject : string) (request : Body.t) (registrations : Snapshot)
    (revocations : RevocationLog) (active : Enrollment) : M Service Body.t :=
  if bool_decide (subject = Policy.SUBJECT) then
    match request with
    | Body.PolicyQuery gid =>
        let* state := gets (fun s => policy_state gid (sv_db s)) in
        let* state := lift state in
        ret (Body.PolicyState state)
    | Body.GroupPolicy policy =>
        let* m := moment moments in
        let* generation := with_registry
          (apply_policy policy (mo_instant m) (mo_ref m) (mo_draw m) (mo_draw' m)) in
        ret (Body.PolicyApplied generation)
    | _ => ret Body.Rejected
    end
  else if bool_decide (subject = RELAY) then
    match request with Body.RelayWelcome relay => relay_welcome relay | _ => ret Body.Rejected end
  else if bool_decide (subject = KEYPACKAGE) then
    match request with
    | Body.ClaimKeyPackage user device group => claim active user device group
    | _ => ret Body.Rejected
    end
  else if bool_decide (subject = ENROLL) then
    match request with
    | Body.Enroll token registration => enroll_device token registration
    | _ => ret Body.Rejected
    end
  else if bool_decide (subject = REGISTER) then
    match request with
    | Body.Register registration =>
        let* authorized := gets (fun s => authorize (nats_public_key (payload registration)) (sv_db s)) in
        let* _ := lift authorized in
        publish_registration active registration true ;;;
        ret Body.Registered
    | _ => ret Body.Rejected
    end
  else if bool_decide (subject = AUDIT) then
    match request with
    | Body.RegistrationAudit => ret (Body.AuditLog registrations)
    | Body.Audit => if bool_decide (rl_entries revocations = [])
                    then ret (Body.AuditLog registrations) else ret Body.Rejected
    | _ => ret Body.Rejected
    end
  else if bool_decide (subject = REVOCATIONS) then
    match request with
    | Body.RevocationAudit => ret (Body.RevocationLog revocations)
    | _ => ret Body.Rejected
    end
  else if bool_decide (subject = REVOKE) then
    match request with
    | Body.Revoke request => revoke_request registrations revocations request
    | _ => ret Body.Rejected
    end
  else if bool_decide (subject = LOOKUP) then
    match request with
    | Body.Lookup user device => find active user device
    | _ => ret Body.Rejected
    end
  else if bool_decide (subject = DEVICES) then
    match request with
    | Body.ListDevices user => find_devices active user
    | _ => ret Body.Rejected
    end
  else ret Body.Rejected.

(** The part of a request that runs under the deadline. *)
(* @src service/dynamic.rs 289-351 serve_inner (request) *)
Definition handle (subject : string) (payload : bytes) : M Service Body.t :=
  when (MAX_WIRE <? zlen payload) (control count_malformed) ;;;
  ensure (zlen payload <=? MAX_WIRE) "oversized control request" ;;;
  control_allow subject ;;;
  when (negb (is_ok (decode payload))) (control count_malformed) ;;;
  let* request := lift (decode payload) in
  when (mutating request) (runtime (gate false)) ;;;
  let* registrations := read_registrations in
  let* revocations := read_revocations registrations in
  revoke_logged revocations ;;;
  let* active := gets (fun s => enrollment (sv_db s)) in
  let* body := dispatch subject request registrations revocations active in
  when (mutating request) (
    reconcile_consumers moments ;;;
    runtime (gate true) ;;;
    let* m := moment moments in
    runtime (record_repair true (mo_instant m))) ;;;
  ret body.

(** Try to open the gate again, with the calls that fit in five seconds. *)
(* @src service/dynamic.rs 352-356 serve_inner (repair) *)
Definition repair_gate (calls : list Call) : M Service unit :=
  let* repaired := within calls repair_state in
  let ok := is_ok repaired && match repaired with Ok r => is_ok r | Err _ => false end in
  let* m := moment moments in
  runtime (record_repair ok (mo_instant m)) ;;;
  when ok (runtime (gate true)).

(* @src service/dynamic.rs 357-365 serve_inner (answer) *)
Definition answer_body (response : result (result Body.t)) : M Service Body.t :=
  match response with
  | Ok (Ok body) =>
      if match body with Body.Rejected => true | _ => false end then
        control count_denied ;;;
        let* m := moment moments in
        let* d := gets sv_denials in
        let* d := with_db (fun cap => observe cap d (mo_instant m) (mo_instant m) (mo_draw m)) in
        modify (set_sv_denials d) ;;;
        ret Body.Rejected
      else control count_accepted ;;; ret body
  | _ =>
      control count_denied ;;;
      let* m := moment moments in
      let* d := gets sv_denials in
      let* d := with_db (fun cap => observe cap d (mo_instant m) (mo_instant m) (mo_draw m)) in
      modify (set_sv_denials d) ;;;
      when (negb (is_ok response)) (control count_timeout) ;;;
      ret Body.Rejected
  end.

(** One control request: the reply, or the encoding error that ends the service. *)
(* @src service/dynamic.rs 286-366 serve_inner (control) *)
Definition control_step (subject : string) (payload : bytes) (calls repair_calls : list Call)
  : M Service bytes :=
  control count_received ;;;
  let* response := within calls (handle subject payload) in
  let* open := gets (fun s => reconciled (sv_runtime s)) in
  when (negb open) (repair_gate repair_calls) ;;;
  let* body := answer_body response in
  match encode body with
  | Ok bytes => ret bytes
  | Err _ => lift (encode Body.Rejected)
  end.

(** The tick of the repair interval does nothing while the gate is open. *)
(* @src service/dynamic.rs 269-274 serve_inner (tick) *)
Definition repair_tick (calls : list Call) : M Service unit :=
  let* open := gets (fun s => reconciled (sv_runtime s)) in
  if open then ret tt
  else
    let* repaired := within calls repair_state in
    let ok := match repaired with Ok (Ok _) => true | _ => false end in
    let* m := moment moments in
    (if ok then runtime (gate true) ;;; runtime (record_repair true (mo_instant m))
     else runtime (record_repair false (mo_instant m))).

(* @src service/dynamic.rs 268-268 serve_inner (observations) *)
Definition observe_tick (ds : nat -> Draw) (t0 t1 t2 t3 : Z) : M Service unit :=
  let* s := gets id in
  let '(r, db) := refresh (reg_capacity (sv_registry s)) ds t0 t1 t2 t3 (sv_runtime s) (sv_db s) in
  modify (fun s => set_sv_registry (set_reg_db db (sv_registry s)) (set_sv_runtime (fun _ => r) s)).

(** ** Start-up *)

(** What a new process starts from: the stored registry and the broker as they
    are, full limiters, a fresh runtime with the gate shut. *)
(* @src service/dynamic.rs 105-121 serve_inner (fresh) *)
Definition boot (random : bytes) (t : Z) (s : Service) : Service :=
  let cap := reg_capacity (sv_registry s) in
  {| sv_registry := set_rates ∅ (sv_registry s); sv_broker := sv_broker s; sv_calls := [];
     sv_cancelled := false; sv_moment := sv_moment s; sv_runtime := new_runtime random false t;
     control_rate := new_rate (requests_per_second cap) (request_burst cap) t;
     revocation_rate := new_rate 4 8 t; sv_denials := {| started := t; d_count := 0 |} |}.

(** The start of the authority is the first thing its evidence says. *)
(* @src service/dynamic.rs 185-188 serve_inner (started) *)
Definition announce : M Service unit :=
  let* m := moment moments in
  with_db (fun cap => audit_repair cap (committed AuthorityStarted) (mo_draw m)).
(** Both logs, the registry, the directory and the consumers are brought to
    agree. *)
(* @src service/dynamic.rs 208-244 serve_inner (recovery) *)
Definition restore_state : M Service unit :=
  let* enrollment := gets (fun s => historical_enrollment (sv_db s)) in
  reconcile enrollment k ;;;
  let* registrations := read_registrations in
  call (fun env b =>
    let during := match env with a :: _ => interference a | [] => id end in
    let '(res, kv) := initialize_log registrations k during (b_log b) in (res, set_log kv b)) ;;;
  let* revocations := read_revocations registrations in
  revoke_logged revocations ;;;
  project_all enrollment ;;;
  reconcile_consumers moments.
(* @src service/dynamic.rs 254-255 serve_inner (ready) *)
Definition admit_devices : M Service unit :=
  runtime (gate true) ;;;
  let* m := moment moments in
  runtime (record_repair true (mo_instant m)).
(** The steps from the first repair event to the opened gate. *)
(* @src service/dynamic.rs 185-255 serve_inner (startup) *)
Definition startup : M Service unit :=
  announce ;;; restore_state ;;; admit_devices.

(** ** The life of the authority *)

(** Every [OpStart] is a new process on the stored state; a start that fails
    leaves its gate shut. *)
Inductive authority_op : Type :=
| OpStart (random : bytes) (t : Z) (calls : list Call)
| OpControl (subject : string) (payload : bytes) (calls repair_calls : list Call)
| OpTick (calls : list Call)
| OpObserve (ds : nat -> Draw) (t0 t1 t2 t3 : Z).

Definition run_authority_op (o : authority_op) (s : Service) : Service :=
  match o with
  | OpStart random t calls => snd (within calls startup (boot random t s))
  | OpControl subject payload calls repair_calls =>
      snd (control_step subject payload calls repair_calls s)
  | OpTick calls => snd (repair_tick calls s)
  | OpObserve ds t0 t1 t2 t3 => snd (observe_tick ds t0 t1 t2 t3 s)
  end.
Definition run_authority (ops : list authority_op) (s : Service) : Service :=
  foldl (fun s o => run_authority_op o s) s ops.
End authority.
