(* ===== verification/RevocationFacts.v ===== *)
(** * Properties of the revocation log

    Every entry of a valid log was authorized when it was appended, concurrent
    appends lose nothing, and a device that accepts a log records all of it. *)
From S2P Require Import Prelude External Wire Capacity Identity KvStore Merkle Transparency TransparencyFacts Mls ClientDb IdentityStore Revocation.

Section facts.
Context `{NKeys} `{MlsPackages} `{Sha256} `{Postcard Envelope} `{Postcard RegistrationPayload}
  `{Postcard CheckpointTuple} `{Postcard RequestTuple} `{Postcard Revocation}.

(** ** What a valid log says *)

(** The request is signed by its author, names a registered device, and its
    author is the operator or a device of the same user that no earlier entry
    revoked. *)
Definition authorized (registrations : Snapshot) (previous : list Revocation)
  (r : RevokeRequest) : Prop :=
  (exists b, request_bytes r = Ok b /\ nkey_verifies (rr_author r) b (rr_signature r) = true) /\
  (exists e, e ∈ entries registrations /\ user_id (payload e) = rr_user r /\
     device_id (payload e) = rr_device r /\ nats_public_key (payload e) = rr_nkey r) /\
  Forall (fun p => rr_nkey (request p) <> rr_author r) previous /\
  (rr_author r = cp_signer (checkpoint registrations) \/
   exists e, e ∈ entries registrations /\ nats_public_key (payload e) = rr_author r /\
     user_id (payload e) = rr_user r).

Lemma existsb_elem {A} (p : A -> bool) l :
  existsb p l = true <-> exists a, a ∈ l /\ p a = true.
Proof.
  rewrite existsb_exists. split; intros (a & Hin & Hp); exists a; by rewrite list_elem_of_In in *.
Qed.

Lemma request_validate_Ok r registrations previous u :
  request_validate r registrations previous = Ok u -> authorized registrations previous r.
Proof.
  unfold request_validate, verify_with. intros Hv.
  do 3 (apply rbind_Ok in Hv as (? & _ & Hv)).
  apply rbind_Ok in Hv as (ty & _ & Hv). apply rbind_Ok in Hv as (b & Hb & Hv).
  apply rbind_Ok in Hv as ([] & Hs & Hv). apply rbind_Ok in Hs as (ty' & _ & Hs).
  apply rbind_Ok in Hv as ([] & He%check_Ok & Hv). apply rbind_Ok in Hv as ([] & Hp%check_Ok & Hv).
  apply check_Ok in Hv. split_and!.
  - exists b. split; [done|]. by destruct (nkey_verifies _ _ _).
  - apply existsb_elem in He as (e & Hin & Hq). bool_prop. by exists e.
  - apply negb_true_iff in Hp. apply Forall_forall. intros p Hin Heq.
    apply not_true_iff_false in Hp. apply Hp. apply existsb_exists. exists p. split; [done|].
    by apply bool_decide_eq_true_2.
  - apply orb_prop in Hv as [Hv|Hv]; [left; by bool_prop|right].
    apply existsb_elem in Hv as (e & Hin & Hq). bool_prop. by exists e.
Qed.

Lemma validate_revocations_Ok registrations previous keys es u :
  validate_revocations registrations previous keys es = Ok u ->
  (forall i e, es !! i = Some e ->
     authorized registrations (previous ++ take i es) (request e) /\ chat_cutoff e <= i64_max) /\
  NoDup ((fun e => rr_nkey (request e)) <$> es) /\
  (forall e, e ∈ es -> rr_nkey (request e) ∉ keys).
Proof.
  revert previous keys; induction es as [|e es IH]; intros previous keys Hv; simpl in Hv.
  { split_and!; [by intros i e Hi; rewrite lookup_nil in Hi|constructor|].
    intros e Hin. by apply not_elem_of_nil in Hin. }
  apply rbind_Ok in Hv as ([] & Hr%request_validate_Ok & Hv).
  apply rbind_Ok in Hv as ([] & Hk%check_Ok & Hv). apply rbind_Ok in Hv as ([] & Hc%check_Ok & Hv).
  apply negb_true_iff, bool_decide_eq_false in Hk. apply Z.leb_le in Hc.
  apply IH in Hv as (Hall & Hnd & Hout).
  assert (forall e', e' ∈ es -> rr_nkey (request e') <> rr_nkey (request e) /\
    (rr_nkey (request e') ∉ keys)) as Hsep.
  { intros e' Hin. specialize (Hout _ Hin). rewrite elem_of_union, elem_of_singleton in Hout. tauto. }
  split_and!.
  - intros [|i] e' Hi; simpl in Hi.
    + injection Hi as <-. by rewrite app_nil_r.
    + destruct (Hall _ _ Hi) as [Ha Hcut]. split; [|done]. simpl. by rewrite cons_middle, app_assoc.
  - rewrite fmap_cons. constructor; [|done]. intros (e' & Ee & Hin)%list_elem_of_fmap.
    by destruct (Hsep _ Hin) as [? _].
  - intros e' [->|Hin]%elem_of_cons; [done|]. by destruct (Hsep _ Hin).
Qed.

Lemma log_validate_Ok l registrations u :
  log_validate l registrations = Ok u ->
  Transparency.validate registrations = Ok tt /\
  cp_size (rl_checkpoint l) = zlen (rl_entries l) /\
  cp_signer (rl_checkpoint l) = cp_signer (checkpoint registrations) /\
  revocation_root (rl_entries l) = Ok (cp_root (rl_checkpoint l)) /\
  validate_revocations registrations [] ∅ (rl_entries l) = Ok tt.
Proof.
  unfold log_validate. intros Hv. apply rbind_Ok in Hv as ([] & Hr & Hv).
  apply rbind_Ok in Hv as ([] & Hs%check_Ok & Hv). apply rbind_Ok in Hv as ([] & Hg%check_Ok & Hv).
  apply rbind_Ok in Hv as (? & _ & Hv). apply rbind_Ok in Hv as (? & _ & Hv).
  apply rbind_Ok in Hv as (? & _ & Hv). apply rbind_Ok in Hv as (r & Hroot & Hv).
  apply rbind_Ok in Hv as ([] & Heq%check_Ok & Hv). apply rbind_Ok in Hv as (? & _ & Hv).
  destruct u. bool_prop. split_and!; try done. congruence.
Qed.

(** Every revocation in a valid log was authorized when it was made. For
    each entry, at its position: the request carries its author's signature,
    it names a device of the registration log, its author had not itself been
    revoked by an earlier entry, and it is the operator or a device of the same
    user. No device is revoked twice. *)
Theorem revocations_authorized l registrations :
  log_validate l registrations = Ok tt ->
  (forall i e, rl_entries l !! i = Some e ->
     authorized registrations (take i (rl_entries l)) (request e)) /\
  NoDup ((fun e => rr_nkey (request e)) <$> rl_entries l) /\
  cp_signer (rl_checkpoint l) = cp_signer (checkpoint registrations).
Proof.
  intros (_ & _ & Hsg & _ & (Hall & Hnd & _)%validate_revocations_Ok)%log_validate_Ok.
  split_and!; try done. intros i e Hi. by apply (Hall i e).
Qed.

(** ** Concurrent appends *)

(** Logs the encoder accepts come back from the decoder. *)
Definition log_codec : Prop :=
  forall l b, encode (Body.RevocationLog l) = Ok b -> decode b = Ok (Body.RevocationLog l).
Definition revocations_grow (l l' : RevocationLog) : Prop := rl_entries l `prefix_of` rl_entries l'.
#[global] Instance revocations_grow_preorder : PreOrder revocations_grow.
Proof. unfold revocations_grow. split; [intros l; reflexivity|]. intros a b c ? ?. by etrans. Qed.

Definition decodes (registrations : Snapshot) (b : bytes) : result RevocationLog :=
  decode_log "invalid revocation log" registrations b.
Definition revocation_step (registrations : Snapshot) : Kv -> Kv -> Prop :=
  kv_step "revocations" (decodes registrations) revocations_grow.
(** The device the request names is revoked in a log. *)
Definition revoked_in (r : RevokeRequest) (l : RevocationLog) : Prop :=
  exists e, e ∈ rl_entries l /\ rr_nkey (request e) = rr_nkey r.

Lemma log_signed_Ok es k l : log_signed es k = Ok l -> rl_entries l = es.
Proof.
  unfold log_signed. intros Hs. apply rbind_Ok in Hs as (r & _ & Hs).
  apply rbind_Ok in Hs as (b & _ & Hs). apply rbind_Ok in Hs as (s & _ & Hs).
  by apply rbind_Ok in Hs as (? & _ & [= <-]).
Qed.

Lemma append_log_done registrations k r cutoff cur l :
  append_log_plan registrations k r cutoff cur = Ok (Done l) ->
  exists v, decodes registrations cur = Ok v /\ (revoked_in r l /\ v = l).
Proof.
  unfold append_log_plan. intros Hp. apply rbind_Ok in Hp as (v & Hv & Hp). exists v. split; [done|].
  apply rbind_Ok in Hp as ([] & _ & Hp). destruct (existsb _ (rl_entries v)) eqn:He; [|by inv_ok].
  injection Hp as ->. split; [|done]. apply existsb_elem in He as (e & Hin & Hq). bool_prop.
  by exists e.
Qed.
Lemma append_log_publish registrations k r cutoff cur b l :
  log_codec -> append_log_plan registrations k r cutoff cur = Ok (Publish b l) ->
  exists v v', decodes registrations cur = Ok v /\ decodes registrations b = Ok v' /\
    revocations_grow v v' /\ (revoked_in r l /\ v' = l).
Proof.
  intros Hcodec Hp. unfold append_log_plan in Hp. apply rbind_Ok in Hp as (v & Hv & Hp).
  apply rbind_Ok in Hp as ([] & _ & Hp). destruct (existsb _ (rl_entries v)); [by inv_ok|].
  apply rbind_Ok in Hp as (l' & Hl%log_signed_Ok & Hp). apply rbind_Ok in Hp as ([] & Hval & Hp).
  apply rbind_Ok in Hp as (b' & Hb & [= -> ->]). exists v, l. split_and!; [done| | | |done].
  - unfold decodes, decode_log. rewrite (Hcodec _ _ Hb). simpl. by rewrite Hval.
  - unfold revocations_grow. rewrite Hl. by eexists.
  - eexists. rewrite Hl, elem_of_app. split; [right; by left|done].
Qed.

(** C33. A reported revocation is durable. Under concurrent writers that only
    extend the revocation log with fresh revisions, an append leaves every
    earlier entry in place on every outcome, and when it returns a log, that
    log is the stored one, it is valid, and it revokes the requested device. *)
Theorem append_log_rely_guarantee registrations k r cutoff env kv res kv' :
  log_codec -> kv_wf kv ->
  Forall (fun a => forall kv, revocation_step registrations kv (interference a kv)) env ->
  append_log registrations k r cutoff env kv = (res, kv') ->
  (forall l, read_log registrations kv = Ok l ->
     exists l', read_log registrations kv' = Ok l' /\ rl_entries l `prefix_of` rl_entries l') /\
  (forall l, res = Ok l ->
     read_log registrations kv' = Ok l /\ log_validate l registrations = Ok tt /\ revoked_in r l).
Proof.
  intros Hcodec Hwf Henv Hrun.
  assert (forall kv l, stored "revocations" (decodes registrations) kv l <->
    read_log registrations kv = Ok l) as Hread.
  { intros kv0 l. unfold stored, read_log, decodes, decode_log. split.
    - intros (e & He & Hd). rewrite He. simpl. apply rbind_Ok in Hd as (body & -> & Hd). by destruct body.
    - intros Hr. destruct (kv_entries kv0 !! "revocations") as [e|]; [|done]. exists e. split; [done|].
      simpl in Hr. apply rbind_Ok in Hr as (body & -> & Hr). by destruct body. }
  destruct (cas_loop_step "revocations" (decodes registrations) revocations_grow _ _ _
    (fun l v => revoked_in r l /\ v = l) _ _ _ _ (append_log_done registrations k r cutoff)
    (fun cur b l => append_log_publish registrations k r cutoff cur b l Hcodec)
    Hwf (Forall_take _ _ _ Henv) Hrun) as [Hs Hg]. split.
  - intros l Hl%Hread. destruct (Hs Hwf) as (_ & _ & Hgrow).
    destruct (Hgrow l Hl) as (l' & Hl'%Hread & ?). by exists l'.
  - intros l ->. destruct (Hg l eq_refl) as (v & Hv & Hrev & ->). split_and!; [by apply Hread| |done].
    destruct Hv as (e & _ & Hd). unfold decodes, decode_log in Hd.
    apply rbind_Ok in Hd as (body & _ & Hd). destruct body; try done.
    apply rbind_Ok in Hd as ([] & Hval & [= ->]). done.
Qed.
End facts.
