(* ===== verification/DirectoryFacts.v ===== *)
(** * The service and its broker, when nobody else writes

    What the operations of [Directory.v] keep of the registry, the logs and the
    consumers, and what a reconciliation that succeeds has established. *)
From stdpp Require Import sorting.
From S2P Require Import Prelude External Wire AuthDb Capacity AuditTrail Identity Registry Policy RegistryFacts PolicyFacts KvStore Merkle Transparency TransparencyFacts Revocation RevocationFacts Diagnostics Directory.

Section facts.
Context `{NKeys} `{MlsPackages} `{Sha256} `{Postcard Envelope} `{Postcard RegistrationPayload}
  `{Postcard CheckpointTuple} `{Base32} `{Json AuditRecord} `{Json Kind} `{Pages AuthDb}.
Context `{Postcard RequestTuple} `{Postcard Revocation}.

(** ** The audit trail *)

Lemma or_degrade_registry {A} (m : M AuthDb A) :
  keeps same_registry m -> keeps same_registry (or_degrade m).
Proof. intros Hm. unfold or_degrade. pose proof mark_degraded_registry. keeps_auto. Qed.
Lemma append_operation_keeps_registry ev reserve op d : keeps same_registry (append_operation ev reserve op d).
Proof.
  pose proof insert_event_registry. pose proof set_state_registry.
  pose proof mark_degraded_registry. pose proof info_registry.
  unfold append_operation. keeps_auto.
Qed.
#[local] Hint Resolve or_degrade_registry append_operation_keeps_registry : keeps.
Lemma effect_transaction_registry cap k target reserve actor d :
  keeps same_registry (effect_transaction cap k target reserve actor d).
Proof.
  unfold effect_transaction. apply keeps_scoped_transaction; [apply _|done|]. keeps_auto.
  by apply keeps_modify.
Qed.
#[local] Hint Resolve effect_transaction_registry : keeps.
Lemma audit_effect_inner_registry cap k target reserve actor d :
  keeps same_registry (audit_effect_inner cap k target reserve actor d).
Proof. unfold audit_effect_inner. keeps_auto. Qed.
#[local] Hint Resolve audit_effect_inner_registry : keeps.
Lemma audit_effect_registry cap k d : keeps same_registry (audit_effect cap k d).
Proof. unfold audit_effect. keeps_auto. Qed.
Lemma audit_effect_target_registry cap k key required d :
  keeps same_registry (audit_effect_target cap k key required d).
Proof. unfold audit_effect_target. keeps_auto. Qed.
Lemma audit_revocation_intent_registry cap target author d :
  keeps same_registry (audit_revocation_intent cap target author d).
Proof. unfold audit_revocation_intent. keeps_auto. Qed.
Lemma audit_effect_result_registry cap k op success d :
  keeps same_registry (audit_effect_result cap k op success d).
Proof.
  unfold audit_effect_result. destruct op; [|keeps_auto].
  apply keeps_bind; [apply _| |keeps_auto].
  apply or_degrade_registry, keeps_transaction; [apply _|done|]. keeps_auto. by apply keeps_modify.
Qed.
Lemma audit_repair_registry cap ev d : keeps same_registry (audit_repair cap ev d).
Proof.
  unfold audit_repair. keeps_auto. apply keeps_transaction; [apply _|done|].
  keeps_auto.
Qed.
#[local] Hint Resolve audit_effect_registry audit_effect_target_registry
  audit_revocation_intent_registry audit_effect_result_registry audit_repair_registry : keeps.

(** ** Steps that leave the stores alone *)

(** A broker nobody else writes to: others may read, and write what is neither
    the log nor a consumer. *)
Definition same_stores (b b' : Broker) : Prop :=
  b_log b' = b_log b /\ b_chat b' = b_chat b /\ b_mailbox b' = b_mailbox b.
Definition alone (env : list Attempt) : Prop :=
  Forall (fun a => forall kv, interference a kv = kv) env.
Definition quiet (c : Call) : Prop :=
  (forall b, same_stores b (meddle c b)) /\ alone (tries c).

#[global] Instance same_stores_preorder : PreOrder same_stores.
Proof.
  split; [by intros b|]. intros b1 b2 b3 (?&?&?) (?&?&?). split_and!; congruence.
Qed.

(** Neither the registry nor a store nor the gate changes. *)
Definition still (s s' : Service) : Prop :=
  Forall quiet (sv_calls s) ->
  Forall quiet (sv_calls s') /\ same_registry (sv_db s) (sv_db s') /\
  same_stores (sv_broker s) (sv_broker s') /\
  reconciled (sv_runtime s') = reconciled (sv_runtime s).
#[global] Instance still_preorder : PreOrder still.
Proof.
  split; [intros s Hq; split_and!; by try reflexivity|].
  intros s1 s2 s3 H12 H23 Hq. destruct (H12 Hq) as (Hq2 & Hr & Hb & Hg).
  destruct (H23 Hq2) as (? & ? & ? & ?). split_and!; [done|by etrans..|congruence].
Qed.

Lemma keeps_awaited (R : Service -> Service -> Prop) {A} (m : M Service A) :
  keeps R m -> keeps R (awaited m).
Proof.
  intros Hm s. unfold awaited. specialize (Hm s). destruct (m s) as [r s']. simpl in Hm.
  by destruct (sv_cancelled s').
Qed.
Lemma awaited_Ok {A} (m : M Service A) s r s' : awaited m s = (Ok r, s') -> m s = (r, s').
Proof. unfold awaited. destruct (m s) as [x s1]. by destruct (sv_cancelled s1); intros [= -> ->]. Qed.

Lemma call_still {A} (f : list Attempt -> Broker -> result A * Broker) :
  (forall env b, same_stores b (snd (f env b))) -> keeps still (call f).
Proof.
  intros Hf s Hq. unfold call. destruct (sv_calls s) as [|c cs]; [by split_and!|].
  apply Forall_cons_1 in Hq as [[Hm _] Hcs]. specialize (Hm (sv_broker s)).
  destruct (delivered c); [|simpl; by split_and!].
  specialize (Hf (tries c) (meddle c (sv_broker s))). destruct (f _ _) as [r b']. simpl in *.
  split_and!; [done..| |done]. by etrans.
Qed.
Lemma ask_still {A} (f : Broker -> A) : keeps still (ask f).
Proof. apply call_still. intros env b. reflexivity. Qed.
Lemma with_registry_still {A} (m : M AuthRegistry A) :
  (forall r, same_registry (reg_db r) (reg_db (snd (m r)))) -> keeps still (with_registry m).
Proof.
  intros Hm s Hq. unfold with_registry. specialize (Hm (sv_registry s)).
  destruct (m _) as [a r]. by split_and!.
Qed.
Lemma with_db_still {A} (m : Capacity -> M AuthDb A) :
  (forall cap, keeps same_registry (m cap)) -> keeps still (with_db m).
Proof.
  intros Hm. unfold with_db. apply keeps_bind; [apply _|apply keeps_gets, _|]. intros cap.
  apply with_registry_still. intros r. unfold on_db. specialize (Hm cap (reg_db r)).
  by destruct (m cap (reg_db r)).
Qed.
Lemma moment_still moments : keeps still (moment moments).
Proof. intros s Hq. by split_and!. Qed.
Lemma modify_still f :
  (forall s, sv_registry (f s) = sv_registry s /\ sv_broker (f s) = sv_broker s /\
             sv_calls (f s) = sv_calls s /\
             reconciled (sv_runtime (f s)) = reconciled (sv_runtime s)) ->
  keeps still (modify f).
Proof.
  intros Hf s Hq. destruct (Hf s) as (Hr & Hb & Hc & Hg). simpl. unfold sv_db.
  rewrite Hr, Hb, Hc, Hg. by split_and!.
Qed.
(** ** Steps that move the registry forward *)

(** The keys of a log's registrations satisfy [D], and the revocation log is [re]. *)
Definition log_inv (D : string -> Prop) (re : option Entry) (kv : Kv) : Prop :=
  (forall snap, read kv = Ok snap ->
     forall e, e ∈ entries snap -> D (nats_public_key (payload e))) /\
  kv_entries kv !! "revocations" = re.

Definition has_device (s : Service) (n : string) : Prop := is_Some (devices (sv_db s) !! n).
Definition revocation_entry (s : Service) : option Entry :=
  kv_entries (b_log (sv_broker s)) !! "revocations".
(** Every key of an enrollment has its device row. *)
Definition covered (E : Enrollment) (s : Service) : Prop :=
  forall ep n, E !! ep = Some n -> has_device s n.

Record sane (s : Service) : Prop := {
  sane_wf : registry_wf (sv_db s);
  sane_log : log_inv (has_device s) (revocation_entry s) (b_log (sv_broker s));
  sane_quiet : Forall quiet (sv_calls s);
}.
(** The registry evolves, log and registry stay in step, the revocation log and
    the gate are as they were. *)
Definition onward (E : Enrollment) (s s' : Service) : Prop :=
  sane s -> covered E s ->
  sane s' /\ evolves (sv_db s) (sv_db s') /\ revocation_entry s' = revocation_entry s /\
  reconciled (sv_runtime s') = reconciled (sv_runtime s).

Lemma evolves_has s s' n : evolves (sv_db s) (sv_db s') -> has_device s n -> has_device s' n.
Proof. intros (Hd & _) [r Hr]. destruct (Hd _ _ Hr) as (r' & Hr' & _). by exists r'. Qed.
Lemma evolves_covered E s s' : evolves (sv_db s) (sv_db s') -> covered E s -> covered E s'.
Proof. intros He Hc ep n Hn. eapply evolves_has; eauto. Qed.
Lemma log_inv_impl (D D' : string -> Prop) re kv :
  (forall n, D n -> D' n) -> log_inv D re kv -> log_inv D' re kv.
Proof. intros HD [Hr He]. split; eauto. Qed.

#[global] Instance onward_preorder E : PreOrder (onward E).
Proof.
  split; [intros s Hs Hc; split_and!; by try reflexivity|].
  intros s1 s2 s3 H12 H23 Hs Hc. destruct (H12 Hs Hc) as (Hs2 & He & Hr & Hg).
  destruct (H23 Hs2 (evolves_covered _ _ _ He Hc)) as (? & ? & ? & ?).
  split_and!; [done|by etrans|congruence..].
Qed.

Lemma still_onward E s s' : still s s' -> onward E s s'.
Proof.
  intros Hst Hs Hc. destruct (Hst (sane_quiet _ Hs)) as (Hq & Hr & (Hl & _) & Hg).
  assert (evolves (sv_db s) (sv_db s')) as He by by apply same_registry_evolves.
  split_and!; [|done| |done].
  - split; [by eapply same_registry_wf; [|apply sane_wf]| |done].
    unfold revocation_entry. rewrite Hl. eapply log_inv_impl; [|apply (sane_log _ Hs)].
    intros n. by apply evolves_has.
  - unfold revocation_entry. by rewrite Hl.
Qed.
Lemma keeps_still_onward E {A} (m : M Service A) : keeps still m -> keeps (onward E) m.
Proof. intros Hm s. apply still_onward, Hm. Qed.
Lemma onward_weaken E E' s s' : (covered E s -> covered E' s) -> onward E' s s' -> onward E s s'.
Proof. intros Hc Ho Hs Hcov. apply Ho; auto. Qed.

Lemma with_registry_onward E {A} (m : M AuthRegistry A) :
  keeps reg_step m -> keeps (onward E) (with_registry m).
Proof.
  intros Hm s Hs Hc. unfold with_registry. specialize (Hm (sv_registry s)).
  destruct (m _) as [a r]. destruct Hm as [He Hw]. simpl in *.
  split_and!; try done. split; simpl; [apply Hw, sane_wf, Hs| |apply sane_quiet, Hs].
  eapply log_inv_impl; [|apply (sane_log _ Hs)]. intros n. by apply evolves_has.
Qed.
Lemma with_db_onward E {A} (m : Capacity -> M AuthDb A) :
  (forall cap, keeps registry_step (m cap)) -> keeps (onward E) (with_db m).
Proof.
  intros Hm. unfold with_db. apply keeps_bind; [apply _|apply keeps_gets, _|]. intros cap.
  apply with_registry_onward. intros r. by apply on_db_step.
Qed.

(** A call on the log that keeps [log_inv] for the keys of [E]. *)
Definition log_call {A} (g : list Attempt -> Kv -> result A * Kv) : M Service A :=
  call (fun env b => let '(r, kv) := g env (b_log b) in (r, set_log kv b)).
Lemma log_call_onward E {A} (g : list Attempt -> Kv -> result A * Kv) :
  (forall D re env kv, alone env -> (forall ep n, E !! ep = Some n -> D n) ->
     log_inv D re kv -> log_inv D re (snd (g env kv))) ->
  keeps (onward E) (log_call g).
Proof.
  intros Hg s [Hwf Hlog Hq] Hc. unfold log_call, call.
  destruct (sv_calls s) as [|c cs] eqn:Hcalls; [by split_and!|].
  apply Forall_cons_1 in Hq as [[Hm Ht] Hcs]. destruct (Hm (sv_broker s)) as (Hl & _).
  destruct (delivered c); simpl.
  - specialize (Hg (has_device s) (revocation_entry s) (tries c)
      (b_log (meddle c (sv_broker s))) Ht Hc).
    destruct (g _ _) as [r kv]. simpl in *. rewrite Hl in Hg. destruct (Hg Hlog) as [Hd He].
    split; [split; [done| |done]|]; [|split; [apply (reflexivity (R := evolves))|by split]].
    unfold revocation_entry. simpl. by split; [|].
  - split; [split; [done| |done]|].
    + unfold revocation_entry. simpl. by rewrite Hl.
    + split; [apply (reflexivity (R := evolves))|]. unfold revocation_entry. simpl. by rewrite Hl.
Qed.

Lemma consumer_call_onward E {A} (f : list Attempt -> Broker -> result A * Broker) :
  (forall env b, b_log (snd (f env b)) = b_log b) -> keeps (onward E) (call f).
Proof.
  intros Hf s [Hwf Hlog Hq] Hc. unfold call.
  destruct (sv_calls s) as [|c cs]; [by split_and!|].
  apply Forall_cons_1 in Hq as [[Hm _] Hcs]. destruct (Hm (sv_broker s)) as (Hl & _).
  assert (forall b cancelled, b_log b = b_log (sv_broker s) ->
    let s' := set_sv_broker b (set_sv_calls cs cancelled s) in
    sane s' /\ evolves (sv_db s) (sv_db s') /\ revocation_entry s' = revocation_entry s /\
    reconciled (sv_runtime s') = reconciled (sv_runtime s)) as Hgo.
  { intros b cancelled Hb. unfold revocation_entry. simpl. rewrite Hb.
    split; [split; [done| |done]|split; [apply (reflexivity (R := evolves))|done]].
    unfold revocation_entry. simpl. by rewrite Hb. }
  destruct (delivered c); [|by apply Hgo].
  specialize (Hf (tries c) (meddle c (sv_broker s))). destruct (f _ _) as [r b'].
  apply Hgo. simpl in Hf. congruence.
Qed.

Lemma keeps_ensure_bind {S A} (R : S -> S -> Prop) `{!PreOrder R} b msg (k : unit -> M S A) :
  (b = true -> keeps R (k tt)) -> keeps R (bind (ensure b msg) k).
Proof.
  intros Hk s. unfold bind, ensure. destruct b; [by apply Hk|reflexivity].
Qed.

(** ** The registration log *)

Context (snapshots : snapshot_codec).

Lemma append_alone D re k r env kv :
  alone env -> D (nats_public_key (payload r)) -> log_inv D re kv ->
  log_inv D re (snd (Transparency.append k r env kv)).
Proof.
  intros Ha Hr HI. unfold Transparency.append. destruct (verify r); [|done].
  destruct (cas_loop _ _ _ _ _ _) as [res kv'] eqn:Hrun.
  refine (proj1 (cas_loop_alone _ _ _ _ (log_inv D re) _ _ _ _ (Forall_take _ _ _ Ha) _ HI Hrun)).
  clear - Hr snapshots. intros kv e b u [Hd Hre] He Hp. split.
  - intros snap Hread e' Hin. unfold append_plan in Hp.
    apply rbind_Ok in Hp as (s & Hs & Hp). apply rbind_Ok in Hp as ([] & _ & Hp).
    destruct (List.find _ (entries s)); [by inv_ok|].
    apply rbind_Ok in Hp as (s' & Hs' & Hp). apply rbind_Ok in Hp as (b' & Hb & [= ->]).
    apply signed_Ok in Hs' as (_ & Hes & _).
    unfold read in Hread. simpl in Hread. rewrite lookup_insert_eq in Hread. simpl in Hread.
    unfold decode_snapshot in Hread. rewrite (snapshots _ _ Hb) in Hread. simpl in Hread.
    apply rbind_Ok in Hread as ([] & _ & [= <-]). rewrite Hes, elem_of_app in Hin.
    destruct Hin as [Hin| ->%list_elem_of_singleton]; [|done].
    apply (Hd s); [|done]. unfold read. by rewrite He.
  - simpl. by rewrite lookup_insert_ne.
Qed.
Lemma append_registration_onward E k r :
  E !! key (payload r) = Some (nats_public_key (payload r)) ->
  keeps (onward E) (append_registration k r).
Proof. intros Hr. apply log_call_onward. intros. apply append_alone; eauto. Qed.

Lemma initialize_alone D re k during kv :
  during kv = kv -> log_inv D re kv -> log_inv D re (snd (Transparency.initialize k during kv)).
Proof.
  intros Hd HI. unfold Transparency.initialize.
  destruct (kv_entries kv !! "snapshot") eqn:Hs; [done|].
  destruct (rbind _ _) as [b|] eqn:Hb; [|done]. simpl. rewrite Hd. unfold kv_create. rewrite Hs.
  apply rbind_Ok in Hb as (s & (_ & Hes & _)%signed_Ok & Hb). split.
  - intros snap Hread e Hin. unfold read in Hread. simpl in Hread.
    rewrite lookup_insert_eq in Hread. simpl in Hread. unfold decode_snapshot in Hread.
    rewrite (snapshots _ _ Hb) in Hread. simpl in Hread.
    apply rbind_Ok in Hread as ([] & _ & [= <-]). rewrite Hes in Hin. by apply not_elem_of_nil in Hin.
  - simpl. rewrite lookup_insert_ne by done. apply HI.
Qed.
Lemma first_during kv env : alone env ->
  (match env with a :: _ => interference a | [] => id end) kv = kv.
Proof. intros Ha. destruct env as [|a env]; [done|]. by apply Forall_cons_1 in Ha as [-> _]. Qed.
Lemma initialize_registrations_onward E k : keeps (onward E) (initialize_registrations k).
Proof.
  apply (log_call_onward E (fun env kv =>
    let during := match env with a :: _ => interference a | [] => id end in
    Transparency.initialize k during kv)).
  intros D re env kv Ha _ HI. apply initialize_alone; [by apply first_during|done].
Qed.

Lemma directory_create_still k v : keeps still (directory_create k v).
Proof.
  apply call_still. intros env b. by destruct (kv_entries _ !! k).
Qed.
#[local] Hint Resolve directory_create_still keeps_still_onward ask_still keeps_awaited : keeps.
Lemma directory_get_still k : keeps still (directory_get k).
Proof. apply ask_still. Qed.
#[local] Hint Resolve directory_get_still : keeps.
Lemma read_registrations_still : keeps still read_registrations.
Proof. unfold read_registrations. keeps_auto. Qed.
#[local] Hint Resolve read_registrations_still : keeps.
Lemma find_still E user device : keeps still (find E user device).
Proof. unfold find. keeps_auto. Qed.
Lemma project_registration_still E r : keeps still (project_registration E r).
Proof. unfold project_registration. keeps_auto. Qed.
#[local] Hint Resolve find_still project_registration_still : keeps.
Lemma claim_still E user device group : keeps still (claim E user device group).
Proof. unfold claim. keeps_auto. Qed.
Lemma find_each_still E user ds found : keeps still (find_each E user ds found).
Proof. revert found. induction ds as [|d ds IH]; intros found; simpl; keeps_auto; apply IH. Qed.
#[local] Hint Resolve claim_still find_each_still : keeps.
Lemma find_devices_still E user : keeps still (find_devices E user).
Proof. unfold find_devices. keeps_auto. Qed.

Lemma register_onward E k r : keeps (onward E) (register E k r).
Proof.
  unfold register, accept. apply keeps_bind; [apply _|eauto with keeps|intros _].
  apply keeps_ensure_bind; [apply _|]. intros He. bool_prop.
  pose proof (append_registration_onward E k r He). keeps_auto.
Qed.
#[local] Hint Resolve register_onward initialize_registrations_onward : keeps.
Lemma reconcile_onward E k : keeps (onward E) (reconcile E k).
Proof.
  assert (forall existing ep, keeps (onward E) (import_endpoint E k existing ep)).
  { intros existing ep. unfold import_endpoint. keeps_auto. }
  unfold reconcile. keeps_auto.
Qed.
End facts.
#[export] Hint Resolve audit_effect_registry audit_effect_target_registry
  audit_revocation_intent_registry audit_effect_result_registry audit_repair_registry : keeps.
#[export] Hint Resolve keeps_awaited ask_still moment_still directory_get_still
  directory_create_still read_registrations_still find_still project_registration_still
  claim_still find_devices_still keeps_still_onward : keeps.
