(* ===== verification/ConsumerFacts.v ===== *)
(** * A successful reconciliation

    What [reconcile_consumers] has established when it returns [Ok] and nobody
    else edits the consumers: the broker serves every device exactly the
    subjects the registry grants it, and devices no longer enrolled nothing. *)
From stdpp Require Import sorting.
From S2P Require Import Prelude External Wire AuthDb Capacity AuditTrail Identity Registry Policy RegistryFacts PolicyFacts KvStore Merkle Transparency TransparencyFacts Revocation Diagnostics Directory DirectoryFacts.

Section facts.
Context `{NKeys} `{MlsPackages} `{Sha256} `{Postcard Envelope} `{Postcard RegistrationPayload}
  `{Postcard CheckpointTuple} `{Base32} `{Json AuditRecord} `{Json Kind} `{Pages AuthDb}.

Definition enrolled (d : AuthDb) (n : string) : bool :=
  existsb (fun '(_, v) => bool_decide (v = n)) (map_to_list (enrollment d)).
(** The consumers a device may have. *)
Definition consumer_matches (d : AuthDb) (b : Broker) (n : string) : Prop :=
  if enrolled d n then
    exists groups c, authorized_groups n d = Ok groups /\ b_chat b !! device_name n = Some c /\
      safe_chat (chat_filters groups) c = true
  else b_chat b !! device_name n = None /\ b_mailbox b !! device_name n = None.
Definition mailbox_matches (b : Broker) (ep n : string) : Prop :=
  exists subject c, mailbox_subject ep n = Ok subject /\
    b_mailbox b !! device_name n = Some c /\ safe_mailbox subject c = true.
(** Broker and registry agree. *)
Definition matched (d : AuthDb) (b : Broker) : Prop :=
  (forall ep n, enrollment d !! ep = Some n -> mailbox_matches b ep n) /\
  (forall ep n, historical_enrollment d !! ep = Some n -> consumer_matches d b n).

Lemma matched_same d d' b b' :
  same_registry d d' -> same_stores b b' -> matched d b -> matched d' b'.
Proof.
  intros (_ & Hu & _ & _ & Hd & _ & Hm) (_ & Hc & Hb).
  assert (enrollment d' = enrollment d) as He by (unfold enrollment, enrollment_records; by rewrite Hd).
  assert (historical_enrollment d' = historical_enrollment d) as Hh
    by (unfold historical_enrollment, enrollment_records; by rewrite Hd).
  assert (forall n, authorized_groups n d' = authorized_groups n d) as Hg.
  { intros n. unfold authorized_groups, authorize. by rewrite Hd, Hu, Hm. }
  unfold matched, mailbox_matches, consumer_matches, enrolled. rewrite He, Hh, Hc, Hb.
  intros [Hmb Hch]. split; [done|].
  intros ep n Hn. rewrite Hg. by apply (Hch ep).
Qed.

(** ** Calls *)

Lemma call_Ok {A} (f : list Attempt -> Broker -> result A * Broker) s a s' :
  Forall quiet (sv_calls s) -> call f s = (Ok a, s') ->
  exists env b, same_stores (sv_broker s) b /\ alone env /\
    f env b = (Ok a, sv_broker s') /\
    sv_registry s' = sv_registry s /\ Forall quiet (sv_calls s').
Proof.
  unfold call. intros Hq. destruct (sv_calls s) as [|c cs]; [done|].
  apply Forall_cons_1 in Hq as [[Hm Ht] Hcs]. destruct (delivered c); [|done].
  destruct (f _ _) as [r b'] eqn:Hf. intros [= Hr <-].
  exists (tries c), (meddle c (sv_broker s)). split_and!; try done.
  simpl. rewrite Hf. destruct (answered c); congruence.
Qed.
Lemma ask_Ok {A} (f : Broker -> A) s a s' :
  Forall quiet (sv_calls s) -> ask f s = (Ok a, s') ->
  exists b, same_stores (sv_broker s) b /\ a = f b /\ sv_broker s' = b /\
    sv_registry s' = sv_registry s /\ Forall quiet (sv_calls s').
Proof.
  intros Hq (env & b & Hb & _ & Hf & Hr & Hcs)%call_Ok; [|done]. injection Hf as <- Hb'.
  exists b. split_and!; done.
Qed.

(** The registry of a run, whose calls stay quiet. *)
Definition at_registry (reg : AuthRegistry) (s : Service) : Prop :=
  sv_registry s = reg /\ Forall quiet (sv_calls s).

Lemma device_name_inj n n' : device_name n = device_name n' -> n = n'.
Proof. unfold device_name. intros E. by injection E. Qed.

(** ** Mailboxes *)

Lemma endpoints_elem E ep n : E !! ep = Some n -> (ep, n) ∈ endpoints E.
Proof.
  intros Hn. unfold endpoints, sorted_keys. apply list_elem_of_omap. exists ep. rewrite Hn.
  split; [|done]. rewrite (merge_sort_Permutation by_name). apply list_elem_of_fmap.
  exists (ep, n). split; [done|]. by apply elem_of_map_to_list.
Qed.

Lemma provision_mailbox_Ok reg ep n s s' :
  at_registry reg s ->
  (let* subject := lift (mailbox_subject ep n) in
   let* c := get_or_create_mailbox (device_name n) (mailbox_config subject) in
   ensure (safe_mailbox subject c)
     "MAILBOX consumer has unsafe configuration; admission remains closed") s = (Ok tt, s') ->
  at_registry reg s' /\ mailbox_matches (sv_broker s') ep n /\
  b_mailbox (sv_broker s) ⊆ b_mailbox (sv_broker s').
Proof.
  intros [Hr Hq] Hrun.
  apply bind_Ok in Hrun as (subject & s1 & [Hs ->]%lift_Ok & Hrun).
  apply bind_Ok in Hrun as (c & s1 & Hc & [Hsafe ->]%ensure_Ok).
  apply call_Ok in Hc as (env & b & (_ & _ & Hb) & _ & Hf & Hr1 & Hq1); [|done].
  split; [split; [congruence|done]|].
  rewrite <- Hb. clear Hr1. destruct (b_mailbox b !! device_name n) as [old|] eqn:Hold;
    injection Hf as <- <-; simpl; (split; [exists subject; eexists; split_and!; [done| |done]|]).
  - done.
  - done.
  - apply lookup_insert_eq.
  - by apply insert_subseteq.
Qed.
Lemma mailbox_matches_mono b b' ep n :
  b_mailbox b ⊆ b_mailbox b' -> mailbox_matches b ep n -> mailbox_matches b' ep n.
Proof.
  intros Hsub (subject & c & Hs & Hc & Hok). exists subject, c. split_and!; [done| |done].
  by eapply lookup_weaken.
Qed.
Lemma provision_mailboxes_Ok reg E s s' :
  at_registry reg s -> provision_mailboxes E s = (Ok tt, s') ->
  at_registry reg s' /\ forall ep n, E !! ep = Some n -> mailbox_matches (sv_broker s') ep n.
Proof.
  intros [Hr Hq] Hrun. unfold provision_mailboxes in Hrun.
  apply bind_Ok in Hrun as ([] & s1 & Ha & Hrun).
  apply ask_Ok in Ha as (b & _ & _ & _ & Hr1 & Hq1); [|done].
  apply (for_each_Ok (at_registry reg) (fun '(ep, n) s => mailbox_matches (sv_broker s) ep n))
    in Hrun as (Hreg & Hall & _).
  - split; [done|]. intros ep n Hn%endpoints_elem. rewrite Forall_forall in Hall.
    apply (Hall (ep, n)). by apply list_elem_of_In.
  - intros [ep n] s2 s3 Hreg Hf. by destruct (provision_mailbox_Ok _ _ _ _ _ Hreg Hf) as (? & ? & _).
  - intros [ep n] [ep' n'] s2 s3 Hreg Hm Hf.
    destruct (provision_mailbox_Ok _ _ _ _ _ Hreg Hf) as (_ & _ & Hsub).
    by eapply mailbox_matches_mono.
  - split; [congruence|done].
Qed.

(** ** One device *)

Definition elsewhere (n : string) (b b' : Broker) : Prop :=
  forall m, m <> n ->
    b_chat b' !! device_name m = b_chat b !! device_name m /\
    b_mailbox b' !! device_name m = b_mailbox b !! device_name m.
Lemma elsewhere_trans n b1 b2 b3 : elsewhere n b1 b2 -> elsewhere n b2 b3 -> elsewhere n b1 b3.
Proof. intros H12 H23 m Hm. destruct (H12 _ Hm), (H23 _ Hm). split; congruence. Qed.
Lemma same_stores_elsewhere n b b' : same_stores b b' -> elsewhere n b b'.
Proof. intros (_ & Hc & Hb) m _. by rewrite Hc, Hb. Qed.

Lemma chat_delete_Ok reg n s s' :
  at_registry reg s -> chat_delete (device_name n) s = (Ok tt, s') ->
  at_registry reg s' /\ b_chat (sv_broker s') !! device_name n = None /\
  b_mailbox (sv_broker s') = b_mailbox (sv_broker s) /\ elsewhere n (sv_broker s) (sv_broker s').
Proof.
  intros [Hr Hq] (env & b & Hb & _ & Hf & Hr1 & Hq1)%call_Ok; [|done].
  split; [split; [congruence|done]|]. pose proof Hb as (_ & Hchat & Hbox).
  destruct (b_chat b !! device_name n); [|done]. injection Hf as Hf. rewrite <- Hf. simpl.
  split_and!; [apply lookup_delete_eq|done|]. intros m Hm. simpl. rewrite <- Hchat, <- Hbox.
  rewrite lookup_delete_ne; [done|]. by intros ->%device_name_inj.
Qed.
Lemma mailbox_delete_Ok reg n s s' :
  at_registry reg s -> mailbox_delete (device_name n) s = (Ok tt, s') ->
  at_registry reg s' /\ b_mailbox (sv_broker s') !! device_name n = None /\
  b_chat (sv_broker s') = b_chat (sv_broker s) /\ elsewhere n (sv_broker s) (sv_broker s').
Proof.
  intros [Hr Hq] (env & b & Hb & _ & Hf & Hr1 & Hq1)%call_Ok; [|done].
  split; [split; [congruence|done]|]. pose proof Hb as (_ & Hchat & Hbox).
  injection Hf as Hf. rewrite <- Hf. simpl.
  split_and!; [apply lookup_delete_eq|done|]. intros m Hm. simpl. rewrite <- Hchat, <- Hbox.
  rewrite lookup_delete_ne; [done|]. by intros ->%device_name_inj.
Qed.
Lemma chat_create_Ok reg n c s s' :
  at_registry reg s -> chat_create (device_name n) c s = (Ok tt, s') ->
  at_registry reg s' /\ b_chat (sv_broker s') !! device_name n = Some c /\
  b_mailbox (sv_broker s') = b_mailbox (sv_broker s) /\ elsewhere n (sv_broker s) (sv_broker s').
Proof.
  intros [Hr Hq] (env & b & Hb & _ & Hf & Hr1 & Hq1)%call_Ok; [|done].
  split; [split; [congruence|done]|]. pose proof Hb as (_ & Hchat & Hbox).
  injection Hf as Hf. rewrite <- Hf. simpl.
  split_and!; [apply lookup_insert_eq|done|]. intros m Hm. simpl. rewrite <- Hchat, <- Hbox.
  rewrite lookup_insert_ne; [done|]. by intros ->%device_name_inj.
Qed.
Lemma safe_chat_config filters : safe_chat filters (chat_config filters) = true.
Proof. unfold safe_chat, chat_config. simpl. by rewrite !bool_decide_eq_true_2. Qed.

Lemma reconcile_device_Ok reg n s s' :
  at_registry reg s -> reconcile_device (enrollment (reg_db reg)) n s = (Ok tt, s') ->
  at_registry reg s' /\ consumer_matches (reg_db reg) (sv_broker s') n /\
  elsewhere n (sv_broker s) (sv_broker s') /\
  (enrolled (reg_db reg) n = true -> b_mailbox (sv_broker s') = b_mailbox (sv_broker s)).
Proof.
  intros [Hr Hq] Hrun. unfold reconcile_device in Hrun.
  apply bind_Ok in Hrun as (existing & s1 & Ha & Hrun).
  apply ask_Ok in Ha as (b & Hb & -> & Hb1 & Hr1 & Hq1); [|done].
  pose proof (same_stores_elsewhere n _ _ Hb) as Hels. rewrite <- Hb1 in Hels.
  assert (at_registry reg s1) as Hreg by (split; [congruence|done]).
  change (existsb _ _) with (enrolled (reg_db reg) n) in Hrun.
  unfold consumer_matches. destruct (enrolled (reg_db reg) n) eqn:Hen; simpl in Hrun.
  - apply bind_Ok in Hrun as (groups & s2 & [-> ->]%gets_Ok & Hrun).
    apply bind_Ok in Hrun as (groups & s2 & [Hg ->]%lift_Ok & Hrun).
    unfold sv_db in Hg. rewrite (proj1 Hreg) in Hg.
    assert (b_mailbox b = b_mailbox (sv_broker s)) as Hbox by apply Hb.
    assert (forall s2 s3, at_registry reg s2 -> elsewhere n (sv_broker s1) (sv_broker s2) ->
      b_mailbox (sv_broker s2) = b_mailbox (sv_broker s1) ->
      chat_create (device_name n) (chat_config (chat_filters groups)) s2 = (Ok tt, s3) ->
      at_registry reg s3 /\
      (exists groups c, authorized_groups n (reg_db reg) = Ok groups /\
         b_chat (sv_broker s3) !! device_name n = Some c /\
         safe_chat (chat_filters groups) c = true) /\
      elsewhere n (sv_broker s) (sv_broker s3) /\
      (true = true -> b_mailbox (sv_broker s3) = b_mailbox (sv_broker s))) as Hcreate.
    { intros s2 s3 Hreg2 He2 Hm2 (Hreg3 & Hc & Hbx & He3)%(chat_create_Ok reg); [|done].
      split_and!; [done| |by eauto using elsewhere_trans|intros _; congruence].
      exists groups, (chat_config (chat_filters groups)). split_and!; [done..|apply safe_chat_config]. }
    destruct (b_chat b !! device_name n) as [c|] eqn:Hc.
    + destruct (safe_chat _ c) eqn:Hsafe.
      * apply ret_Ok in Hrun as [_ ->]. split_and!; [done| |done|intros _; congruence].
        exists groups, c. rewrite Hb1. done.
      * apply bind_Ok in Hrun as ([] & s2 & Hd & Hrun).
        apply (chat_delete_Ok reg) in Hd as (Hreg2 & _ & Hbx & He2); [|done]. eauto.
    + eapply Hcreate; [done| |done|done]. by intros m _.
  - apply bind_Ok in Hrun as ([] & s2 & Hd & Hrun).
    assert (at_registry reg s2 /\ b_chat (sv_broker s2) !! device_name n = None /\
            elsewhere n (sv_broker s1) (sv_broker s2)) as (Hreg2 & Hnone & He2).
    { unfold when in Hd. case_bool_decide as Hc.
      - apply (chat_delete_Ok reg) in Hd as (? & ? & _ & ?); done.
      - apply ret_Ok in Hd as [_ ->]. split_and!; [done| |by intros m _]. rewrite Hb1.
        by apply eq_None_not_Some. }
    apply (mailbox_delete_Ok reg) in Hrun as (Hreg3 & Hbx & Hch & He3); [|done].
    split; [done|]. split; [split; [by rewrite Hch|done]|].
    split; [by eauto using elsewhere_trans|done].
Qed.

(** ** The whole pass *)

Lemma enrolled_true d ep n : enrollment d !! ep = Some n -> enrolled d n = true.
Proof.
  intros Hn. unfold enrolled. apply existsb_exists. exists (ep, n).
  split; [by apply list_elem_of_In, elem_of_map_to_list|by apply bool_decide_eq_true_2].
Qed.
Lemma consumer_matches_elsewhere d b b' m n :
  m <> n -> elsewhere n b b' -> consumer_matches d b m -> consumer_matches d b' m.
Proof.
  intros Hm He. destruct (He _ Hm) as [Hc Hb]. unfold consumer_matches. by rewrite Hc, Hb.
Qed.
Lemma string_eq_cases (m n : string) : m = n \/ m <> n.
Proof. destruct (decide (m = n)); auto. Qed.

Lemma reconcile_consumers_inner_Ok s s' :
  Forall quiet (sv_calls s) -> reconcile_consumers_inner s = (Ok tt, s') ->
  Forall quiet (sv_calls s') /\ sv_registry s' = sv_registry s /\
  matched (sv_db s') (sv_broker s').
Proof.
  intros Hq Hrun. unfold reconcile_consumers_inner in Hrun.
  apply bind_Ok in Hrun as (active & s1 & [-> ->]%gets_Ok & Hrun).
  set (reg := sv_registry s) in *. change (sv_db s) with (reg_db reg) in Hrun.
  apply bind_Ok in Hrun as ([] & s1 & Hp & Hrun).
  apply (provision_mailboxes_Ok reg) in Hp as ([Hr1 Hq1] & Hmail); [|done].
  apply bind_Ok in Hrun as ([] & s2 & Ha & Hrun).
  apply ask_Ok in Ha as (b2 & Hb2 & _ & Hs2 & Hr2 & Hq2); [|done].
  apply bind_Ok in Hrun as ([] & s3 & Ha & Hrun).
  apply ask_Ok in Ha as (b3 & Hb3 & _ & Hs3 & Hr3 & Hq3); [|done].
  apply bind_Ok in Hrun as (hist & s4 & [-> ->]%gets_Ok & Hrun).
  assert (at_registry reg s3) as Hreg by (split; [congruence|done]).
  assert (sv_db s3 = reg_db reg) as Hdb by (unfold sv_db; by rewrite (proj1 Hreg)).
  rewrite Hdb in Hrun.
  assert (forall ep n, enrollment (reg_db reg) !! ep = Some n -> mailbox_matches (sv_broker s3) ep n)
    as Hmail3.
  { intros ep n Hn. eapply mailbox_matches_mono; [|by apply Hmail].
    destruct Hb2 as (_ & _ & E2), Hb3 as (_ & _ & E3). rewrite Hs3, E3, Hs2, E2. done. }
  apply (for_each_Ok
    (fun s => at_registry reg s /\
       forall ep n, enrollment (reg_db reg) !! ep = Some n -> mailbox_matches (sv_broker s) ep n)
    (fun n s => consumer_matches (reg_db reg) (sv_broker s) n)) in Hrun
    as ([[Hr' Hq'] Hmail'] & Hall & _); [| | |done].
  - split_and!; [done|done|]. unfold sv_db. rewrite Hr'. split; [done|].
    intros ep n Hn. rewrite list.Forall_forall in Hall. apply Hall. apply list_elem_of_fmap.
    exists (ep, n). split; [done|]. by apply endpoints_elem.
  - intros n t t' [Ht Hm] (Ht' & Hcm & He & Hbox)%(reconcile_device_Ok reg); [|done].
    split; [split; [done|]|done]. intros ep m Hep.
    destruct (Hm _ _ Hep) as (subject & c & Hsub & Hc & Hok). exists subject, c.
    split_and!; [done| |done]. destruct (string_eq_cases m n) as [->|Hne].
    + rewrite Hbox; [done|]. by eapply enrolled_true.
    + destruct (He _ Hne) as [_ E]. by rewrite E.
  - intros m n t t' [Ht _] Hcm Hf.
    destruct (reconcile_device_Ok reg n t t' Ht Hf) as (_ & Hcn & He & _).
    destruct (string_eq_cases m n) as [->|Hne]; [done|].
    by eapply consumer_matches_elsewhere.
Qed.

(** On every outcome the pass leaves registry, log and gate alone. *)
#[local] Hint Resolve consumer_call_onward with_db_onward : keeps.
Lemma reconcile_consumers_onward E moments : keeps (onward E) (reconcile_consumers moments).
Proof.
  assert (forall name c, keeps (onward E) (get_or_create_mailbox name c)) as Hget.
  { intros name c. apply consumer_call_onward. intros env b. by destruct (b_mailbox b !! name). }
  assert (forall name, keeps (onward E) (chat_delete name)) as Hdel.
  { intros name. apply consumer_call_onward. intros env b. by destruct (b_chat b !! name). }
  assert (forall name, keeps (onward E) (mailbox_delete name)) as Hmail
    by (intros name; by apply consumer_call_onward).
  assert (forall name c, keeps (onward E) (chat_create name c)) as Hcreate
    by (intros name c; by apply consumer_call_onward).
  assert (forall active n, keeps (onward E) (reconcile_device active n))
    by (intros; unfold reconcile_device; keeps_auto).
  assert (forall active, keeps (onward E) (provision_mailboxes active))
    by (intros; unfold provision_mailboxes; keeps_auto; apply keeps_for_each; [apply _|];
        intros [ep n]; keeps_auto).
  assert (keeps (onward E) reconcile_consumers_inner)
    by (unfold reconcile_consumers_inner; keeps_auto).
  unfold reconcile_consumers. keeps_auto.
Qed.

Lemma reconcile_consumers_Ok moments s s' :
  Forall quiet (sv_calls s) -> reconcile_consumers moments s = (Ok tt, s') ->
  matched (sv_db s') (sv_broker s').
Proof.
  intros Hq Hrun. unfold reconcile_consumers in Hrun.
  apply bind_Ok in Hrun as (m & s1 & Hm & Hrun).
  pose proof (moment_still moments s Hq) as Hst. rewrite Hm in Hst. destruct Hst as (Hq1 & _).
  apply bind_Ok in Hrun as (op & s2 & Ho & Hrun).
  match type of Ho with with_db ?f _ = _ =>
    assert (keeps still (with_db f)) as Hk by (apply with_db_still; intros; eauto with keeps) end.
  pose proof (Hk s1 Hq1) as Hst. rewrite Ho in Hst. destruct Hst as (Hq2 & _). clear Hk.
  apply bind_Ok in Hrun as (res & s3 & Hi%awaited_Ok & Hrun).
  apply bind_Ok in Hrun as ([] & s4 & Hr & [-> ->]%lift_Ok).
  apply reconcile_consumers_inner_Ok in Hi as (Hq3 & _ & Hmat); [|done].
  match type of Hr with with_db ?f _ = _ =>
    assert (keeps still (with_db f)) as Hk by (apply with_db_still; intros; eauto with keeps) end.
  pose proof (Hk s3 Hq3) as Hst. rewrite Hr in Hst. destruct Hst as (_ & Hreg & Hstores & _).
  by eapply matched_same.
Qed.
End facts.
