(* ===== verification/AuthorityFacts.v ===== *)
(** * The admission gate

    The gate of the authority is open only while broker, revocation log and
    registry agree: what each step of the service keeps, and the invariant over
    any sequence of starts, requests, repairs and observations. *)
From stdpp Require Import sorting.
From S2P Require Import Prelude External Wire AuthDb Capacity AuditTrail Identity Registry Policy RegistryFacts PolicyFacts RegistryHistory KvStore Merkle Transparency TransparencyFacts Revocation RevocationFacts Diagnostics Callout CalloutFacts Directory DirectoryFacts ConsumerFacts Authority.

Section facts.
Context `{NKeys} `{MlsPackages} `{Sha256} `{Postcard Envelope} `{Postcard RegistrationPayload}
  `{Postcard CheckpointTuple} `{Postcard RequestTuple} `{Postcard Revocation}
  `{Postcard PolicyUpdate} `{Postcard RelayTuple} `{MlsMessages} `{Base32} `{Json AuditRecord}
  `{Json Kind} `{Pages AuthDb}.
Variable moments : nat -> Moment.
Variable k : KeyPair.

(** ** What an open gate promises *)

Definition revoked_row (d : AuthDb) (n : string) : Prop :=
  exists r, devices d !! n = Some r /\ revoked r = true.
(** The revocation log in the store. *)
Definition logged (s : Service) (l : RevocationLog) : Prop :=
  exists e, revocation_entry s = Some e /\ decode (value e) = Ok (Body.RevocationLog l).
(** Every logged revocation is in force in the registry. *)
Definition enforced (s : Service) : Prop :=
  forall l n, logged s l -> n ∈ log_keys l -> revoked_row (sv_db s) n.
Definition closed (s : Service) : Prop := reconciled (sv_runtime s) = false.
Definition gate_ok (s : Service) : Prop :=
  sane s /\ (reconciled (sv_runtime s) = true -> enforced s /\ matched (sv_db s) (sv_broker s)).

Lemma evolves_revoked d d' n : evolves d d' -> revoked_row d n -> revoked_row d' n.
Proof.
  intros (Hd & _) (r & Hr & Hrev). destruct (Hd _ _ Hr) as (r' & Hr' & He).
  exists r'. split; [done|]. by apply He.
Qed.
Lemma enforced_evolves s s' :
  evolves (sv_db s) (sv_db s') -> revocation_entry s' = revocation_entry s ->
  enforced s -> enforced s'.
Proof.
  intros He Hr Hen l n (e & Hl & Hd) Hin. rewrite Hr in Hl.
  eapply evolves_revoked; [done|]. apply (Hen l); [by exists e|done].
Qed.

Lemma covered_empty s : covered ∅ s.
Proof. intros ep n Hn. by apply (lookup_empty_Some (M := gmap string)) in Hn. Qed.

Definition keeps_gate (s s' : Service) : Prop := gate_ok s -> gate_ok s'.
#[local] Instance keeps_gate_preorder : PreOrder keeps_gate.
Proof. split; [intros s Hs; exact Hs|]. intros a b c Hab Hbc Ha. auto. Qed.
Lemma still_gate s s' : still s s' -> keeps_gate s s'.
Proof.
  intros Hst [Hs Hg]. destruct (Hst (sane_quiet _ Hs)) as (_ & Hr & Hb & Hgate).
  destruct (still_onward ∅ s s' Hst Hs (covered_empty s)) as (Hs' & He & Hentry & _).
  split; [done|]. rewrite Hgate. intros [Hen Hm]%Hg.
  split; [by eapply enforced_evolves|by eapply matched_same].
Qed.
Lemma keeps_still_gate {A} (m : M Service A) : keeps still m -> keeps keeps_gate m.
Proof. intros Hm s. apply still_gate, Hm. Qed.

(** A closed gate promises nothing; running on, it stays closed. *)
Lemma closed_gate_ok s : sane s -> closed s -> gate_ok s.
Proof. intros Hs Hc. split; [done|]. unfold closed in Hc. by rewrite Hc. Qed.
Lemma gate_bind {A B} (m : M Service A) (f : A -> M Service B) s :
  sane s -> closed s -> onward ∅ s (snd (m s)) ->
  (forall a s1, m s = (Ok a, s1) -> sane s1 -> closed s1 -> evolves (sv_db s) (sv_db s1) ->
     revocation_entry s1 = revocation_entry s -> gate_ok (snd (f a s1))) ->
  gate_ok (snd (bind m f s)).
Proof.
  intros Hs Hc Hon Hf. destruct (Hon Hs (covered_empty s)) as (Hs1 & He & Hr & Hg).
  unfold bind. destruct (m s) as [[a|e] s1]; simpl in *.
  - apply Hf; auto. unfold closed. congruence.
  - apply closed_gate_ok; [done|]. unfold closed. congruence.
Qed.
Lemma onward_empty E s s' : covered E s -> onward E s s' -> onward ∅ s s'.
Proof. intros Hc. by apply onward_weaken. Qed.
Lemma enrollment_records_device revoked d ep n :
  enrollment_records revoked d !! ep = Some n -> is_Some (devices d !! n).
Proof.
  unfold enrollment_records. intros Hin%elem_of_list_to_map_2.
  apply elem_of_reverse, list_elem_of_fmap in Hin as ([n' r] & [= -> ->] & Hin).
  apply elem_of_rows in Hin as [Hr _]. eauto.
Qed.
Lemma enrollment_covered revoked s : covered (enrollment_records revoked (sv_db s)) s.
Proof. intros ep n Hn. by eapply enrollment_records_device. Qed.

(** ** Revocations of the log *)

Lemma with_db_run {A} (m : Capacity -> M AuthDb A) s r s' :
  with_db m s = (r, s') -> m (reg_capacity (sv_registry s)) (sv_db s) = (r, sv_db s').
Proof.
  unfold with_db, with_registry, on_db, bind, gets, sv_db.
  destruct (m _ _) as [x d]. by intros [= <- <-].
Qed.
Lemma revoke_key_run n s r s' :
  revoke_key moments n s = (r, s') ->
  exists cap dr, revoke cap n dr (sv_db s) = (r, sv_db s').
Proof. intros Hrun. do 2 eexists. exact (with_db_run _ _ _ _ Hrun). Qed.
Lemma revoke_key_onward E n : keeps (onward E) (revoke_key moments n).
Proof.
  unfold revoke_key. pose proof revoke_step.
  apply keeps_bind; [apply _|eauto with keeps|intros m]. by apply with_db_onward.
Qed.
Lemma revoke_logged_onward E l : keeps (onward E) (revoke_logged moments l).
Proof. apply keeps_for_each; [apply _|]. intros n. apply revoke_key_onward. Qed.

(** Revoking a device again changes nothing. *)
Lemma revoke_key_still n s : revoked_row (sv_db s) n -> still s (snd (revoke_key moments n s)).
Proof.
  intros (r & Hr & Hrev). destruct (revoke_key moments n s) as [res s'] eqn:Hrun. simpl.
  assert (same_registry (sv_db s) (sv_db s')) as Hsame.
  { apply revoke_key_run in Hrun as (cap & dr & Hrun). destruct res as [[]|e].
    - apply revoke_Ok in Hrun as [[Hs _]|[_ (r' & Hr' & Hact)]]; [done|congruence].
    - unfold revoke in Hrun. apply transaction_Err in Hrun as ->. reflexivity. }
  assert (sv_broker s' = sv_broker s /\ sv_calls s' = sv_calls s /\
          sv_runtime s' = sv_runtime s) as (Hb & Hc & Hrt).
  { revert Hrun. unfold revoke_key, with_db, with_registry, moment, bind, gets, modify, ret.
    destruct (on_db _ _) as [x reg]. by intros [= _ <-]. }
  intros Hq. unfold still. rewrite Hb, Hc, Hrt. by split_and!.
Qed.
Lemma same_registry_revoked d d' n : same_registry d d' -> revoked_row d n -> revoked_row d' n.
Proof. intros Hs. by apply evolves_revoked, same_registry_evolves. Qed.
Lemma revoke_keys_still ns s :
  Forall (revoked_row (sv_db s)) ns -> still s (snd (for_each ns (revoke_key moments) s)).
Proof.
  revert s. induction ns as [|n ns IH]; intros s Hall; [reflexivity|].
  apply Forall_cons_1 in Hall as [Hn Hns]. pose proof (revoke_key_still n s Hn) as Hst. simpl.
  unfold bind. destruct (revoke_key moments n s) as [[u|e] s1]; [|done]. simpl in Hst.
  intros Hq. assert (same_registry (sv_db s) (sv_db s1)) as Hsame by by apply Hst.
  revert Hq. change (still s (snd (for_each ns (revoke_key moments) s1))).
  etrans; [exact Hst|]. apply IH. eapply list.Forall_impl; [exact Hns|].
  intros n'. by apply same_registry_revoked.
Qed.

Lemma elem_of_revoke_list l n : n ∈ merge_sort by_name (elements (log_keys l)) <-> n ∈ log_keys l.
Proof. rewrite (merge_sort_Permutation by_name). apply elem_of_elements. Qed.
Lemma revoke_logged_still l s :
  (forall n, n ∈ log_keys l -> revoked_row (sv_db s) n) ->
  still s (snd (revoke_logged moments l s)).
Proof.
  intros Hl. apply revoke_keys_still, list.Forall_forall. intros n Hn. by apply Hl, elem_of_revoke_list.
Qed.
(** When the loop ran through, every key of the log with a row is revoked. *)
Lemma revoke_logged_Ok l s s' :
  (forall n, n ∈ log_keys l -> has_device s n) ->
  revoke_logged moments l s = (Ok tt, s') ->
  forall n, n ∈ log_keys l -> revoked_row (sv_db s') n.
Proof.
  intros Hdev Hrun.
  assert (forall n t t', revoke_key moments n t = (Ok tt, t') -> evolves (sv_db t) (sv_db t')) as Hev.
  { intros n t t' (cap & dr & Hr)%revoke_key_run. pose proof (revoke_step cap n dr (sv_db t)) as Hs.
    rewrite Hr in Hs. apply Hs. }
  apply (for_each_Ok (fun t => forall n, n ∈ log_keys l -> has_device t n)
    (fun n t => n ∈ log_keys l -> revoked_row (sv_db t) n)) in Hrun as (_ & Hall & _); [| | |done].
  - intros n Hn. rewrite list.Forall_forall in Hall. by apply Hall; [apply elem_of_revoke_list|].
  - intros n t t' Ht Hf. pose proof (Hev _ _ _ Hf) as He. split; [eauto using evolves_has|].
    intros Hn. apply revoke_key_run in Hf as (cap & dr & Hf). destruct (Ht _ Hn) as [r Hr].
    apply revoke_Ok in Hf as [[Hs Hrev]|[Hs _]].
    + eapply same_registry_revoked; [done|]. exists r. auto.
    + eapply same_registry_revoked; [done|]. pose proof (revoke_devices n (sv_db t) n) as Hd.
      rewrite Hr in Hd. simpl in Hd. eexists. split; [exact Hd|].
      apply revoke_device_cases in Hd as (_ & _ & _ & _ & Ht'). auto.
  - intros n n' t t' _ HP Hf Hn. eapply evolves_revoked; eauto.
Qed.

(** ** Reading the logs *)

Lemma log_keys_elem l n : n ∈ log_keys l <-> exists e, e ∈ rl_entries l /\ rr_nkey (request e) = n.
Proof.
  unfold log_keys. rewrite elem_of_list_to_set, list_elem_of_fmap.
  split; intros (e & ? & ?); exists e; auto.
Qed.
Lemma log_validate_registered l registrations n :
  log_validate l registrations = Ok tt -> n ∈ log_keys l ->
  exists e, e ∈ entries registrations /\ nats_public_key (payload e) = n.
Proof.
  intros (_ & _ & _ & _ & (Hall & _)%validate_revocations_Ok)%log_validate_Ok
    (e & Hin & <-)%log_keys_elem.
  apply list_elem_of_lookup in Hin as [i Hi]. destruct (Hall _ _ Hi) as [(_ & Hreg & _) _].
  destruct Hreg as (r & Hr & _ & _ & Hk). by exists r.
Qed.
Lemma decode_log_Ok msg registrations b l :
  decode_log msg registrations b = Ok l ->
  decode b = Ok (Body.RevocationLog l) /\ log_validate l registrations = Ok tt.
Proof.
  unfold decode_log. intros Hd. apply rbind_Ok in Hd as (body & -> & Hd). destruct body; try done.
  by apply rbind_Ok in Hd as ([] & ? & [= <-]).
Qed.

(** Every registration of the snapshot has its device row. *)
Definition known (registrations : Snapshot) (s : Service) : Prop :=
  forall e, e ∈ entries registrations -> has_device s (nats_public_key (payload e)).
Lemma known_keys l registrations s :
  log_validate l registrations = Ok tt -> known registrations s ->
  forall n, n ∈ log_keys l -> has_device s n.
Proof.
  intros Hv Hk n Hn. destruct (log_validate_registered _ _ _ Hv Hn) as (e & He & <-). auto.
Qed.
Lemma known_evolves registrations s s' :
  evolves (sv_db s) (sv_db s') -> known registrations s -> known registrations s'.
Proof. intros He Hk e Hin. eapply evolves_has; eauto. Qed.

Lemma read_registrations_Ok s snap s' :
  sane s -> read_registrations s = (Ok snap, s') -> known snap s'.
Proof.
  intros Hs Hrun. pose proof (read_registrations_still s (sane_quiet _ Hs)) as (_ & Hreg & _).
  rewrite Hrun in Hreg. simpl in Hreg. apply (known_evolves _ s); [by apply same_registry_evolves|].
  unfold read_registrations in Hrun. apply bind_Ok in Hrun as (r & s1 & Ha & [-> ->]%lift_Ok).
  apply ask_Ok in Ha as (b & (Hl & _) & Hr & _); [|by apply sane_quiet]. rewrite Hl in Hr.
  intros e Hin. destruct (sane_log _ Hs) as [Hlog _]. by eapply Hlog.
Qed.
Lemma read_revocations_still registrations : keeps still (read_revocations registrations).
Proof. unfold read_revocations. keeps_auto. Qed.
Lemma read_revocations_Ok registrations s l s' :
  sane s -> read_revocations registrations s = (Ok l, s') ->
  logged s l /\ log_validate l registrations = Ok tt.
Proof.
  intros Hs Hrun. unfold read_revocations in Hrun.
  apply bind_Ok in Hrun as (r & s1 & Ha & [-> ->]%lift_Ok).
  apply ask_Ok in Ha as (b & (Hl & _) & Hr & _); [|by apply sane_quiet].
  unfold read_log in Hr. rewrite Hl in Hr. symmetry in Hr.
  apply rbind_Ok in Hr as (e & He%ok_or_Ok & [Hd Hv]%decode_log_Ok).
  split; [|done]. exists e. by split.
Qed.
Lemma logged_fun s l l' : logged s l -> logged s l' -> l' = l.
Proof. intros (e & He & Hd) (e' & He' & Hd'). congruence. Qed.
Lemma logged_entry s s' l : revocation_entry s' = revocation_entry s -> logged s l -> logged s' l.
Proof. intros Hr (e & He & Hd). exists e. by rewrite Hr. Qed.

(** The first reads of every request and repair: both logs, then every logged
    revocation into the registry. *)
Lemma revoke_current l registrations s s' :
  sane s -> logged s l -> log_validate l registrations = Ok tt -> known registrations s ->
  revoke_logged moments l s = (Ok tt, s') -> enforced s'.
Proof.
  intros Hs Hl Hv Hk Hrun l' n Hl' Hn.
  pose proof (revoke_logged_onward ∅ l s Hs (covered_empty s)) as (_ & _ & Hr & _).
  rewrite Hrun in Hr. simpl in Hr.
  assert (l' = l) as -> by (eapply logged_fun; [done|]; by eapply logged_entry).
  eapply revoke_logged_Ok; eauto. by eapply known_keys.
Qed.
End facts.
