(* ===== verification/GateFacts.v ===== *)
(** * The gate over any history

    Requests, repairs, observations and restarts of the authority, in any order
    and with any failures of the broker, keep the gate's promise. *)
From stdpp Require Import sorting.
From S2P Require Import Prelude External Wire AuthDb Capacity AuditTrail Identity Registry Policy RegistryFacts PolicyFacts RegistryHistory KvStore Merkle Transparency TransparencyFacts Revocation RevocationFacts Diagnostics Callout CalloutFacts Directory DirectoryFacts ConsumerFacts Authority AuthorityFacts.

Section facts.
Context `{NKeys} `{MlsPackages} `{Sha256} `{Postcard Envelope} `{Postcard RegistrationPayload}
  `{Postcard CheckpointTuple} `{Postcard RequestTuple} `{Postcard Revocation}
  `{Postcard PolicyUpdate} `{Postcard RelayTuple} `{MlsMessages} `{Base32} `{Json AuditRecord}
  `{Json Kind} `{Pages AuthDb}.
Variable moments : nat -> Moment.
Variable k : KeyPair.
Context (snapshots : snapshot_codec) (revocations_codec : log_codec).

(** ** The small steps *)

Lemma control_still f : keeps still (control f).
Proof. apply modify_still. intros s. done. Qed.
Lemma record_repair_still b now : keeps still (runtime (record_repair b now)).
Proof. apply modify_still. intros s. split_and!; try done. simpl. by destruct b. Qed.
Lemma with_db_onward' E {A} (m : Capacity -> M AuthDb A) :
  (forall cap, keeps same_registry (m cap)) -> keeps (onward E) (with_db m).
Proof. intros Hm. by apply keeps_still_onward, with_db_still. Qed.
#[local] Hint Resolve control_still record_repair_still with_db_still with_db_onward' : keeps.

Lemma activate_device_onward E r : keeps (onward E) (activate_device moments r).
Proof.
  unfold activate_device. apply keeps_bind; [apply _|eauto with keeps|intros m].
  apply with_db_onward. intros cap d. apply activate_step.
Qed.
Lemma publish_registration_onward E r required :
  keeps (onward E) (publish_registration moments k E r required).
Proof.
  pose proof (register_onward snapshots E k r). unfold publish_registration. keeps_auto.
Qed.
#[local] Hint Resolve activate_device_onward publish_registration_onward : keeps.
Lemma project_all_onward E : keeps (onward E) (project_all moments k E).
Proof. unfold project_all. keeps_all. Qed.
#[local] Hint Resolve project_all_onward reconcile_consumers_onward : keeps.

(** An enrollment is read from the registry it then describes. *)
Lemma keeps_gets_enrollment {A} revoked (f : Enrollment -> M Service A) :
  (forall E, keeps (onward E) (f E)) ->
  keeps (onward ∅) (bind (gets (fun s => enrollment_records revoked (sv_db s))) f).
Proof. intros Hf s. eapply onward_empty; [apply (enrollment_covered revoked)|apply Hf]. Qed.

(** ** Repair *)

(** What a run that starts with the gate closed must end with. *)
Definition repaired {A} (p : result A * Service) : Prop :=
  sane (snd p) /\ closed (snd p) /\
  (forall a, fst p = Ok a -> enforced (snd p) /\ matched (sv_db (snd p)) (sv_broker (snd p))).
Lemma repaired_bind {A B} (m : M Service A) (f : A -> M Service B) s :
  sane s -> closed s -> onward ∅ s (snd (m s)) ->
  (forall a s1, m s = (Ok a, s1) -> sane s1 -> closed s1 -> evolves (sv_db s) (sv_db s1) ->
     revocation_entry s1 = revocation_entry s -> repaired (f a s1)) ->
  repaired (bind m f s).
Proof.
  intros Hs Hc Hon Hf. destruct (Hon Hs (covered_empty s)) as (Hs1 & He & Hr & Hg).
  unfold bind. destruct (m s) as [[a|e] s1]; simpl in *.
  - apply Hf; auto. unfold closed. congruence.
  - split; [done|split; [unfold closed in *; simpl; congruence|done]].
Qed.
Lemma still_onward_at {A} (m : M Service A) s : keeps still m -> onward ∅ s (snd (m s)).
Proof. intros Hm. apply still_onward, Hm. Qed.

(** The end of a repair: every registration projected, then the consumers. *)
Lemma project_reconcile_repaired E s :
  sane s -> closed s -> enforced s -> covered E s ->
  repaired ((project_all moments k E ;;; reconcile_consumers moments) s).
Proof.
  intros Hs Hc Hen Hcov. apply repaired_bind; [done..| |].
  { eapply onward_empty; [exact Hcov|apply project_all_onward]. }
  intros [] s1 _ Hs1 Hc1 He Hr.
  pose proof (reconcile_consumers_onward ∅ moments s1 Hs1 (covered_empty s1)) as Hon.
  destruct (reconcile_consumers moments s1) as [r s2] eqn:Hrun.
  destruct Hon as (Hs2 & He2 & Hr2 & Hg2). split; [done|]. simpl in *.
  split; [unfold closed in *; simpl; congruence|]. intros [] ->. split.
  - eapply enforced_evolves; [exact He2|exact Hr2|]. by eapply enforced_evolves.
  - eapply reconcile_consumers_Ok; [|exact Hrun]. apply sane_quiet, Hs1.
Qed.

Lemma repair_state_repaired s : sane s -> closed s -> repaired (repair_state moments k s).
Proof.
  intros Hs Hc. unfold repair_state. apply repaired_bind; [done..| |].
  { apply still_onward_at, read_registrations_still. }
  intros snap s1 Hread Hs1 Hc1 He1 Hr1. apply read_registrations_Ok in Hread as Hk; [|done].
  apply repaired_bind; [done..| |]. { apply still_onward_at, read_revocations_still. }
  intros l s2 Hread2 Hs2 Hc2 He2 Hr2. apply read_revocations_Ok in Hread2 as [Hl Hv]; [|done].
  apply repaired_bind; [done..| |]. { apply revoke_logged_onward. }
  intros [] s3 Hrev Hs3 Hc3 He3 Hr3.
  assert (enforced s3) as Hen.
  { apply (revoke_current moments l snap s2); [done|by eapply logged_entry|done| |done].
    by eapply known_evolves. }
  unfold bind at 1, gets. apply project_reconcile_repaired; [done..|].
  apply (enrollment_covered true).
Qed.

(** ** Requests *)

Lemma relay_welcome_still w : keeps still (relay_welcome w).
Proof.
  unfold relay_welcome. keeps_auto. by apply call_still.
Qed.
Lemma dispatch_still subject request registrations revocations active :
  mutating request = false ->
  keeps still (dispatch moments k subject request registrations revocations active).
Proof.
  pose proof relay_welcome_still. intros Hm. unfold dispatch.
  destruct request; try discriminate Hm; keeps_auto.
Qed.

(** What a mutating request has done when it succeeds, [Q] of its own. *)
Definition advanced {A} (Q : A -> Service -> Prop) (p : result A * Service) : Prop :=
  sane (snd p) /\ closed (snd p) /\
  (forall a, fst p = Ok a -> enforced (snd p) /\ Q a (snd p)).
Lemma advanced_onward {A} (Q : A -> Service -> Prop) (m : M Service A) E s :
  sane s -> closed s -> enforced s -> covered E s -> keeps (onward E) m ->
  (forall a s', m s = (Ok a, s') -> Q a s') -> advanced Q (m s).
Proof.
  intros Hs Hc Hen Hcov Hm HQ. destruct (Hm s Hs Hcov) as (Hs' & He & Hr & Hg).
  split; [done|]. split; [unfold closed in *; congruence|]. intros a Ha.
  split; [by eapply enforced_evolves|]. apply HQ. by apply run_fst.
Qed.
Lemma advanced_bind {A B} (Q : B -> Service -> Prop) (m : M Service A) (f : A -> M Service B) s :
  sane s -> closed s -> onward ∅ s (snd (m s)) ->
  (forall a s1, m s = (Ok a, s1) -> sane s1 -> closed s1 -> evolves (sv_db s) (sv_db s1) ->
     revocation_entry s1 = revocation_entry s -> advanced Q (f a s1)) ->
  advanced Q (bind m f s).
Proof.
  intros Hs Hc Hon Hf. destruct (Hon Hs (covered_empty s)) as (Hs1 & He & Hr & Hg).
  unfold bind. destruct (m s) as [[a|e] s1]; simpl in *.
  - apply Hf; auto. unfold closed. congruence.
  - split; [done|split; [unfold closed in *; simpl; congruence|done]].
Qed.

Lemma enroll_device_onward token r : keeps (onward ∅) (enroll_device moments k token r).
Proof.
  unfold enroll_device. apply keeps_bind; [apply _|eauto with keeps|intros m].
  apply keeps_bind; [apply _| |intros []].
  { apply with_db_onward. intros cap d. apply enroll_step. }
  apply (keeps_gets_enrollment false). intros E. keeps_auto.
Qed.

(** A sole writer's append: the registrations stay, and a returned log is the
    stored one and valid. *)
Lemma append_log_alone registrations r cutoff env kv res kv' :
  alone env -> append_log registrations k r cutoff env kv = (res, kv') ->
  read kv' = read kv /\
  (forall l, res = Ok l ->
     log_validate l registrations = Ok tt /\ revoked_in r l /\
     exists e, kv_entries kv' !! "revocations" = Some e /\
       decode (value e) = Ok (Body.RevocationLog l)).
Proof.
  intros Ha Hrun.
  assert (forall kv0 e b a, read kv0 = read kv -> kv_entries kv0 !! "revocations" = Some e ->
    append_log_plan registrations k r cutoff (value e) = Ok (Publish b a) ->
    read (kv_put "revocations" b kv0) = read kv) as Hput.
  { intros kv0 e b a <- _ _. unfold read. simpl. by rewrite lookup_insert_ne. }
  destruct (cas_loop_alone _ _ _ _ (fun kv0 => read kv0 = read kv) _ _ _ _
    (Forall_take _ _ _ Ha) Hput eq_refl Hrun) as [Hread Hres].
  split; [done|]. intros l ->. destruct (Hres l eq_refl) as [(e & He & Hp)|(kv0 & e & b & -> & He & Hp)].
  - apply append_log_done in Hp as (v & Hd & Hrev & ->). apply decode_log_Ok in Hd as [Hd Hv]. eauto.
  - apply append_log_publish in Hp as (v & v' & _ & Hd & _ & Hrev & ->); [|done].
    apply decode_log_Ok in Hd as [Hd Hv]. split_and!; [done|done|]. eexists. simpl.
    rewrite lookup_insert_eq. by split.
Qed.

(** The revocation request between reading the logs and answering. *)
Lemma append_call_advanced registrations r cutoff s :
  sane s -> closed s -> known registrations s ->
  let '(res, s') := call (fun env b =>
    let '(res, kv) := append_log registrations k r cutoff env (b_log b) in
    (res, set_log kv b)) s in
  sane s' /\ closed s' /\ known registrations s' /\
  (forall l, res = Ok l ->
     logged s' l /\ log_validate l registrations = Ok tt /\ revoked_in r l).
Proof.
  intros [Hwf Hlog Hq] Hc Hk. unfold call. destruct (sv_calls s) as [|c cs]; [by split_and!|].
  apply Forall_cons_1 in Hq as [[Hm Ht] Hcs]. destruct (Hm (sv_broker s)) as (Hl & _).
  assert (forall kv, read kv = read (b_log (sv_broker s)) -> forall s', sv_registry s' = sv_registry s ->
    b_log (sv_broker s') = kv -> Forall quiet (sv_calls s') -> sane s') as Hsane.
  { intros kv Hkv s' Hreg Hb Hq'. split; [by unfold sv_db; rewrite Hreg| |done].
    split; [|done]. rewrite Hb, Hkv. unfold has_device, sv_db. rewrite Hreg. apply Hlog. }
  destruct (delivered c).
  - rewrite Hl. destruct (append_log _ _ _ _ _ _) as [res kv] eqn:Hrun.
    apply append_log_alone in Hrun as [Hread Hres]; [|done].
    split; [by apply (Hsane kv)|]. split_and!; [done|done|]. intros l Hans.
    destruct (answered c); [|done]. by destruct (Hres l Hans) as (? & ? & ?).
  - split; [by apply (Hsane (b_log (meddle c (sv_broker s)))); [by rewrite Hl|..]|].
    split_and!; try done.
Qed.

Lemma revoke_request_advanced registrations revocations r s :
  sane s -> closed s -> known registrations s ->
  advanced (fun _ s' => exists l, logged s' l /\ revoked_in r l)
    (revoke_request moments k registrations revocations r s).
Proof.
  intros Hs Hc Hk. unfold revoke_request.
  apply advanced_bind; [done..|by apply still_onward|]. intros [] s1 [_ ->]%lift_Ok _ _ _ _.
  apply advanced_bind; [done..|apply still_onward, moment_still|]. intros m s1 _ Hs1 Hc1 He1 _.
  apply advanced_bind; [done..| |].
  { apply still_onward_at, with_db_still. eauto with keeps. }
  intros op s2 _ Hs2 Hc2 He2 _.
  apply advanced_bind; [done..| |]. { apply still_onward_at. unfold chat_cutoff_call. keeps_auto. }
  intros cutoff s3 _ Hs3 Hc3 He3 _.
  assert (known registrations s3) as Hk3 by (do 3 (eapply known_evolves; [eassumption|]); done).
  pose proof (append_call_advanced registrations r cutoff s3 Hs3 Hc3 Hk3) as Hcall.
  unfold bind at 1, awaited. destruct (call _ s3) as [res s4]. destruct Hcall as (Hs4 & Hc4 & Hk4 & Hres).
  destruct (sv_cancelled s4); [by split_and!|].
  apply advanced_bind; [done..| |].
  { apply still_onward_at, with_db_still. eauto with keeps. }
  intros [] s5 _ Hs5 Hc5 He5 Hr5.
  apply advanced_bind; [done..|by apply still_onward|]. intros l s6 [-> ->]%lift_Ok _ _ _ _.
  destruct (Hres l eq_refl) as (Hl & Hv & Hin).
  destruct (revoke_logged moments l s5) as [x s6] eqn:Hrev.
  pose proof (revoke_logged_onward moments ∅ l s5 Hs5 (covered_empty s5)) as Hon.
  rewrite Hrev in Hon. destruct Hon as (Hs6 & _ & Hr6 & Hg). simpl in Hg, Hr6.
  assert (logged s5 l) as Hl5 by by eapply logged_entry.
  unfold bind. rewrite Hrev. destruct x as [[]|e]; simpl.
  - split; [done|]. split; [unfold closed in *; simpl; congruence|]. intros _ _. simpl. split.
    + apply (revoke_current moments l registrations s5); [done..| |done]. by eapply known_evolves.
    + exists l. split; [by eapply logged_entry|done].
  - split; [done|]. split; [unfold closed in *; simpl; congruence|done].
Qed.

(** A [Revoked] answer stands for an entry of the log. *)
Definition answer_logged (request : Body.t) (b : Body.t) (s' : Service) : Prop :=
  forall r, request = Body.Revoke r -> b = Body.Revoked -> exists l, logged s' l /\ revoked_in r l.
Lemma dispatch_advanced subject request registrations revocations active s :
  sane s -> closed s -> enforced s -> known registrations s -> covered active s ->
  advanced (answer_logged request)
    (dispatch moments k subject request registrations revocations active s).
Proof.
  intros Hs Hc Hen Hk Hcov.
  destruct (mutating request) eqn:Hm.
  2: { apply (advanced_onward _ _ ∅); [done..|apply covered_empty| |].
       - by apply keeps_still_onward, dispatch_still.
       - intros a s' _ r ->. discriminate Hm. }
  pose proof enroll_device_onward. pose proof apply_policy_step.
  assert (forall A (m : M AuthRegistry A), keeps reg_step m -> keeps (onward active) (with_registry m))
    as Hreg by (intros; by apply with_registry_onward).
  assert (advanced (answer_logged request) (ret Body.Rejected s)) as Hrej.
  { apply (advanced_onward _ _ ∅); [done..|apply covered_empty|keeps_auto|].
    intros a s' [-> _]%ret_Ok r _ Hb. discriminate Hb. }
  unfold dispatch. destruct request; try discriminate Hm;
    repeat (case_bool_decide; [first [exact Hrej | idtac]|]); try exact Hrej.
  all: try (apply (advanced_onward _ _ active); [done..|keeps_auto; by auto|
              intros a s' _ r' Hr'; discriminate Hr']).
  - destruct (revoke_request_advanced registrations revocations r s Hs Hc Hk) as (Hs' & Hc' & Hok).
    split; [done|split; [done|]]. intros a Ha. destruct (Hok a Ha) as [Hen' Hl].
    split; [done|]. intros r' [= <-] _. exact Hl.
  - apply (advanced_onward _ _ ∅); [done..|apply covered_empty|by auto|].
    intros a s' _ r' Hr'. discriminate Hr'.
Qed.

(** ** The gate itself *)

Lemma reconciled_gate b r : reconciled (gate b r) = b.
Proof.
  unfold gate. destruct (Bool.eqb _ _); [done|]. unfold queue_audit. by destruct (_ <? _).
Qed.
(** The runtime is outside registry, logs and consumers. *)
Lemma sane_runtime f s : sane s -> sane (set_sv_runtime f s).
Proof. intros []. by split. Qed.
Lemma gate_opens s :
  sane s -> enforced s -> matched (sv_db s) (sv_broker s) -> gate_ok (set_sv_runtime (gate true) s).
Proof. intros Hs Hen Hm. split; [by apply sane_runtime|]. by intros _. Qed.
Lemma gate_shuts s : sane s -> closed (set_sv_runtime (gate false) s).
Proof. intros _. unfold closed. simpl. apply reconciled_gate. Qed.

(** The reads and the first revocations of a request, under either gate. *)
Lemma keeps_gate_bind {A B} (m : M Service A) (f : A -> M Service B) s :
  gate_ok s -> keeps_gate s (snd (m s)) ->
  (forall a s1, m s = (Ok a, s1) -> gate_ok s1 -> gate_ok (snd (f a s1))) ->
  gate_ok (snd (bind m f s)).
Proof. intros Hg Hm Hf. apply Hm in Hg. unfold bind. destruct (m s) as [[a|e] s1]; auto. Qed.
Lemma revoke_logged_gate registrations l s :
  gate_ok s -> logged s l -> log_validate l registrations = Ok tt ->
  gate_ok (snd (revoke_logged moments l s)).
Proof.
  intros [Hs Hg] Hl Hv. destruct (reconciled (sv_runtime s)) eqn:Ho.
  - apply (still_gate s); [|split; [done|intros _; by apply Hg]]. apply revoke_logged_still. intros n Hn.
    by apply (proj1 (Hg eq_refl) l).
  - destruct (revoke_logged_onward moments ∅ l s Hs (covered_empty s)) as (Hs' & _ & _ & Hr).
    apply closed_gate_ok; [done|]. unfold closed. congruence.
Qed.

Lemma nonmutating_gate subject request s :
  mutating request = false -> gate_ok s ->
  gate_ok (snd ((let* registrations := read_registrations in
    let* revocations := read_revocations registrations in
    revoke_logged moments revocations ;;;
    let* active := gets (fun s => enrollment (sv_db s)) in
    let* body := dispatch moments k subject request registrations revocations active in
    when (mutating request) (
      reconcile_consumers moments ;;;
      runtime (gate true) ;;;
      let* m := moment moments in
      runtime (record_repair true (mo_instant m))) ;;;
    ret body) s)).
Proof.
  intros Hm Hg.
  apply keeps_gate_bind; [done|apply still_gate, read_registrations_still|].
  intros snap s1 _ Hg1.
  apply keeps_gate_bind; [done|apply still_gate, read_revocations_still|].
  intros l s2 Hread Hg2. pose proof (read_revocations_still snap s1 (sane_quiet _ (proj1 Hg1))) as Hst.
  apply read_revocations_Ok in Hread as Hlv; [|apply Hg1]. destruct Hlv as [Hl Hv].
  rewrite Hread in Hst. destruct Hst as (_ & _ & (Hlog & _) & _). simpl in Hlog.
  apply keeps_gate_bind; [done| |].
  { intros _. apply (revoke_logged_gate snap); [done| |done]. apply (logged_entry s1); [|done].
    unfold revocation_entry. by rewrite Hlog. }
  intros [] s3 _ Hg3. rewrite Hm. unfold bind at 1, gets.
  apply keeps_gate_bind; [done|by apply still_gate, dispatch_still|done].
Qed.
Lemma open_up_gate s :
  sane s -> enforced s -> matched (sv_db s) (sv_broker s) ->
  gate_ok (snd ((runtime (gate true) ;;;
    (let* m := moment moments in runtime (record_repair true (mo_instant m)))) s)).
Proof.
  intros Hs Hen Hm. unfold runtime at 1. unfold bind at 1, modify at 1.
  pose proof (gate_opens s Hs Hen Hm) as Hg.
  apply (still_gate (set_sv_runtime (gate true) s)); [|exact Hg].
  assert (keeps still (let* m := moment moments in runtime (record_repair true (mo_instant m)))) as Hk
    by keeps_auto. apply Hk.
Qed.

(** A request that went through: the gate is open, and [Q]. *)
Definition settled {A} (Q : A -> Service -> Prop) (p : result A * Service) : Prop :=
  gate_ok (snd p) /\
  (forall a, fst p = Ok a -> reconciled (sv_runtime (snd p)) = true /\ Q a (snd p)).
Lemma settled_bind {A B} (Q : B -> Service -> Prop) (m : M Service A) (f : A -> M Service B) s :
  sane s -> closed s -> onward ∅ s (snd (m s)) ->
  (forall a s1, m s = (Ok a, s1) -> sane s1 -> closed s1 -> evolves (sv_db s) (sv_db s1) ->
     revocation_entry s1 = revocation_entry s -> settled Q (f a s1)) ->
  settled Q (bind m f s).
Proof.
  intros Hs Hc Hon Hf. destruct (Hon Hs (covered_empty s)) as (Hs1 & He & Hr & Hg).
  unfold bind. destruct (m s) as [[a|e] s1]; simpl in *.
  - apply Hf; auto. unfold closed. congruence.
  - split; [|done]. apply closed_gate_ok; [done|]. unfold closed. simpl. congruence.
Qed.
Lemma open_up_settled (Q : unit -> Service -> Prop) s :
  sane s -> enforced s -> matched (sv_db s) (sv_broker s) ->
  (forall s', revocation_entry s' = revocation_entry s -> Q tt s') ->
  settled Q ((runtime (gate true) ;;;
    (let* m := moment moments in runtime (record_repair true (mo_instant m)))) s).
Proof.
  intros Hs Hen Hm HQ. split; [by apply open_up_gate|]. intros [] _. split; [|by apply HQ].
  simpl. apply reconciled_gate.
Qed.
(** A mutating request that finds the gate shut leaves it shut, unless it goes all
    the way through. *)
Lemma mutating_gate subject request s :
  mutating request = true -> sane s -> closed s ->
  settled (answer_logged request) ((let* registrations := read_registrations in
    let* revocations := read_revocations registrations in
    revoke_logged moments revocations ;;;
    let* active := gets (fun s => enrollment (sv_db s)) in
    let* body := dispatch moments k subject request registrations revocations active in
    when (mutating request) (
      reconcile_consumers moments ;;;
      runtime (gate true) ;;;
      let* m := moment moments in
      runtime (record_repair true (mo_instant m))) ;;;
    ret body) s).
Proof.
  intros Hmut Hs Hc. rewrite Hmut. apply settled_bind; [done..| |].
  { apply still_onward_at, read_registrations_still. }
  intros snap s1 Hread Hs1 Hc1 He1 Hr1. apply read_registrations_Ok in Hread as Hk; [|done].
  apply settled_bind; [done..| |]. { apply still_onward_at, read_revocations_still. }
  intros l s2 Hread2 Hs2 Hc2 He2 Hr2. apply read_revocations_Ok in Hread2 as [Hl Hv]; [|done].
  apply settled_bind; [done..| |]. { apply revoke_logged_onward. }
  intros [] s3 Hrev Hs3 Hc3 He3 Hr3.
  assert (enforced s3) as Hen.
  { apply (revoke_current moments l snap s2); [done|by eapply logged_entry|done| |done].
    by eapply known_evolves. }
  assert (known snap s3) as Hk3 by (do 2 (eapply known_evolves; [eassumption|]); done).
  unfold bind at 1, gets.
  destruct (dispatch_advanced subject request snap l (enrollment (sv_db s3)) s3)
    as (Hs4 & Hc4 & Hen4); [done..|apply (enrollment_covered false)|].
  unfold bind at 1. destruct (dispatch _ _ _ _ _ _ _ s3) as [[body|e] s4]; simpl in *;
    [|by split; [apply closed_gate_ok|]].
  destruct (Hen4 body eq_refl) as [Hen4' HQ].
  assert (forall m : M Service unit,
    settled (fun _ s' => answer_logged request body s') (m s4) ->
    settled (answer_logged request) ((m ;;; ret body) s4)) as Hret.
  { intros m [Hg Hok]. unfold bind. destruct (m s4) as [[u|e] s6]; [|done].
    split; [done|]. intros b [= <-]. by apply (Hok u). }
  apply Hret. apply settled_bind; [done..|apply reconcile_consumers_onward|].
  intros [] s5 Hrun Hs5 Hc5 He5 Hr5. apply open_up_settled; [done| | |].
  - eapply enforced_evolves; eauto.
  - eapply reconcile_consumers_Ok; [|exact Hrun]. apply sane_quiet, Hs4.
  - intros s6 Hr6 r Hreq Hb. destruct (HQ r Hreq Hb) as (l' & Hl' & Hin).
    exists l'. split; [|done]. eapply logged_entry; [|exact Hl']. congruence.
Qed.

Lemma control_allow_still subject : keeps still (control_allow moments subject).
Proof.
  unfold control_allow. apply keeps_bind; [apply _|keeps_auto|intros t].
  apply keeps_bind; [apply _|keeps_auto|intros m].
  assert (forall c v, keeps still (modify (set_sv_rates c v))) by (intros; by apply modify_still).
  case_bool_decide; destruct (allow _ _) as [b l]; keeps_auto.
Qed.
Lemma handle_gate subject payload s :
  gate_ok s -> gate_ok (snd (handle moments k subject payload s)).
Proof.
  intros Hg. unfold handle.
  assert (forall A (m : M Service A), keeps still m -> forall s, keeps_gate s (snd (m s))) as Hstill
    by (intros A m Hm t; apply still_gate, Hm).
  pose proof control_allow_still.
  apply keeps_gate_bind; [done|apply Hstill; keeps_auto|]. intros [] s1 _ Hg1.
  apply keeps_gate_bind; [done|apply Hstill; keeps_auto|]. intros [] s2 _ Hg2.
  apply keeps_gate_bind; [done|apply Hstill; keeps_auto|]. intros [] s3 _ Hg3.
  apply keeps_gate_bind; [done|apply Hstill; keeps_auto|]. intros [] s4 _ Hg4.
  apply keeps_gate_bind; [done|apply Hstill; keeps_auto|]. intros request s5 _ Hg5.
  destruct (mutating request) eqn:Hm.
  - pose proof (mutating_gate subject request (set_sv_runtime (gate false) s5) Hm
      (sane_runtime _ _ (proj1 Hg5)) (gate_shuts _ (proj1 Hg5))) as Hrest.
    rewrite Hm in Hrest. exact (proj1 Hrest).
  - pose proof (nonmutating_gate subject request s5 Hm Hg5) as Hrest.
    rewrite Hm in Hrest. exact Hrest.
Qed.

Lemma settled_still_bind {A B} (Q : B -> Service -> Prop) (m : M Service A) (f : A -> M Service B) s :
  gate_ok s -> keeps still m ->
  (forall a s1, m s = (Ok a, s1) -> gate_ok s1 -> settled Q (f a s1)) ->
  settled Q (bind m f s).
Proof.
  intros Hg Hm Hf. apply (still_gate _ _ (Hm s)) in Hg. unfold bind.
  destruct (m s) as [[a|e] s1]; simpl in *; [by apply Hf|by split].
Qed.

(** C16. A revocation the authority confirms is complete. When a control request that
    decodes to a revocation is answered [Revoked], the revocation is in the log
    in the broker, the device is revoked in the registry, cannot be authorized
    and is in no group, every consumer agrees with the registry, and only then
    the gate is open again. *)
Theorem revoked_reply_settled subject payload r s s' :
  gate_ok s -> decode payload = Ok (Body.Revoke r) ->
  handle moments k subject payload s = (Ok Body.Revoked, s') ->
  reconciled (sv_runtime s') = true /\
  (exists l, logged s' l /\ revoked_in r l) /\
  is_ok (authorize (rr_nkey r) (sv_db s')) = false /\
  (forall g, authorization_members (sv_db s') !! (g, rr_nkey r) = None) /\
  matched (sv_db s') (sv_broker s').
Proof.
  intros Hg Hd Hrun.
  assert (settled (answer_logged (Body.Revoke r)) (handle moments k subject payload s)) as Hset.
  { pose proof control_allow_still. unfold handle. rewrite Hd.
    apply settled_still_bind; [done|keeps_auto|]. intros [] s1 _ Hg1.
    apply settled_still_bind; [done|keeps_auto|]. intros [] s2 _ Hg2.
    apply settled_still_bind; [done|keeps_auto|]. intros [] s3 _ Hg3.
    apply settled_still_bind; [done|keeps_auto|]. intros [] s4 _ Hg4.
    apply settled_still_bind; [done|keeps_auto|]. intros request s5 [[= <-] ->]%lift_Ok Hg5.
    exact (mutating_gate subject (Body.Revoke r) (set_sv_runtime (gate false) s4) eq_refl
      (sane_runtime _ _ (proj1 Hg4)) (gate_shuts _ (proj1 Hg4))). }
  rewrite Hrun in Hset. destruct Hset as [[Hs Hopen] Hok].
  destruct (Hok Body.Revoked eq_refl) as [Ho Hl]. simpl in *.
  destruct (Hl r eq_refl eq_refl) as (l & Hlog & e & Hin & Hk).
  destruct (Hopen Ho) as [Hen Hm].
  destruct (Hen l (rr_nkey r) Hlog) as (row & Hrow & Hrev); [apply log_keys_elem; eauto|].
  split_and!; [done|by exists l; split; [|exists e]| | |apply Hm..].
  - by eapply authorize_revoked.
  - intros g. destruct (authorization_members _ !! _) as [lf|] eqn:Hmem; [|done].
    destruct (wf_members _ (sane_wf _ Hs) _ _ _ Hmem) as (_ & row' & Hrow' & Hact). congruence.
Qed.

(** ** Steps of the loop *)

Lemma gate_ok_calls cs dead s : gate_ok s -> Forall quiet cs -> gate_ok (set_sv_calls cs dead s).
Proof. intros [[Hwf Hlog _] Hg] Hq. split; [by split|done]. Qed.
Lemma within_gate {A} calls (m : M Service A) s :
  Forall quiet calls -> gate_ok s -> (forall t, gate_ok t -> gate_ok (snd (m t))) ->
  gate_ok (snd (within calls m s)).
Proof.
  intros Hq Hg Hm. unfold within.
  specialize (Hm _ (gate_ok_calls calls false s Hg Hq)). destruct (m _) as [r s1].
  by apply gate_ok_calls.
Qed.
(** A repair in its time: what its verdict means. *)
Lemma within_repaired calls s :
  Forall quiet calls -> sane s -> closed s ->
  let '(r, s') := within calls (repair_state moments k) s in
  sane s' /\ closed s' /\ is_ok r = true /\
  (r = Ok (Ok (Ok tt)) -> enforced s' /\ matched (sv_db s') (sv_broker s')).
Proof.
  intros Hq Hs Hc. unfold within.
  assert (sane (set_sv_calls calls false s)) as Hs0 by (destruct Hs; by split).
  destruct (repair_state_repaired (set_sv_calls calls false s) Hs0 Hc) as (Hs1 & Hc1 & Hok).
  destruct (repair_state _ _ _) as [r s1]. simpl in *.
  split; [destruct Hs1; by split|]. split_and!; [done|done|].
  destruct (sv_cancelled s1); [done|]. destruct r as [[]|e]; [|done]. intros _. by apply (Hok tt).
Qed.
Lemma verdict_gate s good now :
  sane s -> closed s -> (good = true -> enforced s /\ matched (sv_db s) (sv_broker s)) ->
  gate_ok (snd ((runtime (record_repair good now) ;;; when good (runtime (gate true))) s)).
Proof.
  intros Hs Hc Hok.
  assert (gate_ok (set_sv_runtime (record_repair good now) s)) as Hrec.
  { apply (still_gate s); [apply (record_repair_still good now)|by apply closed_gate_ok]. }
  destruct good; [|exact Hrec]. destruct (Hok eq_refl).
  unfold bind, runtime, modify. simpl. apply gate_opens; [by apply sane_runtime|done|done].
Qed.
Lemma reopened_gate s now :
  sane s -> enforced s -> matched (sv_db s) (sv_broker s) ->
  gate_ok (snd ((runtime (gate true) ;;; runtime (record_repair true now)) s)).
Proof.
  intros. apply (still_gate (set_sv_runtime (gate true) s)); [|by apply gate_opens].
  apply (record_repair_still true now).
Qed.
Lemma moment_run s : moment moments s = (Ok (moments (sv_moment s)), set_sv_moment (S (sv_moment s)) s).
Proof. done. Qed.
Lemma sane_moment n s : sane s -> sane (set_sv_moment n s).
Proof. intros []. by split. Qed.

Lemma repair_gate_gate calls s :
  Forall quiet calls -> sane s -> closed s -> gate_ok (snd (repair_gate moments k calls s)).
Proof.
  intros Hq Hs Hc. unfold repair_gate. pose proof (within_repaired calls s Hq Hs Hc) as Hw.
  unfold bind at 1. destruct (within calls _ s) as [r s1]. destruct Hw as (Hs1 & Hc1 & Hr & Hok).
  destruct r as [verdict|e]; [|done].
  unfold bind at 1. rewrite moment_run. apply verdict_gate; [by apply sane_moment|done|].
  intros Hgood. destruct verdict as [[[]|]|]; try discriminate. by apply Hok.
Qed.
Lemma repair_tick_gate calls s :
  Forall quiet calls -> gate_ok s -> gate_ok (snd (repair_tick moments k calls s)).
Proof.
  intros Hq Hg. unfold repair_tick. unfold bind at 1, gets.
  destruct (reconciled (sv_runtime s)) eqn:Hc; [done|]. destruct Hg as [Hs _].
  pose proof (within_repaired calls s Hq Hs Hc) as Hw.
  unfold bind at 1. destruct (within calls _ s) as [r s1]. destruct Hw as (Hs1 & Hc1 & Hr & Hok).
  destruct r as [verdict|e]; [|done].
  unfold bind at 1. rewrite moment_run.
  destruct verdict as [[[]|]|]; try by
    (apply (verdict_gate _ false); [by apply sane_moment|done|done]).
  destruct (Hok eq_refl). by apply reopened_gate; [apply sane_moment|..].
Qed.

Lemma answer_body_still response : keeps still (answer_body moments response).
Proof.
  assert (forall d, keeps still (modify (set_sv_denials d))) by (intros; by apply modify_still).
  pose proof observe_registry.
  unfold answer_body. keeps_auto.
Qed.
Lemma control_step_gate subject payload calls repair_calls s :
  Forall quiet calls -> Forall quiet repair_calls -> gate_ok s ->
  gate_ok (snd (control_step moments k subject payload calls repair_calls s)).
Proof.
  intros Hq Hq' Hg. unfold control_step.
  apply keeps_gate_bind; [done|apply still_gate, control_still|]. intros [] s1 _ Hg1.
  apply keeps_gate_bind; [done| |].
  { intros _. apply within_gate; [done..|]. intros t. apply handle_gate. }
  intros response s2 _ Hg2. unfold bind at 1, gets.
  apply keeps_gate_bind; [done| |].
  { intros _. destruct (reconciled (sv_runtime s2)) eqn:Hc; [done|].
    apply repair_gate_gate; [done|apply Hg2|done]. }
  intros [] s3 _ Hg3.
  apply keeps_gate_bind; [done|apply still_gate, answer_body_still|].
  intros body s4 _ Hg4. by destruct (encode body).
Qed.

Lemma audit_batch_registry cap evs : keeps same_registry (audit_batch cap evs).
Proof.
  unfold audit_batch. keeps_auto. apply keeps_transaction; [apply _|done|]. keeps_all.
Qed.
Lemma observe_tick_still ds t0 t1 t2 t3 : keeps still (observe_tick ds t0 t1 t2 t3).
Proof.
  intros s. unfold observe_tick, bind at 1, gets. unfold refresh, flush_queue.
  set (cap := reg_capacity _).
  assert (forall (r : Runtime) db, same_registry (sv_db s) db -> reconciled r = reconciled (sv_runtime s) ->
    still s (snd (modify (fun s0 => set_sv_registry (set_reg_db db (sv_registry s0))
                            (set_sv_runtime (fun _ => r) s0)) s))) as Hgo.
  { intros r db Hdb Hr Hq. by split_and!. }
  assert (forall db, same_registry (sv_db s) db ->
    same_registry (sv_db s) (snd (diagnostic_usage cap db))) as Huse.
  { intros db Hdb. etrans; [exact Hdb|].
    assert (keeps same_registry (diagnostic_usage cap)) as Hk; [|apply Hk].
    unfold diagnostic_usage. apply keeps_transaction; [apply _|done|]. keeps_auto. }
  case_bool_decide.
  - specialize (Huse (sv_db s) (reflexivity _)). destruct (diagnostic_usage _ _) as [u db2].
    by apply Hgo.
  - pose proof (audit_batch_registry cap (imap (fun i ev => (ev, ds i)) (drained (sv_runtime s)))
      (sv_db s)) as Hb.
    destruct (audit_batch _ _ _) as [[x|e] db1]; simpl in Hb;
      specialize (Huse db1 Hb); destruct (diagnostic_usage _ _) as [u db2]; by apply Hgo.
Qed.

(** ** Start-up *)

Lemma shut_bind {A B} (m : M Service A) (f : A -> M Service B) s :
  sane (snd (m s)) /\ closed (snd (m s)) ->
  (forall a s1, m s = (Ok a, s1) -> sane s1 -> closed s1 -> gate_ok (snd (f a s1))) ->
  gate_ok (snd (bind m f s)).
Proof.
  intros [Hs Hc] Hf. unfold bind. destruct (m s) as [[a|e] s1]; [auto|by apply closed_gate_ok].
Qed.
Lemma initialize_log_read registrations during kv :
  during kv = kv -> read (snd (initialize_log registrations k during kv)) = read kv.
Proof.
  intros Hd. unfold initialize_log. destruct (kv_entries kv !! "revocations") eqn:He; [done|].
  destruct (rbind _ _); [|done]. simpl. rewrite Hd. unfold kv_create. rewrite He.
  unfold read. simpl. by rewrite lookup_insert_ne.
Qed.
Definition initialize_revocations (registrations : Snapshot) : M Service unit :=
  call (fun env b =>
    let during := match env with a :: _ => interference a | [] => id end in
    let '(res, kv) := initialize_log registrations k during (b_log b) in (res, set_log kv b)).
Lemma initialize_revocations_shut registrations s :
  sane s -> closed s ->
  let s' := snd (initialize_revocations registrations s) in
  sane s' /\ closed s' /\ sv_registry s' = sv_registry s.
Proof.
  intros [Hwf Hlog Hq] Hc. unfold initialize_revocations, call.
  destruct (sv_calls s) as [|c cs]; [by split_and!|].
  apply Forall_cons_1 in Hq as [[Hm Ht] Hcs]. destruct (Hm (sv_broker s)) as (Hl & _).
  assert (forall s', sv_registry s' = sv_registry s -> sv_runtime s' = sv_runtime s ->
    read (b_log (sv_broker s')) = read (b_log (sv_broker s)) ->
    Forall quiet (sv_calls s') -> sane s' /\ closed s' /\ sv_registry s' = sv_registry s) as Hgo.
  { intros s' Hreg Hrt Hread Hq'. split; [|unfold closed; by rewrite Hrt].
    split; [by unfold sv_db; rewrite Hreg| |done].
    split; [|done]. rewrite Hread. unfold has_device, sv_db. rewrite Hreg. apply Hlog. }
  cbv zeta. destruct (delivered c).
  2: { by apply (Hgo (set_sv_broker (meddle c (sv_broker s)) (set_sv_calls cs (sv_cancelled s) s)));
       simpl; rewrite ?Hl. }
  pose proof (initialize_log_read registrations _ (b_log (sv_broker s))
    (first_during (b_log (sv_broker s)) _ Ht)) as Hread.
  rewrite Hl. destruct (initialize_log _ _ _ _) as [res kv].
  by apply (Hgo (set_sv_broker (set_log kv (meddle c (sv_broker s)))
                  (set_sv_calls cs (sv_cancelled s) s))).
Qed.

Lemma startup_gate s : sane s -> closed s -> gate_ok (snd (startup moments k s)).
Proof.
  intros Hs Hc. unfold startup, announce, restore_state.
  rewrite bind_assoc. apply gate_bind; [done..|apply still_onward_at, moment_still|]. intros m s1 _ Hs1 Hc1 _ _.
  apply gate_bind; [done..| |].
  { apply still_onward_at, with_db_still. eauto with keeps. }
  intros [] s2 _ Hs2 Hc2 _ _. rewrite bind_assoc. unfold bind at 1, gets.
  set (E := historical_enrollment (sv_db s2)).
  assert (covered E s2) as Hcov by apply (enrollment_covered true).
  rewrite bind_assoc. apply gate_bind; [done..| |].
  { eapply onward_empty; [exact Hcov|]. by apply reconcile_onward. }
  intros [] s3 _ Hs3 Hc3 He3 _. eapply evolves_covered in Hcov; [|exact He3].
  rewrite bind_assoc. apply gate_bind; [done..|apply still_onward_at, read_registrations_still|].
  intros snap s4 Hread Hs4 Hc4 He4 _. eapply evolves_covered in Hcov; [|exact He4].
  apply read_registrations_Ok in Hread as Hk; [|done].
  destruct (initialize_revocations_shut snap s4 Hs4 Hc4) as (Hs5 & Hc5 & Hreg5).
  rewrite bind_assoc. apply shut_bind; [by split|]. intros [] s5 Hi _ _.
  change (initialize_revocations snap s4 = (Ok tt, s5)) in Hi. rewrite Hi in Hs5, Hc5, Hreg5.
  simpl in Hs5, Hc5, Hreg5.
  assert (sv_db s5 = sv_db s4) as Hdb by (unfold sv_db; by rewrite Hreg5).
  assert (known snap s5) as Hk5 by (intros e He; unfold has_device; rewrite Hdb; by apply Hk).
  assert (covered E s5) as Hcov5 by (intros ep n Hn; unfold has_device; rewrite Hdb; by eapply Hcov).
  rewrite bind_assoc. apply gate_bind; [done..|apply still_onward_at, read_revocations_still|].
  intros l s6 Hread6 Hs6 Hc6 He6 Hr6. apply read_revocations_Ok in Hread6 as [Hl Hv]; [|done].
  eapply evolves_covered in Hcov5; [|exact He6].
  rewrite bind_assoc. apply gate_bind; [done..|apply revoke_logged_onward|].
  intros [] s7 Hrev Hs7 Hc7 He7 Hr7. eapply evolves_covered in Hcov5; [|exact He7].
  assert (enforced s7) as Hen.
  { apply (revoke_current moments l snap s6); [done|by eapply logged_entry|done| |done].
    by eapply known_evolves. }
  rewrite bind_assoc. apply gate_bind; [done..|eapply onward_empty; [exact Hcov5|apply project_all_onward]|].
  intros [] s8 _ Hs8 Hc8 He8 Hr8. eapply enforced_evolves in Hen; [|exact He8|exact Hr8].
  apply gate_bind; [done..|apply reconcile_consumers_onward|].
  intros [] s9 Hrun Hs9 Hc9 He9 Hr9. apply open_up_gate; [done| |].
  - by eapply enforced_evolves.
  - eapply reconcile_consumers_Ok; [|exact Hrun]. apply sane_quiet, Hs8.
Qed.

Definition quiet_op (o : authority_op) : Prop :=
  match o with
  | OpStart _ _ calls | OpTick calls => Forall quiet calls
  | OpControl _ _ calls repair_calls => Forall quiet calls /\ Forall quiet repair_calls
  | OpObserve _ _ _ _ _ => True
  end.
Lemma run_authority_op_gate o s :
  quiet_op o -> gate_ok s -> gate_ok (run_authority_op moments k o s).
Proof.
  intros Hq Hg. destruct o as [random t calls|subject payload calls repair_calls|calls|ds t0 t1 t2 t3];
    simpl in *.
  - unfold within.
    assert (gate_ok (snd (startup moments k (set_sv_calls calls false (boot random t s))))) as Hst.
    { apply startup_gate; [|done]. destruct Hg as [[Hwf Hlog _] _]. by split. }
    destruct (startup _ _ _) as [r s1]. by apply gate_ok_calls.
  - destruct Hq. by apply control_step_gate.
  - by apply repair_tick_gate.
  - apply (still_gate s); [apply observe_tick_still|done].
Qed.

(** C3. The admission gate is sound. Take the authority through any history of
    starts, control requests, repair ticks and observations, in which the broker
    may lose requests and answers, deadlines may cut any operation short, the
    audit trail may fail and processes may be restarted, and nobody but the
    authority writes the log and the consumers. Whenever the gate is open, every
    revocation of the log in the broker is in force in the registry; every
    enrolled device has a mailbox consumer for its own subject only and a CHAT
    consumer for the subjects of exactly its groups; a device no longer enrolled
    has no consumer at all; and the registry is consistent. *)
Theorem gate_open_sound ops s :
  registry_wf (sv_db s) ->
  (forall snap e, read (b_log (sv_broker s)) = Ok snap -> e ∈ entries snap ->
     has_device s (nats_public_key (payload e))) ->
  sv_calls s = [] -> closed s -> Forall quiet_op ops ->
  let s' := run_authority moments k ops s in
  reconciled (sv_runtime s') = true ->
  registry_wf (sv_db s') /\
  (forall l n, logged s' l -> n ∈ log_keys l -> revoked_row (sv_db s') n) /\
  (forall ep n, enrollment (sv_db s') !! ep = Some n -> mailbox_matches (sv_broker s') ep n) /\
  (forall ep n, historical_enrollment (sv_db s') !! ep = Some n ->
     consumer_matches (sv_db s') (sv_broker s') n).
Proof.
  intros Hwf Hlog Hcalls Hc Hq s'.
  assert (gate_ok s') as [Hs Hg].
  { assert (gate_ok s) as Hg.
    { apply closed_gate_ok; [|done]. split; [done| |by rewrite Hcalls]. split; [|done].
      intros snap Hr e He. by eapply Hlog. }
    clear Hwf Hlog Hcalls Hc. subst s'. unfold run_authority. revert s Hg.
    induction Hq as [|o ops Ho Hops IH]; intros s Hg; simpl; [done|].
    by apply IH, run_authority_op_gate. }
  intros Ho. destruct (Hg Ho) as (Hen & Hmb & Hch). split; [apply Hs|]. by split_and!.
Qed.
End facts.
