(* ===== verification/Trust.v ===== *)
(** * Trust on first use

    [crates/epochgrid-core/src/trust.rs]: the device's pins of other devices'
    fingerprints and of the directory key, explicit verification, and the
    acceptance of a checkpoint; and the client's [audit] of
    [transparency.rs], which brings both logs in. *)
From stdpp Require Import sorting.
From S2P Require Import Prelude External Wire Capacity Identity KvStore Merkle Transparency Mls ClientDb IdentityStore Revocation.

Definition FingerprintTuple : Type := (Z * string * string * string * bytes * bytes)%type.

(* @src core/trust.rs 14-21 DeviceTrust *)
Record DeviceTrust : Type := {
  dt_user : string;
  dt_device : string;
  dt_fingerprint : string;
  dt_latest : string;
  dt_state : string;
}.

(** [{b:02X}] of every byte. *)
Definition hex_digit_upper (n : N) : ascii :=
  if (n <? 10)%N then ascii_of_N (48 + n) else ascii_of_N (55 + n).
Fixpoint hex_bytes_upper (l : bytes) : string :=
  match l with
  | [] => EmptyString
  | b :: r => String (hex_digit_upper (Byte.to_N b / 16))
                (String (hex_digit_upper (Byte.to_N b mod 16)) (hex_bytes_upper r))
  end.

(** [chunks(4)] joined by spaces. *)
(* @src core/trust.rs 47-54 display_fingerprint *)
Fixpoint display_fingerprint (s : string) : string :=
  match s with
  | String a (String b (String c (String d (String _ _ as r)))) =>
      String a (String b (String c (String d (String " " (display_fingerprint r)))))
  | _ => s
  end.

(** [char::is_ascii_whitespace] and [to_ascii_uppercase]. *)
Definition is_ascii_whitespace (c : ascii) : bool :=
  existsb (fun n => (N_of_ascii c =? n)%N) [9; 10; 12; 13; 32]%N.
Definition ascii_upper (c : ascii) : ascii :=
  if is_ascii_lowercase c then ascii_of_N (N_of_ascii c - 32) else c.
Fixpoint filter_string (p : ascii -> bool) (s : string) : string :=
  match s with
  | EmptyString => EmptyString
  | String c r => if p c then String c (filter_string p r) else filter_string p r
  end.
Fixpoint map_string (f : ascii -> ascii) (s : string) : string :=
  match s with
  | EmptyString => EmptyString
  | String c r => String (f c) (map_string f r)
  end.

Section trust.
Context `{NKeys} `{MlsPackages} `{Sha256} `{Postcard Envelope} `{Postcard RegistrationPayload}
  `{Postcard CheckpointTuple} `{Postcard RequestTuple} `{Postcard Revocation}
  `{Postcard FingerprintTuple}.

(* @src core/trust.rs 22-46 fingerprint *)
Definition fingerprint (r : DeviceRegistration) : result string :=
  verify_signature r ;;?
  let p := payload r in
  let? package := ok_or (unverified_package (mls_key_package p)) External in
  check (bool_decide (package_credential package = mls_credential p))
    "fingerprint credential mismatch" ;;?
  let? b := to_allocvec (protocol_version p, user_id p, device_id p, nats_public_key p,
                         mls_credential p, package_signature_key package) in
  let? h := hash (as_bytes "EpochGrid device fingerprint v1" ++ [x00] ++ b) in
  Ok (hex_bytes_upper h).

Context {St : Type} `{Pages (ClientDb St)} `{Postcard Checkpoint} `{Postcard DeviceRegistration}
  (capacity : Capacity).
Implicit Types (d : ClientDb St).

(* @src core/trust.rs 76-78 device_trust *)
Definition device_trust (user device : string) d : option DeviceTrust :=
  (fun r => {| dt_user := user; dt_device := device; dt_fingerprint := pinned r;
               dt_latest := latest r; dt_state := trust_state r |})
    <$> (device_trust_t (trust d) !! (user, device)).

(** Whether the observation contradicts the pin. *)
(* @src core/trust.rs 82-98 observe_device (transaction) *)
Definition observe (user device fp : string) : M (ClientDb St) bool :=
  let* previous := gets (device_trust user device) in
  match previous with
  | Some previous =>
      if bool_decide (dt_state previous = "changed") && bool_decide (dt_fingerprint previous = fp)
      then ret true
      else if negb (bool_decide (dt_fingerprint previous = fp))
              || bool_decide (dt_state previous = "changed")
      then modify (set_trust (set_device_trust (update_where
             (fun k _ => bool_decide (k = (user, device)))
             (fun r => {| pinned := pinned r; latest := fp; trust_state := "changed" |})))) ;;;
           ret true
      else ret false
  | None =>
      let* retained := gets (fun d => table_size (device_trust_t (trust d))) in
      ensure (retained <? 256) "capacity exhausted: retained trust bindings" ;;;
      modify (set_trust (set_device_trust (insert (user, device)
        {| pinned := fp; latest := fp; trust_state := "unverified" |}))) ;;;
      ret false
  end.

(* @src core/trust.rs 79-106 observe_device *)
Definition observe_device (r : DeviceRegistration) : M (ClientDb St) unit :=
  let* fp := lift (fingerprint r) in
  let p := payload r in
  let* changed := recovery_transaction capacity (observe (user_id p) (device_id p) fp) in
  ensure (negb changed) ("DEVICE IDENTITY CHANGED: " +:+ user_id p +:+ "/" +:+ device_id p
                         +:+ "; operation blocked; inspect device fingerprint").

(* @src core/trust.rs 109-113 verify_device (expected) *)
Definition normalized (expected : string) : string :=
  map_string ascii_upper (filter_string (fun c => negb (is_ascii_whitespace c)) expected).
(* @src core/trust.rs 107-134 verify_device *)
Definition verify_device (user device expected : string) : M (ClientDb St) unit :=
  let expected := normalized expected in
  ensure ((slen expected =? 64) && string_all is_ascii_hexdigit expected)
    "supply the complete 64-digit fingerprint from an independent channel" ;;;
  let* o := gets (device_trust user device) in
  let* observed := lift (ok_or o (Anyhow "device not observed; look it up first")) in
  ensure (negb (bool_decide (dt_state observed = "changed")))
    "changed identity is blocked; replacement authorization is not implemented" ;;;
  ensure (bool_decide (dt_fingerprint observed = expected))
    "fingerprint does not match observed device; verification refused" ;;;
  modify (set_trust (set_device_trust (update_where
    (fun k _ => bool_decide (k = (user, device)))
    (fun r => {| pinned := pinned r; latest := latest r; trust_state := "verified" |})))).

(* @src core/trust.rs 135-144 directory_key *)
Definition directory_key d : option string := fst <$> transparency_state (trust d).

(* @src core/trust.rs 145-158 checkpoint *)
Definition stored_checkpoint d : result (option Checkpoint) :=
  match (transparency_state (trust d)) ≫= snd with
  | None => Ok None
  | Some b => let? cp := from_bytes b in Ok (Some cp)
  end.

(* @src core/trust.rs 159-179 pin_directory *)
Definition pin_directory (signer : string) : M (ClientDb St) unit :=
  ensure (starts_with "U" signer) "directory user NKey required" ;;;
  let* _ := lift (key_pair_type signer) in
  let* previous := gets directory_key in
  ensure (match previous with Some p => bool_decide (p = signer) | None => true end)
    "directory key already pinned; refusing replacement" ;;;
  modify (set_trust (set_transparency (fun t => match t with
                                                | Some _ => t
                                                | None => Some (signer, None)
                                                end))).

(* @src core/trust.rs 180-195 accept_checkpoint *)
Definition accept_checkpoint (s : Snapshot) : M (ClientDb St) unit :=
  lift (Transparency.validate s) ;;;
  pin_directory (cp_signer (checkpoint s)) ;;;
  for_each (entries s) observe_device ;;;
  let* r := gets stored_checkpoint in
  let* previous := lift r in
  match previous with
  | Some previous => lift (extends s previous)
  | None => ret tt
  end ;;;
  let* b := lift (to_allocvec (checkpoint s)) in
  modify (set_trust (set_transparency (fmap (fun '(signer, _) => (signer, Some b))))).

(* @src core/trust.rs 196-200 transparency_failure *)
Definition transparency_failure (message : string) : M (ClientDb St) unit :=
  modify (set_trust (set_alert (Some message))).
(* @src core/trust.rs 234-237 clear_transparency_warning *)
Definition clear_transparency_warning : M (ClientDb St) unit :=
  modify (set_trust (set_alert None)).

(** [ORDER BY user,device LIMIT 1]. *)
Definition by_name (a b : string * string) : bool :=
  if decide (fst a = fst b) then string_leb (snd a) (snd b) else string_leb (fst a) (fst b).
Definition first_changed d : option (string * string) :=
  fold_right (fun '(k, r) m =>
      if bool_decide (trust_state r = "changed")
      then match m with Some k' => if by_name k k' then Some k else m | None => Some k end
      else m) None (map_to_list (device_trust_t (trust d))).

(** [{blocked}] of a count. *)
Fixpoint decimal (fuel : nat) (n : Z) (acc : string) : string :=
  match fuel with
  | O => acc
  | S fuel =>
      let acc := String (ascii_of_N (48 + Z.to_N (n mod 10))) acc in
      if n <? 10 then acc else decimal fuel (n / 10) acc
  end.
Definition show (n : Z) : string := decimal 20 n EmptyString.

(* @src core/trust.rs 201-233 trust_warning *)
Definition trust_warning d : option string :=
  if match registration d with
     | Ok identity => is_revoked (nats_public_key (payload identity)) d
     | Err _ => false
     end
  then Some "DEVICE REVOKED: revocation recorded; new sends are disabled"
  else match first_changed d with
  | Some (user, device) =>
      Some ("DEVICE IDENTITY CHANGED: " +:+ user +:+ "/" +:+ device
            +:+ "; new invitations blocked")
  | None =>
      match trust_alert (trust d) with
      | Some alert => Some alert
      | None =>
          let blocked := Z.of_nat (size (blocked_outbox (revocations d))) in
          if 0 <? blocked
          then Some (show blocked +:+ " queued messages blocked after revocation; retained locally, resend after rekey")
          else None
      end
  end.

(** ** The client's audit

    [snapshot_reply] and [log_reply] are the payloads of the two replies. *)
Definition error_text (e : error) : string := match e with Anyhow m => m | _ => "error" end.

(* @src core/transparency.rs 202-218 audit (checks) *)
Definition audit_inner (snapshot_reply log_reply : result bytes) : M (ClientDb St) Snapshot :=
  let* b := lift snapshot_reply in
  let* snapshot := lift (decode_snapshot b) in
  let* b := lift log_reply in
  let* body := lift (decode b) in
  match body with
  | Body.RevocationLog revocations =>
      lift (log_validate revocations snapshot) ;;;
      accept_checkpoint snapshot ;;;
      accept_revocations capacity revocations snapshot ;;;
      clear_transparency_warning ;;;
      ret snapshot
  | _ => fail (Anyhow "revocation audit missing; upgrade service")
  end.
(* @src core/transparency.rs 198-224 audit *)
Definition audit (snapshot_reply log_reply : result bytes) : M (ClientDb St) Snapshot := fun d =>
  match audit_inner snapshot_reply log_reply d with
  | (Ok s, d') => (Ok s, d')
  | (Err e, d') =>
      (transparency_failure ("TRANSPARENCY FAILURE: " +:+ error_text e) ;;; fail e) d'
  end.

(* @src core/transparency.rs 225-246 lookup *)
Definition lookup (snapshot_reply log_reply : result bytes) (user device : string)
  : M (ClientDb St) DeviceRegistration :=
  lift (validate_id user) ;;;
  lift (validate_id device) ;;;
  let* snapshot := audit snapshot_reply log_reply in
  let* record := lift (ok_or (find_record snapshot user device)
                        (Anyhow "device not found in authenticated registration log")) in
  let* revoked := gets (is_revoked (nats_public_key (payload record))) in
  ensure (negb revoked) "device is revoked" ;;;
  lift (verify record) ;;;
  observe_device record ;;;
  ret record.

(** The records are verified in log order and then sorted. *)
(* @src core/transparency.rs 247-265 devices *)
Definition user_devices (snapshot_reply log_reply : result bytes) (user : string)
  : M (ClientDb St) (list DeviceRegistration) :=
  lift (validate_id user) ;;;
  let* snapshot := audit snapshot_reply log_reply in
  for_each (List.filter (fun r => bool_decide (user_id (payload r) = user)) (entries snapshot))
    (fun record => lift (verify record) ;;; observe_device record) ;;;
  ret (user_records snapshot user).
End trust.
