(* ===== verification/TrustFacts.v ===== *)
(** * Properties of the device's trust evidence

    Pins, contradictions, verifications and revocations only accumulate, a
    device counts as verified only after its user compared the pinned
    fingerprint, and the logs a device accepts extend one another. *)
From S2P Require Import Prelude External Wire Capacity Identity KvStore Merkle Transparency TransparencyFacts Mls ClientDb IdentityStore Revocation RevocationFacts Trust.

Section facts.
Context `{NKeys} `{MlsPackages} `{Sha256} `{Postcard Envelope} `{Postcard RegistrationPayload}
  `{Postcard CheckpointTuple} `{Postcard RequestTuple} `{Postcard Revocation}
  `{Postcard FingerprintTuple}.
Context {St : Type} `{Pages (ClientDb St)} `{Postcard Checkpoint} (capacity : Capacity).
Implicit Types (d : ClientDb St).

(** ** A relation every operation keeps

    What has to be shown of a relation once for the statements on the tables;
    the operations follow. *)
Section operations.
Context (R : ClientDb St -> ClientDb St -> Prop) `{!PreOrder R}.
Hypothesis R_same : forall d d',
  device_trust_t (trust d') = device_trust_t (trust d) ->
  transparency_state (trust d') = transparency_state (trust d) ->
  revocations d' = revocations d ->
  local_identity d' = local_identity d -> chat d' = chat d -> events d' = events d -> R d d'.
Hypothesis R_pin : forall signer d, R d (set_trust (set_transparency (fun t =>
  match t with Some _ => t | None => Some (signer, None) end)) d).
Hypothesis R_observe : forall user device fp, keeps R (observe user device fp).

Lemma budget_keeps {A} recovery (action : M (ClientDb St) A) :
  keeps R action -> keeps R (transaction_budget capacity recovery action).
Proof. apply keeps_transaction_budget; [done|..]; intros ? d; by apply R_same. Qed.

Lemma observe_device_keeps r : keeps R (observe_device capacity r).
Proof. unfold observe_device. keeps_auto. by apply budget_keeps. Qed.

Lemma pin_directory_keeps signer : keeps R (pin_directory signer).
Proof. unfold pin_directory. keeps_auto. by apply keeps_modify. Qed.

Lemma accept_checkpoint_keeps s :
  (forall b d, R d (set_trust (set_transparency
     (fmap (fun '(signer, _) => (signer, Some b)))) d)) ->
  keeps R (accept_checkpoint capacity s).
Proof.
  intros R_checkpoint.
  unfold accept_checkpoint. keeps_auto.
  - apply pin_directory_keeps.
  - apply keeps_for_each; [done|apply observe_device_keeps].
  - by apply keeps_modify.
Qed.

Lemma accept_revocations_keeps l registrations :
  (forall l d, R d (set_revocations (set_revoked (fun l0 => l0 ++ l)) d)) ->
  (forall c d, R d (set_revocations (set_revocation_checkpoint c) d)) ->
  keeps R (accept_revocations capacity l registrations).
Proof.
  intros R_revoked R_set.
  unfold accept_revocations. keeps_auto. apply budget_keeps. keeps_auto.
  - apply keeps_for_each; [done|]. intros e. unfold record_revocation, insert_revoked. keeps_auto.
    apply keeps_modify. intros d.
    destruct (existsb (fun '(k, _) => bool_decide (k = rr_nkey (request e)))
                (revoked_devices (revocations d))) eqn:He.
    + apply R_same; try done. simpl. unfold set_revoked. rewrite He. by destruct (revocations d).
    + eassert (set_revocations _ d = _) as ->; [|apply R_revoked].
      unfold set_revocations, set_revoked. by rewrite He.
  - apply keeps_modify. intros d. apply R_set.
Qed.

Lemma alert_keeps a : keeps R (modify (S:=ClientDb St) (set_trust (set_alert a))).
Proof. apply keeps_modify. intros d. by apply R_same. Qed.

Hypothesis R_accept : forall s, keeps R (accept_checkpoint capacity s).
Hypothesis R_revocations : forall l s, keeps R (accept_revocations capacity l s).

Lemma audit_keeps r1 r2 : keeps R (audit capacity r1 r2).
Proof.
  intros d. unfold audit. assert (keeps R (audit_inner capacity r1 r2)) as Hk.
  { unfold audit_inner. keeps_auto;
      first [apply R_accept | apply R_revocations | apply alert_keeps]. }
  specialize (Hk d). destruct (audit_inner capacity r1 r2 d) as [[s|e] d']; [done|].
  etrans; [exact Hk|]. apply (alert_keeps (Some ("TRANSPARENCY FAILURE: " +:+ error_text e)) d').
Qed.

Lemma lookup_keeps r1 r2 user device : keeps R (Trust.lookup capacity r1 r2 user device).
Proof.
  unfold Trust.lookup. keeps_auto; [apply audit_keeps|apply observe_device_keeps].
Qed.
Lemma user_devices_keeps r1 r2 user : keeps R (user_devices capacity r1 r2 user).
Proof.
  unfold user_devices. keeps_auto; [apply audit_keeps|].
  apply keeps_for_each; [done|]. intros r. keeps_auto. apply observe_device_keeps.
Qed.
End operations.

(** ** Evidence only accumulates *)

Definition pin_kept (r r' : TrustRow) : Prop :=
  pinned r' = pinned r /\ (trust_state r = "changed" -> trust_state r' = "changed").
Definition pins_kept d d' : Prop :=
  forall k r, device_trust_t (trust d) !! k = Some r ->
    exists r', device_trust_t (trust d') !! k = Some r' /\ pin_kept r r'.
Definition directory_kept d d' : Prop :=
  forall s, directory_key d = Some s -> directory_key d' = Some s.
Definition revoked_kept d d' : Prop :=
  revoked_devices (revocations d) `prefix_of` revoked_devices (revocations d').
Definition evidence_kept d d' : Prop :=
  pins_kept d d' /\ directory_kept d d' /\ revoked_kept d d'.

#[global] Instance evidence_kept_preorder : PreOrder evidence_kept.
Proof.
  split.
  - intros d. split_and!; [|by intros s|unfold revoked_kept; done].
    intros k r Hr. exists r. split; [done|]. by split.
  - intros a b c (P1 & D1 & R1) (P2 & D2 & R2). split_and!; [|by intros s Hs; apply D2, D1|].
    + intros k r Hr. destruct (P1 _ _ Hr) as (r1 & Hr1 & E1 & C1).
      destruct (P2 _ _ Hr1) as (r2 & Hr2 & E2 & C2). exists r2. split; [done|].
      split; [congruence|auto].
    + unfold revoked_kept in *. by etrans.
Qed.

Lemma evidence_frame d d' :
  device_trust_t (trust d') = device_trust_t (trust d) -> directory_kept d d' ->
  revoked_kept d d' -> evidence_kept d d'.
Proof.
  intros Ht Hs Hr. split_and!; [|done..]. intros k r Hk. exists r. rewrite Ht. split; [done|]. by split.
Qed.
Lemma evidence_same d d' :
  device_trust_t (trust d') = device_trust_t (trust d) ->
  transparency_state (trust d') = transparency_state (trust d) ->
  revocations d' = revocations d -> evidence_kept d d'.
Proof.
  intros Ht Hs Hr. apply evidence_frame; [done| |unfold revoked_kept; by rewrite Hr].
  intros s. unfold directory_key. by rewrite Hs.
Qed.
Lemma evidence_pin signer d : evidence_kept d (set_trust (set_transparency (fun t =>
  match t with Some _ => t | None => Some (signer, None) end)) d).
Proof.
  apply evidence_frame; [done| |unfold revoked_kept; done]. intros s. unfold directory_key. simpl.
  by destruct (transparency_state (trust d)).
Qed.
Lemma evidence_checkpoint b d : evidence_kept d (set_trust (set_transparency
  (fmap (fun '(signer, _) => (signer, Some b)))) d).
Proof.
  apply evidence_frame; [done| |unfold revoked_kept; done]. intros s. unfold directory_key. simpl.
  by destruct (transparency_state (trust d)) as [[]|].
Qed.
Lemma evidence_revoked l d :
  evidence_kept d (set_revocations (set_revoked (fun l0 => l0 ++ l)) d).
Proof.
  apply evidence_frame; [done|by intros s|]. unfold revoked_kept. simpl. by apply prefix_app_r.
Qed.

Lemma evidence_observe user device fp : keeps evidence_kept (observe user device fp).
Proof.
  intros d. unfold observe. apply keeps_bind_at; [|done]. intros o ? [-> ->]%gets_Ok.
  unfold device_trust. destruct (device_trust_t (trust d) !! (user, device)) as [r|] eqn:Hr; simpl.
  - case_match; [done|]. case_match; [|done]. split_and!; [|by intros s|unfold revoked_kept; done].
    intros k r0 Hk. eexists. split; [simpl; rewrite lookup_update_where, Hk; reflexivity|].
    simpl. destruct (bool_decide (k = (user, device))); by split.
  - apply keeps_bind_at; [|done]. intros n ? [_ ->]%gets_Ok.
    apply keeps_bind_at; [|by intros ? ? [_ ->]%ensure_Err]. intros [] ? [_ ->]%ensure_Ok.
    split_and!; [|by intros s|unfold revoked_kept; done].
    intros k r Hk. simpl. exists r. split; [|by split]. rewrite lookup_insert_ne; [done|].
    intros <-. congruence.
Qed.

(** A successful verification compared the pin of an unchanged device. *)
Lemma verify_device_run user device expected d r d' :
  verify_device user device expected d = (r, d') ->
  (d' = d /\ exists e, r = Err e) \/
  exists row, device_trust_t (trust d) !! (user, device) = Some row /\
    trust_state row <> "changed" /\ pinned row = normalized expected /\
    slen (normalized expected) = 64 /\ r = Ok tt /\
    d' = set_trust (set_device_trust (update_where (fun k _ => bool_decide (k = (user, device)))
           (fun r => {| pinned := pinned r; latest := latest r; trust_state := "verified" |}))) d.
Proof.
  destruct r as [u|e]; intros Hv.
  - right. unfold verify_device in Hv. inv_ok. bool_prop.
    match goal with Ho : device_trust _ _ _ = Some _ |- _ => unfold device_trust in Ho end.
    destruct (device_trust_t (trust _) !! (user, device)) as [row|] eqn:Hrow; [|done].
    simplify_eq/=. exists row. split_and!; done.
  - left. unfold verify_device in Hv. inv_err; inv_ok; split; eauto.
Qed.

Lemma evidence_verify user device expected :
  keeps evidence_kept (verify_device user device expected).
Proof.
  intros d. destruct (verify_device user device expected d) as [r d'] eqn:Hv. simpl.
  apply verify_device_run in Hv as [[-> _]|(row & Hrow & Hc & _ & _ & _ & ->)]; [done|].
  split_and!; [|by intros s|unfold revoked_kept; done].
  intros k r0 Hk. eexists. split; [simpl; rewrite lookup_update_where, Hk; reflexivity|].
  simpl. case_bool_decide as Hkk; [|by split]. subst k. split; [done|]. simpl. congruence.
Qed.

(** ** Histories of a device *)

Inductive TrustOp : Type :=
| OpAudit (snapshot_reply log_reply : result bytes)
| OpLookup (snapshot_reply log_reply : result bytes) (user device : string)
| OpDevices (snapshot_reply log_reply : result bytes) (user : string)
| OpObserve (r : DeviceRegistration)
| OpVerify (user device expected : string)
| OpPin (signer : string)
| OpAccept (s : Snapshot)
| OpRevocations (l : RevocationLog) (registrations : Snapshot)
| OpFailure (message : string)
| OpClear.
Definition trust_op (o : TrustOp) d : ClientDb St :=
  match o with
  | OpAudit r1 r2 => snd (audit capacity r1 r2 d)
  | OpLookup r1 r2 user device => snd (Trust.lookup capacity r1 r2 user device d)
  | OpDevices r1 r2 user => snd (user_devices capacity r1 r2 user d)
  | OpObserve r => snd (observe_device capacity r d)
  | OpVerify user device expected => snd (verify_device user device expected d)
  | OpPin signer => snd (pin_directory signer d)
  | OpAccept s => snd (accept_checkpoint capacity s d)
  | OpRevocations l s => snd (accept_revocations capacity l s d)
  | OpFailure m => snd (transparency_failure m d)
  | OpClear => snd (clear_transparency_warning d)
  end.
Definition run_trust_ops (ops : list TrustOp) d : ClientDb St := fold_left (fun d o => trust_op o d) ops d.

(** A relation the statements and verifications keep holds along a history. *)
Lemma run_keeps (R : ClientDb St -> ClientDb St -> Prop) `{!PreOrder R} ops d :
  (forall d d',
    device_trust_t (trust d') = device_trust_t (trust d) ->
    transparency_state (trust d') = transparency_state (trust d) ->
    revocations d' = revocations d ->
    local_identity d' = local_identity d -> chat d' = chat d -> events d' = events d -> R d d') ->
  (forall signer d, R d (set_trust (set_transparency (fun t =>
    match t with Some _ => t | None => Some (signer, None) end)) d)) ->
  (forall s, keeps R (accept_checkpoint capacity s)) ->
  (forall l s, keeps R (accept_revocations capacity l s)) ->
  (forall user device fp, keeps R (observe user device fp)) ->
  (forall user device expected, OpVerify user device expected ∈ ops ->
     keeps R (verify_device user device expected)) ->
  R d (run_trust_ops ops d).
Proof.
  intros Hsame Hpin Hcp Hrev Hobs. unfold run_trust_ops. revert d.
  induction ops as [|o ops IH]; intros d Hver; [done|]. simpl.
  etrans; [|apply IH; intros; apply Hver; by right].
  destruct o; simpl.
  - by apply audit_keeps.
  - by apply lookup_keeps.
  - by apply user_devices_keeps.
  - by apply observe_device_keeps.
  - apply Hver. by left.
  - by apply pin_directory_keeps.
  - apply Hcp.
  - apply Hrev.
  - by apply Hsame.
  - by apply Hsame.
Qed.

Lemma existsb_prefix {A} (p : A -> bool) l l' :
  l `prefix_of` l' -> existsb p l = true -> existsb p l' = true.
Proof. intros [k ->] Hl. rewrite existsb_app. by rewrite Hl. Qed.
Lemma find_prefix {A} (p : A -> bool) l l' a :
  l `prefix_of` l' -> List.find p l = Some a -> List.find p l' = Some a.
Proof.
  intros [k ->]. induction l as [|b l IH]; simpl; [done|]. by destruct (p b).
Qed.

(** A device's evidence only accumulates. Whatever sequence of audits,
    lookups, observations, verifications and failures a device goes through,
    with any replies from the network: a fingerprint once pinned for a device
    stays the pinned one, a device once seen to contradict its pin stays
    blocked, the pinned directory key is never replaced, and a device (and its
    MLS key, with its cutoff) once recorded as revoked stays revoked. *)
Theorem evidence_accumulates ops d :
  let d' := run_trust_ops ops d in
  (forall k row, device_trust_t (trust d) !! k = Some row ->
     exists row', device_trust_t (trust d') !! k = Some row' /\ pinned row' = pinned row /\
       (trust_state row = "changed" -> trust_state row' = "changed")) /\
  (forall signer, directory_key d = Some signer -> directory_key d' = Some signer) /\
  (forall nkey, is_revoked nkey d = true -> is_revoked nkey d' = true) /\
  (forall k cutoff, revoked_mls_key k d = Some cutoff -> revoked_mls_key k d' = Some cutoff).
Proof.
  assert (evidence_kept d (run_trust_ops ops d)) as (Hp & Hd & Hr).
  { apply run_keeps; auto using evidence_same, evidence_pin, evidence_observe, evidence_verify.
    - typeclasses eauto.
    - intros s. apply (accept_checkpoint_keeps evidence_kept); auto using evidence_same, evidence_pin,
        evidence_checkpoint, evidence_observe.
    - intros l s. apply (accept_revocations_keeps evidence_kept); auto using evidence_same, evidence_revoked.
      intros c d0. by apply evidence_frame; [|intros ?|unfold revoked_kept]. }
  split_and!; [exact Hp|exact Hd| |].
  - intros k. unfold is_revoked. by apply existsb_prefix.
  - intros k c. unfold revoked_mls_key. intros (x & Hf & ->)%fmap_Some.
    by rewrite (find_prefix _ _ _ _ Hr Hf).
Qed.

(** A device newly counted as verified satisfies [P] with its pin. *)
Definition verified_by (P : string * string -> string -> Prop) d d' : Prop :=
  forall k row', device_trust_t (trust d') !! k = Some row' -> trust_state row' = "verified" ->
    (exists row, device_trust_t (trust d) !! k = Some row /\ trust_state row = "verified" /\
       pinned row = pinned row') \/ P k (pinned row').
#[local] Instance verified_by_preorder P : PreOrder (verified_by P).
Proof.
  split.
  - intros d k row Hrow Hv. left. by exists row.
  - intros a b c Hab Hbc k row Hrow Hv. destruct (Hbc _ _ Hrow Hv) as [(r1 & Hr1 & Hv1 & E)|?];
      [|by right]. rewrite <- E. by apply Hab.
Qed.
Lemma verified_same P d d' :
  device_trust_t (trust d') = device_trust_t (trust d) -> verified_by P d d'.
Proof. intros Ht k row. rewrite Ht. intros Hrow Hv. left. by exists row. Qed.

Lemma verified_observe P user device fp : keeps (verified_by P) (observe user device fp).
Proof.
  intros d. unfold observe. apply keeps_bind_at; [|done]. intros o ? [-> ->]%gets_Ok.
  unfold device_trust. destruct (device_trust_t (trust d) !! (user, device)) as [r|] eqn:Hr; simpl.
  - case_match; [done|]. case_match; [|done]. intros k row. simpl. rewrite lookup_update_where.
    intros (row0 & Hrow & ->)%fmap_Some Hv. left. exists row0. split; [done|].
    by destruct (bool_decide (k = (user, device))).
  - apply keeps_bind_at; [|done]. intros n ? [_ ->]%gets_Ok.
    apply keeps_bind_at; [|by intros ? ? [_ ->]%ensure_Err]. intros [] ? [_ ->]%ensure_Ok.
    intros k row. simpl. intros [[<- <-]|[Hne Hrow]]%lookup_insert_Some Hv; [done|].
    left. by exists row.
Qed.

(** A device counts as verified only because its user compared the pinned
    fingerprint. If after any history a device is in state [verified], then
    either it was before, with the same pin, or the history contains a
    [verify_device] for it whose argument, after removing white space and
    upper-casing, is that pin. *)
Theorem verified_means_compared ops d k row' :
  device_trust_t (trust (run_trust_ops ops d)) !! k = Some row' -> trust_state row' = "verified" ->
  (exists row, device_trust_t (trust d) !! k = Some row /\ trust_state row = "verified" /\
     pinned row = pinned row') \/
  exists expected, OpVerify (fst k) (snd k) expected ∈ ops /\ normalized expected = pinned row'.
Proof.
  intros Hrow Hv.
  pose (P := fun (k : string * string) pin => exists expected,
    OpVerify (fst k) (snd k) expected ∈ ops /\ normalized expected = pin).
  cut (verified_by P d (run_trust_ops ops d)); [intros Hby; by apply Hby|].
  apply run_keeps; [typeclasses eauto|..].
  1-2: intros; by apply verified_same.
  - intros s. apply (accept_checkpoint_keeps (verified_by P)); auto using verified_observe;
      intros; by apply verified_same.
  - intros l s. apply (accept_revocations_keeps (verified_by P)); intros; by apply verified_same.
  - apply verified_observe.
  - intros user device expected Hin d0. destruct (verify_device user device expected d0) as [r d'] eqn:Hrun.
    simpl. apply verify_device_run in Hrun as [[-> _]|(row & Hr & Hc & Hpin & _ & _ & ->)]; [done|].
    intros k' row1. simpl. rewrite lookup_update_where. intros (row0 & Hrow0 & ->)%fmap_Some Hv0.
    destruct (bool_decide (k' = (user, device))) eqn:Hk; [|left; by exists row0].
    bool_prop. subst k'. right. exists expected. split; [done|]. simpl. congruence.
Qed.

(** ** Accepted logs extend one another *)

(** The encodings of what is stored or hashed are not ambiguous. *)
Definition checkpoint_codec : Prop :=
  forall (cp : Checkpoint) b, to_allocvec cp = Ok b -> from_bytes b = Ok cp.
Definition registration_injective : Prop :=
  forall r r' b, registration_leaf r = Ok b -> registration_leaf r' = Ok b -> r = r'.

Lemma extends_grows old new :
  registration_injective ->
  Transparency.validate old = Ok tt -> extends new (checkpoint old) = Ok tt ->
  log_grows old new \/ collision.
Proof.
  intros Hinj Hv He. destruct (extends_prefix_inj old new) as [Hs [Hp|Hc]]; try done.
  - intros r r' b _ _. apply Hinj.
  - left. by split.
  - by right.
Qed.

(** The stored checkpoint is the one of a snapshot. *)
Definition stores d (s : Snapshot) : Prop :=
  Transparency.validate s = Ok tt /\
  exists signer b, transparency_state (trust d) = Some (signer, Some b) /\
    to_allocvec (checkpoint s) = Ok b.
Definition logs_extend d d' : Prop :=
  forall s, stores d s -> (exists s', stores d' s' /\ log_grows s s') \/ collision.
#[local] Instance logs_extend_preorder : PreOrder logs_extend.
Proof.
  split.
  - intros d s Hs. left. by exists s.
  - intros a b c Hab Hbc s Hs. destruct (Hab _ Hs) as [(s1 & Hs1 & G1)|?]; [|by right].
    destruct (Hbc _ Hs1) as [(s2 & Hs2 & G2)|?]; [|by right]. left. exists s2. split; [done|].
    by etrans.
Qed.
Lemma logs_same d d' :
  transparency_state (trust d') = transparency_state (trust d) -> logs_extend d d'.
Proof. intros Ht s [Hv Hs]. left. exists s. split; [|done]. split; [done|]. by rewrite Ht. Qed.

Lemma logs_kept d d' :
  (forall signer b, transparency_state (trust d) = Some (signer, Some b) ->
     transparency_state (trust d') = Some (signer, Some b)) -> logs_extend d d'.
Proof.
  intros Ht s (Hv & signer & b & Hs & Hb). left. exists s. split; [|done].
  split; [done|]. exists signer, b. split; [by apply Ht|done].
Qed.

Definition same_log d d' : Prop := transparency_state (trust d') = transparency_state (trust d).
#[local] Instance same_log_preorder : PreOrder same_log.
Proof. unfold same_log. split; [by intros ?|congruence]. Qed.
Lemma observe_log user device fp : keeps same_log (observe user device fp).
Proof. unfold observe. keeps_auto; by apply keeps_modify. Qed.
Lemma observe_all_log l : keeps same_log (for_each l (observe_device capacity)).
Proof.
  apply keeps_for_each; [typeclasses eauto|]. intros r.
  apply (observe_device_keeps same_log); auto using observe_log.
Qed.

Lemma pin_directory_Ok signer d d' u :
  pin_directory signer d = (Ok u, d') ->
  transparency_state (trust d') = match transparency_state (trust d) with
                                  | Some t => Some t
                                  | None => Some (signer, None)
                                  end.
Proof.
  unfold pin_directory. intros Hp. apply bind_Ok in Hp as ([] & ? & [_ ->]%ensure_Ok & Hp).
  apply bind_Ok in Hp as (? & ? & [_ ->]%lift_Ok & Hp).
  apply bind_Ok in Hp as (? & ? & [_ ->]%gets_Ok & Hp).
  apply bind_Ok in Hp as ([] & ? & [_ ->]%ensure_Ok & Hp). apply modify_Ok in Hp as ->. simpl.
  by destruct (transparency_state (trust d)).
Qed.

Lemma accept_checkpoint_Ok s d d' u :
  accept_checkpoint capacity s d = (Ok u, d') ->
  stores d' s /\
  forall signer b, transparency_state (trust d) = Some (signer, Some b) ->
    exists previous, from_bytes b = Ok previous /\ extends s previous = Ok tt.
Proof.
  unfold accept_checkpoint. intros Ha. apply bind_Ok in Ha as ([] & d1 & [Hv ->]%lift_Ok & Ha).
  apply bind_Ok in Ha as ([] & d1 & Hp%pin_directory_Ok & Ha).
  apply bind_Ok in Ha as ([] & d2 & Hf & Ha).
  assert (transparency_state (trust d2) = transparency_state (trust d1)) as Ht2.
  { pose proof (observe_all_log (entries s) d1) as Hk. by rewrite Hf in Hk. }
  apply bind_Ok in Ha as (r & d3 & [-> ->]%gets_Ok & Ha).
  apply bind_Ok in Ha as (previous & d3 & [Hr ->]%lift_Ok & Ha).
  apply bind_Ok in Ha as ([] & d3 & He & Ha).
  assert (d3 = d2 /\ forall p, previous = Some p -> extends s p = Ok tt) as [-> Hext].
  { destruct previous as [p|]; [apply lift_Ok in He as [He ->]|by inv_ok].
    split; [done|]. by intros ? [= <-]. }
  apply bind_Ok in Ha as (b & d3 & [Hb ->]%lift_Ok & ->%modify_Ok). split.
  - split; [done|]. simpl. rewrite Ht2, Hp.
    destruct (transparency_state (trust d)) as [[sg o]|]; by eexists _, _.
  - intros signer b0 Ht. unfold stored_checkpoint in Hr. rewrite Ht2, Hp, Ht in Hr.
    simpl in Hr. inv_ok. eauto.
Qed.

Lemma accept_extends s :
  checkpoint_codec -> registration_injective -> keeps logs_extend (accept_checkpoint capacity s).
Proof.
  intros Hcp Hinj d. destruct (accept_checkpoint capacity s d) as [[u|e] d'] eqn:Ha; simpl.
  - apply accept_checkpoint_Ok in Ha as [Hst Hext]. intros s0 (Hv0 & signer & b & Ht & Hb).
    destruct (Hext _ _ Ht) as (previous & Hprev & He).
    rewrite (Hcp _ _ Hb) in Hprev. injection Hprev as <-.
    destruct (extends_grows _ _ Hinj Hv0 He); [left; by exists s|by right].
  - (* a failed acceptance leaves the stored checkpoint *)
    apply logs_kept. intros signer b Ht. revert Ha. unfold accept_checkpoint.
    intros Ha. apply bind_Err in Ha as [[_ ->]%lift_Err|([] & d1 & [_ ->]%lift_Ok & Ha)]; [done|].
    apply bind_Err in Ha as [Ha|([] & d1 & Hp%pin_directory_Ok & Ha)].
    { assert (same_log d d') as ->; [|done].
      unfold pin_directory in Ha. inv_err; by inv_ok. }
    rewrite Ht in Hp. pose proof (observe_all_log (entries s) d1) as Hk.
    apply bind_Err in Ha as [Ha|([] & d2 & Hf & Ha)].
    { rewrite Ha in Hk. simpl in Hk. unfold same_log in Hk. congruence. }
    rewrite Hf in Hk. simpl in Hk. assert (same_log d2 d') as Hlast.
    { apply bind_Err in Ha as [Ha|(r & d3 & [-> ->]%gets_Ok & Ha)]; [done|].
      apply bind_Err in Ha as [[_ ->]%lift_Err|(p & d3 & [_ ->]%lift_Ok & Ha)]; [done|].
      apply bind_Err in Ha as [Ha|([] & d3 & He & Ha)].
      { destruct p; [by apply lift_Err in Ha as [_ ->]|done]. }
      assert (d3 = d2) as -> by (destruct p; [by apply lift_Ok in He as [_ ->]|by inv_ok]).
      by apply bind_Err in Ha as [[_ ->]%lift_Err|(b' & d3 & _ & Ha)]. }
    unfold same_log in *. congruence.
Qed.

(** C32. A device never accepts a log that contradicts one it accepted. If it
    accepted the snapshot [old] and, after any further history, accepts the
    snapshot [new], then both have the same signer and the entries of [old] are
    a prefix of those of [new], or two inputs with the same SHA-256 digest have
    been found. *)
Theorem accepted_logs_extend old new ops d d1 d2 u u' :
  checkpoint_codec -> registration_injective ->
  accept_checkpoint capacity old d = (Ok u, d1) ->
  accept_checkpoint capacity new (run_trust_ops ops d1) = (Ok u', d2) ->
  cp_signer (checkpoint new) = cp_signer (checkpoint old) /\
    entries old `prefix_of` entries new \/ collision.
Proof.
  intros Hcp Hinj [Hold _]%accept_checkpoint_Ok [_ Hext]%accept_checkpoint_Ok.
  assert (logs_extend d1 (run_trust_ops ops d1)) as Hrun.
  { apply run_keeps; [typeclasses eauto|..].
    - intros. by apply logs_same.
    - intros signer d0. apply logs_kept. intros sg b Ht. simpl. by rewrite Ht.
    - intros s. by apply accept_extends.
    - intros l s. apply (accept_revocations_keeps logs_extend); intros; by apply logs_same.
    - intros user device fp d0. apply logs_same. apply observe_log.
    - intros user device expected _ d0. apply logs_same.
      destruct (verify_device user device expected d0) as [r d'] eqn:Hv. simpl.
      by apply verify_device_run in Hv as [[-> _]|(row & _ & _ & _ & _ & _ & ->)]. }
  destruct (Hrun _ Hold) as [(s & (Hv & signer & b & Ht & Hb) & [Hpre Hsg])|?]; [|by right].
  destruct (Hext _ _ Ht) as (previous & Hprev & He).
  rewrite (Hcp _ _ Hb) in Hprev. injection Hprev as <-.
  destruct (extends_grows _ _ Hinj Hv He) as [[Hpre' Hsg']|?]; [|by right].
  left. split; [congruence|]. by etrans.
Qed.

(** ** Accepted revocations *)

Lemma record_revocation_Ok registrations e d d' u :
  record_revocation registrations e d = (Ok u, d') ->
  revocation_checkpoint_t (revocations d') = revocation_checkpoint_t (revocations d) /\
  forall nkey, is_revoked nkey d' = is_revoked nkey d || bool_decide (nkey = rr_nkey (request e)).
Proof.
  unfold record_revocation, insert_revoked. intros Hr.
  apply bind_Ok in Hr as (? & ? & [_ ->]%lift_Ok & Hr).
  apply bind_Ok in Hr as (pk & ? & [_ ->]%lift_Ok & ->%modify_Ok).
  split; [done|]. intros nkey. unfold is_revoked. simpl.
  destruct (existsb (fun '(k, _) => bool_decide (k = rr_nkey (request e)))
    (revoked_devices (revocations d))) eqn:He.
  - case_bool_decide as Hk; [|by rewrite orb_false_r]. subst nkey. by rewrite He.
  - rewrite existsb_app. simpl. rewrite orb_false_r. f_equal. apply bool_decide_ext. by split.
Qed.

Lemma record_all_Ok registrations es d d' u :
  for_each es (record_revocation registrations) d = (Ok u, d') ->
  revocation_checkpoint_t (revocations d') = revocation_checkpoint_t (revocations d) /\
  forall nkey, is_revoked nkey d' =
    is_revoked nkey d || existsb (fun e => bool_decide (nkey = rr_nkey (request e))) es.
Proof.
  revert d; induction es as [|e es IH]; intros d Hr; simpl in Hr.
  - apply ret_Ok in Hr as [_ ->]. split; [done|]. intros nkey. by rewrite orb_false_r.
  - apply bind_Ok in Hr as ([] & d1 & [Hc1 Hk1]%record_revocation_Ok & [Hc2 Hk2]%IH).
    split; [congruence|]. intros nkey. rewrite Hk2, Hk1. simpl. by rewrite orb_assoc.
Qed.

Lemma accept_revocations_Ok l registrations d d' u :
  accept_revocations capacity l registrations d = (Ok u, d') ->
  log_validate l registrations = Ok tt /\
  (exists b, revocation_checkpoint_t (revocations d') = Some b /\
     to_allocvec (rl_checkpoint l) = Ok b) /\
  (forall b, revocation_checkpoint_t (revocations d) = Some b ->
     exists previous, from_bytes b = Ok previous /\
       cp_signer previous = cp_signer (rl_checkpoint l) /\
       revocation_root (take (Z.to_nat (cp_size previous)) (rl_entries l)) = Ok (cp_root previous)) /\
  (forall nkey, is_revoked nkey d' =
     is_revoked nkey d || existsb (fun e => bool_decide (nkey = rr_nkey (request e))) (rl_entries l)).
Proof.
  unfold accept_revocations. intros Ha. apply bind_Ok in Ha as ([] & d1 & [Hv ->]%lift_Ok & Ha).
  apply transaction_budget_Ok in Ha as (_ & d1 & Ha & _ & _ & ->).
  apply bind_Ok in Ha as (previous & ? & [-> ->]%gets_Ok & Ha).
  apply bind_Ok in Ha as ([] & d2 & Hp & Ha).
  apply bind_Ok in Ha as ([] & d3 & [Hc Hk]%record_all_Ok & Ha).
  apply bind_Ok in Ha as (b & ? & [Hb ->]%lift_Ok & ->%modify_Ok).
  assert (d2 = set_recovery true (set_autocommit false d) /\
    forall b, revocation_checkpoint_t (revocations d) = Some b ->
     exists previous, from_bytes b = Ok previous /\
       cp_signer previous = cp_signer (rl_checkpoint l) /\
       revocation_root (take (Z.to_nat (cp_size previous)) (rl_entries l)) = Ok (cp_root previous))
    as [-> Hprev].
  { simpl in Hp. destruct (revocation_checkpoint_t (revocations d)) as [b0|]; [|by inv_ok].
    apply bind_Ok in Hp as (cp & ? & [Hcp ->]%lift_Ok & Hp).
    apply bind_Ok in Hp as ([] & ? & [Hs ->]%ensure_Ok & Hp).
    apply bind_Ok in Hp as (r & ? & [Hr ->]%lift_Ok & [He ->]%ensure_Ok). bool_prop.
    split; [done|]. intros b1 [= <-]. exists cp. split_and!; [done..|congruence]. }
  split_and!; [done| |exact Hprev|exact Hk]. by exists b.
Qed.

(** Accepting a revocation log records exactly its revocations: afterwards a
    device is revoked for this installation if it was before or the log names
    it, whatever the log's order and whatever was recorded before. *)
Theorem revocations_recorded l registrations d d' u nkey :
  accept_revocations capacity l registrations d = (Ok u, d') ->
  is_revoked nkey d' =
    is_revoked nkey d || existsb (fun e => bool_decide (nkey = rr_nkey (request e))) (rl_entries l).
Proof. intros (_ & _ & _ & Hk)%accept_revocations_Ok. apply Hk. Qed.

Definition revocation_injective : Prop :=
  forall (r r' : Revocation) b, to_allocvec r = Ok b -> to_allocvec r' = Ok b -> r = r'.
Definition revokes_stored d (l : RevocationLog) : Prop :=
  cp_size (rl_checkpoint l) = zlen (rl_entries l) /\
  revocation_root (rl_entries l) = Ok (cp_root (rl_checkpoint l)) /\
  exists b, revocation_checkpoint_t (revocations d) = Some b /\ to_allocvec (rl_checkpoint l) = Ok b.
Definition revocations_extend d d' : Prop :=
  forall l, revokes_stored d l ->
    (exists l', revokes_stored d' l' /\ revocations_grow l l') \/ collision.
#[local] Instance revocations_extend_preorder : PreOrder revocations_extend.
Proof.
  split.
  - intros d l Hl. left. by exists l.
  - intros a b c Hab Hbc l Hl. destruct (Hab _ Hl) as [(l1 & Hl1 & G1)|?]; [|by right].
    destruct (Hbc _ Hl1) as [(l2 & Hl2 & G2)|?]; [|by right]. left. exists l2. split; [done|].
    by etrans.
Qed.
Lemma revocations_same d d' :
  revocation_checkpoint_t (revocations d') = revocation_checkpoint_t (revocations d) ->
  revocations_extend d d'.
Proof. intros Hr l (Hs & Hroot & Hb). left. exists l. split; [|done]. split_and!; [done..|]. by rewrite Hr. Qed.

Lemma observe_revocations user device fp : keeps revocations_extend (observe user device fp).
Proof. unfold observe. keeps_auto; apply keeps_modify; intros ?; by apply revocations_same. Qed.

Lemma accept_revocations_extend old l registrations d d' u :
  checkpoint_codec -> revocation_injective -> revokes_stored d old ->
  accept_revocations capacity l registrations d = (Ok u, d') ->
  revokes_stored d' l /\ (revocations_grow old l \/ collision).
Proof.
  intros Hcp Hinj (Hs & Hroot & b & Hb & Hcb) (Hv & Hst & Hprev & _)%accept_revocations_Ok.
  apply log_validate_Ok in Hv as (_ & Hs' & _ & Hr' & _). split; [by split_and!|].
  destruct (Hprev _ Hb) as (previous & Hp & _ & Hpre). rewrite (Hcp _ _ Hcb) in Hp.
  injection Hp as <-. rewrite Hs in Hpre.
  destruct (merkle_root_inj to_allocvec (rl_entries old)
    (take (Z.to_nat (zlen (rl_entries old))) (rl_entries l)) (cp_root (rl_checkpoint old)))
    as [Heq|?]; [intros ? ? ? _ _; apply Hinj|done|done| |by right].
  left. unfold revocations_grow. rewrite Heq. apply prefix_take.
Qed.

(** Accepted revocation logs only grow. If a device accepted the revocation
    log [old] and, after any further history, accepts [new], then the entries
    of [old] are a prefix of those of [new], or two inputs with the same
    SHA-256 digest have been found. *)
Theorem accepted_revocations_extend old registrations new registrations' ops d d1 d2 u u' :
  checkpoint_codec -> revocation_injective ->
  accept_revocations capacity old registrations d = (Ok u, d1) ->
  accept_revocations capacity new registrations' (run_trust_ops ops d1) = (Ok u', d2) ->
  rl_entries old `prefix_of` rl_entries new \/ collision.
Proof.
  intros Hcp Hinj (Hv & Hst & _ & _)%accept_revocations_Ok Hnew.
  assert (revokes_stored d1 old) as Hold.
  { apply log_validate_Ok in Hv as (_ & ? & _ & ? & _). by split_and!. }
  assert (revocations_extend d1 (run_trust_ops ops d1)) as Hrun.
  { apply run_keeps; [typeclasses eauto|..].
    - intros d0 d' _ _ Hr _ _ _. apply revocations_same. by rewrite Hr.
    - intros. by apply revocations_same.
    - intros s. apply (accept_checkpoint_keeps revocations_extend).
      1: intros d0 d' _ _ Hr _ _ _; apply revocations_same; by rewrite Hr.
      1, 3: intros; by apply revocations_same.
      intros user device fp. apply (observe_revocations user device fp).
    - intros l s d0. destruct (accept_revocations capacity l s d0) as [[[]|e] d'] eqn:Ha; simpl.
      + intros l0 Hl0. destruct (accept_revocations_extend _ _ _ _ _ _ Hcp Hinj Hl0 Ha) as [Hs [Hg|?]];
          [left; by exists l|by right].
      + apply revocations_same. unfold accept_revocations in Ha.
        apply bind_Err in Ha as [[_ ->]%lift_Err|([] & d3 & [_ ->]%lift_Ok & Ha)]; [done|].
        by apply transaction_budget_Err in Ha as [->|[? ->]].
    - apply observe_revocations.
    - intros user device expected _ d0. apply revocations_same.
      destruct (verify_device user device expected d0) as [r d'] eqn:Hvd. simpl.
      by apply verify_device_run in Hvd as [[-> _]|(row & _ & _ & _ & _ & _ & ->)]. }
  destruct (Hrun _ Hold) as [(l & Hl & Hg)|?]; [|by right].
  destruct (accept_revocations_extend _ _ _ _ _ _ Hcp Hinj Hl Hnew) as [_ [Hg'|?]]; [|by right].
  left. unfold revocations_grow in *. by etrans.
Qed.
End facts.
