(* ===== verification/TrustExamples.v ===== *)
(** * A device that follows two logs, and the authority that answers it

    Concrete logs, encodings and a device database on which the theorems of
    [RevocationFacts] and [TrustFacts] are applied; then a history of the
    authority, for those of [GateFacts]. *)
From S2P Require Import Prelude External Wire AuthDb Capacity AuditTrail AuditFacts Identity Registry Policy RegistryFacts Models RegistryHistory KvStore Merkle Transparency TransparencyFacts Diagnostics Callout Mls ClientDb IdentityStore Revocation Directory Authority RevocationFacts DirectoryFacts ConsumerFacts AuthorityFacts GateFacts Trust TrustFacts.

(** The operator revokes the registered device. *)
Definition revoke_a : RevokeRequest := {|
  rr_version := 1; rr_user := alice; rr_device := "laptop"; rr_nkey := "UA"; rr_author := "UDIR";
  rr_signature := good_signature |}.
Definition revocation_a : Revocation := {| request := revoke_a; chat_cutoff := 5 |}.
Definition revocation_log_model (es : list Revocation) (h : bytes) : RevocationLog :=
  {| rl_checkpoint := {| cp_version := 1; cp_size := zlen es; cp_root := h; cp_signer := "UDIR";
                         cp_signature := good_signature |};
     rl_entries := es |}.
Definition revocations_0 : RevocationLog := revocation_log_model [] (repeat x00 32).
Definition revocations_1 : RevocationLog :=
  revocation_log_model [revocation_a] (x40 :: repeat x00 31).

Definition trust_envelope_model : Postcard Envelope := {|
  to_allocvec := fun e =>
    if negb (version e =? 1) then Err External
    else match body e with
    | Body.Register r => if bool_decide (r = reg_a) then Ok [x01] else Err External
    | Body.AuditLog s => if bool_decide (s = log_0) then Ok [x10]
                         else if bool_decide (s = log_1) then Ok [x11] else Err External
    | Body.RevocationLog l => if bool_decide (l = revocations_0) then Ok [x20]
                              else if bool_decide (l = revocations_1) then Ok [x21]
                              else Err External
    | _ => Err External
    end;
  take_from_bytes := fun b =>
    match b with
    | x01 :: rest => Ok ({| version := 1; body := Body.Register reg_a |}, rest)
    | x10 :: rest => Ok ({| version := 1; body := Body.AuditLog log_0 |}, rest)
    | x11 :: rest => Ok ({| version := 1; body := Body.AuditLog log_1 |}, rest)
    | x20 :: rest => Ok ({| version := 1; body := Body.RevocationLog revocations_0 |}, rest)
    | x21 :: rest => Ok ({| version := 1; body := Body.RevocationLog revocations_1 |}, rest)
    | _ => Err External
    end |}.
(** The checkpoints of the two snapshots and of the two revocation logs. *)
Definition stored_checkpoint_model : Postcard Checkpoint := {|
  to_allocvec := fun cp =>
    if bool_decide (cp = checkpoint log_0) then Ok [x00]
    else if bool_decide (cp = checkpoint log_1) then Ok [x01]
    else if bool_decide (cp = rl_checkpoint revocations_1) then Ok [x02] else Err External;
  take_from_bytes := fun b =>
    match b with
    | x00 :: rest => Ok (checkpoint log_0, rest)
    | x01 :: rest => Ok (checkpoint log_1, rest)
    | x02 :: rest => Ok (rl_checkpoint revocations_1, rest)
    | _ => Err External
    end |}.
Definition request_model : Postcard RequestTuple := {|
  to_allocvec := fun _ => Ok [x00]; take_from_bytes := fun _ => Err External |}.
Definition revocation_model : Postcard Revocation := {|
  to_allocvec := fun r => if bool_decide (r = revocation_a) then Ok [x40] else Err External;
  take_from_bytes := fun _ => Err External |}.
Definition fingerprint_model : Postcard FingerprintTuple := {|
  to_allocvec := fun '(_, _, _, key, _, _) => Ok (as_bytes key);
  take_from_bytes := fun _ => Err External |}.
Definition device_pages : Pages (ClientDb unit) := {|
  page_count := fun _ => 1; page_size := fun _ => SqlInteger 4096 |}.
#[local] Existing Instances digest_model trust_envelope_model checkpoint_model
  stored_checkpoint_model request_model revocation_model fingerprint_model device_pages.

Definition fresh_device : ClientDb unit := {|
  local_identity := None;
  trust := {| device_trust_t := ∅; transparency_state := None; trust_alert := None |};
  revocations := {| revoked_devices := []; group_coordinators := ∅; blocked_outbox := ∅;
                    revocation_checkpoint_t := None |};
  chat := {| groups_t := ∅; join_epochs := ∅; outbox := ∅; welcomes := ∅; received := ∅;
             chat_deliveries := ∅; transcript := ∅ |};
  events := {| receipt_messages := ∅; device_receipts := ∅; message_events := ∅;
               attachments_t := ∅; participant_events := ∅ |};
  mls := tt; recovery_metadata := None; cached_key := None; recovery_budget := false;
  cl_autocommit := true; cl_commit_ok := true |}.

Lemma revocations_authorized_witness :
  authorized log_1 [] revoke_a /\ NoDup ((fun e => rr_nkey (request e)) <$> rl_entries revocations_1).
Proof.
  destruct (revocations_authorized revocations_1 log_1) as (Ha & Hn & _); [vm_compute; reflexivity|].
  split; [exact (Ha 0%nat revocation_a eq_refl)|exact Hn].
Defined.

Lemma revocation_log_codec : log_codec.
Proof.
  intros l b [_ He]%encode_Ok. simpl in He. apply decode_Ok. case_bool_decide; [|case_bool_decide; [|done]].
  all: injection He as <-; subst; split; [vm_compute; discriminate|reflexivity].
Qed.
Definition revocation_bucket : Kv := kv_put "revocations" [x20] {| kv_entries := ∅; kv_last := 0 |}.
Lemma append_log_rely_guarantee_witness :
  exists l, fst (append_log log_1 operator revoke_a 5 flaky revocation_bucket) = Ok l /\
    revoked_in revoke_a l.
Proof.
  exists revocations_1. split; [vm_compute; reflexivity|].
  refine (proj2 (proj2 (proj2 (append_log_rely_guarantee log_1 operator revoke_a 5 flaky
    revocation_bucket (Ok revocations_1) _ revocation_log_codec _ _ _) revocations_1 eq_refl))).
  - intros k e He. simpl in He. apply lookup_insert_Some in He as [[_ <-]|[_ He]]; [done|].
    by rewrite lookup_empty in He.
  - apply List.Forall_forall. intros a [<-|[<-|[]]] kv; done.
  - apply run_fst. vm_compute. reflexivity.
Defined.

(** ** A history of the device

    It accepts the log with one registration and the revocation log, then sees
    another identity under the same name. *)
Definition impostor : DeviceRegistration := sample_registration "laptop" "UC".
#[local] Abbreviation accepted := (snd (accept_revocations default_capacity revocations_1 log_1
  (snd (accept_checkpoint default_capacity log_1 fresh_device)))).
Definition later : list TrustOp :=
  [OpAudit (Ok [x11]) (Ok [x20]); OpObserve impostor; OpPin "UEVE"; OpAudit (Err External) (Err External)].

Lemma evidence_accumulates_witness :
  directory_key accepted = Some "UDIR" /\
  directory_key (run_trust_ops default_capacity later accepted) = Some "UDIR" /\
  is_revoked "UA" (run_trust_ops default_capacity later accepted) = true /\
  (exists row, device_trust_t (trust (run_trust_ops default_capacity later accepted))
                 !! (alice, "laptop") = Some row /\ trust_state row = "changed").
Proof.
  destruct (evidence_accumulates default_capacity later accepted) as (_ & Hd & Hr & _).
  split_and!; [vm_compute; reflexivity|apply Hd; vm_compute; reflexivity
              |apply Hr; vm_compute; reflexivity|].
  eexists. split; vm_compute; reflexivity.
Defined.

Definition spelled : string :=
  " " +:+ match fingerprint reg_a with Ok s => display_fingerprint s | Err _ => EmptyString end.
Lemma verified_means_compared_witness :
  exists row, device_trust_t (trust (run_trust_ops default_capacity [OpVerify alice "laptop" spelled] accepted))
                !! (alice, "laptop") = Some row /\
  ((exists row0, device_trust_t (trust accepted) !! (alice, "laptop") = Some row0 /\
      trust_state row0 = "verified" /\ pinned row0 = pinned row) \/
   exists expected, OpVerify alice "laptop" expected ∈ [OpVerify alice "laptop" spelled] /\
     normalized expected = pinned row).
Proof.
  eexists. split; [vm_compute; reflexivity|].
  eapply (verified_means_compared default_capacity [OpVerify alice "laptop" spelled] accepted
    (alice, "laptop")); vm_compute; reflexivity.
Defined.

Lemma device_checkpoint_codec : checkpoint_codec.
Proof.
  intros cp b. unfold from_bytes. simpl.
  repeat (case_bool_decide; [subst; by intros [= <-]|]). done.
Qed.
Lemma device_registration_injective : registration_injective.
Proof.
  intros r r' b [_ Hr]%encode_Ok [_ Hr']%encode_Ok. simpl in *.
  repeat case_bool_decide; congruence.
Qed.
Lemma device_revocation_injective : revocation_injective.
Proof. intros r r' b Hr Hr'. simpl in *. repeat case_bool_decide; congruence. Qed.

Lemma accepted_logs_extend_witness :
  cp_signer (checkpoint log_1) = cp_signer (checkpoint log_0) /\
    entries log_0 `prefix_of` entries log_1 \/ collision.
Proof.
  refine (accepted_logs_extend default_capacity log_0 log_1 [OpClear] fresh_device _ _ tt tt
    device_checkpoint_codec device_registration_injective _ _);
    apply run_fst; vm_compute; reflexivity.
Defined.

Lemma revocations_recorded_witness : is_revoked "UA" accepted = true.
Proof.
  rewrite (revocations_recorded default_capacity revocations_1 log_1
    (snd (accept_checkpoint default_capacity log_1 fresh_device)) accepted tt "UA");
    [vm_compute; reflexivity|apply run_fst; vm_compute; reflexivity].
Defined.

Lemma accepted_revocations_extend_witness :
  rl_entries revocations_0 `prefix_of` rl_entries revocations_1 \/ collision.
Proof.
  refine (accepted_revocations_extend default_capacity revocations_0 log_1 revocations_1 log_1
    [OpPin "UDIR"] fresh_device _ _ tt tt device_checkpoint_codec device_revocation_injective _ _);
    apply run_fst; vm_compute; reflexivity.
Defined.

(** ** A history of the authority

    An authority with one device and one group starts, is asked to revoke the
    device under a deadline that cuts the request short, repairs itself, and
    confirms the revocation when asked again. *)
Definition gate_envelope_model : Postcard Envelope := {|
  to_allocvec := fun e =>
    match version e, body e with
    | 1, Body.Revoke r => if bool_decide (r = revoke_a) then Ok [x30] else Err External
    | 1, Body.Revoked => Ok [x31]
    | 1, Body.Rejected => Ok [x32]
    | _, _ => @to_allocvec _ trust_envelope_model e
    end;
  take_from_bytes := fun b =>
    match b with
    | x30 :: rest => Ok ({| version := 1; body := Body.Revoke revoke_a |}, rest)
    | x31 :: rest => Ok ({| version := 1; body := Body.Revoked |}, rest)
    | x32 :: rest => Ok ({| version := 1; body := Body.Rejected |}, rest)
    | _ => @take_from_bytes _ trust_envelope_model b
    end |}.
Definition relay_model : Postcard RelayTuple := {|
  to_allocvec := fun _ => Ok [x00]; take_from_bytes := fun _ => Err External |}.
Definition messages_model : MlsMessages := fun _ => Some true.
#[local] Existing Instances messages_model digest_model gate_envelope_model checkpoint_model request_model
  revocation_model relay_model.

Lemma gate_snapshot_codec : snapshot_codec.
Proof.
  intros s b [_ He]%encode_Ok. simpl in He. apply decode_Ok.
  case_bool_decide; [|case_bool_decide; [|done]].
  all: injection He as <-; subst; split; [vm_compute; discriminate|reflexivity].
Qed.
Lemma gate_log_codec : log_codec.
Proof.
  intros l b [_ He]%encode_Ok. simpl in He. apply decode_Ok.
  case_bool_decide; [|case_bool_decide; [|done]].
  all: injection He as <-; subst; split; [vm_compute; discriminate|reflexivity].
Qed.

Definition one_device : AuthRegistry := run_reg_ops
  [OpInvite "alice" 60 (Ok 1000) (id_draw x00) draw_model;
   OpEnroll token_1 reg_a (Ok 1001) (Ok 1001) zeros draw_model;
   OpActivate "UA" draw_model;
   OpPolicy policy_0 5 zeros draw_model draw_model] fresh_authority.
Lemma one_device_wf : registry_wf (reg_db one_device).
Proof. exact (proj1 (registry_consistent _ fresh_authority fresh_registry_wf)). Qed.

Definition empty_broker : Broker := {|
  b_log := {| kv_entries := ∅; kv_last := 0 |};
  b_directory := {| kv_entries := ∅; kv_last := 0 |};
  b_chat := ∅; b_mailbox := ∅; b_chat_last := 5; b_published := [] |}.
Definition stopped : Service := {|
  sv_registry := one_device; sv_broker := empty_broker; sv_calls := []; sv_cancelled := false;
  sv_moment := 0%nat; sv_runtime := new_runtime (repeat x00 16) false 0;
  control_rate := new_rate 64 128 0; revocation_rate := new_rate 4 8 0;
  sv_denials := {| started := 0; d_count := 0 |} |}.
Definition tick_moments (n : nat) : Moment := {|
  mo_instant := Z.of_nat n; mo_clock := Ok 1001; mo_clock' := Ok 1001; mo_ref := zeros;
  mo_draw := draw_model; mo_draw' := draw_model |}.

Definition calm : Call := {|
  meddle := id; delivered := true; answered := true;
  tries := [{| interference := id; acknowledged := true |}] |}.
Definition lost : Call := {|
  meddle := id; delivered := true; answered := false;
  tries := [{| interference := id; acknowledged := true |}] |}.
Definition many : list Call := repeat calm 40.
(** The second request loses the answer of its append, the third its deadline. *)
Definition day : list authority_op :=
  [OpStart (repeat x00 16) 0 many;
   OpControl REVOKE [x30] (repeat calm 4 ++ [lost] ++ many) many;
   OpControl REVOKE [x30] (repeat calm 6) [];
   OpTick many].

#[local] Abbreviation run := (run_authority tick_moments operator).

Example start_opens : reconciled (sv_runtime (run (take 1 day) stopped)) = true.
Proof. vm_compute. reflexivity. Qed.
Example lost_answer_rejected :
  fst (control_step tick_moments operator REVOKE [x30] (repeat calm 4 ++ [lost] ++ many) many
    (run (take 1 day) stopped)) = Ok [x32].
Proof. vm_compute. reflexivity. Qed.
Example deadline_shuts : reconciled (sv_runtime (run (take 3 day) stopped)) = false.
Proof. vm_compute. reflexivity. Qed.

Lemma many_quiet n : Forall quiet (repeat calm n).
Proof.
  apply list.Forall_forall. intros c Hc. apply list_elem_of_In, repeat_spec in Hc as ->.
  split; [done|]. by constructor.
Qed.
Lemma day_quiet : Forall quiet_op day.
Proof.
  repeat constructor; simpl; try apply (many_quiet 40); try apply (many_quiet 6); try done.
Qed.
Lemma stopped_log snap e :
  read (b_log (sv_broker stopped)) = Ok snap -> e ∈ entries snap ->
  has_device stopped (nats_public_key (payload e)).
Proof. done. Qed.
Lemma day_opens : reconciled (sv_runtime (run day stopped)) = true.
Proof. vm_compute. reflexivity. Qed.
Lemma day_history :
  historical_enrollment (sv_db (run day stopped)) !! key (payload reg_a) = Some "UA".
Proof. vm_compute. reflexivity. Qed.
Lemma day_enrolled : enrolled (sv_db (run day stopped)) "UA" = false.
Proof. vm_compute. reflexivity. Qed.

Lemma gate_open_sound_witness :
  registry_wf (sv_db (run day stopped)) /\
  b_mailbox (sv_broker (run day stopped)) !! device_name "UA" = None.
Proof.
  destruct (gate_open_sound tick_moments operator gate_snapshot_codec gate_log_codec day stopped
    one_device_wf stopped_log eq_refl eq_refl day_quiet day_opens) as (Hwf & _ & _ & Hc).
  split; [exact Hwf|]. specialize (Hc _ _ day_history). unfold consumer_matches in Hc.
  rewrite day_enrolled in Hc. exact (proj2 Hc).
Defined.

#[local] Abbreviation started := (set_sv_calls many false (run (take 1 day) stopped)).
Lemma started_gate : gate_ok started.
Proof.
  apply gate_ok_calls; [|apply (many_quiet 40)].
  apply run_authority_op_gate;
    [exact gate_snapshot_codec|exact gate_log_codec|apply (many_quiet 40)|].
  apply closed_gate_ok; [|done]. split; [exact one_device_wf| |constructor].
  split; [|done]. intros snap Hr e He. by eapply stopped_log.
Qed.
Lemma started_revokes :
  handle tick_moments operator REVOKE [x30] started =
  (Ok Body.Revoked, snd (handle tick_moments operator REVOKE [x30] started)).
Proof. apply run_fst. vm_compute. reflexivity. Qed.
Lemma revoked_reply_settled_witness :
  is_ok (authorize "UA" (sv_db started)) = true /\
  is_ok (authorize "UA"
    (sv_db (snd (handle tick_moments operator REVOKE [x30] started)))) = false.
Proof.
  split; [vm_compute; reflexivity|].
  exact (proj1 (proj2 (proj2 (revoked_reply_settled tick_moments operator gate_snapshot_codec
    gate_log_codec REVOKE [x30] revoke_a started _ started_gate eq_refl started_revokes)))).
Defined.
