(* ===== verification/Groups.v ===== *)
(** * Groups of a device

    [crates/epochgrid-core/src/groups.rs] and [rekey.rs]: the names and
    identifiers of groups, the local table of groups, the members of a loaded
    MLS group, and the choice of the device that may change a group: its
    coordinator. *)
From stdpp Require Import sorting.
From S2P Require Import Prelude External Wire Capacity Identity KvStore Merkle Transparency Mls ClientDb IdentityStore Revocation.

(* @src core/groups.rs 11-16 Group *)
Record Group : Type := { grp_name : string; grp_gid : string; grp_mls_id : bytes }.

(* @src core/groups.rs 18-38 from_mls_id *)
Definition from_mls_id (id : bytes) : result Group :=
  let? text := ok_or (from_utf8 id) External in
  match split_on "/" text with
  | [f0; f1; name; gid] =>
      check (bool_decide (f0 = "epochgrid") && bool_decide (f1 = "v1")) "invalid EpochGrid group ID" ;;?
      validate_id name ;;?
      check ((slen gid =? 32) && string_all is_lower_hex gid) "invalid group subject ID" ;;?
      Ok {| grp_name := name; grp_gid := gid; grp_mls_id := id |}
  | _ => Err (Anyhow "invalid EpochGrid group ID")
  end.
(* @src core/groups.rs 39-41 subject *)
Definition subject (kind : string) (g : Group) : string :=
  "epochgrid.v1.group." +:+ grp_gid g +:+ "." +:+ kind.

(** [service] participants are shown as such. *)
(* @src core/participants.rs 12-19 member_label *)
Definition member_label (identity : string) : string :=
  match split_once "/" identity with
  | Some (user, "service") => "@" +:+ user +:+ " [service]"
  | Some (user, _) => user
  | None => identity
  end.

Definition by_group_name (a b : Group) : Prop := string_le (grp_name a) (grp_name b).
#[export] Instance by_group_name_dec : RelDecision by_group_name.
Proof. intros a b. unfold by_group_name. apply _. Defined.

(** [Iterator::min]. *)
Fixpoint min_of (l : list Z) : option Z :=
  match l with
  | [] => None
  | x :: l => match min_of l with Some m => Some (Z.min x m) | None => Some x end
  end.

Section groups.
Context {St : Type} `{Pages (ClientDb St)} `{Mls St} (capacity : Capacity).
Context `{NKeys} `{MlsPackages} `{Seeds : Secrets.Seeds} `{Credentials} `{Json Secrets.SecretRef}
  `{Postcard DeviceRegistration} `{Postcard RecoveryStatus}.
Implicit Types (d : ClientDb St).

(** ** The table of groups *)

(* @src core/groups.rs 129-142 groups *)
Definition groups d : list Group :=
  merge_sort by_group_name
    (map (fun '(name, e) => {| grp_name := name; grp_gid := ge_gid e; grp_mls_id := ge_mls_id e |})
       (map_to_list (groups_t (chat d)))).
(* @src core/groups.rs 143-157 group *)
Definition group (name : string) d : result Group :=
  let? e := ok_or (groups_t (chat d) !! name) (Anyhow "unknown channel") in
  Ok {| grp_name := name; grp_gid := ge_gid e; grp_mls_id := ge_mls_id e |}.

(* @src core/groups.rs 92-111 insert_group *)
Definition insert_group (g : Group) : M (ClientDb St) unit :=
  let* count := gets (fun d => table_size (groups_t (chat d))) in
  ensure (count <? retained_groups capacity) "capacity exhausted: local groups" ;;;
  let* taken := gets (fun d => exists_row (fun name e => bool_decide (name = grp_name g)
                                 || bool_decide (ge_gid e = grp_gid g)
                                 || bool_decide (ge_mls_id e = grp_mls_id g)) (groups_t (chat d))) in
  ensure (negb taken) "channel name or group ID already exists" ;;;
  modify (set_chat (set_groups_t (insert (grp_name g)
    {| ge_gid := grp_gid g; ge_mls_id := grp_mls_id g |}))) ;;;
  let* epochs := gets (fun d => join_epochs (chat d)) in
  let* epochs := lift (insert_row (grp_gid g) 0 epochs) in
  modify (set_chat (set_join_epochs (fun _ => epochs))).

(* @src core/groups.rs 158-162 load_group *)
Definition load_group (g : Group) d : result MlsGroup :=
  let? o := mls_load (grp_mls_id g) (mls d) in
  ok_or o (Anyhow "MLS group state missing").
(* @src core/groups.rs 112-114 group_epoch *)
Definition group_epoch (name : string) d : result Z :=
  let? g := group name d in let? m := load_group g d in Ok (g_epoch m).

Definition member_identity (m : MlsMember) : result string :=
  let? identity := ok_or (cred_identity (m_credential m)) (Anyhow "invalid member credential") in
  ok_or (from_utf8 identity) External.
(* @src core/groups.rs 163-172 members *)
Definition members (name : string) d : result (list string) :=
  let? g := group name d in
  let? m := load_group g d in
  rmap member_identity (g_members m).
(** A [BTreeSet] of labels, in order. *)
(* @src core/groups.rs 115-128 users *)
Definition users (name : string) d : result (list string) :=
  let? ms := members name d in
  let? labels := rmap (fun member =>
      let? (user, device) := ok_or (split_once "/" member) (Anyhow "invalid member identity") in
      validate_id user ;;?
      validate_id device ;;?
      Ok (member_label (user +:+ "/" +:+ device))) ms in
  Ok (merge_sort string_le (remove_dups labels)).

(** ** The coordinator *)

(* @src core/rekey.rs 8-17 revoked_leaves *)
Definition revoked_leaves (g : MlsGroup) d : list Z :=
  map m_index (List.filter (fun m => match revoked_mls_key (m_signature_key m) d with
                                     | Some _ => true | None => false end) (g_members g)).

(** The group's row is found by its MLS identifier. *)
(* @src core/rekey.rs 18-20 stored_coordinator *)
Definition stored_coordinator (g : MlsGroup) d : option bytes :=
  match rows (fun _ e => bool_decide (ge_mls_id e = group_id g)) (groups_t (chat d)) with
  | (_, e) :: _ => group_coordinators (revocations d) !! ge_gid e
  | [] => None
  end.

Definition member_with_key (k : bytes) (g : MlsGroup) : option MlsMember :=
  List.find (fun m => bool_decide (m_signature_key m = k)) (g_members g).
Definition member_at (i : Z) (g : MlsGroup) : option MlsMember :=
  List.find (fun m => m_index m =? i) (g_members g).
Definition active_leaves (g : MlsGroup) (revoked : list Z) : list Z :=
  List.filter (fun i => negb (bool_decide (i ∈ revoked))) (map m_index (g_members g)).

(* @src core/rekey.rs 21-34 coordinator *)
Definition coordinator (g : MlsGroup) d : option Z :=
  let revoked := revoked_leaves g d in
  let fallback := min_of (active_leaves g revoked) in
  match stored_coordinator g d with
  | Some k =>
      match member_with_key k g with
      | Some m => if bool_decide (m_index m ∈ revoked) then fallback else Some (m_index m)
      | None => fallback
      end
  | None => fallback
  end.

(* @src core/rekey.rs 35-49 refresh_coordinator *)
Definition refresh_coordinator (g : MlsGroup) : M (ClientDb St) unit := fun d =>
  if match stored_coordinator g d with
     | Some k => existsb (fun m => bool_decide (m_signature_key m = k)) (g_members g)
     | None => false
     end
  then ret tt d
  else match coordinator g d with
  | Some i =>
      match member_at i g with
      | Some m =>
          (let* descriptor := lift (from_mls_id (group_id g)) in
           modify (set_revocations (set_coordinators
             (insert (grp_gid descriptor) (m_signature_key m))))) d
      | None => ret tt d
      end
  | None => ret tt d
  end.

(* @src core/rekey.rs 50-54 rekey_pending *)
Definition rekey_pending (name : string) d : result bool :=
  let? g := group name d in
  let? m := load_group g d in
  Ok (negb (bool_decide (revoked_leaves m d = []))).

(* @src core/rekey.rs 55-65 ensure_can_send *)
Definition ensure_can_send (g : MlsGroup) : M (ClientDb St) unit :=
  let* key := store_nkey in
  let* revoked := gets (is_revoked (public_key key)) in
  ensure (negb revoked && is_active g) "this device is revoked or removed from the group" ;;;
  let* leaves := gets (revoked_leaves g) in
  ensure (bool_decide (leaves = []))
    "group rekey pending; its active coordinator must sync before sending".

(** Queued application messages of a group that must not be published. *)
Definition block_group (s : string) : M (ClientDb St) unit :=
  modify (fun d => set_revocations (set_blocked (fun b =>
    list_to_set (map fst (rows (fun _ r => negb (ob_sent r) && bool_decide (ob_subject r = s))
                            (outbox (chat d)))) ∪ b)) d).
(* @src core/rekey.rs 97-108 block_revoked_outbox *)
Definition block_revoked_outbox : M (ClientDb St) unit :=
  let* gs := gets groups in
  for_each gs (fun descriptor =>
    let* r := gets (load_group descriptor) in
    let* g := lift r in
    let* leaves := gets (revoked_leaves g) in
    if is_active g && bool_decide (leaves = []) then ret tt
    else block_group (subject "message" descriptor)).

(* @src core/rekey.rs 109-161 validate_commit_author *)
Definition validate_commit_author (descriptor : Group) (index : Z) (c : StagedCommit)
  (sequence : Z) (d : ClientDb St) : result unit :=
  let? g := load_group descriptor d in
  let? sender := ok_or (member_at index g) InvalidMessage in
  require (match update_path c with
           | Some (k, credential) =>
               bool_decide (k = m_signature_key sender) && bool_decide (credential = m_credential sender)
           | None => true
           end) InvalidMessage ;;?
  require (queued_proposals c =? add_proposals c + zlen (remove_proposals c)) InvalidMessage ;;?
  require (match revoked_mls_key (m_signature_key sender) d with
           | Some cutoff => sequence <=? cutoff
           | None => true
           end) InvalidMessage ;;?
  let leader := (stored_coordinator g d) ≫= (fun k => m_index <$> member_with_key k g) in
  if bool_decide (leader = Some index) then Ok tt
  else
    let expected := revoked_leaves g d in
    let removed := remove_proposals c in
    require (bool_decide (coordinator g d = Some index) && negb (bool_decide (expected = []))
             && (zlen removed =? zlen expected)
             && forallb (fun i => bool_decide (i ∈ removed)) expected
             && (queued_proposals c =? zlen removed)) InvalidMessage.
End groups.
