(* ===== verification/Recovery.v ===== *)
(** * Recovery of a device's administration

    [crates/epochgrid-core/src/recovery.rs]: the encrypted package that carries a
    device's control credential and its trust evidence, never MLS secrets, to a
    fresh home that can administer but not chat. The home is the device
    database together with the vault of credentials beside it; a rollback of
    the database does not undo the vault. *)
From stdpp Require Import sorting.
From S2P Require Import Prelude External Wire Capacity AuditTrail Identity KvStore Merkle Transparency Secrets Mls ClientDb IdentityStore Revocation Trust Groups.

(* @src core/recovery.rs 17-17 HEADER *)
Definition HEADER : bytes := as_bytes "EGRECOV" ++ [x00; x02; x01].
(* @src core/recovery.rs 18-18 NONCE_LEN *)
Definition NONCE_LEN : Z := 12.
(* @src core/recovery.rs 19-19 MAX_PACKAGE *)
Definition MAX_PACKAGE : Z := 1048576.
(* @src core/recovery.rs 20-20 MAX_SECRET_FILE *)
Definition MAX_SECRET_FILE : Z := 128.

(** ** The secret *)

(** [str::trim]. *)
Fixpoint drop_whitespace (l : list (option N * bytes)) : list (option N * bytes) :=
  match l with
  | (Some c, _) :: r => if is_whitespace c then drop_whitespace r else l
  | _ => l
  end.
Definition trim (s : string) : string :=
  string_of_bytes (concat (map snd
    (rev (drop_whitespace (rev (drop_whitespace (utf8_pieces (as_bytes s)))))))).

(** [u8::from_str_radix] with radix 16. *)
Definition hex_value (c : ascii) : option N :=
  if is_ascii_digit c then Some (N_of_ascii c - 48)%N
  else if ascii_between "a" "f" c then Some (N_of_ascii c - 87)%N
  else if ascii_between "A" "F" c then Some (N_of_ascii c - 55)%N
  else None.
Definition from_hex_pair (a b : ascii) : result Byte.byte :=
  let? x := ok_or (hex_value a) External in
  let? y := ok_or (hex_value b) External in
  ok_or (Byte.of_N (x * 16 + y)) External.
Fixpoint from_hex (s : string) : result bytes :=
  match s with
  | EmptyString => Ok []
  | String a (String b r) =>
      let? x := from_hex_pair a b in
      let? l := from_hex r in
      Ok (x :: l)
  | _ => Err External
  end.

(* @src core/recovery.rs 32-46 RecoverySecret::parse *)
Definition secret_parse (text : string) : result bytes :=
  let text := trim text in
  let? hex := ok_or (strip_prefix "EG1-" text) (Anyhow "invalid recovery secret format") in
  check ((slen hex =? 64) && string_all is_ascii_hexdigit hex) "invalid recovery secret format" ;;?
  from_hex hex.
(* @src core/recovery.rs 47-57 RecoverySecret::encode *)
Definition secret_encode (key : bytes) : string :=
  "EG1-" +:+ hex_bytes_upper key +:+ String (ascii_of_N 10) EmptyString.

(** ** The archive *)

(* @src core/recovery.rs 73-79 RevokedDevice *)
Record RevokedDevice : Type := {
  rd_nkey : string; rd_user : string; rd_device : string; rd_mls_key : bytes; rd_cutoff : Z;
}.
(* @src core/recovery.rs 81-88 Evidence *)
Record Evidence : Type := {
  e_devices : list DeviceTrust;
  e_directory_key : option string;
  e_checkpoint : option Checkpoint;
  e_revocation_checkpoint : option Checkpoint;
  e_revoked : list RevokedDevice;
  e_alert : option string;
}.
(* @src core/recovery.rs 92-99 RecoveryArchive *)
Record RecoveryArchive : Type := {
  ra_version : Z;
  ra_exported_at : Z;
  ra_registration : DeviceRegistration;
  ra_seed : string;
  ra_evidence : Evidence;
  ra_groups : list GroupHint;
}.

Section archive.
Context `{NKeys} `{MlsPackages} `{Seeds} `{Sha256} `{Aead} `{Postcard Envelope}
  `{Postcard RegistrationPayload} `{Postcard FingerprintTuple} `{Postcard RecoveryArchive}.

(* @src core/recovery.rs 157-163 validate (groups) *)
Definition hint_validate (g : GroupHint) : result unit :=
  validate_id (hint_name g) ;;?
  check ((slen (hint_gid g) =? 32) && string_all is_ascii_hexdigit (hint_gid g))
    "invalid recovery group hint".
(* @src core/recovery.rs 164-177 validate (devices) *)
Definition trust_validate (t : DeviceTrust) : result unit :=
  validate_id (dt_user t) ;;?
  validate_id (dt_device t) ;;?
  rforall (fun fp => check ((slen fp =? 64) && string_all is_ascii_hexdigit fp)
                       "invalid recovered fingerprint") [dt_fingerprint t; dt_latest t] ;;?
  check (bool_decide (dt_state t ∈ ["verified"; "unverified"; "changed"]))
    "invalid recovered trust state".
(* @src core/recovery.rs 182-195 validate (checkpoints) *)
Definition checkpoint_validate (e : Evidence) (cp : Checkpoint) : result unit :=
  check ((cp_version cp =? 1) && (cp_size cp <=? 256)
         && bool_decide (Some (cp_signer cp) = e_directory_key e)) "invalid recovered checkpoint".
(* @src core/recovery.rs 196-206 validate (revoked) *)
Definition revoked_validate (r : RevokedDevice) : result unit :=
  validate_id (rd_user r) ;;?
  validate_id (rd_device r) ;;?
  check (starts_with "U" (rd_nkey r) && (zlen (rd_mls_key r) =? 32) && (rd_cutoff r <=? i64_max))
    "invalid recovered revocation" ;;?
  let? _ := key_pair_type (rd_nkey r) in Ok tt.

(* @src core/recovery.rs 137-208 validate *)
Definition archive_validate (a : RecoveryArchive) : result unit :=
  check ((ra_version a =? 2) && (0 <? ra_exported_at a)) "unsupported recovery payload" ;;?
  verify_signature (ra_registration a) ;;?
  let? _ := fingerprint (ra_registration a) in
  let? key := from_seed (ra_seed a) in
  check (bool_decide (public_key key = nats_public_key (payload (ra_registration a))))
    "recovery identity binding mismatch" ;;?
  let e := ra_evidence a in
  check ((zlen (ra_groups a) <=? 1024) && (zlen (e_devices e) <=? 1024)
         && (zlen (e_revoked e) <=? 256)) "recovery metadata limit exceeded" ;;?
  rforall hint_validate (ra_groups a) ;;?
  rforall trust_validate (e_devices e) ;;?
  match e_directory_key e with
  | Some key =>
      check (starts_with "U" key) "invalid recovered directory key" ;;?
      let? _ := key_pair_type key in Ok tt
  | None => Ok tt
  end ;;?
  rforall (checkpoint_validate e)
    (option_list (e_checkpoint e) ++ option_list (e_revocation_checkpoint e)) ;;?
  rforall revoked_validate (e_revoked e).

(* @src core/recovery.rs 108-136 decrypt *)
Definition decrypt (b : bytes) (secret : bytes) : result RecoveryArchive :=
  check ((zlen HEADER + NONCE_LEN + 16 <=? zlen b) && (zlen b <=? MAX_PACKAGE))
    "invalid recovery package size" ;;?
  check (bool_decide (take (length HEADER) b = HEADER))
    "unsupported recovery format, version or algorithm" ;;?
  let nonce_end := (length HEADER + Z.to_nat NONCE_LEN)%nat in
  let? plaintext :=
    ok_or (aead_decrypt secret (drop nonce_end b) (drop (length HEADER) (take nonce_end b)) HEADER)
      (Anyhow "recovery authentication failed: wrong secret or damaged package") in
  let? (archive, remaining) := take_from_bytes plaintext in
  check (bool_decide (remaining = [])) "trailing recovery payload" ;;?
  archive_validate archive ;;?
  Ok archive.

(** The end of [export_recovery], after the evidence was collected. *)
(* @src core/recovery.rs 334-357 export_recovery (encryption) *)
Definition seal_archive (a : RecoveryArchive) (random : result bytes) (nonce : result bytes)
  : result (bytes * bytes) :=
  archive_validate a ;;?
  let? plaintext := to_allocvec a in
  check (zlen plaintext <=? MAX_PACKAGE - zlen HEADER - NONCE_LEN - 16)
    "recovery package exceeds size limit" ;;?
  let? secret := random in
  let? nonce := nonce in
  let? ciphertext := ok_or (aead_encrypt secret plaintext nonce HEADER)
                       (Anyhow "recovery encryption failed") in
  Ok (HEADER ++ nonce ++ ciphertext, secret).
End archive.

(** ** The home *)

Section home.
Context `{NKeys} `{MlsPackages} `{Seeds} `{Credentials} `{Sha256} `{Aead} `{Json SecretRef}
  `{Postcard Envelope} `{Postcard RegistrationPayload} `{Postcard DeviceRegistration}
  `{Postcard FingerprintTuple} `{Postcard RecoveryArchive} `{Postcard RecoveryStatus}
  `{Postcard Checkpoint}.
Context {St : Type} `{Pages (ClientDb St)} `{Mls St} (capacity : Capacity).
Context {V : Type} `{Backend V}.
Implicit Types (d : ClientDb St).

(** [SELECT ... FROM device_trust ORDER BY user,device] and
    [SELECT ... FROM revoked_devices ORDER BY nkey]. *)
Definition by_device (a b : DeviceTrust) : Prop :=
  string_leb (dt_user a) (dt_user b) && (negb (bool_decide (dt_user a = dt_user b))
    || string_leb (dt_device a) (dt_device b)) = true.
#[export] Instance by_device_dec : RelDecision by_device.
Proof. intros a b. unfold by_device. apply _. Defined.
Definition trust_rows d : list DeviceTrust :=
  merge_sort by_device
    (map (fun '((u, dv), r) => {| dt_user := u; dt_device := dv; dt_fingerprint := pinned r;
                                  dt_latest := latest r; dt_state := trust_state r |})
       (map_to_list (device_trust_t (trust d)))).
Definition by_nkey (a b : string * RevokedRow) : Prop := string_le (fst a) (fst b).
#[export] Instance by_nkey_dec : RelDecision by_nkey.
Proof. intros a b. unfold by_nkey. apply _. Defined.
Definition revoked_rows d : result (list RevokedDevice) :=
  rmap (fun '(k, r) =>
    let? cutoff := u64_column (rv_cutoff r) in
    Ok {| rd_nkey := k; rd_user := rv_user r; rd_device := rv_device r; rd_mls_key := rv_mls_key r;
          rd_cutoff := cutoff |})
    (merge_sort by_nkey (revoked_devices (revocations d))).

(* @src core/recovery.rs 312-325 export_recovery (evidence) *)
Definition collect_evidence (devices : list DeviceTrust) (revoked : list RevokedDevice) d
  : result Evidence :=
  let? cp := stored_checkpoint d in
  let? rcp := revocation_checkpoint d in
  Ok {| e_devices := devices; e_directory_key := directory_key d; e_checkpoint := cp;
        e_revocation_checkpoint := rcp; e_revoked := revoked; e_alert := trust_alert (trust d) |}.

(** [clock] is [now()]. *)
(* @src core/recovery.rs 279-333 export_recovery (archive) *)
Definition export_archive (clock : result Z) : M (ClientDb St) RecoveryArchive :=
  ensure_messaging_identity ;;;
  let* r := gets registration in
  let* own := lift r in
  ensure (negb (bool_decide (user_id (payload own) ∈ ["service"; "system"])))
    "operator/system recovery is outside the device recovery scope" ;;;
  let* revoked := gets (is_revoked (nats_public_key (payload own))) in
  ensure (negb revoked) "cannot export a known revoked device" ;;;
  let* devices := gets trust_rows in
  let* r := gets revoked_rows in
  let* revoked := lift r in
  let* key := store_nkey in
  let* at_ := lift clock in
  let* r := gets (collect_evidence devices revoked) in
  let* evidence := lift r in
  let* gs := gets groups in
  ret {| ra_version := 2; ra_exported_at := at_; ra_registration := own; ra_seed := seed key;
         ra_evidence := evidence;
         ra_groups := map (fun g => {| hint_name := grp_name g; hint_gid := grp_gid g |}) gs |}.
(** [random] and [nonce] are what the generator gives. *)
(* @src core/recovery.rs 279-358 export_recovery *)
Definition export_recovery (clock : result Z) (random nonce : result bytes)
  : M (ClientDb St) (bytes * bytes) :=
  let* archive := export_archive clock in
  lift (seal_archive archive random nonce).

Record Home : Type := { h_db : ClientDb St; h_vault : VaultState V }.
Definition set_h_db f (h : Home) : Home := {| h_db := f (h_db h); h_vault := h_vault h |}.
Definition on_db {A} (m : M (ClientDb St) A) : M Home A := fun h =>
  let '(r, d) := m (h_db h) in (r, {| h_db := d; h_vault := h_vault h |}).
Definition on_vault {A} (m : M (VaultState V) A) : M Home A := fun h =>
  let '(r, v) := m (h_vault h) in (r, {| h_db := h_db h; h_vault := v |}).

(** [IdentityStore::transaction] around an action that also uses the vault. *)
(* @src core/identity.rs 158-189 transaction *)
Definition home_transaction {A} (action : M Home A) : M Home A := fun h =>
  if autocommit (h_db h) then
    match (let* value := action in
           on_db (check_database capacity false) ;;;
           ret value) (set_h_db (set_recovery false ∘ set_autocommit false) h) with
    | (Ok value, h') =>
        if commit_ok (h_db h') then (Ok value, set_h_db (set_autocommit true ∘ set_recovery false) h')
        else (Err (Anyhow "commit failed"), set_h_db (rolled_back (h_db h)) h')
    | (Err e, h') => (Err e, set_h_db (rolled_back (h_db h)) h')
    end
  else (Err (Anyhow "cannot start a transaction within a transaction"), h).

Definition opt_count {A} (o : option A) : Z := match o with Some _ => 1 | None => 0 end.
(* @src core/recovery.rs 220-220 restore (count) *)
Definition home_rows d : Z :=
  opt_count (local_identity d) + table_size (groups_t (chat d)) + opt_count (recovery_metadata d)
  + table_size (device_trust_t (trust d)) + opt_count (transparency_state (trust d))
  + zlen (revoked_devices (revocations d)) + opt_count (revocation_checkpoint_t (revocations d))
  + opt_count (trust_alert (trust d)) + table_size (transcript (chat d))
  + table_size (outbox (chat d)) + table_size (chat_deliveries (chat d))
  + Z.of_nat (size (welcomes (chat d))) + Z.of_nat (size (received (chat d)))
  + table_size (attachments_t (events d)) + table_size (receipt_messages (events d))
  + table_size (device_receipts (events d)) + table_size (message_events (events d))
  + Z.of_nat (size (participant_events (events d))).

(** The [INSERT]s, with the constraints of their tables. *)
(* @src core/recovery.rs 222-222 restore (identity) *)
Definition insert_identity (reference : string) (registration : bytes) : M (ClientDb St) unit :=
  let* row := gets local_identity in
  lift (require (bool_decide (row = None)) SqlConstraint) ;;;
  modify (set_identity (fun _ => Some (reference, registration))).
(* @src core/recovery.rs 223-225 restore (devices) *)
Definition insert_trust (t : DeviceTrust) : M (ClientDb St) unit :=
  let* row := gets (device_trust (dt_user t) (dt_device t)) in
  lift (require (match row with None => true | Some _ => false end
                 && bool_decide (dt_state t ∈ ["unverified"; "verified"; "changed"])) SqlConstraint) ;;;
  modify (set_trust (set_device_trust (insert (dt_user t, dt_device t)
    {| pinned := dt_fingerprint t; latest := dt_latest t; trust_state := dt_state t |}))).
(* @src core/recovery.rs 226-228 restore (directory key) *)
Definition insert_directory (e : Evidence) : M (ClientDb St) unit :=
  match e_directory_key e with
  | None => ret tt
  | Some key =>
      let* cp := lift (match e_checkpoint e with
                       | None => Ok None
                       | Some cp => let? b := to_allocvec cp in Ok (Some b)
                       end) in
      let* row := gets (fun d => transparency_state (trust d)) in
      lift (require (bool_decide (row = None)) SqlConstraint) ;;;
      modify (set_trust (set_transparency (fun _ => Some (key, cp))))
  end.
(* @src core/recovery.rs 229-231 restore (revocation checkpoint) *)
Definition insert_revocation_checkpoint (e : Evidence) : M (ClientDb St) unit :=
  match e_revocation_checkpoint e with
  | None => ret tt
  | Some cp =>
      let* b := lift (to_allocvec cp) in
      let* row := gets (fun d => revocation_checkpoint_t (revocations d)) in
      lift (require (bool_decide (row = None)) SqlConstraint) ;;;
      modify (set_revocations (set_revocation_checkpoint (Some b)))
  end.
(* @src core/recovery.rs 232-234 restore (revoked) *)
Definition insert_revoked_row (r : RevokedDevice) : M (ClientDb St) unit :=
  let* known := gets (is_revoked (rd_nkey r)) in
  lift (require (negb known) SqlConstraint) ;;;
  modify (set_revocations (set_revoked (fun l => l ++ [(rd_nkey r,
    {| rv_user := rd_user r; rv_device := rd_device r; rv_mls_key := rd_mls_key r;
       rv_cutoff := rd_cutoff r |})]))).
(* @src core/recovery.rs 235-237 restore (alert) *)
Definition insert_alert (e : Evidence) : M (ClientDb St) unit :=
  match e_alert e with
  | None => ret tt
  | Some alert =>
      let* row := gets (fun d => trust_alert (trust d)) in
      lift (require (bool_decide (row = None)) SqlConstraint) ;;;
      modify (set_trust (set_alert (Some alert)))
  end.
(* @src core/recovery.rs 238-238 restore (marker) *)
Definition insert_marker (s : RecoveryStatus) : M (ClientDb St) unit :=
  let* b := lift (to_allocvec s) in
  let* row := gets recovery_metadata in
  lift (require (bool_decide (row = None)) SqlConstraint) ;;;
  modify (set_recovery_metadata (Some b)).

(* @src core/recovery.rs 211-241 restore *)
Definition restore (a : RecoveryArchive) (clock : result Z) (lock_free : bool) (fresh : string)
  : M Home RecoveryStatus :=
  lift (archive_validate a) ;;;
  let* at_ := lift clock in
  let* fp := lift (fingerprint (ra_registration a)) in
  let status := {| exported_at := ra_exported_at a; restored_at := at_; rs_fingerprint := fp;
                   rs_groups := ra_groups a |} in
  let e := ra_evidence a in
  home_transaction (
    let* count := gets (home_rows ∘ h_db) in
    ensure (count =? 0)
      "recovery requires an uninitialized home; existing identity/trust state cannot be overwritten" ;;;
    let* reference := on_vault (import "device" User (ra_seed a) lock_free fresh) in
    let* encoded := lift (to_json reference) in
    let* registration := lift (to_allocvec (ra_registration a)) in
    on_db (
      insert_identity encoded registration ;;;
      for_each (e_devices e) insert_trust ;;;
      insert_directory e ;;;
      insert_revocation_checkpoint e ;;;
      for_each (e_revoked e) insert_revoked_row ;;;
      insert_alert e ;;;
      insert_marker status ;;;
      ret status)).
End home.
Arguments h_db {St V}. Arguments h_vault {St V}.
