(* ===== verification/Database.v ===== *)
(** * Database files

    [crates/epochgrid-core/src/database.rs]: every SQLite database is encrypted
    with a key of the keyring, bound to that key, and opened through one
    function that provisions it, survives a crash between any two of its
    writes, and never resets what was established. And its
    [inspection.rs]: the same checks without a single write. *)
From S2P Require Import Prelude External Wire Identity Merkle Secrets.

(** ** The directory *)

(* @src core/database.rs 9-16 State *)
Record DbState : Type := {
  db_version : Z;
  db_role : string;
  db_key : SecretRef;
  db_ready : bool;
}.

(** What a keyed connection finds: the table [database_binding], if it exists,
    with its row, if there is one; and the application's objects, if any. *)
Definition Binding_row : Type := (Z * string * string)%type.
Record Contents (D : Type) : Type := {
  c_binding : option (option Binding_row);
  c_data : option D;
}.
Arguments c_binding {D}. Arguments c_data {D}.

(** [<role>.sqlite]: empty, readable without a key, or encrypted with one. *)
Inductive DbFile (D : Type) : Type :=
| EmptyFile
| PlainFile
| Cipher (key : string) (c : Contents D).
Arguments EmptyFile {D}. Arguments PlainFile {D}. Arguments Cipher {D}.

(** The files of one role in the home directory, and the vault beside them.
    [d_io] says, for each of the next operations on files, whether it happens
    and, when it does, whether the caller is told so; the operations after the
    end of the list succeed. A crash is an operation that fails. *)
Record Dir (D S : Type) : Type := {
  d_file : option (DbFile D);
  d_state : option (result DbState);
  d_vault : VaultState S;
  d_io : list (bool * bool);
}.
Arguments d_file {D S}. Arguments d_state {D S}. Arguments d_vault {D S}. Arguments d_io {D S}.

(** The errors of inspection, which callers tell apart. *)
(* @src core/database/inspection.rs 5-35 InspectionError *)
Inductive InspectionError : Type :=
| MissingDatabase | MetadataMissing | MetadataInvalid | Incomplete | CredentialBinding | Plaintext
| Unreadable | BindingMismatch | Schema | Integrity | Busy | ControlBinding.
#[global] Instance InspectionError_eq_dec : EqDecision InspectionError.
Proof. solve_decision. Defined.
(* @src core/database/inspection.rs 37-52 code *)
Definition inspection_code (e : InspectionError) : string :=
  match e with
  | MissingDatabase => "database_missing"
  | MetadataMissing => "database_metadata_missing"
  | MetadataInvalid => "database_metadata_invalid"
  | Incomplete => "initialization_incomplete"
  | CredentialBinding => "credential_binding_mismatch"
  | Plaintext => "plaintext_database"
  | Unreadable => "database_unreadable"
  | BindingMismatch => "database_binding_mismatch"
  | Schema => "schema_unsupported"
  | Integrity => "database_integrity_failed"
  | Busy => "database_busy"
  | ControlBinding => "control_identity_mismatch"
  end.
(** An inspection error as an [anyhow::Error], and [downcast_ref]: the code
    stands for the variant. *)
Definition inspection (e : InspectionError) : error := Anyhow (inspection_code e).
Definition inspection_of (e : error) : option InspectionError :=
  List.find (fun i => bool_decide (inspection i = e))
    [MissingDatabase; MetadataMissing; MetadataInvalid; Incomplete; CredentialBinding; Plaintext;
     Unreadable; BindingMismatch; Schema; Integrity; Busy; ControlBinding].
(** SQLite's busy and locked codes. *)
Definition SqlBusy : error := Anyhow "database is locked".

Section database.
Context {D S : Type} `{Backend S} `{Seeds} `{Sha256}.
Implicit Types (d : Dir D S).

Definition set_file f d : Dir D S :=
  {| d_file := f; d_state := d_state d; d_vault := d_vault d; d_io := d_io d |}.
Definition set_state s d : Dir D S :=
  {| d_file := d_file d; d_state := s; d_vault := d_vault d; d_io := d_io d |}.
Definition set_io l d : Dir D S :=
  {| d_file := d_file d; d_state := d_state d; d_vault := d_vault d; d_io := l |}.
Definition on_vault {A} (m : M (VaultState S) A) : M (Dir D S) A := fun d =>
  let '(r, v) := m (d_vault d) in
  (r, {| d_file := d_file d; d_state := d_state d; d_vault := v; d_io := d_io d |}).

(** One operation on the files. *)
Definition effect (f : Dir D S -> Dir D S) : M (Dir D S) unit := fun d =>
  let '(happens, reported) := hd (true, true) (d_io d) in
  (if happens && reported then Ok tt else Err External,
   (if happens : bool then f else id) (set_io (tl (d_io d)) d)).
(** [secrets::save] of the role's metadata. *)
Definition save_state (s : DbState) : M (Dir D S) unit := effect (set_state (Some (Ok s))).

(** SQLite's read-only probe: an unkeyed connection reads a plain file, and what
    it cannot read is not a database to it. *)
(* @src core/database.rs 18-39 reject_plaintext *)
Definition reject_plaintext : M (Dir D S) unit :=
  effect id ;;;
  let* file := gets d_file in
  match file with
  | None | Some EmptyFile => ret tt
  | Some PlainFile => fail (inspection Plaintext)
  | Some (Cipher _ _) => ret tt
  end.

(** A keyed connection and its first query. A new database is created in an
    empty file. *)
(* @src core/database.rs 142-171 keyed *)
Definition keyed (key : string) : M (Dir D S) (Contents D) :=
  effect id ;;;
  let* file := gets d_file in
  lift (match file with
        | Some EmptyFile => Ok {| c_binding := None; c_data := None |}
        | Some (Cipher k c) =>
            if bool_decide (k = key) then Ok c
            else Err (Anyhow "database cannot be decrypted or is corrupt; restore matching database, metadata and keyring")
        | _ => Err (Anyhow "database cannot be decrypted or is corrupt; restore matching database, metadata and keyring")
        end).

Definition database_role (role : string) : string := "database-" +:+ role.

(** The metadata: what is on disk, or, where there is neither metadata nor
    database, a new key whose reference reaches the disk first. *)
(* @src core/database.rs 56-76 open (metadata) *)
Definition open_state (role : string) (vault_lock : bool) (fresh : string) (generated : result string)
  : M (Dir D S) DbState :=
  let* state := gets d_state in
  match state with
  | Some r => lift r
  | None =>
      let* file := gets d_file in
      ensure (match file with None => true | Some _ => false end)
        "database metadata missing; restore original metadata and keyring; database was not changed" ;;;
      let* key := on_vault (provision (database_role role) Database vault_lock fresh generated) in
      let state := {| db_version := 1; db_role := role; db_key := key; db_ready := false |} in
      save_state state ;;;
      ret state
  end.

Definition nonempty (f : option (DbFile D)) : bool :=
  match f with None | Some EmptyFile => false | Some _ => true end.

(** The file exists, with its permissions, before SQLite opens it. *)
(* @src core/database.rs 88-98 open (file) *)
Definition open_file : M (Dir D S) unit :=
  let* file := gets d_file in
  match file with
  | None => effect (set_file (Some EmptyFile)) ;;; effect id ;;; effect id
  | Some _ => ret tt
  end ;;;
  effect id.

(** The binding row, or a database without any object, which gets one in one
    transaction. *)
(* @src core/database.rs 100-134 open (binding) *)
Definition open_binding (role : string) (state : DbState) (key : string) (c : Contents D)
  : M (Dir D S) unit :=
  match c_binding c with
  | Some (Some (version, stored_role, id)) =>
      ensure ((version =? 1) && bool_decide (stored_role = role) && bool_decide (id = sr_id (db_key state)))
        "database binding mismatch; restore matching metadata and keyring"
  | binding =>
      ensure (negb (db_ready state)) "database binding missing; refusing reset" ;;;
      ensure (match binding, c_data c with None, None => true | _, _ => false end)
        "unrecognized database schema; refusing initialization" ;;;
      effect (set_file (Some (Cipher key
        {| c_binding := Some (Some (1, role, sr_id (db_key state))); c_data := None |})))
  end.

(** [lock_free] is whether the role's lock was free, [vault_lock] whether the
    vault's was; [fresh] and [generated] are the randomness of a new key. *)
(* @src core/database.rs 41-140 open *)
Definition open (role : string) (lock_free vault_lock : bool) (fresh : string)
    (generated : result string) : M (Dir D S) unit :=
  ensure (bool_decide (role ∈ ["identity"; "auth"])) "invalid database role" ;;;
  reject_plaintext ;;;
  effect id ;;; effect id ;;; effect id ;;;
  ensure lock_free "database initialization/open already in progress; retry" ;;;
  reject_plaintext ;;;
  let* state := open_state role vault_lock fresh generated in
  ensure ((db_version state =? 1) && bool_decide (db_role state = role)
          && bool_decide (sr_kind (db_key state) = Database))
    "unsupported or mismatched database metadata" ;;;
  let* file := gets d_file in
  ensure (negb (db_ready state) || nonempty file)
    "established database is missing or empty; restore original database; refusing reset" ;;;
  let* v := gets d_vault in
  let* key := lift (read_with (db_key state) (keyring v)) in
  open_file ;;;
  let* c := keyed key in
  open_binding role state key c ;;;
  when (negb (db_ready state))
    (save_state {| db_version := db_version state; db_role := db_role state; db_key := db_key state;
                   db_ready := true |}).
End database.
