(* ===== verification/DatabaseFacts.v ===== *)
(** * Opening a database survives crashes

    The invariant of a role's directory under opens that stop anywhere and under
    any other use of the vault, and what it gives: nothing established is reset,
    the key never changes, and the next undisturbed open succeeds. *)
From S2P Require Import Prelude External Wire Identity Merkle Secrets Database.

Section facts.
Context {D S : Type} `{BackendLaws S} `{Seeds} `{Sha256}.
Implicit Types (d : Dir D S) (v : VaultState S).

(** ** References stay good *)

Lemma read_with_le r (s s' : S) x :
  (forall id y, backend_read id s = Ok (Some y) -> backend_read id s' = Ok (Some y)) ->
  read_with r s = Ok x -> read_with r s' = Ok x.
Proof.
  intros Hle. unfold read_with. intros Hr. apply rbind_Ok in Hr as ([] & Hid & Hr).
  apply rbind_Ok in Hr as (o & Ho & Hr). apply rbind_Ok in Hr as (y & Hy%ok_or_Ok & Hr). subst o.
  rewrite Hid. cbn [rbind]. rewrite (Hle _ _ Ho). exact Hr.
Qed.
Lemma existing_le role k v v' r :
  vault_le v v' -> existing role k v = Ok r -> existing role k v' = Ok r.
Proof.
  intros [Hk Hm] He. unfold existing in *. destruct (metadata_file v) as [rm|] eqn:Hf; [|done].
  apply rbind_Ok in He as (m & -> & He).
  destruct (Hm m) as (m' & Hm' & Hver & Hslots); [unfold read_metadata; by rewrite Hf|].
  apply rbind_Ok in He as ([] & Hv1%check_Ok & He). apply rbind_Ok in He as (slot & Hslot%ok_or_Ok & He).
  destruct (Hslots _ _ Hslot) as (slot' & Hslot' & Hid & Hkind & Hpub).
  assert (metadata_file v' = Some (Ok m')) as ->.
  { unfold read_metadata in Hm'. destruct (metadata_file v') as [[]|]; try congruence.
    injection Hm' as <-. cbn in Hslot'. by rewrite lookup_empty in Hslot'. }
  cbn [rbind]. rewrite Hver, Hv1, Hslot'. cbn [check ok_or rbind]. rewrite Hkind, Hid.
  apply rbind_Ok in He as ([] & Hkd & He). rewrite Hkd. cbn [rbind].
  apply rbind_Ok in He as (p & Hp%ok_or_Ok & He). rewrite (Hpub _ Hp). cbn [ok_or rbind].
  apply rbind_Ok in He as (x & Hx & He). by rewrite (read_with_le _ _ _ _ Hk Hx).
Qed.
Lemma existing_readable role k v r :
  existing role k v = Ok r -> exists x, read_with r (keyring v) = Ok x.
Proof.
  unfold existing. destruct (metadata_file v); [|done]. intros He. inv_ok. by eexists.
Qed.

(** ** The invariant *)

(** Metadata and database agree, whichever of the writes of [open] was last. *)
Definition bound_to (role : string) (s : DbState) (c : Contents D) : Prop :=
  c_binding c = Some (Some (1, role, sr_id (db_key s))).
Definition sound (role : string) d : Prop :=
  match d_state d with
  | None => d_file d = None
  | Some (Err _) => False
  | Some (Ok s) =>
      db_version s = 1 /\ db_role s = role /\ sr_kind (db_key s) = Database /\
      existing (database_role role) Database (d_vault d) = Ok (db_key s) /\
      match d_file d with
      | None | Some EmptyFile => db_ready s = false
      | Some PlainFile => False
      | Some (Cipher k c) => read_with (db_key s) (keyring (d_vault d)) = Ok k /\ bound_to role s c
      end
  end.
(** What a completed open leaves. *)
Definition established (role : string) d : Prop :=
  exists s k c, d_state d = Some (Ok s) /\ db_ready s = true /\ d_file d = Some (Cipher k c) /\
    read_with (db_key s) (keyring (d_vault d)) = Ok k /\ bound_to role s c.

Definition file_data d : option D :=
  match d_file d with Some (Cipher _ c) => c_data c | _ => None end.

(** Nothing established is undone: the data, the key and the ready mark. *)
Definition kept d d' : Prop :=
  file_data d' = file_data d /\
  (forall k c, d_file d = Some (Cipher k c) -> d_file d' = Some (Cipher k c)) /\
  (forall s, d_state d = Some (Ok s) ->
     exists s', d_state d' = Some (Ok s') /\ db_key s' = db_key s /\
       (db_ready s = true -> db_ready s' = true)) /\
  vault_le (d_vault d) (d_vault d').
#[export] Instance kept_preorder : PreOrder kept.
Proof.
  split.
  - intros d. unfold kept. split_and!; [done|done| |reflexivity]. intros s Hs. by exists s.
  - intros a b c (D1 & F1 & S1 & V1) (D2 & F2 & S2 & V2). split_and!; [congruence|auto| |by etrans].
    intros s Hs. destruct (S1 _ Hs) as (s1 & Hs1 & K1 & R1). destruct (S2 _ Hs1) as (s2 & Hs2 & K2 & R2).
    exists s2. split_and!; [done|congruence|auto].
Qed.
(** One step of the directory: it keeps what was there, and the invariant. *)
Definition advances (role : string) d d' : Prop := kept d d' /\ (sound role d -> sound role d').
#[export] Instance advances_preorder role : PreOrder (advances role).
Proof.
  split; [by intros d; split|]. intros a b c [K1 S1] [K2 S2]. split; [by etrans|auto].
Qed.

Lemma effect_run f d :
  exists b r l, effect f d = (r, (if b : bool then f else id) (set_io l d)) /\ (r = Ok tt -> b = true).
Proof.
  unfold effect. destruct (hd _ _) as [b b']. exists b. eexists _, _. split; [done|]. by destruct b.
Qed.
Lemma set_io_advances role l d : advances role d (set_io l d).
Proof.
  split; [|done]. unfold kept. split_and!; [done|done| |reflexivity]. intros s Hs. by exists s.
Qed.
Lemma idle_advances role : keeps (advances role) (effect id).
Proof.
  intros d. destruct (effect_run id d) as (b & r & l & -> & _). destruct b; apply set_io_advances.
Qed.
Lemma effect_at f role d :
  (forall l, advances role d (f (set_io l d))) -> advances role d (snd (effect f d)).
Proof.
  intros Hf. destruct (effect_run f d) as (b & r & l & -> & _). destruct b; [apply Hf|apply set_io_advances].
Qed.

(** ** One open *)

(** [m], run in [d], only advances the directory and, if it succeeds,
    establishes [P]. *)
Definition safe {A} role (m : M (Dir D S) A) (P : A -> Dir D S -> Prop) d : Prop :=
  match m d with
  | (Ok a, d') => advances role d d' /\ P a d'
  | (Err _, d') => advances role d d'
  end.
Lemma safe_bind {A B} role (m : M (Dir D S) A) (k : A -> M (Dir D S) B) P Q d :
  safe role m P d -> (forall a d1, advances role d d1 -> P a d1 -> safe role (k a) Q d1) ->
  safe role (bind m k) Q d.
Proof.
  unfold safe, bind. intros Hm Hk. destruct (m d) as [[a|e] d1]; [|done].
  destruct Hm as [Ha HP]. specialize (Hk a d1 Ha HP).
  destruct (k a d1) as [[b|e] d2]; [destruct Hk; split; [by etrans|done]|by etrans].
Qed.
Lemma safe_impl {A} role (m : M (Dir D S) A) (P Q : A -> Dir D S -> Prop) d :
  safe role m P d -> (forall a d', P a d' -> Q a d') -> safe role m Q d.
Proof. unfold safe. intros Hm HPQ. destruct (m d) as [[a|e] d']; [destruct Hm; auto|done]. Qed.

Lemma safe_ensure role b msg d : safe role (ensure b msg) (fun _ d' => b = true /\ d' = d) d.
Proof. unfold safe, ensure. by destruct b. Qed.
Lemma safe_gets {A} role (f : Dir D S -> A) d : safe role (gets f) (fun a d' => a = f d /\ d' = d) d.
Proof. done. Qed.
Lemma safe_lift {A} role (r : result A) d : safe role (lift r) (fun a d' => r = Ok a /\ d' = d) d.
Proof. unfold safe, lift. by destruct r. Qed.
Lemma safe_effect role f d :
  (forall l, advances role d (f (set_io l d))) ->
  safe role (effect f) (fun _ d' => exists l, d' = f (set_io l d)) d.
Proof.
  intros Hf. unfold safe. pose proof (effect_at f role d Hf) as Ha.
  destruct (effect_run f d) as (b & r & l & Hr & Hb). rewrite Hr in *. destruct r as [[]|e]; [|done].
  rewrite (Hb eq_refl) in *. split; [done|by exists l].
Qed.

(** What the steps that only read leave. *)
Definition same_dir d d' : Prop :=
  d_file d' = d_file d /\ d_state d' = d_state d /\ d_vault d' = d_vault d.
Lemma same_dir_sound role d d' : same_dir d d' -> sound role d -> sound role d'.
Proof. intros (Hf & Hs & Hv). unfold sound. by rewrite Hf, Hs, Hv. Qed.
Lemma safe_idle role d : safe role (effect id) (fun _ d' => same_dir d d') d.
Proof.
  eapply safe_impl; [apply safe_effect; intros l; apply set_io_advances|]. by intros [] d' [l ->].
Qed.
Lemma safe_reject role d :
  safe role reject_plaintext (fun _ d' => same_dir d d' /\ d_file d <> Some PlainFile) d.
Proof.
  unfold reject_plaintext. eapply safe_bind; [apply safe_idle|]. intros [] d1 _ S1.
  unfold safe, bind, gets. rewrite (proj1 S1).
  destruct (d_file d) as [[| |k c]|] eqn:Hf; cbn; [|reflexivity|..]; by split.
Qed.

Lemma safe_state role vl fresh generated d :
  sound role d ->
  safe role (open_state role vl fresh generated) (fun s d' => d_state d' = Some (Ok s)) d.
Proof.
  intros Hs. unfold open_state. eapply safe_bind; [apply safe_gets|]. intros o d1 _ [-> ->].
  destruct (d_state d) as [r|] eqn:Hst.
  { eapply safe_impl; [apply safe_lift|]. by intros s d' [-> ->]. }
  eapply safe_bind; [apply safe_gets|]. intros o d1 _ [-> ->].
  assert (d_file d = None) as Hf by (unfold sound in Hs; by rewrite Hst in Hs). rewrite Hf.
  eapply safe_bind; [apply safe_ensure|]. intros [] d1 _ [_ ->].
  eapply (safe_bind _ _ _ (fun k d' => d_file d' = None /\ d_state d' = None /\
    sr_kind k = Database /\ existing (database_role role) Database (d_vault d') = Ok k)).
  { unfold safe, on_vault. destruct (provision _ _ _ _ _ (d_vault d)) as [r v'] eqn:Hp.
    assert (vault_le (d_vault d) v') as Hle.
    { pose proof (vault_ensure_le (database_role role) Database None vl fresh generated (d_vault d)) as Hle.
      unfold provision in Hp. by rewrite Hp in Hle. }
    assert (advances role d {| d_file := d_file d; d_state := d_state d; d_vault := v'; d_io := d_io d |}).
    { split; [split_and!; [done|done|by rewrite Hst|done]|]. unfold sound. cbn. by rewrite Hst. }
    destruct r as [k|e]; [|done]. split; [done|]. cbn.
    destruct (vault_provisions _ _ _ _ _ _ _ _ _ Hp) as (Hk & _ & He & _). by split_and!. }
  intros k d1 _ (Hf1 & Hs1 & Hk & He). eapply safe_bind; [apply safe_effect|].
  - intros l. split.
    + split_and!; cbn; [done|done|by rewrite Hs1|reflexivity].
    + intros _. unfold sound. cbn. by rewrite Hf1.
  - intros [] d2 _ [l ->]. by split.
Qed.

Lemma safe_file role s d :
  sound role d -> d_state d = Some (Ok s) ->
  safe role open_file (fun _ d' => d_state d' = d_state d /\ d_vault d' = d_vault d /\
    d_file d' = Some (default EmptyFile (d_file d))) d.
Proof.
  intros Hs Hst. unfold open_file. eapply safe_bind; [apply safe_gets|]. intros o d1 _ [-> ->].
  eapply (safe_bind _ _ _ (fun _ d' => d_state d' = d_state d /\ d_vault d' = d_vault d /\
    d_file d' = Some (default EmptyFile (d_file d)))).
  2: { intros [] d1 _ (E1 & E2 & E3). eapply safe_impl; [apply safe_idle|].
       intros [] d2 (F1 & F2 & F3). by rewrite F1, F2, F3. }
  destruct (d_file d) as [f|] eqn:Hf; [by cbn|].
  eapply safe_bind; [apply safe_effect|].
  - intros l. split.
    + split_and!; cbn; [by unfold file_data; rewrite Hf|by rewrite Hf| |reflexivity].
      intros s' Hs'. by exists s'.
    + unfold sound. cbn. by rewrite Hst, Hf.
  - intros [] d1 _ [l ->]. eapply safe_bind; [apply safe_idle|]. intros [] d2 _ (F1 & F2 & F3).
    eapply safe_impl; [apply safe_idle|]. intros [] d3 (G1 & G2 & G3).
    cbn in *. by rewrite G1, G2, G3.
Qed.

Lemma safe_binding role s key c d :
  sound role d -> d_state d = Some (Ok s) -> read_with (db_key s) (keyring (d_vault d)) = Ok key ->
  (d_file d = Some EmptyFile /\ c = {| c_binding := None; c_data := None |} \/
   d_file d = Some (Cipher key c)) ->
  safe role (open_binding role s key c) (fun _ d' => d_state d' = Some (Ok s) /\
    d_vault d' = d_vault d /\ exists c', d_file d' = Some (Cipher key c') /\ bound_to role s c') d.
Proof.
  intros Hs Hst Hkey [[Hf ->]|Hf]; unfold open_binding; cbn [c_binding c_data].
  - do 2 (eapply safe_bind; [apply safe_ensure|intros [] ? _ [_ ->]]).
    eapply safe_impl; [apply safe_effect|].
    + intros l. split.
      * split_and!; cbn; [by unfold file_data; rewrite Hf|by rewrite Hf| |reflexivity].
        intros s' Hs'. by exists s'.
      * unfold sound. cbn. rewrite Hst. intros (V & R & K & E & _). by split_and!.
    + intros [] d' [l ->]. cbn. split_and!; [done..|]. by eexists.
  - unfold sound in Hs. rewrite Hst, Hf in Hs. destruct Hs as (_ & _ & _ & _ & _ & Hb).
    unfold bound_to in Hb. rewrite Hb. eapply safe_impl; [apply safe_ensure|].
    intros [] d' [_ ->]. split_and!; [done..|]. by exists c.
Qed.

Lemma safe_open role lock_free vl fresh generated d :
  sound role d ->
  safe role (open role lock_free vl fresh generated) (fun _ d' => established role d') d.
Proof.
  intros Hs. unfold open. eapply safe_bind; [apply safe_ensure|]. intros [] d0 _ [_ ->].
  eapply safe_bind; [apply safe_reject|]. intros [] d1 _ [S1 _].
  do 3 (eapply safe_bind; [apply safe_idle|intros [] ? _ ?]).
  eapply safe_bind; [apply safe_ensure|]. intros [] d5 _ [_ ->].
  eapply safe_bind; [apply safe_reject|]. intros [] d6 _ [S6 _].
  assert (sound role d6) as Hs6.
  { repeat (eapply same_dir_sound; [eassumption|]). exact Hs. }
  eapply safe_bind; [by apply safe_state|]. intros s d7 [_ A7] Hst. specialize (A7 Hs6).
  eapply safe_bind; [apply safe_ensure|]. intros [] d8 _ [_ ->].
  eapply safe_bind; [apply safe_gets|]. intros o d8 _ [-> ->].
  eapply safe_bind; [apply safe_ensure|]. intros [] d8 _ [_ ->].
  eapply safe_bind; [apply safe_gets|]. intros v d8 _ [-> ->].
  eapply safe_bind; [apply safe_lift|]. intros key d8 _ [Hkey ->].
  eapply safe_bind; [by eapply safe_file|]. intros [] d8 [_ A8] (Hst8 & Hv8 & Hf8). specialize (A8 A7).
  rewrite Hst in Hst8. rewrite <- Hv8 in Hkey.
  eapply (safe_bind _ _ _ (fun c d' => same_dir d8 d' /\
    (d_file d8 = Some EmptyFile /\ c = {| c_binding := None; c_data := None |} \/
     d_file d8 = Some (Cipher key c)))).
  { unfold keyed. eapply safe_bind; [apply safe_idle|]. intros [] d9 _ S9.
    eapply safe_bind; [apply safe_gets|]. intros f d10 _ [-> ->].
    eapply safe_impl; [apply safe_lift|]. intros c d10 [Hc ->]. split; [done|].
    rewrite (proj1 S9) in Hc. destruct (d_file d8) as [[| |k c']|]; try done.
    - left. by injection Hc as <-.
    - right. case_bool_decide; [|done]. injection Hc as <-. congruence. }
  intros c d9 _ [S9 Hc]. assert (sound role d9) as Hs9 by (by eapply same_dir_sound).
  destruct S9 as (F9 & T9 & V9).
  eapply safe_bind; [apply safe_binding; [done|congruence|by rewrite V9|by rewrite F9]|].
  intros [] d10 _ (T10 & V10 & c' & F10 & B10). rewrite V9 in V10.
  unfold when. destruct (db_ready s) eqn:Hready; cbn [negb].
  { unfold safe, ret. split; [reflexivity|]. exists s, key, c'. by rewrite V10. }
  eapply safe_impl; [apply safe_effect|].
  - intros l. split.
    + split_and!; cbn; [done|done| |reflexivity]. intros s' Hs'. rewrite T10 in Hs'.
      injection Hs' as <-. eexists. split; [done|]. split; [done|]. cbn. intros; done.
    + unfold sound. cbn. rewrite T10, F10. done.
  - intros [] d' [l ->]. eexists _, key, c'. cbn. split_and!; try done. by rewrite V10.
Qed.

(** ** An undisturbed open *)

Lemma effect_live f d : d_io d = [] -> effect f d = (Ok tt, f d).
Proof. unfold effect. intros Hio. rewrite Hio. destruct d. cbn in *. by subst. Qed.
Lemma reject_live d : d_io d = [] -> d_file d <> Some PlainFile -> reject_plaintext d = (Ok tt, d).
Proof.
  intros Hio Hf. unfold reject_plaintext. rewrite (bind_run _ _ _ tt d) by by apply effect_live.
  unfold bind, gets. by destruct (d_file d) as [[| |k c]|].
Qed.
Lemma sound_not_plain role d : sound role d -> d_file d <> Some PlainFile.
Proof.
  unfold sound. intros Hs Hf. rewrite Hf in Hs. destruct (d_state d) as [[s|e]|]; try done.
  by destruct Hs as (_ & _ & _ & _ & []).
Qed.

(** From the metadata on, nothing is in the way. *)
Definition settle (role : string) (s : DbState) : M (Dir D S) unit :=
  ensure ((db_version s =? 1) && bool_decide (db_role s = role)
          && bool_decide (sr_kind (db_key s) = Database))
    "unsupported or mismatched database metadata" ;;;
  let* file := gets d_file in
  ensure (negb (db_ready s) || nonempty file)
    "established database is missing or empty; restore original database; refusing reset" ;;;
  let* v := gets d_vault in
  let* key := lift (read_with (db_key s) (keyring v)) in
  open_file ;;;
  let* c := keyed key in
  open_binding role s key c ;;;
  when (negb (db_ready s))
    (save_state {| db_version := db_version s; db_role := db_role s; db_key := db_key s;
                   db_ready := true |}).
Lemma keyed_empty key d :
  d_io d = [] -> d_file d = Some EmptyFile -> keyed key d = (Ok {| c_binding := None; c_data := None |}, d).
Proof.
  intros Hio Hf. unfold keyed. rewrite (bind_run _ _ _ tt d) by by apply effect_live.
  unfold bind, gets, lift. by rewrite Hf.
Qed.
Lemma settle_empty role s key d :
  d_io d = [] -> db_ready s = false -> d_file d = Some EmptyFile ->
  fst ((let* c := keyed key in
        open_binding role s key c ;;;
        when (negb (db_ready s)) (save_state {| db_version := db_version s; db_role := db_role s;
                                                db_key := db_key s; db_ready := true |})) d) = Ok tt.
Proof.
  intros Hio Hr Hf. rewrite (bind_run _ _ _ _ _ (keyed_empty key d Hio Hf)).
  unfold open_binding. cbn [c_binding c_data]. rewrite Hr. cbn [negb when].
  unfold bind at 1. unfold bind at 1, ensure at 1. unfold bind at 1, ensure at 1.
  rewrite effect_live by done. unfold save_state. by rewrite effect_live.
Qed.
Lemma settle_live role s d :
  sound role d -> d_io d = [] -> d_state d = Some (Ok s) -> fst (settle role s d) = Ok tt.
Proof.
  intros Hs Hio Hst. unfold sound in Hs. rewrite Hst in Hs. destruct Hs as (V & R & K & E & F).
  unfold settle. rewrite (bind_run _ _ _ tt d).
  2: { unfold ensure. by rewrite V, R, K, !bool_decide_eq_true_2. }
  rewrite (bind_run _ _ _ (d_file d) d) by done. rewrite (bind_run _ _ _ tt d).
  2: { unfold ensure. destruct (d_file d) as [[| |k c]|]; cbn; try done;
       by rewrite ?F, ?orb_true_r. }
  rewrite (bind_run _ _ _ (d_vault d) d) by done.
  destruct (existing_readable _ _ _ _ E) as [key Hkey].
  rewrite (bind_run _ _ _ key d) by (unfold lift; by rewrite Hkey).
  destruct (d_file d) as [[| |k c]|] eqn:Hf; [|done|..].
  - rewrite (bind_run _ _ _ tt d); [by apply settle_empty|].
    unfold open_file, bind at 1, gets. rewrite Hf. unfold bind, ret. by rewrite effect_live.
  - destruct F as [Hk Hb]. rewrite Hkey in Hk. injection Hk as <-.
    rewrite (bind_run _ _ _ tt d).
    2: { unfold open_file, bind at 1, gets. rewrite Hf. unfold bind, ret. by rewrite effect_live. }
    rewrite (bind_run _ _ _ c d).
    2: { unfold keyed. rewrite (bind_run _ _ _ tt d) by by apply effect_live.
         unfold bind, gets, lift. rewrite Hf. by rewrite bool_decide_eq_true_2. }
    rewrite (bind_run _ _ _ tt d).
    2: { unfold open_binding. rewrite Hb. unfold ensure. by rewrite !bool_decide_eq_true_2. }
    destruct (db_ready s); [done|]. cbn. unfold save_state. by rewrite effect_live.
  - set (d1 := set_file (Some EmptyFile) d). rewrite (bind_run _ _ _ tt d1).
    + by apply settle_empty.
    + unfold open_file, bind at 1, gets. rewrite Hf. unfold bind. by rewrite !effect_live.
Qed.

Lemma open_live role vl fresh generated d :
  sound role d -> d_io d = [] -> role ∈ ["identity"; "auth"] ->
  (d_state d = None ->
     is_ok (fst (provision (database_role role) Database vl fresh generated (d_vault d))) = true) ->
  fst (open role true vl fresh generated d) = Ok tt.
Proof.
  intros Hs Hio Hrole Hp. pose proof (sound_not_plain _ _ Hs) as Hplain. unfold open.
  rewrite (bind_run _ _ _ tt d) by (unfold ensure; by rewrite bool_decide_eq_true_2).
  rewrite (bind_run _ _ _ tt d) by by apply reject_live.
  do 3 rewrite (bind_run _ _ _ tt d) by by apply effect_live.
  rewrite (bind_run _ _ _ tt d) by done. rewrite (bind_run _ _ _ tt d) by by apply reject_live.
  assert (exists s d1, open_state role vl fresh generated d = (Ok s, d1) /\ d_io d1 = [] /\
    sound role d1 /\ d_state d1 = Some (Ok s)) as (s & d1 & Hst & Hio1 & Hs1 & Hst1).
  { pose proof (safe_state role vl fresh generated d Hs) as Hsafe.
    assert (exists s d1, open_state role vl fresh generated d = (Ok s, d1) /\ d_io d1 = [])
      as (s & d1 & Hrun & Hio1).
    { unfold open_state, bind at 1, gets. destruct (d_state d) as [[s|e]|] eqn:Hst.
      - by exists s, d.
      - unfold sound in Hs. by rewrite Hst in Hs.
      - unfold sound in Hs. rewrite Hst in Hs. rewrite (bind_run _ _ _ (d_file d) d) by done.
        rewrite Hs. rewrite (bind_run _ _ _ tt d) by done. specialize (Hp eq_refl).
        destruct (provision _ _ _ _ _ (d_vault d)) as [[k|e] v] eqn:Hprov; [|done].
        erewrite bind_run by (unfold on_vault; by rewrite Hprov).
        erewrite bind_run by (by apply effect_live). eexists _, _. split; [reflexivity|done]. }
    unfold safe in Hsafe. rewrite Hrun in Hsafe. destruct Hsafe as [[_ Ha] Hst1]. exists s, d1. auto. }
  rewrite (bind_run _ _ _ s d1) by done. by apply (settle_live role s d1).
Qed.

(** ** Any number of interrupted opens *)

Inductive dir_op : Type :=
| Attempt (lock_free vault_lock : bool) (fresh : string) (generated : result string)
    (io : list (bool * bool))
| Credential (role : string) (k : Kind) (imported : option string) (vault_lock : bool)
    (fresh : string) (generated : result string).
Definition run_dir_op (role : string) (o : dir_op) d : Dir D S :=
  match o with
  | Attempt lock_free vl fresh generated io =>
      snd (open role lock_free vl fresh generated (set_io io d))
  | Credential r k imported vl fresh generated =>
      snd (on_vault (vault_ensure r k imported vl fresh generated) d)
  end.
Definition run_dir_ops (role : string) (ops : list dir_op) d : Dir D S :=
  foldl (fun d o => run_dir_op role o d) d ops.

Lemma run_dir_op_advances role o d : sound role d -> advances role d (run_dir_op role o d).
Proof.
  intros Hs. destruct o as [lf vl fresh generated io|r k imported vl fresh generated];
    unfold run_dir_op.
  - etrans; [apply (set_io_advances role io)|].
    pose proof (safe_open role lf vl fresh generated (set_io io d) Hs) as Ho.
    unfold safe in Ho. destruct (open _ _ _ _ _ _) as [[[]|e] d']; [apply Ho|done].
  - pose proof (vault_ensure_le r k imported vl fresh generated (d_vault d)) as Hle. unfold on_vault.
    destruct (vault_ensure _ _ _ _ _ _ (d_vault d)) as [res v']. cbn in *. split.
    + split_and!; [done|done| |done]. intros s Hst. by exists s.
    + unfold sound. cbn. destruct (d_state d) as [[s|e]|]; [|done..].
      intros (V & R & K & E & F). split_and!; [done..|by eapply existing_le|].
      destruct (d_file d) as [[| |key c]|]; try done. destruct F as [Hr Hb]. split; [|done].
      eapply read_with_le; [|done]. apply Hle.
Qed.
Lemma run_dir_ops_advances role ops d :
  sound role d -> kept d (run_dir_ops role ops d) /\ sound role (run_dir_ops role ops d).
Proof.
  unfold run_dir_ops. revert d. induction ops as [|o ops IH]; intros d Hs; [by split|].
  destruct (run_dir_op_advances role o d Hs) as [Hk Hs']. destruct (IH _ (Hs' Hs)) as [Hk' Hs''].
  split; [by etrans|done].
Qed.

(** C9. Opening a database survives crashes. Start from a fresh directory, or any
    one earlier opens left. After any number of opens of the role, each stopped
    at any of its writes or with a lock not free, and of other provisioning in
    the same vault: an encrypted database that was bound is bit for bit what it
    was, so its data is; metadata that was written still names the same key; and
    an open that is not disturbed succeeds (given that the vault can provision,
    when there is no metadata yet), with the data and a binding to the key. *)
Theorem open_crash_safe role ops d vl fresh generated :
  sound role d -> role ∈ ["identity"; "auth"] ->
  let d' := run_dir_ops role ops d in
  (d_state d' = None ->
     is_ok (fst (provision (database_role role) Database vl fresh generated (d_vault d'))) = true) ->
  (forall k c, d_file d = Some (Cipher k c) -> d_file d' = Some (Cipher k c)) /\
  (forall s, d_state d = Some (Ok s) ->
     exists s', d_state d' = Some (Ok s') /\ db_key s' = db_key s) /\
  exists d'', open role true vl fresh generated (set_io [] d') = (Ok tt, d'') /\
    established role d'' /\ file_data d'' = file_data d.
Proof.
  intros Hs Hrole d' Hp. destruct (run_dir_ops_advances role ops d Hs) as [Hk Hs'].
  fold d' in Hk, Hs'. split; [apply Hk|]. split.
  { intros s Hst. destruct Hk as (_ & _ & Hk & _). destruct (Hk _ Hst) as (s' & ? & ? & _). by exists s'. }
  pose proof (safe_open role true vl fresh generated (set_io [] d') Hs') as Ho.
  pose proof (open_live role vl fresh generated (set_io [] d') Hs' eq_refl Hrole Hp) as Hlive.
  unfold safe in Ho. destruct (open _ _ _ _ _ _) as [r d'']. cbn in Hlive. subst r.
  destruct Ho as [[Hk' _] He]. exists d''. split; [done|]. split; [done|].
  destruct Hk as [E _], Hk' as [E' _]. etrans; [exact E'|]. exact E.
Qed.
End facts.
