(* ===== verification/Inspection.v ===== *)
(** * Inspecting a database

    [crates/epochgrid-core/src/database/inspection.rs]: the checks an
    established database passes, run on a read-only connection: nothing is
    provisioned, migrated or written. *)
From S2P Require Import Prelude External Wire Identity Merkle Secrets IdentityStore Database DatabaseFacts.

(** The queries inspection makes of the application's objects. *)
Class Catalog (D : Type) : Type := {
  (** [SELECT version FROM <table> ORDER BY version]. *)
  q_versions : D -> string -> result (list Z);
  (** [SELECT type FROM sqlite_master WHERE name=?1]. *)
  q_object_type : D -> string -> result string;
  (** Preparing [SELECT <columns> FROM <table> LIMIT 0]. *)
  q_prepare : D -> string -> string -> result unit;
  (** [SELECT COUNT( * ) FROM local_identity] and its row. *)
  q_identity_count : D -> result Z;
  q_identity : D -> result (string * bytes);
}.
(** [PRAGMA integrity_check(1)], and whether [cipher_integrity_check] and
    [foreign_key_check] have a row. *)
Record Pragmas : Type := {
  integrity_check : result string;
  cipher_rows : result bool;
  foreign_key_rows : result bool;
}.

(* @src core/database/inspection.rs 55-69 sql_error *)
Definition sql_error (e : error) (fallback : InspectionError) : error :=
  if bool_decide (e = SqlBusy) then inspection Busy else inspection fallback.
Definition map_err {A} (f : error -> error) (r : result A) : result A :=
  match r with Ok a => Ok a | Err e => Err (f e) end.

Section inspection.
Context {D S : Type} `{Backend S} `{Seeds} `{Sha256} `{Catalog D}.

(* @src core/database/inspection.rs 108-119 inspect (binding) *)
Definition read_binding (c : Contents D) : result Binding_row :=
  match c_binding c with
  | Some (Some row) => Ok row
  | _ => Err (inspection BindingMismatch)
  end.

(* @src core/database/inspection.rs 71-142 inspect *)
Definition inspect (role : string) (p : Pragmas) : M (Dir D S) (Contents D) :=
  lift (require (bool_decide (role ∈ ["identity"; "auth"])) (inspection MetadataInvalid)) ;;;
  let* file := gets d_file in
  lift (require (nonempty file) (inspection MissingDatabase)) ;;;
  let* probe := attempt reject_plaintext in
  lift (map_err (fun e => match inspection_of e with
                          | Some _ => e
                          | None => sql_error e Unreadable
                          end) probe) ;;;
  let* state := gets d_state in
  let* state := lift (match state with
                      | None => Err (inspection MetadataMissing)
                      | Some r => map_err (fun _ => inspection MetadataInvalid) r
                      end) in
  lift (require ((db_version state =? 1) && bool_decide (db_role state = role)
                 && bool_decide (sr_kind (db_key state) = Database)) (inspection MetadataInvalid)) ;;;
  lift (require (db_ready state) (inspection Incomplete)) ;;;
  let* v := gets d_vault in
  let* reference := lift (existing (database_role role) Database v) in
  lift (require (bool_decide (reference = db_key state)) (inspection CredentialBinding)) ;;;
  let* key := lift (read_with (db_key state) (keyring v)) in
  let* opened := attempt (keyed key) in
  let* c := lift (map_err (fun e => sql_error e Unreadable) opened) in
  let* binding := lift (read_binding c) in
  lift (require (bool_decide (binding = (1, role, sr_id (db_key state)))) (inspection BindingMismatch)) ;;;
  let* integrity := lift (map_err (fun e => sql_error e Integrity) (integrity_check p)) in
  lift (require (bool_decide (integrity = "ok")) (inspection Integrity)) ;;;
  let* rows := lift (cipher_rows p) in
  lift (require (negb rows) (inspection Integrity)) ;;;
  let* rows := lift (foreign_key_rows p) in
  lift (require (negb rows) (inspection Integrity)) ;;;
  ret c.

(** A database without application objects has none of the tables. *)
Definition on_data {A} (c : Contents D) (q : D -> result A) : result A :=
  match c_data c with Some x => q x | None => Err External end.

(* @src core/database/inspection.rs 144-166 schema *)
Definition schema (c : Contents D) (table : string) (latest : Z) (projections : list (string * string))
  : result unit :=
  map_err (fun e => sql_error e Schema)
    (let? vs := on_data c (fun x => q_versions x table) in
     require (bool_decide (vs = map Z.of_nat (seq 1 (Z.to_nat latest)))) (inspection Schema) ;;?
     rforall (fun '(t, columns) =>
       let? ty := on_data c (fun x => q_object_type x t) in
       require (bool_decide (ty = "table")) (inspection Schema) ;;?
       on_data c (fun x => q_prepare x columns t)) projections).

(* @src core/database/inspection.rs 174-193 auth (tables) *)
Definition auth_tables : list (string * string) := [
  ("audit_state", "store_id,next_sequence,retained_from,events,bytes,gaps,policy_version,prune_through,degraded");
  ("audit_events", "sequence,payload");
  ("audit_pending", "kind,operation");
  ("users", "id,enabled,audit_ref");
  ("identity_bindings", "provider,subject,user_id");
  ("enrollment_tokens", "digest,user_id,expires,used_key");
  ("devices", "nkey,user_id,device_id,registration,ready,revoked,authorization_generation,audit_ref");
  ("authorization_groups", "gid,generation,epoch,coordinator,last_update,audit_ref");
  ("authorization_members", "gid,nkey,leaf")].
(* @src core/database/inspection.rs 168-195 auth *)
Definition inspect_auth (p : Pragmas) : M (Dir D S) unit :=
  let* c := inspect "auth" p in
  lift (schema c "auth_migrations" 3 auth_tables).

(* @src core/database/inspection.rs 203-234 control (tables) *)
Definition identity_tables : list (string * string) := [
  ("local_identity", "id,secret_ref,registration");
  ("groups", "name,gid,mls_id");
  ("outbox", "id,subject,payload,sent");
  ("welcomes", "payload,name");
  ("received", "payload");
  ("chat_deliveries", "sequence,subject,payload,state");
  ("transcript", "id,gid,payload,sender,plaintext,outgoing,stream_sequence,displayed");
  ("group_join_epochs", "gid,epoch");
  ("device_trust", "user,device,fingerprint,latest_fingerprint,state");
  ("transparency_state", "id,signer,checkpoint");
  ("trust_alert", "id,message");
  ("revoked_devices", "nkey,user,device,mls_key,cutoff");
  ("group_coordinators", "gid,mls_key");
  ("blocked_outbox", "id");
  ("revocation_checkpoint", "id,checkpoint");
  ("recovery_metadata", "id,metadata");
  ("attachments", "gid,object_id,manifest");
  ("receipt_messages", "transcript_id,gid,reference");
  ("device_receipts", "transcript_id,device,state");
  ("message_events", "transcript_id,gid,message_id,target,kind,counter,event");
  ("participant_events", "gid,message_id")].
(* @src core/database/inspection.rs 240-290 control (OpenMLS tables) *)
Definition openmls_tables : list (string * string) := [
  ("openmls_encryption_keys", "provider_version,public_key,key_pair");
  ("openmls_epoch_keys_pairs", "provider_version,group_id,epoch_id,leaf_index,key_pairs");
  ("openmls_group_data", "provider_version,group_id,data_type,group_data");
  ("openmls_key_packages", "provider_version,key_package_ref,key_package");
  ("openmls_own_leaf_nodes", "provider_version,id,group_id,leaf_node");
  ("openmls_proposals", "provider_version,group_id,proposal_ref,proposal");
  ("openmls_psks", "provider_version,psk_id,psk_bundle");
  ("openmls_signature_keys", "provider_version,public_key,signature_key");
  ("vc_emulation_group_secrets", "provider_version,epoch_id,secret_type,vc_secret");
  ("vc_emulation_bindings", "provider_version,group_id,bindings");
  ("vc_operation_trees", "provider_version,epoch_id,operation_tree");
  ("vc_retained_key_package_material", "provider_version,key_package_ref,epoch_id,record");
  ("registered_vc_emulation_epochs", "provider_version,group_id,registration")].

Context `{NKeys} `{MlsPackages} `{Postcard Envelope} `{Postcard RegistrationPayload}
  `{Postcard DeviceRegistration} `{Json SecretRef}.

(* @src core/database/inspection.rs 197-315 control *)
Definition inspect_control (expected : string) (p : Pragmas) : M (Dir D S) unit :=
  let* c := inspect "identity" p in
  lift (schema c "epochgrid_migrations" 8 identity_tables) ;;;
  lift (schema c "openmls_sqlite_storage_migrations" 6 openmls_tables) ;;;
  let* count := lift (on_data c q_identity_count) in
  lift (require (count =? 1) (inspection Incomplete)) ;;;
  let binding {A} (r : result A) : result A := map_err (fun _ => inspection ControlBinding) r in
  let* (text, b) := lift (binding (on_data c q_identity)) in
  let* reference := lift (binding (from_json text)) in
  let* r := lift (binding (from_bytes b)) in
  lift (binding (verify_signature r)) ;;;
  let* v := gets d_vault in
  let* device := lift (existing "device" User v) in
  lift (require (bool_decide (reference = device) && bool_decide (sr_public_key reference = expected)
                 && bool_decide (nats_public_key (payload r) = expected)
                 && bool_decide (user_id (payload r) = "service")
                 && bool_decide (device_id (payload r) = "laptop")) (inspection ControlBinding)).
End inspection.

(** ** What inspection accepts *)

Section facts.
Context {D S : Type} `{BackendLaws S} `{Seeds} `{Sha256}.
Implicit Types (d : Dir D S).

(** The pragmas find nothing wrong. *)
Definition clean (p : Pragmas) : Prop :=
  integrity_check p = Ok "ok" /\ cipher_rows p = Ok false /\ foreign_key_rows p = Ok false.

Lemma effect_same : keeps same_dir (effect (D := D) (S := S) id).
Proof. intros d0. destruct (effect_run id d0) as (b & r & l & -> & _). by destruct b. Qed.
#[local] Instance same_dir_preorder : PreOrder (@same_dir D S).
Proof. split; [done|]. intros a b c (?&?&?) (?&?&?). unfold same_dir. split_and!; congruence. Qed.
Lemma inspect_same role p d : same_dir d (snd (inspect role p d)).
Proof.
  revert d. change (keeps same_dir (inspect (D := D) (S := S) role p)).
  pose proof effect_same. unfold inspect, reject_plaintext, keyed. by keeps_auto.
Qed.

Lemma inspect_established role p d c d' :
  inspect role p d = (Ok c, d') -> sound role d -> established role d.
Proof.
  intros Hrun Hs. unfold inspect in Hrun. apply bind_Ok in Hrun as ([] & d1 & [_ ->]%lift_Ok & Hrun).
  apply bind_Ok in Hrun as (f & d1 & [-> ->]%gets_Ok & Hrun).
  apply bind_Ok in Hrun as ([] & d1 & [Hf%require_Ok ->]%lift_Ok & Hrun).
  apply bind_Ok in Hrun as (probe & d1 & Hpr%attempt_Ok & Hrun).
  assert (same_dir d d1) as Hsame.
  { assert (keeps same_dir (reject_plaintext (D := D) (S := S))) as Hk.
    { pose proof effect_same. unfold reject_plaintext. by keeps_auto. }
    specialize (Hk d). by rewrite Hpr in Hk. }
  apply bind_Ok in Hrun as ([] & d2 & [_ ->]%lift_Ok & Hrun).
  apply bind_Ok in Hrun as (st & d2 & [-> ->]%gets_Ok & Hrun).
  apply bind_Ok in Hrun as (s & d2 & [Hst ->]%lift_Ok & Hrun).
  apply bind_Ok in Hrun as ([] & d2 & [_ ->]%lift_Ok & Hrun).
  apply bind_Ok in Hrun as ([] & d2 & [Hready%require_Ok ->]%lift_Ok & _).
  destruct Hsame as (F & T & V). rewrite T in Hst.
  destruct (d_state d) as [[s'|e]|] eqn:Hd; try done. injection Hst as ->.
  unfold sound in Hs. rewrite Hd in Hs. destruct Hs as (_ & _ & _ & _ & Hfile).
  destruct (d_file d) as [[| |k x]|] eqn:Hfe; try done. exists s, k, x. by destruct Hfile; split_and!.
Qed.

Lemma inspect_live role p d :
  role ∈ ["identity"; "auth"] -> clean p -> d_io d = [] -> sound role d -> established role d ->
  is_ok (fst (inspect role p d)) = true.
Proof.
  intros Hrole (Hp1 & Hp2 & Hp3) Hio Hs (s & k & c & Hst & Hready & Hf & Hk & Hb).
  unfold sound in Hs. rewrite Hst, Hf in Hs. destruct Hs as (V & R & K & E & _).
  unfold inspect. rewrite (bind_run _ _ _ tt d) by (unfold lift; by rewrite bool_decide_eq_true_2).
  rewrite (bind_run _ _ _ (d_file d) d) by done.
  rewrite (bind_run _ _ _ tt d) by (unfold lift; by rewrite Hf).
  rewrite (bind_run _ _ _ (Ok tt) d).
  2: { unfold attempt. rewrite reject_live; [done|done|by rewrite Hf]. }
  rewrite (bind_run _ _ _ tt d) by done. rewrite (bind_run _ _ _ (d_state d) d) by done.
  rewrite (bind_run _ _ _ s d) by (unfold lift; by rewrite Hst).
  rewrite (bind_run _ _ _ tt d) by (unfold lift; by rewrite V, R, K, !bool_decide_eq_true_2).
  rewrite (bind_run _ _ _ tt d) by (unfold lift; by rewrite Hready).
  rewrite (bind_run _ _ _ (d_vault d) d) by done.
  rewrite (bind_run _ _ _ (db_key s) d) by (unfold lift; by rewrite E).
  rewrite (bind_run _ _ _ tt d) by (unfold lift; by rewrite bool_decide_eq_true_2).
  rewrite (bind_run _ _ _ k d) by (unfold lift; by rewrite Hk).
  rewrite (bind_run _ _ _ (Ok c) d).
  2: { unfold attempt, keyed. rewrite (bind_run _ _ _ tt d) by by apply effect_live.
       unfold bind, gets, lift. rewrite Hf. by rewrite bool_decide_eq_true_2. }
  rewrite (bind_run _ _ _ c d) by done.
  rewrite (bind_run _ _ _ (1, role, sr_id (db_key s)) d) by (unfold lift, read_binding; by rewrite Hb).
  rewrite (bind_run _ _ _ tt d) by (unfold lift; by rewrite bool_decide_eq_true_2).
  rewrite (bind_run _ _ _ "ok" d) by (unfold lift; by rewrite Hp1).
  rewrite (bind_run _ _ _ tt d) by (unfold lift; by rewrite bool_decide_eq_true_2).
  rewrite (bind_run _ _ _ false d) by (unfold lift; by rewrite Hp2).
  rewrite (bind_run _ _ _ tt d) by done.
  rewrite (bind_run _ _ _ false d) by (unfold lift; by rewrite Hp3). done.
Qed.

(** On an established directory [open] writes nothing. *)
Lemma open_idle role vl fresh generated d :
  role ∈ ["identity"; "auth"] -> d_io d = [] -> sound role d -> established role d ->
  open role true vl fresh generated d = (Ok tt, d).
Proof.
  intros Hrole Hio Hs (s & k & c & Hst & Hready & Hf & Hk & Hb).
  unfold sound in Hs. rewrite Hst, Hf in Hs. destruct Hs as (V & R & K & E & _).
  unfold open. rewrite (bind_run _ _ _ tt d) by (unfold ensure; by rewrite bool_decide_eq_true_2).
  assert (reject_plaintext d = (Ok tt, d)) as Hrej by (apply reject_live; [done|by rewrite Hf]).
  rewrite (bind_run _ _ _ tt d) by done. do 3 rewrite (bind_run _ _ _ tt d) by by apply effect_live.
  rewrite (bind_run _ _ _ tt d) by done. rewrite (bind_run _ _ _ tt d) by done.
  rewrite (bind_run _ _ _ s d) by (unfold open_state, bind, gets; by rewrite Hst).
  rewrite (bind_run _ _ _ tt d) by (unfold ensure; by rewrite V, R, K, !bool_decide_eq_true_2).
  rewrite (bind_run _ _ _ (d_file d) d) by done.
  rewrite (bind_run _ _ _ tt d) by (unfold ensure; by rewrite Hf, orb_true_r).
  rewrite (bind_run _ _ _ (d_vault d) d) by done.
  rewrite (bind_run _ _ _ k d) by (unfold lift; by rewrite Hk).
  rewrite (bind_run _ _ _ tt d).
  2: { unfold open_file, bind at 1, gets. rewrite Hf. unfold bind, ret. by rewrite effect_live. }
  rewrite (bind_run _ _ _ c d).
  2: { unfold keyed. rewrite (bind_run _ _ _ tt d) by by apply effect_live.
       unfold bind, gets, lift. rewrite Hf. by rewrite bool_decide_eq_true_2. }
  rewrite (bind_run _ _ _ tt d).
  2: { unfold open_binding. rewrite Hb. unfold ensure. by rewrite !bool_decide_eq_true_2. }
  by rewrite Hready.
Qed.

(** Inspection and opening agree. On a directory that any history of opens left,
    whose pragmas find nothing wrong, inspection accepts exactly when an
    undisturbed open would succeed without writing anything; and inspection
    itself never writes, whatever it finds. *)
Theorem inspect_agrees_with_open role p vl fresh generated d :
  role ∈ ["identity"; "auth"] -> clean p -> d_io d = [] -> sound role d ->
  (is_ok (fst (inspect role p d)) = true <-> open role true vl fresh generated d = (Ok tt, d)) /\
  same_dir d (snd (inspect role p d)).
Proof.
  intros Hrole Hp Hio Hs. split; [split|apply inspect_same].
  - intros Hok. apply open_idle; [done..|].
    destruct (inspect role p d) as [[c|e] d'] eqn:Hrun; [|done]. by eapply inspect_established.
  - intros Hopen. apply inspect_live; try done.
    pose proof (safe_open role true vl fresh generated d Hs) as Ho. unfold safe in Ho.
    rewrite Hopen in Ho. apply Ho.
Qed.
End facts.
