(* ===== verification/Deployment.v ===== *)
(** * The deployment contract

    [crates/epochgrid-core/src/deployment.rs]: the manifest of a deployment, the
    broker resources it declares, the files that publish it, and the comparison
    of a resource as the broker reports it with the one declared. *)
From stdpp Require Import sorting.
From S2P Require Import Prelude External Capacity Files.

(** ** JSON values and stream configurations *)

(** [serde_json::Value], with the numbers the code puts in it. *)
Inductive Value : Type :=
| Null
| VBool (b : bool)
| Number (n : Z)
| Text (s : string)
| Items (l : list Value)
| Object (fields : list (string * Value)).

(** The enumerations of [async_nats::jetstream::stream] the contract names. *)
Inductive StorageType : Type := StorageFile | StorageMemory.
Inductive RetentionPolicy : Type := RetainLimits | RetainInterest | RetainWorkQueue.
Inductive DiscardPolicy : Type := DiscardOld | DiscardNew.
Inductive PersistenceMode : Type := PersistDefault | PersistAsync.
#[global] Instance StorageType_eq_dec : EqDecision StorageType.
Proof. solve_decision. Defined.
#[global] Instance RetentionPolicy_eq_dec : EqDecision RetentionPolicy.
Proof. solve_decision. Defined.
#[global] Instance DiscardPolicy_eq_dec : EqDecision DiscardPolicy.
Proof. solve_decision. Defined.
#[global] Instance PersistenceMode_eq_dec : EqDecision PersistenceMode.
Proof. solve_decision. Defined.

(** What the comparison reads of a [ConsumerLimits]. *)
Record ConsumerLimits : Type := { inactive_threshold : Z; max_ack_pending : Z }.
#[global] Instance ConsumerLimits_eq_dec : EqDecision ConsumerLimits.
Proof. solve_decision. Defined.

(** The public fields of [async_nats::jetstream::stream::Config] the contract
    sets or reads. A setting the code only compares is a value of [X]. *)
Record StreamConfig (X : Type) : Type := {
  sc_name : string;
  sc_subjects : list string;
  sc_storage : StorageType;
  sc_retention : RetentionPolicy;
  sc_num_replicas : Z;
  sc_discard : DiscardPolicy;
  sc_max_bytes : Z;
  sc_max_messages : Z;
  sc_max_messages_per_subject : Z;
  sc_max_message_size : Z;
  sc_max_consumers : Z;
  sc_discard_new_per_subject : bool;
  sc_max_age : X;
  sc_no_ack : bool;
  sc_persist_mode : option PersistenceMode;
  sc_sealed : bool;
  sc_template_owner : string;
  sc_allow_rollup : bool;
  sc_deny_delete : bool;
  sc_deny_purge : bool;
  sc_republish : X;
  sc_mirror : X;
  sc_sources : option (list X);
  sc_allow_direct : bool;
  sc_mirror_direct : bool;
  sc_subject_transform : X;
  sc_allow_message_ttl : bool;
  sc_subject_delete_marker_ttl : X;
  sc_pause_until : X;
  sc_allow_message_schedules : bool;
  sc_allow_message_counter : bool;
  sc_consumer_limits : option ConsumerLimits;
}.
Arguments sc_name {X}. Arguments sc_subjects {X}. Arguments sc_storage {X}.
Arguments sc_retention {X}. Arguments sc_num_replicas {X}. Arguments sc_discard {X}.
Arguments sc_max_bytes {X}. Arguments sc_max_messages {X}.
Arguments sc_max_messages_per_subject {X}. Arguments sc_max_message_size {X}.
Arguments sc_max_consumers {X}. Arguments sc_discard_new_per_subject {X}.
Arguments sc_max_age {X}. Arguments sc_no_ack {X}. Arguments sc_persist_mode {X}.
Arguments sc_sealed {X}. Arguments sc_template_owner {X}. Arguments sc_allow_rollup {X}.
Arguments sc_deny_delete {X}. Arguments sc_deny_purge {X}. Arguments sc_republish {X}.
Arguments sc_mirror {X}. Arguments sc_sources {X}. Arguments sc_allow_direct {X}.
Arguments sc_mirror_direct {X}. Arguments sc_subject_transform {X}.
Arguments sc_allow_message_ttl {X}. Arguments sc_subject_delete_marker_ttl {X}.
Arguments sc_pause_until {X}. Arguments sc_allow_message_schedules {X}.
Arguments sc_allow_message_counter {X}. Arguments sc_consumer_limits {X}.

(** [Config::default()], and how a compared setting and the limits are shown. *)
Class StreamDefaults (X : Type) : Type := {
  stream_default : StreamConfig X;
  setting_value : X -> Value;
}.
(** The documented defaults: no asynchronous persistence, no sources and no
    consumer limits. *)
Class StreamDefaultLaws (X : Type) `{StreamDefaults X} : Prop := {
  default_persist : sc_persist_mode stream_default <> Some PersistAsync;
  default_sources : default [] (sc_sources stream_default) = [];
  default_limits : sc_consumer_limits stream_default = None;
}.

(** ** The manifest *)

(* @src core/deployment.rs 8-8 MANIFEST_FILE *)
Definition MANIFEST_FILE : string := "deployment.json".

(* @src core/deployment.rs 12-18 DeploymentManifest *)
Record DeploymentManifest : Type := {
  m_version : Z;
  m_replicas : Z;
  m_capacity : option Capacity;
}.
(* @src core/deployment.rs 20-27 ManifestInput *)
Record ManifestInput : Type := {
  in_version : Z;
  in_replicas : Z;
  in_capacity : option Capacity;
}.

(* @src core/deployment.rs 42-52 new *)
Definition new_manifest (replicas : Z) : result DeploymentManifest :=
  check ((replicas =? 1) || (replicas =? 3)) "deployment replicas must be 1 or 3" ;;?
  Ok {| m_version := 1; m_replicas := replicas; m_capacity := None |}.

(* @src core/deployment.rs 54-60 bounded *)
Definition bounded (replicas : Z) (capacity : Capacity) : result DeploymentManifest :=
  validate capacity ;;?
  let? manifest := new_manifest replicas in
  Ok {| m_version := 2; m_replicas := m_replicas manifest; m_capacity := Some capacity |}.

(* @src core/deployment.rs 29-39 try_from *)
Definition try_from (input : ManifestInput) : result DeploymentManifest :=
  match in_capacity input with
  | None =>
      if in_version input =? 1 then new_manifest (in_replicas input)
      else Err (Anyhow "unsupported deployment manifest version/capacity")
  | Some capacity =>
      if in_version input =? 2 then bounded (in_replicas input) capacity
      else Err (Anyhow "unsupported deployment manifest version/capacity")
  end.

#[global] Instance Capacity_eq_dec : EqDecision Capacity.
Proof. solve_decision. Defined.

(** [serde_json] on the manifest's fields, and pretty printing. *)
Class ManifestJson (X : Type) : Type := {
  manifest_input : bytes -> result ManifestInput;
  pretty_manifest : DeploymentManifest -> result string;
  pretty_capacity : Capacity -> result string;
  pretty_stream : StreamConfig X -> result string;
}.

(* @src core/capacity.rs 6-6 FILE *)
Definition CAPACITY_FILE : string := "capacity.json".

(** The line feed that ends a published file. *)
Definition newline : string := String "010"%char EmptyString.

(** [std::fs::read] for [Capacity::load]: a missing file is an error of the read. *)
Definition read_capacity `{CapacityFile} (home : string) (files : Fs) : result Capacity :=
  Capacity.load (let? b := read_file (join home CAPACITY_FILE) files in Ok (Some b)).

(* @src core/deployment.rs 61-74 load *)
Definition load_manifest {X} `{ManifestJson X} `{CapacityFile} (home : string) (files : Fs)
  : result DeploymentManifest :=
  let? b := read_file (join home MANIFEST_FILE) files in
  let? input := manifest_input b in
  let? manifest := try_from input in
  let? capacity := read_capacity home files in
  match m_capacity manifest with
  | Some declared =>
      check (bool_decide (declared = capacity)) "capacity differs from deployment manifest" ;;?
      Ok manifest
  | None => bounded (m_replicas manifest) capacity
  end.

(** ** The resources it declares *)

(** [as i64] and [as i32]. *)
Definition as_i64 (n : Z) : Z := (n + 2 ^ 63) mod 2 ^ 64 - 2 ^ 63.
Definition as_i32 (n : Z) : Z := (n + 2 ^ 31) mod 2 ^ 32 - 2 ^ 31.

Definition is_kv (resource : string) : bool := starts_with "KV_" resource.

Section resources.
Context {X : Type} `{EqDecision X} `{StreamDefaults X}.

(* @src core/deployment.rs 96-109 resources (streams) *)
Definition stream_resource (replicas : Z) (name : string) (subjects : list string) : StreamConfig X :=
  let d := stream_default in {|
  sc_name := name; sc_subjects := subjects; sc_storage := StorageFile; sc_retention := RetainLimits;
  sc_num_replicas := replicas; sc_discard := sc_discard d; sc_max_bytes := -1; sc_max_messages := -1;
  sc_max_messages_per_subject := -1; sc_max_message_size := 65536; sc_max_consumers := -1;
  sc_discard_new_per_subject := sc_discard_new_per_subject d; sc_max_age := sc_max_age d;
  sc_no_ack := sc_no_ack d; sc_persist_mode := sc_persist_mode d; sc_sealed := sc_sealed d;
  sc_template_owner := sc_template_owner d; sc_allow_rollup := sc_allow_rollup d;
  sc_deny_delete := sc_deny_delete d; sc_deny_purge := sc_deny_purge d;
  sc_republish := sc_republish d; sc_mirror := sc_mirror d; sc_sources := sc_sources d;
  sc_allow_direct := sc_allow_direct d; sc_mirror_direct := sc_mirror_direct d;
  sc_subject_transform := sc_subject_transform d; sc_allow_message_ttl := sc_allow_message_ttl d;
  sc_subject_delete_marker_ttl := sc_subject_delete_marker_ttl d; sc_pause_until := sc_pause_until d;
  sc_allow_message_schedules := sc_allow_message_schedules d;
  sc_allow_message_counter := sc_allow_message_counter d;
  sc_consumer_limits := sc_consumer_limits d |}.

(* @src core/deployment.rs 111-128 resources (buckets) *)
Definition bucket_resource (replicas : Z) (bucket : string) : StreamConfig X :=
  let d := stream_default in {|
  sc_name := "KV_" +:+ bucket; sc_subjects := ["$KV." +:+ bucket +:+ ".>"];
  sc_storage := StorageFile; sc_retention := RetainLimits;
  sc_num_replicas := replicas; sc_discard := DiscardNew; sc_max_bytes := -1; sc_max_messages := -1;
  sc_max_messages_per_subject := 1;
  sc_max_message_size := if bool_decide (bucket = "TRANSPARENCY") then 65536 else -1;
  sc_max_consumers := -1;
  sc_discard_new_per_subject := sc_discard_new_per_subject d; sc_max_age := sc_max_age d;
  sc_no_ack := sc_no_ack d; sc_persist_mode := sc_persist_mode d; sc_sealed := sc_sealed d;
  sc_template_owner := sc_template_owner d; sc_allow_rollup := true;
  sc_deny_delete := true; sc_deny_purge := sc_deny_purge d;
  sc_republish := sc_republish d; sc_mirror := sc_mirror d; sc_sources := sc_sources d;
  sc_allow_direct := true; sc_mirror_direct := sc_mirror_direct d;
  sc_subject_transform := sc_subject_transform d; sc_allow_message_ttl := sc_allow_message_ttl d;
  sc_subject_delete_marker_ttl := sc_subject_delete_marker_ttl d; sc_pause_until := sc_pause_until d;
  sc_allow_message_schedules := sc_allow_message_schedules d;
  sc_allow_message_counter := sc_allow_message_counter d;
  sc_consumer_limits := sc_consumer_limits d |}.

(** The [unreachable!()] of the code is [None]. *)
(* @src core/deployment.rs 132-139 resources (bytes) *)
Definition budget (capacity : Capacity) (name : string) : option Z :=
  if bool_decide (name = "CHAT") then Some (as_i64 (chat_bytes capacity))
  else if bool_decide (name = "MAILBOX") then Some (as_i64 (mailbox_bytes capacity))
  else if bool_decide (name = "KV_IDENTITIES") then Some (as_i64 (directory_bytes capacity))
  else if bool_decide (name = "KV_CHANNELS") then Some (as_i64 (channels_bytes capacity))
  else if bool_decide (name = "KV_TRANSPARENCY") then Some (as_i64 (transparency_bytes capacity))
  else None.

(* @src core/deployment.rs 130-147 resources (capacity) *)
Definition with_capacity (capacity : Capacity) (c : StreamConfig X) : StreamConfig X := {|
  sc_name := sc_name c; sc_subjects := sc_subjects c; sc_storage := sc_storage c;
  sc_retention := sc_retention c; sc_num_replicas := sc_num_replicas c; sc_discard := DiscardNew;
  sc_max_bytes := default 0 (budget capacity (sc_name c)); sc_max_messages := sc_max_messages c;
  sc_max_messages_per_subject := sc_max_messages_per_subject c; sc_max_message_size := 65536;
  sc_max_consumers := if is_kv (sc_name c) then 8 else as_i32 (retained_devices capacity);
  sc_discard_new_per_subject := sc_discard_new_per_subject c; sc_max_age := sc_max_age c;
  sc_no_ack := sc_no_ack c; sc_persist_mode := sc_persist_mode c; sc_sealed := sc_sealed c;
  sc_template_owner := sc_template_owner c; sc_allow_rollup := sc_allow_rollup c;
  sc_deny_delete := sc_deny_delete c; sc_deny_purge := sc_deny_purge c;
  sc_republish := sc_republish c; sc_mirror := sc_mirror c; sc_sources := sc_sources c;
  sc_allow_direct := sc_allow_direct c; sc_mirror_direct := sc_mirror_direct c;
  sc_subject_transform := sc_subject_transform c; sc_allow_message_ttl := sc_allow_message_ttl c;
  sc_subject_delete_marker_ttl := sc_subject_delete_marker_ttl c; sc_pause_until := sc_pause_until c;
  sc_allow_message_schedules := sc_allow_message_schedules c;
  sc_allow_message_counter := sc_allow_message_counter c;
  sc_consumer_limits := sc_consumer_limits c |}.

(* @src core/deployment.rs 84-149 resources *)
Definition resources (m : DeploymentManifest) : list (StreamConfig X) :=
  let all := [
    stream_resource (m_replicas m) "CHAT"
      ["epochgrid.v1.group.*.message"; "epochgrid.v1.group.*.handshake"];
    stream_resource (m_replicas m) "MAILBOX" ["epochgrid.v1.user.*.*.inbox"];
    bucket_resource (m_replicas m) "IDENTITIES";
    bucket_resource (m_replicas m) "CHANNELS";
    bucket_resource (m_replicas m) "TRANSPARENCY"] in
  match m_capacity m with
  | Some capacity => map (with_capacity capacity) all
  | None => all
  end.

Context `{ManifestJson X}.

(* @src core/deployment.rs 151-172 artifacts *)
Definition artifacts (m : DeploymentManifest) : result (gmap string string) :=
  let? text := pretty_manifest m in
  let files := {[MANIFEST_FILE := text +:+ newline]} in
  let? files := match m_capacity m with
                | Some capacity =>
                    let? text := pretty_capacity capacity in
                    Ok (<[CAPACITY_FILE := text +:+ newline]> files)
                | None => Ok files
                end in
  foldl (fun files config =>
      let? files := files in
      let? text := pretty_stream config in
      Ok (<[sc_name config +:+ ".json" := text +:+ newline]> files))
    (Ok files) (resources m).
End resources.

(** ** Comparison *)

(* @src core/deployment.rs 309-316 ResourceMismatch *)
Record ResourceMismatch : Type := {
  mm_resource : string;
  mm_field : string;
  mm_expected : Value;
  mm_observed : Value;
}.

(* @src core/deployment.rs 305-307 unlimited *)
Definition unlimited (value : Z) : bool := (value =? -1) || (value =? 0).

(** [json!] of a field. *)
Definition storage_value (s : StorageType) : Value :=
  Text match s with StorageFile => "file" | StorageMemory => "memory" end.
Definition retention_value (r : RetentionPolicy) : Value :=
  Text match r with
       | RetainLimits => "limits" | RetainInterest => "interest" | RetainWorkQueue => "workqueue"
       end.
Definition discard_value (d : DiscardPolicy) : Value :=
  Text match d with DiscardOld => "old" | DiscardNew => "new" end.
Definition subjects_value (l : list string) : Value := Items (Text <$> l).
Definition limits_value (l : ConsumerLimits) : Value :=
  Object [("inactive_threshold", Number (inactive_threshold l));
          ("max_ack_pending", Number (max_ack_pending l))].

Section compare.
Context {X : Type} `{EqDecision X} `{StreamDefaults X}.
Implicit Types (expected observed : StreamConfig X).

(* @src core/deployment.rs 184-195 compare (check!) *)
Definition check_field {A} `{EqDecision A} (resource field : string) (json : A -> Value)
    (expected observed : A) : list ResourceMismatch :=
  if decide (expected = observed) then []
  else [{| mm_resource := resource; mm_field := field;
           mm_expected := json expected; mm_observed := json observed |}].
(** A condition of its own, with what is said to be expected. *)
Definition check_that (holds : bool) (resource field : string) (expected observed : Value)
  : list ResourceMismatch :=
  if holds then []
  else [{| mm_resource := resource; mm_field := field;
           mm_expected := expected; mm_observed := observed |}].

(* @src core/deployment.rs 196-216 compare (identity, placement and budgets) *)
Definition compare_placement (bounded : bool) (resource : string) expected observed
  : list ResourceMismatch :=
  check_field resource "name" Text (sc_name expected) (sc_name observed) ++
  check_field resource "subjects" subjects_value
    (merge_sort string_le (sc_subjects expected)) (merge_sort string_le (sc_subjects observed)) ++
  check_field resource "storage" storage_value (sc_storage expected) (sc_storage observed) ++
  check_field resource "retention" retention_value (sc_retention expected) (sc_retention observed) ++
  check_field resource "num_replicas" Number (sc_num_replicas expected) (sc_num_replicas observed) ++
  check_field resource "discard" discard_value (sc_discard expected) (sc_discard observed) ++
  (if bounded then
     check_field resource "max_bytes" Number (sc_max_bytes expected) (sc_max_bytes observed) ++
     check_field resource "max_consumers" Number (sc_max_consumers expected)
       (sc_max_consumers observed) ++
     check_field resource "max_message_size" Number (sc_max_message_size expected)
       (sc_max_message_size observed)
   else []).

(* @src core/deployment.rs 217-252 compare (semantics) *)
Definition compare_semantics (resource : string) expected observed : list ResourceMismatch :=
  check_field resource "discard_new_per_subject" VBool (sc_discard_new_per_subject expected)
    (sc_discard_new_per_subject observed) ++
  check_field resource "max_age" setting_value (sc_max_age expected) (sc_max_age observed) ++
  check_field resource "no_ack" VBool (sc_no_ack expected) (sc_no_ack observed) ++
  check_that (negb (bool_decide (sc_persist_mode observed = Some PersistAsync)))
    resource "persist_mode" (Text "default") (Text "async") ++
  check_field resource "sealed" VBool (sc_sealed expected) (sc_sealed observed) ++
  check_field resource "template_owner" Text (sc_template_owner expected)
    (sc_template_owner observed) ++
  check_field resource "allow_rollup" VBool (sc_allow_rollup expected) (sc_allow_rollup observed) ++
  check_field resource "republish" setting_value (sc_republish expected) (sc_republish observed) ++
  check_field resource "mirror" setting_value (sc_mirror expected) (sc_mirror observed) ++
  check_that (bool_decide (default [] (sc_sources observed) = []))
    resource "sources" (Items []) (Items (setting_value <$> default [] (sc_sources observed))) ++
  check_field resource "mirror_direct" VBool (sc_mirror_direct expected) (sc_mirror_direct observed) ++
  check_field resource "subject_transform" setting_value (sc_subject_transform expected)
    (sc_subject_transform observed) ++
  check_field resource "allow_message_ttl" VBool (sc_allow_message_ttl expected)
    (sc_allow_message_ttl observed) ++
  check_field resource "subject_delete_marker_ttl" setting_value
    (sc_subject_delete_marker_ttl expected) (sc_subject_delete_marker_ttl observed) ++
  check_field resource "pause_until" setting_value (sc_pause_until expected)
    (sc_pause_until observed) ++
  check_field resource "allow_message_schedules" VBool (sc_allow_message_schedules expected)
    (sc_allow_message_schedules observed) ++
  check_field resource "allow_message_counter" VBool (sc_allow_message_counter expected)
    (sc_allow_message_counter observed).

(* @src core/deployment.rs 253-273 compare (buckets and message size) *)
Definition compare_messages (resource : string) expected observed : list ResourceMismatch :=
  (if is_kv resource then
     check_field resource "max_messages_per_subject" Number (sc_max_messages_per_subject expected)
       (sc_max_messages_per_subject observed) ++
     check_field resource "deny_delete" VBool (sc_deny_delete expected) (sc_deny_delete observed) ++
     check_field resource "deny_purge" VBool (sc_deny_purge expected) (sc_deny_purge observed) ++
     check_field resource "allow_direct" VBool (sc_allow_direct expected) (sc_allow_direct observed)
   else if negb (unlimited (sc_max_messages_per_subject observed)) then
     check_field resource "max_messages_per_subject" Number (sc_max_messages_per_subject expected)
       (sc_max_messages_per_subject observed)
   else []) ++
  (if bool_decide (resource = "KV_IDENTITIES") || bool_decide (resource = "KV_CHANNELS") then
     check_that (unlimited (sc_max_message_size observed)
                 || (65536 <=? sc_max_message_size observed))
       resource "max_message_size" (Text "unlimited or >= 65536")
       (Number (sc_max_message_size observed))
   else
     check_field resource "max_message_size" Number (sc_max_message_size expected)
       (sc_max_message_size observed)).

(* @src core/deployment.rs 274-301 compare (quotas) *)
Definition compare_quotas (resource : string) observed : list ResourceMismatch :=
  concat ((fun '(field, value) =>
      check_that (-1 <=? value) resource field (Text ">= -1") (Number value))
    <$> [("max_bytes", sc_max_bytes observed); ("max_messages", sc_max_messages observed);
         ("max_consumers", sc_max_consumers observed)]) ++
  match sc_consumer_limits observed with
  | Some limits =>
      check_that ((inactive_threshold limits =? 0) && (-1 <=? max_ack_pending limits))
        resource "consumer_limits" (Text "no inactivity eviction; max_ack_pending >= -1")
        (limits_value limits)
  | None => []
  end.

(* @src core/deployment.rs 174-302 compare *)
Definition compare (m : DeploymentManifest) (resource : string) observed
  : result (list ResourceMismatch) :=
  let? expected := ok_or (List.find (fun c => bool_decide (sc_name c = resource)) (resources m))
                     (Anyhow "unknown deployment resource") in
  Ok (compare_placement (bool_decide (is_Some (m_capacity m))) resource expected observed ++
      compare_semantics resource expected observed ++
      compare_messages resource expected observed ++
      compare_quotas resource observed).
End compare.

(** ** What a manifest is *)

(** Replicas are 1 or 3, and a version-2 manifest carries a valid policy. *)
Definition manifest_wf (m : DeploymentManifest) : Prop :=
  (m_replicas m = 1 \/ m_replicas m = 3) /\
  match m_capacity m with
  | None => m_version m = 1
  | Some capacity => m_version m = 2 /\ validate capacity = Ok tt
  end.

Lemma new_manifest_wf n m : new_manifest n = Ok m -> manifest_wf m /\ m_replicas m = n.
Proof. unfold new_manifest. intros Hm. inv_ok. bool_prop. subst. split; [|done]. split; [|done]. simpl. lia. Qed.
Lemma bounded_wf n c m :
  bounded n c = Ok m -> manifest_wf m /\ m_replicas m = n /\ m_capacity m = Some c.
Proof.
  unfold bounded. intros Hm. inv_ok. all: repeat match goal with u : unit |- _ => destruct u end.
  match goal with Hm : new_manifest _ = _ |- _ => apply new_manifest_wf in Hm as [[Hr _] <-] end.
  by split_and!.
Qed.
Lemma try_from_wf i m : try_from i = Ok m -> manifest_wf m.
Proof.
  unfold try_from. destruct (in_capacity i); (destruct (_ =? _); [|done]).
  - intros Hb. by apply bounded_wf in Hb as [? _].
  - intros Hn. by apply new_manifest_wf in Hn as [? _].
Qed.
(** A manifest that loads is bounded by the policy beside it. *)
Lemma load_manifest_wf {X} `{ManifestJson X} `{CapacityFile} home files m :
  load_manifest home files = Ok m ->
  manifest_wf m /\ exists c, m_capacity m = Some c /\ read_capacity home files = Ok c.
Proof.
  unfold load_manifest. intros (b & Hb & (i & Hi & (m' & Hm%try_from_wf & (c & Hc & Hl)%rbind_Ok)%rbind_Ok)%rbind_Ok)%rbind_Ok.
  destruct (m_capacity m') eqn:Hd.
  - inv_ok. bool_prop. subst. by eauto.
  - apply bounded_wf in Hl as (? & _ & ?). by eauto.
Qed.

(** ** What the comparison accepts *)

(** The names of the resources. *)
Definition declared_names : list string :=
  ["CHAT"; "MAILBOX"; "KV_IDENTITIES"; "KV_CHANNELS"; "KV_TRANSPARENCY"].

(** Conditions on literal names are decided by evaluation. *)
Ltac literals :=
  repeat match goal with
  | |- context [bool_decide (?a = ?b :> string)] =>
      let v := eval vm_compute in (bool_decide (a = b)) in
      change (bool_decide (a = b)) with v; cbn match
  | |- context [is_kv ?r] =>
      let v := eval vm_compute in (is_kv r) in change (is_kv r) with v; cbn match
  end.
Ltac each_name H :=
  unfold declared_names in H; rewrite !elem_of_cons in H;
  destruct H as [->|[->|[->|[->|[->|[]%not_elem_of_nil]]]]].

#[global] Instance string_le_total : Total string_le.
Proof. intros a b. apply Stdlib.Strings.String.leb_total. Qed.
#[global] Instance string_le_antisymm : AntiSymm (=) string_le.
Proof. intros a b. apply Stdlib.Strings.String.leb_antisym. Qed.
Lemma ascii_compare_N a b : Ascii.compare a b = N.compare (N_of_ascii a) (N_of_ascii b).
Proof. done. Qed.
#[global] Instance string_le_trans : Transitive string_le.
Proof.
  intros a. induction a as [|x a IH]; intros [|y b] [|z c]; try done.
  unfold string_le, string_leb, Stdlib.Strings.String.leb in *. cbn [Stdlib.Strings.String.compare].
  rewrite !ascii_compare_N.
  destruct (N.compare_spec (N_of_ascii x) (N_of_ascii y)) as [Exy|Lxy|]; [..|done];
    destruct (N.compare_spec (N_of_ascii y) (N_of_ascii z)) as [Eyz|Lyz|]; try done.
  - rewrite Exy, Eyz, N.compare_refl. apply IH.
  - intros _ _. by rewrite (proj2 (N.compare_lt_iff _ _)) by (by rewrite Exy).
  - intros _ _. by rewrite (proj2 (N.compare_lt_iff _ _)) by (by rewrite <- Eyz).
  - intros _ _. by rewrite (proj2 (N.compare_lt_iff _ _)) by (by etrans).
Qed.

Section contract.
Context {X : Type} `{EqDecision X} `{StreamDefaults X}.
Implicit Types (o : StreamConfig X) (m : DeploymentManifest).

Definition declared_subjects (resource : string) : option (list string) :=
  if bool_decide (resource = "CHAT") then
    Some ["epochgrid.v1.group.*.message"; "epochgrid.v1.group.*.handshake"]
  else if bool_decide (resource = "MAILBOX") then Some ["epochgrid.v1.user.*.*.inbox"]
  else if bool_decide (resource = "KV_IDENTITIES") then Some ["$KV.IDENTITIES.>"]
  else if bool_decide (resource = "KV_CHANNELS") then Some ["$KV.CHANNELS.>"]
  else if bool_decide (resource = "KV_TRANSPARENCY") then Some ["$KV.TRANSPARENCY.>"]
  else None.
Definition declared_bytes (c : Capacity) (resource : string) : Z :=
  if bool_decide (resource = "CHAT") then chat_bytes c
  else if bool_decide (resource = "MAILBOX") then mailbox_bytes c
  else if bool_decide (resource = "KV_IDENTITIES") then directory_bytes c
  else if bool_decide (resource = "KV_CHANNELS") then channels_bytes c
  else transparency_bytes c.

(** The settings the contract leaves at the default. *)
Definition default_semantics o : Prop :=
  let d := stream_default (X := X) in
  sc_discard_new_per_subject o = sc_discard_new_per_subject d /\ sc_max_age o = sc_max_age d /\
  sc_no_ack o = sc_no_ack d /\ sc_sealed o = sc_sealed d /\
  sc_template_owner o = sc_template_owner d /\ sc_republish o = sc_republish d /\
  sc_mirror o = sc_mirror d /\ sc_mirror_direct o = sc_mirror_direct d /\
  sc_subject_transform o = sc_subject_transform d /\
  sc_allow_message_ttl o = sc_allow_message_ttl d /\
  sc_subject_delete_marker_ttl o = sc_subject_delete_marker_ttl d /\
  sc_pause_until o = sc_pause_until d /\
  sc_allow_message_schedules o = sc_allow_message_schedules d /\
  sc_allow_message_counter o = sc_allow_message_counter d.

(** The contract of a resource, field by field: what a broker must report for a
    stream the application can rely on. *)
Record Contract m (resource : string) o : Prop := {
  ct_name : sc_name o = resource;
  ct_subjects : exists l, declared_subjects resource = Some l /\ sc_subjects o ≡ₚ l;
  ct_storage : sc_storage o = StorageFile;
  ct_retention : sc_retention o = RetainLimits;
  ct_replicas : sc_num_replicas o = m_replicas m;
  ct_discard : sc_discard o = if is_kv resource || bool_decide (is_Some (m_capacity m))
                              then DiscardNew else sc_discard (stream_default (X := X));
  ct_budget : forall c, m_capacity m = Some c ->
    sc_max_bytes o = declared_bytes c resource /\
    sc_max_consumers o = (if is_kv resource then 8 else retained_devices c) /\
    sc_max_message_size o = 65536;
  ct_plain : default_semantics o;
  ct_persist : sc_persist_mode o <> Some PersistAsync;
  ct_sources : default [] (sc_sources o) = [];
  ct_bucket : is_kv resource = true ->
    sc_allow_rollup o = true /\ sc_max_messages_per_subject o = 1 /\ sc_deny_delete o = true /\
    sc_deny_purge o = sc_deny_purge (stream_default (X := X)) /\ sc_allow_direct o = true;
  ct_stream : is_kv resource = false ->
    sc_allow_rollup o = sc_allow_rollup (stream_default (X := X)) /\
    (sc_max_messages_per_subject o = -1 \/ sc_max_messages_per_subject o = 0);
  ct_size : if bool_decide (resource = "KV_IDENTITIES") || bool_decide (resource = "KV_CHANNELS")
            then sc_max_message_size o = -1 \/ sc_max_message_size o = 0 \/
                 65536 <= sc_max_message_size o
            else sc_max_message_size o = 65536;
  ct_quotas : -1 <= sc_max_bytes o /\ -1 <= sc_max_messages o /\ -1 <= sc_max_consumers o;
  ct_limits : forall l, sc_consumer_limits o = Some l ->
    inactive_threshold l = 0 /\ -1 <= max_ack_pending l;
}.

Lemma check_field_nil {A} `{EqDecision A} r f (json : A -> Value) e a :
  check_field r f json e a = [] <-> a = e.
Proof. unfold check_field. case_decide; split; intros; try done; by subst. Qed.
Lemma check_that_nil b r f e a : check_that b r f e a = [] <-> b = true.
Proof. unfold check_that. by destruct b. Qed.
Lemma app_nil_iff {A} (l k : list A) : l ++ k = [] <-> l = [] /\ k = [].
Proof. split; [apply app_eq_nil|by intros [-> ->]]. Qed.

Lemma compare_nil m resource o :
  compare m resource o = Ok [] <->
  exists e, List.find (fun c => bool_decide (sc_name c = resource)) (resources m) = Some e /\
    compare_placement (bool_decide (is_Some (m_capacity m))) resource e o = [] /\
    compare_semantics resource e o = [] /\ compare_messages resource e o = [] /\
    compare_quotas resource o = [].
Proof.
  unfold compare. destruct (List.find _ _) as [e|]; cbn [ok_or rbind].
  - split.
    + intros [=Hc]. rewrite !app_nil_iff in Hc. by eauto.
    + intros (? & [= <-] & -> & -> & -> & ->). done.
  - split; [done|]. by intros (? & ? & _).
Qed.

(** What the manifest declares for one resource. *)
Definition declared_base m (resource : string) : StreamConfig X :=
  if is_kv resource then bucket_resource (m_replicas m) (default "" (strip_prefix "KV_" resource))
  else stream_resource (m_replicas m) resource (default [] (declared_subjects resource)).
Definition declared m (resource : string) : StreamConfig X :=
  let base := declared_base m resource in
  match m_capacity m with Some c => with_capacity c base | None => base end.

Lemma resources_declared m : resources m = declared m <$> declared_names.
Proof. unfold resources, declared. by destruct (m_capacity m). Qed.
Lemma declared_name m r : r ∈ declared_names -> sc_name (declared m r) = r.
Proof.
  intros Hr. unfold declared. each_name Hr; by destruct (m_capacity m).
Qed.
Lemma find_declared m r :
  List.find (fun c => bool_decide (sc_name c = r)) (resources m) =
  if bool_decide (r ∈ declared_names) then Some (declared m r) else None.
Proof.
  rewrite resources_declared. pose proof (declared_name m) as Hn. revert Hn.
  generalize declared_names. intros l Hn. induction l as [|x l IH]; [by case_bool_decide; set_solver|].
  rewrite fmap_cons. cbn [List.find]. rewrite (Hn x) by set_solver.
  rewrite IH by (intros; apply Hn; set_solver).
  repeat case_bool_decide; by set_solver.
Qed.

(** A validated budget keeps its value through the casts. *)
Lemma validate_budgets c :
  validate c = Ok tt ->
  (forall r, r ∈ declared_names -> budget c r = Some (declared_bytes c r) /\ -1 <= declared_bytes c r) /\
  as_i32 (retained_devices c) = retained_devices c /\ -1 <= retained_devices c.
Proof.
  intros Hv. pose proof (validate_ranges _ _ Hv) as Hr. unfold validate in Hv. inv_ok. inv_checks.
  assert (forall n, 0 <= n < 2 ^ 63 -> as_i64 n = n) as W64.
  { intros n Hn. unfold as_i64. rewrite Z.mod_small by lia. lia. }
  assert (forall n, 0 <= n < 2 ^ 31 -> as_i32 n = n) as W32.
  { intros n Hn. unfold as_i32. rewrite Z.mod_small by lia. lia. }
  split; [|split; [apply W32|]; lia].
  intros r Hn. each_name Hn; unfold budget, declared_bytes; literals; rewrite W64 by lia; split; done || lia.
Qed.

(** Byte order sorts two lists alike exactly when one is a permutation of the
    other. *)
Lemma string_le_sorted_eq (l k : list string) :
  merge_sort string_le l = merge_sort string_le k <-> l ≡ₚ k.
Proof.
  split.
  - intros He. rewrite <- (merge_sort_Permutation string_le l), He. apply merge_sort_Permutation.
  - intros Hp. apply (StronglySorted_unique string_le); try apply StronglySorted_merge_sort; try apply _.
    by rewrite !(merge_sort_Permutation string_le).
Qed.

Lemma declared_base_fields m r (b := declared_base m r) (d := stream_default (X := X)) :
  r ∈ declared_names ->
  sc_name b = r /\ declared_subjects r = Some (sc_subjects b) /\ sc_storage b = StorageFile /\
  sc_retention b = RetainLimits /\ sc_num_replicas b = m_replicas m /\
  sc_discard b = (if is_kv r then DiscardNew else sc_discard d) /\
  sc_max_messages_per_subject b = (if is_kv r then 1 else -1) /\
  sc_max_message_size b = (if bool_decide (r = "KV_IDENTITIES") || bool_decide (r = "KV_CHANNELS")
                           then -1 else 65536) /\
  sc_allow_rollup b = (if is_kv r then true else sc_allow_rollup d) /\
  sc_deny_delete b = (if is_kv r then true else sc_deny_delete d) /\
  sc_allow_direct b = (if is_kv r then true else sc_allow_direct d) /\
  sc_deny_purge b = sc_deny_purge d.
Proof. intros Hr. each_name Hr; by split_and!. Qed.

Lemma placement_exact m r o :
  manifest_wf m -> r ∈ declared_names ->
  compare_placement (bool_decide (is_Some (m_capacity m))) r (declared m r) o = [] <->
  sc_name o = r /\ (exists l, declared_subjects r = Some l /\ sc_subjects o ≡ₚ l) /\
  sc_storage o = StorageFile /\ sc_retention o = RetainLimits /\
  sc_num_replicas o = m_replicas m /\
  sc_discard o = (if is_kv r || bool_decide (is_Some (m_capacity m))
                  then DiscardNew else sc_discard (stream_default (X := X))) /\
  forall c, m_capacity m = Some c ->
    sc_max_bytes o = declared_bytes c r /\
    sc_max_consumers o = (if is_kv r then 8 else retained_devices c) /\
    sc_max_message_size o = 65536.
Proof.
  intros [_ Hw] Hr. unfold compare_placement.
  rewrite !app_nil_iff, !check_field_nil, string_le_sorted_eq, (declared_name m r Hr).
  unfold declared. destruct (m_capacity m) as [c|].
  - destruct Hw as [_ Hv]. destruct (validate_budgets c Hv) as (Hb & Hd & _).
    rewrite !bool_decide_true by eauto. rewrite !app_nil_iff, !check_field_nil.
    cbn [with_capacity sc_name sc_subjects sc_storage sc_retention sc_num_replicas sc_discard
      sc_max_bytes sc_max_consumers sc_max_message_size].
    destruct (declared_base_fields m r Hr) as (-> & Hs & -> & -> & -> & _).
    destruct (Hb r Hr) as [-> _]. rewrite Hd, Hs, orb_true_r. cbn [default].
    naive_solver.
  - rewrite !bool_decide_false by (by intros [? ?]).
    destruct (declared_base_fields m r Hr) as (_ & Hs & -> & -> & -> & -> & _).
    rewrite Hs, orb_false_r. naive_solver.
Qed.

Lemma semantics_exact m r o :
  r ∈ declared_names ->
  compare_semantics r (declared m r) o = [] <->
  default_semantics o /\
  sc_persist_mode o <> Some PersistAsync /\ default [] (sc_sources o) = [] /\
  sc_allow_rollup o = if is_kv r then true else sc_allow_rollup (stream_default (X := X)).
Proof.
  intros Hr. unfold compare_semantics, default_semantics.
  rewrite !app_nil_iff, !check_field_nil, !check_that_nil, negb_true_iff, bool_decide_eq_true,
    bool_decide_eq_false.
  unfold declared. destruct (m_capacity m) as [c|]; each_name Hr; literals;
    cbn -[sc_persist_mode sc_sources stream_default]; tauto.
Qed.

Lemma messages_exact m r o (d := stream_default (X := X)) :
  r ∈ declared_names ->
  compare_messages r (declared m r) o = [] <->
  (if is_kv r then
     sc_max_messages_per_subject o = 1 /\ sc_deny_delete o = true /\
     sc_deny_purge o = sc_deny_purge d /\ sc_allow_direct o = true
   else sc_max_messages_per_subject o = -1 \/ sc_max_messages_per_subject o = 0) /\
  (if bool_decide (r = "KV_IDENTITIES") || bool_decide (r = "KV_CHANNELS")
   then sc_max_message_size o = -1 \/ sc_max_message_size o = 0 \/ 65536 <= sc_max_message_size o
   else sc_max_message_size o = 65536).
Proof.
  intros Hr. unfold compare_messages, unlimited.
  rewrite app_nil_iff.
  assert ((if negb ((sc_max_messages_per_subject o =? -1) || (sc_max_messages_per_subject o =? 0))
           then check_field r "max_messages_per_subject" Number (-1) (sc_max_messages_per_subject o)
           else []) = [] <-> sc_max_messages_per_subject o = -1 \/ sc_max_messages_per_subject o = 0)
    as Hstream.
  { destruct (Z.eqb_spec (sc_max_messages_per_subject o) (-1)),
      (Z.eqb_spec (sc_max_messages_per_subject o) 0); cbn [orb negb]; rewrite ?check_field_nil;
      split; intros; try done; lia. }
  assert (check_that ((sc_max_message_size o =? -1) || (sc_max_message_size o =? 0)
                      || (65536 <=? sc_max_message_size o)) r "max_message_size"
            (Text "unlimited or >= 65536") (Number (sc_max_message_size o)) = [] <->
          sc_max_message_size o = -1 \/ sc_max_message_size o = 0 \/ 65536 <= sc_max_message_size o)
    as Hsize by (rewrite check_that_nil, !orb_true_iff, !Z.eqb_eq, Z.leb_le; tauto).
  unfold declared. destruct (m_capacity m) as [c|]; each_name Hr; literals; cbn [orb];
    try rewrite Hsize; try (rewrite !app_nil_iff); rewrite ?check_field_nil;
    cbn -[stream_default unlimited check_field]; try rewrite Hstream; subst d; tauto.
Qed.

Lemma quotas_exact r o :
  compare_quotas r o = [] <->
  (-1 <= sc_max_bytes o /\ -1 <= sc_max_messages o /\ -1 <= sc_max_consumers o) /\
  forall l, sc_consumer_limits o = Some l -> inactive_threshold l = 0 /\ -1 <= max_ack_pending l.
Proof.
  unfold compare_quotas. cbn [fmap list_fmap concat].
  rewrite !app_nil_iff, !check_that_nil, !Z.leb_le.
  destruct (sc_consumer_limits o) as [l|].
  - rewrite check_that_nil, andb_true_iff, Z.eqb_eq, Z.leb_le. naive_solver.
  - naive_solver.
Qed.

(** C26. The comparison reports nothing exactly when the reported stream meets the
    contract of the resource it was asked about: its name, subjects up to order,
    storage, retention, replicas, budgets and delivery semantics. The casts of
    the budgets lose nothing, and a resource the manifest does not declare is
    refused. *)
Theorem compare_exact m resource o :
  manifest_wf m ->
  (resource ∈ declared_names -> compare m resource o = Ok [] <-> Contract m resource o) /\
  (resource ∉ declared_names -> exists e, compare m resource o = Err e).
Proof.
  intros Hw. split; intros Hr.
  - rewrite compare_nil. setoid_rewrite find_declared. rewrite bool_decide_true by done.
    split.
    + intros (e & [= <-] & Hp & Hs & Hm & Hq).
      apply placement_exact in Hp as (?&?&?&?&?&?&?); [|done..].
      apply semantics_exact in Hs as (?&?&?&?); [|done]. apply messages_exact in Hm as (?&?); [|done].
      apply quotas_exact in Hq as (?&?).
      destruct (is_kv resource) eqn:Hk; split; rewrite ?Hk; try done; tauto.
    + intros [?????????? Hb Hs ???]. eexists. split; [done|].
      rewrite placement_exact, semantics_exact, messages_exact, quotas_exact by done.
      destruct (is_kv resource) eqn:Hk; [specialize (Hb eq_refl)|specialize (Hs eq_refl)];
        rewrite ?Hk in *; split_and!; tauto.
  - unfold compare. rewrite find_declared, bool_decide_false by done. by eexists.
Qed.

(** Fields the contract takes from the default come from it in every resource. *)
Lemma declared_inherits m r :
  sc_persist_mode (declared m r) = sc_persist_mode (stream_default (X := X)) /\
  sc_sources (declared m r) = sc_sources (stream_default (X := X)) /\
  sc_consumer_limits (declared m r) = sc_consumer_limits (stream_default (X := X)) /\
  sc_max_messages (declared m r) = -1.
Proof. unfold declared, declared_base. by destruct (m_capacity m), (is_kv r). Qed.

(** A broker that holds exactly what the manifest publishes passes its own
    inspection: the rendered resources and the comparison agree. *)
Theorem published_compatible `{!StreamDefaultLaws X} m c :
  manifest_wf m -> c ∈ resources m -> compare m (sc_name c) c = Ok [].
Proof.
  intros Hw Hc. rewrite resources_declared in Hc. apply list_elem_of_fmap in Hc as (r & -> & Hr).
  rewrite (declared_name m r Hr), compare_nil. exists (declared m r).
  rewrite find_declared, bool_decide_true by done.
  destruct (declared_inherits m r) as (Hp & Hs & Hl & Hm).
  pose proof default_persist. pose proof default_sources. pose proof default_limits.
  split; [done|split_and!].
  - unfold compare_placement. rewrite !app_nil_iff, !check_field_nil. split_and!; try done.
    case_bool_decide; [|done]. by rewrite !app_nil_iff, !check_field_nil.
  - unfold compare_semantics. rewrite !app_nil_iff, !check_field_nil, !check_that_nil, Hp, Hs.
    split_and!; try done; [by rewrite bool_decide_false|by rewrite bool_decide_true].
  - unfold declared. by destruct (m_capacity m), Hw as [_ _]; each_name Hr;
      unfold compare_messages, check_field, check_that; cbn -[stream_default]; rewrite ?decide_True.
  - apply quotas_exact. rewrite Hm, Hl. split; [|intros l Hlim; congruence].
    destruct Hw as [_ Hw]. unfold declared. destruct (m_capacity m) as [b|].
    + destruct (validate_budgets b (proj2 Hw)) as (Hb & Hd & ?). destruct (Hb r Hr) as [Hbr ?].
      unfold with_capacity, declared_base; cbn [sc_max_bytes sc_max_consumers sc_name].
      fold (declared_base m r). destruct (declared_base_fields m r Hr) as (-> & _). rewrite Hbr, Hd.
      cbn [default]. unfold id. destruct (is_kv r); lia.
    + unfold declared_base. destruct (is_kv r); cbn; lia.
Qed.
End contract.
