(* ===== verification/Validation.v ===== *)
(** * Validation reports

    [crates/epochgrid-core/src/validation.rs]: the report of a validation, the
    codes an error becomes in it, and the offline validation of a home, which
    reads files, credentials and databases and writes nothing. *)
From S2P Require Import Prelude External Wire AuthDb Capacity Identity Merkle Secrets Tls Callout Files IdentityStore Database DatabaseFacts Inspection Deployment.

(** ** Reports *)

(* @src core/validation.rs 16-22 Status *)
Inductive Status : Type := Passed | Failed | NotChecked.
#[global] Instance Status_eq_dec : EqDecision Status.
Proof. solve_decision. Defined.

(* @src core/validation.rs 24-33 Check *)
Record Check : Type := {
  ck_id : string;
  ck_status : Status;
  ck_required : bool;
  ck_expected : Value;
  ck_observed : Value;
  ck_remediation : option string;
}.
(* @src core/validation.rs 35-42 Report *)
Record Report : Type := {
  rp_version : Z;
  rp_mode : string;
  rp_success : bool;
  rp_checks : list Check;
}.

(** [serde_json] on reports, and [Display] of a JSON value. *)
Class ReportJson : Type := {
  report_to_json : Report -> bytes;
  report_from_json : bytes -> result Report;
  value_text : Value -> string;
}.

Definition passed (c : Check) : bool := bool_decide (ck_status c = Passed).
(** Every required check passed. *)
Definition all_passed (checks : list Check) : bool :=
  forallb passed (List.filter ck_required checks).

(* @src core/validation.rs 44-66 parse *)
Definition parse `{ReportJson} (b : bytes) : result Report :=
  let? report := report_from_json b in
  check ((rp_version report =? 1)
         && bool_decide (rp_mode report ∈ ["offline"; "online"; "startup"]))
    "unsupported validation report" ;;?
  let ids := list_to_set (C := gset string) (ck_id <$> rp_checks report) in
  check (bool_decide (size ids = length (rp_checks report))
         && negb (bool_decide (rp_checks report = [])))
    "invalid validation checks" ;;?
  check (Bool.eqb (rp_success report) (all_passed (rp_checks report)))
    "inconsistent validation outcome" ;;?
  Ok report.

Definition state_text (s : Status) : string :=
  match s with Passed => "PASS" | Failed => "FAIL" | NotChecked => "NOT CHECKED" end.
(* @src core/validation.rs 67-90 human *)
Definition human `{ReportJson} (r : Report) : string :=
  foldl (fun text c =>
      text +:+ state_text (ck_status c) +:+ " " +:+ ck_id c +:+ ": "
      +:+ value_text (ck_observed c) +:+ newline
      +:+ match ck_remediation c with Some m => "  " +:+ m +:+ newline | None => "" end)
    (rp_mode r +:+ " validation " +:+ (if rp_success r then "passed" else "failed") +:+ "."
     +:+ (if bool_decide (rp_mode r = "offline")
          then " Network deployment readiness was NOT evaluated."
          else " See coverage checks for inspection limits.") +:+ newline)
    (rp_checks r).

(** ** Codes *)

Definition local_code (f : LocalFailure) : string :=
  match f with
  | UnsafeFileType => "unsafe_file_type"
  | WrongFileOwner => "wrong_file_owner"
  | PermissionsTooOpen => "permissions_too_open"
  | PermissionsInsufficient => "permissions_insufficient"
  | AuthConfigLocation => "auth_config_location"
  | OperatorSetupIncomplete => "operator_setup_incomplete"
  | CredentialBindingMismatch => "credential_binding_mismatch"
  | ControlIdentityMismatch => "control_identity_mismatch"
  | CredentialReuse => "credential_reuse"
  | DevelopmentTransportInProduction => "development_transport_in_production"
  end.
Definition secret_diagnostics : list (error * (string * string)) := [
  (Missing, ("credential_missing",
    "Restore the original keyring item; validation never regenerates established credentials."));
  (Locked, ("keyring_locked",
    "Unlock the backend account's Secret Service keyring, then retry."));
  (Duplicate, ("credential_duplicate",
    "Resolve duplicate items with the backend account's keyring manager, then retry."));
  (Binding, ("credential_binding_mismatch",
    "Restore the matching original credential and public metadata; do not replace keys."));
  (Unavailable, ("keyring_unavailable",
    "Run under the backend Linux account with its provisioned Secret Service session."));
  (Timeout, ("keyring_timeout",
    "Check the backend Secret Service session; the credential operation timed out."));
  (BackendDenied, ("keyring_denied", "Check keyring access for the backend Linux account."))].
Definition inspection_advice (e : InspectionError) : string :=
  match e with
  | Plaintext => "Legacy plaintext is unsupported. Preserve the original state and use fresh enrollment; validation does not migrate it."
  | Incomplete => "Initialization is incomplete. Review the setup state and retry the original auth-init command only for an interrupted fresh setup."
  | Busy => "Retry after the current database transaction completes; validation did not repair or modify state."
  | Schema => "Use a compatible binary and complete setup separately; validation never runs migrations."
  | _ => "Restore matching encrypted state, public metadata and keyring from the same installation; validation never repairs or resets state."
  end.
(** An [io::Error] of kind [NotFound], also below a context. *)
Definition is_not_found (e : error) : bool :=
  bool_decide (e ∈ [NotFoundFile; Anyhow "existing credential metadata required"]).

(* @src core/validation.rs 133-203 diagnostic *)
Definition diagnostic (e : error) (fallback remediation : string) : string * string :=
  match List.find (fun p => bool_decide (fst p = e)) secret_diagnostics with
  | Some (_, d) => d
  | None =>
      match inspection_of e with
      | Some i => (inspection_code i, inspection_advice i)
      | None =>
          match e with
          | Local f => (local_code f, remediation)
          | _ => (if is_not_found e then "state_missing" else fallback, remediation)
          end
      end
  end.

(** ** Checks *)

Definition push (c : Check) : M Report unit :=
  modify (fun r => {| rp_version := rp_version r; rp_mode := rp_mode r; rp_success := rp_success r;
                      rp_checks := rp_checks r ++ [c] |}).

(* @src core/validation.rs 91-115 check *)
Definition check_op {T} (id expected fallback remediation : string) (operation : result T)
  : M Report (option T) :=
  let '(value, status, observed, remedy) :=
    match operation with
    | Ok value => (Some value, Passed, Text "valid", None)
    | Err e =>
        let '(code, advice) := diagnostic e fallback remediation in
        (None, Failed, Text code, Some advice)
    end in
  push {| ck_id := id; ck_status := status; ck_required := true; ck_expected := Text expected;
          ck_observed := observed; ck_remediation := remedy |} ;;;
  ret value.

(* @src core/validation.rs 116-126 skip *)
Definition skip (id : string) (required : bool) (reason : string) : M Report unit :=
  push {| ck_id := id; ck_status := NotChecked; ck_required := required;
          ck_expected := Text "check completed"; ck_observed := Text reason;
          ck_remediation := if required
            then Some "Resolve the failed prerequisite and rerun validation." else None |}.

(** [report.checks.last_mut().unwrap().observed = v]. *)
Definition amend (v : Value) : M Report unit :=
  modify (fun r => {| rp_version := rp_version r; rp_mode := rp_mode r; rp_success := rp_success r;
    rp_checks := match reverse (rp_checks r) with
                 | c :: rest => reverse ({| ck_id := ck_id c; ck_status := ck_status c;
                     ck_required := ck_required c; ck_expected := ck_expected c; ck_observed := v;
                     ck_remediation := ck_remediation c |} :: rest)
                 | [] => []
                 end |}).
(** [report.success = ...]. *)
(* @src core/validation/online.rs 68-74 outcome *)
Definition outcome : M Report unit :=
  modify (fun r => {| rp_version := rp_version r; rp_mode := rp_mode r;
                      rp_success := all_passed (rp_checks r); rp_checks := rp_checks r |}).
Definition set_mode (mode : string) : M Report unit :=
  modify (fun r => {| rp_version := rp_version r; rp_mode := mode; rp_success := rp_success r;
                      rp_checks := rp_checks r |}).
(** A loop that carries a value from one element to the next. *)
Fixpoint fold_m {St A B} (f : B -> A -> M St B) (b : B) (l : list A) : M St B :=
  match l with
  | [] => ret b
  | a :: l => let* b' := f b a in fold_m f b' l
  end.
Definition new_report (mode : string) : Report :=
  {| rp_version := 1; rp_mode := mode; rp_success := false; rp_checks := [] |}.

(* @src core/validation.rs 205-234 private_path *)
Definition private_path (uid : Z) (path : string) (directory : bool) (files : Fs) : result unit :=
  let? metadata := symlink_metadata path files in
  require (negb (is_symlink metadata) && (if directory then is_dir metadata else is_file metadata))
    (Local UnsafeFileType) ;;?
  require (owner metadata =? uid) (Local WrongFileOwner) ;;?
  require (no_bits metadata 0x3F) (Local PermissionsTooOpen) ;;?
  let required := if directory then 0x140 else 0x100 in
  require (Z.land (mode metadata) required =? required) (Local PermissionsInsufficient).

(** ** Offline validation *)

(** A registry database inspected under a policy, and its retained usage. *)
(* @src core/capacity.rs 160-164 inspect_registry *)
Definition inspect_registry {S} `{Backend S} `{Seeds} `{Sha256} `{Pages AuthDb}
    (capacity : Capacity) (p : Pragmas) : M (Dir AuthDb S) unit :=
  lift (validate capacity) ;;;
  let* c := inspect "auth" p in
  lift (on_data c (fun db => fst (check_registry capacity db))).

(** What validation reads: the account, the files, the environment, the clock,
    and the databases and credentials of the home and of its control directory,
    with what the pragmas answer there. *)
Record Site (C S : Type) : Type := {
  s_uid : Z;
  s_files : Fs;
  s_env : string -> result (option string);
  s_now : result Z;
  s_auth : Dir AuthDb S;
  s_auth_pragmas : Pragmas;
  s_control : Dir C S;
  s_control_pragmas : Pragmas;
}.
Arguments s_uid {C S}. Arguments s_files {C S}. Arguments s_env {C S}. Arguments s_now {C S}.
Arguments s_auth {C S}. Arguments s_auth_pragmas {C S}.
Arguments s_control {C S}. Arguments s_control_pragmas {C S}.

Section offline.
Context `{NKeys} `{Seeds} `{Sha256} `{ConfigJson} `{CapacityFile} `{ServerAddrs} `{TrustStore}
  `{MlsPackages} `{Postcard Envelope} `{Postcard RegistrationPayload} `{Postcard DeviceRegistration}
  `{Json SecretRef} `{Pages AuthDb} `{Catalog AuthDb}.
Context {X : Type} `{ManifestJson X}.
Context {C : Type} `{Catalog C} {S : Type} `{Backend S}.
(** [canonical] is [canonicalize]; [parent] is [Path::parent], the empty path
    replaced by [.]. *)
Context (canonical : string -> result string) (parent : string -> string).
Implicit Types (w : Site C S).

Definition is_some {A} (o : option A) : bool := match o with Some _ => true | None => false end.

Definition file_advice : string := "Restore missing original state or restrict file access to the backend account (0600); do not initialize over existing state.".
Definition sidecar_advice : string := "Restrict SQLite sidecar access to the backend account; never delete live WAL/SHM files.".

(** Nothing at the path: [symlink_metadata] reports [NotFound]. *)
Definition missing (path : string) (files : Fs) : bool := bool_decide (files !! path = None).

(* @src core/validation.rs 238-249 files (state) *)
Definition state_files w (root role prefix : string) : M Report bool :=
  fold_m (fun valid '(suffix, name) =>
      let path := join root name in
      let* r := check_op ("local.permissions." +:+ prefix +:+ "." +:+ suffix)
                  "existing owner-only regular file" "file_permissions_invalid" file_advice
                  (private_path (s_uid w) path false (s_files w)) in
      ret (valid && (is_some r || missing path (s_files w))))
    true
    [("credentials", "credentials.json"); ("metadata", role +:+ ".database.json");
     ("database", role +:+ ".sqlite")].
(* @src core/validation.rs 250-258 files (sidecars) *)
Definition sidecar_files w (root role prefix : string) (valid : bool) : M Report bool :=
  fold_m (fun valid extension =>
      let path := join root (role +:+ ".sqlite-" +:+ extension) in
      if missing path (s_files w) then ret valid
      else
        let* r := check_op ("local.permissions." +:+ prefix +:+ "." +:+ extension)
                    "owner-only SQLite sidecar" "sidecar_permissions_invalid" sidecar_advice
                    (private_path (s_uid w) path false (s_files w)) in
        ret (valid && is_some r))
    valid ["wal"; "shm"; "journal"].
(* @src core/validation.rs 236-260 files *)
Definition check_files w (root role prefix : string) : M Report bool :=
  let* valid := state_files w root role prefix in
  sidecar_files w root role prefix valid.

(* @src core/validation.rs 271-278 offline (configuration) *)
Definition read_config w (home auth_config : string) : result Config :=
  private_path (s_uid w) auth_config false (s_files w) ;;?
  let? a := canonical (parent auth_config) in
  let? b := canonical home in
  require (bool_decide (a = b)) (Local AuthConfigLocation) ;;?
  let? config := load_for_export (read_file auth_config (s_files w)) (s_now w) in
  require (match operator_jwt config with
           | Some operator => negb (bool_decide (connection_jwt operator = EmptyString))
           | None => true
           end) (Local OperatorSetupIncomplete) ;;?
  Ok config.
(* @src core/validation.rs 269-283 offline (auth_config) *)
Definition config_check w (home auth_config : string) (home_ok : bool) : M Report (option Config) :=
  if home_ok then
    check_op "local.auth_config" "supported complete version-2 authentication configuration in backend home"
      "auth_config_invalid" "Review auth.json and its permissions. Operator mode requires a current signed non-bearer service JWT; validation does not complete setup."
      (read_config w home auth_config)
  else
    skip "local.auth_config" true "backend home unavailable" ;;;
    ret None.

(* @src core/validation.rs 284-300 offline (deployment_manifest) *)
Definition manifest_check w (home : string) (home_ok : bool) : M Report unit :=
  if home_ok then
    let* manifest := check_op "local.deployment_manifest"
      "version-1 manifest with explicit replicas 1 or 3" "deployment_manifest_invalid"
      "Run deployment-export with explicit --replicas 1 or 3 for an existing M26 home; preserve established deployment choices."
      (private_path (s_uid w) (join home MANIFEST_FILE) false (s_files w) ;;?
       load_manifest home (s_files w)) in
    match manifest with
    | Some m => amend (Object [("version", Number 2); ("replicas", Number (m_replicas m))])
    | None => ret tt
    end
  else skip "local.deployment_manifest" true "backend home unavailable".

(* @src core/validation.rs 301-304 offline (capacity) *)
Definition capacity_check w (home : string) : M Report unit :=
  let* _ := check_op "local.capacity" "valid capacity policy and retained usage within declared limits"
    "capacity_invalid_or_exhausted" "Run capacity-export while stopped; apply the exported broker budgets, preserve existing identities and increase capacity only within supported ceilings."
    (private_path (s_uid w) (join home CAPACITY_FILE) false (s_files w) ;;?
     let? capacity := read_capacity home (s_files w) in
     fst (inspect_registry capacity (s_auth_pragmas w) (s_auth w))) in
  ret tt.

(* @src core/validation.rs 307-320 offline (control_home) *)
Definition control_check w (home : string) (home_ok : bool) : M Report bool :=
  if home_ok then
    let* r := check_op "local.control_home" "existing owner-only control directory"
      "control_home_invalid" "Restore the original control home and use backend-owned 0700 permissions."
      (private_path (s_uid w) (join home "control") true (s_files w)) in
    ret (is_some r)
  else
    skip "local.control_home" true "backend home unavailable" ;;;
    ret false.

(** The credentials of an established installation, in the order they are
    checked: the name of the check, whether it is the control directory's, the
    role and the kind. *)
(* @src core/validation.rs 323-345 offline (roles) *)
Definition credential_roles : list (string * bool * string * Kind) := [
  ("issuer", false, "issuer", Account);
  ("encryption", false, "encryption", XKey);
  ("connection", false, "connection", User);
  ("auth_database", false, "database-auth", Secrets.Database);
  ("control", true, "device", User);
  ("control_database", true, "database-identity", Secrets.Database)].

(* @src core/validation.rs 348-356 offline (credential) *)
Definition read_credential w (config : option Config) (id : string) (control : bool) (role : string)
    (kind : Kind) : result SecretRef :=
  let? reference := existing role kind (if control then d_vault (s_control w) else d_vault (s_auth w)) in
  match config with
  | Some config =>
      let expected := if bool_decide (id = "issuer") then Some (issuer config)
        else if bool_decide (id = "encryption") then Some (encryption config)
        else if bool_decide (id = "connection") then Some (connection config)
        else None in
      require (match expected with Some e => bool_decide (e = reference) | None => true end)
        (Local CredentialBindingMismatch) ;;?
      require (negb (bool_decide (id = "control"))
               || bool_decide (sr_public_key reference = control_nkey config))
        (Local ControlIdentityMismatch)
  | None => Ok tt
  end ;;?
  Ok reference.
(* @src core/validation.rs 322-360 offline (credentials) *)
Definition credentials_check w (config : option Config) (auth_files control_files : bool)
  : M Report (list SecretRef) :=
  fold_m (fun references '(id, control, role, kind) =>
      let check_id := "local.credentials." +:+ id in
      if (if control : bool then control_files else auth_files) then
        let* r := check_op check_id "established credential with matching role and public binding"
          "credential_invalid" "Restore the matching original credential metadata and keyring; validation cannot provision missing keys."
          (read_credential w config id control role kind) in
        ret (references ++ match r with Some reference => [reference] | None => [] end)
      else
        skip check_id true "credential files unavailable or unsafe" ;;;
        ret references)
    [] credential_roles.
(* @src core/validation.rs 361-372 offline (independent) *)
Definition independent_check (references : list SecretRef) : M Report unit :=
  if (length references =? 6)%nat then
    let* _ := check_op "local.credentials.independent" "six independent credential IDs and public bindings"
      "credential_reuse" "Restore independent role credentials from the original installation; do not generate replacements."
      (require ((size (list_to_set (C := gset string) (sr_id <$> references)) =? 6)%nat
                && (size (list_to_set (C := gset string) (sr_public_key <$> references)) =? 6)%nat)
         (Local CredentialReuse)) in
    ret tt
  else skip "local.credentials.independent" true "one or more credentials unavailable".

(* @src core/validation.rs 373-390 offline (databases) *)
Definition database_checks w (config : option Config) (auth_files control_files : bool)
  : M Report unit :=
  (if auth_files then
     let* _ := check_op "local.database.auth" "encrypted bound auth database, schema 3, integrity valid"
       "database_inspection_failed" "Restore matching encrypted database, metadata and keyring; validation does not migrate or reset state."
       (fst (inspect_auth (s_auth_pragmas w) (s_auth w))) in
     ret tt
   else skip "local.database.auth" true "auth database files unavailable or unsafe") ;;;
  match config with
  | Some config =>
      if control_files then
        let* _ := check_op "local.database.control" "encrypted bound control database, schema 8/OpenMLS 6, signed service identity"
          "database_inspection_failed" "Restore matching control state and credentials; validation does not migrate or initialize identity."
          (fst (inspect_control (control_nkey config) (s_control_pragmas w) (s_control w))) in
        ret tt
      else skip "local.database.control" true "control files or valid auth configuration unavailable"
  | None => skip "local.database.control" true "control files or valid auth configuration unavailable"
  end.

(* @src core/validation.rs 391-396 offline (transport inputs) *)
Definition transport_inputs w (config : option Config) : result TlsConfig :=
  let? tls := from_lookup (s_env w) in
  validate_local tls ;;?
  match config with
  | Some config => require (negb (development_plaintext config)
                            || bool_decide (profile tls = Development))
                     (Local DevelopmentTransportInProduction)
  | None => Ok tt
  end ;;?
  Ok tls.
(* @src core/validation.rs 391-418 offline (transport) *)
Definition transport_checks w (config : option Config) (endpoint : option string) : M Report unit :=
  let* tls := check_op "local.transport.inputs" "valid TLS profile and nonempty usable trust roots"
    "tls_inputs_invalid" "Review EPOCHGRID_PROFILE, EPOCHGRID_TLS_CA_PATH, EPOCHGRID_TLS_MIN_VERSION and EPOCHGRID_TLS_FIRST; provide a valid CA bundle."
    (transport_inputs w config) in
  match endpoint with
  | Some endpoint =>
      match tls, config with
      | Some tls, Some config =>
          let* _ := check_op "local.transport.endpoint" "valid credential-free endpoint allowed by the shared TLS policy"
            "endpoint_invalid" "Supply a verified tls:// endpoint without embedded credentials; no connection was attempted."
            (let? _ := validate_endpoint tls endpoint in
             check_transport config (from_lookup (s_env w)) endpoint) in
          ret tt
      | _, _ => skip "local.transport.endpoint" true "TLS inputs or auth configuration unavailable"
      end
  | None => skip "local.transport.endpoint" false
      "no endpoint supplied; transport reachability and server identity are not evaluated"
  end.

(* @src core/validation.rs 269-269 offline (home) *)
Definition home_check w (home : string) : M Report bool :=
  let* r := check_op "local.home" "existing owner-only backend directory" "home_invalid"
    "Select the established backend home and run as its owner; use 0700 directory permissions. Initialize a fresh home separately if needed."
    (private_path (s_uid w) home true (s_files w)) in
  ret (is_some r).
(* @src core/validation.rs 270-427 offline *)
Definition remaining_checks w (home auth_config : string) (endpoint : option string) (home_ok : bool)
  : M Report unit :=
  let* config := config_check w home auth_config home_ok in
  manifest_check w home home_ok ;;;
  capacity_check w home ;;;
  let* auth_files := (if home_ok then check_files w home "auth" "auth" else ret false) in
  let* control_ok := control_check w home home_ok in
  let* control_files := (if control_ok then check_files w (join home "control") "identity" "control"
                         else ret false) in
  let* references := credentials_check w config auth_files control_files in
  independent_check references ;;;
  database_checks w config auth_files control_files ;;;
  transport_checks w config endpoint ;;;
  skip "coverage.network" false "offline mode: NATS authentication, JetStream resources, replicas and deployment readiness were not evaluated" ;;;
  skip "coverage.operator" false "route TLS, account isolation, signer delegation, resolver lifecycle and capacity require operator/online checks" ;;;
  outcome.
Definition offline_checks w (home auth_config : string) (endpoint : option string) : M Report unit :=
  let* home_ok := home_check w home in
  remaining_checks w home auth_config endpoint home_ok.
(* @src core/validation.rs 262-268 offline *)
Definition offline w (home auth_config : string) (endpoint : option string) : Report :=
  snd (offline_checks w home auth_config endpoint (new_report "offline")).
End offline.
