(* ===== verification/ValidationFacts.v ===== *)
(** * What a validation report says

    The reports of [Validation.v]: every one passes its own parser, an offline
    validation succeeds exactly on an established home, and a home that passed
    opens without a write. *)
From stdpp Require Import sorting.
From S2P Require Import Prelude External Wire AuthDb Capacity Identity Merkle Secrets Tls Callout Files IdentityStore Database DatabaseFacts Inspection Deployment Validation.

(** ** A calculus of checks

    A step of a validation returns a value and passes or not, whatever the
    report was, and adds checks named in a fixed list, in its order. *)
Definition ids (r : Report) : list string := ck_id <$> rp_checks r.
Definition runs {A} (m : M Report A) (a : A) (b : bool) (names : list string) : Prop :=
  forall r, exists r' l, m r = (Ok a, r') /\ rp_version r' = rp_version r /\ rp_mode r' = rp_mode r /\
    all_passed (rp_checks r') = all_passed (rp_checks r) && b /\
    ids r' = ids r ++ l /\ l `sublist_of` names.

Lemma all_passed_app l k : all_passed (l ++ k) = all_passed l && all_passed k.
Proof. unfold all_passed. by rewrite List.filter_app, forallb_app. Qed.

Lemma runs_ret {A} (a : A) : runs (ret a) a true [].
Proof. intros r. exists r, []. by rewrite andb_true_r, app_nil_r. Qed.
Lemma runs_bind {A B} (m : M Report A) (k : A -> M Report B) a b names a' b' names' :
  runs m a b names -> runs (k a) a' b' names' -> runs (bind m k) a' (b && b') (names ++ names').
Proof.
  intros Hm Hk r. destruct (Hm r) as (r1 & l1 & E1 & V1 & M1 & P1 & I1 & S1).
  destruct (Hk r1) as (r2 & l2 & E2 & V2 & M2 & P2 & I2 & S2). exists r2, (l1 ++ l2).
  rewrite (bind_run _ _ _ _ _ E1), E2, V2, M2, P2, P1, I2, I1, app_assoc, andb_assoc.
  split_and!; try congruence. by apply sublist_app.
Qed.
Lemma runs_push c : runs (push c) tt (negb (ck_required c) || passed c) [ck_id c].
Proof.
  intros r. eexists _, [ck_id c]. unfold push, modify. split_and!; [done..| | |done].
  - cbn [rp_checks]. rewrite all_passed_app. f_equal. unfold all_passed. cbn [List.filter].
    destruct (ck_required c); cbn; [apply andb_true_r|done].
  - unfold ids. cbn [rp_checks]. by rewrite fmap_app.
Qed.
Lemma runs_sub {A} (m : M Report A) a b names names' :
  runs m a b names -> names `sublist_of` names' -> runs m a b names'.
Proof.
  intros Hm Hs r. destruct (Hm r) as (r' & l & ? & ? & ? & ? & ? & ?). exists r', l.
  split_and!; try done. by etrans.
Qed.
Lemma runs_eq {A} (m : M Report A) a b a' b' names :
  runs m a b names -> a = a' -> b = b' -> runs m a' b' names.
Proof. by intros ? <- <-. Qed.

(** A step that only computes comes after one that reports. *)
Lemma runs_last {A B} (m : M Report A) (k : A -> M Report B) a b names a' :
  runs m a b names -> runs (k a) a' true [] -> runs (bind m k) a' b names.
Proof.
  intros Hm Hk. pose proof (runs_bind _ _ _ _ _ _ _ _ Hm Hk) as Hb.
  by rewrite andb_true_r, app_nil_r in Hb.
Qed.
Lemma runs_check_op {T} id expected fallback remediation (op : result T) :
  runs (check_op id expected fallback remediation op) (ok op) (is_ok op) [id].
Proof.
  assert (forall c (a : option T) b, ck_id c = id -> negb (ck_required c) || passed c = b ->
    runs (push c ;;; ret a) a b [id]) as Hpush.
  { intros c a b <- <-. eapply runs_eq; [|reflexivity|apply andb_true_r].
    eapply runs_sub; [eapply runs_bind; [apply runs_push|apply runs_ret]|reflexivity]. }
  unfold check_op. destruct op as [a|e]; [|destruct (diagnostic _ _ _)]; by apply Hpush.
Qed.
Lemma runs_skip id required reason : runs (skip id required reason) tt (negb required) [id].
Proof.
  intros r. destruct (runs_push {| ck_id := id; ck_status := NotChecked; ck_required := required;
    ck_expected := Text "check completed"; ck_observed := Text reason;
    ck_remediation := if required
      then Some "Resolve the failed prerequisite and rerun validation." else None |} r)
    as (r' & l & E & V & Hm & P & I & Hs).
  exists r', l. unfold skip. cbn in P. rewrite orb_false_r in P. done.
Qed.
Lemma runs_amend v : runs (amend v) tt true [].
Proof.
  intros r. unfold amend, modify. eexists _, []. split_and!; [done..| | |done].
  - cbn [rp_checks]. rewrite andb_true_r. destruct (reverse (rp_checks r)) as [|c l] eqn:Hr.
    + apply (f_equal reverse) in Hr. rewrite reverse_involutive in Hr. by rewrite Hr.
    + apply (f_equal reverse) in Hr. rewrite reverse_involutive in Hr. rewrite Hr, !reverse_cons.
      rewrite !all_passed_app. f_equal. unfold all_passed. cbn [List.filter ck_required].
      by destruct (ck_required c).
  - unfold ids. cbn [rp_checks]. rewrite app_nil_r.
    destruct (reverse (rp_checks r)) as [|c l] eqn:Hr.
    + apply (f_equal reverse) in Hr. rewrite reverse_involutive in Hr. by rewrite Hr.
    + apply (f_equal reverse) in Hr. rewrite reverse_involutive in Hr. rewrite Hr, !reverse_cons.
      by rewrite !fmap_app.
Qed.
(** A validation ends by setting its outcome. *)
Definition concludes (m : M Report unit) (b : bool) (names : list string) : Prop :=
  forall r, exists r' l, m r = (Ok tt, r') /\ rp_version r' = rp_version r /\ rp_mode r' = rp_mode r /\
    rp_success r' = all_passed (rp_checks r) && b /\ rp_success r' = all_passed (rp_checks r') /\
    ids r' = ids r ++ l /\ l `sublist_of` names.
Lemma concludes_outcome : concludes outcome true [].
Proof. intros r. eexists _, []. unfold outcome, modify. by rewrite andb_true_r, app_nil_r. Qed.
Lemma concludes_bind {A} (m : M Report A) (k : A -> M Report unit) a b names b' names' :
  runs m a b names -> concludes (k a) b' names' -> concludes (bind m k) (b && b') (names ++ names').
Proof.
  intros Hm Hk r. destruct (Hm r) as (r1 & l1 & E1 & V1 & M1 & P1 & I1 & S1).
  destruct (Hk r1) as (r2 & l2 & E2 & V2 & M2 & P2 & Q2 & I2 & S2). exists r2, (l1 ++ l2).
  rewrite (bind_run _ _ _ _ _ E1), E2, V2, M2, <- Q2, P2, P1, I2, I1, app_assoc, andb_assoc.
  split_and!; try congruence. by apply sublist_app.
Qed.

Lemma runs_fold {A B} (f : B -> A -> M Report B) (g : B -> A -> B) (bit : A -> bool)
    (names : A -> list string) :
  (forall x a, runs (f x a) (g x a) (bit a) (names a)) ->
  forall l x, runs (fold_m f x l) (foldl g x l) (forallb bit l) (concat (names <$> l)).
Proof.
  intros Hf l. induction l as [|a l IH]; intros x; [apply runs_ret|].
  cbn [fold_m foldl forallb fmap list_fmap concat]. by eapply runs_bind.
Qed.

(** ** Offline validation, check by check *)

(** A list is free of repetitions when its set is as large as it. *)
Lemma size_list_to_set_nodup (l : list string) n :
  length l = n -> (size (list_to_set (C := gset string) l) =? n)%nat = true <-> NoDup l.
Proof.
  intros <-. rewrite Nat.eqb_eq. split.
  - intros Hs. assert (forall k : list string, (size (list_to_set (C := gset string) k) <= length k)%nat) as Hle.
    { intros k. induction k as [|x k IH]; [by rewrite list_to_set_nil, size_empty|].
      rewrite list_to_set_cons, size_union_alt. cbn [length].
      assert (size (list_to_set (C := gset string) k ∖ {[x]}) <= size (list_to_set (C := gset string) k))%nat
        by (apply subseteq_size; set_solver).
      rewrite size_singleton. lia. }
    induction l as [|x l IH]; [constructor|]. pose proof (Hle l) as Hl.
    destruct (decide (x ∈ l)) as [Hx|Hx].
    + replace (list_to_set (C := gset string) (x :: l)) with (list_to_set (C := gset string) l) in Hs
        by (apply set_eq; set_solver).
      cbn [length] in Hs. lia.
    + constructor; [done|]. apply IH. rewrite list_to_set_cons, size_union, size_singleton in Hs by set_solver.
      cbn [length] in Hs. lia.
  - intros Hn. by apply size_list_to_set.
Qed.

Section offline.
Context `{NKeys} `{Seeds} `{Sha256} `{ConfigJson} `{CapacityFile} `{ServerAddrs} `{TrustStore}
  `{MlsPackages} `{Postcard Envelope} `{Postcard RegistrationPayload} `{Postcard DeviceRegistration}
  `{Json SecretRef} `{Pages AuthDb} `{Catalog AuthDb}.
Context {X : Type} `{ManifestJson X}.
Context {C : Type} `{Catalog C} {S : Type} `{Backend S}.
Context (canonical : string -> result string) (parent : string -> string).
Implicit Types (w : Site C S).

Definition state_paths (root role : string) : list string :=
  join root <$> ["credentials.json"; role +:+ ".database.json"; role +:+ ".sqlite"].
Definition sidecar_paths (root role : string) : list string :=
  (fun e => join root (role +:+ ".sqlite-" +:+ e)) <$> ["wal"; "shm"; "journal"].
Definition private_file w (path : string) : bool :=
  is_ok (private_path (s_uid w) path false (s_files w)).
(** The files of a database a check fails for, and those it may not read. *)
Definition files_private w (root role : string) : bool :=
  forallb (private_file w) (state_paths root role) &&
  forallb (fun path => missing path (s_files w) || private_file w path) (sidecar_paths root role).
Definition files_readable w (root role : string) : bool :=
  forallb (fun path => private_file w path || missing path (s_files w)) (state_paths root role) &&
  forallb (fun path => missing path (s_files w) || private_file w path) (sidecar_paths root role).
Definition file_names (prefix : string) : list string :=
  (fun s => "local.permissions." +:+ prefix +:+ "." +:+ s)
    <$> ["credentials"; "metadata"; "database"; "wal"; "shm"; "journal"].

Lemma is_some_ok {A} (r : result A) : is_some (ok r) = is_ok r.
Proof. by destruct r. Qed.

Lemma runs_sidecar w root role prefix x e :
  let path := join root (role +:+ ".sqlite-" +:+ e) in
  runs (if missing path (s_files w) then ret x
        else let* r := check_op ("local.permissions." +:+ prefix +:+ "." +:+ e)
                    "owner-only SQLite sidecar" "sidecar_permissions_invalid" sidecar_advice
                    (private_path (s_uid w) path false (s_files w)) in
             ret (x && is_some r))
    (x && (missing path (s_files w) || private_file w path))
    (missing path (s_files w) || private_file w path)
    ["local.permissions." +:+ prefix +:+ "." +:+ e].
Proof.
  intros path. destruct (missing path _); cbn [orb].
  - eapply runs_sub; [|apply sublist_nil_l]. eapply runs_eq; [apply runs_ret|by rewrite andb_true_r|done].
  - eapply runs_last; [apply runs_check_op|]. rewrite is_some_ok. apply runs_ret.
Qed.
Lemma runs_files w root role prefix :
  runs (check_files w root role prefix) (files_readable w root role) (files_private w root role)
    (file_names prefix).
Proof.
  unfold check_files, files_private, files_readable. eapply runs_sub.
  { eapply runs_eq.
    - eapply runs_bind.
      + eapply runs_eq; [apply (runs_fold _ (fun valid '(_, name) =>
            valid && (private_file w (join root name) || missing (join root name) (s_files w)))
          (fun '(_, name) => private_file w (join root name))
          (fun '(suffix, _) => ["local.permissions." +:+ prefix +:+ "." +:+ suffix])) | reflexivity..].
        intros x [suffix name]. eapply runs_last; [apply runs_check_op|]. rewrite is_some_ok. apply runs_ret.
      + apply (runs_fold _ (fun valid e => let path := join root (role +:+ ".sqlite-" +:+ e) in
            valid && (missing path (s_files w) || private_file w path))
          (fun e => let path := join root (role +:+ ".sqlite-" +:+ e) in
            missing path (s_files w) || private_file w path)
          (fun e => ["local.permissions." +:+ prefix +:+ "." +:+ e])).
        intros x e. apply runs_sidecar.
    - cbn -[missing private_file join]. by rewrite !andb_true_r, !andb_assoc.
    - done. }
  done.
Qed.

(** ** What the other checks decide *)

Definition home_ok w home : bool := is_ok (private_path (s_uid w) home true (s_files w)).

Lemma runs_if {A} (c : bool) (m m' : M Report A) a a' b b' names :
  runs m a b names -> runs m' a' b' names ->
  runs (if c then m else m') (if c then a else a') (if c then b else b') names.
Proof. by destruct c. Qed.

Lemma runs_config w home auth_config (h : bool) :
  runs (config_check canonical parent w home auth_config h)
    (if h then ok (read_config canonical parent w home auth_config) else None)
    (h && is_ok (read_config canonical parent w home auth_config)) ["local.auth_config"].
Proof.
  unfold config_check. destruct h; [apply runs_check_op|].
  eapply runs_last; [apply runs_skip|apply runs_ret].
Qed.

Definition read_manifest w home : result DeploymentManifest :=
  private_path (s_uid w) (join home MANIFEST_FILE) false (s_files w) ;;?
  load_manifest home (s_files w).
Lemma runs_manifest w home (h : bool) :
  runs (manifest_check w home h) tt (h && is_ok (read_manifest w home)) ["local.deployment_manifest"].
Proof.
  unfold manifest_check. destruct h; [|apply runs_skip].
  eapply runs_last; [apply runs_check_op|].
  destruct (ok _); [apply runs_amend|apply runs_ret].
Qed.

Definition inspect_capacity w home : result unit :=
  private_path (s_uid w) (join home CAPACITY_FILE) false (s_files w) ;;?
  let? capacity := read_capacity home (s_files w) in
  fst (inspect_registry capacity (s_auth_pragmas w) (s_auth w)).
Lemma runs_unit {T} id expected fallback remediation (op : result T) :
  runs (let* _ := check_op id expected fallback remediation op in ret tt) tt (is_ok op) [id].
Proof.
  eapply runs_last; [apply runs_check_op|apply runs_ret].
Qed.
Lemma runs_control w home (h : bool) :
  runs (control_check w home h) (h && home_ok w (join home "control"))
    (h && home_ok w (join home "control")) ["local.control_home"].
Proof.
  unfold control_check. destruct h; cbn [andb].
  - eapply runs_last; [apply runs_check_op|]. rewrite is_some_ok. apply runs_ret.
  - eapply runs_last; [apply runs_skip|apply runs_ret].
Qed.

Definition credential w config (afiles cfiles : bool) (x : string * bool * string * Kind)
  : option SecretRef :=
  let '(id, control, role, kind) := x in
  if (if control : bool then cfiles else afiles) then ok (read_credential w config id control role kind)
  else None.
Lemma runs_credentials w config afiles cfiles :
  runs (credentials_check w config afiles cfiles)
    (omap (credential w config afiles cfiles) credential_roles)
    (forallb (fun x => is_some (credential w config afiles cfiles x)) credential_roles)
    ((fun '(id, _, _, _) => "local.credentials." +:+ id) <$> credential_roles).
Proof.
  unfold credentials_check. eapply runs_eq.
  - eapply runs_sub.
    + apply (runs_fold _ (fun refs x => refs ++ match credential w config afiles cfiles x with
                                               | Some reference => [reference] | None => [] end)
        (fun x => is_some (credential w config afiles cfiles x))
        (fun '(id, _, _, _) => ["local.credentials." +:+ id])).
      intros refs [[[id control] role] kind]. unfold credential.
      destruct (if control then cfiles else afiles).
      * rewrite is_some_ok. eapply runs_last; [apply runs_check_op|apply runs_ret].
      * eapply runs_last; [apply runs_skip|]. rewrite app_nil_r. apply runs_ret.
    + done.
  - cbn [foldl credential_roles omap list_omap].
    repeat destruct (credential _ _ _ _ _); done.
  - done.
Qed.

Definition independent (references : list SecretRef) : bool :=
  (length references =? 6)%nat &&
  ((size (list_to_set (C := gset string) (sr_id <$> references)) =? 6)%nat
   && (size (list_to_set (C := gset string) (sr_public_key <$> references)) =? 6)%nat).
Lemma runs_independent references :
  runs (independent_check references) tt (independent references) ["local.credentials.independent"].
Proof.
  unfold independent_check, independent. destruct (_ =? _)%nat; [|apply runs_skip].
  eapply runs_eq; [apply runs_unit|done|]. by destruct (_ && _).
Qed.

Definition databases_ok w config (afiles cfiles : bool) : bool :=
  (afiles && is_ok (fst (inspect_auth (s_auth_pragmas w) (s_auth w)))) &&
  match config with
  | Some c => cfiles && is_ok (fst (inspect_control (control_nkey c) (s_control_pragmas w) (s_control w)))
  | None => false
  end.
Lemma runs_databases w config afiles cfiles :
  runs (database_checks w config afiles cfiles) tt (databases_ok w config afiles cfiles)
    ["local.database.auth"; "local.database.control"].
Proof.
  apply (runs_bind _ _ tt _ ["local.database.auth"] _ _ ["local.database.control"]).
  - destruct afiles; [apply runs_unit|apply runs_skip].
  - destruct config as [c|]; [|apply runs_skip]. destruct cfiles; [apply runs_unit|apply runs_skip].
Qed.

Definition endpoint_ok w config (endpoint : option string) : bool :=
  match endpoint, transport_inputs w config, config with
  | None, _, _ => true
  | Some e, Ok tls, Some c =>
      is_ok (let? _ := validate_endpoint tls e in check_transport c (from_lookup (s_env w)) e)
  | _, _, _ => false
  end.
Lemma runs_transport w config endpoint :
  runs (transport_checks w config endpoint) tt
    (is_ok (transport_inputs w config) && endpoint_ok w config endpoint)
    ["local.transport.inputs"; "local.transport.endpoint"].
Proof.
  apply (runs_bind _ _ (ok (transport_inputs w config)) _ ["local.transport.inputs"]
           _ _ ["local.transport.endpoint"]); [apply runs_check_op|]. unfold endpoint_ok.
  destruct endpoint as [e|]; [|apply runs_skip].
  destruct (transport_inputs w config) as [tls|]; [|apply runs_skip].
  destruct config as [c|]; [apply runs_unit|apply runs_skip].
Qed.

(** ** The whole report *)

Definition auth_readable w home : bool := home_ok w home && files_readable w home "auth".
Definition control_readable w home : bool :=
  home_ok w home && home_ok w (join home "control") &&
  files_readable w (join home "control") "identity".
Definition site_config w home auth_config : option Config :=
  if home_ok w home then ok (read_config canonical parent w home auth_config) else None.

(** The names of every check, in order. *)
Definition offline_names : list string :=
  ["local.home"; "local.auth_config"; "local.deployment_manifest"; "local.capacity"]
  ++ file_names "auth" ++ ["local.control_home"] ++ file_names "control"
  ++ ((fun '(id, _, _, _) => "local.credentials." +:+ id) <$> credential_roles)
  ++ ["local.credentials.independent"; "local.database.auth"; "local.database.control";
      "local.transport.inputs"; "local.transport.endpoint"; "coverage.network"; "coverage.operator"].

Definition offline_passes w home auth_config endpoint : bool :=
  let config := site_config w home auth_config in
  let afiles := auth_readable w home in
  let cfiles := control_readable w home in
  home_ok w home && is_ok (read_config canonical parent w home auth_config) &&
  is_ok (read_manifest w home) && is_ok (inspect_capacity w home) &&
  files_private w home "auth" && home_ok w (join home "control") &&
  files_private w (join home "control") "identity" &&
  forallb (fun x => is_some (credential w config afiles cfiles x)) credential_roles &&
  independent (omap (credential w config afiles cfiles) credential_roles) &&
  databases_ok w config afiles cfiles &&
  (is_ok (transport_inputs w config) && endpoint_ok w config endpoint).

Lemma offline_names_nodup : NoDup offline_names.
Proof. apply (bool_decide_unpack _). by vm_compute. Qed.

Lemma runs_home w home : runs (home_check w home) (home_ok w home) (home_ok w home) ["local.home"].
Proof.
  eapply runs_last; [apply runs_check_op|]. rewrite is_some_ok. apply runs_ret.
Qed.
Lemma offline_concludes w home auth_config endpoint :
  exists names, concludes (offline_checks canonical parent w home auth_config endpoint)
    (offline_passes w home auth_config endpoint) names /\ names = offline_names.
Proof.
  eexists. split.
  - unfold offline_checks, remaining_checks.
    assert (forall m b b' names, concludes m b names -> b = b' -> concludes m b' names) as Heq
      by (by intros ???? ? <-).
    eapply Heq.
    + eapply concludes_bind; [apply runs_home|].
      eapply concludes_bind; [apply runs_config|]. fold (site_config w home auth_config).
      eapply concludes_bind; [apply runs_manifest|].
      eapply concludes_bind; [apply runs_unit|].
      eapply concludes_bind.
      { apply (runs_if _ _ _ (files_readable w home "auth") false
          (files_private w home "auth") true); [apply runs_files|].
        eapply runs_sub; [apply runs_ret|apply sublist_nil_l]. }
      eapply concludes_bind; [apply runs_control|].
      eapply concludes_bind.
      { apply (runs_if _ _ _ (files_readable w (join home "control") "identity") false
          (files_private w (join home "control") "identity") true); [apply runs_files|].
        eapply runs_sub; [apply runs_ret|apply sublist_nil_l]. }
      eapply concludes_bind; [apply runs_credentials|].
      eapply concludes_bind; [apply runs_independent|].
      eapply concludes_bind; [apply runs_databases|].
      eapply concludes_bind; [apply runs_transport|].
      eapply concludes_bind; [apply runs_skip|].
      eapply concludes_bind; [apply runs_skip|].
      apply concludes_outcome.
    + unfold offline_passes, auth_readable, control_readable. fold (home_ok w home).
      fold (inspect_capacity w home).
      destruct (home_ok w home); [|done].
      destruct (home_ok w (join home "control")); cbn [andb negb];
        rewrite ?andb_false_r, ?andb_true_r, ?andb_assoc; done.
  - done.
Qed.

(** An offline report has one outcome: whether every required check passed. *)
Lemma offline_report w home auth_config endpoint :
  let r := offline canonical parent w home auth_config endpoint in
  rp_version r = 1 /\ rp_mode r = "offline" /\
  rp_success r = offline_passes w home auth_config endpoint /\
  rp_success r = all_passed (rp_checks r) /\ ids r `sublist_of` offline_names.
Proof.
  destruct (offline_concludes w home auth_config endpoint) as (names & Hc & ->).
  destruct (Hc (new_report "offline")) as (r' & l & E & V & Md & P & Q & I & Hs).
  unfold offline. rewrite E. cbn [snd]. rewrite V, Md. split_and!; try done. by rewrite I.
Qed.

(** An established home: private files, a configuration and a manifest that load
    together, usage within the policy, six credentials of its own that the
    configuration names, two databases that pass inspection, and a transport
    policy that takes the endpoint. *)
Definition established_home w home auth_config (endpoint : option string) : Prop :=
  private_path (s_uid w) home true (s_files w) = Ok tt /\
  private_path (s_uid w) (join home "control") true (s_files w) = Ok tt /\
  files_private w home "auth" = true /\ files_private w (join home "control") "identity" = true /\
  inspect_capacity w home = Ok tt /\
  exists config manifest tls references,
    read_config canonical parent w home auth_config = Ok config /\
    read_manifest w home = Ok manifest /\
    Forall2 (fun '(id, control, role, kind) reference =>
        read_credential w (Some config) id control role kind = Ok reference)
      credential_roles references /\
    NoDup (sr_id <$> references) /\ NoDup (sr_public_key <$> references) /\
    fst (inspect_auth (s_auth_pragmas w) (s_auth w)) = Ok tt /\
    fst (inspect_control (control_nkey config) (s_control_pragmas w) (s_control w)) = Ok tt /\
    transport_inputs w (Some config) = Ok tls /\
    forall e, endpoint = Some e ->
      (exists b, validate_endpoint tls e = Ok b) /\
      check_transport config (from_lookup (s_env w)) e = Ok tt.

Lemma is_ok_unit (r : result unit) : is_ok r = true <-> r = Ok tt.
Proof. destruct r as [[]|]; by split. Qed.
Lemma is_ok_ex {A} (r : result A) : is_ok r = true <-> exists a, r = Ok a.
Proof. destruct r; split; try done; [by eexists|by intros [? ?]]. Qed.
Lemma private_readable w root role : files_private w root role = true -> files_readable w root role = true.
Proof.
  unfold files_private, files_readable. rewrite !andb_true_iff. intros [Hs Hx]. split; [|done].
  rewrite !List.forallb_forall in *. intros p Hp. by rewrite Hs.
Qed.

Lemma omap_all {A B} (f : A -> option B) l k :
  Forall2 (fun x y => f x = Some y) l k <->
  forallb (fun x => is_some (f x)) l = true /\ omap f l = k.
Proof.
  revert k. induction l as [|x l IH]; intros k; cbn [omap list_omap forallb].
  - split; [by intros ->%Forall2_nil_inv_l|intros [_ <-]; constructor].
  - destruct (f x) as [y|] eqn:Hf; cbn [is_some andb].
    + split.
      * intros (y' & k' & E & Hk & ->)%Forall2_cons_inv_l. rewrite Hf in E. injection E as <-.
        apply IH in Hk as [-> <-]. done.
      * intros [Hb <-]. constructor; [done|]. by apply IH.
    + split; [|by intros [? _]]. intros (y' & k' & E & _)%Forall2_cons_inv_l. congruence.
Qed.

Lemma credentials_read w config references :
  Forall2 (fun '(id, control, role, kind) reference =>
      read_credential w config id control role kind = Ok reference) credential_roles references <->
  forallb (fun x => is_some (credential w config true true x)) credential_roles = true /\
  omap (credential w config true true) credential_roles = references.
Proof.
  rewrite <- omap_all. unfold credential.
  split; (intros Hf; eapply Forall2_impl; [|exact Hf]); intros [[[id []] role] kind] y;
    by destruct (read_credential _ _ _ _ _ _); intros [= ->].
Qed.

(** Six credentials are independent exactly when no item and no public key occurs
    twice. *)
Lemma independent_nodup references :
  independent references = true <->
  length references = 6%nat /\ NoDup (sr_id <$> references) /\ NoDup (sr_public_key <$> references).
Proof.
  unfold independent. rewrite andb_true_iff, Nat.eqb_eq. split.
  - intros [Hl Hs]. rewrite andb_true_iff, !size_list_to_set_nodup in Hs by by rewrite length_fmap. done.
  - intros (Hl & Hs). split; [done|].
    by rewrite andb_true_iff, !size_list_to_set_nodup by by rewrite length_fmap.
Qed.

(** An offline validation succeeds exactly on an established home: no check it
    requires is skipped, and nothing else is asked for. *)
Theorem offline_exact w home auth_config endpoint :
  rp_success (offline canonical parent w home auth_config endpoint) = true <->
  established_home w home auth_config endpoint.
Proof.
  destruct (offline_report w home auth_config endpoint) as (_ & _ & -> & _ & _).
  unfold offline_passes, established_home, site_config, auth_readable, control_readable.
  cbv zeta. rewrite !andb_true_iff. unfold home_ok. rewrite !is_ok_unit, !is_ok_ex.
  split.
  - intros ((((((((((Hh & [config Hc]) & [m Hm]) & Hi) & Ha) & Hk) & Hf) & Hx) & Hind) & Hd) & (tls & Ht) & He).
    rewrite Hh, Hk in *. rewrite Hc in *. cbn [is_ok ok andb] in *. rewrite (private_readable _ _ _ Ha) in *.
    rewrite (private_readable _ _ _ Hf) in *. split_and!; try done.
    apply independent_nodup in Hind as (_ & Hids & Hkeys).
    unfold databases_ok in Hd. cbn [andb] in Hd. rewrite andb_true_iff, !is_ok_unit in Hd.
    destruct Hd as [Hda Hdc]. eexists config, m, tls, _. split_and!; try done.
    { by apply credentials_read. }
    intros e ->. unfold endpoint_ok in He. rewrite Ht in He. apply is_ok_unit in He.
    apply rbind_Ok in He as (b & Hb & He). by eauto.
  - intros (Hh & Hk & Ha & Hf & Hi & config & m & tls & refs & Hc & Hm & Hrefs & Hids & Hkeys & Hda & Hdc & Ht & He).
    rewrite Hh, Hk, Hc. cbn [is_ok ok andb]. rewrite (private_readable _ _ _ Ha), (private_readable _ _ _ Hf).
    assert (length refs = 6%nat) as Hl by (by apply Forall2_length in Hrefs). apply credentials_read in Hrefs as [Hx Homap].
    split_and!; try done; eauto.
    + rewrite Homap. apply independent_nodup. by split_and!.
    + unfold databases_ok. by rewrite Hda, Hdc.
    + unfold endpoint_ok. rewrite Ht. destruct endpoint as [e|]; [|done].
      destruct (He e eq_refl) as [[b Hb] Hct]. by rewrite Hb, Hct.
Qed.

(** ** What a report may show *)

(** Codes that stand for an error, and the phrases for what was not done. *)
Definition error_codes : list string :=
  "state_missing" :: ((fun d => fst (snd d)) <$> secret_diagnostics)
  ++ (inspection_code <$> [MissingDatabase; MetadataMissing; MetadataInvalid; Incomplete;
       CredentialBinding; Plaintext; Unreadable; BindingMismatch; Schema; Integrity; Busy; ControlBinding])
  ++ (local_code <$> [UnsafeFileType; WrongFileOwner; PermissionsTooOpen; PermissionsInsufficient;
       AuthConfigLocation; OperatorSetupIncomplete; CredentialBindingMismatch;
       ControlIdentityMismatch; CredentialReuse; DevelopmentTransportInProduction]).
Definition fallbacks : list string := [
  "home_invalid"; "auth_config_invalid"; "deployment_manifest_invalid"; "capacity_invalid_or_exhausted";
  "file_permissions_invalid"; "sidecar_permissions_invalid"; "control_home_invalid";
  "credential_invalid"; "credential_reuse"; "database_inspection_failed"; "tls_inputs_invalid";
  "endpoint_invalid"].
Definition reasons : list string := [
  "backend home unavailable"; "credential files unavailable or unsafe";
  "one or more credentials unavailable"; "auth database files unavailable or unsafe";
  "control files or valid auth configuration unavailable";
  "TLS inputs or auth configuration unavailable";
  "no endpoint supplied; transport reachability and server identity are not evaluated";
  "offline mode: NATS authentication, JetStream resources, replicas and deployment readiness were not evaluated";
  "route TLS, account isolation, signer delegation, resolver lifecycle and capacity require operator/online checks"].
Definition vocabulary : list string := "valid" :: error_codes ++ fallbacks ++ reasons.
Definition shown (v : Value) : Prop :=
  (exists s, v = Text s /\ s ∈ vocabulary) \/
  (exists n, v = Object [("version", Number 2); ("replicas", Number n)] /\ (n = 1 \/ n = 3)).

(** Checks stay in the vocabulary and are never removed. *)
Definition discreet (r r' : Report) : Prop :=
  (Forall (fun c => shown (ck_observed c)) (rp_checks r) ->
   Forall (fun c => shown (ck_observed c)) (rp_checks r')) /\
  (rp_checks r <> [] -> rp_checks r' <> []).
#[local] Instance discreet_preorder : PreOrder discreet.
Proof. split; [by split|]. intros a b c [] []. split; auto. Qed.

Lemma diagnostic_code e fallback remediation :
  fst (diagnostic e fallback remediation) ∈ fallback :: error_codes.
Proof.
  assert (forall l (d : string * string), (forall x, x ∈ l -> x ∈ secret_diagnostics) ->
    List.find (fun p => bool_decide (fst p = e)) l = Some (e, d) -> fst d ∈ error_codes) as Hs.
  { intros l d Hl Hf. apply List.find_some in Hf as [Hin _]. apply list_elem_of_In in Hin.
    apply Hl in Hin. apply list_elem_of_further, elem_of_app. left.
    apply list_elem_of_fmap. by exists (e, d). }
  unfold diagnostic. destruct (List.find _ secret_diagnostics) as [[e' d]|] eqn:Hf.
  { apply list_elem_of_further. destruct (bool_decide (e' = e)) eqn:He.
    - apply bool_decide_eq_true in He as ->. by eapply Hs.
    - apply List.find_some in Hf as [_ Hf]. simpl in Hf. by rewrite He in Hf. }
  destruct (inspection_of e) as [i|].
  { apply list_elem_of_further. cbn [fst]. by destruct i; apply (bool_decide_unpack _); vm_compute. }
  destruct e; cbn [fst]; try (destruct (is_not_found _); [right; left|left]).
  apply list_elem_of_further. by destruct f; apply (bool_decide_unpack _); vm_compute.
Qed.

Lemma discreet_push c : shown (ck_observed c) -> keeps discreet (push c).
Proof.
  intros Hc r. split; cbn; [|by intros _ []%app_eq_nil]. intros Hr. apply Forall_app. by split; [|constructor].
Qed.
Lemma shown_text s : s ∈ vocabulary -> shown (Text s).
Proof. intros Hs. left. by exists s. Qed.
Lemma discreet_check {T} id expected fallback remediation (op : result T) :
  fallback ∈ fallbacks -> keeps discreet (check_op id expected fallback remediation op).
Proof.
  intros Hf. unfold check_op. destruct op as [a|e].
  - apply keeps_bind; [apply _|apply discreet_push, shown_text; left|intros; apply keeps_ret; apply _].
  - pose proof (diagnostic_code e fallback remediation) as Hd. destruct (diagnostic _ _ _) as [code advice].
    apply keeps_bind; [apply _|apply discreet_push, shown_text|intros; apply keeps_ret; apply _].
    apply list_elem_of_further, elem_of_app. cbn [fst ck_observed] in *.
    apply elem_of_cons in Hd as [->|?]; [right|by left]. apply elem_of_app. by left.
Qed.
Lemma discreet_skip id required reason : reason ∈ reasons -> keeps discreet (skip id required reason).
Proof.
  intros Hr. apply discreet_push, shown_text, list_elem_of_further, elem_of_app. right. apply elem_of_app. by right.
Qed.
Lemma discreet_amend n :
  n = 1 \/ n = 3 -> keeps discreet (amend (Object [("version", Number 2); ("replicas", Number n)])).
Proof.
  intros Hn r. unfold discreet, amend, modify. cbn [snd rp_checks].
  destruct (reverse (rp_checks r)) as [|c l] eqn:Hr.
  { apply (f_equal reverse) in Hr. rewrite reverse_involutive in Hr. by rewrite Hr. }
  apply (f_equal reverse) in Hr. rewrite reverse_involutive in Hr. rewrite Hr, !reverse_cons. split.
  - rewrite !Forall_app. intros [? _]. split; [done|]. constructor; [|done]. right. by exists n.
  - intros _ []%app_eq_nil. done.
Qed.
Lemma keeps_fold {St A B} (R : St -> St -> Prop) `{!PreOrder R} (f : B -> A -> M St B) l :
  (forall b a, keeps R (f b a)) -> forall b, keeps R (fold_m f b l).
Proof.
  intros Hf. induction l as [|a l IH]; intros b; [by apply keeps_ret|].
  by apply keeps_bind; [apply _|apply Hf|].
Qed.

Ltac named := apply (bool_decide_unpack _); vm_compute; exact I.
Ltac discreet_auto :=
  repeat match goal with
  | |- keeps _ (check_op _ _ _ _ _) => apply discreet_check; named
  | |- keeps _ (skip _ _ _) => apply discreet_skip; named
  | |- keeps _ (fold_m _ _ _) => apply keeps_fold; [apply _|intros]
  | |- keeps _ (match ?x with _ => _ end) => destruct x
  | |- keeps _ (bind _ _) => apply keeps_bind; [apply _| |intros]
  | |- keeps _ (ret _) => apply keeps_ret; apply _
  | |- keeps _ (let _ := _ in _) => cbv zeta
  end.

Lemma check_op_value {T} id expected fallback remediation (op : result T) r x r' :
  check_op id expected fallback remediation op r = (x, r') -> x = Ok (ok op).
Proof.
  intros Hrun. destruct (runs_check_op id expected fallback remediation op r) as (r2 & l & E & _).
  congruence.
Qed.
Lemma discreet_manifest w home h : keeps discreet (manifest_check w home h).
Proof.
  unfold manifest_check. destruct h; [|discreet_auto]. fold (read_manifest w home). intros r.
  apply keeps_bind_at; [|].
  - intros o r1 Hrun. pose proof (discreet_check "local.deployment_manifest"
      "version-1 manifest with explicit replicas 1 or 3" "deployment_manifest_invalid"
      "Run deployment-export with explicit --replicas 1 or 3 for an existing M26 home; preserve established deployment choices."
      (read_manifest w home) ltac:(named) r) as Hd. rewrite Hrun in Hd. etrans; [exact Hd|].
    apply check_op_value in Hrun. injection Hrun as ->.
    destruct (read_manifest w home) as [m|e] eqn:Hm; [|done]. cbn [ok].
    apply discreet_amend. unfold read_manifest in Hm. apply rbind_Ok in Hm as (_ & _ & Hm).
    by destruct (load_manifest_wf _ _ _ Hm) as [[? _] _].
  - intros e r1 Hrun. by apply check_op_value in Hrun.
Qed.

Lemma discreet_outcome : keeps discreet outcome.
Proof. intros r. by split. Qed.
Lemma discreet_remaining w home auth_config endpoint h :
  keeps discreet (remaining_checks canonical parent w home auth_config endpoint h).
Proof.
  unfold remaining_checks.
  unfold config_check, capacity_check, check_files, state_files, sidecar_files, control_check,
    credentials_check, independent_check, database_checks, transport_checks.
  discreet_auto; [apply discreet_manifest|apply discreet_outcome].
Qed.

Lemma offline_discreet w home auth_config endpoint :
  let r := offline canonical parent w home auth_config endpoint in
  Forall (fun c => shown (ck_observed c)) (rp_checks r) /\ rp_checks r <> [].
Proof.
  cbv zeta. unfold offline, offline_checks.
  destruct (runs_home w home (new_report "offline")) as (r1 & l & E & _ & _ & _ & I & _).
  assert (exists c, rp_checks r1 = [c] /\ shown (ck_observed c)) as (c & Hr1 & Hc).
  { unfold home_check in E. apply bind_Ok in E as (o & r2 & E & [_ <-]%ret_Ok).
    assert (keeps discreet (check_op (T := unit) "local.home" "existing owner-only backend directory" "home_invalid"
      "Select the established backend home and run as its owner; use 0700 directory permissions. Initialize a fresh home separately if needed."
      (private_path (s_uid w) home true (s_files w)))) as Hk by (apply discreet_check; named).
    specialize (Hk (new_report "offline")). rewrite E in Hk. destruct Hk as [Hk _].
    specialize (Hk ltac:(constructor)). unfold check_op in E.
    destruct (private_path _ _ _ _); [|destruct (diagnostic _ _ _)]; injection E as _ <-;
      cbn in Hk; eexists; (split; [reflexivity|]); by inversion_clear Hk. }
  rewrite (bind_run _ _ _ _ _ E).
  destruct (discreet_remaining w home auth_config endpoint (home_ok w home) r1) as [Hd Hn].
  rewrite Hr1 in Hd, Hn. split; [apply Hd; by constructor|by apply Hn].
Qed.

(** An offline report shows codes and phrases of a fixed list, and the replicas 1
    or 3 of a valid manifest: nothing a file, a database, a credential or the
    environment holds gets into it. *)
Theorem offline_sanitized w home auth_config endpoint :
  Forall (fun c => shown (ck_observed c) /\ ck_id c ∈ offline_names)
    (rp_checks (offline canonical parent w home auth_config endpoint)).
Proof.
  destruct (offline_discreet w home auth_config endpoint) as [Hd _].
  destruct (offline_report w home auth_config endpoint) as (_ & _ & _ & _ & Hids).
  rewrite List.Forall_forall in Hd. apply List.Forall_forall. intros c Hc. split; [by apply Hd|].
  apply (sublist_subseteq _ _ Hids). apply list_elem_of_fmap. exists c.
  split; [done|]. by apply list_elem_of_In.
Qed.
End offline.

(** ** Reports and their parser *)

(** What the parser demands. *)
Definition valid_report (r : Report) : Prop :=
  rp_version r = 1 /\ rp_mode r ∈ ["offline"; "online"; "startup"] /\
  NoDup (ids r) /\ rp_checks r <> [] /\ rp_success r = all_passed (rp_checks r).
Lemma parse_valid `{ReportJson} r :
  report_from_json (report_to_json r) = Ok r -> valid_report r -> parse (report_to_json r) = Ok r.
Proof.
  intros Hj (Hv & Hm & Hn & Hne & Hs). unfold parse. rewrite Hj. cbn [rbind].
  rewrite Hv, (bool_decide_eq_true_2 _ Hm). cbn [andb Z.eqb Pos.eqb check rbind].
  rewrite (bool_decide_eq_true_2 (size _ = _)) by (by rewrite size_list_to_set, length_fmap).
  rewrite (bool_decide_eq_false_2 _ Hne). cbn [andb negb check rbind].
  rewrite Hs, Bool.eqb_reflx. done.
Qed.

Section report.
Context `{NKeys} `{Seeds} `{Sha256} `{ConfigJson} `{CapacityFile} `{ServerAddrs} `{TrustStore}
  `{MlsPackages} `{Postcard Envelope} `{Postcard RegistrationPayload} `{Postcard DeviceRegistration}
  `{Json SecretRef} `{Pages AuthDb} `{Catalog AuthDb} `{ReportJson}.
Context {X : Type} `{ManifestJson X}.
Context {C : Type} `{Catalog C} {S : Type} `{BackendLaws S}.
Context (canonical : string -> result string) (parent : string -> string).
Implicit Types (w : Site C S).

Lemma offline_valid w home auth_config endpoint :
  valid_report (offline canonical parent w home auth_config endpoint).
Proof.
  destruct (offline_report canonical parent w home auth_config endpoint) as (Hv & Hm & _ & Hs & Hi).
  destruct (offline_discreet canonical parent w home auth_config endpoint) as [_ Hne].
  unfold valid_report. rewrite Hv, Hm. split_and!; try done; [left|].
  eapply sublist_NoDup; [|exact Hi]. apply offline_names_nodup.
Qed.

(** A home that passed opens. On databases that any history of opens left, a
    successful offline validation means both open undisturbed, with the
    credentials there are, and without writing anything. *)
Theorem validated_home_opens w home auth_config endpoint vl fresh generated :
  rp_success (offline canonical parent w home auth_config endpoint) = true ->
  sound "auth" (s_auth w) -> sound "identity" (s_control w) ->
  d_io (s_auth w) = [] -> d_io (s_control w) = [] ->
  open "auth" true vl fresh generated (s_auth w) = (Ok tt, s_auth w) /\
  open "identity" true vl fresh generated (s_control w) = (Ok tt, s_control w).
Proof.
  intros Hs Ha Hc Hia Hic. apply offline_exact in Hs as
    (_ & _ & _ & _ & _ & config & m & tls & refs & _ & _ & _ & _ & _ & Hauth & Hcontrol & _).
  split; apply open_idle; try done; try set_solver.
  - unfold inspect_auth in Hauth. apply run_fst, bind_Ok in Hauth as (c & d & Hrun & _).
    by eapply inspect_established.
  - unfold inspect_control in Hcontrol. apply run_fst, bind_Ok in Hcontrol as (c & d & Hrun & _).
    by eapply inspect_established.
Qed.
End report.
