(* ===== verification/Online.v ===== *)
(** * Online and startup validation

    [crates/epochgrid-core/src/validation/online.rs]: a running deployment is
    compared with its contract through requests that only look things up. What
    the broker answers is explicit: the connections of each endpoint, then one
    exchange per request, with the server's events that arrive meanwhile; and the
    number of waits that finish before the overall deadline. *)
From S2P Require Import Prelude External Wire AuthDb Capacity Identity Merkle Secrets Tls Callout Files IdentityStore Database DatabaseFacts Inspection Deployment Validation ValidationFacts.

(** ** The monitor of permissions *)

(** [async_nats::Event] as the monitor tells events apart. *)
Inductive ServerEvent : Type :=
| AuthorizationViolation
| OtherError (text : string)
| OtherEvent.

(* @src core/validation/online.rs 34-42 configure (event) *)
Definition permission_event (e : ServerEvent) : bool :=
  match e with
  | AuthorizationViolation => true
  | OtherError text => starts_with "Permissions Violation" text
  | OtherEvent => false
  end.
(** The flag is only ever set. *)
(* @src core/validation/online.rs 29-48 configure *)
Definition observe_events (events : list ServerEvent) (denied : bool) : bool :=
  denied || existsb permission_event events.
(* @src core/validation/online.rs 49-55 failure *)
Definition failure (denied : bool) (fallback : string) : string :=
  if denied then "permission_denied" else fallback.

(** ** What the broker reports *)

(** The parts of [stream::Info] that are read. *)
Record PeerInfo : Type := { peer_current : bool; peer_offline : bool; peer_lag : option Z }.
Record ClusterInfo : Type := { cluster_leader : option string; cluster_replicas : list PeerInfo }.
Record StreamInfo (X : Type) : Type := {
  info_config : StreamConfig X;
  info_cluster : option ClusterInfo;
}.
Arguments info_config {X}. Arguments info_cluster {X}.

(* @src core/validation/online.rs 114-126 healthy *)
Definition healthy (cluster : option ClusterInfo) (replicas : Z) : bool :=
  match cluster with
  | None => replicas =? 1
  | Some cluster =>
      match cluster_leader cluster with Some v => negb (bool_decide (v = EmptyString)) | None => false end
      && (zlen (cluster_replicas cluster) =? replicas - 1)
      && forallb (fun p => peer_current p && negb (peer_offline p) && (default 0 (peer_lag p) =? 0))
           (cluster_replicas cluster)
  end.

(** [serde_json] on answers: any JSON value, and the two typed answers. *)
Class ApiJson (X : Type) : Type := {
  api_value : bytes -> option Value;
  api_account : Value -> bool;
  api_info : Value -> option (StreamInfo X);
}.
Definition get (v : Value) (key : string) : option Value :=
  match v with
  | Object fields => snd <$> List.find (fun f => bool_decide (fst f = key)) fields
  | _ => None
  end.
Definition as_u64 (v : Value) : option Z :=
  match v with Number n => if (0 <=? n) && (n <=? u64_max) then Some n else None | _ => None end.

(** One request: the events that arrive while it waits, and how it ends. *)
Inductive Reply : Type :=
| TimedOut
| NoResponders
| RequestTimedOut
| RequestFailed
| Payload (data : bytes).
Record Exchange : Type := { x_events : list ServerEvent; x_reply : Reply }.

(** [ConnectErrorKind]. *)
Inductive ConnectErrorKind : Type :=
| ErrAuthorizationViolation | ErrAuthentication | ErrTimedOut | ErrTls | ErrServerParse | ErrOther.
(** How an attempt to connect ends; [None] when it does not in time. *)
Definition Attempt : Type := (list ServerEvent * option (option ConnectErrorKind))%type.
(* @src core/validation/online.rs 75-84 connect_error *)
Definition connect_error (e : ConnectErrorKind) : string :=
  match e with
  | ErrAuthorizationViolation | ErrAuthentication => "authentication_denied"
  | ErrTimedOut => "timeout"
  | ErrTls => "tls_failed"
  | ErrServerParse => "endpoint_invalid"
  | ErrOther => "endpoint_unavailable"
  end.
Record Server : Type := { srv_version : string; srv_max_payload : Z; srv_connect_urls : list string }.

(** ** A validation in progress

    The report, the monitor's flag, the exchanges to come on the connection at
    hand, and the waits that still finish in time. *)
Record Probe : Type := {
  pb_report : Report;
  pb_denied : bool;
  pb_exchanges : list Exchange;
  pb_waits : nat;
}.
Definition set_report r (p : Probe) : Probe :=
  {| pb_report := r; pb_denied := pb_denied p; pb_exchanges := pb_exchanges p; pb_waits := pb_waits p |}.
Definition on_report {A} (m : M Report A) : M Probe A := fun p =>
  let '(r, report) := m (pb_report p) in (r, set_report report p).
(** [tokio::time::timeout(OVERALL, ..)] drops the work at the wait it is in. *)
Definition Elapsed : error := Anyhow "deadline has elapsed".
Definition wait (events : list ServerEvent) : M Probe unit := fun p =>
  match pb_waits p with
  | O => (Err Elapsed, p)
  | S n => (Ok tt, {| pb_report := pb_report p; pb_denied := observe_events events (pb_denied p);
                      pb_exchanges := pb_exchanges p; pb_waits := n |})
  end.
(** A new connection, with a monitor of its own for a new endpoint. *)
Definition set_connection (fresh : bool) (exchanges : list Exchange) : M Probe unit :=
  modify (fun p => {| pb_report := pb_report p; pb_denied := if fresh then false else pb_denied p;
                      pb_exchanges := exchanges; pb_waits := pb_waits p |}).
Definition next_exchange : M Probe Exchange := fun p =>
  let x := default {| x_events := []; x_reply := TimedOut |} (head (pb_exchanges p)) in
  bind (wait (x_events x)) (fun _ => ret x)
    {| pb_report := pb_report p; pb_denied := pb_denied p; pb_exchanges := tl (pb_exchanges p);
       pb_waits := pb_waits p |}.

Definition online_advice : string := "Check endpoint TLS/authentication, the running backend, inspection permissions and operator-provisioned resources; apply the generated contract and rerun. No resources were changed.".
(** [inr] is an error code. *)
(* @src core/validation/online.rs 58-67 record *)
Definition record_check (id : string) (expected : Value) (result : Value + string) : M Report unit :=
  let '(status, observed) := match result with
                             | inl value => (Passed, value)
                             | inr code => (Failed, Object [("code", Text code)])
                             end in
  push {| ck_id := id; ck_status := status; ck_required := true; ck_expected := expected;
          ck_observed := observed;
          ck_remediation := if bool_decide (status = Failed) then Some online_advice else None |}.

(** ** Requests and resources *)

Section resources.
Context {X : Type} `{EqDecision X} `{StreamDefaults X} `{ApiJson X}.

(* @src core/validation/online.rs 85-113 request *)
Definition request : M Probe (Value + string) :=
  let* denied := gets pb_denied in
  if denied : bool then ret (inr "permission_denied")
  else
    let* x := next_exchange in
    let* denied := gets pb_denied in
    ret match x_reply x with
        | TimedOut | RequestTimedOut => inr (failure denied "timeout")
        | NoResponders => inr (failure denied "service_unavailable")
        | RequestFailed => inr (failure denied "request_failed")
        | Payload data =>
            match api_value data with
            | None => inr "response_invalid"
            | Some value =>
                match get value "error" with
                | Some error =>
                    inr match get error "code" ≫= as_u64 with
                        | Some code =>
                            if (code =? 401) || (code =? 403) then "permission_denied"
                            else if code =? 404 then "resource_missing"
                            else if code =? 503 then "service_unavailable"
                            else "inspection_failed"
                        | None => "inspection_failed"
                        end
                | None => inl value
                end
            end
        end.

(* @src core/validation/online.rs 135-148 resources (account) *)
Definition account_check (prefix : string) : M Probe unit :=
  let* value := request in
  on_report (record_check (prefix +:+ ".jetstream") (Text "authenticated account inspection")
    match value with
    | inl v => if api_account v then inl (Text "authenticated JetStream account inspection succeeded")
               else inr "response_invalid"
    | inr code => inr code
    end).

(* @src core/validation/online.rs 149-161 resources (server) *)
Definition server_check (prefix : string) (server : Server) : M Probe unit :=
  on_report (record_check (prefix +:+ ".server")
    (Object [("version", Text "2.14.5"); ("max_payload", Number 65536)])
    (if bool_decide (srv_version server = "2.14.5") && (srv_max_payload server =? 65536) then
       inl (Object [("version", Text "2.14.5"); ("max_payload", Number (srv_max_payload server));
                    ("discovered_endpoint_count", Number (zlen (srv_connect_urls server)))])
     else inr "server_incompatible")).

(* @src core/validation/online.rs 162-215 resources (one) *)
Definition resource_check (prefix : string) (manifest : DeploymentManifest) (name : string)
  : M Probe unit :=
  let id := prefix +:+ ".resources." +:+ name in
  let* response := request in
  match (match response with
         | inl value => match api_info value with Some info => inl info | None => inr "response_invalid" end
         | inr code => inr code
         end) with
  | inr code =>
      on_report (record_check id (Text "existing contract-compatible stream/KV backing stream") (inr code) ;;;
                 skip (id +:+ ".replicas") true "resource inspection failed")
  | inl info =>
      let* mismatches := lift (compare manifest name (info_config info)) in
      let fields := mm_field <$> mismatches in
      on_report (
        record_check id (Object [("contract_version", Number 2); ("replicas", Number (m_replicas manifest))])
          (match fields with [] => inl (Text "compatible") | _ => inr "resource_incompatible" end) ;;;
        (match fields with
         | [] => ret tt
         | _ => amend (Object [("code", Text "resource_incompatible"); ("fields", Items (Text <$> fields))])
         end) ;;;
        record_check (id +:+ ".replicas")
          (Object [("replicas", Number (m_replicas manifest)); ("current", VBool true);
                   ("offline", VBool false); ("lag", Number 0)])
          (if healthy (info_cluster info) (m_replicas manifest) then inl (Text "healthy")
           else inr "replicas_unhealthy"))
  end.

(* @src core/validation/online.rs 127-217 resources *)
Definition inspect_connection (prefix : string) (server : Server) (manifest : DeploymentManifest)
  : M Probe unit :=
  account_check prefix ;;;
  server_check prefix server ;;;
  for_each (sc_name <$> resources (X := X) manifest) (resource_check prefix manifest).

Definition start_probe (report : Report) (exchanges : list Exchange) (waits : nat) : Probe :=
  {| pb_report := report; pb_denied := false; pb_exchanges := exchanges; pb_waits := waits |}.

(* @src core/validation/online.rs 219-247 inspect_resources *)
Definition inspect_resources (server : Server) (manifest : DeploymentManifest) (denied : bool)
    (exchanges : list Exchange) (waits : nat) : Report :=
  let p := {| pb_report := new_report "startup"; pb_denied := denied; pb_exchanges := exchanges;
              pb_waits := waits |} in
  let '(completed, p') := inspect_connection "startup" server manifest p in
  snd ((when (negb (is_ok completed))
          (record_check "startup.deadline" (Text "complete within 60 seconds") (inr "timeout")) ;;;
        outcome) (pb_report p')).
End resources.

(** ** Explicit endpoints *)

(** What one endpoint answers: the authentication connection and its flush, the
    control connection, and the exchanges on it. *)
Record Endpoint : Type := {
  ep_auth : Attempt;
  ep_flush : list ServerEvent * option bool;
  ep_control : Attempt;
  ep_server : Server;
  ep_exchanges : list Exchange;
}.

Section online.
Context `{NKeys} `{Seeds} `{Sha256} `{ConfigJson} `{CapacityFile} `{ServerAddrs} `{TrustStore}
  `{MlsPackages} `{Postcard Envelope} `{Postcard RegistrationPayload} `{Postcard DeviceRegistration}
  `{Json SecretRef} `{Pages AuthDb} `{Catalog AuthDb}.
Context {X : Type} `{EqDecision X} `{StreamDefaults X} `{ManifestJson X} `{ApiJson X}.
Context {C : Type} `{Catalog C} {S : Type} `{Backend S}.
Context (canonical : string -> result string) (parent : string -> string).
(** The library's options for a key, before the transport policy. *)
Context (nkey_options : ConnectOptions).
Implicit Types (w : Site C S).

(* @src core/auth_callout.rs 178-196 connection_options *)
Definition service_options w (config : Config) (url : string) : result ConnectOptions :=
  check_transport config (from_lookup (s_env w)) url ;;?
  let? seed := read_with (connection config) (keyring (d_vault (s_auth w))) in
  match operator_jwt config with
  | Some _ => let? _ := ok_or (seed_pair seed) External in Ok tt
  | None => Ok tt
  end ;;?
  let? tls := from_lookup (s_env w) in
  Tls.apply tls url nkey_options.
(* @src core/transport.rs 14-22 connection_options *)
Definition device_options w (url : string) : result ConnectOptions :=
  let? tls := from_lookup (s_env w) in
  Tls.apply tls url nkey_options.

(* @src core/validation/online.rs 278-288 online (inputs) *)
Definition online_inputs w (home auth_config : string) : result (Config * DeploymentManifest) :=
  let? config := load_config (read_file auth_config (s_files w)) (s_now w) in
  let? manifest := load_manifest home (s_files w) in
  let? reference := existing "device" User (d_vault (s_control w)) in
  check (bool_decide (sr_public_key reference = control_nkey config)) "control binding changed" ;;?
  let? seed := read_with reference (keyring (d_vault (s_control w))) in
  let? _ := ok_or (seed_pair seed) External in
  Ok (config, manifest).

Definition connected (a : Attempt) : bool :=
  match snd a with Some None => true | _ => false end.
Definition attempt_error (a : Attempt) : string :=
  match snd a with Some (Some e) => connect_error e | _ => "timeout" end.

(* @src core/validation/online.rs 319-341 online (authentication) *)
Definition auth_check (prefix : string) (e : Endpoint) : M Probe unit :=
  wait (fst (ep_auth e)) ;;;
  let* result :=
    if connected (ep_auth e) then
      wait (fst (ep_flush e)) ;;;
      let* denied := gets pb_denied in
      ret match snd (ep_flush e) with
          | None => inr "timeout"
          | Some false => inr (failure denied "authentication_failed")
          | Some true => inl (Text "authenticated service connection flushed")
          end
    else ret (inr (attempt_error (ep_auth e))) in
  on_report (record_check (prefix +:+ ".auth") (Text "authenticated service connection") result).

(* @src core/validation/online.rs 342-367 online (control) *)
Definition control_inspection (prefix : string) (manifest : DeploymentManifest) (e : Endpoint)
  : M Probe unit :=
  wait (fst (ep_control e)) ;;;
  if connected (ep_control e) then
    set_connection false (ep_exchanges e) ;;;
    inspect_connection (X := X) prefix (ep_server e) manifest
  else
    on_report (record_check (prefix +:+ ".control")
      (Text "existing control identity admitted by running backend") (inr (attempt_error (ep_control e)))).

Definition endpoint_prefix (index : nat) : string :=
  "online.endpoints." +:+ pretty.pretty (Z.of_nat index).
(* @src core/validation/online.rs 299-368 online (endpoint) *)
Definition endpoint_check w (config : Config) (manifest : DeploymentManifest)
    (x : nat * (string * Endpoint)) : M Probe unit :=
  let '(index, (url, e)) := x in
  let prefix := endpoint_prefix index in
  set_connection true [] ;;;
  match (check_transport config (from_lookup (s_env w)) url ;;?
         let? auth := service_options w config url in
         let? control := device_options w url in
         Ok (auth, control)) with
  | Err _ =>
      on_report (record_check (prefix +:+ ".transport") (Text "valid shared TLS policy") (inr "transport_invalid"))
  | Ok _ =>
      auth_check prefix e ;;;
      control_inspection prefix manifest e
  end.

(* @src core/validation/online.rs 252-268 online (local) *)
Definition online_local w (home auth_config : string) (endpoints : list (string * Endpoint)) : Report :=
  let r := offline canonical parent w home auth_config None in
  let r := {| rp_version := rp_version r; rp_mode := "online"; rp_success := rp_success r;
              rp_checks := List.filter (fun c => negb (bool_decide (ck_id c = "coverage.network"))
                && negb (bool_decide (ck_id c = "local.transport.endpoint"))) (rp_checks r) |} in
  snd ((record_check "online.endpoints" (Text "1 to 8 explicit endpoints")
          (if (0 <? zlen endpoints) && (zlen endpoints <=? 8)
           then inl (Object [("supplied", Number (zlen endpoints))])
           else inr "endpoints_required_or_too_many") ;;;
        outcome) r).

(* @src core/validation/online.rs 297-381 online (network) *)
Definition online_network w (config : Config) (manifest : DeploymentManifest)
    (endpoints : list (string * Endpoint)) (waits : nat) (r : Report) : Report :=
  let '(completed, p) := for_each (imap (fun i e => (i, e)) endpoints) (endpoint_check w config manifest)
                           (start_probe r [] waits) in
  snd ((when (negb (is_ok completed))
          (record_check "online.deadline" (Text "all endpoints completed within 60 seconds") (inr "timeout")) ;;;
        skip "coverage.discovery" false "Only explicitly supplied endpoints were inspected individually; discovered endpoints, routes, account isolation, signer scope, resolver lifecycle and capacity remain operator checks. Replica health is a point-in-time observation." ;;;
        outcome) (pb_report p)).

(* @src core/validation/online.rs 249-382 online *)
Definition online w (home auth_config : string) (endpoints : list (string * Endpoint)) (waits : nat)
  : Report :=
  let r := online_local w home auth_config endpoints in
  if negb (rp_success r) then
    snd ((skip "coverage.network" true "local prerequisites failed; no connections attempted" ;;;
          outcome) r)
  else
    match online_inputs w home auth_config with
    | Err _ =>
        snd ((record_check "online.credentials" (Text "unchanged existing credentials")
                (inr "local_inputs_changed") ;;;
              outcome) r)
    | Ok (config, manifest) => online_network w config manifest endpoints waits r
    end.
End online.
