(* ===== verification/OnlineFacts.v ===== *)
(** * What online and startup validation establish

    A report that succeeds rests on answers: every resource of the manifest was
    reported by the broker, meets its contract and is healthy, on a connection
    that was admitted; whatever the deadline cuts off shows as a failure. And
    these reports, too, pass their parser. *)
From S2P Require Import Prelude External Wire AuthDb Capacity Identity Merkle Secrets Tls Callout Files IdentityStore Database DatabaseFacts Inspection Deployment Validation ValidationFacts Online.

(** ** A calculus of probes

    A step of a probe ends or is cut off by the deadline. It adds checks named in
    a list, and if every required check passed at its end, then so they had at its
    start, and what it returned is as [P] says. *)
Definition checks (p : Probe) : list Check := rp_checks (pb_report p).
Definition probes {A} (I : list Exchange -> Prop) (m : M Probe A) (P : A -> Prop)
    (names : list string) : Prop :=
  forall p, I (pb_exchanges p) -> exists r p' l, m p = (r, p') /\ I (pb_exchanges p') /\
    (r = Err Elapsed \/ exists a, r = Ok a) /\
    rp_version (pb_report p') = rp_version (pb_report p) /\
    rp_mode (pb_report p') = rp_mode (pb_report p) /\
    (all_passed (checks p') = true ->
     all_passed (checks p) = true /\ forall a, r = Ok a -> P a) /\
    ids (pb_report p') = ids (pb_report p) ++ l /\ l `sublist_of` names.

Section calculus.
Context (I : list Exchange -> Prop).

Lemma probes_ret {A} (a : A) (P : A -> Prop) : P a -> probes I (ret a) P [].
Proof.
  intros HP p Hp. exists (Ok a), p, []. rewrite app_nil_r. split_and!; eauto.
  intros ?. split; [done|]. by intros ? [= <-].
Qed.
Lemma probes_bind {A B} (m : M Probe A) (k : A -> M Probe B) (P : A -> Prop) (Q : B -> Prop) names names' :
  probes I m P names -> (forall a, probes I (k a) (fun b => P a -> Q b) names') ->
  probes I (bind m k) Q (names ++ names').
Proof.
  intros Hm Hk p Hp. destruct (Hm p Hp) as (r1 & p1 & l1 & E1 & Hp1 & R1 & V1 & M1 & P1 & I1 & S1).
  unfold bind. rewrite E1. destruct R1 as [->|[a ->]].
  - exists (Err Elapsed), p1, l1. split_and!; eauto.
    + intros Ha. split; [by apply P1|done].
    + by apply sublist_inserts_r.
  - destruct (Hk a p1 Hp1) as (r2 & p2 & l2 & E2 & Hp2 & R2 & V2 & M2 & P2 & I2 & S2).
    exists r2, p2, (l1 ++ l2). rewrite E2. split_and!; try congruence; try done.
    + intros Ha. destruct (P2 Ha) as [Ha1 HQ]. destruct (P1 Ha1) as [Ha0 HP].
      split; [done|]. intros b Hb. eapply HQ; [done|]. by apply HP.
    + by rewrite I2, I1, app_assoc.
    + by apply sublist_app.
Qed.
Lemma probes_weaken {A} (m : M Probe A) (P Q : A -> Prop) names names' :
  probes I m P names -> (forall a, P a -> Q a) -> names `sublist_of` names' -> probes I m Q names'.
Proof.
  intros Hm HPQ Hs p Hp. destruct (Hm p Hp) as (r & p' & l & ? & ? & ? & ? & ? & HP & ? & ?).
  exists r, p', l. split_and!; try done; [|by etrans].
  intros Ha. destruct (HP Ha) as [? HPa]. split; [done|]. eauto.
Qed.
(** What only computes or only waits adds no check. *)
Lemma probes_gets {A} (f : Probe -> A) : probes I (gets f) (fun _ => True) [].
Proof. intros p Hp. exists (Ok (f p)), p, []. rewrite app_nil_r. split_and!; eauto. Qed.
Lemma probes_wait events : probes I (wait events) (fun _ => True) [].
Proof.
  intros p Hp. unfold wait. destruct (pb_waits p); eexists _, _, []; rewrite app_nil_r; split_and!; eauto.
Qed.
Lemma probes_report {A} (m : M Report A) a b names :
  runs m a b names -> probes I (on_report m) (fun a' => a' = a /\ b = true) names.
Proof.
  intros Hm p Hp. destruct (Hm (pb_report p)) as (r & l & E & V & Md & Hb & Hi & Hs).
  eexists (Ok a), (set_report r p), l. unfold on_report. rewrite E. split_and!; eauto.
  unfold checks. cbn [set_report pb_report]. rewrite Hb, andb_true_iff. intros [? ?].
  split; [done|]. by intros ? [= <-].
Qed.
Lemma probes_for_each {A} (f : A -> M Probe unit) (P : A -> Prop) (names : A -> list string) l :
  (forall a, a ∈ l -> probes I (f a) (fun _ => P a) (names a)) ->
  probes I (for_each l f) (fun _ => Forall P l) (concat (names <$> l)).
Proof.
  induction l as [|a l IH]; intros Hf; [by apply probes_ret|].
  cbn [for_each fmap list_fmap concat]. eapply probes_bind; [apply Hf; by left|].
  intros []. eapply probes_weaken; [apply IH; intros; apply Hf; by right| |done]. by constructor.
Qed.
End calculus.

(** A new connection brings its own exchanges. *)
Lemma probes_connection {A} (I J : list Exchange -> Prop) fresh exchanges (m : M Probe A) P names :
  probes J m P names -> J exchanges -> (forall l, J l -> I l) -> probes I (set_connection fresh exchanges ;;; m) P names.
Proof.
  intros Hm HJ HI p Hp. unfold set_connection, bind, modify.
  match goal with |- context [m ?q] => destruct (Hm q) as (r & p' & l & ? & ? & Hr) end; [done|].
  exists r, p', l. split; [done|]. split; [by apply HI|]. exact Hr.
Qed.

Lemma runs_record id expected result :
  runs (record_check id expected result) tt (match result with inl _ => true | inr _ => false end) [id].
Proof.
  unfold record_check. destruct result; (eapply runs_eq; [apply runs_push|done|done]).
Qed.

Lemma concludes_after (m : M Report unit) b names :
  runs m tt b names -> concludes (m ;;; outcome) b names.
Proof.
  intros Hm. pose proof (concludes_bind m (fun _ => outcome) _ _ _ _ _ Hm concludes_outcome) as Hc.
  by rewrite andb_true_r, app_nil_r in Hc.
Qed.

(** ** Connections *)

Section connection.
Context {X : Type} `{EqDecision X} `{StreamDefaults X} `{ApiJson X}.

(** The broker answered with this value among the exchanges of the connection. *)
Definition answered (exchanges : list Exchange) (v : Value) : Prop :=
  exists x data, x ∈ exchanges /\ x_reply x = Payload data /\ api_value data = Some v /\
    get v "error" = None.

Lemma probes_request exchanges :
  probes (fun l => l ⊆ exchanges) request
    (fun r => match r with inl v => answered exchanges v | inr _ => True end) [].
Proof.
  eapply (probes_bind _ _ _ _ _ [] []); [apply probes_gets|]. intros [].
  { by apply probes_ret. }
  eapply (probes_bind _ _ _ (fun x => forall data, x_reply x = Payload data -> x ∈ exchanges) _ [] []).
  - intros p Hp. unfold next_exchange.
    set (x := default _ _).
    assert (forall data, x_reply x = Payload data -> x ∈ exchanges) as Hx.
    { subst x. destruct (pb_exchanges p); [done|]. intros data _. apply Hp. left. }
    assert (tl (pb_exchanges p) ⊆ exchanges) as Ht.
    { destruct (pb_exchanges p); [done|]. intros y Hy. apply Hp. by right. }
    clearbody x. unfold bind, wait. cbn [pb_waits pb_exchanges pb_report pb_denied].
    destruct (pb_waits p); eexists _, _, []; rewrite app_nil_r; split_and!; eauto.
    all: intros ?; split; [done|]; by intros ? [= <-].
  - intros x. eapply (probes_bind _ _ _ _ _ [] []); [apply probes_gets|]. intros denied.
    apply probes_ret. intros _ Hx.
    destruct (x_reply x) as [| | | |data] eqn:Hr; try done.
    destruct (api_value data) as [v|] eqn:Hv; [|done]. destruct (get v "error") eqn:He; [done|].
    exists x, data. split_and!; try done. by eapply Hx.
Qed.

(** The broker reported this resource, as the manifest wants it and healthy. *)
Definition inspected (exchanges : list Exchange) (m : DeploymentManifest) (name : string) : Prop :=
  exists v info, answered exchanges v /\ api_info v = Some info /\
    compare m name (info_config (X := X) info) = Ok [] /\ healthy (info_cluster info) (m_replicas m) = true.
Definition resource_names (prefix name : string) : list string :=
  [prefix +:+ ".resources." +:+ name; (prefix +:+ ".resources." +:+ name) +:+ ".replicas"].

Lemma probes_resource exchanges prefix m name :
  manifest_wf m -> name ∈ declared_names ->
  probes (fun l => l ⊆ exchanges) (resource_check prefix m name) (fun _ => inspected exchanges m name)
    (resource_names prefix name).
Proof.
  intros Hw Hn. unfold resource_check. eapply (probes_bind _ _ _ _ _ [] (resource_names prefix name)).
  { apply probes_request. }
  assert (forall code, probes (fun l => l ⊆ exchanges)
    (on_report (record_check (prefix +:+ ".resources." +:+ name)
        (Text "existing contract-compatible stream/KV backing stream") (inr code) ;;;
       skip ((prefix +:+ ".resources." +:+ name) +:+ ".replicas") true "resource inspection failed"))
    (fun _ => inspected exchanges m name) (resource_names prefix name)) as Hfail.
  { intros code. eapply probes_weaken; [apply probes_report; eapply runs_bind; [apply runs_record|apply runs_skip]| |done].
    by intros [] [_ ?]. }
  intros [v|code]; [|eapply probes_weaken; [apply Hfail|done|done]].
  destruct (api_info v) as [info|] eqn:Hi; [|eapply probes_weaken; [apply Hfail|done|done]].
  destruct (compare m name (info_config info)) as [mm|e] eqn:Hc.
  2: { unfold compare in Hc. rewrite find_declared, bool_decide_true in Hc by done. done. }
  eapply (probes_bind _ _ _ (fun mm' => mm' = mm) _ [] (resource_names prefix name)).
  { intros p Hp. exists (Ok mm), p, []. rewrite app_nil_r. split_and!; eauto.
    intros ?. split; [done|]. by intros ? [= <-]. }
  intros mm'. eapply probes_weaken; [apply probes_report| |].
  - eapply runs_bind; [apply runs_record|]. eapply runs_bind; [|apply runs_record].
    instantiate (1 := []). instantiate (1 := true). instantiate (1 := tt).
    destruct (mm_field <$> mm'); [apply runs_ret|apply runs_amend].
  - intros [] [_ Hb] -> Ha. apply andb_true_iff in Hb as [Hf Hh]. exists v, info.
    destruct mm; [|done]. destruct (healthy _ _); done.
  - done.
Qed.

Lemma probes_account exchanges prefix :
  probes (fun l => l ⊆ exchanges) (account_check prefix)
    (fun _ => exists v, answered exchanges v /\ api_account v = true) [prefix +:+ ".jetstream"].
Proof.
  eapply (probes_bind _ _ _ _ _ [] [_]); [apply probes_request|].
  intros r. eapply probes_weaken; [apply probes_report, runs_record| |done].
  intros [] [_ Hb] Ha. destruct r as [v|]; [|done]. exists v. by destruct (api_account v).
Qed.
Lemma probes_server I prefix server :
  probes I (server_check prefix server)
    (fun _ => srv_version server = "2.14.5" /\ srv_max_payload server = 65536) [prefix +:+ ".server"].
Proof.
  eapply probes_weaken; [apply probes_report, runs_record| |done].
  intros [] [_ Hb]. destruct (_ && _) eqn:Hs; [|done]. by bool_prop.
Qed.

(** One connection: the account answered, the server is the qualified one, and
    every resource of the manifest was inspected. *)
Definition inspected_connection (server : Server) (exchanges : list Exchange) (m : DeploymentManifest) : Prop :=
  (exists v, answered exchanges v /\ api_account v = true) /\
  srv_version server = "2.14.5" /\ srv_max_payload server = 65536 /\
  forall name, name ∈ declared_names -> inspected exchanges m name.
Definition connection_names (prefix : string) : list string :=
  (prefix +:+ ".jetstream") :: (prefix +:+ ".server") :: concat (resource_names prefix <$> declared_names).

Lemma probes_rest exchanges prefix server m :
  manifest_wf m ->
  probes (fun l => l ⊆ exchanges)
    (server_check prefix server ;;;
     for_each (sc_name <$> resources (X := X) m) (resource_check prefix m))
    (fun _ => srv_version server = "2.14.5" /\ srv_max_payload server = 65536 /\
       forall name, name ∈ declared_names -> inspected exchanges m name)
    ((prefix +:+ ".server") :: concat (resource_names prefix <$> declared_names)).
Proof.
  intros Hw. eapply (probes_bind _ _ _ _ _ [_]); [apply probes_server|]. intros [].
  assert (sc_name <$> resources (X := X) m = declared_names) as ->.
  { rewrite resources_declared, <- list_fmap_compose. rewrite <- (list_fmap_id declared_names) at 2.
    apply list_fmap_ext. intros i name Hi. apply declared_name. by eapply list_elem_of_lookup_2. }
  eapply probes_weaken; [apply (probes_for_each _ _ (inspected exchanges m) (resource_names prefix))| |done].
  - intros name Hn. by apply probes_resource.
  - intros u Hall [? ?]. split_and!; try done. intros name Hn.
    exact (proj1 (List.Forall_forall _ _) Hall name (proj1 (list_elem_of_In _ _) Hn)).
Qed.
Lemma probes_inspection exchanges prefix server m :
  manifest_wf m ->
  probes (fun l => l ⊆ exchanges) (inspect_connection (X := X) prefix server m)
    (fun _ => inspected_connection server exchanges m) (connection_names prefix).
Proof.
  intros Hw. eapply (probes_bind _ _ _ _ _ [_]); [apply probes_account|]. intros [].
  eapply probes_weaken; [by apply probes_rest| |done]. by intros [] (?&?&?) ?.
Qed.

(** The end of a probe: a deadline that cut it off is recorded as a failure. *)
Lemma probe_ends {P : unit -> Prop} I (m : M Probe unit) names p r p' id text final last :
  probes I m P names -> I (pb_exchanges p) -> m p = (r, p') ->
  runs final tt true last ->
  let report := snd ((when (negb (is_ok r)) (record_check id (Text text) (inr "timeout")) ;;;
                      final ;;; outcome) (pb_report p')) in
  rp_version report = rp_version (pb_report p) /\ rp_mode report = rp_mode (pb_report p) /\
  rp_success report = all_passed (rp_checks report) /\
  (rp_success report = true -> all_passed (checks p) = true /\ P tt) /\
  exists l, ids report = ids (pb_report p) ++ l /\ l `sublist_of` names ++ [id] ++ last.
Proof.
  intros Hm Hp Hrun Hfinal report.
  destruct (Hm p Hp) as (r1 & p1 & l1 & E & _ & R & V & Md & HP & Hi & Hs).
  rewrite Hrun in E. injection E as <- <-.
  assert (concludes (when (negb (is_ok r)) (record_check id (Text text) (inr "timeout")) ;;; final ;;; outcome)
            (is_ok r && (true && true)) ([id] ++ last ++ [])) as Hc.
  { eapply concludes_bind; [|eapply concludes_bind; [exact Hfinal|apply concludes_outcome]].
    destruct (is_ok r); cbn [negb when]; [eapply runs_sub; [apply runs_ret|apply sublist_nil_l]|].
    apply (runs_record id (Text text) (inr "timeout")). }
  destruct (Hc (pb_report p')) as (r2 & l2 & E2 & V2 & M2 & P2 & Q2 & I2 & S2).
  subst report. rewrite E2. cbn [snd]. split_and!; try congruence.
  - intros Ha. rewrite P2, !andb_true_r, andb_true_iff in Ha. destruct Ha as [Ha Hok].
    destruct (HP Ha) as [? Hr]. split; [done|]. destruct R as [->|[[] ->]]; [done|by apply Hr].
  - exists (l1 ++ l2). rewrite I2, Hi, app_assoc. split; [done|].
    apply sublist_app; [done|]. by rewrite app_nil_r in S2.
Qed.

(** A startup validation that succeeds rests on answers: on the connection it was
    given, the broker reported every resource of the manifest, each meets its
    contract and is healthy, the server is the qualified one, and no permission
    had been denied before. The deadline cannot hide a check. *)
Theorem startup_success_sound server m denied exchanges waits :
  manifest_wf m ->
  rp_success (inspect_resources (X := X) server m denied exchanges waits) = true ->
  denied = false /\ inspected_connection server exchanges m /\
  forall name, name ∈ declared_names ->
    exists v info, answered exchanges v /\ api_info v = Some info /\
      Contract (X := X) m name (info_config info) /\
      healthy (info_cluster info) (m_replicas m) = true.
Proof.
  intros Hw Hs.
  assert (inspected_connection server exchanges m -> forall name, name ∈ declared_names ->
    exists v info, answered exchanges v /\ api_info v = Some info /\
      Contract (X := X) m name (info_config info) /\ healthy (info_cluster info) (m_replicas m) = true)
    as Hcontract.
  { intros (_ & _ & _ & Hall) name Hn. destruct (Hall name Hn) as (v & info & ? & ? & Hc & ?).
    exists v, info. split_and!; try done. by apply (proj1 (compare_exact m name _ Hw) Hn). }
  unfold inspect_resources in Hs.
  set (p0 := {| pb_report := new_report "startup"; pb_denied := denied; pb_exchanges := exchanges;
                pb_waits := waits |}) in Hs.
  destruct denied.
  - exfalso. unfold inspect_connection in Hs.
    destruct (account_check "startup" p0) as [ra p1] eqn:Ha. cbn in Ha. injection Ha as <- Hp1.
    rewrite (bind_run _ _ p0 tt p1) in Hs by (by rewrite <- Hp1).
    match type of Hs with context [?rest p1] => destruct (rest p1) as [r p'] eqn:Hrun end.
    assert (pb_exchanges p1 ⊆ exchanges) as Hx by (by rewrite <- Hp1).
    destruct (probe_ends (P := fun _ => True) _ _ _ p1 r p' "startup.deadline" "complete within 60 seconds" (ret tt) []
      (probes_weaken _ _ _ _ _ _ (probes_rest exchanges "startup" server m Hw) (fun _ _ => I) (reflexivity _))
      Hx Hrun (runs_ret tt)) as (_ & _ & _ & He & _).
    destruct (He Hs) as [Hall _]. rewrite <- Hp1 in Hall. done.
  - destruct (inspect_connection "startup" server m p0) as [r p'] eqn:Hrun.
    destruct (probe_ends _ _ _ p0 r p' "startup.deadline" "complete within 60 seconds" (ret tt) []
      (probes_inspection exchanges "startup" server m Hw) (reflexivity _) Hrun (runs_ret tt))
      as (_ & _ & _ & He & _).
    destruct (He Hs) as [_ Hin]. split_and!; eauto.
Qed.
End connection.

(** ** Explicit endpoints *)

Section online.
Context `{NKeys} `{Seeds} `{Sha256} `{ConfigJson} `{CapacityFile} `{ServerAddrs} `{TrustStore}
  `{MlsPackages} `{Postcard Envelope} `{Postcard RegistrationPayload} `{Postcard DeviceRegistration}
  `{Json SecretRef} `{Pages AuthDb} `{Catalog AuthDb}.
Context {X : Type} `{EqDecision X} `{StreamDefaults X} `{ManifestJson X} `{ApiJson X}.
Context {C : Type} `{Catalog C} {S : Type} `{Backend S}.
Context (canonical : string -> result string) (parent : string -> string).
Context (nkey_options : ConnectOptions).
Implicit Types (w : Site C S).

(** The checks an online validation replaces are not required ones. *)
Definition replaced : list string := ["coverage.network"; "local.transport.endpoint"].
Definition optional (c : Check) : Prop := ck_id c ∈ replaced -> ck_required c = false.
Definition keeps_optional (r r' : Report) : Prop :=
  Forall optional (rp_checks r) -> Forall optional (rp_checks r').
#[local] Instance keeps_optional_preorder : PreOrder keeps_optional.
Proof. split; [intros r Hr; exact Hr|]. intros a b c Hab Hbc Ha. by apply Hbc, Hab. Qed.

Lemma optional_push c : optional c -> keeps keeps_optional (push c).
Proof. intros Hc r Hr. cbn. apply Forall_app. by split; [|constructor]. Qed.
Lemma optional_check {T} id expected fallback remediation (op : result T) :
  id ∉ replaced -> keeps keeps_optional (check_op id expected fallback remediation op).
Proof.
  intros Hid. unfold check_op. destruct op; [|destruct (diagnostic _ _ _)];
    (apply keeps_bind; [apply _|apply optional_push; intros Hin; by destruct Hid|intros; apply keeps_ret; apply _]).
Qed.
Lemma optional_skip id required reason :
  id ∉ replaced \/ required = false -> keeps keeps_optional (skip id required reason).
Proof. intros [Hid|Hr]; apply optional_push; intros Hin; [by destruct Hid|done]. Qed.
Lemma optional_amend v : keeps keeps_optional (amend v).
Proof.
  intros r. unfold keeps_optional, amend, modify. cbn [snd rp_checks].
  destruct (reverse (rp_checks r)) as [|c l] eqn:Hr; apply (f_equal reverse) in Hr;
    rewrite reverse_involutive in Hr; rewrite Hr; [done|].
  rewrite !reverse_cons, !Forall_app. intros [? Hc]. split; [done|]. constructor; [|done].
  by inversion_clear Hc.
Qed.
Lemma not_replaced id : id <> "coverage.network" -> id <> "local.transport.endpoint" -> id ∉ replaced.
Proof. unfold replaced. intros. rewrite !elem_of_cons, elem_of_nil. naive_solver. Qed.

Lemma optional_offline w home auth_config :
  Forall optional (rp_checks (offline canonical parent w home auth_config None)).
Proof.
  assert (keeps keeps_optional (offline_checks canonical parent w home auth_config None)) as Hk;
    [|by apply Hk].
  unfold offline_checks, home_check, remaining_checks, config_check, manifest_check, capacity_check,
    check_files, state_files, sidecar_files, control_check, credentials_check, independent_check,
    database_checks, transport_checks.
  repeat match goal with
  | |- keeps _ (check_op _ _ _ _ _) => apply optional_check, not_replaced; discriminate
  | |- keeps _ (skip _ _ _) =>
      apply optional_skip; first [by right|left; apply not_replaced; discriminate]
  | |- keeps _ (amend _) => apply optional_amend
  | |- keeps _ (fold_m _ _ _) => apply keeps_fold; [apply _|intros]
  | |- keeps _ (match ?x with _ => _ end) => destruct x
  | |- keeps _ (bind _ _) => apply keeps_bind; [apply _| |intros]
  | |- keeps _ (ret _) => apply keeps_ret; apply _
  | |- keeps _ (let _ := _ in _) => cbv zeta
  end.
  intros r Hr. exact Hr.
Qed.

Definition kept_check (c : Check) : bool :=
  negb (bool_decide (ck_id c = "coverage.network")) && negb (bool_decide (ck_id c = "local.transport.endpoint")).
Lemma all_passed_kept l : Forall optional l -> all_passed (List.filter kept_check l) = all_passed l.
Proof.
  induction l as [|c l IH]; [done|]. intros [Hc Hl]%Forall_cons_1.
  cbn [List.filter]. change (c :: l) with ([c] ++ l). rewrite all_passed_app.
  destruct (kept_check c) eqn:Hk.
  - change (c :: List.filter kept_check l) with ([c] ++ List.filter kept_check l).
    by rewrite all_passed_app, IH.
  - rewrite IH by done. assert (ck_required c = false) as Hr.
    { apply Hc. unfold kept_check in Hk. unfold replaced. rewrite !elem_of_cons.
      destruct (decide (ck_id c = "coverage.network")) as [|N1]; [by left|].
      destruct (decide (ck_id c = "local.transport.endpoint")) as [|N2]; [right; by left|].
      by rewrite !bool_decide_eq_false_2 in Hk. }
    unfold all_passed at 2. cbn [List.filter]. by rewrite Hr.
Qed.

Definition local_names : list string :=
  List.filter (fun id => negb (bool_decide (id = "coverage.network"))
                         && negb (bool_decide (id = "local.transport.endpoint"))) offline_names.
Lemma filter_ids l : ck_id <$> List.filter kept_check l =
  List.filter (fun id => negb (bool_decide (id = "coverage.network"))
                         && negb (bool_decide (id = "local.transport.endpoint"))) (ck_id <$> l).
Proof.
  induction l as [|c l IH]; [done|]. cbn [List.filter fmap list_fmap]. unfold kept_check at 1.
  destruct (_ && _); cbn [fmap list_fmap]; by rewrite <- IH.
Qed.
Lemma sublist_list_filter {A} (f : A -> bool) (l k : list A) :
  l `sublist_of` k -> List.filter f l `sublist_of` List.filter f k.
Proof.
  induction 1 as [|x l k _ IH|x l k _ IH]; [done| |]; cbn [List.filter]; destruct (f x); try done;
    by constructor.
Qed.

(** What the local part of an online validation establishes. *)
Lemma online_local_report w home auth_config endpoints :
  let r := online_local canonical parent w home auth_config endpoints in
  rp_version r = 1 /\ rp_mode r = "online" /\ rp_success r = all_passed (rp_checks r) /\
  (rp_success r = true -> established_home canonical parent w home auth_config None /\
     (1 <= length endpoints <= 8)%nat) /\
  ids r `sublist_of` local_names ++ ["online.endpoints"] /\ rp_checks r <> [].
Proof.
  cbv zeta. unfold online_local.
  destruct (offline_report canonical parent w home auth_config None) as (Hv & _ & Hs & Ha & Hi).
  set (r := offline canonical parent w home auth_config None) in *.
  match goal with |- context [snd ((record_check ?id ?e ?x ;;; outcome) ?r0)] =>
    set (result := x); set (r0' := r0) end.
  assert (concludes (record_check "online.endpoints" (Text "1 to 8 explicit endpoints") result ;;; outcome)
            (match result with inl _ => true | inr _ => false end) ["online.endpoints"]) as Hc
    by apply concludes_after, runs_record.
  destruct (Hc r0') as (r1 & l & E & V & M & P & Q & I & Sl). rewrite E. cbn [snd].
  rewrite V, M. split_and!; try done.
  - intros Hok. rewrite Hok in P. symmetry in P. apply andb_true_iff in P as [Hall Hres].
    unfold r0' in Hall. cbn [rp_checks] in Hall.
    fold kept_check in Hall. change (fun c => _ && _) with kept_check in Hall.
    rewrite all_passed_kept in Hall by apply optional_offline. split.
    + apply (offline_exact canonical parent w home auth_config None). fold r. by rewrite Ha.
    + subst result. unfold zlen in Hres. destruct (_ && _) eqn:Hl in Hres; [|done]. bool_prop. lia.
  - rewrite I. apply sublist_app; [|exact Sl]. unfold ids, r0'. cbn [rp_checks].
    change (fun c => negb _ && _) with kept_check. rewrite filter_ids. by apply sublist_list_filter.
  - clearbody result r0'. revert E. clear.
    destruct result; intros [= <-]; cbn; by intros []%app_eq_nil.
Qed.

(** The evidence one endpoint gives: the policy took it, the service connection
    was admitted and flushed, the control identity was admitted, and that
    connection was inspected. *)
Definition endpoint_inspected w (config : Config) (m : DeploymentManifest) (x : nat * (string * Endpoint)) : Prop :=
  let '(_, (url, e)) := x in
  check_transport config (from_lookup (s_env w)) url = Ok tt /\
  connected (ep_auth e) = true /\ snd (ep_flush e) = Some true /\ connected (ep_control e) = true /\
  inspected_connection (X := X) (ep_server e) (ep_exchanges e) m.
Definition endpoint_names (index : nat) : list string :=
  let prefix := endpoint_prefix index in
  [prefix +:+ ".transport"; prefix +:+ ".auth"; prefix +:+ ".control"] ++ connection_names prefix.

Lemma probes_auth I prefix e :
  probes I (auth_check prefix e)
    (fun _ => connected (ep_auth e) = true /\ snd (ep_flush e) = Some true) [prefix +:+ ".auth"].
Proof.
  unfold auth_check. eapply (probes_bind _ _ _ _ _ [] [_]); [apply probes_wait|]. intros [].
  eapply (probes_bind _ _ _ (fun r => match r with
    | inl _ => connected (ep_auth e) = true /\ snd (ep_flush e) = Some true | inr _ => True end) _ [] [_]).
  - destruct (connected (ep_auth e)); [|by apply probes_ret].
    eapply (probes_bind _ _ _ _ _ [] []); [apply probes_wait|]. intros [].
    eapply (probes_bind _ _ _ _ _ [] []); [apply probes_gets|]. intros denied.
    apply probes_ret. intros _ _. by destruct (snd (ep_flush e)) as [[]|].
  - intros r. eapply probes_weaken; [apply probes_report, runs_record| |done].
    intros [] [_ Hb]. by destruct r.
Qed.
Lemma probes_control I prefix m e :
  manifest_wf m -> (forall l, I l) ->
  probes I (control_inspection (X := X) prefix m e)
    (fun _ => connected (ep_control e) = true /\
              inspected_connection (X := X) (ep_server e) (ep_exchanges e) m)
    ((prefix +:+ ".control") :: connection_names prefix).
Proof.
  intros Hw HI. unfold control_inspection.
  eapply (probes_bind _ _ _ _ _ [] (_ :: _)); [apply probes_wait|]. intros [].
  destruct (connected (ep_control e)).
  - eapply probes_weaken; [eapply probes_connection; [by apply (probes_inspection (ep_exchanges e))|by intros y Hy|by intros]| |].
    + by intros [] ? _.
    + by apply sublist_cons.
  - eapply probes_weaken; [apply probes_report, runs_record| |].
    + by intros [] [_ ?].
    + apply sublist_skip, sublist_nil_l.
Qed.
Lemma probes_endpoint w config m x :
  manifest_wf m ->
  probes (fun _ => True) (endpoint_check (X := X) nkey_options w config m x)
    (fun _ => endpoint_inspected w config m x) (endpoint_names (fst x)).
Proof.
  intros Hw. destruct x as [i [url e]]. unfold endpoint_check, endpoint_names. cbn [fst].
  apply (probes_connection _ (fun _ => True)); [|done..].
  destruct (check_transport config (from_lookup (s_env w)) url) as [[]|] eqn:Ht; cbn [rbind].
  2: { eapply probes_weaken; [apply probes_report, runs_record| |]; [by intros [] [_ ?]|].
       apply sublist_skip, sublist_nil_l. }
  destruct (let? auth := _ in _) as [o|].
  2: { eapply probes_weaken; [apply probes_report, runs_record| |]; [by intros [] [_ ?]|].
       apply sublist_skip, sublist_nil_l. }
  eapply probes_weaken; [eapply (probes_bind _ _ _ _ (fun _ => endpoint_inspected w config m (i, (url, e)))
      [endpoint_prefix i +:+ ".auth"]
      ((endpoint_prefix i +:+ ".control") :: connection_names (endpoint_prefix i))); [apply probes_auth|]| |].
  - intros []. eapply probes_weaken; [by apply probes_control| |reflexivity].
    intros u [? ?] [? ?]. split_and!; [exact Ht|assumption..].
  - by intros [].
  - by apply sublist_cons.
Qed.

Definition network_names : list string :=
  concat (endpoint_names <$> seq 0 8) ++ ["online.deadline"; "coverage.discovery"].
Definition online_names : list string :=
  local_names ++ ["online.endpoints"; "coverage.network"; "online.credentials"] ++ network_names.

Lemma network_sublist {A} (l : list (string * A)) :
  (length l <= 8)%nat ->
  concat ((fun x => endpoint_names (fst x)) <$> imap (fun i e => (i, e)) l)
    `sublist_of` concat (endpoint_names <$> seq 0 8).
Proof.
  intros Hl. replace ((fun x => endpoint_names (fst x)) <$> imap (fun i e => (i, e)) l)
    with (endpoint_names <$> seq 0 (length l)).
  - replace 8%nat with (length l + (8 - length l))%nat by lia.
    rewrite seq_app, fmap_app, concat_app. by apply sublist_inserts_r.
  - apply list_eq. intros i. rewrite !list_lookup_fmap, list_lookup_imap.
    destruct (l !! i) as [x|] eqn:Hx.
    + rewrite lookup_seq_lt by (by eapply lookup_lt_Some). done.
    + rewrite lookup_seq_ge by (by apply lookup_ge_None). done.
Qed.

Lemma online_network_report w config m endpoints waits r :
  manifest_wf m -> (length endpoints <= 8)%nat ->
  let r' := online_network (X := X) nkey_options w config m endpoints waits r in
  rp_version r' = rp_version r /\ rp_mode r' = rp_mode r /\
  rp_success r' = all_passed (rp_checks r') /\
  (rp_success r' = true ->
   Forall (endpoint_inspected w config m) (imap (fun i e => (i, e)) endpoints)) /\
  exists l, ids r' = ids r ++ l /\ l `sublist_of` network_names.
Proof.
  intros Hw Hlen. cbv zeta. unfold online_network.
  destruct (for_each _ _ _) as [x p'] eqn:Hrun.
  destruct (probe_ends (fun _ => True) _ _ (start_probe r [] waits) x p' "online.deadline"
      "all endpoints completed within 60 seconds" (skip "coverage.discovery" false "Only explicitly supplied endpoints were inspected individually; discovered endpoints, routes, account isolation, signer scope, resolver lifecycle and capacity remain operator checks. Replica health is a point-in-time observation.")
      ["coverage.discovery"]
      (probes_for_each (fun _ => True) _ (endpoint_inspected w config m) (fun x => endpoint_names (fst x)) _
         (fun a _ => probes_endpoint w config m a Hw)) I Hrun (runs_skip _ _ _))
    as (Hv & Hm & Hs & Hok & l & Hi & Hl).
  split_and!; try done; [by intros [? ?]%Hok|]. exists l. split; [done|].
  etrans; [exact Hl|]. unfold network_names. apply sublist_app; [by apply network_sublist|done].
Qed.

(** What a successful report has inspected, endpoint by endpoint. *)
Lemma online_inspects w home auth_config endpoints waits :
  rp_success (online (X := X) canonical parent nkey_options w home auth_config endpoints waits) = true ->
  established_home canonical parent w home auth_config None /\ (1 <= length endpoints <= 8)%nat /\
  exists config m, online_inputs w home auth_config = Ok (config, m) /\ manifest_wf m /\
    forall i url e, endpoints !! i = Some (url, e) -> endpoint_inspected w config m (i, (url, e)).
Proof.
  unfold online.
  destruct (online_local_report w home auth_config endpoints) as (Hv & Hm & Hs & Hok & Hi & _).
  set (r := online_local canonical parent w home auth_config endpoints) in *.
  destruct (rp_success r) eqn:Hr; cbn [negb].
  2: { intros Hf. exfalso. revert Hf.
       destruct (concludes_after _ _ _ (runs_skip "coverage.network" true
         "local prerequisites failed; no connections attempted") r)
         as (r1 & l & E & _ & _ & P & _). rewrite E. cbn [snd]. by rewrite P, andb_false_r. }
  destruct (Hok eq_refl) as [Hest Hlen].
  destruct (online_inputs w home auth_config) as [[config m]|e] eqn:Hin.
  2: { intros Hf. exfalso. revert Hf.
       destruct (concludes_after _ _ _ (runs_record "online.credentials"
         (Text "unchanged existing credentials") (inr "local_inputs_changed")) r)
         as (r1 & l & E & _ & _ & P & _). rewrite E. cbn [snd]. by rewrite P, andb_false_r. }
  assert (manifest_wf m) as Hw.
  { unfold online_inputs in Hin. inv_ok. eapply load_manifest_wf; done. }
  intros Hsucc. destruct (online_network_report w config m endpoints waits r Hw ltac:(lia)) as (_ & _ & _ & Hall & _).
  split_and!; try lia; [done|]. exists config, m. split_and!; [done..|]. intros i url e He.
  specialize (Hall Hsucc). rewrite List.Forall_forall in Hall. apply Hall, list_elem_of_In.
  apply list_elem_of_lookup. exists i. by rewrite list_lookup_imap, He.
Qed.

(** C8. An online validation that succeeds has seen everything it vouches for: the
    home is established, there are one to eight endpoints, and at each of them
    the transport policy was met, the service connection was admitted and
    flushed, the control identity was admitted, and the broker reported every
    resource of the manifest, meeting its contract and healthy. A deadline, a
    refused connection or a missing answer is never taken for a pass. *)
Theorem online_success_sound w home auth_config endpoints waits :
  rp_success (online (X := X) canonical parent nkey_options w home auth_config endpoints waits) = true ->
  established_home canonical parent w home auth_config None /\ (1 <= length endpoints <= 8)%nat /\
  exists config m, online_inputs w home auth_config = Ok (config, m) /\
    forall i url e, endpoints !! i = Some (url, e) ->
      endpoint_inspected w config m (i, (url, e)) /\
      forall name, name ∈ declared_names -> exists v info,
        answered (ep_exchanges e) v /\ api_info v = Some info /\
        Contract (X := X) m name (info_config info) /\
        healthy (info_cluster info) (m_replicas m) = true.
Proof.
  intros (He & Hl & config & m & Hin & Hw & Hall)%online_inspects.
  split_and!; try lia; [done|]. exists config, m. split; [done|]. intros i url e Hi.
  pose proof (Hall i url e Hi) as Hei. split; [done|]. intros name Hn.
  destruct Hei as (_ & _ & _ & _ & _ & _ & _ & Hres).
  destruct (Hres name Hn) as (v & info & ? & ? & Hc & ?). exists v, info. split_and!; try done.
  by apply (proj1 (compare_exact m name _ Hw) Hn).
Qed.

Lemma online_names_nodup : NoDup online_names.
Proof. apply (bool_decide_unpack _). by vm_compute. Qed.

(** A report that goes on from the local part. *)
Lemma report_extends (r r' : Report) l (m : string) :
  rp_version r' = rp_version r -> rp_mode r' = rp_mode r -> rp_success r' = all_passed (rp_checks r') ->
  ids r' = ids r ++ l ->
  rp_version r = 1 -> rp_mode r = "online" -> ids r `sublist_of` local_names ++ ["online.endpoints"] ->
  rp_checks r <> [] -> l `sublist_of` ["coverage.network"; "online.credentials"] ++ network_names ->
  valid_report r' /\ ids r' `sublist_of` online_names.
Proof.
  intros Hv Hm Hs Hi Hv0 Hm0 Hi0 Hne Hl.
  assert (ids r' `sublist_of` online_names) as Hsub.
  { rewrite Hi. unfold online_names.
    change (local_names ++ ["online.endpoints"; "coverage.network"; "online.credentials"] ++ network_names)
      with (local_names ++ (["online.endpoints"] ++ ["coverage.network"; "online.credentials"] ++ network_names)).
    rewrite app_assoc. by apply sublist_app. }
  split; [|done]. split_and!; try done; [congruence|..].
  - rewrite Hm, Hm0. right. by left.
  - eapply sublist_NoDup; [exact online_names_nodup|exact Hsub].
  - intros Hnil. unfold ids in Hi. rewrite Hnil in Hi. symmetry in Hi. apply app_eq_nil in Hi as [Hi _].
    by apply fmap_nil_inv in Hi.
Qed.
Lemma online_valid w home auth_config endpoints waits :
  let r := online (X := X) canonical parent nkey_options w home auth_config endpoints waits in
  valid_report r /\ ids r `sublist_of` online_names.
Proof.
  unfold online.
  destruct (online_local_report w home auth_config endpoints) as (Hv & Hm & Hs & Hok & Hi & Hne).
  set (r := online_local canonical parent w home auth_config endpoints) in *.
  destruct (rp_success r) eqn:Hr; cbn [negb].
  2: { destruct (concludes_after _ _ _ (runs_skip "coverage.network" true
         "local prerequisites failed; no connections attempted") r)
         as (r1 & l & E & V & M & _ & Q & I & Sl). rewrite E. cbn [snd].
       eapply (report_extends r r1 l); try done. etrans; [exact Sl|]. apply sublist_skip, sublist_nil_l. }
  destruct (Hok eq_refl) as [_ Hlen].
  destruct (online_inputs w home auth_config) as [[config m]|e] eqn:Hin.
  2: { destruct (concludes_after _ _ _ (runs_record "online.credentials"
         (Text "unchanged existing credentials") (inr "local_inputs_changed")) r)
         as (r1 & l & E & V & M & _ & Q & I & Sl). rewrite E. cbn [snd].
       eapply (report_extends r r1 l); try done. etrans; [exact Sl|].
       apply sublist_cons, sublist_skip, sublist_nil_l. }
  assert (manifest_wf m) as Hw.
  { unfold online_inputs in Hin. inv_ok. eapply load_manifest_wf; done. }
  destruct (online_network_report w config m endpoints waits r Hw ltac:(lia))
    as (Hv' & Hm' & Hs' & _ & l & Hi' & Hl).
  eapply (report_extends r _ l); try done. by do 2 apply sublist_cons.
Qed.
End online.

Lemma startup_valid {X} `{EqDecision X} `{StreamDefaults X} `{ApiJson X} server m denied exchanges waits :
  manifest_wf m -> valid_report (inspect_resources (X := X) server m denied exchanges waits).
Proof.
  intros Hw. unfold inspect_resources.
  set (p0 := {| pb_report := _; pb_denied := _; pb_exchanges := _; pb_waits := _ |}).
  destruct (inspect_connection "startup" server m p0) as [r p'] eqn:Hrun.
  destruct (probe_ends _ _ _ p0 r p' "startup.deadline" "complete within 60 seconds" (ret tt) []
    (probes_inspection exchanges "startup" server m Hw) (reflexivity _) Hrun (runs_ret tt))
    as (Hv & Hm & Hs & _ & l & Hi & Hl).
  assert (rp_checks (snd ((when (negb (is_ok r)) (record_check "startup.deadline"
    (Text "complete within 60 seconds") (inr "timeout")) ;;; outcome) (pb_report p'))) <> []) as Hne.
  { destruct r as [u|e]; cbn; [|by intros []%app_eq_nil].
    unfold inspect_connection in Hrun. apply bind_Ok in Hrun as ([] & p1 & Ha & Hrun).
    destruct (probes_rest (pb_exchanges p1) "startup" server m Hw p1 (reflexivity _))
      as (r2 & p2 & l2 & E2 & _ & _ & _ & _ & _ & I2 & _). rewrite Hrun in E2. injection E2 as <- <-.
    unfold account_check in Ha. apply bind_Ok in Ha as (v & p3 & _ & Ha).
    intros Hnil. unfold ids in I2. rewrite Hnil in I2. symmetry in I2. apply app_eq_nil in I2 as [I2 _].
    apply fmap_nil_inv in I2. unfold on_report, record_check in Ha.
    destruct v as [v|code]; [destruct (api_account v)|]; cbn in Ha; injection Ha as <-; cbn in I2;
      by apply app_eq_nil in I2 as []. }
  change (valid_report (snd ((when (negb (is_ok r)) (record_check "startup.deadline"
    (Text "complete within 60 seconds") (inr "timeout")) ;;; ret tt ;;; outcome) (pb_report p')))).
  unfold valid_report. rewrite Hv, Hm. split_and!; try done.
  - right. right. by left.
  - rewrite Hi. eapply sublist_NoDup; [|exact Hl]. apply (bool_decide_unpack _). by vm_compute.
Qed.

(** Every report the validations write is one their readers accept, whatever was
    found, answered or cut off: the version and mode are supported, no check
    occurs twice, there is one at least, and the outcome is the one the checks
    say. *)
Theorem validation_reports_parse `{NKeys} `{Seeds} `{Sha256} `{ConfigJson} `{CapacityFile} `{ServerAddrs}
    `{TrustStore} `{MlsPackages} `{Postcard Envelope} `{Postcard RegistrationPayload}
    `{Postcard DeviceRegistration} `{Json SecretRef} `{Pages AuthDb} `{Catalog AuthDb} `{ReportJson}
    {X} `{EqDecision X} `{StreamDefaults X} `{ManifestJson X} `{ApiJson X} {C} `{Catalog C} {V} `{Backend V}
    canonical parent nkey_options (w : Site C V) home auth_config endpoint endpoints server m denied
    exchanges waits r :
  report_from_json (report_to_json r) = Ok r -> manifest_wf m ->
  r ∈ [offline canonical parent w home auth_config endpoint;
       online (X := X) canonical parent nkey_options w home auth_config endpoints waits;
       inspect_resources (X := X) server m denied exchanges waits] ->
  parse (report_to_json r) = Ok r.
Proof.
  intros Hj Hw Hr. apply parse_valid; [done|]. rewrite !elem_of_cons, elem_of_nil in Hr.
  destruct Hr as [->|[->|[->|[]]]]; [apply offline_valid|apply (online_valid canonical parent nkey_options w)|by apply startup_valid].
Qed.
