(* ===== verification/Backend.v ===== *)
(** * The processes of the backend

    [crates/epochgrid-service/src/main.rs], [audit.rs], the start of
    [dynamic.rs] and the validation and the worker of [roles.rs]: the reports
    the commands print, the commands on the audit trail of a stopped authority,
    and what an authority or a worker does before it is ready. *)
From S2P Require Import Prelude External Wire AuthDb Capacity AuditTrail Identity Registry Policy AuditFacts KvStore Merkle Transparency Revocation Secrets Tls Diagnostics Callout Files Roles Ipc Directory Authority Database Inspection Deployment Validation ValidationFacts Online OnlineFacts.

(** ** Reports *)

Definition verdict (b : bool) : Status := if b then Passed else Validation.Failed.
Definition coded (code : string) : Value := Object [("code", Text code)].

Section role_report.
Context `{ServerAddrs} `{TrustStore}.

(* @src service/roles.rs 671-676 validate (backend_role) *)
Definition role_check {A} (config : result A) : M Report unit :=
  push {| ck_id := "local.backend_role"; ck_status := verdict (is_ok config); ck_required := true;
    ck_expected := Text "separate accounts, private role state and matching credential binding";
    ck_observed := coded (if is_ok config then "role_valid" else "role_invalid");
    ck_remediation := if is_ok config then None
      else Some "Run role setup under the correct account and unlocked keyring; no state was initialized." |}.
Definition valid_check (id expected : string) (valid : bool) : M Report unit :=
  push {| ck_id := id; ck_status := verdict valid; ck_required := true; ck_expected := Text expected;
    ck_observed := Object [("valid", VBool valid)]; ck_remediation := None |}.
(* @src service/roles.rs 677-708 validate (transport) *)
Definition transport_check (tls : result TlsConfig) (endpoint : option string) : M Report unit :=
  valid_check "local.role_trust" "usable local TLS policy and trust roots"
    (is_ok (let? tls := tls in validate_local tls)) ;;;
  match endpoint with
  | Some url => valid_check "local.role_transport" "valid transport input"
      (is_ok (let? tls := tls in validate_endpoint tls url))
  | None => ret tt
  end.
(* @src service/roles.rs 717-722 validate (runtime) *)
Definition ready_check (online : bool) (ready : option bool) : M Report unit :=
  let up := bool_decide (ready = Some true) in
  push {| ck_id := "runtime.backend_role";
    ck_status := if negb online then NotChecked else verdict up; ck_required := online;
    ck_expected := Text "authority reconciled with current worker lease";
    ck_observed := coded (if negb online then "offline" else if up then "role_ready" else "role_not_ready");
    ck_remediation := if online && negb up
      then Some "Start the authority and worker with matching bindings, then inspect startup failures."
      else None |}.

(* @src service/roles.rs 671-730 validate (checks) *)
Definition role_checks (config : result Bindings) (tls : result TlsConfig) (online : bool)
    (endpoint : option string) (ready : option bool) : M Report unit :=
  role_check config ;;;
  transport_check tls endpoint ;;;
  ready_check online ready ;;;
  push {| ck_id := "coverage.role_network"; ck_status := NotChecked; ck_required := false;
    ck_expected := Text "application resources and endpoint inspection";
    ck_observed := Text "Use authority validate --online for resource/TLS checks; worker validation does not hold authority credentials.";
    ck_remediation := None |} ;;;
  outcome.
(** [config] is what the role's files and credential say, [answer] what the
    authority behind the bindings answers in time. *)
(* @src service/roles.rs 652-731 validate *)
Definition role_validate (config : result Bindings) (tls : result TlsConfig) (online : bool)
    (endpoint : option string) (answer : Bindings -> result bool) : Report :=
  let ready := if online then match config with Ok b => ok (answer b) | Err _ => None end else None in
  snd (role_checks config tls online endpoint ready (new_report (if online then "online" else "offline"))).
End role_report.

(** The role's part is appended to the report of the home. *)
(* @src service/main.rs 197-201 main (role) *)
Definition append_role (report role : Report) : Report :=
  {| rp_version := rp_version report; rp_mode := rp_mode report;
     rp_success := rp_success report && rp_success role;
     rp_checks := rp_checks report ++ rp_checks role |}.

Section commands.
Context `{NKeys} `{Seeds} `{Sha256} `{ConfigJson} `{CapacityFile} `{ServerAddrs} `{TrustStore}
  `{MlsPackages} `{Postcard Envelope} `{Postcard RegistrationPayload} `{Postcard DeviceRegistration}
  `{Json SecretRef} `{Pages AuthDb} `{Catalog AuthDb} `{RoleJson} `{FrameJson}.
Context {X : Type} `{EqDecision X} `{StreamDefaults X} `{ManifestJson X} `{ApiJson X}.
Context {C : Type} `{Catalog C} {S : Type} `{Backend S}.
Context (canonical : string -> result string) (parent : string -> string) (nkey_options : ConnectOptions).
Implicit Types (w : Site C S).

(** The site as the machine has it. *)
Definition here w (m : Machine) : Site C S := {|
  s_uid := euid m; s_files := fs m; s_env := s_env w; s_now := s_now w; s_auth := s_auth w;
  s_auth_pragmas := s_auth_pragmas w; s_control := s_control w;
  s_control_pragmas := s_control_pragmas w |}.
Definition worker_credential w : result SecretRef := existing "worker" User (d_vault (s_auth w)).

(* @src service/roles.rs 666-670 validate (config) *)
Definition role_bindings w (home : string) (worker : bool) : M Machine Bindings :=
  if worker then
    let* config := worker_config (worker_credential w) home in
    ret (wc_bindings config)
  else bindings_load home.
(** The role of a home, validated. [peer] is the account behind the status
    socket and [reply] what it sends back. *)
Definition role_report w (m : Machine) (home : string) (worker online : bool) (endpoint : option string)
    (peer : result Z) (reply : bytes -> bytes) : Report :=
  role_validate (fst (role_bindings w home worker m)) (from_lookup (s_env w)) online endpoint
    (fun b => Ipc.inspect (authority_uid b) peer reply).

(** The report of [validate], and whether the command succeeds. [answers] is
    what each explicit endpoint answers, in order. *)
(* @src service/main.rs 183-211 main (validate) *)
Definition validate_command w (m : Machine) (home auth_config : string) (server : option string)
    (online : bool) (endpoint : list string) (answers : nat -> Endpoint) (waits : nat)
    (peer : result Z) (reply : bytes -> bytes) : Report * result unit :=
  let report :=
    if online then
      let urls := match server with Some s => s :: endpoint | None => endpoint end in
      Online.online (X := X) canonical parent nkey_options (here w m) home auth_config
        (imap (fun i url => (url, answers i)) urls) waits
    else offline canonical parent (here w m) home auth_config server in
  let report :=
    if online || path_exists (join home BINDINGS) (fs m)
    then append_role report (role_report w m home false online None peer reply)
    else report in
  (report, check (rp_success report) "validation failed; see the validation report").
(* @src service/main.rs 168-179 main (validate-control) *)
Definition validate_control_command w (m : Machine) (home : string) (server : option string)
    (online : bool) (peer : result Z) (reply : bytes -> bytes) : Report * result unit :=
  let report := role_report w m home true online server peer reply in
  (report, check (rp_success report) "worker validation failed; see the validation report").
End commands.

(** ** Starting a process

    A network call of a start, in the order of the code; whether each succeeds in
    time is an answer to come. Creating a stream or a bucket that does not exist
    yet makes an empty one. *)
Inductive StartCall : Type :=
| ConnectService | SubscribeCallout | FlushService | ConnectControl
| LookupDirectory | LookupLog | ProvisionDirectory | ProvisionLog
| SubscribeIdentity | SubscribeChannel | FlushControl
| SubscribeProbe | FlushProbe | PublishProbe | ConnectAuthority.
#[global] Instance StartCall_eq_dec : EqDecision StartCall.
Proof. solve_decision. Defined.
(** The calls that may create resources of the operator. *)
Definition creates (c : StartCall) : bool :=
  match c with ProvisionDirectory | ProvisionLog => true | _ => false end.

(** A process on its way up: the machine, the service with its stored registry,
    the calls made and the answers to come; when there is none left, the next call
    does not return in time. *)
Record Launch : Type := {
  la_machine : Machine;
  la_service : Service;
  la_made : list StartCall;
  la_answers : list bool;
}.
Definition on_machine {A} (m : M Machine A) : M Launch A := fun l =>
  let '(r, x) := m (la_machine l) in
  (r, {| la_machine := x; la_service := la_service l; la_made := la_made l; la_answers := la_answers l |}).
Definition on_service {A} (m : M Service A) : M Launch A := fun l =>
  let '(r, x) := m (la_service l) in
  (r, {| la_machine := la_machine l; la_service := x; la_made := la_made l; la_answers := la_answers l |}).
Definition net (c : StartCall) : M Launch unit := fun l =>
  (check (default false (head (la_answers l))) "connection or deadline",
   {| la_machine := la_machine l; la_service := la_service l; la_made := la_made l ++ [c];
      la_answers := tl (la_answers l) |}).
(** [Drop] runs when what follows ends in an error. *)
Definition or_undo {St A} (undo : M St unit) (m : M St A) : M St A := fun s =>
  match m s with
  | (Err e, s') => (Err e, snd (undo s'))
  | ok => ok
  end.

(** What the local stores and the broker's inspection answer a start: the
    control identity, the two openings of the registry with its policy, the
    payload limit of the server, the exchanges of the inspection, the clock, the
    randomness of the runtime, and the calls that reconciling leaves time for. *)
Record StartFacts : Type := {
  st_identity : result KeyPair;
  st_registry : result unit;
  st_reopened : result unit;
  st_max_payload : Z;
  st_server : Server;
  st_denied : bool;
  st_exchanges : list Exchange;
  st_waits : nat;
  st_instant : Z;
  st_random : bytes;
  st_calls : list Call;
  st_lock : bool;
}.

Section start.
Context `{NKeys} `{Seeds} `{Sha256} `{ConfigJson} `{CapacityFile} `{ServerAddrs} `{TrustStore}
  `{MlsPackages} `{Postcard Envelope} `{Postcard RegistrationPayload} `{Postcard DeviceRegistration}
  `{Json SecretRef} `{Pages AuthDb} `{Catalog AuthDb} `{RoleJson} `{FrameJson}
  `{Postcard CheckpointTuple} `{Postcard RequestTuple} `{Postcard Revocation}
  `{Postcard PolicyUpdate} `{Postcard RelayTuple} `{MlsMessages} `{Base32} `{Json AuditRecord}
  `{Json AuditTrail.Kind}.
Context {X : Type} `{EqDecision X} `{StreamDefaults X} `{ManifestJson X} `{ApiJson X}.
Context {C : Type} `{Catalog C} {S : Type} `{Backend S}.
Context (canonical : string -> result string) (parent : string -> string)
  (parent_dir : string -> option string) (nkey_options : ConnectOptions).
Context (moments : nat -> Moment).
Implicit Types (w : Site C S).

(** [Capacity::load_or_default] of a home. *)
Definition home_capacity (home : string) (files : Fs) : result Capacity :=
  load_or_default (if path_exists (join home CAPACITY_FILE) files
                   then let? b := read_file (join home CAPACITY_FILE) files in Ok (Some b)
                   else Ok None).
Definition secret_of w (r : SecretRef) : result string := read_with r (Secrets.keyring (d_vault (s_auth w))).

(** Production starts only on a home whose offline validation succeeds. *)
(* @src service/dynamic.rs 84-96 serve_inner (contract) *)
Definition start_contract w (home url path : string) (production : bool)
  : M Launch (option DeploymentManifest) :=
  if production then
    let* m := gets la_machine in
    ensure (rp_success (offline canonical parent (here w m) home path (Some url)))
      "production startup local validation failed" ;;;
    let* manifest := lift (load_manifest home (fs m)) in
    ret (Some manifest)
  else ret None.
(** The callout, from local credentials only. *)
(* @src service/dynamic.rs 97-117 serve_inner (local) *)
Definition start_local w (home url path : string) (bindings : option Bindings) (f : StartFacts)
  : M Launch Callout :=
  on_machine (runtime_lock home) ;;;
  let* m := gets la_machine in
  let* config := lift (load_config (read_file path (fs m)) (s_now w)) in
  lift (check_transport config (from_lookup (s_env w)) url) ;;;
  let* capacity := lift (home_capacity home (fs m)) in
  let* callout := lift (new_callout config (secret_of w) (st_instant f)) in
  let callout := Callout.with_capacity capacity (st_instant f) callout in
  match bindings with
  | Some b => lift (with_worker (worker_nkey b) callout)
  | None => ret callout
  end.
(* @src service/dynamic.rs 126-131 serve_inner (identity) *)
Definition start_identity (config : Config) (f : StartFacts) : M Launch KeyPair :=
  let* key := lift (st_identity f) in
  ensure (bool_decide (public_key key = control_nkey config))
    "control identity does not match callout configuration" ;;;
  ret key.
(** Admission requests are answered from here on, with the gate shut. *)
(* @src service/dynamic.rs 132-143 serve_inner (admission) *)
Definition start_admission w (config : Config) (url : string) (production : bool) (f : StartFacts)
  : M Launch unit :=
  let* m := gets la_machine in
  let* _ := lift (service_options nkey_options (here w m) config url) in
  net ConnectService ;;;
  when production (ensure (st_max_payload f =? MAX_WIRE)
    "capacity contract requires server max_payload 65536") ;;;
  net SubscribeCallout ;;;
  net FlushService ;;;
  lift (st_registry f).
(* @src service/dynamic.rs 189-207 serve_inner (control) *)
Definition start_control w (url : string) (manifest : option DeploymentManifest) (f : StartFacts)
  : M Launch unit :=
  let* m := gets la_machine in
  let* _ := lift (device_options nkey_options (here w m) url) in
  net ConnectControl ;;;
  match manifest with
  | Some manifest =>
      ensure (rp_success (inspect_resources (X := X) (st_server f) manifest (st_denied f)
                            (st_exchanges f) (st_waits f)))
        "production resource admission gate failed"
  | None => ret tt
  end.
(** Established resources are looked up; only a development broker without roles
    gets them created. *)
(* @src service/dynamic.rs 209-224 serve_inner (resources) *)
Definition start_resources (established : bool) : M Launch unit :=
  if established then net LookupDirectory ;;; net LookupLog
  else net ProvisionDirectory ;;; net ProvisionLog.
(* @src service/dynamic.rs 245-253 serve_inner (controls) *)
Definition start_controls (separated : bool) : M Launch unit :=
  when (negb separated) (net SubscribeIdentity ;;; net SubscribeChannel) ;;;
  net FlushControl.

(** From the bound sockets to the opened gate. *)
(* @src service/dynamic.rs 126-255 serve_inner (start) *)
Definition start_running w (url : string) (bindings : option Bindings) (production : bool)
    (manifest : option DeploymentManifest) (config : Config) (f : StartFacts) : M Launch unit :=
  let separated := is_some bindings in
  let* key := start_identity config f in
  start_admission w config url production f ;;;
  lift (st_reopened f) ;;;
  on_service (announce moments) ;;;
  start_control w url manifest f ;;;
  start_resources (production || separated) ;;;
  on_service (restore_state moments key) ;;;
  start_controls separated ;;;
  on_service (admit_devices moments).

(** The sockets, when the roles are separated, and the run; an error drops the
    sockets again. *)
(* @src service/dynamic.rs 121-125 serve_inner (sockets) *)
Definition start_bound w (url : string) (bindings : option Bindings) (production : bool)
    (manifest : option DeploymentManifest) (config : Config) (f : StartFacts) : M Launch unit :=
  match bindings with
  | Some b =>
      on_machine (server_bind parent_dir (st_lock f) b) ;;;
      or_undo (on_machine (server_drop b))
        (start_running w url bindings production manifest config f)
  | None => start_running w url bindings production manifest config f
  end.
(** To the ready state, with the callout that answers admissions. *)
(* @src service/dynamic.rs 78-257 serve_inner (startup) *)
Definition serve_inner w (home url path : string) (bindings : option Bindings) (f : StartFacts)
  : M Launch Callout :=
  let* tls := lift (from_lookup (s_env w)) in
  let production := bool_decide (profile tls = Production) in
  let* manifest := start_contract w home url path production in
  let* callout := start_local w home url path bindings f in
  on_service (modify (boot (st_random f) (st_instant f))) ;;;
  on_service (modify (set_sv_calls (st_calls f) false)) ;;;
  start_bound w url bindings production manifest (co_config callout) f ;;;
  ret callout.

(* @src service/dynamic.rs 73-76 authority *)
Definition authority w (home url path : string) (f : StartFacts) : M Launch Callout :=
  let* bindings := on_machine (bindings_load home) in
  serve_inner w home url path (Some bindings) f.

(** The combined process is for development homes without roles. *)
(* @src service/dynamic.rs 50-71 serve *)
Definition serve w (home url path : string) (f : StartFacts) : M Launch Callout :=
  let* tls := lift (from_lookup (s_env w)) in
  let* m := gets la_machine in
  when (bool_decide (profile tls = Production))
    (ensure (rp_success (offline canonical parent (here w m) home path (Some url)))
       "production startup local validation failed") ;;;
  ensure (bool_decide (profile tls = Development))
    "production requires separate authority/control accounts: run role-bind, worker-configure, serve-authority and serve-control; see docs/backend-role-contract.md" ;;;
  ensure (negb (path_exists (join home BINDINGS) (fs m))) "role-bound homes require serve-authority" ;;;
  serve_inner w home url path None f.
End start.

(** ** The worker's start *)

Section worker_start.
Context `{NKeys} `{Seeds} `{Sha256} `{ServerAddrs} `{TrustStore} `{RoleJson} `{Json SecretRef}.
Context {C S : Type} `{Backend S} (nkey_options : ConnectOptions).
Implicit Types (w : Site C S).

(** What the worker's connections answer: the payload limit of the server, the
    message that comes back through its own inbox, and the account behind the
    authority's socket. *)
Record WorkerFacts : Type := {
  wk_max_payload : Z;
  wk_probe : option bytes;
  wk_peer : result Z;
}.

(** A message through its own inbox shows that the broker took the worker's
    subscriptions. *)
(* @src service/roles.rs 826-842 worker (probe) *)
Definition worker_probe (f : WorkerFacts) : M Launch unit :=
  net SubscribeProbe ;;;
  net FlushProbe ;;;
  net PublishProbe ;;;
  let* payload := lift (ok_or (wk_probe f) (Anyhow "worker readiness subscription ended")) in
  ensure (bool_decide (payload = as_bytes "ready")) "worker authenticated readiness failed".
(* @src service/roles.rs 803-849 worker (start) *)
Definition worker_start w (home url : string) (f : WorkerFacts) : M Launch WorkerConfig :=
  let* config := on_machine (worker_config (worker_credential w) home) in
  on_machine (runtime_lock home) ;;;
  let* seed := lift (secret_of w (wc_connection config)) in
  let* _ := lift (ok_or (seed_pair seed) External) in
  let* tls := lift (from_lookup (s_env w)) in
  let* _ := lift (Tls.apply tls url nkey_options) in
  net ConnectService ;;;
  when (bool_decide (profile tls = Production))
    (ensure (wk_max_payload f =? MAX_WIRE) "capacity contract requires server max_payload 65536") ;;;
  net SubscribeIdentity ;;;
  net SubscribeChannel ;;;
  worker_probe f ;;;
  net ConnectAuthority ;;;
  let* peer := lift (wk_peer f) in
  ensure (peer =? authority_uid (wc_bindings config)) "unexpected authority peer" ;;;
  ret config.
End worker_start.

(** ** Commands on the audit trail of a stopped authority *)

Record Stopped : Type := { sp_machine : Machine; sp_db : AuthDb }.
Definition on_stopped {A} (m : M Machine A) : M Stopped A := fun s =>
  let '(r, x) := m (sp_machine s) in (r, {| sp_machine := x; sp_db := sp_db s |}).
Definition on_trail {A} (m : M AuthDb A) : M Stopped A := fun s =>
  let '(r, x) := m (sp_db s) in (r, {| sp_machine := sp_machine s; sp_db := x |}).
(** The files of the machine, with what fails on them. *)
Definition on_files {A} (io : list (option nat)) (m : M Disk A) : M Stopped A := fun s =>
  let '(r, d) := m {| dk_fs := fs (sp_machine s); dk_user := euid (sp_machine s); dk_io := io |} in
  (r, {| sp_machine := set_fs (fun _ => dk_fs d) (sp_machine s); sp_db := sp_db s |}).

(* @src service/audit.rs 6-34 Command *)
Inductive AuditCommand : Type :=
| CUpgrade | CRecover | CInfo
| CExport (output store : string) (after upper max_records : Z)
| CRetention (through : Z)
| CPrune (through : Z) (apply : bool).
Inductive AuditOutput : Type :=
| Silent | ShowInfo (i : Info) | ShowSummary (s : PruneSummary).

(** What a command finds and draws: whether the file can be inspected, the
    policy file, the identifiers a migration draws, what fails on the files of an
    export and what another process puts under its name, and the draws of its three
    events. *)
Record AuditDraws : Type := {
  ad_file : result unit;
  ad_policy : result (option bytes);
  ad_rows : ref_table -> string -> string;
  ad_store : result string;
  ad_io : list (option nat);
  ad_meanwhile : option Node;
  ad_draws : Draw * Draw * Draw;
}.

Section audit_commands.
Context `{CapacityFile} `{Json AuditRecord} `{Json AuditTrail.Kind} `{Json AuditTrail.Manifest} `{Pages AuthDb}.
Context (a : AuditDraws).
Let draw1 := fst (fst (ad_draws a)).
Let draw2 := snd (fst (ad_draws a)).
Let draw3 := snd (ad_draws a).

(* @src core/audit.rs 352-355 inspect *)
Definition audit_inspect : M AuthDb Info := lift (ad_file a) ;;; info.
Definition open_trail : M AuthDb Capacity := open_registry (ad_policy a) (ad_rows a) (ad_store a).
(* @src core/audit.rs 721-729 upgrade *)
Definition audit_upgrade : M AuthDb unit :=
  lift (ad_file a) ;;;
  let* version := gets AuthDb.schema in
  ensure ((2 <=? version) && (version <=? 3)) "unsupported auth schema" ;;;
  let* _ := open_trail in
  ret tt.

Definition lost_export : Event := {|
  kind := KExport; stage := AuditTrail.Intent; AuditTrail.outcome := AuditTrail.Unknown; reason := CoverageUncertain;
  actor := LocalOperator; count := 1; actor_reference := None; target_reference := None;
  ev_generation := None; window_seconds := None; sequence_boundary := None |}.
(** The start of an export is recorded where the registry opens and has room. *)
(* @src service/audit.rs 48-71 run (export start) *)
Definition export_started : M Stopped (result Capacity * option string) :=
  let* registry := attempt (on_trail open_trail) in
  let* operation := match registry with
                    | Ok cap => let* r := attempt (on_trail (audit_export_start cap draw1)) in ret (ok r)
                    | Err _ => ret None
                    end in
  match operation, registry with
  | None, Ok cap => on_trail (audit_repair cap lost_export draw2)
  | _, _ => ret tt
  end ;;;
  ret (registry, operation).
(** Evidence can be exported even when the registry does not open or the trail
    has no room to record the export. *)
(* @src service/audit.rs 48-82 run (export) *)
Definition export_command (output store : string) (after upper max_records : Z) : M Stopped unit :=
  let* (registry, operation) := export_started in
  let* db := gets sp_db in
  let* result := attempt (on_files (ad_io a)
    (export (let? _ := ad_file a in Ok db) (ad_meanwhile a) output store after upper max_records)) in
  match registry with
  | Ok cap => on_trail (audit_effect_result cap KExport operation (is_ok result) draw3)
  | Err _ => ret tt
  end ;;;
  lift result.

Definition prune_command (through : Z) (apply : bool) : M AuthDb PruneSummary := fun db =>
  prune through apply (let? _ := fst (open_trail db) in Ok tt) draw1 db.

(* @src service/audit.rs 39-89 run (command) *)
Definition trail_command (c : AuditCommand) : M Stopped AuditOutput :=
  match c with
  | CUpgrade => on_trail audit_upgrade ;;; ret Silent
  | _ =>
      let* _ := on_trail audit_inspect in
      match c with
      | CUpgrade => ret Silent
      | CRecover => let* cap := on_trail open_trail in on_trail (recover cap draw1) ;;; ret Silent
      | CInfo => let* i := on_trail audit_inspect in ret (ShowInfo i)
      | CExport output store after upper max_records =>
          export_command output store after upper max_records ;;; ret Silent
      | CRetention through =>
          let* cap := on_trail open_trail in on_trail (set_retention cap through draw1) ;;; ret Silent
      | CPrune through apply => let* s := on_trail (prune_command through apply) in ret (ShowSummary s)
      end
  end.
(** Nothing is touched while a backend holds the runtime lock. *)
(* @src service/audit.rs 36-91 run *)
Definition audit_run (home : string) (c : AuditCommand) : M Stopped AuditOutput :=
  on_stopped (runtime_lock home) ;;;
  trail_command c.
End audit_commands.

(** ** The reports are readable *)

Definition role_names : list string :=
  ["local.backend_role"; "local.role_trust"; "local.role_transport"; "runtime.backend_role";
   "coverage.role_network"].

Section role_facts.
Context `{ServerAddrs} `{TrustStore}.

Lemma runs_valid id expected valid : runs (valid_check id expected valid) tt valid [id].
Proof. eapply runs_eq; [apply runs_push|done|by destruct valid]. Qed.
Lemma runs_role {A} (config : result A) : runs (role_check config) tt (is_ok config) ["local.backend_role"].
Proof. eapply runs_eq; [apply runs_push|done|by destruct config]. Qed.
Lemma runs_role_transport tls endpoint :
  runs (transport_check tls endpoint) tt
    (is_ok (let? tls := tls in validate_local tls) &&
     match endpoint with Some url => is_ok (let? tls := tls in validate_endpoint tls url) | None => true end)
    (["local.role_trust"] ++ ["local.role_transport"]).
Proof.
  unfold transport_check. eapply runs_bind; [apply runs_valid|]. destruct endpoint; [apply runs_valid|].
  eapply runs_sub; [apply runs_ret|apply sublist_nil_l].
Qed.
Lemma runs_ready online ready :
  runs (ready_check online ready) tt (negb online || bool_decide (ready = Some true)) ["runtime.backend_role"].
Proof.
  eapply runs_eq; [apply runs_push|done|]. cbn. destruct online; [|done]. by case_bool_decide.
Qed.

Lemma role_checks_conclude config tls online endpoint ready :
  concludes (role_checks config tls online endpoint ready)
    (is_ok config && ((is_ok (let? tls := tls in validate_local tls) &&
     match endpoint with Some url => is_ok (let? tls := tls in validate_endpoint tls url) | None => true end)
     && ((negb online || bool_decide (ready = Some true)) && true))) role_names.
Proof.
  unfold role_checks.
  apply (concludes_bind _ _ tt _ ["local.backend_role"] _
    (["local.role_trust"; "local.role_transport"; "runtime.backend_role"; "coverage.role_network"]));
    [apply runs_role|].
  apply (concludes_bind _ _ tt _ ["local.role_trust"; "local.role_transport"] _
    (["runtime.backend_role"; "coverage.role_network"])); [apply runs_role_transport|].
  apply (concludes_bind _ _ tt _ ["runtime.backend_role"] _ ["coverage.role_network"]); [apply runs_ready|].
  apply (concludes_bind _ _ tt true ["coverage.role_network"] true []); [|apply concludes_outcome].
  eapply runs_eq; [apply runs_push|done..].
Qed.
(** What a role's report says, and what it says it of. *)
Lemma role_validate_report config tls online endpoint answer :
  let r := role_validate config tls online endpoint answer in
  valid_report r /\ ids r `sublist_of` role_names /\
  (rp_success r = true ->
     exists b, config = Ok b /\ (online = true -> answer b = Ok true) /\
       exists t, tls = Ok t /\ validate_local t = Ok tt /\
         forall url, endpoint = Some url -> is_ok (validate_endpoint t url) = true).
Proof.
  cbv zeta. set (r0 := role_validate config tls online endpoint answer).
  assert (rp_checks r0 <> []) as Hne by (unfold r0; by destruct endpoint).
  unfold r0, role_validate in *. clear r0. set (ready := if online then _ else None) in *.
  destruct (role_checks_conclude config tls online endpoint ready
    (new_report (if online then "online" else "offline"))) as (r & l & E & V & Md & P & Q & I & Sl).
  rewrite E in Hne |- *. cbn [snd] in *. split_and!; [|by rewrite I|].
  - split_and!; [by rewrite V|rewrite Md; destruct online; [right; left|left]| |done|done].
    rewrite I. eapply sublist_NoDup; [|exact Sl]. apply (bool_decide_unpack _). by vm_compute.
  - rewrite P. cbn [rp_checks new_report]. destruct config as [b|e]; [|done]. cbn. intros [[H1 H4]%andb_true_iff [H2 _]%andb_true_iff]%andb_true_iff.
    apply orb_true_iff in H2. exists b. split; [done|]. split.
    + intros ->. unfold ready in *. destruct H2 as [|H2]; [done|]. bool_prop. by destruct (answer b) as [[]|].
    + destruct tls as [t|e]; [|done]. cbn in *. exists t. split; [done|].
      split; [by destruct (validate_local t) as [[]|]|]. by intros url ->.
Qed.
End role_facts.

Lemma append_valid (r role : Report) names :
  valid_report r -> valid_report role -> ids r `sublist_of` names -> ids role `sublist_of` role_names ->
  NoDup (names ++ role_names) -> valid_report (append_role r role).
Proof.
  intros (Hv & Hm & _ & Hne & Hs) (_ & _ & _ & _ & Hs') Hi Hi' Hn. split_and!; [done..| | |].
  - unfold ids, append_role. cbn [rp_checks]. rewrite fmap_app. eapply sublist_NoDup; [exact Hn|].
    by apply sublist_app.
  - unfold append_role. cbn [rp_checks]. by intros [? _]%app_eq_nil.
  - unfold append_role. cbn [rp_checks rp_success]. by rewrite all_passed_app, <- Hs, <- Hs'.
Qed.
Lemma report_names_nodup :
  NoDup (online_names ++ role_names) /\ NoDup (offline_names ++ role_names).
Proof. split; apply (bool_decide_unpack _); by vm_compute. Qed.

Section command_facts.
Context `{NKeys} `{Seeds} `{Sha256} `{ConfigJson} `{CapacityFile} `{ServerAddrs} `{TrustStore}
  `{MlsPackages} `{Postcard Envelope} `{Postcard RegistrationPayload} `{Postcard DeviceRegistration}
  `{Json SecretRef} `{Pages AuthDb} `{Catalog AuthDb} `{RoleJson} `{FrameJson} `{ReportJson}.
Context {X : Type} `{EqDecision X} `{StreamDefaults X} `{ManifestJson X} `{ApiJson X}.
Context {C : Type} `{Catalog C} {S : Type} `{Backend S}.
Context (canonical : string -> result string) (parent : string -> string) (nkey_options : ConnectOptions).
Implicit Types (w : Site C S).

(** The endpoints the command is given, in the order it numbers them. *)
Definition given_endpoints (server : option string) (endpoint : list string) : list string :=
  option_list server ++ endpoint.

(** The home's part of the report, before the role's. *)
Definition home_report w (m : Machine) (home auth_config : string) (server : option string)
    (online : bool) (endpoint : list string) (answers : nat -> Endpoint) (waits : nat) : Report :=
  if online then
    let urls := match server with Some s => s :: endpoint | None => endpoint end in
    Online.online (X := X) canonical parent nkey_options (here w m) home auth_config
      (imap (fun i url => (url, answers i)) urls) waits
  else offline canonical parent (here w m) home auth_config server.
Lemma home_report_valid w m home auth_config server online endpoint answers waits :
  let r := home_report w m home auth_config server online endpoint answers waits in
  valid_report r /\ exists names, ids r `sublist_of` names /\ NoDup (names ++ role_names).
Proof.
  destruct report_names_nodup as [Hon Hoff]. unfold home_report. cbv zeta. destruct online.
  - pose proof (online_valid (X := X) canonical parent nkey_options (here w m) home auth_config
      (imap (fun i url => (url, answers i))
         match server with Some s => s :: endpoint | None => endpoint end) waits) as Hov.
    cbv zeta in Hov. destruct Hov as [Hov Hoi]. split; [exact Hov|]. exists online_names. by split.
  - split; [apply offline_valid|]. exists offline_names. split; [|done].
    apply (offline_report canonical parent (here w m) home auth_config server).
Qed.
Lemma home_report_sound w m home auth_config server online endpoint answers waits :
  rp_success (home_report w m home auth_config server online endpoint answers waits) = true ->
  established_home canonical parent (here w m) home auth_config (if online then None else server) /\
  (online = true ->
     (1 <= length (given_endpoints server endpoint) <= 8)%nat /\
     exists config manifest, online_inputs (here w m) home auth_config = Ok (config, manifest) /\
       forall i url, given_endpoints server endpoint !! i = Some url ->
         endpoint_inspected (X := X) (here w m) config manifest (i, (url, answers i))).
Proof.
  unfold home_report. destruct online.
  - set (urls := match server with Some s => s :: endpoint | None => endpoint end).
    assert (urls = given_endpoints server endpoint) as <- by by destruct server.
    intros (He & Hl & config & manifest & Hin & _ & Hall)%online_inspects.
    rewrite length_imap in Hl. split; [done|]. intros _. split; [done|]. exists config, manifest.
    split; [done|]. intros i url Hi. apply Hall. by rewrite list_lookup_imap, Hi.
  - intros Hs. split; [|done].
    by apply (offline_exact canonical parent (here w m) home auth_config server).
Qed.

(** C28. The [validate] command is sound. Whatever it finds, the report it prints is
    one its readers accept: no check occurs twice although the role's part is
    appended to the home's, and the outcome is the one the checks say. It
    succeeds only when the validation of the home did: the home is established;
    and, online, one to eight endpoints were given, the server's and then every
    explicit one, and at each of them the transport policy was met, the service
    connection was admitted and flushed, the control identity was admitted and
    that connection was inspected. For a home bound to separate roles, or when
    it went online, the bindings load under this account, the TLS policy has
    usable roots, and online the authority itself answered, from its own account,
    that it is reconciled with a live worker. *)
Theorem validate_command_sound w m home auth_config server online endpoint answers waits peer reply :
  let '(report, result) := validate_command (X := X) canonical parent nkey_options w m home auth_config
                             server online endpoint answers waits peer reply in
  report_from_json (report_to_json report) = Ok report ->
  parse (report_to_json report) = Ok report /\
  (result = Ok tt ->
     all_passed (rp_checks report) = true /\
     established_home canonical parent (here w m) home auth_config (if online then None else server) /\
     (online = true ->
        (1 <= length (given_endpoints server endpoint) <= 8)%nat /\
        exists config manifest, online_inputs (here w m) home auth_config = Ok (config, manifest) /\
          forall i url, given_endpoints server endpoint !! i = Some url ->
            check_transport config (from_lookup (s_env w)) url = Ok tt /\
            connected (ep_auth (answers i)) = true /\ snd (ep_flush (answers i)) = Some true /\
            connected (ep_control (answers i)) = true /\
            inspected_connection (X := X) (ep_server (answers i)) (ep_exchanges (answers i)) manifest) /\
     (online = true \/ path_exists (join home BINDINGS) (fs m) = true ->
        exists b t, fst (bindings_load home m) = Ok b /\
          (online = true -> Ipc.inspect (authority_uid b) peer reply = Ok true) /\
          from_lookup (s_env w) = Ok t /\ validate_local t = Ok tt)).
Proof.
  unfold validate_command. cbv zeta.
  set (report := if online then _ else _).
  destruct (home_report_valid w m home auth_config server online endpoint answers waits)
    as (Hval & names & Hids & Hnd).
  pose proof (home_report_sound w m home auth_config server online endpoint answers waits) as Hhome.
  fold report in Hval, Hids, Hhome.
  destruct (role_validate_report (fst (role_bindings w home false m)) (from_lookup (s_env w)) online None
    (fun b => Ipc.inspect (authority_uid b) peer reply)) as (Hrv & Hri & Hrs).
  fold (role_report w m home false online None peer reply) in Hrv, Hri, Hrs.
  destruct (online || path_exists (join home BINDINGS) (fs m)) eqn:Hrole; intros Hj.
  - split; [by apply parse_valid, (append_valid _ _ names)|]. intros Hok%check_Ok.
    pose proof Hok as Hp. unfold append_role in Hp. cbn [rp_success] in Hp.
    apply andb_true_iff in Hp as [Hh Hr]. destruct (Hhome Hh) as [He Ho]. split_and!; try done.
    + rewrite <- Hok. symmetry. by apply (append_valid _ _ names).
    + intros _. destruct (Hrs Hr) as (b & Hb & Ha & t & Ht & Hl & _). by exists b, t.
  - split; [by apply parse_valid|]. intros Hok%check_Ok. destruct (Hhome Hok) as [He Ho]. split_and!; try done.
    + rewrite <- Hok. symmetry. apply Hval.
    + apply orb_false_iff in Hrole as [-> ->]. by intros [].
Qed.
End command_facts.

(** ** What a start does before it is ready *)

(** The gate is as it was. *)
Definition same_gate (s s' : Service) : Prop := reconciled (sv_runtime s') = reconciled (sv_runtime s).
#[export] Instance same_gate_preorder : PreOrder same_gate.
Proof. unfold same_gate. split; [done|]. intros s1 s2 s3 ? ?. congruence. Qed.
(** A run that makes no network call, and one that creates nothing. *)
Definition same_made (l l' : Launch) : Prop := la_made l' = la_made l.
#[export] Instance same_made_preorder : PreOrder same_made.
Proof. unfold same_made. split; [done|]. intros l1 l2 l3 ? ?. congruence. Qed.
Definition makes (P : StartCall -> Prop) (l l' : Launch) : Prop :=
  exists made, la_made l' = la_made l ++ made /\ Forall P made.
#[export] Instance makes_preorder P : PreOrder (makes P).
Proof.
  split; [intros l; exists []; by rewrite app_nil_r|].
  intros l1 l2 l3 (m1 & E1 & H1) (m2 & E2 & H2). exists (m1 ++ m2).
  rewrite E2, E1, app_assoc. split; [done|]. by apply Forall_app.
Qed.

Section gate_frame.
Context `{NKeys} `{MlsPackages} `{Sha256} `{Postcard Envelope} `{Postcard RegistrationPayload}
  `{Postcard CheckpointTuple} `{Postcard RequestTuple} `{Postcard Revocation}
  `{Postcard PolicyUpdate} `{Postcard RelayTuple} `{MlsMessages} `{Base32} `{Json AuditRecord}
  `{Json AuditTrail.Kind} `{Pages AuthDb}.
Variable moments : nat -> Moment.

Lemma call_gate {A} (f : list KvStore.Attempt -> Broker -> result A * Broker) : keeps same_gate (call f).
Proof.
  intros s. unfold call. destruct (sv_calls s) as [|c cs]; [reflexivity|].
  destruct (delivered c); [|reflexivity]. by destruct (f _ _).
Qed.
Lemma with_registry_gate {A} (m : M AuthRegistry A) : keeps same_gate (with_registry m).
Proof. intros s. unfold with_registry. by destruct (m _). Qed.
Lemma moment_gate : keeps same_gate (moment moments).
Proof. by intros s. Qed.
Lemma awaited_gate {A} (m : M Service A) : keeps same_gate m -> keeps same_gate (awaited m).
Proof. intros Hm s. unfold awaited. specialize (Hm s). destruct (m s). by destruct (sv_cancelled _). Qed.
#[local] Hint Resolve call_gate with_registry_gate moment_gate awaited_gate : keeps.

Lemma announce_gate : keeps same_gate (announce moments).
Proof. unfold announce, with_db. keeps_auto. Qed.
Lemma register_gate enrollment k r : keeps same_gate (Directory.register enrollment k r).
Proof.
  unfold Directory.register, append_registration, accept, project_registration, directory_get,
    directory_create, ask. keeps_all.
Qed.
#[local] Hint Resolve register_gate : keeps.
Lemma publish_registration_gate k enrollment r required :
  keeps same_gate (publish_registration moments k enrollment r required).
Proof. unfold publish_registration, with_db. keeps_all. Qed.
#[local] Hint Resolve publish_registration_gate : keeps.
Lemma consumers_gate : keeps same_gate reconcile_consumers_inner.
Proof.
  unfold reconcile_consumers_inner, provision_mailboxes, get_or_create_mailbox, reconcile_device,
    chat_delete, mailbox_delete, chat_create, ask. keeps_all.
Qed.
#[local] Hint Resolve consumers_gate : keeps.
Lemma restore_state_gate k : keeps same_gate (restore_state moments k).
Proof.
  unfold restore_state, reconcile, read_registrations, initialize_registrations, import_endpoint,
    read_revocations, revoke_logged, revoke_key, project_all, activate_device, reconcile_consumers,
    with_db, ask, project_registration, directory_get, directory_create.
  keeps_all.
Qed.
End gate_frame.

Section launch_facts.
Context `{NKeys} `{Seeds} `{Sha256} `{ConfigJson} `{CapacityFile} `{ServerAddrs} `{TrustStore}
  `{MlsPackages} `{Postcard Envelope} `{Postcard RegistrationPayload} `{Postcard DeviceRegistration}
  `{Json SecretRef} `{Pages AuthDb} `{Catalog AuthDb} `{RoleJson} `{FrameJson}
  `{Postcard CheckpointTuple} `{Postcard RequestTuple} `{Postcard Revocation}
  `{Postcard PolicyUpdate} `{Postcard RelayTuple} `{MlsMessages} `{Base32} `{Json AuditRecord}
  `{Json AuditTrail.Kind}.
Context {X : Type} `{EqDecision X} `{StreamDefaults X} `{ManifestJson X} `{ApiJson X}.
Context {C : Type} `{Catalog C} {S : Type} `{Backend S}.
Context (canonical : string -> result string) (parent : string -> string)
  (parent_dir : string -> option string) (nkey_options : ConnectOptions).
Context (moments : nat -> Moment).
Implicit Types (w : Site C S).

Lemma on_machine_made {A} (m : M Machine A) : keeps same_made (on_machine m).
Proof. intros l. unfold on_machine. by destruct (m _). Qed.
Lemma on_service_made {A} (m : M Service A) : keeps same_made (on_service m).
Proof. intros l. unfold on_service. by destruct (m _). Qed.
Lemma or_undo_keeps {St A} (R : St -> St -> Prop) `{!PreOrder R} (u : M St unit) (m : M St A) :
  keeps R u -> keeps R m -> keeps R (or_undo u m).
Proof.
  intros Hu Hm s. unfold or_undo. specialize (Hm s). destruct (m s) as [[a|e] s1]; [done|].
  etrans; [exact Hm|apply Hu].
Qed.
Lemma same_makes P (l l' : Launch) : same_made l l' -> makes P l l'.
Proof. intros Hs. exists []. by rewrite app_nil_r. Qed.
Lemma net_makes (P : StartCall -> Prop) c : P c -> keeps (makes P) (net c).
Proof. intros Hc l. exists [c]. by split; [|constructor]. Qed.
Lemma on_machine_makes P {A} (m : M Machine A) : keeps (makes P) (on_machine m).
Proof. intros l. apply same_makes, on_machine_made. Qed.
Lemma on_service_makes P {A} (m : M Service A) : keeps (makes P) (on_service m).
Proof. intros l. apply same_makes, on_service_made. Qed.

(** What a start calls, where the resources are established. *)
Lemma start_running_makes w url bindings production manifest config f :
  keeps (makes (fun c => production || is_some bindings = true -> creates c = false))
    (start_running (X := X) nkey_options moments w url bindings production manifest config f).
Proof.
  set (P := fun c => _).
  assert (forall c, creates c = false -> P c) as Hc by (intros c Hc _; exact Hc).
  unfold start_running, start_identity, start_admission, start_control, start_controls.
  assert (keeps (makes P) (start_resources (production || is_some bindings))) as Hres.
  { unfold start_resources. destruct (production || is_some bindings) eqn:He;
      (apply keeps_bind; [apply _|apply net_makes|intros _; apply net_makes]); unfold P; by rewrite ?He. }
  repeat (keeps_step || apply on_service_makes || apply net_makes, Hc, eq_refl || exact Hres).
Qed.

(** Everything a start needs locally, with [m] the machine it starts on. *)
Definition local_ok w (home url path : string) (bindings : option Bindings) (f : StartFacts) (m : Machine)
    (production : bool) (config : Config) : Prop :=
  runtime_active m = false /\
  (exists m1, runtime_lock home m = (Ok tt, m1) /\
     load_config (read_file path (fs m1)) (s_now w) = Ok config) /\
  check_transport config (from_lookup (s_env w)) url = Ok tt /\
  (exists callout, new_callout config (secret_of w) (st_instant f) = Ok callout) /\
  (exists key, st_identity f = Ok key /\ public_key key = control_nkey config) /\
  (forall b, bindings = Some b ->
     bindings_validate b = Ok tt /\ euid m = authority_uid b /\ st_lock f = true) /\
  (production = true ->
     rp_success (offline canonical parent (here w m) home path (Some url)) = true /\
     exists manifest, load_manifest home (fs m) = Ok manifest).

Lemma on_machine_Ok {A} (m : M Machine A) l a l' :
  on_machine m l = (Ok a, l') ->
  exists x, m (la_machine l) = (Ok a, x) /\ la_machine l' = x /\ la_service l' = la_service l /\
    la_made l' = la_made l.
Proof. unfold on_machine. destruct (m (la_machine l)) as [r x]. intros [= -> <-]. by exists x. Qed.
Lemma on_service_Ok {A} (m : M Service A) l a l' :
  on_service m l = (Ok a, l') -> m (la_service l) = (Ok a, la_service l') /\ la_machine l' = la_machine l.
Proof. unfold on_service. destruct (m (la_service l)) as [r x]. by intros [= -> <-]. Qed.
Lemma net_Ok c l l' :
  net c l = (Ok tt, l') -> la_service l' = la_service l /\ la_machine l' = la_machine l.
Proof. unfold net. by intros [= _ <-]. Qed.
Lemma runtime_lock_Ok home m m' :
  runtime_lock home m = (Ok tt, m') -> runtime_active m = false /\ euid m' = euid m.
Proof.
  intros Hl. split; [by eapply runtime_lock_idle|].
  pose proof (runtime_lock_adds home m) as [_ He]. by rewrite Hl in He.
Qed.

Lemma start_contract_made w home url path production :
  keeps same_made (start_contract canonical parent w home url path production).
Proof. unfold start_contract. keeps_auto. Qed.
Lemma start_contract_Ok w home url path production l manifest l' :
  start_contract canonical parent w home url path production l = (Ok manifest, l') ->
  l' = l /\ (production = true ->
    rp_success (offline canonical parent (here w (la_machine l)) home path (Some url)) = true /\
    exists m, manifest = Some m /\ load_manifest home (fs (la_machine l)) = Ok m).
Proof.
  unfold start_contract. destruct production; [|intros Hr; inv_ok; done]. intros Hr.
  inv_ok. eauto.
Qed.
Lemma start_local_made w home url path bindings f :
  keeps same_made (start_local w home url path bindings f).
Proof.
  unfold start_local. apply keeps_bind; [apply _|apply on_machine_made|intros _]. keeps_auto.
Qed.
Lemma new_callout_Ok config read now c :
  new_callout config read now = Ok c -> co_config c = config /\ worker c = None.
Proof.
  unfold new_callout. intros Hn. apply rbind_Ok in Hn as (s & _ & Hn).
  apply rbind_Ok in Hn as ([type public] & _ & Hn). inv_ok. by subst.
Qed.
Lemma start_local_Ok w home url path bindings f l callout l' :
  start_local w home url path bindings f l = (Ok callout, l') ->
  la_service l' = la_service l /\ runtime_lock home (la_machine l) = (Ok tt, la_machine l') /\
  load_config (read_file path (fs (la_machine l'))) (s_now w) = Ok (co_config callout) /\
  check_transport (co_config callout) (from_lookup (s_env w)) url = Ok tt /\
  (exists c, new_callout (co_config callout) (secret_of w) (st_instant f) = Ok c) /\
  worker callout = worker_nkey <$> bindings.
Proof.
  unfold start_local. intros Hr. apply bind_Ok in Hr as ([] & l1 & (x & Hl & Hx & Hs & _)%on_machine_Ok & Hr).
  apply bind_Ok in Hr as (m & l2 & [-> ->]%gets_Ok & Hr).
  apply bind_Ok in Hr as (config & l2 & [Hc ->]%lift_Ok & Hr).
  apply bind_Ok in Hr as ([] & l2 & [Ht ->]%lift_Ok & Hr).
  apply bind_Ok in Hr as (capacity & l2 & [_ ->]%lift_Ok & Hr).
  apply bind_Ok in Hr as (c & l2 & [Hn ->]%lift_Ok & Hr). cbv zeta in Hr. subst x.
  assert (co_config c = config /\ worker c = None) as [Hcc Hw].
  { by eapply new_callout_Ok. }
  assert (la_machine l' = la_machine l1 /\ la_service l' = la_service l1 /\ co_config callout = config /\
          worker callout = worker_nkey <$> bindings) as (-> & -> & -> & Hwk).
  { destruct bindings as [b|]; inv_ok; simpl in *; [|by subst].
    unfold with_worker in *. inv_ok. by subst. }
  split_and!; try done. by exists c.
Qed.

Definition same_gate_l (l l' : Launch) : Prop := same_gate (la_service l) (la_service l').
#[local] Instance same_gate_l_preorder : PreOrder same_gate_l.
Proof. unfold same_gate_l. split; [intros l; reflexivity|]. intros l1 l2 l3 ? ?. by etrans. Qed.
Lemma net_gate c : keeps same_gate_l (net c).
Proof. intros l. reflexivity. Qed.
Lemma on_machine_gate {A} (m : M Machine A) : keeps same_gate_l (on_machine m).
Proof. intros l. unfold on_machine. by destruct (m _). Qed.
Lemma on_service_gate {A} (m : M Service A) : keeps same_gate m -> keeps same_gate_l (on_service m).
Proof. intros Hm l. unfold on_service. specialize (Hm (la_service l)). by destruct (m _). Qed.
#[local] Hint Resolve net_gate on_machine_gate : keeps.

Lemma start_running_Err w url bindings production manifest config f l e l' :
  start_running (X := X) nkey_options moments w url bindings production manifest config f l = (Err e, l') ->
  same_gate_l l l'.
Proof.
  intros Hr. unfold start_running in Hr.
  assert (forall {A B} (m : M Launch A) (k : A -> M Launch B) l0, keeps same_gate_l m ->
    bind m k l0 = (Err e, l') -> (forall a l1, k a l1 = (Err e, l') -> same_gate_l l1 l') ->
    same_gate_l l0 l') as Hstep.
  { intros A B m k l0 Hm Hb Hk. specialize (Hm l0). unfold bind in Hb. destruct (m l0) as [[a|e'] l1].
    - etrans; [exact Hm|]. by eapply Hk.
    - by injection Hb as -> <-. }
  unfold start_identity, start_admission, start_control, start_resources, start_controls in Hr.
  repeat (eapply Hstep; [|exact Hr|]; [repeat first [keeps_step|apply on_service_gate, announce_gate
    |apply on_service_gate, restore_state_gate]|clear Hr l; intros ? l Hr]).
  unfold on_service, admit_devices in Hr. discriminate Hr.
Qed.
Lemma start_admission_Ok w config url production f l l' :
  start_admission nkey_options w config url production f l = (Ok tt, l') ->
  la_service l' = la_service l /\ (production = true -> st_max_payload f = MAX_WIRE).
Proof.
  unfold start_admission. intros Hr. apply bind_Ok in Hr as (m & l1 & [_ ->]%gets_Ok & Hr).
  apply bind_Ok in Hr as (o & l1 & [_ ->]%lift_Ok & Hr).
  apply bind_Ok in Hr as ([] & l2 & [E1 _]%net_Ok & Hr).
  apply bind_Ok in Hr as ([] & l3 & Hm & Hr).
  apply bind_Ok in Hr as ([] & l4 & [E2 _]%net_Ok & Hr).
  apply bind_Ok in Hr as ([] & l5 & [E3 _]%net_Ok & [_ ->]%lift_Ok).
  assert (l3 = l2 /\ (production = true -> st_max_payload f = MAX_WIRE)) as [-> ?].
  { destruct production; simpl in Hm; inv_ok; bool_prop; done. }
  split; [congruence|done].
Qed.
Lemma start_control_Ok w url manifest f l l' :
  start_control (X := X) nkey_options w url manifest f l = (Ok tt, l') ->
  la_service l' = la_service l /\
  (forall m, manifest = Some m -> rp_success (inspect_resources (X := X) (st_server f) m (st_denied f)
                                                (st_exchanges f) (st_waits f)) = true).
Proof.
  unfold start_control. intros Hr. apply bind_Ok in Hr as (m & l1 & [_ ->]%gets_Ok & Hr).
  apply bind_Ok in Hr as (o & l1 & [_ ->]%lift_Ok & Hr).
  apply bind_Ok in Hr as ([] & l2 & [E1 _]%net_Ok & Hr).
  destruct manifest as [mf|]; inv_ok; (split; [done|]); [by intros ? [= <-]|done].
Qed.
Lemma start_resources_Ok established l l' :
  start_resources established l = (Ok tt, l') -> la_service l' = la_service l.
Proof.
  unfold start_resources. destruct established; intros Hr;
    apply bind_Ok in Hr as ([] & l1 & [E1 _]%net_Ok & [E2 _]%net_Ok); congruence.
Qed.
Lemma start_controls_Ok separated l l' :
  start_controls separated l = (Ok tt, l') -> la_service l' = la_service l.
Proof.
  unfold start_controls. destruct separated; simpl; intros Hr; apply bind_Ok in Hr as ([] & l1 & Hs & [E2 _]%net_Ok).
  - inv_ok. done.
  - apply bind_Ok in Hs as ([] & l2 & [E1 _]%net_Ok & [E3 _]%net_Ok). congruence.
Qed.
Lemma start_identity_run config f l r l' :
  start_identity config f l = (r, l') ->
  l' = l /\ forall key, r = Ok key -> st_identity f = Ok key /\ public_key key = control_nkey config.
Proof.
  unfold start_identity, bind, lift, ensure, ret. destruct (st_identity f) as [key|e].
  - case_bool_decide; intros [= <- <-]; (split; [done|]); intros ? [=]; by subst.
  - by intros [= <- <-].
Qed.
Lemma start_running_contact w url bindings production manifest config f l r l' :
  start_running (X := X) nkey_options moments w url bindings production manifest config f l = (r, l') ->
  la_made l' <> la_made l -> exists key, st_identity f = Ok key /\ public_key key = control_nkey config.
Proof.
  unfold start_running, bind at 1. intros Hr Hne.
  destruct (start_identity config f l) as [[key|e] l1] eqn:Hk; apply start_identity_run in Hk as [-> Hk]; [eauto|].
  by injection Hr as _ <-.
Qed.
Lemma start_running_Ok w url bindings production manifest config f l l' :
  start_running (X := X) nkey_options moments w url bindings production manifest config f l = (Ok tt, l') ->
  exists key, st_identity f = Ok key /\ public_key key = control_nkey config /\
    startup moments key (la_service l) = (Ok tt, la_service l') /\
    (production = true -> st_max_payload f = MAX_WIRE) /\
    (forall m, manifest = Some m -> rp_success (inspect_resources (X := X) (st_server f) m (st_denied f)
                                                  (st_exchanges f) (st_waits f)) = true).
Proof.
  unfold start_running. intros Hr. apply bind_Ok in Hr as (key & l1 & [-> Hk]%start_identity_run & Hr).
  destruct (Hk _ eq_refl) as [Hid Hpub].
  apply bind_Ok in Hr as ([] & l2 & Ha & Hr). apply start_admission_Ok in Ha as [Es1 Hmax].
  apply bind_Ok in Hr as ([] & l3 & [_ ->]%lift_Ok & Hr).
  apply bind_Ok in Hr as ([] & l3 & [Han _]%on_service_Ok & Hr).
  apply bind_Ok in Hr as ([] & l4 & [Es2 Hm]%start_control_Ok & Hr).
  apply bind_Ok in Hr as ([] & l5 & Es3%start_resources_Ok & Hr).
  apply bind_Ok in Hr as ([] & l6 & [Hrs _]%on_service_Ok & Hr).
  apply bind_Ok in Hr as ([] & l7 & Es4%start_controls_Ok & Hr).
  apply on_service_Ok in Hr as [Had _].
  exists key. split_and!; try done. unfold startup. rewrite <- Es1.
  rewrite (bind_run _ _ _ _ _ Han), <- Es2, <- Es3, (bind_run _ _ _ _ _ Hrs), <- Es4. exact Had.
Qed.

(** The service as a new process finds it. *)
Definition booted (f : StartFacts) (s : Service) : Service :=
  set_sv_calls (st_calls f) false (boot (st_random f) (st_instant f) s).

Lemma serve_inner_makes w home url path bindings f :
  keeps (makes (fun c => is_some bindings = true \/
           (exists tls, from_lookup (s_env w) = Ok tls /\ profile tls = Production) -> creates c = false))
    (serve_inner (X := X) canonical parent parent_dir nkey_options moments w home url path bindings f).
Proof.
  unfold serve_inner. set (P := fun c => _). destruct (from_lookup (s_env w)) as [tls|e]; [|by intros l].
  match goal with |- keeps ?R (bind _ ?k) => change (keeps R (k tls)) end. cbv beta zeta.
  set (production := bool_decide _).
  assert (forall manifest config, keeps (makes P)
    (start_running (X := X) nkey_options moments w url bindings production manifest config f)) as Hrun.
  { intros manifest config l. destruct (start_running_makes w url bindings production manifest config f l)
      as (made & E & Hall). exists made. split; [done|]. revert Hall. apply Forall_impl.
    intros c Hc. unfold P. intros [Hs|(t & [= <-] & Ht)]; apply Hc; [by rewrite Hs, orb_true_r|].
    unfold production. by rewrite bool_decide_eq_true_2. }
  apply keeps_bind; [apply _|intros l; apply same_makes, start_contract_made|intros manifest].
  apply keeps_bind; [apply _|intros l; apply same_makes, start_local_made|intros callout].
  do 2 (apply keeps_bind; [apply _|apply on_service_makes|intros _]).
  apply keeps_bind; [apply _| |intros _; apply keeps_ret, _]. unfold start_bound.
  destruct bindings as [b|]; [|apply Hrun].
  apply keeps_bind; [apply _|apply on_machine_makes|intros _].
  apply or_undo_keeps; [apply _|apply on_machine_makes|apply Hrun].
Qed.

Lemma server_bind_valid free b m m' :
  server_bind parent_dir free b m = (Ok tt, m') ->
  bindings_validate b = Ok tt /\ euid m = authority_uid b /\ free = true.
Proof.
  unfold server_bind. intros Hr. apply bind_Ok in Hr as ([] & m1 & [Hv ->]%lift_Ok & Hr).
  apply bind_Ok in Hr as (m0 & m1 & [-> ->]%gets_Ok & Hr). unfold id in Hr.
  apply bind_Ok in Hr as ([] & m1 & [He ->]%ensure_Ok & Hr).
  apply bind_Ok in Hr as (dir & m1 & [_ ->]%lift_Ok & Hr).
  apply bind_Ok in Hr as ([] & m1 & _ & Hr).
  apply bind_Ok in Hr as ([] & m2 & [Hf _]%authority_lock_Ok & _). bool_prop. done.
Qed.
Lemma start_bound_run w url bindings production manifest config f l r l' :
  start_bound (X := X) parent_dir nkey_options moments w url bindings production manifest config f l = (r, l') ->
  (la_made l' <> la_made l ->
     (exists key, st_identity f = Ok key /\ public_key key = control_nkey config) /\
     (forall b, bindings = Some b -> bindings_validate b = Ok tt /\ euid (la_machine l) = authority_uid b /\
        st_lock f = true)) /\
  (r = Ok tt -> exists key, st_identity f = Ok key /\ public_key key = control_nkey config /\
     startup moments key (la_service l) = (Ok tt, la_service l') /\
     (production = true -> st_max_payload f = MAX_WIRE) /\
     (forall m, manifest = Some m -> rp_success (inspect_resources (X := X) (st_server f) m (st_denied f)
                                                   (st_exchanges f) (st_waits f)) = true)) /\
  (forall e, r = Err e -> same_gate_l l l').
Proof.
  unfold start_bound. destruct bindings as [b|].
  - intros Hr. apply bind_cases in Hr as [(e & Hb & ->)|([] & l1 & Hb & Hr)].
    + pose proof (on_machine_made (server_bind parent_dir (st_lock f) b) l) as Hm.
      pose proof (on_machine_gate (server_bind parent_dir (st_lock f) b) l) as Hg.
      rewrite Hb in Hm, Hg. split_and!; done.
    + apply on_machine_Ok in Hb as (x & Hb & Hx & Hs & Hm). apply server_bind_valid in Hb as (Hv & He & Hf).
      unfold or_undo in Hr.
      destruct (start_running _ _ _ _ _ _ _ _ _ l1) as [r1 l2] eqn:Hrun.
      assert (la_made l' = la_made l2 /\ (forall e, r = Err e -> r1 = Err e /\ same_gate_l l2 l') /\
              (r = Ok tt -> r1 = Ok tt /\ l' = l2)) as (Hm' & Herr & Hok).
      { destruct r1 as [[]|e]; [by injection Hr as <- <-|].
        pose proof (on_machine_made (server_drop b) l2) as Hm2.
        pose proof (on_machine_gate (server_drop b) l2) as Hg2.
        injection Hr as <- <-. split_and!; [done|by intros ? [= <-]|done]. }
      split_and!.
      * intros Hne. split; [|by intros ? [= <-]]. eapply start_running_contact; [exact Hrun|]. congruence.
      * intros ->. destruct (Hok eq_refl) as [-> ->]. apply start_running_Ok in Hrun. by rewrite <- Hs.
      * intros e ->. destruct (Herr e eq_refl) as [-> Hg]. apply start_running_Err in Hrun.
        unfold same_gate_l, same_gate in *. by rewrite Hg, Hrun, Hs.
  - intros Hr. split_and!.
    + intros Hne. split; [|done]. by eapply start_running_contact.
    + intros ->. by eapply start_running_Ok.
    + intros e ->. by eapply start_running_Err.
Qed.

Definition serviced (f : Service -> Service) (l : Launch) : Launch := {|
  la_machine := la_machine l; la_service := f (la_service l); la_made := la_made l;
  la_answers := la_answers l |}.
Lemma on_service_modify f l : on_service (modify f) l = (Ok tt, serviced f l).
Proof. done. Qed.
Lemma ret_run {St A} (a : A) (s : St) r s' : ret a s = (r, s') -> r = Ok a /\ s' = s.
Proof. by intros [= <- <-]. Qed.

(** What a start called, as a list and as a difference. *)
Lemma serve_inner_static w home url path bindings f l :
  let l' := snd (serve_inner (X := X) canonical parent parent_dir nkey_options moments w home url path
                   bindings f l) in
  exists made, la_made l' = la_made l ++ made /\ (made <> [] <-> la_made l' <> la_made l) /\
  (is_some bindings = true \/ (exists tls, from_lookup (s_env w) = Ok tls /\ profile tls = Production) ->
     Forall (fun c => creates c = false) made).
Proof.
  pose proof (serve_inner_makes w home url path bindings f l) as (made & Hmade & Hall).
  exists made. split; [exact Hmade|]. split.
  - cbv zeta. rewrite Hmade. split; intros Hne Heq; apply Hne; [|by rewrite Heq, app_nil_r].
    by apply (app_inv_head (la_made l)); rewrite app_nil_r.
  - intros He. revert Hall. apply Forall_impl. auto.
Qed.
Lemma start_contract_gate w home url path production l r l' :
  start_contract canonical parent w home url path production l = (r, l') ->
  same_gate_l l l' /\ la_made l' = la_made l.
Proof.
  intros Hc. pose proof (start_contract_made w home url path production l) as Hm. rewrite Hc in Hm.
  split; [|exact Hm].
  pose proof (fun m => m : keeps same_gate_l (start_contract canonical parent w home url path production)) as Hk.
  specialize (Hk ltac:(unfold start_contract; keeps_auto) l). by rewrite Hc in Hk.
Qed.
Lemma start_local_gate w home url path bindings f l r l' :
  start_local w home url path bindings f l = (r, l') -> same_gate_l l l' /\ la_made l' = la_made l.
Proof.
  intros Hl. pose proof (start_local_made w home url path bindings f l) as Hm. rewrite Hl in Hm.
  split; [|exact Hm].
  pose proof (fun m => m : keeps same_gate_l (start_local w home url path bindings f)) as Hk.
  specialize (Hk ltac:(unfold start_local; keeps_auto) l). by rewrite Hl in Hk.
Qed.

(** C12. A start goes through its stages, whatever fails. It calls nothing before
    every local prerequisite holds: no other process runs on the home, the
    configuration loads and allows the URL, the callout has its keys, the control
    identity is the configured one, separated roles have valid bindings, the
    authority's account and the lock of its sockets, and in production the
    offline validation succeeds. Separated roles and production look resources up
    and never create one. A start that fails leaves the gate as it found it, or
    shut. A start that succeeds has been through the recovery of the authority on
    the registry and the broker it found, admits the worker of the bindings and
    nobody else as a worker, and in production saw the payload limit and every
    resource of the contract. *)
Theorem start_gated w home url path bindings f l :
  let '(r, l') := serve_inner (X := X) canonical parent parent_dir nkey_options moments w home url path
                    bindings f l in
  exists made, la_made l' = la_made l ++ made /\
  (made <> [] -> exists tls config, from_lookup (s_env w) = Ok tls /\
     local_ok w home url path bindings f (la_machine l) (bool_decide (profile tls = Production)) config) /\
  (is_some bindings = true \/ (exists tls, from_lookup (s_env w) = Ok tls /\ profile tls = Production) ->
     Forall (fun c => creates c = false) made) /\
  match r with
  | Err _ => reconciled (sv_runtime (la_service l')) = true -> same_gate_l l l'
  | Ok callout =>
      worker callout = worker_nkey <$> bindings /\
      (exists key, public_key key = control_nkey (co_config callout) /\
         startup moments key (booted f (la_service l)) = (Ok tt, la_service l')) /\
      (forall tls, from_lookup (s_env w) = Ok tls -> profile tls = Production ->
         st_max_payload f = MAX_WIRE /\
         exists m, load_manifest home (fs (la_machine l)) = Ok m /\
           rp_success (inspect_resources (X := X) (st_server f) m (st_denied f) (st_exchanges f)
                         (st_waits f)) = true)
  end.
Proof.
  destruct (serve_inner _ _ _ _ _ _ _ _ _ _ _ l) as [r l'] eqn:Hr.
  destruct (serve_inner_static w home url path bindings f l) as (made & Hmade & Hcontact & Hstatic).
  rewrite Hr in Hmade, Hcontact. cbn [snd] in Hmade, Hcontact. exists made. split; [exact Hmade|].
  rewrite Hcontact. clear Hcontact Hmade.
  unfold serve_inner in Hr.
  apply bind_cases in Hr as [(e & [_ ->]%lift_Err & ->)|(tls & l1 & [Htls ->]%lift_Ok & Hr)]; [done|].
  cbv zeta in Hr. set (production := bool_decide _) in *.
  apply bind_cases in Hr as [(e & Hc & ->)|(manifest & l1 & Hc & Hr)].
  { apply start_contract_gate in Hc as [Hg Hm]. split_and!; [by intros []|done|done]. }
  apply start_contract_Ok in Hc as [-> Hcon].
  apply bind_cases in Hr as [(e & Hl & ->)|(callout & l1 & Hl & Hr)].
  { apply start_local_gate in Hl as [Hg Hm]. split_and!; [by intros []|done|done]. }
  pose proof Hl as [_ Hm]%start_local_gate.
  apply start_local_Ok in Hl as (Hs1 & Hlock & Hcfg & Htr & Hnew & Hwk).
  rewrite (bind_run _ _ _ _ _ (on_service_modify _ l1)), (bind_run _ _ _ _ _ (on_service_modify _ _)) in Hr.
  set (l2 := serviced _ _) in Hr.
  assert (la_service l2 = booted f (la_service l) /\ la_made l2 = la_made l /\ la_machine l2 = la_machine l1)
    as (Es2 & Em2 & Ek2) by (unfold l2, booted, serviced; cbn; by rewrite Hs1, Hm).
  assert (euid (la_machine l1) = euid (la_machine l) /\ runtime_active (la_machine l) = false) as [Heu Hidle].
  { apply runtime_lock_Ok in Hlock. tauto. }
  assert (forall r0, start_bound (X := X) parent_dir nkey_options moments w url bindings production manifest
    (co_config callout) f l2 = (r0, l') -> la_made l' <> la_made l -> exists tls0 config, Ok tls = Ok tls0 /\
    local_ok w home url path bindings f (la_machine l) (bool_decide (profile tls0 = Production)) config) as Hloc.
  { intros r0 Hb Hne. apply start_bound_run in Hb as [Hb _]. rewrite Em2 in Hb. destruct (Hb Hne) as [Hkey Hbind].
    exists tls, (co_config callout). split; [done|]. rewrite Ek2, Heu in Hbind. split_and!; try done.
    - by exists (la_machine l1).
    - intros Hp. destruct (Hcon Hp) as (? & mf & _ & ?). split; [done|]. by exists mf. }
  rewrite Htls in *.
  apply bind_cases in Hr as [(e & Hb & ->)|([] & l3 & Hb & [-> ->]%ret_run)].
  - split_and!; [by eapply Hloc|done|]. intros Hopen. exfalso. apply start_bound_run in Hb as (_ & _ & Hg).
    specialize (Hg e eq_refl). unfold same_gate_l, same_gate in Hg. rewrite Hopen, Es2 in Hg. done.
  - split_and!; [by eapply Hloc|done|done|..]; apply start_bound_run in Hb as (_ & Hok & _);
      destruct (Hok eq_refl) as (key & _ & Hpub & Hst & Hmax & Hins).
    + exists key. by rewrite <- Es2.
    + intros ? [= <-] Hp. assert (production = true) as Hpr by by apply bool_decide_eq_true_2.
      split; [by apply Hmax|]. destruct (Hcon Hpr) as (_ & mf & -> & Hmf). exists mf. auto.
Qed.
End launch_facts.

(** ** What the audit commands keep *)

Definition on_machines (R : Machine -> Machine -> Prop) (s s' : Stopped) : Prop := R (sp_machine s) (sp_machine s').
Definition on_trails (R : AuthDb -> AuthDb -> Prop) (s s' : Stopped) : Prop := R (sp_db s) (sp_db s').
#[local] Instance on_machines_preorder R `{!PreOrder R} : PreOrder (on_machines R).
Proof. split; [by intros s; unfold on_machines|]. intros s1 s2 s3 ??. unfold on_machines in *. by etrans. Qed.
#[local] Instance on_trails_preorder R `{!PreOrder R} : PreOrder (on_trails R).
Proof. split; [by intros s; unfold on_trails|]. intros s1 s2 s3 ??. unfold on_trails in *. by etrans. Qed.
Lemma on_trail_machine R `{!PreOrder R} {A} (m : M AuthDb A) : keeps (on_machines R) (on_trail m).
Proof. intros s. unfold on_trail, on_machines. by destruct (m _). Qed.
Lemma on_trail_trail R {A} (m : M AuthDb A) : keeps R m -> keeps (on_trails R) (on_trail m).
Proof. intros Hm s. specialize (Hm (sp_db s)). unfold on_trail, on_trails. by destruct (m _). Qed.
Lemma on_files_trail R `{!PreOrder R} {A} io (m : M Disk A) : keeps (on_trails R) (on_files io m).
Proof. intros s. unfold on_files, on_trails. by destruct (m _). Qed.
Section audit_command_facts.
Context `{CapacityFile} `{Json AuditRecord} `{Json AuditTrail.Kind} `{Json AuditTrail.Manifest} `{Pages AuthDb}.
Context (a : AuditDraws).
Definition draws_ok : Prop := draw_ok (fst (fst (ad_draws a))) /\ draw_ok (snd (fst (ad_draws a))) /\
  draw_ok (snd (ad_draws a)).

Lemma at_schema_3 db db' : (AuthDb.schema db = 3 -> audit_extends db db') -> audit_extends db db'.
Proof. intros He Hwf. apply He; [apply Hwf|done]. Qed.
Lemma migrate_extends rows store : keeps audit_extends (migrate rows store).
Proof.
  unfold migrate. apply transaction_extends. intros s. apply at_schema_3. intros Hs.
  unfold bind at 1, gets. rewrite Hs. change (audit_extends s s). reflexivity.
Qed.
Lemma open_trail_extends : keeps audit_extends (open_trail a).
Proof.
  intros db. apply at_schema_3. intros Hs.
  unfold open_trail, open_registry. unfold bind at 1, gets. rewrite Hs.
  change (audit_extends db (snd ((migrate (ad_rows a) (ad_store a) ;;;
    let* cap := lift (load_or_default (ad_policy a)) in check_registry cap ;;; ret cap) db))).
  apply (keeps_bind audit_extends); [apply migrate_extends|intros _].
  assert (forall cap, keeps audit_extends (check_registry cap)) as Hc.
  { intros cap. unfold check_registry, check_database. keeps_auto. }
  apply keeps_bind; [apply _|apply keeps_lift, _|intros cap].
  apply keeps_bind; [apply _|apply Hc|intros _; apply keeps_ret, _].
Qed.



Ltac step_through := first [progress keeps_step | match goal with |- keeps _ (let '_ := ?x in _) => destruct x end].
Lemma export_started_machine : keeps (on_machines eq) (export_started a).
Proof. pose proof (@on_trail_machine eq _). unfold export_started. repeat step_through. Qed.
Lemma export_started_trail : draws_ok -> keeps (on_trails audit_extends) (export_started a).
Proof.
  intros (H1' & H2' & H3'). unfold export_started.
  pose proof (on_trail_trail _ _ open_trail_extends). 
  assert (forall cap, keeps (on_trails audit_extends) (on_trail (audit_export_start cap (fst (fst (ad_draws a))))))
    by (intros; by apply on_trail_trail, audit_export_start_extends).
  assert (forall cap, keeps (on_trails audit_extends) (on_trail (audit_repair cap lost_export (snd (fst (ad_draws a))))))
    by (intros; by apply on_trail_trail, audit_repair_extends).
  repeat step_through.
Qed.

(** What an export may leave under its name: a complete file, of a trail that
    extends the one that was found and that the one left extends. *)
Definition evidence (s s' : Stopped) (store : string) (after upper limit : Z) (node : Node) : Prop :=
  exists db, export_file (Ok db) (euid (sp_machine s)) store after upper limit node /\
    (draws_ok -> audit_extends (sp_db s) db /\ audit_extends db (sp_db s')).
Definition export_ended (registry : result Capacity) (operation : option string) (x : result unit) : M Stopped unit :=
  match registry with
  | Ok cap => on_trail (audit_effect_result cap KExport operation (is_ok x) (snd (ad_draws a)))
  | Err _ => ret tt
  end ;;;
  lift x.
Lemma export_ended_run registry operation x s r s' :
  export_ended registry operation x s = (r, s') ->
  sp_machine s' = sp_machine s /\ (draws_ok -> audit_extends (sp_db s) (sp_db s')) /\ (r = Ok tt -> x = Ok tt).
Proof.
  intros Hrun. split_and!.
  - assert (keeps (on_machines eq) (export_ended registry operation x)) as Hk.
    { pose proof (@on_trail_machine eq _). unfold export_ended. repeat step_through. }
    specialize (Hk s). by rewrite Hrun in Hk.
  - intros (_ & _ & Hd). assert (keeps (on_trails audit_extends) (export_ended registry operation x)) as Hk.
    { assert (forall cap, keeps (on_trails audit_extends)
        (on_trail (audit_effect_result cap KExport operation (is_ok x) (snd (ad_draws a)))))
        by (intros; by apply on_trail_trail, audit_effect_result_extends).
      unfold export_ended. repeat step_through. }
    specialize (Hk s). by rewrite Hrun in Hk.
  - intros ->. by apply bind_Ok in Hrun as (? & ? & _ & [-> _]%lift_Ok).
Qed.
Lemma export_command_run output store after upper limit s r s' :
  export_command a output store after upper limit s = (r, s') ->
  only_files [output; pending_name output] (sp_machine s) (sp_machine s') /\
  (draws_ok -> audit_extends (sp_db s) (sp_db s')) /\
  (fs (sp_machine s) !! output <> None \/ fs (sp_machine s) !! pending_name output <> None ->
     sp_machine s' = sp_machine s /\ is_ok r = false) /\
  (forall node, fs (sp_machine s) !! output = None -> fs (sp_machine s') !! output = Some node ->
     ad_meanwhile a = Some node \/ ad_meanwhile a = None /\ evidence s s' store after upper limit node) /\
  (r = Ok tt -> exists node, evidence s s' store after upper limit node /\
     fs (sp_machine s') = <[output := node]> (fs (sp_machine s))).
Proof.
  unfold export_command. intros Hrun.
  pose proof (export_started_machine s) as Hm. pose proof (fun Hd => export_started_trail Hd s) as Ht.
  unfold bind at 1 in Hrun. destruct (export_started a s) as [[[registry operation]|e] s1] eqn:Hs; cbn [snd] in Hm, Ht;
    unfold on_machines in Hm; unfold on_trails in Ht.
  2: { injection Hrun as <- <-. rewrite <- Hm. split_and!; try done. intros node Hn Hn'. congruence. }
  rewrite (bind_run _ _ _ _ _ (eq_refl : gets sp_db s1 = (Ok (sp_db s1), s1))) in Hrun.
  unfold bind at 1, attempt, on_files in Hrun. rewrite <- Hm in Hrun.
  destruct (export _ _ _ _ _ _ _ _) as [x d] eqn:Hx. apply export_safe in Hx as (Hu & Hsub & Honly & Htaken & Hnode & Hok).
  cbn [dk_fs dk_user] in *.
  apply (export_ended_run registry operation x) in Hrun as (Em & Et & Hx). cbn [sp_machine sp_db] in Em, Et.
  assert (fs (sp_machine s') = dk_fs d) as Ef by (by rewrite Em).
  assert (forall node, export_file (let? _ := ad_file a in Ok (sp_db s1)) (euid (sp_machine s)) store after upper limit node ->
    evidence s s' store after upper limit node) as Hev.
  { intros node (db & Hfile). destruct (ad_file a) as [[]|]; [|by destruct Hfile as (? & ? & ? & ? & [=] & _)].
    exists (sp_db s1). split; [by exists db|]. intros Hd. split; [by apply Ht|by apply Et]. }
  rewrite Ef. split_and!.
  - split; [split; [by rewrite Ef|by rewrite Em]|]. intros p Hp. rewrite Ef. apply Honly; set_solver.
  - intros Hd. etrans; [by apply Ht|by apply Et].
  - intros [Ed Hr]%Htaken. rewrite Em, Ed. split; [by destruct (sp_machine s)|]. destruct r as [[]|e]; [|done].
    by rewrite (Hx eq_refl) in Hr.
  - intros node Hfree Hn. destruct (Hnode node Hfree Hn) as [?|[? Hf]]; [by left|right; auto].
  - intros ->. destruct (Hok (Hx eq_refl)) as (node & Hf & ->). eauto.
Qed.


Definition retention_ok (c : AuditCommand) : Prop :=
  match c with CRetention through => 0 <= through | _ => True end.
(** The names an export may write to. *)
Definition export_names (c : AuditCommand) : list string :=
  match c with CExport output _ _ _ _ => [output; pending_name output] | _ => [] end.
Lemma audit_inspect_eq s : exists r, on_trail (audit_inspect a) s = (r, s).
Proof.
  unfold on_trail, audit_inspect, bind, lift, info. destruct s as [m db], (ad_file a) as [[]|]; cbn; eauto.
Qed.
Lemma trail_command_files c : keeps (on_machines (only_files (export_names c))) (trail_command a c).
Proof.
  pose proof (@on_trail_machine (only_files (export_names c)) _) as Ht.
  assert (forall output store after upper limit, c = CExport output store after upper limit ->
    keeps (on_machines (only_files (export_names c))) (export_command a output store after upper limit)) as He.
  { intros output store after upper limit -> s. destruct (export_command a output store after upper limit s) eqn:Hr.
    by apply export_command_run in Hr as [Hf _]. }
  destruct c; cbn [trail_command]; try specialize (He _ _ _ _ _ eq_refl); repeat step_through.
Qed.
Lemma trail_command_extends c : draws_ok -> retention_ok c -> keeps (on_trails audit_extends) (trail_command a c).
Proof.
  intros Hd Hc. pose proof Hd as (H1' & H2' & H3').
  pose proof (on_trail_trail _ _ open_trail_extends) as Hopen.
  assert (keeps (on_trails audit_extends) (on_trail (audit_inspect a))) as Hi.
  { intros s. destruct (audit_inspect_eq s) as [r ->]. unfold on_trails. reflexivity. }
  assert (keeps (on_trails audit_extends) (on_trail (audit_upgrade a))) as Hu.
  { apply on_trail_trail. unfold audit_upgrade. pose proof open_trail_extends. keeps_auto. }
  assert (forall cap, keeps (on_trails audit_extends) (on_trail (recover cap (fst (fst (ad_draws a))))))
    by (intros; by apply on_trail_trail, recover_extends).
  destruct c as [| | |output store after upper limit|through|through apply_]; cbn [trail_command].
  4: assert (keeps (on_trails audit_extends) (export_command a output store after upper limit)).
  4: { intros s. destruct (export_command a output store after upper limit s) as [r s'] eqn:Hr.
       apply export_command_run in Hr as (_ & Hk & _). by apply Hk. }
  5: assert (forall cap, keeps (on_trails audit_extends) (on_trail (set_retention cap through (fst (fst (ad_draws a))))))
       by (intros; by apply on_trail_trail, set_retention_extends).
  6: assert (keeps (on_trails audit_extends) (on_trail (prune_command a through apply_)))
       by (apply on_trail_trail; intros db; by apply prune_extends).
  all: repeat step_through.
Qed.
Lemma trail_export_run output store after upper limit s r s' :
  trail_command a (CExport output store after upper limit) s = (r, s') ->
  is_ok r = false /\ s' = s \/
  exists x, is_ok r = is_ok x /\ export_command a output store after upper limit s = (x, s').
Proof.
  cbn [trail_command]. destruct (audit_inspect_eq s) as [x Hx]. unfold bind at 1. rewrite Hx.
  destruct x as [i|e]; [|intros [= <- <-]; by left]. intros Hr. right.
  apply bind_cases in Hr as [(e & He & ->)|([] & s1 & He & [= <- <-])].
  - by exists (Err e).
  - by exists (Ok tt).
Qed.
Lemma trail_export_safe lock m1 output store after upper limit s r s' :
  adds_files (sp_machine s) m1 -> (forall p, p <> lock -> fs m1 !! p = fs (sp_machine s) !! p) ->
  trail_command a (CExport output store after upper limit) {| sp_machine := m1; sp_db := sp_db s |} = (r, s') ->
  let files := fs (sp_machine s) in let files' := fs (sp_machine s') in
  (files !! output <> None \/ files !! pending_name output <> None ->
     is_ok r = false /\ forall p, p <> lock -> files' !! p = files !! p) /\
  (forall node, output <> lock -> files !! output = None -> files' !! output = Some node ->
     ad_meanwhile a = Some node \/ ad_meanwhile a = None /\ evidence s s' store after upper limit node) /\
  (is_ok r = true -> exists node, evidence s s' store after upper limit node /\
     files' !! output = Some node /\ files' !! pending_name output = None).
Proof.
  intros [Hlocked Hue] Hsame Hr. cbv zeta.
  apply trail_export_run in Hr as [[Hno ->]|(x & Hx & Hr)]; cbn [sp_machine sp_db] in *.
  { split_and!; [by intros|intros node Hne Hfree; rewrite Hsame by done; congruence|by rewrite Hno]. }
  apply export_command_run in Hr as (_ & _ & Htaken & Hnode & Hok). cbn [sp_machine sp_db] in *. rewrite Hx.
  assert (forall node, evidence {| sp_machine := m1; sp_db := sp_db s |} s' store after upper limit node ->
    evidence s s' store after upper limit node) as Hev by (unfold evidence; cbn; by rewrite Hue).
  assert (forall p : string, fs m1 !! p = None -> fs (sp_machine s) !! p = None) as Hnone.
  { intros p Hp. destruct (fs (sp_machine s) !! p) eqn:Hq; [|done]. by rewrite (lookup_weaken _ _ _ _ Hq Hlocked) in Hp. }
  split_and!.
  - intros Hin. destruct Htaken as [-> ->]; [|by split]. destruct Hin as [Hin|Hin]; [left|right]; auto.
  - intros node Hne Hfree Hn. rewrite <- (Hsame output) in Hfree by done.
    destruct (Hnode node Hfree Hn) as [?|[? ?]]; [by left|right; auto].
  - destruct x as [[]|]; [|done]. intros _. destruct (Hok eq_refl) as (node & He & Ef). exists node.
    split; [auto|]. rewrite Ef, lookup_insert_eq, lookup_insert_ne by apply not_eq_sym, pending_other. split; [done|].
    destruct (fs m1 !! pending_name output) eqn:Hp; [|done]. destruct Htaken as [_ [=]]. by right.
Qed.
End audit_command_facts.

