(* ===== verification/Delivery.v ===== *)
(** * Queueing and delivery

    [crates/epochgrid-core/src/delivery.rs], the client half of
    [authorization/delivery.rs] and the operations of [groups.rs], [rekey.rs]
    and [participants.rs] that change a group: what they change and what they
    queue is one transaction. Then the outbox is flushed: in order, each row
    once more until its acknowledgment is recorded. *)
From stdpp Require Import sorting.
From S2P Require Import Prelude External Wire Capacity Identity Registry Policy KvStore Merkle Transparency Secrets Mls ClientDb IdentityStore Revocation Trust Groups.

(** SQLite's next row ID: one above the largest. *)
Definition max_key {V} (m : gmap Z V) : Z := fold_right Z.max 0 (map fst (map_to_list m)).
Definition next_rowid {V} (m : gmap Z V) : Z := max_key m + 1.

(** [SELECT COUNT, SUM(length(payload)) FROM outbox WHERE sent=0]. *)
Definition pending (m : gmap Z OutboxRow) : list (Z * OutboxRow) := rows (fun _ r => negb (ob_sent r)) m.
Definition sum_bytes (l : list (Z * OutboxRow)) : Z :=
  fold_right Z.add 0 (map (fun '(_, r) => zlen (ob_payload r)) l).

Section delivery.
Context {St : Type} `{Pages (ClientDb St)} `{Mls St} (capacity : Capacity).
Context `{NKeys} `{MlsPackages} `{Seeds} `{Credentials} `{Json SecretRef} `{Base32}
  `{Postcard DeviceRegistration} `{Postcard RecoveryStatus} `{Postcard Envelope}
  `{Postcard RegistrationPayload} `{Postcard Intent} `{Postcard WelcomeRelay}.
Implicit Types (d : ClientDb St).

(** ** The outbox *)

(* @src core/delivery.rs 15-45 queue *)
Definition queue (subject : string) (payload : bytes) : M (ClientDb St) unit :=
  ensure (zlen payload <=? MAX_WIRE) "MLS message exceeds transport limit" ;;;
  let* auto := gets autocommit in
  ensure (negb auto) "outbox insertion requires MLS transaction" ;;;
  let* recovery := gets recovery_budget in
  check_database capacity recovery ;;;
  let* waiting := gets (fun d => pending (outbox (chat d))) in
  let reserve_messages := if recovery then 32 else 0 in
  let reserve_bytes := reserve_messages * MAX_WIRE in
  ensure ((zlen waiting <? pending_messages capacity + reserve_messages)
          && match checked_add64 (sum_bytes waiting) (zlen payload) with
             | Some n => n <=? pending_bytes capacity + reserve_bytes
             | None => false
             end)
    "capacity exhausted: outbox; pending messages retained" ;;;
  let* table := gets (fun d => outbox (chat d)) in
  lift (require (negb (exists_row (fun _ r => bool_decide (ob_payload r = payload)) table))
          SqlConstraint) ;;;
  modify (set_chat (set_outbox (insert (next_rowid table)
    {| ob_subject := subject; ob_payload := payload; ob_sent := false |}))).

(* @src core/authorization/delivery.rs 114-116 dynamic_authorization *)
Definition dynamic_authorization d : result bool :=
  let? r := registration d in Ok (is_ok (user_id_try_from (user_id (payload r)))).

(* @src core/authorization/delivery.rs 117-137 queue_policy *)
Definition queue_policy (g : MlsGroup) : M (ClientDb St) unit :=
  let* r := gets dynamic_authorization in
  let* dynamic := lift r in
  when dynamic (
    let* descriptor := lift (from_mls_id (group_id g)) in
    let* b := lift (to_allocvec {| in_version := 1; in_gid := grp_gid descriptor; in_epoch := g_epoch g;
                                   leaves := map (fun m => (m_index m, m_signature_key m,
                                                            cred_tls (m_credential m))) (g_members g) |}) in
    queue SUBJECT b).

(* @src core/authorization/delivery.rs 138-165 queue_welcome *)
Definition queue_welcome (g : MlsGroup) (recipient : DeviceRegistration) (welcome : bytes)
  : M (ClientDb St) unit :=
  let* r := gets dynamic_authorization in
  let* dynamic := lift r in
  if dynamic : bool then
    let* descriptor := lift (from_mls_id (group_id g)) in
    let* key := store_nkey in
    let* b := lift (to_allocvec {| wr_version := 1; wr_gid := grp_gid descriptor; wr_epoch := g_epoch g;
                                   recipient := nats_public_key (payload recipient);
                                   sender := public_key key; wr_id := 0; wr_payload := welcome;
                                   wr_signature := [] |}) in
    queue RELAY b
  else
    queue ("epochgrid.v1.user." +:+ user_id (payload recipient) +:+ "."
           +:+ device_id (payload recipient) +:+ ".inbox") welcome.

(** ** Changes of a group *)

(** [random] are the sixteen random bytes of the group's subject ID. *)
(* @src core/groups.rs 62-91 create_group *)
Definition create_group (name : string) (random : bytes) (rnd : bytes) : M (ClientDb St) Group :=
  lift (validate_id name) ;;;
  let id := as_bytes ("epochgrid/v1/" +:+ name +:+ "/" +:+ hex_bytes random) in
  let* descriptor := lift (from_mls_id id) in
  let* (signer, credential) := signer in
  transaction capacity (
    insert_group capacity descriptor ;;;
    let* _ := provider (new_group signer id credential rnd) in
    let* r := gets (load_group descriptor) in
    let* g := lift r in
    refresh_coordinator g ;;;
    let* r := gets (load_group descriptor) in
    let* g := lift r in
    queue_policy g ;;;
    ret descriptor).

(** The commit that adds or removes members is merged locally, announced to
    the authority and queued, in this order. *)
Definition publish_commit (descriptor : Group) (g : MlsGroup) (commit : bytes)
  : M (ClientDb St) MlsGroup :=
  let* g := provider (merge_pending_commit g) in
  refresh_coordinator g ;;;
  queue_policy g ;;;
  queue (subject "handshake" descriptor) commit ;;;
  ret g.

(* @src core/delivery.rs 46-93 prepare_invitation *)
Definition prepare_invitation (name : string) (recipient : DeviceRegistration) (rnd : bytes)
  : M (ClientDb St) unit :=
  lift (verify recipient) ;;;
  let* revoked := gets (is_revoked (nats_public_key (payload recipient))) in
  ensure (negb revoked) "cannot invite a revoked device" ;;;
  let* r := gets (group name) in
  let* descriptor := lift r in
  let* (signer, _) := signer in
  let* _ := lift (ok_or (validated_package (mls_key_package (payload recipient))) External) in
  transaction capacity (
    let* r := gets (load_group descriptor) in
    let* g := lift r in
    ensure_can_send g ;;;
    let* leader := gets (coordinator g) in
    ensure (bool_decide (leader = Some (own_leaf g)))
      "only the active group coordinator can add members" ;;;
    let* r := gets registration in
    let* own := lift r in
    ensure (negb (bool_decide (nats_public_key (payload recipient) = nats_public_key (payload own))))
      "cannot invite this device to itself" ;;;
    let* r := gets (members name) in
    let* ms := lift r in
    ensure (negb (bool_decide (user_id (payload recipient) +:+ "/" +:+ device_id (payload recipient) ∈ ms)))
      "device is already a member" ;;;
    let* (commit, welcome) := provider (add_members signer g (mls_key_package (payload recipient)) rnd) in
    let* g := publish_commit descriptor g commit in
    let* encoded := lift (encode (Body.Welcome welcome)) in
    queue_welcome g recipient encoded).

(* @src core/delivery.rs 94-163 accept_welcome *)
Definition accept_welcome (b : bytes) (inviter : DeviceRegistration) : M (ClientDb St) Group :=
  ensure_messaging_identity ;;;
  lift (verify inviter) ;;;
  let* body := lift (decode b) in
  match body with
  | Body.Welcome welcome =>
      let* package := lift (ok_or (validated_package (mls_key_package (payload inviter))) External) in
      transaction capacity (
        let* previous := gets (fun d => welcomes (chat d) !! b) in
        match previous with
        | Some name => let* r := gets (group name) in lift r
        | None =>
            let* message := lift (ok_or (parse_message welcome) External) in
            ensure (Mls.welcome_message message) "expected MLS Welcome" ;;;
            let* staged := provider (stage_welcome welcome) in
            let* (sender_key, sender_credential) := lift (ok_or (sw_sender staged) External) in
            ensure (bool_decide (sender_key = package_signature_key package)
                    && bool_decide (cred_tls sender_credential = package_credential package))
              "Welcome signer is not the expected inviter" ;;;
            ensure (2 <=? sw_members staged) "Welcome must include at least two devices" ;;;
            let* descriptor := lift (from_mls_id (sw_group_id staged)) in
            insert_group capacity descriptor ;;;
            let* coordinators := gets (fun d => group_coordinators (revocations d)) in
            let* coordinators := lift (insert_row (grp_gid descriptor) sender_key coordinators) in
            modify (set_revocations (set_coordinators (fun _ => coordinators))) ;;;
            modify (set_chat (set_join_epochs (update_where
              (fun gid _ => bool_decide (gid = grp_gid descriptor)) (fun _ => sw_epoch staged)))) ;;;
            provider (into_group staged) ;;;
            let* table := gets (fun d => welcomes (chat d)) in
            let* table := lift (insert_row b (grp_name descriptor) table) in
            modify (set_chat (set_welcomes (fun _ => table))) ;;;
            ret descriptor
        end)
  | _ => fail (Anyhow "mailbox message is not a Welcome")
  end.

(** Whether there was something to remove. *)
(* @src core/rekey.rs 66-96 reconcile_revocations *)
Definition reconcile_revocations (name : string) (rnd : bytes) : M (ClientDb St) bool :=
  let* r := gets (group name) in
  let* descriptor := lift r in
  let* r := gets (load_group descriptor) in
  let* g := lift r in
  if negb (is_active g) then ret false else
  let* key := store_nkey in
  let* revoked := gets (is_revoked (public_key key)) in
  if revoked : bool then ret false else
  let* leader := gets (coordinator g) in
  if negb (bool_decide (leader = Some (own_leaf g))) then ret false else
  let* removed := gets (revoked_leaves g) in
  if bool_decide (removed = []) then ret false else
  let* (signer, _) := signer in
  recovery_transaction capacity (
    block_revoked_outbox ;;;
    let* r := gets (load_group descriptor) in
    let* g := lift r in
    let* (commit, welcome) := provider (remove_members signer g removed rnd) in
    ensure (bool_decide (welcome = None)) "removal unexpectedly produced a Welcome" ;;;
    let* _ := publish_commit descriptor g commit in
    ret true).

(** The last member with the identity. *)
Definition member_named (identity : bytes) (ms : list MlsMember) : result (option Z) :=
  fold_left (fun r m =>
    let? target := r in
    let? name := ok_or (cred_identity (m_credential m)) (Anyhow "invalid member credential") in
    Ok (if bool_decide (name = identity) then Some (m_index m) else target)) ms (Ok None).
(* @src core/participants.rs 88-121 remove_member *)
Definition remove_member (name user device : string) (rnd : bytes) : M (ClientDb St) unit :=
  lift (validate_id user) ;;;
  lift (validate_id device) ;;;
  let* r := gets (group name) in
  let* descriptor := lift r in
  let* (signer, _) := signer in
  transaction capacity (
    let* r := gets (load_group descriptor) in
    let* g := lift r in
    ensure_can_send g ;;;
    let* leader := gets (coordinator g) in
    ensure (bool_decide (leader = Some (own_leaf g)))
      "only the active group coordinator can remove members" ;;;
    let* found := lift (member_named (as_bytes (user +:+ "/" +:+ device)) (g_members g)) in
    let* target := lift (ok_or found (Anyhow "device is not a member of this channel")) in
    ensure (negb (target =? own_leaf g)) "coordinator self-removal is not supported" ;;;
    block_group (subject "message" descriptor) ;;;
    let* (commit, welcome) := provider (remove_members signer g [target] rnd) in
    ensure (bool_decide (welcome = None)) "unexpected removal Welcome" ;;;
    let* _ := publish_commit descriptor g commit in
    ret tt).
End delivery.

(** ** Facts about tables

    Tables whose rows are only added or refined, row identifiers that are never
    reused while their row exists, and the rows an update or an insertion leaves
    in a query. *)
(** *** Rows are kept *)

Section kept.
Context {K V : Type} `{Countable K}.
Implicit Types (m : gmap K V) (P : K -> V -> V -> Prop).

(** Every row of [m] is still there in [m'], changed only as [P] allows. *)
Definition table_kept P m m' : Prop :=
  forall k v, m !! k = Some v -> exists v', m' !! k = Some v' /\ P k v v'.

#[global] Instance table_kept_preorder P :
  (forall k, PreOrder (P k)) -> PreOrder (table_kept P).
Proof.
  intros HP. split.
  - intros m k v Hv. by exists v.
  - intros a b c Hab Hbc k v Hv. destruct (Hab k v Hv) as (v1 & Hv1 & P1).
    destruct (Hbc k v1 Hv1) as (v2 & Hv2 & P2). exists v2. split; [done|]. by etrans.
Qed.

Context P `{!forall k, PreOrder (P k)}.

Lemma table_kept_insert k v m : m !! k = None -> table_kept P m (<[k := v]> m).
Proof.
  intros Hk k' v' Hv. exists v'. split; [|done]. rewrite lookup_insert_ne; [done|]. congruence.
Qed.
Lemma table_kept_replace k v w m : m !! k = Some v -> P k v w -> table_kept P m (<[k := w]> m).
Proof.
  intros Hk HP k' v' Hv. destruct (decide (k = k')) as [<-|Hne].
  - rewrite lookup_insert_eq. simplify_eq. by exists w.
  - rewrite lookup_insert_ne by done. exists v'. by split.
Qed.
Lemma table_kept_update p f m :
  (forall k v, m !! k = Some v -> p k v = true -> P k v (f v)) ->
  table_kept P m (update_where p f m).
Proof.
  intros Hf k v Hv. rewrite lookup_update_where, Hv. eexists. split; [reflexivity|].
  destruct (p k v) eqn:?; [by apply Hf|done].
Qed.
Lemma table_kept_insert_ignore k v m : table_kept P m (insert_ignore k v m).
Proof.
  unfold insert_ignore. destruct (m !! k) eqn:Hk; [reflexivity|by apply table_kept_insert].
Qed.
Lemma table_kept_insert_row k v m m' : insert_row k v m = Ok m' -> table_kept P m m'.
Proof. intros [Hk ->]%insert_row_Ok. by apply table_kept_insert. Qed.
End kept.

Lemma table_kept_weaken {K V} `{Countable K} (P Q : K -> V -> V -> Prop) m m' :
  (forall k v v', P k v v' -> Q k v v') -> table_kept P m m' -> table_kept Q m m'.
Proof. intros Hi Hk k v Hv. destruct (Hk k v Hv) as (v' & ? & ?). eauto. Qed.

(** *** Row identifiers *)

Lemma max_key_ge {V} (m : gmap Z V) k v : m !! k = Some v -> k <= max_key m.
Proof.
  intros Hk. unfold max_key. apply elem_of_map_to_list, list_elem_of_In, (in_map fst), list_elem_of_In in Hk.
  simpl in Hk. revert Hk.
  induction (map fst (map_to_list m)) as [|x l IH]; simpl; [by intros ?%elem_of_nil|].
  intros [->|Hk]%elem_of_cons; [lia|]. specialize (IH Hk). lia.
Qed.
Lemma next_rowid_fresh {V} (m : gmap Z V) : m !! next_rowid m = None.
Proof.
  destruct (m !! next_rowid m) eqn:Hk; [|done]. apply max_key_ge in Hk. unfold next_rowid in Hk. lia.
Qed.
Lemma next_rowid_above {V} (m : gmap Z V) k v : m !! k = Some v -> k < next_rowid m.
Proof. intros Hk%max_key_ge. unfold next_rowid. lia. Qed.
Lemma max_key_nonneg {V} (m : gmap Z V) : 0 <= max_key m.
Proof. unfold max_key. induction (map fst (map_to_list m)); simpl; lia. Qed.

(** *** Queries *)

Section queries.
Context {K V : Type} `{Countable K}.
Implicit Types (m : gmap K V) (p q : K -> V -> bool).

Lemma rows_NoDup p m : NoDup (rows p m).
Proof. unfold rows. apply NoDup_ListNoDup, List.NoDup_filter, NoDup_ListNoDup, NoDup_map_to_list. Qed.
Lemma rows_keys_NoDup p m : NoDup (map fst (rows p m)).
Proof.
  apply (NoDup_fmap_fst (rows p m)); [|apply rows_NoDup].
  intros k v v' [Hv _]%elem_of_rows [Hv' _]%elem_of_rows. congruence.
Qed.
Lemma rows_perm p q m m' :
  (forall k v, m' !! k = Some v /\ p k v = true <-> m !! k = Some v /\ q k v = true) ->
  rows p m' ≡ₚ rows q m.
Proof.
  intros Heq. apply NoDup_Permutation; [apply rows_NoDup..|]. intros [k v].
  by rewrite !elem_of_rows.
Qed.
Lemma rows_insert p k v m :
  m !! k = None -> rows p (<[k := v]> m) ≡ₚ (if p k v then [(k, v)] else []) ++ rows p m.
Proof.
  intros Hk. destruct (p k v) eqn:Hp; simpl.
  - apply NoDup_Permutation; [apply rows_NoDup| |].
    + constructor; [|apply rows_NoDup]. rewrite elem_of_rows. by intros [? _]; simplify_eq.
    + intros [k' v']. rewrite elem_of_cons, !elem_of_rows, lookup_insert_Some.
      split; [intros [[[<- <-]|[Hne Hv]] Hp'] | intros [[= -> ->]|[Hv Hp']]]; auto.
      split; [|done]. right. split; [congruence|done].
  - apply rows_perm. intros k' v'. rewrite lookup_insert_Some.
    split; [intros [[[<- <-]|[Hne Hv]] Hp']; [congruence|done] | intros [Hv Hp']].
    split; [|done]. right. split; [congruence|done].
Qed.
Lemma rows_filter p q m : rows (fun k v => p k v && q k v) m ≡ₚ List.filter (fun '(k, v) => q k v) (rows p m).
Proof.
  apply NoDup_Permutation; [apply rows_NoDup| |].
  - apply NoDup_ListNoDup, List.NoDup_filter, NoDup_ListNoDup, rows_NoDup.
  - intros [k v]. pose proof (List.filter_In (fun '(k, v) => q k v) (k, v) (rows p m)) as Hf.
    rewrite <- !list_elem_of_In, elem_of_rows in Hf. rewrite Hf, elem_of_rows, andb_true_iff. tauto.
Qed.
Lemma count_rows_le_1 p m k v k' v' :
  count_rows p m <= 1 -> m !! k = Some v -> p k v = true -> m !! k' = Some v' -> p k' v' = true ->
  k = k'.
Proof.
  intros Hc Hk Hp Hk' Hp'.
  assert ((k, v) ∈ rows p m) as H1 by (by apply elem_of_rows).
  assert ((k', v') ∈ rows p m) as H2 by (by apply elem_of_rows).
  unfold count_rows, zlen in Hc. destruct (rows p m) as [|x [|y l]]; simpl in Hc; [|..|lia].
  - by apply elem_of_nil in H1.
  - apply list_elem_of_singleton in H1 as <-. apply list_elem_of_singleton in H2. congruence.
Qed.
End queries.

Lemma rows_NoDup_head {K V} `{Countable K} (p : K -> V -> bool) m k v l :
  rows p m = (k, v) :: l -> m !! k = Some v /\ p k v = true.
Proof. intros Hr. apply elem_of_rows. rewrite Hr. by left. Qed.

Lemma filter_length_lt {A} (f : A -> bool) l x :
  x ∈ l -> f x = false -> (length (List.filter f l) < length l)%nat.
Proof.
  induction l as [|y l IH]; [by intros ?%elem_of_nil|]. simpl.
  intros [->|Hx]%elem_of_cons Hf.
  - rewrite Hf. pose proof (List.filter_length_le f l). lia.
  - specialize (IH Hx Hf). destruct (f y); simpl; lia.
Qed.

(** *** The outbox *)

#[global] Instance sum_bytes_proper : Proper ((≡ₚ) ==> eq) sum_bytes.
Proof. intros l l' Hl. unfold sum_bytes. induction Hl as [|[]|[] []|]; simpl in *; lia. Qed.
Lemma sum_bytes_filter f l : 0 <= sum_bytes (List.filter f l) <= sum_bytes l.
Proof.
  unfold sum_bytes. induction l as [|[k r] l IH]; simpl; [lia|].
  pose proof (Zle_0_nat (length (ob_payload r))) as Hr. change (0 <= zlen (ob_payload r)) in Hr.
  destruct (f (k, r)); simpl; lia.
Qed.
Lemma zlen_filter {A} (f : A -> bool) l : zlen (List.filter f l) <= zlen l.
Proof. unfold zlen. apply Nat2Z.inj_le, List.filter_length_le. Qed.
#[global] Instance zlen_proper {A} : Proper ((≡ₚ) ==> eq) (@zlen A).
Proof. intros l l' Hl. unfold zlen. by rewrite Hl. Qed.

(** Marking rows as sent takes them out of the pending ones. *)
Lemma pending_sent p m :
  pending (update_where p (fun r => {| ob_subject := ob_subject r; ob_payload := ob_payload r;
                                       ob_sent := true |}) m)
  ≡ₚ List.filter (fun '(k, r) => negb (p k r)) (pending m).
Proof.
  unfold pending. rewrite <- rows_filter. apply rows_perm. intros k r.
  rewrite lookup_update_where. destruct (m !! k) as [r0|]; simpl; [|naive_solver].
  destruct (p k r0) eqn:Hp; split; intros [[= <-] Hs]; simpl in *; [done|..].
  - rewrite Hp, andb_false_r in Hs. done.
  - by rewrite Hs, Hp.
  - apply andb_prop in Hs as [Hs _]. done.
Qed.
Lemma pending_insert k r m :
  m !! k = None -> ob_sent r = false -> pending (<[k := r]> m) ≡ₚ (k, r) :: pending m.
Proof. intros Hk Hs. unfold pending. rewrite rows_insert by done. by rewrite Hs. Qed.
