(* ===== verification/RecoveryFacts.v ===== *)
(** * Properties of recovery

    The secret and the package round-trip, restoring overwrites nothing, and
    what a restored home has of the exported one: its credential and all of its
    trust evidence, and no group, message or MLS secret. *)
From stdpp Require Import sorting.
From S2P Require Import Prelude External Wire Capacity AuditTrail Identity KvStore Merkle Transparency Secrets Mls ClientDb IdentityStore Revocation Trust Groups Delivery Recovery.

(** ** The secret's text *)

Lemma from_hex_upper k : from_hex (hex_bytes_upper k) = Ok k.
Proof.
  induction k as [|b k IH]; [done|]. simpl. rewrite IH. by destruct b.
Qed.
Lemma hex_upper_digits k : string_all is_ascii_hexdigit (hex_bytes_upper k) = true.
Proof. induction k as [|b k IH]; [done|]. simpl. rewrite IH. by destruct b. Qed.
Lemma slen_hex_upper k : slen (hex_bytes_upper k) = 2 * zlen k.
Proof. unfold slen, zlen. induction k as [|b k IH]; [done|]. simpl in *. lia. Qed.

Lemma as_bytes_app a b : as_bytes (a +:+ b) = as_bytes a ++ as_bytes b.
Proof.
  induction a as [|c a IH]; [done|].
  change (byte_of_ascii c :: as_bytes (a +:+ b) = byte_of_ascii c :: as_bytes a ++ as_bytes b).
  by rewrite IH.
Qed.

(** Visible ASCII bytes are characters of their own. *)
Definition visible (b : Byte.byte) : Prop := (33 <= Byte.to_N b <= 126)%N.
Lemma utf8_chunks_ascii l :
  Forall (fun b => Byte.to_N b <= 127)%N l ->
  utf8_chunks (length l) l = map (fun b => (Some (Byte.to_N b), [b])) l.
Proof.
  induction 1 as [|b l Hb Hl IH]; [done|]. simpl.
  assert (in_range 0 127 b = true) as ->.
  { unfold in_range, byte_val. apply andb_true_iff. split; apply N.leb_le; lia. }
  simpl. by rewrite drop_0, IH.
Qed.
Lemma visible_kept b l r : visible b -> drop_whitespace ((Some (Byte.to_N b), r) :: l) = (Some (Byte.to_N b), r) :: l.
Proof.
  intros Hb. simpl. assert (is_whitespace (Byte.to_N b) = false) as ->; [|done].
  unfold is_whitespace, visible in *.
  repeat (apply orb_false_iff; split); first [apply andb_false_iff; rewrite !N.leb_gt; lia | apply N.eqb_neq; lia].
Qed.
Lemma trim_line l :
  l <> [] -> Forall visible l -> trim (string_of_bytes (l ++ [x0a])) = string_of_bytes l.
Proof.
  intros Hne Hl. unfold trim, as_bytes, string_of_bytes.
  rewrite String.list_byte_of_string_of_list_byte. unfold utf8_pieces. rewrite utf8_chunks_ascii.
  2: { apply Forall_app; split; [|by repeat constructor].
       eapply list.Forall_impl; [exact Hl|]. unfold visible. intros; lia. }
  set (f := fun b : Byte.byte => (Some (Byte.to_N b), [b])).
  assert (forall k r, k <> [] -> Forall visible k ->
    drop_whitespace (map f (k ++ r)) = map f (k ++ r)) as Hkeep.
  { intros [|x k] r Hk Hv; [done|]. inversion_clear Hv. by apply visible_kept. }
  rewrite Hkeep, <- List.map_rev, rev_app_distr by done.
  change (drop_whitespace (map f (rev [x0a] ++ rev l))) with (drop_whitespace (map f (rev l))).
  rewrite <- (app_nil_r (rev l)), Hkeep, app_nil_r, <- List.map_rev, rev_involutive.
  - f_equal. clear. induction l as [|x k IH]; [done|]. simpl. by f_equal.
  - intros Hr. apply Hne. by rewrite <- (rev_involutive l), Hr.
  - by apply List.Forall_rev.
Qed.

Lemma hex_upper_visible k : Forall visible (as_bytes (hex_bytes_upper k)).
Proof.
  induction k as [|b k IH]; [constructor|]. simpl hex_bytes_upper.
  constructor; [|constructor; [|exact IH]]; unfold visible; by destruct b.
Qed.

(** The text of a secret is read back as the secret. *)
Lemma secret_parse_encode k : zlen k = 32 -> secret_parse (secret_encode k) = Ok k.
Proof.
  intros Hk. unfold secret_parse, secret_encode.
  assert (trim ("EG1-" +:+ hex_bytes_upper k +:+ String (ascii_of_N 10) EmptyString)
          = "EG1-" +:+ hex_bytes_upper k) as ->.
  { set (l := as_bytes ("EG1-" +:+ hex_bytes_upper k)).
    assert ("EG1-" +:+ hex_bytes_upper k = string_of_bytes l) as ->
      by (symmetry; apply String.string_of_list_byte_of_string).
    assert ("EG1-" +:+ hex_bytes_upper k +:+ String (ascii_of_N 10) EmptyString
            = string_of_bytes (l ++ [x0a])) as ->.
    { rewrite <- (String.string_of_list_byte_of_string (_ +:+ _ +:+ _)). unfold string_of_bytes. f_equal.
      unfold l. fold (as_bytes ("EG1-" +:+ hex_bytes_upper k +:+ String (ascii_of_N 10) EmptyString)).
      by rewrite !as_bytes_app, <- app_assoc. }
    apply trim_line; [done|]. subst l. repeat (constructor; [by split|]). apply hex_upper_visible. }
  assert (strip_prefix "EG1-" ("EG1-" +:+ hex_bytes_upper k) = Some (hex_bytes_upper k)) as -> by done.
  cbn [ok_or rbind]. rewrite slen_hex_upper, Hk, hex_upper_digits. apply from_hex_upper.
Qed.

(** ** The package *)

(** AES-256-GCM appends a tag of 16 bytes. *)
Definition aead_tag_law `{Aead} : Prop :=
  forall key text nonce aad c, aead_encrypt key text nonce aad = Some c -> zlen c = zlen text + 16.

Section package.
Context `{NKeys} `{MlsPackages} `{Seeds} `{Sha256} `{Aead} `{Postcard Envelope}
  `{Postcard RegistrationPayload} `{Postcard FingerprintTuple} `{Postcard RecoveryArchive}.

Lemma seal_archive_Ok a random nonce package secret :
  seal_archive a random nonce = Ok (package, secret) ->
  archive_validate a = Ok tt /\ random = Ok secret /\
  exists plaintext n c, to_allocvec a = Ok plaintext /\ nonce = Ok n /\
    zlen plaintext <= MAX_PACKAGE - zlen HEADER - NONCE_LEN - 16 /\
    aead_encrypt secret plaintext n HEADER = Some c /\ package = HEADER ++ n ++ c.
Proof.
  unfold seal_archive. intros Hs. apply rbind_Ok in Hs as ([] & Hv & Hs).
  apply rbind_Ok in Hs as (p & Hp & Hs). apply rbind_Ok in Hs as ([] & Hl%check_Ok & Hs).
  apply rbind_Ok in Hs as (k & Hk & Hs). apply rbind_Ok in Hs as (n & Hn & Hs).
  apply rbind_Ok in Hs as (c & Hc%ok_or_Ok & Hs). bool_prop.
  assert (package = HEADER ++ n ++ c /\ secret = k) as [-> ->] by (split; congruence).
  split; [done|]. split; [done|]. exists p, n, c. by split_and!.
Qed.

(** A sealed archive opens under its secret. *)
Lemma decrypt_sealed a random nonce package secret :
  aead_law -> aead_tag_law -> postcard_law a ->
  (forall n, nonce = Ok n -> length n = Z.to_nat NONCE_LEN) ->
  seal_archive a random nonce = Ok (package, secret) -> decrypt package secret = Ok a.
Proof.
  intros Haead Htag (b & Hb & Hback) Hn (Hv & _ & p & n & c & Hp & -> & Hlen & Hc & ->)%seal_archive_Ok.
  specialize (Hn _ eq_refl). specialize (Htag _ _ _ _ _ Hc). specialize (Haead _ _ _ _ _ Hc).
  rewrite Hb in Hp. assert (b = p) as -> by congruence.
  unfold decrypt, NONCE_LEN, MAX_PACKAGE in *. simpl Z.to_nat in *.
  assert (zlen (HEADER ++ n ++ c) = zlen HEADER + 12 + zlen c) as Hz.
  { unfold zlen. rewrite !length_app, Hn. lia. }
  rewrite Hz, (proj2 (Z.leb_le _ _)), (proj2 (Z.leb_le _ _)) by (unfold zlen in *; lia).
  cbn [andb check rbind]. rewrite take_app_length, bool_decide_eq_true_2 by done.
  cbn [check rbind]. rewrite app_assoc, <- Hn, <- length_app, take_app_length, drop_app_length.
  rewrite drop_app_length, Haead. cbn [ok_or rbind].
  specialize (Hback []). rewrite app_nil_r in Hback. rewrite Hback. cbn [rbind].
  rewrite bool_decide_eq_true_2 by done. cbn [check rbind]. by rewrite Hv.
Qed.
End package.

(** ** The tables of a restored home *)

Section home.
Context `{NKeys} `{MlsPackages} `{Seeds} `{Credentials} `{Sha256} `{Aead} `{Json SecretRef}
  `{Postcard Envelope} `{Postcard RegistrationPayload} `{Postcard DeviceRegistration}
  `{Postcard FingerprintTuple} `{Postcard RecoveryArchive} `{Postcard RecoveryStatus}
  `{Postcard Checkpoint}.
Context {St : Type} `{Pages (ClientDb St)} `{Mls St} (capacity : Capacity).
Context {V : Type} `{BackendLaws V}.
Implicit Types (d : ClientDb St).

Definition trust_entry (t : DeviceTrust) : (string * string) * TrustRow :=
  ((dt_user t, dt_device t),
   {| pinned := dt_fingerprint t; latest := dt_latest t; trust_state := dt_state t |}).
Definition revoked_entry (r : RevokedDevice) : string * RevokedRow :=
  (rd_nkey r, {| rv_user := rd_user r; rv_device := rd_device r; rv_mls_key := rd_mls_key r;
                 rv_cutoff := rd_cutoff r |}).
Definition known_state (s : string) : Prop := s ∈ ["unverified"; "verified"; "changed"].

Lemma insert_trusts l d :
  NoDup (map fst (map trust_entry l)) ->
  (forall t, t ∈ l -> device_trust_t (trust d) !! fst (trust_entry t) = None) ->
  Forall (fun t => known_state (dt_state t)) l ->
  for_each l insert_trust d
    = (Ok tt, set_trust (set_device_trust (union (list_to_map (map trust_entry l)))) d).
Proof.
  revert d. induction l as [|t l IH]; intros d Hnd Hfresh Hst.
  { unfold set_trust, set_device_trust. simpl. rewrite (left_id_L ∅ (∪)). by destruct d as [? []]. }
  inversion_clear Hnd as [|? ? Hk Hnd']. inversion_clear Hst as [|? ? Hs Hst'].
  cbn [for_each]. erewrite bind_run.
  2: { unfold insert_trust. unfold bind, gets, lift, modify, device_trust.
       assert (device_trust_t (trust d) !! (dt_user t, dt_device t) = None) as ->
         by (apply (Hfresh t); left).
       simpl. rewrite bool_decide_eq_true_2 by done. done. }
  rewrite IH; [| done | | done].
  - unfold set_trust, set_device_trust. simpl. rewrite <- insert_union_r; [by rewrite insert_union_l|].
    by apply not_elem_of_list_to_map_1.
  - intros t' Ht'. simpl. rewrite lookup_insert_ne; [by apply Hfresh; right|].
    intros He. apply Hk. rewrite He.
    apply list_elem_of_In, (in_map fst (map trust_entry l) (trust_entry t')), in_map.
    by apply list_elem_of_In.
Qed.

Lemma insert_revokeds l d :
  NoDup (map rd_nkey l) -> (forall r, r ∈ l -> is_revoked (rd_nkey r) d = false) ->
  for_each l insert_revoked_row d
    = (Ok tt, set_revocations (set_revoked (fun rs => rs ++ map revoked_entry l)) d).
Proof.
  revert d. induction l as [|r l IH]; intros d Hnd Hfresh.
  { unfold set_revocations, set_revoked. simpl. rewrite app_nil_r. by destruct d as [? ? []]. }
  inversion_clear Hnd as [|? ? Hk Hnd']. cbn [for_each]. erewrite bind_run.
  2: { unfold insert_revoked_row, bind, gets, lift, modify. rewrite (Hfresh r) by left. done. }
  rewrite IH; [|done|].
  - unfold set_revocations, set_revoked. simpl. by rewrite <- app_assoc.
  - intros r' Hr'. unfold is_revoked. simpl. rewrite existsb_app. simpl.
    pose proof (Hfresh r' ltac:(by right)) as Hf. unfold is_revoked in Hf. rewrite Hf.
    rewrite bool_decide_eq_false_2; [done|].
    intros He. apply Hk. rewrite He. by apply list_elem_of_In, in_map, list_elem_of_In.
Qed.

(** The rows the exporting home reads back are those of its tables. *)
Lemma trust_rows_entries d :
  list_to_map (map trust_entry (trust_rows d)) = device_trust_t (trust d) /\
  NoDup (map fst (map trust_entry (trust_rows d))).
Proof.
  assert (map trust_entry (trust_rows d) ≡ₚ map_to_list (device_trust_t (trust d))) as Hp.
  { unfold trust_rows. rewrite merge_sort_Permutation, List.map_map.
    rewrite (List.map_ext _ (fun x => x)); [by rewrite List.map_id|by intros [[u dv] []]]. }
  assert (NoDup (map fst (map trust_entry (trust_rows d)))) as Hnd.
  { rewrite Hp. apply NoDup_fst_map_to_list. }
  split; [|done]. rewrite <- (list_to_map_to_list (device_trust_t (trust d))).
  apply list_to_map_proper; done.
Qed.
Lemma revoked_rows_entries d l :
  revoked_rows d = Ok l -> map revoked_entry l ≡ₚ revoked_devices (revocations d).
Proof.
  unfold revoked_rows. intros Hl%rmap_Ok.
  assert (map revoked_entry l = merge_sort by_nkey (revoked_devices (revocations d))) as ->;
    [|apply merge_sort_Permutation].
  revert Hl. generalize (merge_sort by_nkey (revoked_devices (revocations d))). intros k Hl.
  induction Hl as [|[n r] x k l Hx Hl IH]; [done|]. simpl. rewrite IH. f_equal.
  apply rbind_Ok in Hx as (c & Hc & [= <-]). unfold u64_column in Hc.
  destruct (0 <=? _); [|done]. injection Hc as <-. by destruct r.
Qed.

(** ** An empty home *)

Definition empty_home d : Prop := home_rows d = 0.
Lemma opt_count_nonneg {A} (o : option A) : 0 <= opt_count o.
Proof. by destruct o. Qed.
Lemma opt_count_zero {A} (o : option A) : opt_count o = 0 -> o = None.
Proof. by destruct o. Qed.
Lemma table_size_nonneg {K A} `{Countable K} (m : gmap K A) : 0 <= table_size m.
Proof. unfold table_size. lia. Qed.
Lemma zlen_nonneg {A} (l : list A) : 0 <= zlen l.
Proof. unfold zlen. lia. Qed.
(** A home with nothing in it, table by table: no identity or marker of an earlier
    recovery, no trust, no revocation, no group, no message on its way in or out,
    no transcript and no event. *)
Record blank_home d : Prop := {
  blank_identity : local_identity d = None;
  blank_marker : recovery_metadata d = None;
  blank_trust : device_trust_t (trust d) = ∅;
  blank_transparency : transparency_state (trust d) = None;
  blank_alert : trust_alert (trust d) = None;
  blank_revoked : revoked_devices (revocations d) = [];
  blank_checkpoint : revocation_checkpoint_t (revocations d) = None;
  blank_groups : groups_t (chat d) = ∅;
  blank_outbox : outbox (chat d) = ∅;
  blank_welcomes : welcomes (chat d) = ∅;
  blank_received : received (chat d) = ∅;
  blank_deliveries : chat_deliveries (chat d) = ∅;
  blank_transcript : transcript (chat d) = ∅;
  blank_attachments : attachments_t (events d) = ∅;
  blank_receipt_messages : receipt_messages (events d) = ∅;
  blank_receipts : device_receipts (events d) = ∅;
  blank_events : message_events (events d) = ∅;
  blank_participants : participant_events (events d) = ∅;
}.
Lemma table_size_zero {K A} `{Countable K} (m : gmap K A) : table_size m = 0 -> m = ∅.
Proof. unfold table_size. intros Hz. apply map_size_empty_inv. lia. Qed.
Lemma zlen_zero {A} (l : list A) : zlen l = 0 -> l = [].
Proof. unfold zlen. intros Hz. apply length_zero_iff_nil. lia. Qed.
Lemma gset_size_zero {K} `{Countable K} (X : gset K) : Z.of_nat (size X) = 0 -> X = ∅.
Proof. intros Hz. apply leibniz_equiv, size_empty_inv. lia. Qed.
(** A sum of counts is zero only when each is. *)
Lemma count_zero a b : 0 <= a -> 0 <= b -> a + b = 0 <-> a = 0 /\ b = 0.
Proof. lia. Qed.
Ltac counts_nonneg := repeat apply Z.add_nonneg_nonneg;
  auto using opt_count_nonneg, table_size_nonneg, zlen_nonneg, Nat2Z.is_nonneg.
Lemma empty_home_blank d : empty_home d <-> blank_home d.
Proof.
  unfold empty_home, home_rows. split.
  - intros Hz. repeat (apply count_zero in Hz as [Hz ?]; [|counts_nonneg..]).
    split; by auto using opt_count_zero, table_size_zero, zlen_zero, gset_size_zero.
  - intros [-> -> -> -> -> -> -> -> -> -> -> -> -> -> -> -> -> ->]. reflexivity.
Qed.
Lemma empty_home_tables d :
  empty_home d ->
  local_identity d = None /\ recovery_metadata d = None /\
  trust d = {| device_trust_t := ∅; transparency_state := None; trust_alert := None |} /\
  revoked_devices (revocations d) = [] /\ revocation_checkpoint_t (revocations d) = None /\
  groups_t (chat d) = ∅.
Proof.
  intros [?]%empty_home_blank. split_and!; try done. destruct (trust d). simpl in *. by subst.
Qed.

Lemma home_rows_begun d : home_rows (set_recovery false (set_cl_autocommit false d)) = home_rows d.
Proof.
  unfold home_rows, set_recovery, set_cl_autocommit.
  cbn [local_identity trust revocations chat events recovery_metadata]. reflexivity.
Qed.

#[local] Opaque home_rows.

(** What restoring writes. *)
Definition restored_db (e : Evidence) (identity : string * bytes) (cp rcp : option bytes)
    (marker : bytes) d : ClientDb St :=
  set_recovery_metadata (Some marker)
  (set_trust (fun _ => {| device_trust_t := list_to_map (map trust_entry (e_devices e));
                          transparency_state := (fun k => (k, cp)) <$> e_directory_key e;
                          trust_alert := e_alert e |})
  (set_revocations (fun t => {| revoked_devices := map revoked_entry (e_revoked e);
                                group_coordinators := group_coordinators t;
                                blocked_outbox := blocked_outbox t; revocation_checkpoint_t := rcp |})
  (set_identity (fun _ => Some identity) d))).

Definition encoded (o : option Checkpoint) (b : option bytes) : Prop :=
  match o, b with
  | None, None => True
  | Some cp, Some b => to_allocvec cp = Ok b
  | _, _ => False
  end.

Lemma archive_validate_Ok a :
  archive_validate a = Ok tt ->
  verify_signature (ra_registration a) = Ok tt /\ is_ok (fingerprint (ra_registration a)) = true /\
  (exists key, from_seed (ra_seed a) = Ok key /\
     public_key key = nats_public_key (payload (ra_registration a))) /\
  Forall (fun t => known_state (dt_state t)) (e_devices (ra_evidence a)) /\
  (e_directory_key (ra_evidence a) = None -> e_checkpoint (ra_evidence a) = None).
Proof.
  unfold archive_validate. intros Hv. apply rbind_Ok in Hv as ([] & _ & Hv).
  apply rbind_Ok in Hv as ([] & Hs & Hv). apply rbind_Ok in Hv as (fp & Hfp & Hv).
  apply rbind_Ok in Hv as (key & Hkey & Hv). apply rbind_Ok in Hv as ([] & Hb%check_Ok & Hv).
  apply rbind_Ok in Hv as ([] & _ & Hv). apply rbind_Ok in Hv as ([] & _ & Hv).
  apply rbind_Ok in Hv as ([] & Ht%rforall_Ok & Hv). apply rbind_Ok in Hv as ([] & _ & Hv).
  apply rbind_Ok in Hv as ([] & Hc%rforall_Ok & _). bool_prop.
  split; [done|]. split; [by rewrite Hfp|]. split; [by exists key|]. split.
  - eapply list.Forall_impl; [exact Ht|]. intros t Hd. unfold trust_validate in Hd. inv_ok. bool_prop.
    unfold known_state. set_solver.
  - intros Hn. destruct (e_checkpoint (ra_evidence a)) as [cp|]; [|done]. simpl in Hc.
    apply Forall_cons_1 in Hc as [Hc _]. unfold checkpoint_validate in Hc. inv_ok. bool_prop. congruence.
Qed.

Lemma insert_directory_run e cp d :
  transparency_state (trust d) = None -> encoded (e_checkpoint e) cp ->
  insert_directory e d
    = (Ok tt, set_trust (fun t => set_transparency (fun o => match e_directory_key e with
                                     | Some k => Some (k, cp) | None => o end) t) d).
Proof.
  intros Hn Henc. unfold insert_directory. destruct (e_directory_key e) as [k|].
  2: { unfold set_transparency. by destruct d as [? []]. }
  unfold bind, lift, gets, modify.
  assert (match e_checkpoint e with None => Ok None
          | Some cp => let? b := to_allocvec cp in Ok (Some b) end = Ok cp) as ->.
  { unfold encoded in Henc. destruct (e_checkpoint e), cp; try done. by rewrite Henc. }
  by rewrite Hn.
Qed.
Lemma insert_revocation_checkpoint_run e rcp d :
  revocation_checkpoint_t (revocations d) = None -> encoded (e_revocation_checkpoint e) rcp ->
  insert_revocation_checkpoint e d
    = (Ok tt, set_revocations (set_revocation_checkpoint rcp) d).
Proof.
  intros Hn Henc. unfold insert_revocation_checkpoint, encoded in *.
  destruct (e_revocation_checkpoint e) as [c|], rcp as [b|]; try done.
  - unfold bind, lift, gets, modify. by rewrite Henc, Hn.
  - unfold set_revocation_checkpoint. rewrite <- Hn. by destruct d as [? ? []].
Qed.
Lemma insert_alert_run e d :
  trust_alert (trust d) = None ->
  insert_alert e d = (Ok tt, set_trust (set_alert (e_alert e)) d).
Proof.
  intros Hn. unfold insert_alert. destruct (e_alert e) as [x|].
  - unfold bind, lift, gets, modify. by rewrite Hn.
  - unfold set_alert. rewrite <- Hn. by destruct d as [? []].
Qed.

Lemma client_db_eq d d' :
  local_identity d = local_identity d' -> trust d = trust d' -> revocations d = revocations d' ->
  chat d = chat d' -> events d = events d' -> mls d = mls d' ->
  recovery_metadata d = recovery_metadata d' -> cached_key d = cached_key d' ->
  recovery_budget d = recovery_budget d' -> cl_autocommit d = cl_autocommit d' ->
  cl_commit_ok d = cl_commit_ok d' -> d = d'.
Proof. destruct d, d'. cbn. intros; by subst. Qed.

(** Into an empty home the inserts violate no constraint. *)
Lemma inserts_run a (status : RecoveryStatus) enc reg cp rcp marker d :
  let e := ra_evidence a in
  empty_home d -> archive_validate a = Ok tt ->
  NoDup (map fst (map trust_entry (e_devices e))) -> NoDup (map rd_nkey (e_revoked e)) ->
  encoded (e_checkpoint e) cp -> encoded (e_revocation_checkpoint e) rcp ->
  to_allocvec status = Ok marker ->
  (insert_identity enc reg ;;;
   for_each (e_devices e) insert_trust ;;;
   insert_directory e ;;;
   insert_revocation_checkpoint e ;;;
   for_each (e_revoked e) insert_revoked_row ;;;
   insert_alert e ;;;
   insert_marker status ;;;
   ret status) d = (Ok status, restored_db e (enc, reg) cp rcp marker d).
Proof.
  intros e He (_ & _ & _ & Hst & _)%archive_validate_Ok Hnd Hndr Hcp Hrcp Hm.
  apply empty_home_tables in He as (Hid & Hrm & Ht & Hrev & Hrc & _).
  erewrite bind_run.
  2: { unfold insert_identity, bind, gets, lift, modify. rewrite Hid. done. }
  erewrite bind_run; [|apply insert_trusts; [done| |done]].
  2: { intros t _. simpl. by rewrite Ht. }
  erewrite bind_run; [|apply (insert_directory_run _ cp); [|done]; simpl; by rewrite Ht].
  erewrite bind_run; [|by apply (insert_revocation_checkpoint_run _ rcp)].
  erewrite bind_run; [|apply insert_revokeds; [done|]].
  2: { intros r _. unfold is_revoked. simpl. by rewrite Hrev. }
  erewrite bind_run; [|apply insert_alert_run; simpl; by rewrite Ht].
  erewrite bind_run.
  2: { unfold insert_marker, bind, gets, lift, modify. rewrite Hm. simpl. rewrite Hrm. done. }
  unfold ret. f_equal. apply client_db_eq; unfold restored_db; cbn; rewrite ?Ht; cbn; try done.
  - unfold set_alert, set_transparency, set_device_trust. cbn. rewrite (right_id_L ∅ (∪)).
    by destruct (e_directory_key e).
  - unfold set_revoked, set_revocation_checkpoint. cbn. by rewrite Hrev.
Qed.

(** ** What restoring leaves alone *)

Definition same_messages d d' : Prop :=
  chat d' = chat d /\ events d' = events d /\ mls d' = mls d /\ cached_key d' = cached_key d /\
  blocked_outbox (revocations d') = blocked_outbox (revocations d) /\
  forall x, local_identity d = Some x -> local_identity d' = Some x.
#[global] Instance same_messages_preorder : PreOrder same_messages.
Proof. split; [by intros d|]. intros a b c (?&?&?&?&?&?) (?&?&?&?&?&?). split_and!; try congruence. auto. Qed.
Definition admin_only (h h' : Home (St := St) (V := V)) : Prop :=
  same_messages (h_db h) (h_db h') /\ vault_le (h_vault h) (h_vault h').
#[global] Instance admin_only_preorder : PreOrder admin_only.
Proof. split; [by intros h|]. intros a b c [] []. split; by etrans. Qed.

Lemma keeps_on_db {A} (m : M (ClientDb St) A) : keeps same_messages m -> keeps admin_only (on_db m).
Proof. intros Hm h. unfold on_db. specialize (Hm (h_db h)). by destruct (m (h_db h)). Qed.
Lemma keeps_on_vault {A} (m : M (VaultState V) A) : keeps vault_le m -> keeps admin_only (on_vault m).
Proof. intros Hm h. unfold on_vault. specialize (Hm (h_vault h)). by destruct (m (h_vault h)). Qed.
Lemma keeps_same_modify f :
  (forall d, chat (f d) = chat d /\ events (f d) = events d /\ mls (f d) = mls d /\
     cached_key (f d) = cached_key d /\ blocked_outbox (revocations (f d)) = blocked_outbox (revocations d) /\
     local_identity (f d) = local_identity d) -> keeps same_messages (modify f).
Proof. intros Hf d. cbn. destruct (Hf d) as (?&?&?&?&?&Hi). split_and!; try done. by rewrite Hi. Qed.
#[local] Hint Extern 2 (keeps same_messages (modify _)) =>
  apply keeps_same_modify; intros; by split_and! : keeps.
(** There is no identity to replace. *)
Lemma insert_identity_keeps enc reg : keeps same_messages (insert_identity enc reg).
Proof.
  intros d. unfold insert_identity, bind, gets, lift, modify. destruct (local_identity d) as [x|] eqn:Hi; cbn; [done|].
  split_and!; try done. by rewrite Hi.
Qed.
Lemma insert_revoked_keeps r : keeps same_messages (insert_revoked_row r).
Proof.
  unfold insert_revoked_row. keeps_auto.
Qed.
Lemma insert_checkpoint_keeps e : keeps same_messages (insert_revocation_checkpoint e).
Proof.
  unfold insert_revocation_checkpoint. keeps_auto.
Qed.
#[local] Hint Resolve insert_identity_keeps insert_revoked_keeps insert_checkpoint_keeps : keeps.
Lemma inserts_keep a (status : RecoveryStatus) enc reg :
  keeps same_messages (
    insert_identity enc reg ;;; for_each (e_devices (ra_evidence a)) insert_trust ;;;
    insert_directory (ra_evidence a) ;;; insert_revocation_checkpoint (ra_evidence a) ;;;
    for_each (e_revoked (ra_evidence a)) insert_revoked_row ;;; insert_alert (ra_evidence a) ;;;
    insert_marker status ;;; ret status).
Proof.
  unfold insert_directory, insert_alert, insert_marker. keeps_all. unfold insert_trust. keeps_auto.
Qed.

(** A transaction over the home undoes the database and only the database. *)
Lemma home_transaction_run {A} (action : M Home A) h r h' :
  home_transaction capacity action h = (r, h') -> keeps admin_only action ->
  admin_only h h' /\
  match r with
  | Ok v => exists h1, action (set_h_db (set_recovery false ∘ set_autocommit false) h) = (Ok v, h1) /\
      h' = set_h_db (set_autocommit true ∘ set_recovery false) h1
  | Err _ => h_db h' = h_db h \/ h_db h' = set_recovery false (h_db h)
  end.
Proof.
  unfold home_transaction. intros Hrun Hk. destruct (autocommit (h_db h)).
  2: { injection Hrun as <- <-. split; [done|by left]. }
  assert (keeps admin_only (let* value := action in on_db (check_database capacity false) ;;; ret value))
    as Hk'.
  { apply keeps_bind; [typeclasses eauto|done|]. intros v. apply keeps_bind; [typeclasses eauto| |done].
    by apply keeps_on_db. }
  set (h0 := set_h_db _ h) in *. specialize (Hk' h0). destruct (bind action _ h0) as [[v|e] h1] eqn:Hb.
  - destruct Hk' as [(Hc & He & Hm & Hck & Hbl & Hid) Hv]. cbn in Hc, He, Hm, Hck, Hbl, Hid, Hv. destruct (commit_ok (h_db h1)).
    + injection Hrun as <- <-. split; [by split_and!|].
      apply bind_Ok in Hb as (x & h2 & Hx & Hb). apply bind_Ok in Hb as ([] & h3 & Hd & Hb).
      apply ret_Ok in Hb as [-> ->]. exists h2. split; [done|].
      unfold on_db, check_database in Hd. cbn in Hd. injection Hd as _ <-. by destruct h2.
    + injection Hrun as <- <-. split; [by split_and!|]. right. simpl. unfold rolled_back.
      rewrite Hck. by destruct (h_db h).
  - destruct Hk' as [(Hc & He & Hm & Hck & Hbl & Hid) Hv]. cbn in Hc, He, Hm, Hck, Hbl, Hid, Hv. injection Hrun as <- <-.
    split; [by split_and!|]. right. simpl. unfold rolled_back. rewrite Hck. by destruct (h_db h).
Qed.

Lemma nonempty_home_refused {A} msg (k : M Home A) (h : Home (St := St) (V := V)) :
  (home_rows (h_db h) =? 0) = false ->
  exists e, (let* count := gets (home_rows ∘ h_db) in ensure (count =? 0) msg ;;; k) h = (Err e, h).
Proof. intros Hn. unfold bind, gets, ensure. cbn [compose]. unfold compose. rewrite Hn. by eexists. Qed.

(** Whatever a restore returns, it touched no message, no credential and no
    identity that was there. *)
Lemma restore_admin a clock lock_free fresh h : admin_only h (snd (restore capacity a clock lock_free fresh h)).
Proof.
  unfold restore.
  do 3 (apply read_then; [apply _|done|intros ? _]).
  match goal with |- admin_only _ (snd (home_transaction _ ?act _)) => set (action := act) end.
  assert (keeps admin_only action) as Hk.
  { unfold action, import. repeat (apply keeps_bind; [typeclasses eauto|auto with keeps|intros ?]);
      [apply keeps_on_vault, vault_ensure_le|apply keeps_on_db, inserts_keep]. }
  destruct (home_transaction capacity action h) as [r h'] eqn:Hr. by apply home_transaction_run in Hr as [Ha _].
Qed.


(** ** What comes back *)

Lemma export_archive_Ok clock d a d1 :
  export_archive clock d = (Ok a, d1) ->
  registration d = Ok (ra_registration a) /\
  e_devices (ra_evidence a) = trust_rows d /\ revoked_rows d = Ok (e_revoked (ra_evidence a)) /\
  e_directory_key (ra_evidence a) = directory_key d /\
  stored_checkpoint d = Ok (e_checkpoint (ra_evidence a)) /\
  revocation_checkpoint d = Ok (e_revocation_checkpoint (ra_evidence a)) /\
  e_alert (ra_evidence a) = trust_alert (trust d).
Proof.
  unfold export_archive. intros Hrun.
  apply bind_Ok in Hrun as ([] & d0 & Hm & Hrun). assert (d0 = d) as ->.
  { unfold ensure_messaging_identity in Hm. inv_ok. done. }
  apply bind_Ok in Hrun as (r & d0 & [-> ->]%gets_Ok & Hrun).
  apply bind_Ok in Hrun as (own & d0 & [Hown ->]%lift_Ok & Hrun).
  apply bind_Ok in Hrun as ([] & d0 & [_ ->]%ensure_Ok & Hrun).
  apply bind_Ok in Hrun as (rv & d0 & [-> ->]%gets_Ok & Hrun).
  apply bind_Ok in Hrun as ([] & d0 & [_ ->]%ensure_Ok & Hrun).
  apply bind_Ok in Hrun as (devices & d0 & [-> ->]%gets_Ok & Hrun).
  apply bind_Ok in Hrun as (r & d0 & [-> ->]%gets_Ok & Hrun).
  apply bind_Ok in Hrun as (revoked & d0 & [Hrev ->]%lift_Ok & Hrun).
  apply bind_Ok in Hrun as (key & d0 & Hkey & Hrun).
  assert (exists k, d0 = set_cached_key k d) as [k ->].
  { unfold store_nkey in Hkey. apply bind_Ok in Hkey as (c & s & [-> ->]%gets_Ok & Hkey).
    destruct (cached_key d) as [k0|] eqn:Hc; inv_ok; [|by eexists].
    exists (Some k0). rewrite <- Hc. by destruct d. }
  apply bind_Ok in Hrun as (now & d2 & [_ ->]%lift_Ok & Hrun).
  apply bind_Ok in Hrun as (r & d2 & [-> ->]%gets_Ok & Hrun).
  apply bind_Ok in Hrun as (ev & d2 & [Hev ->]%lift_Ok & Hrun).
  apply bind_Ok in Hrun as (gs & d2 & _ & [-> _]%ret_Ok). cbn.
  unfold collect_evidence in Hev. apply rbind_Ok in Hev as (cp & Hcp & Hev).
  apply rbind_Ok in Hev as (rcp & Hrcp & Hev). injection Hev as <-. by split_and!.
Qed.

Lemma encoded_exists (o : option Checkpoint) :
  (forall cp, o = Some cp -> postcard_law cp) ->
  exists b, encoded o b /\ forall x, b = Some x -> exists cp, o = Some cp /\ from_bytes x = Ok cp.
Proof.
  intros Hlaw. destruct o as [cp|]; [|by exists None].
  destruct (Hlaw cp eq_refl) as (b & Hb & Hback). exists (Some b). split; [done|].
  intros x [= <-]. exists cp. split; [done|]. unfold from_bytes. specialize (Hback []).
  rewrite app_nil_r in Hback. by rewrite Hback.
Qed.

(** A valid archive restores into an empty home with room. *)
Lemma restore_run a now fp lock_free fresh h reference v' enc reg cp rcp marker :
  let begun := set_recovery false (set_cl_autocommit false (h_db h)) in
  let status := {| exported_at := ra_exported_at a; restored_at := now; rs_fingerprint := fp;
                   rs_groups := ra_groups a |} in
  archive_validate a = Ok tt -> fingerprint (ra_registration a) = Ok fp ->
  empty_home (h_db h) -> autocommit (h_db h) = true -> commit_ok (h_db h) = true ->
  (forall d : ClientDb St, check_database_pure capacity false d = Ok tt) ->
  import "device" User (ra_seed a) lock_free fresh (h_vault h) = (Ok reference, v') ->
  to_json reference = Ok enc -> to_allocvec (ra_registration a) = Ok reg ->
  NoDup (map fst (map trust_entry (e_devices (ra_evidence a)))) ->
  NoDup (map rd_nkey (e_revoked (ra_evidence a))) ->
  encoded (e_checkpoint (ra_evidence a)) cp -> encoded (e_revocation_checkpoint (ra_evidence a)) rcp ->
  to_allocvec status = Ok marker ->
  restore capacity a (Ok now) lock_free fresh h
    = (Ok status,
       {| h_db := set_cl_autocommit true (set_recovery false
                    (restored_db (ra_evidence a) (enc, reg) cp rcp marker begun));
          h_vault := v' |}).
Proof.
  intros begun status Hv Hfp Hempty Hauto Hcommit Hroom Himport Hjson Hreg Hnd Hndr Hcp Hrcp Hm.
  assert (empty_home begun) as Hbegun by (unfold empty_home, begun; rewrite home_rows_begun; exact Hempty).
  unfold restore. rewrite Hv. rewrite (bind_run _ _ _ tt h) by done.
  rewrite (bind_run _ _ _ now h) by done. rewrite Hfp. rewrite (bind_run _ _ _ fp h) by done.
  unfold home_transaction. rewrite Hauto.
  change ((set_h_db (set_recovery false ∘ set_autocommit false)) h)
    with {| h_db := begun; h_vault := h_vault h |}.
  erewrite bind_run.
  2: { erewrite bind_run; [|reflexivity].
       erewrite bind_run; [|unfold ensure, compose; cbn [h_db]; unfold begun; rewrite home_rows_begun;
                            unfold empty_home in Hempty; rewrite Hempty; reflexivity].
       erewrite bind_run; [|unfold on_vault; cbn [h_vault]; rewrite Himport; reflexivity].
       erewrite bind_run; [|unfold lift; rewrite Hjson; reflexivity].
       erewrite bind_run; [|unfold lift; rewrite Hreg; reflexivity].
       unfold on_db. cbn [h_db h_vault].
       pose proof (inserts_run a status enc reg cp rcp marker begun Hbegun Hv Hnd Hndr Hcp Hrcp Hm) as Hi.
       cbv zeta in Hi. fold status begun. rewrite Hi. reflexivity. }
  erewrite bind_run; [|unfold on_db, check_database; cbn [h_db h_vault]; rewrite Hroom; reflexivity].
  cbn [ret h_db h_vault]. change (commit_ok _) with (commit_ok (h_db h)). by rewrite Hcommit.
Qed.

Lemma user_seed s p k :
  kind_public User s = Ok p -> (exists key, from_seed s = Ok key /\ public_key key = k) -> p = k.
Proof.
  intros Hp (key & Hkey & <-). cbn in Hp. unfold from_seed in Hkey.
  destruct (seed_pair s) as [[t q]|]; [|done]. cbn in *. injection Hkey as <-.
  destruct (bool_decide (t = UserKey)); [|done]. by injection Hp as ->.
Qed.
Lemma restored_checkpoint e identity cp rcp marker d :
  encoded (e_checkpoint e) cp ->
  (forall x, cp = Some x -> exists c, e_checkpoint e = Some c /\ from_bytes x = Ok c) ->
  (e_directory_key e = None -> cp = None) ->
  stored_checkpoint (set_cl_autocommit true (set_recovery false
    (restored_db e identity cp rcp marker d))) = Ok (e_checkpoint e).
Proof.
  intros Henc Hback Hdir. unfold stored_checkpoint, encoded in *. cbn.
  destruct (e_directory_key e) as [k|]; cbn.
  - destruct cp as [x|]; [|by destruct (e_checkpoint e)]. destruct (Hback x eq_refl) as (c & -> & ->). done.
  - rewrite (Hdir eq_refl) in Henc. by destruct (e_checkpoint e).
Qed.

(** C39. A recovery package brings back the administration and nothing else. What
    [export_recovery] gives opens again: its secret survives being written down,
    and decrypting the package with it yields the archive. Restoring that into
    an empty home, when the vault takes the credential and there is room,
    succeeds; the home then has the same registration, with the usable
    credential of its key; the same pins, directory key, checkpoints and alert,
    and the same revoked devices; no group; and it refuses to act as a messaging
    identity. *)
Theorem recovery_roundtrip clock random nonce d a d1 package secret clock' now lock_free fresh h
    reference v' encoded_ref :
  export_archive clock d = (Ok a, d1) ->
  export_recovery clock random nonce d = (Ok (package, secret), d1) ->
  zlen secret = 32 -> (forall n, nonce = Ok n -> length n = Z.to_nat NONCE_LEN) ->
  aead_law -> aead_tag_law -> postcard_law a -> postcard_law (ra_registration a) ->
  (forall cp, stored_checkpoint d = Ok (Some cp) \/ revocation_checkpoint d = Ok (Some cp) ->
     postcard_law cp) ->
  (forall s : RecoveryStatus, is_ok (to_allocvec s) = true) ->
  NoDup (map fst (revoked_devices (revocations d))) ->
  empty_home (h_db h) -> autocommit (h_db h) = true -> commit_ok (h_db h) = true ->
  (forall d : ClientDb St, check_database_pure capacity false d = Ok tt) ->
  clock' = Ok now ->
  import "device" User (ra_seed a) lock_free fresh (h_vault h) = (Ok reference, v') ->
  to_json reference = Ok encoded_ref ->
  secret_parse (secret_encode secret) = Ok secret /\ decrypt package secret = Ok a /\
  exists status h', restore capacity a clock' lock_free fresh h = (Ok status, h') /\ h_vault h' = v' /\
    registration (h_db h') = registration d /\
    (exists text, read_with reference (keyring v') = Ok text /\
       kind_public User text = Ok (nats_public_key (payload (ra_registration a)))) /\
    device_trust_t (trust (h_db h')) = device_trust_t (trust d) /\
    directory_key (h_db h') = directory_key d /\ stored_checkpoint (h_db h') = stored_checkpoint d /\
    revocation_checkpoint (h_db h') = revocation_checkpoint d /\
    revoked_devices (revocations (h_db h')) ≡ₚ revoked_devices (revocations d) /\
    trust_alert (trust (h_db h')) = trust_alert (trust d) /\ groups (h_db h') = [] /\
    is_ok (fst (ensure_messaging_identity (h_db h'))) = false.
Proof.
  intros Harch Hexp Hlen Hnonce Haead Htag Hlaw Hrlaw Hcplaw Hstatus Hpk Hempty Hauto Hcommit Hroom
    -> Himport Hjson.
  unfold export_recovery in Hexp. rewrite (bind_run _ _ _ _ _ Harch) in Hexp.
  apply lift_Ok in Hexp as [Hseal _]. split; [by apply secret_parse_encode|].
  split; [by eapply decrypt_sealed|].
  pose proof (seal_archive_Ok _ _ _ _ _ Hseal) as (Hv & _).
  apply export_archive_Ok in Harch as (Hreg & Hdev & Hrev & Hdir & Hcp & Hrcp & Halert).
  pose proof (archive_validate_Ok _ Hv) as (_ & Hfp & (key & Hkey & Hkpub) & _ & Hdircp).
  destruct (fingerprint (ra_registration a)) as [fp|] eqn:Hfpe; [clear Hfp|done].
  destruct (encoded_exists (e_checkpoint (ra_evidence a))) as (cpb & Hcpb & Hcpback).
  { intros cp Hx. apply Hcplaw. left. by rewrite Hcp, Hx. }
  destruct (encoded_exists (e_revocation_checkpoint (ra_evidence a))) as (rcpb & Hrcpb & Hrcpback).
  { intros cp Hx. apply Hcplaw. right. by rewrite Hrcp, Hx. }
  destruct Hrlaw as (rb & Hrb & Hrback). specialize (Hrback []). rewrite app_nil_r in Hrback.
  set (status := {| exported_at := ra_exported_at a; restored_at := now; rs_fingerprint := fp;
                    rs_groups := ra_groups a |}).
  destruct (to_allocvec status) as [marker|] eqn:Hm; [|specialize (Hstatus status); by rewrite Hm in Hstatus].
  destruct (trust_rows_entries d) as [Htrust Hnd]. rewrite <- Hdev in Htrust, Hnd.
  pose proof (revoked_rows_entries _ _ Hrev) as Hperm.
  assert (NoDup (map rd_nkey (e_revoked (ra_evidence a)))) as Hndr.
  { replace (map rd_nkey (e_revoked (ra_evidence a)))
      with (map fst (map revoked_entry (e_revoked (ra_evidence a)))) by (by rewrite List.map_map).
    by rewrite Hperm. }
  eexists status, _.
  split; [exact (restore_run a now fp lock_free fresh h reference v' encoded_ref rb cpb rcpb marker
            Hv Hfpe Hempty Hauto Hcommit Hroom Himport Hjson Hrb Hnd Hndr Hcpb Hrcpb Hm)|].
  pose proof (empty_home_tables _ Hempty) as (_ & _ & _ & _ & _ & Hgroups).
  cbn. split; [done|]. split_and!.
  - rewrite Hreg. unfold registration, from_bytes. cbn. by rewrite Hrback.
  - unfold import in Himport. destruct (vault_provisions _ _ _ _ _ _ _ _ _ Himport)
      as (Hk & (text & Htext & Hpub) & _ & Himp). exists text. split; [exact Htext|].
    etrans; [exact Hpub|]. f_equal. apply (user_seed (ra_seed a)); [exact (Himp _ eq_refl)|]. by exists key.
  - exact Htrust.
  - change (fst <$> ((fun k => (k, cpb)) <$> e_directory_key (ra_evidence a)) = directory_key d).
    rewrite Hdir. by destruct (directory_key d).
  - rewrite Hcp. apply restored_checkpoint; [done|done|]. intros Hn. rewrite (Hdircp Hn) in Hcpb.
    by destruct cpb.
  - rewrite Hrcp. unfold revocation_checkpoint. cbn. unfold encoded in Hrcpb.
    destruct rcpb as [x|]; [|by destruct (e_revocation_checkpoint _)].
    destruct (Hrcpback x eq_refl) as (cp & -> & ->). done.
  - exact Hperm.
  - exact Halert.
  - unfold groups. cbn. by rewrite Hgroups.
  - unfold ensure_messaging_identity, bind, gets, lift, recovery_status. cbn.
    by destruct (from_bytes marker).
Qed.
End home.
