(* ===== verification/RecoveryFiles.v ===== *)
(** * Recovery packages on disk

    [crates/epochgrid-client/src/recovery.rs]: the package and its secret are two
    new private files, removed again when anything fails; a restore reads both
    with a bound, opens the package, and only then looks at the home. *)
From S2P Require Import Prelude External Wire Capacity Identity Merkle Secrets Mls ClientDb IdentityStore Trust Files Recovery Delivery RecoveryFacts.

(* @src client/recovery.rs 35-50 read_bounded *)
Definition read_bounded (path : string) (limit : Z) (files : Fs) : result bytes :=
  let? meta := follow 40 path files in
  check (is_file meta) "recovery input must be a regular file" ;;?
  check (zlen (contents meta) <=? limit)
    "recovery input exceeds size limit or is not a regular file" ;;?
  let b := take (Z.to_nat (limit + 1)) (contents meta) in
  check (zlen b <=? limit) "recovery input exceeds size limit" ;;?
  Ok b.

(** [O_EXCL]: nothing may be at the path, not even a dangling link. *)
(* @src client/recovery.rs 60-75 NewFile::create *)
Definition create_new (path : string) : M Disk unit :=
  let* d := gets id in
  ensure (bool_decide (dk_fs d !! path = None))
    "recovery output must be a new file in an existing directory" ;;;
  disk_op (insert path {| file_type := Regular; owner := dk_user d; mode := 0x180; contents := [] |}) untouched.
(** What happens to the file when the scope ends without [complete]. *)
(* @src client/recovery.rs 77-83 drop *)
Definition drop_file (path : string) : M Disk unit :=
  let* _ := attempt (disk_op (delete path) untouched) in ret tt.
(** A new file for the scope of [body]: its [Drop] runs when [body] fails. *)
(* @src client/recovery.rs 52-58 NewFile *)
Definition new_file {A} (path : string) (body : M Disk A) : M Disk A :=
  create_new path ;;;
  let* r := attempt body in
  match r with
  | Ok a => ret a
  | Err e => drop_file path ;;; fail e
  end.
(* @src client/recovery.rs 84-98 save *)
Definition save_files (package secret : bytes) (output secret_file : string) : M Disk unit :=
  ensure (negb (bool_decide (output = secret_file)))
    "package and secret require different files" ;;;
  new_file output (new_file secret_file (
    write_synced secret_file (as_bytes (secret_encode secret)) ;;;
    write_synced output package)).

(** The files an interrupted restore may have left. *)
(* @src client/recovery.rs 132-155 run (home entries) *)
Definition home_entry_allowed (name : string) (regular : bool) : bool :=
  regular && bool_decide (name ∈ ["device.lock"; "identity.database.lock"; "identity.database.json";
    "identity.database.pending"; "identity.sqlite"; "identity.sqlite-journal"; "identity.sqlite-wal";
    "identity.sqlite-shm"; "credentials.lock"; "credentials.json"; "credentials.pending"]).

Section command.
Context `{NKeys} `{MlsPackages} `{Seeds} `{Credentials} `{Sha256} `{Aead} `{Json SecretRef}
  `{Postcard Envelope} `{Postcard RegistrationPayload} `{Postcard DeviceRegistration}
  `{Postcard FingerprintTuple} `{Postcard RecoveryArchive} `{Postcard RecoveryStatus}
  `{Postcard Checkpoint}.
Context {St : Type} `{Pages (ClientDb St)} `{Mls St} (capacity : Capacity).
Context {V : Type} `{Backend V}.

(* @src client/recovery.rs 122-127 run (restore inputs) *)
Definition restore_inputs (input secret_file : string) (files : Fs) : result RecoveryArchive :=
  let? b := read_bounded input MAX_PACKAGE files in
  let? s := read_bounded secret_file MAX_SECRET_FILE files in
  let? text := ok_or (from_utf8 s) (Anyhow "invalid recovery secret encoding") in
  let? secret := secret_parse text in
  decrypt b secret.
(** [entries] are the names in the home directory with whether each is a regular
    file; [opened] is what [IdentityStore::open] returns. *)
(* @src client/recovery.rs 121-166 run (restore) *)
Definition run_restore (input secret_file : string) (files : Fs) (entries : list (string * bool))
    (opened : result unit) (clock : result Z) (lock_free : bool) (fresh : string)
  : M (Home (St := St) (V := V)) RecoveryStatus :=
  let* archive := lift (restore_inputs input secret_file files) in
  ensure (forallb (fun '(name, regular) => home_entry_allowed name regular) entries)
    "restore requires a fresh home or an interrupted restore home" ;;;
  lift opened ;;;
  restore capacity archive clock lock_free fresh.
End command.

(** ** Two files or none *)

Definition private (d : Disk) (data : bytes) : Node :=
  {| file_type := Regular; owner := dk_user d; mode := 0x180; contents := data |}.
Definition faults (l : list (option nat)) : nat :=
  length (List.filter (fun o => match o with Some _ => true | None => false end) l).

(** A new file is there with what its body wrote, or gone with what failed. *)
Lemma new_file_run {A} path (body : M Disk A) d r d' :
  new_file path body d = (r, d') ->
  (dk_fs d !! path <> None /\ d' = d /\ exists e, r = Err e) \/
  dk_fs d !! path = None /\
  let d0 f := {| dk_fs := f (dk_fs d); dk_user := dk_user d; dk_io := tl (dk_io d) |} in
  ((exists n, head (dk_io d) = Some (Some n)) /\ d' = d0 id /\ r = Err External \/
   default None (head (dk_io d)) = None /\
   exists rb d1, body (d0 (insert path (private d []))) = (rb, d1) /\
     match rb with
     | Ok a => r = Ok a /\ d' = d1
     | Err e => r = Err e /\ dk_user d' = dk_user d1 /\ dk_io d' = tl (dk_io d1) /\
         (dk_fs d' = delete path (dk_fs d1) \/
          dk_fs d' = dk_fs d1 /\ exists n, head (dk_io d1) = Some (Some n))
     end).
Proof.
  unfold new_file, create_new. unfold bind at 1. unfold bind at 1, gets, id at 1. unfold bind at 1, ensure.
  destruct (bool_decide _) eqn:Hb.
  2: { intros [= <- <-]. left. bool_prop. split_and!; [done|done|by eexists]. }
  bool_prop. intros Hrun. right. split; [done|].
  unfold disk_op in Hrun. destruct (head (dk_io d)) as [[n|]|] eqn:Hio; cbn [default] in Hrun.
  1: { injection Hrun as <- <-. left. by split_and!; [exists n| |]. }
  all: right; split; [done|]; unfold private.
  all: unfold bind at 1, attempt in Hrun; cbn [id] in Hrun.
  all: destruct (body {| dk_fs := <[path := {| file_type := Regular; owner := dk_user d; mode := 0x180;
                                               contents := [] |}]> (dk_fs d);
                         dk_user := dk_user d; dk_io := tl (dk_io d) |}) as [rb d1] eqn:Hbody.
  all: exists rb, d1; split; [done|]; destruct rb as [a|e]; [by injection Hrun as <- <-|].
  all: unfold drop_file, bind, attempt, disk_op in Hrun.
  all: destruct (head (dk_io d1)) as [[n|]|] eqn:Hio1; cbn in Hrun; injection Hrun as <- <-; cbn;
    (split_and!; [done..|]); eauto.
Qed.
Lemma faults_tl l : (faults (tl l) + match head l with Some (Some _) => 1 | _ => 0 end = faults l)%nat.
Proof. destruct l as [|[n|] l]; unfold faults; simpl; by rewrite ?Nat.add_1_r, ?Nat.add_0_r. Qed.

Lemma write_synced_run path data d r d' :
  write_synced path data d = (r, d') ->
  dk_user d' = dk_user d /\ (exists data', dk_fs d' = append_to path data' (dk_fs d)) /\
  (faults (dk_io d') + match r with Ok _ => 0 | Err _ => 1 end = faults (dk_io d))%nat /\
  (r = Ok tt -> dk_fs d' = append_to path data (dk_fs d)).
Proof.
  unfold write_synced. unfold bind at 1, disk_op at 1. intros Hrun.
  pose proof (faults_tl (dk_io d)) as F1.
  destruct (head (dk_io d)) as [[n|]|] eqn:E1; cbn in Hrun.
  { injection Hrun as <- <-. cbn [dk_io dk_user dk_fs]. split_and!; [done|by eexists|lia|done]. }
  all: unfold disk_op in Hrun; cbn in Hrun; pose proof (faults_tl (tl (dk_io d))) as F2.
  all: destruct (head (tl (dk_io d))) as [[n|]|] eqn:E2; cbn in Hrun;
    injection Hrun as <- <-; cbn [dk_io dk_user dk_fs]; split_and!; eauto; lia.
Qed.
Lemma append_to_fresh path data data' files n :
  append_to path data (<[path := n]> files) =
  <[path := {| file_type := file_type n; owner := owner n; mode := mode n; contents := contents n ++ data |}]> files /\
  delete path (append_to path data' files) = delete path files.
Proof.
  split.
  - unfold append_to. by rewrite alter_insert_eq.
  - apply map_eq. intros p. unfold append_to. destruct (decide (p = path)) as [->|Hne].
    + by rewrite !lookup_delete_eq.
    + by rewrite !lookup_delete_ne, lookup_alter_ne by done.
Qed.

Lemma no_fault l : faults l = 0%nat -> default None (head l) = None /\ faults (tl l) = 0%nat.
Proof. intros Hl. pose proof (faults_tl l) as F. destruct (head l) as [[n|]|]; cbn; split; done || lia. Qed.

Definition opened_file (path : string) (d : Disk) : Disk :=
  {| dk_fs := <[path := private d []]> (dk_fs d); dk_user := dk_user d; dk_io := tl (dk_io d) |}.
(** What the scope of a new file leaves, up to the paths [er] forgets, when its
    body leaves the rest alone. [b] bounds the faults under which it is undone. *)
Lemma scope_run {A} (er : Fs -> Fs) path (body : M Disk A) b d r d' :
  (forall m, er (delete path m) = delete path (er m)) -> (forall m : Fs, er m !! path = m !! path) ->
  (forall rb d1, dk_fs d !! path = None -> body (opened_file path d) = (rb, d1) ->
     er (dk_fs d) ⊆ delete path (er (dk_fs d1)) /\
     forall e, rb = Err e -> (faults (dk_io d) <= b)%nat ->
       delete path (er (dk_fs d1)) = er (dk_fs d) /\ faults (dk_io d1) = 0%nat) ->
  new_file path body d = (r, d') ->
  er (dk_fs d) ⊆ er (dk_fs d') /\
  (forall a, r = Ok a -> dk_fs d !! path = None /\ body (opened_file path d) = (Ok a, d')) /\
  (forall e, r = Err e -> (faults (dk_io d) <= Nat.min 1 b)%nat ->
     er (dk_fs d') = er (dk_fs d) /\
     (dk_fs d !! path = None \/ faults (dk_io d) = 0%nat -> faults (dk_io d') = 0%nat)).
Proof.
  intros Hdel Hat Hbody [(Hp & -> & e & ->)|(Hp & Hrun)]%new_file_run.
  { split; [done|]. split; [done|]. intros e' _ Hf. split; [done|]. by intros [Hn|Hn]. }
  pose proof (faults_tl (dk_io d)) as F1. cbv zeta in Hrun.
  destruct Hrun as [([n Hn] & -> & ->)|(_ & rb & d1 & Hb & Hrun)].
  { rewrite Hn in F1. split; [done|]. split; [done|]. intros e _ Hf. cbn [dk_fs dk_io id]. split; [done|lia]. }
  destruct (Hbody _ _ Hp Hb) as [Hsub Herr]. destruct rb as [a|e].
  - destruct Hrun as [-> ->]. split; [|split; [|done]].
    + etrans; [exact Hsub|]. apply delete_subseteq.
    + intros a' [= <-]. by split.
  - destruct Hrun as (-> & _ & Hio & Hfs). split; [|split; [done|]].
    + destruct Hfs as [->|[-> _]]; [by rewrite Hdel|]. etrans; [exact Hsub|]. apply delete_subseteq.
    + intros e' [= <-] Hf. destruct (Herr e eq_refl ltac:(lia)) as [He H0].
      apply no_fault in H0 as [Hh Ht]. rewrite Hio. split; [|by intros _].
      destruct Hfs as [->|[_ [n Hn]]]; [by rewrite Hdel|by rewrite Hn in Hh].
Qed.

(** The two writes inside both scopes. *)
Definition writes (package secret : bytes) (output secret_file : string) : M Disk unit :=
  write_synced secret_file (as_bytes (secret_encode secret)) ;;; write_synced output package.
Lemma writes_run package secret output secret_file d r d' :
  writes package secret output secret_file d = (r, d') ->
  delete secret_file (delete output (dk_fs d')) = delete secret_file (delete output (dk_fs d)) /\
  (forall e, r = Err e -> (faults (dk_io d') + 1 = faults (dk_io d))%nat) /\
  (r = Ok tt -> dk_fs d' = append_to output package
                  (append_to secret_file (as_bytes (secret_encode secret)) (dk_fs d))).
Proof.
  assert (forall data m, delete secret_file (append_to secret_file data m) = delete secret_file m) as Hs
    by (intros; by apply (append_to_fresh secret_file data data m (private d []))).
  assert (forall data m, delete output (append_to output data m) = delete output m) as Ho
    by (intros; by apply (append_to_fresh output data data m (private d []))).
  unfold writes, bind. destruct (write_synced secret_file _ d) as [[[]|e] d1] eqn:H1;
    apply write_synced_run in H1 as (_ & [x1 E1] & F1 & O1).
  - intros (_ & [x2 E2] & F2 & O2)%write_synced_run. split_and!.
    + by rewrite E2, Ho, E1, delete_delete, Hs, delete_delete.
    + intros e ->. lia.
    + intros Hr. rewrite (O2 Hr). by rewrite O1.
  - intros [= <- <-]. split_and!; [|intros ? _; lia|done].
    by rewrite E1, delete_delete, Hs, delete_delete.
Qed.

Lemma inner_run package secret output secret_file d rb d1 :
  output <> secret_file -> dk_fs d !! output = None ->
  new_file secret_file (writes package secret output secret_file) (opened_file output d) = (rb, d1) ->
  dk_fs d ⊆ delete output (dk_fs d1) /\
  (forall e, rb = Err e ->
     (faults (dk_io d) <= (if decide (dk_fs d !! secret_file = None) then 1 else 0))%nat ->
     delete output (dk_fs d1) = dk_fs d /\ faults (dk_io d1) = 0%nat) /\
  (rb = Ok tt -> dk_fs d1 = <[output := private d package]>
     (<[secret_file := private d (as_bytes (secret_encode secret))]> (dk_fs d))).
Proof.
  intros Hne Ho Hrun. set (e0 := opened_file output d) in *.
  assert (delete output (dk_fs e0) = dk_fs d) as He0 by by apply delete_insert_id.
  assert (dk_fs e0 !! secret_file = dk_fs d !! secret_file) as Hs0 by by apply lookup_insert_ne.
  assert (faults (dk_io e0) <= faults (dk_io d))%nat as F1.
  { unfold e0, opened_file. cbn [dk_io]. pose proof (faults_tl (dk_io d)). lia. }
  apply (scope_run (delete output) _ _ 1) in Hrun as (Hsub & HO & HE).
  - rewrite He0 in Hsub. split; [done|]. split.
    + intros e -> Hf. destruct (HE e eq_refl) as [Hfs Hio]; [destruct (decide _); lia|].
      split; [by rewrite Hfs|]. apply Hio. rewrite Hs0. destruct (decide _); [by left|right; lia].
    + intros ->. destruct (HO tt eq_refl) as [Hsn Hb]. apply writes_run in Hb as (_ & _ & ->); [|done].
      unfold opened_file. cbn [dk_fs dk_user]. unfold e0, opened_file. cbn [dk_fs dk_user].
      unfold append_to. rewrite alter_insert_eq, alter_insert_ne, alter_insert_eq by done.
      rewrite insert_insert_ne by done. done.
  - intros m. apply delete_delete.
  - intros m. by apply lookup_delete_ne.
  - intros rb' d2 Hp Hb. apply writes_run in Hb as (Hd & He & _).
    assert (delete secret_file (delete output (dk_fs d2)) = dk_fs d) as ->.
    { rewrite Hd. unfold opened_file at 1. cbn [dk_fs]. rewrite delete_delete, delete_insert_id by done.
      exact He0. }
    rewrite He0. split; [done|]. intros e -> Hf. split; [done|]. specialize (He e eq_refl).
    unfold opened_file in He. cbn [dk_io] in He. pose proof (faults_tl (dk_io e0)). lia.
Qed.

Lemma save_files_run package secret output secret_file d r d' :
  save_files package secret output secret_file d = (r, d') ->
  dk_fs d ⊆ dk_fs d' /\
  match r with
  | Ok _ =>
      output <> secret_file /\
      dk_fs d' = <[output := private d package]>
                   (<[secret_file := private d (as_bytes (secret_encode secret))]> (dk_fs d))
  | Err _ =>
      (faults (dk_io d) <= (if decide (dk_fs d !! secret_file = None) then 1 else 0))%nat ->
      dk_fs d' = dk_fs d
  end.
Proof.
  unfold save_files. intros Hrun. unfold bind at 1, ensure in Hrun.
  destruct (negb (bool_decide (output = secret_file))) eqn:Hne; [bool_prop|by injection Hrun as <- <-].
  apply (scope_run id _ _ (if decide (dk_fs d !! secret_file = None) then 1 else 0)) in Hrun
    as (Hsub & HO & HE); [|done..|].
  - split; [done|]. destruct r as [[]|e].
    + split; [done|]. destruct (HO tt eq_refl) as [Ho Hb]. destruct (inner_run _ _ _ _ _ _ _ Hne Ho Hb) as (_ & _ & Hfs). by apply Hfs.
    + intros Hf. apply (HE e eq_refl). destruct (decide _); cbn; lia.
  - intros rb d1 Ho Hb. destruct (inner_run _ _ _ _ _ _ _ Hne Ho Hb) as (Hk & He & _). by split.
Qed.

(** A package is saved with its secret or not at all. Whatever fails on the way,
    a write that stops in the middle included: no file that was there changes;
    when saving succeeds, the two paths are different and hold exactly the
    package and the text of the secret, private to their owner; and when it
    fails, because one operation failed or because a path was taken, the disk is
    as before. *)
Theorem save_all_or_nothing package secret output secret_file d r d' :
  save_files package secret output secret_file d = (r, d') ->
  dk_fs d ⊆ dk_fs d' /\
  match r with
  | Ok _ =>
      output <> secret_file /\
      dk_fs d' = <[output := private d package]>
                   (<[secret_file := private d (as_bytes (secret_encode secret))]> (dk_fs d))
  | Err _ =>
      (faults (dk_io d) <= (if decide (dk_fs d !! secret_file = None) then 1 else 0))%nat ->
      dk_fs d' = dk_fs d
  end.
Proof. apply save_files_run. Qed.

(** ** What was saved is what is read *)

Lemma valid_ascii l : Forall (fun b => Byte.to_N b <= 127)%N l -> valid_utf8 l = true.
Proof.
  intros Hl. unfold valid_utf8, utf8_pieces. rewrite utf8_chunks_ascii by done.
  clear Hl. by induction l.
Qed.
Lemma secret_text_ascii k : from_utf8 (as_bytes (secret_encode k)) = Some (secret_encode k).
Proof.
  unfold from_utf8. rewrite valid_ascii.
  - f_equal. apply String.string_of_list_byte_of_string.
  - unfold secret_encode. rewrite !as_bytes_app. apply Forall_app. split; [by repeat constructor|].
    apply Forall_app. split; [|by repeat constructor].
    eapply list.Forall_impl; [apply hex_upper_visible|]. unfold visible. intros; lia.
Qed.
Lemma secret_text_length k : zlen (as_bytes (secret_encode k)) = 2 * zlen k + 5.
Proof.
  unfold secret_encode. rewrite !as_bytes_app. unfold zlen. rewrite !length_app.
  assert (Z.of_nat (length (as_bytes (hex_bytes_upper k))) = 2 * zlen k) as Hx.
  { rewrite <- slen_hex_upper. unfold slen. f_equal. generalize (hex_bytes_upper k). intros s.
    induction s as [|c s IH]; [done|]. change (as_bytes (String c s)) with (byte_of_ascii c :: as_bytes s).
    cbn. by rewrite IH. }
  unfold zlen in Hx. cbn [length as_bytes]. change (length (as_bytes "EG1-")) with 4%nat.
  change (length (as_bytes (String (ascii_of_N 10) EmptyString))) with 1%nat. lia.
Qed.
Lemma read_bounded_private path limit data d files :
  files !! path = Some (private d data) -> zlen data <= limit -> read_bounded path limit files = Ok data.
Proof.
  intros Hp Hl. unfold read_bounded, follow, symlink_metadata. rewrite Hp. cbn [ok_or rbind private file_type].
  unfold is_file. cbn [file_type private contents]. rewrite bool_decide_eq_true_2 by done. cbn [check rbind].
  rewrite (proj2 (Z.leb_le _ _) Hl). cbn [check rbind].
  rewrite take_ge by (unfold zlen in Hl; lia). by rewrite (proj2 (Z.leb_le _ _) Hl).
Qed.

Section saved.
Context `{NKeys} `{MlsPackages} `{Seeds} `{Sha256} `{Aead} `{Postcard Envelope}
  `{Postcard RegistrationPayload} `{Postcard FingerprintTuple} `{Postcard RecoveryArchive}.

(** A saved package is the one that is restored: reading back what [save] wrote,
    within the bounds a restore sets, decrypts exactly the package with exactly
    the secret. *)
Theorem saved_is_read package secret output secret_file d d' :
  save_files package secret output secret_file d = (Ok tt, d') ->
  zlen secret = 32 -> zlen package <= MAX_PACKAGE ->
  restore_inputs output secret_file (dk_fs d') = decrypt package secret.
Proof.
  intros Hsave Hs Hp.
  assert (output <> secret_file /\ dk_fs d' = <[output := private d package]>
    (<[secret_file := private d (as_bytes (secret_encode secret))]> (dk_fs d))) as [Hne Hfs].
  { by apply save_files_run in Hsave as [_ Hr]. }
  unfold restore_inputs. rewrite (read_bounded_private _ _ package d).
  - cbn [rbind]. rewrite (read_bounded_private _ _ (as_bytes (secret_encode secret)) d).
    + cbn [rbind]. rewrite secret_text_ascii. cbn [ok_or rbind]. by rewrite secret_parse_encode.
    + rewrite Hfs, lookup_insert_ne by done. by rewrite lookup_insert_eq.
    + rewrite secret_text_length. unfold MAX_SECRET_FILE. lia.
  - rewrite Hfs. by rewrite lookup_insert_eq.
  - done.
Qed.
End saved.
