(* ===== verification/RecoveryExamples.v ===== *)
(** * A device that is lost and recovered

    A home with a pinned device, a pinned directory, a revoked device and a group
    exports its administration; the package restores into a fresh home, and not
    into the home it came from. *)
From S2P Require Import Prelude External Wire Capacity AuditTrail Identity Models KvStore Merkle Transparency TransparencyFacts Secrets Mls ClientDb IdentityStore Revocation RevocationFacts Trust TrustExamples Groups Files Recovery Delivery RecoveryFacts RecoveryFiles.

Definition recovery_seeds : Seeds := {|
  xkey_public := fun _ => None;
  seed_pair := fun s => if bool_decide (s = "SUB") then Some (UserKey, "UB") else None |}.
Definition no_mls : Mls unit := {|
  mls_load := fun _ _ => Ok None; read_signer := fun _ _ => None;
  new_signer := fun _ => Err External; store_signer := fun _ => fail External;
  build_key_package := fun _ _ _ => fail External; new_group := fun _ _ _ _ => fail External;
  create_message := fun _ _ _ _ => fail External; add_members := fun _ _ _ _ => fail External;
  remove_members := fun _ _ _ _ => fail External; merge_pending_commit := fun _ => fail External;
  process_message := fun _ _ s => (inr InvalidPacket, s); merge_staged_commit := fun _ _ => fail External;
  parse_message := fun _ => None; stage_welcome := fun _ => fail External;
  into_group := fun _ => fail External |}.
Definition recovery_aead : Aead := {|
  aead_encrypt := fun key text _ _ => Some (text ++ repeat x00 16);
  aead_decrypt := fun key c _ _ => Some (take (length c - 16) c) |}.
Definition registration_model : Postcard DeviceRegistration := {|
  to_allocvec := fun _ => Ok [x52];
  take_from_bytes := fun b => match b with x52 :: rest => Ok (reg_b, rest) | _ => Err External end |}.
Definition reference_model : Json SecretRef := {|
  to_json := fun r => Ok (sr_id r); from_json := fun _ => Err External |}.
Definition no_credential : Credentials := fun _ => Err External.
Definition marker_model : Postcard RecoveryStatus := {|
  to_allocvec := fun _ => Ok [x4d]; take_from_bytes := fun _ => Err External |}.
#[local] Existing Instances digest_model trust_envelope_model stored_checkpoint_model fingerprint_model
  device_pages recovery_seeds no_mls recovery_aead registration_model reference_model no_credential
  marker_model.

(** ** The exporting home *)

Definition fp_a : string := repeat_char 64 "A".
Definition lost_home : ClientDb unit := {|
  local_identity := Some ("{}", [x52]);
  trust := {| device_trust_t := {[(alice, "laptop") :=
                {| pinned := fp_a; latest := fp_a; trust_state := "verified" |}]};
              transparency_state := Some ("UDIR", Some [x01]); trust_alert := Some "look" |};
  revocations := {| revoked_devices := [("UA", {| rv_user := alice; rv_device := "laptop";
                      rv_mls_key := repeat x07 32; rv_cutoff := 5 |})];
                    group_coordinators := ∅; blocked_outbox := ∅;
                    revocation_checkpoint_t := Some [x02] |};
  chat := {| groups_t := {["general" := {| ge_gid := gid_1; ge_mls_id := [x01] |}]};
             join_epochs := ∅; outbox := ∅; welcomes := ∅; received := ∅;
             chat_deliveries := ∅; transcript := ∅ |};
  events := {| receipt_messages := ∅; device_receipts := ∅; message_events := ∅;
               attachments_t := ∅; participant_events := ∅ |};
  mls := tt; recovery_metadata := None; cached_key := Some {| public_key := "UB"; seed := "SUB" |};
  recovery_budget := false; cl_autocommit := true; cl_commit_ok := true |}.
Definition lost_archive : RecoveryArchive := {|
  ra_version := 2; ra_exported_at := 50; ra_registration := reg_b; ra_seed := "SUB";
  ra_evidence := {|
    e_devices := [{| dt_user := alice; dt_device := "laptop"; dt_fingerprint := fp_a;
                     dt_latest := fp_a; dt_state := "verified" |}];
    e_directory_key := Some "UDIR"; e_checkpoint := Some (checkpoint log_1);
    e_revocation_checkpoint := Some (rl_checkpoint revocations_1);
    e_revoked := [{| rd_nkey := "UA"; rd_user := alice; rd_device := "laptop";
                     rd_mls_key := repeat x07 32; rd_cutoff := 5 |}];
    e_alert := Some "look" |};
  ra_groups := [{| hint_name := "general"; hint_gid := gid_1 |}] |}.
Definition archive_model : Postcard RecoveryArchive := {|
  to_allocvec := fun _ => Ok [x41];
  take_from_bytes := fun b => match b with x41 :: rest => Ok (lost_archive, rest) | _ => Err External end |}.
#[local] Existing Instance archive_model.

Example exports : export_archive (Ok 50) lost_home = (Ok lost_archive, lost_home).
Proof. vm_compute. reflexivity. Qed.

Definition recovery_secret : bytes := repeat x09 32.
Definition recovery_nonce : bytes := repeat x03 12.
Definition package_1 : bytes := HEADER ++ recovery_nonce ++ x41 :: repeat x00 16.
Example exported :
  export_recovery (Ok 50) (Ok recovery_secret) (Ok recovery_nonce) lost_home
    = (Ok (package_1, recovery_secret), lost_home).
Proof. vm_compute. reflexivity. Qed.

(** ** The fresh home *)

Definition fresh_home : Home (St := unit) (V := Keyring) := {|
  h_db := fresh_device;
  h_vault := {| metadata_file := None; keyring := empty_keyring; saves := [] |} |}.
Definition imported : VaultState Keyring :=
  snd (import "device" User "SUB" true slot_name (h_vault fresh_home)).

Lemma untag (text tag : bytes) :
  length tag = 16%nat -> Some (take (length (text ++ tag) - 16) (text ++ tag)) = Some text.
Proof.
  intros Ht. rewrite length_app, Ht. replace (length text + 16 - 16)%nat with (length text) by lia.
  by rewrite take_app_length.
Qed.
Lemma recovery_roundtrip_witness :
  exists status h', restore default_capacity lost_archive (Ok 60) true slot_name fresh_home = (Ok status, h') /\
    device_trust_t (trust (h_db h')) = device_trust_t (trust lost_home).
Proof.
  destruct (recovery_roundtrip default_capacity (Ok 50) (Ok recovery_secret) (Ok recovery_nonce)
    lost_home lost_archive lost_home package_1 recovery_secret (Ok 60) 60 true slot_name fresh_home
    {| sr_id := slot_name; sr_kind := User; sr_public_key := "UB" |} imported slot_name)
    as (_ & _ & status & h' & Hrun & _ & _ & _ & Ht & _).
  - exact exports.
  - exact exported.
  - reflexivity.
  - intros n [= <-]. reflexivity.
  - intros key text nonce aad c [= <-]. by apply untag.
  - intros key text nonce aad c [= <-]. unfold zlen. rewrite length_app. simpl. lia.
  - by exists [x41].
  - by exists [x52].
  - intros cp [Hcp|Hcp]; vm_compute in Hcp; injection Hcp as <-.
    + exists [x01]. split; [vm_compute; reflexivity|done].
    + exists [x02]. split; [vm_compute; reflexivity|done].
  - reflexivity.
  - apply NoDup_singleton.
  - vm_compute. reflexivity.
  - reflexivity.
  - reflexivity.
  - intros d. vm_compute. reflexivity.
  - reflexivity.
  - vm_compute. reflexivity.
  - reflexivity.
  - by exists status, h'.
Defined.

(** A home that holds nothing but one message still on its way out, and none of what
    a device is made of. *)
Definition unsent_home : Home (St := unit) (V := Keyring) := {|
  h_db := set_chat (set_outbox (<[7 := {| ob_subject := "s"; ob_payload := [x09]; ob_sent := false |}]>)) fresh_device;
  h_vault := h_vault fresh_home |}.
#[local] Abbreviation refused := (restore default_capacity lost_archive (Ok 60) true slot_name unsent_home).

(** ** The package on disk *)

(** The second write stops after three bytes. *)
Definition small_disk : Disk := {| dk_fs := ∅; dk_user := 1000; dk_io := [] |}.
Definition full_disk : Disk :=
  {| dk_fs := ∅; dk_user := 1000; dk_io := [None; None; None; None; Some 3%nat] |}.
Lemma save_all_or_nothing_witness :
  dk_fs (snd (save_files package_1 recovery_secret "backup" "secret" full_disk)) = ∅.
Proof.
  destruct (save_all_or_nothing package_1 recovery_secret "backup" "secret" full_disk (Err External)
    (snd (save_files package_1 recovery_secret "backup" "secret" full_disk))) as [_ Hr];
    [apply run_fst; vm_compute; reflexivity|].
  apply Hr. vm_compute. repeat constructor.
Defined.
Lemma saved_is_read_witness :
  restore_inputs "backup" "secret"
    (dk_fs (snd (save_files package_1 recovery_secret "backup" "secret" small_disk)))
    = decrypt package_1 recovery_secret.
Proof.
  apply (saved_is_read package_1 recovery_secret "backup" "secret" small_disk);
    [apply run_fst; vm_compute; reflexivity|vm_compute; reflexivity|vm_compute; discriminate].
Defined.
