(* ===== verification/Setup.v ===== *)
(** * Setting up a backend home

    [crates/epochgrid-service/src/deployment_setup.rs]: the choices of an
    initialization, the public artifacts they render to, and their publication
    beside the credentials, which replaces nothing. *)
From S2P Require Import Prelude External Wire AuthDb Capacity Identity Merkle Secrets Tls Callout Files Mls ClientDb IdentityStore Trust Recovery Database Deployment.

(** ** Choices *)

(* @src service/deployment_setup.rs 14-19 AuthMode *)
Inductive AuthMode : Type := Configuration | OperatorMode.
#[global] Instance AuthMode_eq_dec : EqDecision AuthMode.
Proof. solve_decision. Defined.
(* @src service/deployment_setup.rs 21-34 InitOptions *)
Record InitOptions : Type := {
  auth_mode : AuthMode;
  op_target_account : option string;
  op_auth_account : option string;
  op_replicas : Z;
}.

Definition legal_name (name : string) : bool :=
  negb (bool_decide (name = EmptyString)) && (slen name <=? 64)
  && string_all (fun c => is_ascii_alphanumeric c || bool_decide (c = "_"%char)
                          || bool_decide (c = "-"%char)) name.

Section choices.
Context `{NKeys} `{Seeds}.

(* @src service/deployment_setup.rs 37-39 target *)
Definition target (o : InitOptions) : string := default "EPOCHGRID" (op_target_account o).

(* @src service/deployment_setup.rs 40-93 validate *)
Definition options_validate (o : InitOptions) : result DeploymentManifest :=
  let? manifest := bounded (op_replicas o) default_capacity in
  match auth_mode o with
  | Configuration =>
      check (bool_decide (op_auth_account o = None)) "--auth-account is only for operator-jwt mode" ;;?
      let name := target o in
      check (bool_decide (seed_pair name = None) && bool_decide (xkey_public name = None))
        "target account must be a public account name, never a seed" ;;?
      check (legal_name name) "invalid target account name" ;;?
      check (negb (bool_decide (name = "EPOCHGRID_AUTH")))
        "authentication and application accounts must be separate"
  | OperatorMode =>
      let? target := ok_or (op_target_account o)
        (Anyhow "operator-jwt requires --target-account PUBLIC_ACCOUNT_NKEY") in
      let? auth := ok_or (op_auth_account o)
        (Anyhow "operator-jwt requires --auth-account PUBLIC_ACCOUNT_NKEY") in
      rforall (fun key =>
          check (match nkey_type key with Some AccountKey => true | _ => false end)
            "operator-jwt requires public account NKeys, never seeds") [target; auth] ;;?
      check (negb (bool_decide (target = auth)))
        "authentication and application accounts must be separate"
  end ;;?
  Ok manifest.
End choices.

(** ** Publication *)

(** An operation that may have happened although it is reported to fail. *)
Definition step (f : Fs -> Fs) : M Disk unit :=
  disk_op f (fun n => match n with O => id | S _ => f end).
Definition files : M Disk Fs := gets dk_fs.
Definition private_node (user : Z) (data : bytes) : Node :=
  {| file_type := Regular; owner := user; mode := 0x180; contents := data |}.
Definition directory_node (user : Z) : Node :=
  {| file_type := Directory; owner := user; mode := 0x1C0; contents := [] |}.

(** [std::fs::create_dir_all], below directories that exist. *)
Definition create_dir_all (path : string) : M Disk unit :=
  let* fs := files in
  let* user := gets dk_user in
  match fs !! path with
  | None => step (insert path (directory_node user))
  | Some _ =>
      let* node := lift (follow 40 path fs) in
      ensure (is_dir node) "File exists"
  end.
(* @src service/deployment_setup.rs 96-108 private_directory *)
Definition private_directory (path : string) : M Disk unit :=
  create_dir_all path ;;;
  let* fs := files in
  let* node := lift (symlink_metadata path fs) in
  ensure (negb (is_symlink node)) "setup directory must not be a symlink" ;;;
  step (alter (fun n => {| file_type := file_type n; owner := owner n; mode := 0x1C0;
                           contents := contents n |}) path).

(* @src service/deployment_setup.rs 110-129 lock *)
Definition setup_lock (home : string) (lock_free : bool) : M Disk unit :=
  let path := join home "auth-init.lock" in
  let* fs := files in
  let* user := gets dk_user in
  match fs !! path with
  | Some metadata => ensure (is_file metadata) "setup lock must be a regular file"
  | None => ret tt
  end ;;;
  step (fun fs => match fs !! path with None => <[path := private_node user []]> fs | Some _ => fs end) ;;;
  ensure lock_free "authentication initialization/export already in progress".

(* @src service/deployment_setup.rs 131-150 same_or_absent *)
Definition same_or_absent (path : string) (data : bytes) (fs : Fs) : result bool :=
  match fs !! path with
  | Some metadata =>
      check (is_file metadata) "artifact must be a regular file" ;;?
      let? current := read_file path fs in
      check (bool_decide (current = data)) "refusing to overwrite changed artifact" ;;?
      Ok true
  | None => Ok false
  end.

(** A temporary file, written and synced, moved into place only where nothing is. *)
(* @src service/deployment_setup.rs 156-164 publish_file (new) *)
Definition publish_new (path : string) (data : bytes) : M Disk unit :=
  step id ;;; step id ;;; step id ;;;
  let* fs := files in
  ensure (bool_decide (fs !! path = None)) "artifact publication conflict" ;;;
  let* user := gets dk_user in
  step (insert path (private_node user data)) ;;;
  step id.
(* @src service/deployment_setup.rs 152-165 publish_file *)
Definition publish_file (path : string) (data : bytes) : M Disk unit :=
  let* fs := files in
  let* same := lift (same_or_absent path data fs) in
  if same : bool then ret tt else publish_new path data.

(** The names in a directory. *)
Definition child_name (dir path : string) : option string :=
  match strip_prefix (dir +:+ "/") path with
  | Some name => if negb (bool_decide (name = EmptyString)) && lacks "/" name then Some name else None
  | None => None
  end.
Definition children (dir : string) (fs : Fs) : list string :=
  omap (fun p => child_name dir (fst p)) (map_to_list fs).

(* @src service/deployment_setup.rs 167-189 bundle_matches *)
Definition bundle_matches (output : string) (artifacts : gmap string string) (fs : Fs) : result bool :=
  match fs !! output with
  | Some metadata =>
      check (is_dir metadata) "artifact output must be a directory" ;;?
      check (length (children output fs) =? size artifacts)%nat
        "artifact bundle differs; choose a new --output directory" ;;?
      rforall (fun '(name, text) =>
          let? same := same_or_absent (join output name) (as_bytes text) fs in
          check same "artifact bundle incomplete; choose a new --output directory")
        (map_to_list artifacts) ;;?
      Ok true
  | None => Ok false
  end.

(** The directory and the files of a bundle. *)
Definition bundle_files (output : string) (user : Z) (artifacts : gmap string string) : Fs :=
  <[output := directory_node user]>
    (list_to_map ((fun x => (join output (fst x), private_node user (as_bytes (snd x)))) <$> map_to_list artifacts)).

(** The bundle appears only once all its files are written. *)
(* @src service/deployment_setup.rs 208-222 publish_bundle (move) *)
Definition move_bundle (output : string) (artifacts : gmap string string) : M Disk unit :=
  let* fs := files in
  ensure (negb (path_exists output fs)) "artifact output appeared during export" ;;;
  ensure (bool_decide (fs !! output = None))
    "artifact output appeared during export; nothing was replaced" ;;;
  let* user := gets dk_user in
  step (fun fs => bundle_files output user artifacts ∪ fs) ;;;
  step id.
(** [parent] is [Path::parent], the empty path replaced by [.]. The staging
    directory has a name of its own: what fills it shows only once it is moved. *)
(* @src service/deployment_setup.rs 191-224 publish_bundle *)
Definition publish_bundle (parent : string -> string) (output : string) (artifacts : gmap string string)
  : M Disk unit :=
  let* fs := files in
  let* same := lift (bundle_matches output artifacts fs) in
  if same : bool then ret tt
  else
    ensure (match follow 40 (parent output) fs with Ok node => is_dir node | Err _ => false end)
      "artifact output parent must already exist" ;;;
    step id ;;; step id ;;;
    for_each (map_to_list artifacts) (fun _ => step id ;;; step id ;;; step id ;;; step id ;;; step id) ;;;
    step id ;;;
    move_bundle output artifacts.

(** ** The public artifacts *)

Definition quote : string := String "034"%char EmptyString.
Definition quoted (s : string) : string := quote +:+ s +:+ quote.

(** Pretty-printed JSON of what the setup publishes. *)
Class SetupJson : Type := {
  pretty_value : Value -> result string;
  pretty_options : InitOptions -> result bytes;
  pretty_config : Config -> result bytes;
}.

Definition operator_guide : string := "Operator-JWT mode: setup is INCOMPLETE until you issue a signed non-bearer service user JWT for the public connection key in operator-delegation.json and set auth.json.operator_jwt.connection_jwt. Runtime refuses an empty JWT; do not remove operator_jwt to bypass this. Apply external_authorization to the authentication account JWT's nats.authorization and application_signing_keys as unscoped application-account nats.signing_keys. Sign and distribute both account JWTs using your external administration tooling. Configure the operator, system account, resolver and deny-all authentication-account default_sentinel on every server. Never give EpochGrid operator/account root seeds or system-account credentials. The delegation JSON is a public signing specification, not itself a signed JWT.".
Definition configuration_guide : string := "Configuration mode: integrate nats-reference.conf into your operator-owned NATS configuration. Keep EPOCHGRID_AUTH separate from the application account. Supply your own application-account administrator for resource provisioning; the snippet does not issue administrator credentials.".

(* @src service/deployment_setup.rs 242-264 artifacts (delegation) *)
Definition delegation (config : Config) (operator : OperatorJwt) : Value :=
  Object [
    ("version", Number 1);
    ("authentication_account", Text (auth_account operator));
    ("application_account", Text (target_account config));
    ("external_authorization", Object [
      ("auth_users", Items [Text (sr_public_key (connection config))]);
      ("allowed_accounts", Items [Text (target_account config)]);
      ("xkey", Text (sr_public_key (encryption config)))]);
    ("application_signing_keys", Items [Text (sr_public_key (issuer config))]);
    ("service_user", Object [
      ("subject", Text (sr_public_key (connection config)));
      ("bearer_token", VBool false);
      ("subscribe", Items [Text "$SYS.REQ.USER.AUTH"; Text "_INBOX.>"]);
      ("publish", Items [Text "$SYS._INBOX.>"])])].

(* @src service/deployment_setup.rs 267-286 artifacts (snippet) *)
Definition snippet (config : Config) : string :=
  let connection_key := sr_public_key (connection config) in
  "# Reference only: integrate with operator-owned configuration; do not replace it." +:+ newline +:+
  "# Add operator-managed TLS and JetStream. No static device users." +:+ newline +:+
  "accounts {" +:+ newline +:+
  "  EPOCHGRID_AUTH { users: [{nkey: " +:+ quoted connection_key
    +:+ ", permissions: {subscribe: [" +:+ quoted "$SYS.REQ.USER.AUTH" +:+ ", " +:+ quoted "_INBOX.>"
    +:+ "], publish: [" +:+ quoted "$SYS._INBOX.>" +:+ "]}}] }" +:+ newline +:+
  "  " +:+ quoted (target_account config) +:+ " { jetstream: enabled }" +:+ newline +:+
  "}" +:+ newline +:+
  "authorization {" +:+ newline +:+
  "  timeout: 2" +:+ newline +:+
  "  auth_callout { issuer: " +:+ quoted (sr_public_key (issuer config))
    +:+ ", xkey: " +:+ quoted (sr_public_key (encryption config))
    +:+ ", account: EPOCHGRID_AUTH, auth_users: [" +:+ quoted connection_key
    +:+ "], allowed_accounts: [" +:+ quoted (target_account config) +:+ "] }" +:+ newline +:+
  "}" +:+ newline.

(* @src service/deployment_setup.rs 290-290 artifacts (guide) *)
Definition setup_text (guide : string) (replicas : Z) : string :=
  "# EpochGrid public deployment artifacts" +:+ newline +:+ newline +:+
  "Artifact publication complete; deployment readiness has NOT been evaluated." +:+ newline +:+ newline +:+
  guide +:+ newline +:+ newline +:+
  "Supply TLS certificates and verified tls:// endpoints, EPOCHGRID_TLS_CA_PATH when using a private CA, and mutual TLS on cluster routes. NATS Server 2.14.5 is the qualified target; configure server max_payload exactly 65536. Do not import/export application or Auth Callout subjects to other accounts." +:+ newline +:+ newline +:+
  "Using your application's administrative NATS context, apply each native stream configuration (including KV backing streams):" +:+ newline +:+ newline +:+
  "```sh" +:+ newline +:+
  "for resource in CHAT MAILBOX KV_IDENTITIES KV_CHANNELS KV_TRANSPARENCY; do" +:+ newline +:+
  "  nats --context APPLICATION_ADMIN stream add --config " +:+ quoted "$resource.json" +:+ newline +:+
  "done" +:+ newline +:+ "```" +:+ newline +:+ newline +:+
  "Set storage budgets for your workload before applying resources. Matching configuration does not certify capacity. Review existing resources instead of overwriting them. All five resources declare R" +:+ pretty.pretty replicas +:+
  ". Keep deployment.json beside auth.json. Resource ownership and root signing keys remain with the operator. See docs/operator/byo-nats.md for the complete account/JWT and transport contract." +:+ newline.

Definition SNIPPET : string := "nats-reference.conf".

Section setup.
Context `{NKeys} `{Seeds} `{Sha256} `{SetupJson} `{ConfigJson} `{CapacityFile}.
Context {X : Type} `{EqDecision X} `{StreamDefaults X} `{ManifestJson X}.

(* @src service/deployment_setup.rs 227-240 artifacts (choices) *)
Definition config_options (config : Config) (replicas : Z) : InitOptions := {|
  auth_mode := match operator_jwt config with Some _ => OperatorMode | None => Configuration end;
  op_target_account := Some (target_account config);
  op_auth_account := auth_account <$> operator_jwt config;
  op_replicas := replicas |}.
(* @src service/deployment_setup.rs 226-292 artifacts *)
Definition setup_artifacts (config : Config) (manifest : DeploymentManifest)
  : result (gmap string string) :=
  let? _ := options_validate (config_options config (m_replicas manifest)) in
  let? base := artifacts (X := X) manifest in
  let? (files, guide) :=
    match operator_jwt config with
    | Some operator =>
        let? text := pretty_value (delegation config operator) in
        Ok (<["operator-delegation.json" := text +:+ newline]> base, operator_guide)
    | None => Ok (<[SNIPPET := snippet config]> base, configuration_guide)
    end in
  Ok (<["SETUP.md" := setup_text guide (m_replicas manifest)]> files).

(** ** Initialization *)

Context {St : Type} `{Pages (ClientDb St)} `{Pages AuthDb} `{Mls St} {V : Type} `{Backend V}
  `{Credentials} `{Json SecretRef} `{Postcard DeviceRegistration} `{Postcard RegistrationPayload}.
Context (capacity : Capacity).

(** The files of the home, its registry with the vault of the home, and the
    control identity with the vault of the control directory. *)
Record Backend_home : Type := {
  bh_disk : Disk;
  bh_auth : Dir AuthDb V;
  bh_control : Home (St := St) (V := V);
}.
Definition on_disk {A} (m : M Disk A) : M Backend_home A := fun b =>
  let '(r, d) := m (bh_disk b) in
  (r, {| bh_disk := d; bh_auth := bh_auth b; bh_control := bh_control b |}).
Definition on_auth {A} (m : M (Dir AuthDb V) A) : M Backend_home A := fun b =>
  let '(r, d) := m (bh_auth b) in
  (r, {| bh_disk := bh_disk b; bh_auth := d; bh_control := bh_control b |}).
Definition on_control {A} (m : M (Home (St := St) (V := V)) A) : M Backend_home A := fun b =>
  let '(r, h) := m (bh_control b) in
  (r, {| bh_disk := bh_disk b; bh_auth := bh_auth b; bh_control := h |}).

(** What the run draws from outside: whether the locks are free, the item ID and
    the secret a new credential would get, what migrating the registry and
    opening the control store return, the clock and the randomness of the control
    identity. *)
Record SetupDraws : Type := {
  sd_lock : bool;
  sd_database_lock : bool;
  sd_vault_lock : bool;
  sd_item : string -> string * result string;
  sd_migrated : result unit;
  sd_control_opened : result unit;
  sd_clock : result Z;
  sd_random : bytes * bytes;
}.

(* @src service/deployment_setup.rs 327-330 initialize (credentials) *)
Definition provision_role (s : SetupDraws) (role : string) (kind : Kind) : M Backend_home SecretRef :=
  let '(fresh, generated) := sd_item s role in
  on_auth (Database.on_vault (provision role kind (sd_vault_lock s) fresh generated)).
(* @src service/deployment_setup.rs 331-334 initialize (control) *)
Definition control_identity (s : SetupDraws) : M Backend_home unit :=
  lift (sd_control_opened s) ;;;
  let* r := on_control (on_db (gets registration)) in
  match r with
  | Ok _ => ret tt
  | Err _ =>
      let* row := on_control (on_db (gets local_identity)) in
      ensure (bool_decide (row = None)) "identity already initialized" ;;;
      let '(fresh, generated) := sd_item s "device" in
      let* reference := on_control (Recovery.on_vault (provision "device" User (sd_vault_lock s) fresh generated)) in
      let* _ := on_control (on_db (init capacity "service" "laptop" (Ok reference) (sd_clock s)
                  (fst (sd_random s)) (snd (sd_random s)))) in
      ret tt
  end.

Definition initial_config (issuer encryption connection : SecretRef) (options : InitOptions)
    (control : KeyPair) : Config := {|
  cfg_version := 2; issuer := issuer; encryption := encryption; connection := connection;
  target_account := target options; control_nkey := public_key control;
  authorization_ttl_seconds := 30; development_plaintext := false;
  operator_jwt := (fun a => {| auth_account := a; connection_jwt := EmptyString |})
                    <$> op_auth_account options |}.

Definition LEGACY : list string := ["issuer.seed"; "encryption.seed"; "auth.seed"].

(* @src service/deployment_setup.rs 295-325 initialize (before the secrets) *)
Definition prepare (home : string) (options : InitOptions) (s : SetupDraws) : M Disk DeploymentManifest :=
  let* manifest := lift (options_validate options) in
  let* fs := files in
  ensure (negb (path_exists (join home "auth.json") fs)) "authentication configuration already exists" ;;;
  ensure (negb (existsb (fun name => path_exists (join home name) fs) LEGACY))
    "pre-Milestone-24 backend is unsupported; choose a fresh home" ;;;
  private_directory home ;;;
  setup_lock home (sd_lock s) ;;;
  let* fs := files in
  ensure (negb (path_exists (join home "auth.json") fs)) "authentication configuration already exists" ;;;
  let* data := lift (pretty_options options) in
  publish_file (join home "auth-init.json") data ;;;
  let* policy := lift (ok_or (m_capacity manifest) (Anyhow "capacity missing")) in
  let* text := lift (pretty_capacity policy) in
  publish_file (join home CAPACITY_FILE) (as_bytes (text +:+ newline)) ;;;
  ret manifest.

(* @src service/deployment_setup.rs 326-351 initialize (secrets) *)
Definition establish (options : InitOptions) (s : SetupDraws) : M Backend_home Config :=
  let '(fresh, generated) := sd_item s "database-auth" in
  on_auth (Database.open "auth" (sd_database_lock s) (sd_vault_lock s) fresh generated) ;;;
  lift (sd_migrated s) ;;;
  let* issuer := provision_role s "issuer" Account in
  let* encryption := provision_role s "encryption" XKey in
  let* connection := provision_role s "connection" User in
  control_identity s ;;;
  let* control := on_control (on_db store_nkey) in
  ret (initial_config issuer encryption connection options control).

(* @src service/deployment_setup.rs 352-368 initialize (artifacts) *)
Definition publish_artifacts (parent : string -> string) (home : string) (config : Config)
    (manifest : DeploymentManifest) : M Disk unit :=
  let* artifacts := lift (setup_artifacts config manifest) in
  let* plain := lift (new_manifest (m_replicas manifest)) in
  let* text := lift (pretty_manifest plain) in
  let data := as_bytes (text +:+ newline) in
  let* fs := files in
  let* _ := lift (same_or_absent (join home MANIFEST_FILE) data fs) in
  match artifacts !! SNIPPET with
  | Some snippet => let* _ := lift (same_or_absent (join home SNIPPET) (as_bytes snippet) fs) in ret tt
  | None => ret tt
  end ;;;
  publish_bundle parent (join home "deployment-artifacts") artifacts ;;;
  match artifacts !! SNIPPET with
  | Some snippet => publish_file (join home SNIPPET) (as_bytes snippet)
  | None => ret tt
  end ;;;
  publish_file (join home MANIFEST_FILE) data.
(** The configuration is the last file, and marks completion. *)
(* @src service/deployment_setup.rs 369-374 initialize (marker) *)
Definition publish_home (parent : string -> string) (home : string) (config : Config)
    (manifest : DeploymentManifest) : M Disk unit :=
  publish_artifacts parent home config manifest ;;;
  let* config_bytes := lift (pretty_config config) in
  publish_file (join home "auth.json") config_bytes.

(* @src service/deployment_setup.rs 294-377 initialize *)
Definition initialize_home (parent : string -> string) (home : string) (options : InitOptions)
    (s : SetupDraws) : M Backend_home unit :=
  let* manifest := on_disk (prepare home options s) in
  let* config := establish options s in
  on_disk (publish_home parent home config manifest).

(** ** Exports *)

(** [canonical] is [canonicalize]; the vaults of the home and of its control
    directory are read only. *)
(* @src service/deployment_setup.rs 401-416 export (credentials) *)
Definition check_credentials (config : Config) (home_vault control_vault : VaultState V) : result unit :=
  rforall (fun '(role, reference) =>
      let? established := existing role (sr_kind reference) home_vault in
      check (bool_decide (established = reference))
        "auth configuration credential does not match backend metadata")
    [("issuer", issuer config); ("encryption", encryption config); ("connection", connection config)] ;;?
  let? control := existing "device" User control_vault in
  check (bool_decide (sr_public_key control = control_nkey config))
    "control identity does not match callout configuration".

(* @src service/deployment_setup.rs 417-434 export (manifest) *)
Definition export_manifest (home : string) (replicas : option Z) (fs : Fs) : result DeploymentManifest :=
  let? manifest :=
    match read_file (join home MANIFEST_FILE) fs with
    | Ok data =>
        let? input := manifest_input data in
        let? manifest := try_from input in
        check (match replicas with Some n => n =? m_replicas manifest | None => true end)
          "--replicas conflicts with established deployment manifest; review deployment changes explicitly" ;;?
        Ok manifest
    | Err e =>
        if bool_decide (e = NotFoundFile) then
          let? n := ok_or replicas (Anyhow "deployment manifest missing: supply --replicas 1 or 3 for this existing installation") in
          new_manifest n
        else Err e
    end in
  if path_exists (join home CAPACITY_FILE) fs then
    let? policy := read_capacity home fs in
    bounded (m_replicas manifest) policy
  else Ok manifest.

(** The checks before anything is written. *)
(* @src service/deployment_setup.rs 400-446 export (checks) *)
Definition export_checks (home path : string) (replicas : option Z) (now : result Z) (home_vault control_vault : VaultState V)
    (fs : Fs) : result (DeploymentManifest * gmap string string) :=
  let? config := load_for_export (read_file path fs) now in
  check_credentials config home_vault control_vault ;;?
  let? manifest := export_manifest home replicas fs in
  let? artifacts := setup_artifacts config manifest in
  check (match path_exists (join home MANIFEST_FILE) fs, fs !! join home MANIFEST_FILE with
         | true, Some node => negb (is_symlink node)
         | _, _ => true
         end) "deployment manifest must not be a symlink" ;;?
  Ok (manifest, artifacts).

(* @src service/deployment_setup.rs 379-460 export *)
Definition export (canonical : string -> result string) (parent : string -> string)
    (home path : string) (replicas : option Z) (output : option string) (lock_free : bool)
    (now : result Z) (home_vault control_vault : VaultState V) : M Disk unit :=
  match replicas with
  | Some n => let* _ := lift (new_manifest n) in ret tt
  | None => ret tt
  end ;;;
  let* fs := files in
  ensure (match follow 40 home fs with Ok node => is_dir node | Err _ => false end)
    "existing backend home required; run auth-init first" ;;;
  let* a := lift (canonical (parent path)) in
  let* b := lift (canonical home) in
  ensure (bool_decide (a = b))
    "auth configuration must be in --home; deployment.json belongs beside it" ;;;
  setup_lock home lock_free ;;;
  let* fs := files in
  let* checked := lift (export_checks home path replicas now home_vault control_vault fs) in
  let '(manifest, artifacts) := checked in
  publish_bundle parent (default (join home "deployment-artifacts") output) artifacts ;;;
  let* fs := files in
  if negb (path_exists (join home MANIFEST_FILE) fs) then
    let* plain := lift (new_manifest (m_replicas manifest)) in
    let* text := lift (pretty_manifest plain) in
    publish_file (join home MANIFEST_FILE) (as_bytes (text +:+ newline))
  else ret tt.

(** [runtime] is what taking the runtime lock returns, [inspected] what the
    inspection of the registry under the new policy does. *)
(* @src service/deployment_setup.rs 502-519 capacity_export (checks) *)
Definition capacity_checks (home path : string) (capacity : Capacity) (now : result Z)
    (inspected : Capacity -> result unit) (replace : bool) (fs : Fs)
  : result (gmap string string * bytes) :=
  inspected capacity ;;?
  let? config := load_for_export (read_file path fs) now in
  let? old := read_file (join home MANIFEST_FILE) fs in
  let? input := manifest_input old in
  let? old := try_from input in
  let? manifest := bounded (m_replicas old) capacity in
  let? bundle := setup_artifacts config manifest in
  let? text := ok_or (bundle !! CAPACITY_FILE) (Anyhow "capacity missing") in
  let destination := join home CAPACITY_FILE in
  if replace && path_exists destination fs then
    let? metadata := symlink_metadata destination fs in
    check (is_file metadata) "capacity policy must be a regular file" ;;?
    let? _ := read_capacity home fs in
    Ok (bundle, as_bytes text)
  else
    let? _ := same_or_absent destination (as_bytes text) fs in
    Ok (bundle, as_bytes text).

(** The replaced policy: written aside, then renamed over the old one. *)
(* @src service/deployment_setup.rs 521-527 capacity_export (replace) *)
Definition replace_policy (destination : string) (data : bytes) : M Disk unit :=
  step id ;;; step id ;;; step id ;;;
  let* user := gets dk_user in
  step (insert destination (private_node user data)) ;;;
  step id.

(* @src service/deployment_setup.rs 481-534 capacity_export *)
Definition capacity_export (canonical : string -> result string) (parent : string -> string)
    (home path policy output : string) (replace : bool) (runtime : M Disk unit) (lock_free : bool)
    (now : result Z) (inspected : Capacity -> result unit) : M Disk unit :=
  let* a := lift (canonical (parent path)) in
  let* b := lift (canonical home) in
  ensure (bool_decide (a = b)) "auth configuration must belong to the backend home" ;;;
  let* fs := files in
  let* capacity := lift (Capacity.load (let? data := read_file policy fs in Ok (Some data))) in
  runtime ;;;
  setup_lock home lock_free ;;;
  let* fs := files in
  let* checked := lift (capacity_checks home path capacity now inspected replace fs) in
  let '(bundle, data) := checked in
  publish_bundle parent output bundle ;;;
  if replace then replace_policy (join home CAPACITY_FILE) data
  else publish_file (join home CAPACITY_FILE) data.
End setup.
