(* ===== verification/SetupFacts.v ===== *)
(** * What setting up keeps and what it completes

    Publication adds files and replaces none; the configuration appears last,
    when everything it stands for is in place; and a retry cannot change the
    choices of the run it repeats. *)
From S2P Require Import Prelude External Wire AuthDb Capacity Identity Merkle Secrets Tls Callout Files Mls ClientDb IdentityStore Trust Recovery Database DatabaseFacts Deployment Setup.

(** ** Files are only added *)

(** Every node stays, with its type, owner and contents; permissions of a
    directory may be restricted. *)
Definition same_node (n n' : Node) : Prop :=
  file_type n' = file_type n /\ owner n' = owner n /\ contents n' = contents n.
Definition fs_grows (fs fs' : Fs) : Prop :=
  forall p n, fs !! p = Some n -> exists n', fs' !! p = Some n' /\ same_node n n'.
Definition grows (d d' : Disk) : Prop := fs_grows (dk_fs d) (dk_fs d') /\ dk_user d' = dk_user d.

#[export] Instance same_node_preorder : PreOrder same_node.
Proof. split; [done|]. intros a b c (?&?&?) (?&?&?). unfold same_node. split_and!; congruence. Qed.
#[export] Instance fs_grows_preorder : PreOrder fs_grows.
Proof.
  split; [intros fs p n Hn; by exists n|]. intros a b c Hab Hbc p n Hn.
  destruct (Hab p n Hn) as (n1 & H1 & S1). destruct (Hbc p n1 H1) as (n2 & H2 & S2).
  exists n2. split; [done|]. by etrans.
Qed.
#[export] Instance grows_preorder : PreOrder grows.
Proof. split; [by split|]. intros a b c [? ?] [? ?]. split; [by etrans|congruence]. Qed.

Lemma fs_grows_insert fs p n : fs !! p = None -> fs_grows fs (<[p := n]> fs).
Proof.
  intros Hp q m Hq. exists m. split; [|done]. rewrite lookup_insert_ne; [done|]. congruence.
Qed.
Lemma fs_grows_union fs new : (forall p n, new !! p = Some n -> fs !! p = None) -> fs_grows fs (new ∪ fs).
Proof.
  intros Hn p n Hp. exists n. split; [|done]. apply lookup_union_Some_raw. right. split; [|done].
  destruct (new !! p) eqn:E; [|done]. rewrite (Hn _ _ E) in Hp. done.
Qed.

(** One operation: it happens or not, whatever is reported. *)
Lemma step_run f d r d' :
  step f d = (r, d') -> dk_user d' = dk_user d /\ (dk_fs d' = f (dk_fs d) \/ dk_fs d' = dk_fs d /\ exists e, r = Err e).
Proof.
  unfold step, disk_op. destruct (default None (head (dk_io d))) as [[|n]|]; intros [= <- <-]; cbn; eauto.
Qed.
(** A relation of files a single change respects. *)
Lemma keeps_step (R : Disk -> Disk -> Prop) `{!PreOrder R} f d :
  (forall d', dk_user d' = dk_user d -> dk_fs d' = dk_fs d -> R d d') ->
  (forall d', dk_user d' = dk_user d -> dk_fs d' = f (dk_fs d) -> R d d') -> R d (snd (step f d)).
Proof.
  intros Hid Hf. destruct (step f d) as [r d'] eqn:Hrun. cbn [snd].
  apply step_run in Hrun as [Hu [Hd|[Hd _]]]; auto.
Qed.

(** A bundle's directory that is not there has nothing below it. *)
Definition no_orphans (output : string) (fs : Fs) : Prop :=
  fs !! output = None -> forall name, fs !! join output name = None.
(** What a run with the bundle directory [output] does, and what it may add. *)
Section publishes.
Context (added : string -> Prop).
Definition publishes (output : string) (d d' : Disk) : Prop :=
  no_orphans output (dk_fs d) -> grows d d' /\ no_orphans output (dk_fs d') /\
  forall p, is_Some (dk_fs d' !! p) -> is_Some (dk_fs d !! p) \/ added p.
#[export] Instance publishes_preorder output : PreOrder (publishes output).
Proof.
  split; [intros d Hd; split_and!; [done..|by left]|]. intros a b c Hab Hbc Ha.
  destruct (Hab Ha) as (? & Hb & Hx). destruct (Hbc Hb) as (? & ? & Hy). split_and!; [by etrans|done|].
  intros p [?%Hx|?]%Hy; [done|by right].
Qed.

Lemma publishes_same output d d' :
  dk_user d' = dk_user d -> dk_fs d' = dk_fs d -> publishes output d d'.
Proof. intros Hu Hf Hd. unfold grows. rewrite Hf. split_and!; [done..|by left]. Qed.
Lemma publishes_step_id output : keeps (publishes output) (step id).
Proof. intros d. apply keeps_step; [apply _|apply publishes_same..]. Qed.

(** Paths a setup adds one by one are not below the bundle's directory. *)
Definition outside (output path : string) : Prop := forall name, path <> join output name.
Lemma publishes_insert output path n d d' :
  outside output path -> added path -> dk_fs d !! path = None ->
  dk_user d' = dk_user d -> dk_fs d' = <[path := n]> (dk_fs d) -> publishes output d d'.
Proof.
  intros Ho Ha Hp Hu Hf Hd. unfold grows. rewrite Hf. split_and!; [by apply fs_grows_insert|done| |].
  2: { intros p Hx. destruct (decide (path = p)) as [<-|]; [by right|]. left. by rewrite lookup_insert_ne in Hx. }
  intros Hout name. rewrite lookup_insert_ne by by apply Ho.
  apply Hd. destruct (decide (path = output)) as [->|]; [by rewrite lookup_insert_eq in Hout|].
  by rewrite lookup_insert_ne in Hout.
Qed.

Lemma publishes_publish_new output path data :
  outside output path -> added path -> keeps (publishes output) (publish_new path data).
Proof.
  intros Ho Ha. pose proof (publishes_step_id output) as Hid. unfold publish_new.
  do 3 (apply keeps_bind; [apply _|exact Hid|intros _]).
  intros d. unfold files, bind at 1, gets. unfold bind at 1, ensure.
  destruct (bool_decide _) eqn:Hb; [|reflexivity]. bool_prop.
  unfold bind at 1, gets. apply keeps_bind_at.
  - intros [] d1 Hrun. etrans; [|apply Hid].
    pose proof (keeps_step (publishes output) (insert path (private_node (dk_user d) data)) d) as Hs.
    rewrite Hrun in Hs. apply Hs; [apply publishes_same|]. intros d'. by apply publishes_insert.
  - intros e d1 Hrun.
    pose proof (keeps_step (publishes output) (insert path (private_node (dk_user d) data)) d) as Hs.
    rewrite Hrun in Hs. apply Hs; [apply publishes_same|]. intros d'. by apply publishes_insert.
Qed.
Lemma publishes_publish_file output path data :
  outside output path -> added path -> keeps (publishes output) (publish_file path data).
Proof.
  intros Ho Ha. unfold publish_file. pose proof (publishes_publish_new output path data Ho Ha). keeps_auto.
Qed.

Lemma join_inj dir a b : join dir a = join dir b -> a = b.
Proof. unfold join. intros He. by do 2 apply (inj _) in He. Qed.
Lemma string_app_assoc (a b c : string) : (a +:+ b) +:+ c = a +:+ (b +:+ c).
Proof. induction a as [|x a IH]; [done|].
  change (String x ((a +:+ b) +:+ c) = String x (a +:+ (b +:+ c))). by rewrite IH.
Qed.
Lemma string_app_ne (s t : string) : t <> EmptyString -> s +:+ t <> s.
Proof. intros Ht. induction s as [|c s IH]; [done|]. intros [= He]. by apply IH. Qed.
Lemma join_ne dir name : join dir name <> dir.
Proof. by apply string_app_ne. Qed.
Lemma publishes_alter output path d d' :
  let f n := {| file_type := file_type n; owner := owner n; mode := 0x1C0; contents := contents n |} in
  dk_user d' = dk_user d -> dk_fs d' = alter f path (dk_fs d) -> publishes output d d'.
Proof.
  intros f Hu Hf Hd. unfold grows. rewrite Hf. split_and!; [|done| |].
  3: { intros p [n Hx]. left. apply lookup_alter_Some in Hx as [(-> & x & -> & _)|[_ ->]]; by eexists. }
  - intros p n Hn. destruct (decide (p = path)) as [->|].
    + exists (f n). rewrite lookup_alter_eq, Hn. split; [done|]. by split.
    + exists n. by rewrite lookup_alter_ne.
  - intros Hout name. destruct (decide (output = path)) as [->|Hne].
    + rewrite lookup_alter_eq in Hout. destruct (dk_fs d !! path) eqn:E; [done|].
      destruct (decide (join path name = path)) as [He|].
      * rewrite He, lookup_alter_eq, E. done.
      * rewrite lookup_alter_ne by done. by apply Hd.
    + rewrite lookup_alter_ne in Hout by done. specialize (Hd Hout name).
      destruct (decide (join output name = path)) as [He|]; [|by rewrite lookup_alter_ne].
      rewrite He in *. by rewrite lookup_alter_eq, Hd.
Qed.
(** A guarded insertion, with the state it was decided in. *)
Lemma publishes_insert_step output path n d :
  outside output path -> added path -> dk_fs d !! path = None ->
  publishes output d (snd (step (insert path n) d)).
Proof.
  intros Ho Ha Hp. apply keeps_step; [apply _|apply publishes_same|]. intros d'. by apply publishes_insert.
Qed.
Lemma publishes_create_dir_all output path :
  outside output path -> added path -> keeps (publishes output) (create_dir_all path).
Proof.
  intros Ho Ha d. unfold create_dir_all, files, bind, gets.
  destruct (dk_fs d !! path) eqn:E; [|by apply publishes_insert_step].
  unfold lift, ensure. destruct (follow 40 path (dk_fs d)) as [node|]; [by destruct (is_dir node)|reflexivity].
Qed.
Lemma publishes_private_directory output path :
  outside output path -> added path -> keeps (publishes output) (private_directory path).
Proof.
  intros Ho Ha. unfold private_directory, files. pose proof (publishes_create_dir_all output path Ho Ha).
  assert (keeps (publishes output) (step (alter (fun n => {| file_type := file_type n; owner := owner n;
    mode := 0x1C0; contents := contents n |}) path))).
  { intros d. apply keeps_step; [apply _|apply publishes_same|apply publishes_alter]. }
  keeps_auto.
Qed.
Lemma publishes_lock output home free :
  outside output (join home "auth-init.lock") -> added (join home "auth-init.lock") ->
  keeps (publishes output) (setup_lock home free).
Proof.
  intros Ho Ha. unfold setup_lock.
  assert (forall user, keeps (publishes output) (step (fun fs : Fs =>
    match fs !! join home "auth-init.lock" with
    | None => <[join home "auth-init.lock" := private_node user []]> fs | Some _ => fs end))) as Hs.
  { intros user d. apply keeps_step; [apply _|apply publishes_same|]. intros d' Hu Hf.
    destruct (dk_fs d !! join home "auth-init.lock") eqn:E; [by apply publishes_same|].
    by eapply publishes_insert. }
  unfold files. keeps_auto.
Qed.

(** ** Bundles *)

Lemma bundle_in output user (artifacts : gmap string string) name text :
  artifacts !! name = Some text ->
  bundle_files output user artifacts !! join output name = Some (private_node user (as_bytes text)).
Proof.
  intros Ha. unfold bundle_files. rewrite lookup_insert_ne.
  - apply elem_of_list_to_map_1.
    + rewrite <- list_fmap_compose. apply NoDup_fmap_2_strong; [|apply NoDup_map_to_list].
      intros [a ta] [b tb] H1 H2 He. cbn in He. apply join_inj in He as ->.
      apply elem_of_map_to_list in H1, H2. congruence.
    + apply list_elem_of_fmap. exists (name, text). split; [done|]. by apply elem_of_map_to_list.
  - by apply not_eq_sym, join_ne.
Qed.
Lemma bundle_only output user (artifacts : gmap string string) p n :
  bundle_files output user artifacts !! p = Some n -> p = output \/ exists name, p = join output name.
Proof.
  unfold bundle_files. intros Hp. destruct (decide (p = output)) as [->|Hne]; [by left|]. right.
  rewrite lookup_insert_ne in Hp by done. apply elem_of_list_to_map_2, list_elem_of_fmap in Hp as ([name t] & [= -> ->] & _).
  by exists name.
Qed.
Lemma publishes_bundle output user artifacts d d' :
  added output -> (forall name, added (join output name)) ->
  dk_fs d !! output = None -> dk_user d' = dk_user d ->
  dk_fs d' = bundle_files output user artifacts ∪ dk_fs d -> publishes output d d'.
Proof.
  intros Ha Hn Ho Hu Hf Hd. unfold grows. rewrite Hf. split_and!; [|done| |].
  3: { intros p [n [Hb|[_ Hx]]%lookup_union_Some_raw]; [right|by left].
       by apply bundle_only in Hb as [->|[name ->]]. }
  - apply fs_grows_union. intros p n [->|[name ->]]%bundle_only; [done|]. by apply Hd.
  - intros Hout. exfalso. apply lookup_union_None in Hout as [Hout _].
    unfold bundle_files in Hout. by rewrite lookup_insert_eq in Hout.
Qed.
Lemma publishes_move_bundle output artifacts :
  added output -> (forall name, added (join output name)) ->
  keeps (publishes output) (move_bundle output artifacts).
Proof.
  intros Ha Hn d. unfold move_bundle, files, bind at 1, gets. unfold bind at 1, ensure.
  destruct (negb _); [|reflexivity]. unfold bind at 1. destruct (bool_decide _) eqn:Hb; [|reflexivity].
  bool_prop. unfold bind at 1, gets.
  assert (publishes output d (snd (step (fun fs => bundle_files output (dk_user d) artifacts ∪ fs) d))) as Hs.
  { apply keeps_step; [apply _|apply publishes_same|]. intros d'. by apply publishes_bundle. }
  apply keeps_bind_at.
  - intros [] d1 Hrun. rewrite Hrun in Hs. etrans; [exact Hs|apply publishes_step_id].
  - intros e d1 Hrun. by rewrite Hrun in Hs.
Qed.
Lemma publishes_publish_bundle parent output artifacts :
  added output -> (forall name, added (join output name)) ->
  keeps (publishes output) (publish_bundle parent output artifacts).
Proof.
  intros Ha Hn. pose proof (publishes_step_id output) as Hid.
  pose proof (publishes_move_bundle output artifacts Ha Hn).
  unfold publish_bundle, files. keeps_all.
Qed.
End publishes.

(** ** What is published *)

(** A regular file with these contents. *)
Definition has (path : string) (data : bytes) (fs : Fs) : Prop :=
  exists n, fs !! path = Some n /\ file_type n = Regular /\ contents n = data.
Lemma has_grows path data d d' : grows d d' -> has path data (dk_fs d) -> has path data (dk_fs d').
Proof.
  intros [Hg _] (n & Hn & Ht & Hc). destruct (Hg _ _ Hn) as (n' & Hn' & Ht' & _ & Hc').
  exists n'. split_and!; congruence.
Qed.
Lemma read_regular path fs n :
  fs !! path = Some n -> file_type n = Regular -> read_file path fs = Ok (contents n).
Proof.
  intros Hn Ht. unfold read_file. assert (forall fuel, follow fuel path fs = Ok n) as ->.
  { intros fuel. destruct fuel; cbn [follow]; unfold symlink_metadata; by rewrite Hn; cbn; rewrite Ht. }
  cbn [rbind]. unfold is_file. by rewrite Ht.
Qed.
Lemma same_or_absent_has path data fs : same_or_absent path data fs = Ok true -> has path data fs.
Proof.
  unfold same_or_absent. destruct (fs !! path) as [n|] eqn:Hn; [|done].
  intros Hs. apply rbind_Ok in Hs as ([] & Hf%check_Ok & Hs).
  apply rbind_Ok in Hs as (current & Hr & Hs). apply rbind_Ok in Hs as ([] & Hb%check_Ok & _).
  unfold is_file in Hf. bool_prop. rewrite (read_regular _ _ _ Hn Hf) in Hr. injection Hr as Hr.
  exists n. split_and!; congruence.
Qed.
Lemma step_Ok f d d' : step f d = (Ok tt, d') -> dk_fs d' = f (dk_fs d) /\ dk_user d' = dk_user d.
Proof. intros Hrun. apply step_run in Hrun as [? [?|[_ [e ?]]]]; done. Qed.
Lemma publish_file_has path data d d' :
  publish_file path data d = (Ok tt, d') -> has path data (dk_fs d').
Proof.
  unfold publish_file, files. intros Hrun. apply bind_Ok in Hrun as (fs & d1 & [-> ->]%gets_Ok & Hrun).
  apply bind_Ok in Hrun as (same & d1 & [Hs ->]%lift_Ok & Hrun). destruct same.
  { apply ret_Ok in Hrun as [_ ->]. by apply same_or_absent_has. }
  unfold publish_new, files in Hrun. do 3 (apply bind_Ok in Hrun as ([] & ? & _ & Hrun)).
  apply bind_Ok in Hrun as (fs & d2 & [-> ->]%gets_Ok & Hrun).
  apply bind_Ok in Hrun as ([] & d2 & [_ ->]%ensure_Ok & Hrun).
  apply bind_Ok in Hrun as (user & d2 & [-> ->]%gets_Ok & Hrun).
  apply bind_Ok in Hrun as ([] & d2 & [Hf _]%step_Ok & [Hf' _]%step_Ok).
  rewrite Hf', Hf. unfold id. eexists. by rewrite lookup_insert_eq.
Qed.
(** Every artifact of a bundle, in its directory. *)
Definition has_bundle (output : string) (artifacts : gmap string string) (fs : Fs) : Prop :=
  forall name text, artifacts !! name = Some text -> has (join output name) (as_bytes text) fs.
Lemma publish_bundle_has parent output artifacts d d' :
  publish_bundle parent output artifacts d = (Ok tt, d') -> has_bundle output artifacts (dk_fs d').
Proof.
  unfold publish_bundle, files. intros Hrun name text Ha.
  apply bind_Ok in Hrun as (fs & d1 & [-> ->]%gets_Ok & Hrun).
  apply bind_Ok in Hrun as (same & d1 & [Hs ->]%lift_Ok & Hrun). destruct same.
  { apply ret_Ok in Hrun as [_ ->]. unfold bundle_matches in Hs.
    destruct (dk_fs d !! output); [|done].
    apply rbind_Ok in Hs as (_ & _ & Hs). apply rbind_Ok in Hs as (_ & _ & Hs).
    apply rbind_Ok in Hs as (u & Hs & _). apply rforall_Ok in Hs. rewrite List.Forall_forall in Hs.
    specialize (Hs (name, text)). apply same_or_absent_has.
    assert (In (name, text) (map_to_list artifacts)) as Hin
      by (by apply list_elem_of_In, elem_of_map_to_list).
    specialize (Hs Hin). cbn in Hs. apply rbind_Ok in Hs as ([] & Hs & He); [done|].
    by apply check_Ok in He. }
  do 5 (apply bind_Ok in Hrun as ([] & ? & _ & Hrun)). unfold move_bundle, files in Hrun.
  apply bind_Ok in Hrun as (fs & d2 & [-> ->]%gets_Ok & Hrun).
  do 2 (apply bind_Ok in Hrun as ([] & d2 & [_ ->]%ensure_Ok & Hrun)).
  apply bind_Ok in Hrun as (user & d2 & [-> ->]%gets_Ok & Hrun).
  apply bind_Ok in Hrun as ([] & d2 & [Hf _]%step_Ok & [Hf' _]%step_Ok).
  rewrite Hf', Hf. unfold id. eexists.
  split; [apply lookup_union_Some_raw; left; by apply bundle_in|done].
Qed.

(** ** Initialization *)

Section setup.
Context `{NKeys} `{Seeds} `{Sha256} `{SetupJson} `{ConfigJson} `{CapacityFile}.
Context {X : Type} `{EqDecision X} `{StreamDefaults X} `{ManifestJson X}.
Context {St : Type} `{Pages (ClientDb St)} `{Pages AuthDb} `{Mls St} {V : Type} `{Backend V}
  `{Credentials} `{Json SecretRef} `{Postcard DeviceRegistration} `{Postcard RegistrationPayload}.
Context (capacity : Capacity).
Implicit Types (b : Backend_home (St := St) (V := V)).

Definition BUNDLE : string := "deployment-artifacts".
Lemma outside_home home : outside (join home BUNDLE) home.
Proof.
  intros name. unfold join. rewrite !string_app_assoc. by apply not_eq_sym, string_app_ne.
Qed.
(** The files of the home are not in the bundle. *)
Definition home_files : list string :=
  ["auth-init.lock"; "auth-init.json"; CAPACITY_FILE; SNIPPET; MANIFEST_FILE; "auth.json"].
Lemma outside_file home name : name ∈ home_files -> outside (join home BUNDLE) (join home name).
Proof.
  intros Hn other. unfold join. rewrite !string_app_assoc. intros He. apply (inj _) in He.
  revert He. unfold home_files in Hn. rewrite !elem_of_cons, elem_of_nil in Hn.
  destruct Hn as [->|[->|[->|[->|[->|[->|[]]]]]]]; discriminate.
Qed.

Lemma outside_listed home name :
  bool_decide (name ∈ home_files) = true -> outside (join home BUNDLE) (join home name).
Proof. intros Hn. bool_prop. by apply outside_file. Qed.

(** Everything, and everything but the configuration. *)
Definition anything (_ : string) : Prop := True.
Definition unmarked (home p : string) : Prop := p <> join home "auth.json".
Lemma unmarked_file home name : name <> "auth.json" -> unmarked home (join home name).
Proof. intros Hn He%join_inj. done. Qed.
Lemma unmarked_bundle home name : unmarked home (join (join home BUNDLE) name).
Proof. apply not_eq_sym, outside_file. by do 5 right; left. Qed.

Ltac allowed :=
  first [exact I | apply not_eq_sym, join_ne | apply unmarked_bundle | apply unmarked_file; discriminate].
Ltac publishing :=
  repeat match goal with
  | |- keeps _ (publish_file _ _) =>
      apply publishes_publish_file; [apply outside_listed; vm_compute; reflexivity|allowed]
  | |- keeps _ (private_directory _) => apply publishes_private_directory; [apply outside_home|allowed]
  | |- keeps _ (setup_lock _ _) =>
      apply publishes_lock; [apply outside_listed; vm_compute; reflexivity|allowed]
  | |- keeps _ (publish_bundle _ _ _) => apply publishes_publish_bundle; [allowed|intros; allowed]
  | |- keeps _ (match ?x with _ => _ end) => destruct x
  | |- keeps _ (bind _ _) => apply keeps_bind; [apply _| |intros]
  | |- keeps _ files => apply keeps_gets; apply _
  | |- keeps _ _ => progress (eauto 3 with keeps)
  end.
Lemma publishes_prepare home options s :
  keeps (publishes (unmarked home) (join home BUNDLE)) (prepare home options s).
Proof. unfold prepare. publishing. Qed.
Lemma publishes_artifacts parent home config manifest :
  keeps (publishes (unmarked home) (join home BUNDLE)) (publish_artifacts (X := X) parent home config manifest).
Proof. unfold publish_artifacts. publishing. Qed.
Lemma publishes_weaken (A B : string -> Prop) output d d' :
  (forall p, A p -> B p) -> publishes A output d d' -> publishes B output d d'.
Proof.
  intros HAB Hp Ho. destruct (Hp Ho) as (? & ? & Ha). split_and!; [done..|].
  intros p [?|?]%Ha; [by left|right; auto].
Qed.
Lemma publishes_home parent home config manifest :
  keeps (publishes anything (join home BUNDLE)) (publish_home (X := X) parent home config manifest).
Proof.
  unfold publish_home. apply keeps_bind; [apply _| |intros; publishing].
  intros d. eapply publishes_weaken; [|apply publishes_artifacts]. done.
Qed.

(** The credentials are not files of the home's directory listing. *)
Definition same_disk b b' : Prop := bh_disk b' = bh_disk b.
#[local] Instance same_disk_preorder : PreOrder same_disk.
Proof. split; [done|]. unfold same_disk. intros ??? -> ->. done. Qed.
Lemma same_disk_auth {A} (m : M (Dir AuthDb V) A) : keeps same_disk (on_auth m).
Proof. intros b. unfold on_auth. by destruct (m (bh_auth b)). Qed.
Lemma same_disk_control {A} (m : M (Home (St := St) (V := V)) A) : keeps same_disk (on_control m).
Proof. intros b. unfold on_control. by destruct (m (bh_control b)). Qed.
Lemma same_disk_establish options s : keeps same_disk (establish capacity options s).
Proof.
  pose proof @same_disk_auth. pose proof @same_disk_control.
  unfold establish, provision_role, control_identity. keeps_auto.
Qed.
Lemma on_disk_publishes {A} (m : M Disk A) added output b :
  keeps (publishes added output) m -> publishes added output (bh_disk b) (bh_disk (snd (on_disk m b))).
Proof. intros Hm. specialize (Hm (bh_disk b)). unfold on_disk. by destruct (m (bh_disk b)). Qed.

(** Setting up replaces nothing: whatever fails, and wherever it stops, every
    file that was there is there with its type, owner and contents, whether a
    home is initialized or its artifacts are exported. *)
Theorem setup_never_overwrites parent home options s b canonical path replicas output free now hv cv :
  no_orphans (join home BUNDLE) (dk_fs (bh_disk b)) ->
  let target := default (join home BUNDLE) output in
  no_orphans target (dk_fs (bh_disk b)) -> outside target (join home "auth-init.lock") ->
  outside target (join home MANIFEST_FILE) ->
  grows (bh_disk b) (bh_disk (snd (initialize_home (X := X) capacity parent home options s b))) /\
  grows (bh_disk b)
    (snd (export (X := X) (V := V) canonical parent home path replicas output free now hv cv (bh_disk b))).
Proof.
  intros Ho target Ht Hl Hm. split.
  - assert (publishes anything (join home BUNDLE) (bh_disk b)
      (bh_disk (snd (initialize_home (X := X) capacity parent home options s b)))) as Hp; [|by apply Hp].
    unfold initialize_home, bind.
    pose proof (publishes_weaken _ anything _ _ _ (fun _ _ => I)
      (on_disk_publishes _ _ _ b (publishes_prepare home options s))) as Hprep.
    destruct (on_disk (prepare home options s) b) as [[manifest|e] b1]; [|exact Hprep].
    pose proof (same_disk_establish options s b1) as Hest.
    destruct (establish capacity options s b1) as [[config|e] b2]; cbn [snd] in Hest; unfold same_disk in Hest;
      [|cbn [snd]; rewrite Hest; exact Hprep].
    transitivity (bh_disk b2); [rewrite Hest; exact Hprep|]. apply on_disk_publishes, publishes_home.
  - assert (keeps (publishes anything target)
      (export (X := X) (V := V) canonical parent home path replicas output free now hv cv)) as Hp; [|by apply Hp].
    unfold export. fold BUNDLE. fold target.
    repeat match goal with
    | |- keeps _ (publish_file _ _) => apply publishes_publish_file; [exact Hm|exact I]
    | |- keeps _ (setup_lock _ _) => apply publishes_lock; [exact Hl|exact I]
    | |- keeps _ (publish_bundle _ _ _) => apply publishes_publish_bundle; [exact I|intros; exact I]
    | |- keeps _ (match ?x with _ => _ end) => destruct x
    | |- keeps _ (bind _ _) => apply keeps_bind; [apply _| |intros]
    | |- keeps _ files => apply keeps_gets; apply _
    | |- keeps _ _ => progress (eauto 3 with keeps)
    end.
Qed.

(** ** The marker *)

Lemma publishes_run {A} added output (m : M Disk A) d r d' :
  keeps (publishes added output) m -> m d = (r, d') -> no_orphans output (dk_fs d) ->
  grows d d' /\ no_orphans output (dk_fs d') /\
  forall p, is_Some (dk_fs d' !! p) -> is_Some (dk_fs d !! p) \/ added p.
Proof. intros Hm Hrun. specialize (Hm d). rewrite Hrun in Hm. exact Hm. Qed.

Tactic Notation "grown" hyp(H) hyp(Ho) "as" ident(Hg) ident(Ho') :=
  lazymatch type of H with
  | ?m ?d = (?r, ?d') =>
      match goal with
      | |- context [join ?home _] =>
          let Hk := fresh in
          assert (keeps (publishes anything (join home BUNDLE)) m) as Hk by publishing;
          destruct (publishes_run _ _ m d r d' Hk H Ho) as (Hg & Ho' & _); clear Hk
      end
  end.

(** What is at a path after a publication, even one that failed. *)
Definition written (path : string) (data : bytes) (d d' : Disk) : Prop :=
  dk_fs d' !! path = dk_fs d !! path \/ has path data (dk_fs d').
#[local] Instance written_preorder path data : PreOrder (written path data).
Proof.
  split; [by left|]. intros a b c Hab [Hbc|Hbc]; [|by right]. destruct Hab as [Hab|(n & Hn & ?)].
  - left. congruence.
  - right. exists n. by rewrite Hbc.
Qed.
Lemma written_publish_file path data : keeps (written path data) (publish_file path data).
Proof.
  assert (keeps (written path data) (step id)) as Hid.
  { intros d. apply keeps_step; [apply _|intros d' _ Hf; left; by rewrite Hf..]. }
  assert (forall user, keeps (written path data) (step (insert path (private_node user data)))) as Hin.
  { intros user d. apply keeps_step; [apply _|intros d' _ Hf; left; by rewrite Hf|]. intros d' _ Hf. right.
    unfold has. rewrite Hf, lookup_insert_eq. by exists (private_node user data). }
  unfold publish_file, publish_new, files. keeps_auto.
Qed.

Lemma prepare_Ok home options s d manifest d' :
  prepare home options s d = (Ok manifest, d') -> no_orphans (join home BUNDLE) (dk_fs d) ->
  options_validate options = Ok manifest /\
  (exists data, pretty_options options = Ok data /\ has (join home "auth-init.json") data (dk_fs d')) /\
  (exists policy text, m_capacity manifest = Some policy /\ pretty_capacity policy = Ok text /\
     has (join home CAPACITY_FILE) (as_bytes (text +:+ newline)) (dk_fs d')).
Proof.
  intros Hrun Ho. unfold prepare in Hrun. apply bind_Ok in Hrun as (m & d1 & [Hv ->]%lift_Ok & Hrun).
  apply bind_Ok in Hrun as (fs & d1 & [-> ->]%gets_Ok & Hrun).
  do 2 (apply bind_Ok in Hrun as ([] & d1 & [_ ->]%ensure_Ok & Hrun)).
  apply bind_Ok in Hrun as ([] & d1 & Hp & Hrun).
  grown Hp Ho as G Ho1.
  apply bind_Ok in Hrun as ([] & d2 & Hl & Hrun).
  grown Hl Ho1 as G2 Ho2.
  apply bind_Ok in Hrun as (fs & d3 & [-> ->]%gets_Ok & Hrun).
  apply bind_Ok in Hrun as ([] & d3 & [_ ->]%ensure_Ok & Hrun).
  apply bind_Ok in Hrun as (data & d3 & [Hd ->]%lift_Ok & Hrun).
  apply bind_Ok in Hrun as ([] & d3 & Hi & Hrun).
  grown Hi Ho2 as G3 Ho3.
  apply bind_Ok in Hrun as (policy & d4 & [Hc%ok_or_Ok ->]%lift_Ok & Hrun).
  apply bind_Ok in Hrun as (text & d4 & [Ht ->]%lift_Ok & Hrun).
  apply bind_Ok in Hrun as ([] & d4 & Hq & [-> ->]%ret_Ok).
  grown Hq Ho3 as Hg Ho4.
  split; [done|]. split.
  - exists data. split; [done|]. eapply has_grows; [exact Hg|]. by eapply publish_file_has.
  - exists policy, text. split_and!; [done..|]. by eapply publish_file_has.
Qed.
Lemma publish_artifacts_Ok parent home config manifest d d' :
  publish_artifacts (X := X) parent home config manifest d = (Ok tt, d') ->
  no_orphans (join home BUNDLE) (dk_fs d) ->
  exists artifacts plain text, setup_artifacts (X := X) config manifest = Ok artifacts /\
    new_manifest (m_replicas manifest) = Ok plain /\ pretty_manifest (X := X) plain = Ok text /\
    has_bundle (join home BUNDLE) artifacts (dk_fs d') /\
    has (join home MANIFEST_FILE) (as_bytes (text +:+ newline)) (dk_fs d').
Proof.
  intros Hrun Ho. unfold publish_artifacts in Hrun.
  apply bind_Ok in Hrun as (artifacts & d1 & [Ha ->]%lift_Ok & Hrun).
  apply bind_Ok in Hrun as (plain & d1 & [Hp ->]%lift_Ok & Hrun).
  apply bind_Ok in Hrun as (text & d1 & [Ht ->]%lift_Ok & Hrun).
  apply bind_Ok in Hrun as (fs & d1 & [-> ->]%gets_Ok & Hrun).
  apply bind_Ok in Hrun as (u & d1 & [_ ->]%lift_Ok & Hrun).
  apply bind_Ok in Hrun as ([] & d1 & Hs & Hrun).
  assert (d1 = d) as ->.
  { destruct (artifacts !! SNIPPET); [|by apply ret_Ok in Hs as [_ ->]].
    apply bind_Ok in Hs as (? & ? & [_ ->]%lift_Ok & Hs). by apply ret_Ok in Hs as [_ ->]. }
  apply bind_Ok in Hrun as ([] & d2 & Hb & Hrun).
  grown Hb Ho as G Ho2.
  apply bind_Ok in Hrun as ([] & d3 & Hn & Hm).
  grown Hn Ho2 as Hg3 Ho3.
  grown Hm Ho3 as Hg4 Ho4.
  exists artifacts, plain, text. split_and!; [done..| |by eapply publish_file_has].
  intros name t Hx. eapply has_grows; [exact Hg4|]. eapply has_grows; [exact Hg3|].
  by eapply publish_bundle_has.
Qed.

Lemma prepare_unmarked home options s d :
  no_orphans (join home BUNDLE) (dk_fs d) -> dk_fs d !! join home "auth.json" = None ->
  dk_fs (snd (prepare home options s d)) !! join home "auth.json" = None.
Proof.
  intros Ho Hn. destruct (publishes_prepare home options s d Ho) as (_ & _ & Ha).
  apply eq_None_not_Some. intros [[? ?]|Hu]%Ha; [congruence|]. by apply Hu.
Qed.
Lemma artifacts_unmarked parent home config manifest d :
  no_orphans (join home BUNDLE) (dk_fs d) -> dk_fs d !! join home "auth.json" = None ->
  dk_fs (snd (publish_artifacts (X := X) parent home config manifest d)) !! join home "auth.json" = None.
Proof.
  intros Ho Hn. destruct (publishes_artifacts parent home config manifest d Ho) as (_ & _ & Ha).
  apply eq_None_not_Some. intros [[? ?]|Hu]%Ha; [congruence|]. by apply Hu.
Qed.

(** The roles of the home's vault. *)
Definition role_kinds (config : Config) : list (string * SecretRef * Kind) :=
  [("issuer", issuer config, Account); ("encryption", encryption config, XKey);
   ("connection", connection config, User)].
Definition credentials_established (config : Config) (vault : VaultState V) : Prop :=
  Forall (fun '(role, reference, kind) => existing role kind vault = Ok reference) (role_kinds config).

Definition vaults_grow b b' : Prop := vault_le (d_vault (bh_auth b)) (d_vault (bh_auth b')).
#[local] Instance vaults_grow_preorder : PreOrder vaults_grow.
Proof. unfold vaults_grow. split; [intros b; reflexivity|]. intros a b c Hab Hbc. by etrans. Qed.
Context `{!BackendLaws V}.
Lemma provision_role_Ok s role kind b reference b' :
  provision_role s role kind b = (Ok reference, b') ->
  vaults_grow b b' /\ existing role kind (d_vault (bh_auth b')) = Ok reference.
Proof.
  unfold provision_role, on_auth, Database.on_vault, provision, vaults_grow.
  destruct (sd_item s role) as [fresh generated].
  destruct (vault_ensure role kind None (sd_vault_lock s) fresh generated (d_vault (bh_auth b)))
    as [r v] eqn:Hrun. cbn. intros [= -> <-]. cbn. split.
  - pose proof (vault_ensure_le role kind None (sd_vault_lock s) fresh generated (d_vault (bh_auth b))) as Hle.
    by rewrite Hrun in Hle.
  - by apply vault_provisions in Hrun as (_ & _ & He & _).
Qed.
Lemma vaults_grow_control {A} (m : M (Home (St := St) (V := V)) A) : keeps vaults_grow (on_control m).
Proof. intros b. unfold on_control, vaults_grow. by destruct (m (bh_control b)). Qed.
Lemma control_identity_grows s : keeps vaults_grow (control_identity capacity s).
Proof. pose proof @vaults_grow_control. unfold control_identity. keeps_auto. Qed.
Lemma establish_Ok options s b config b' :
  establish capacity options s b = (Ok config, b') ->
  credentials_established config (d_vault (bh_auth b')) /\
  target_account config = target options /\
  auth_account <$> operator_jwt config = op_auth_account options.
Proof.
  unfold establish. destruct (sd_item s "database-auth") as [fresh generated]. intros Hrun.
  apply bind_Ok in Hrun as ([] & b1 & _ & Hrun). apply bind_Ok in Hrun as ([] & b2 & _ & Hrun).
  apply bind_Ok in Hrun as (i & b3 & [_ Hi]%provision_role_Ok & Hrun).
  apply bind_Ok in Hrun as (e & b4 & [G4 He]%provision_role_Ok & Hrun).
  apply bind_Ok in Hrun as (c & b5 & [G5 Hc]%provision_role_Ok & Hrun).
  apply bind_Ok in Hrun as ([] & b6 & Hid & Hrun). apply bind_Ok in Hrun as (control & b7 & Hk & Hrun).
  apply ret_Ok in Hrun as [-> ->].
  pose proof (control_identity_grows s b5) as G6. rewrite Hid in G6. cbn [snd] in G6.
  pose proof (vaults_grow_control (on_db store_nkey) b6) as G7. rewrite Hk in G7. cbn [snd] in G7.
  unfold vaults_grow in *. split_and!; [|done|unfold initial_config; cbn; by destruct (op_auth_account options)].
  repeat constructor; cbn; (eapply existing_le; [|eassumption]);
    repeat first [eassumption | etrans; [eassumption|]].
Qed.

(** C10. The configuration appears last. When an initialization leaves an auth.json
    where there was none, whatever it returns: the choices were valid, and beside
    the configuration stand the recorded choices, the capacity policy, every
    artifact the configuration renders to and the deployment manifest, each with
    its exact contents, and every credential the configuration names can be read
    back from the vault. *)
Theorem initialization_commits parent home options s b r b' :
  initialize_home (X := X) capacity parent home options s b = (r, b') ->
  no_orphans (join home BUNDLE) (dk_fs (bh_disk b)) ->
  dk_fs (bh_disk b) !! join home "auth.json" = None ->
  is_Some (dk_fs (bh_disk b') !! join home "auth.json") ->
  exists manifest config choices policy policy_text artifacts plain plain_text data,
    let fs := dk_fs (bh_disk b') in
    options_validate options = Ok manifest /\
    pretty_options options = Ok choices /\ has (join home "auth-init.json") choices fs /\
    m_capacity manifest = Some policy /\ pretty_capacity policy = Ok policy_text /\
    has (join home CAPACITY_FILE) (as_bytes (policy_text +:+ newline)) fs /\
    setup_artifacts (X := X) config manifest = Ok artifacts /\ has_bundle (join home BUNDLE) artifacts fs /\
    new_manifest (m_replicas manifest) = Ok plain /\ pretty_manifest (X := X) plain = Ok plain_text /\
    has (join home MANIFEST_FILE) (as_bytes (plain_text +:+ newline)) fs /\
    pretty_config config = Ok data /\ has (join home "auth.json") data fs /\
    target_account config = target options /\
    auth_account <$> operator_jwt config = op_auth_account options /\
    credentials_established config (d_vault (bh_auth b')).
Proof.
  intros Hrun Ho Hn [node Hsome]. unfold initialize_home, bind in Hrun.
  pose proof (prepare_unmarked home options s _ Ho Hn) as Hn1.
  unfold on_disk at 1 in Hrun. destruct (prepare home options s (bh_disk b)) as [[manifest|e] d1] eqn:Hp;
    cbn [snd] in Hn1; [|injection Hrun as <- <-; cbn in Hsome; congruence].
  destruct (prepare_Ok _ _ _ _ _ _ Hp Ho) as (Hv & (choices & Hch & Hhch) & (policy & ptext & Hpol & Hpt & Hhpol)).
  pose proof (publishes_prepare home options s (bh_disk b) Ho) as (_ & Ho1 & _). rewrite Hp in Ho1. cbn in Ho1.
  set (b1 := Build_Backend_home _ _ _) in Hrun.
  pose proof (same_disk_establish options s b1) as Hd.
  destruct (establish capacity options s b1) as [[config|e] b2] eqn:He; unfold same_disk in Hd; cbn in Hd;
    [|injection Hrun as <- <-; rewrite Hd in Hsome; congruence].
  apply establish_Ok in He as (Hcred & Ht & Ha).
  unfold on_disk in Hrun. rewrite Hd in Hrun.
  destruct (publish_home parent home config manifest d1) as [r3 d3] eqn:Hh.
  injection Hrun as <- <-. cbn [bh_disk bh_auth] in *. unfold publish_home, bind in Hh.
  pose proof (artifacts_unmarked parent home config manifest d1 Ho1 Hn1) as Hn2.
  pose proof (publishes_artifacts parent home config manifest d1 Ho1) as (G2 & Ho2 & _).
  destruct (publish_artifacts parent home config manifest d1) as [[[]|e] d2] eqn:Hpa; cbn [snd] in *;
    [|injection Hh as <- <-; congruence].
  apply publish_artifacts_Ok in Hpa as (artifacts & plain & text & Hart & Hplain & Htext & Hb & Hm); [|done].
  unfold lift in Hh. destruct (pretty_config config) as [data|e] eqn:Hdata; cbv beta iota in Hh;
    [|injection Hh as <- <-; congruence].
  assert (keeps (publishes anything (join home BUNDLE)) (publish_file (join home "auth.json") data)) as Hk
    by publishing.
  pose proof (Hk d2 Ho2) as (G3 & _ & _). pose proof (written_publish_file (join home "auth.json") data d2) as Hw.
  rewrite Hh in G3, Hw. cbn [snd] in G3, Hw. destruct Hw as [Hw|Hw]; [congruence|].
  exists manifest, config, choices, policy, ptext, artifacts, plain, text, data. cbn zeta.
  assert (grows d1 d3) as G13 by by transitivity d2.
  split_and!; try done; try (by eapply has_grows; [eassumption|]); [|by eapply has_grows; [exact G3|]].
  intros name t Hx. eapply has_grows; [exact G3|]. by apply Hb.
Qed.

(** A repeated initialization keeps the choices of the first. Once the choices
    are recorded, a run with other choices fails, before any credential is
    touched. *)
Theorem retry_keeps_choices parent home options s b recorded :
  no_orphans (join home BUNDLE) (dk_fs (bh_disk b)) ->
  has (join home "auth-init.json") recorded (dk_fs (bh_disk b)) -> pretty_options options <> Ok recorded ->
  exists e b', initialize_home (X := X) capacity parent home options s b = (Err e, b') /\
    bh_auth b' = bh_auth b /\ bh_control b' = bh_control b /\
    has (join home "auth-init.json") recorded (dk_fs (bh_disk b')).
Proof.
  intros Ho Hr Hne. unfold initialize_home, bind, on_disk at 1.
  pose proof (publishes_prepare home options s (bh_disk b) Ho) as (Hg & _ & _).
  destruct (prepare home options s (bh_disk b)) as [[manifest|e] d1] eqn:Hp; cbn [snd] in Hg.
  - exfalso. destruct (prepare_Ok _ _ _ _ _ _ Hp Ho) as (_ & (data & Hd & n & Hn & _ & Hc) & _).
    destruct (has_grows _ _ _ _ Hg Hr) as (n' & Hn' & _ & Hc'). congruence.
  - eexists e, _. split; [done|]. cbn. split_and!; [done..|]. by eapply has_grows.
Qed.
End setup.
