(* ===== verification/Development.v ===== *)
(** * The development fixture

    [crates/epochgrid-core/src/broker_control.rs], the parts of [transport.rs]
    that write a static broker configuration, and the service loop of
    [crates/epochgrid-service/src/main.rs] that runs it: revocations are enforced
    by rewriting the users of a single broker, having it reload them, and deleting
    the consumers of revoked devices. *)
From stdpp Require Import sorting.
From S2P Require Import Prelude External Wire AuthDb Capacity Identity Registry Policy KvStore Merkle Transparency Revocation Callout Files Roles Deployment Validation ValidationFacts Online Setup Directory ConsumerFacts Authority.

(** ** Text *)

Fixpoint join_with (sep : string) (l : list string) : string :=
  match l with
  | [] => EmptyString
  | [x] => x
  | x :: l => x +:+ sep +:+ join_with sep l
  end.
Definition quoted_list (l : list string) : string := join_with ", " (quoted <$> l).
(** [str::replace]: every occurrence, from the left. *)
Fixpoint replace_in (fuel : nat) (from to s : string) : string :=
  match fuel, s with
  | O, _ | _, EmptyString => s
  | S fuel, String c rest =>
      match strip_prefix from s with
      | Some tail => to +:+ replace_in fuel from to tail
      | None => String c (replace_in fuel from to rest)
      end
  end.
Definition replace_all (from to s : string) : string := replace_in (S (String.length s)) from to s.

(** ** The users of the broker *)

Definition SERVICE_ENDPOINT : string := "users.service.devices.laptop".
Definition is_revoked_key (revoked : gset string) (k : string) : bool := bool_decide (k ∈ revoked).

(* @src core/transport.rs 419-423 render_users (service) *)
Definition service_permissions (replies inbox : string) : string :=
  "publish: [" +:+ replies +:+ ", " +:+ quoted_list
     ["epochgrid.v1.identity.audit"; "epochgrid.v1.identity.revocations"; "epochgrid.v1.identity.revoke";
      "$JS.API.>"; "$KV.IDENTITIES.>"; "$KV.CHANNELS.>"; "$KV.TRANSPARENCY.>"] +:+ "]" +:+ newline
  +:+ "subscribe: [" +:+ quoted_list [inbox; "epochgrid.v1.identity.*"] +:+ "]" +:+ newline
  +:+ "allow_responses: {max: 1, expires: " +:+ quoted "5s" +:+ "}".
(* @src core/transport.rs 425-431 render_users (device) *)
Definition device_permissions (k inbox : string) : string :=
  "publish: [" +:+ quoted_list
     ["epochgrid.v1.identity.register"; "epochgrid.v1.identity.lookup"; "epochgrid.v1.identity.keypackage";
      "epochgrid.v1.identity.devices"; "epochgrid.v1.identity.audit"; "epochgrid.v1.identity.revoke";
      "epochgrid.v1.identity.revocations"; "epochgrid.v1.group.*.handshake"; "epochgrid.v1.group.*.message"]
  +:+ "," +:+ newline +:+ "                    " +:+ quoted_list
     ["epochgrid.v1.group.*.ephemeral"; "epochgrid.v1.user.*.*.inbox"; "$O.ATTACHMENTS.C.*";
      "$O.ATTACHMENTS.M.*"; "$JS.API.STREAM.INFO.OBJ_ATTACHMENTS";
      "$JS.API.STREAM.MSG.GET.OBJ_ATTACHMENTS"; "$JS.API.CONSUMER.INFO.MAILBOX.device_" +:+ k;
      "$JS.API.CONSUMER.MSG.NEXT.MAILBOX.device_" +:+ k; "$JS.ACK.MAILBOX.device_" +:+ k +:+ ".>";
      "$JS.API.CONSUMER.INFO.CHAT.device_" +:+ k; "$JS.API.CONSUMER.MSG.NEXT.CHAT.device_" +:+ k;
      "$JS.ACK.CHAT.device_" +:+ k +:+ ".>"] +:+ "]" +:+ newline
  +:+ "subscribe: [" +:+ quoted_list
     [inbox; "epochgrid.v1.group.*.message"; "epochgrid.v1.group.*.ephemeral"] +:+ "]".
Definition render_user (replies : string) (e : string * string) : string :=
  let '(endpoint, k) := e in
  let inbox := "_INBOX." +:+ k +:+ ".>" in
  "{nkey: " +:+ quoted k +:+ ", permissions: {"
  +:+ (if bool_decide (endpoint = SERVICE_ENDPOINT) then service_permissions replies inbox
       else device_permissions k inbox) +:+ "}}".
(** The endpoints of a map, in its order, without the revoked keys. *)
Definition active_users (all : Enrollment) (revoked : gset string) : list (string * string) :=
  List.filter (fun '(_, k) => negb (is_revoked_key revoked k)) (endpoints all).
(* @src core/transport.rs 406-437 render_users (text) *)
Definition render_active (active : list (string * string)) : string :=
  let replies := join_with ", " ((fun '(_, k) => quoted ("_INBOX." +:+ k +:+ ".>")) <$> active) in
  "users: [" +:+ join_with ("," +:+ newline) (render_user replies <$> active) +:+ "]" +:+ newline.
(* @src core/transport.rs 400-438 render_users *)
Definition render_users (all : Enrollment) (revoked : gset string) : string :=
  render_active (active_users all revoked).

(** ** State *)

Record AttachmentStream : Type := { as_subjects : list string; as_max_age : Z; as_max_bytes : Z }.

(** The files below the root, the broker with its calls to come, the users it
    runs with, the attachment stream, what it answers the next reloads (whether
    it takes the users on disk, and its reply), the keys the actuator has
    applied, and the answers published. The registry of [Service] is not used. *)
Record Fixture : Type := {
  fx_disk : Disk;
  fx_service : Service;
  fx_loaded : bytes;
  fx_attachments : option AttachmentStream;
  fx_reloads : list (bool * result Value);
  fx_applied : gset string;
  fx_sent : list (string * bytes);
}.
Definition on_root {A} (m : M Disk A) : M Fixture A := fun s =>
  let '(r, d) := m (fx_disk s) in
  (r, {| fx_disk := d; fx_service := fx_service s; fx_loaded := fx_loaded s;
         fx_attachments := fx_attachments s; fx_reloads := fx_reloads s; fx_applied := fx_applied s;
         fx_sent := fx_sent s |}).
Definition on_broker {A} (m : M Service A) : M Fixture A := fun s =>
  let '(r, x) := m (fx_service s) in
  (r, {| fx_disk := fx_disk s; fx_service := x; fx_loaded := fx_loaded s;
         fx_attachments := fx_attachments s; fx_reloads := fx_reloads s; fx_applied := fx_applied s;
         fx_sent := fx_sent s |}).
Definition set_attachments a (s : Fixture) : Fixture := {|
  fx_disk := fx_disk s; fx_service := fx_service s; fx_loaded := fx_loaded s; fx_attachments := a;
  fx_reloads := fx_reloads s; fx_applied := fx_applied s; fx_sent := fx_sent s |}.
Definition set_reloaded loaded reloads (s : Fixture) : Fixture := {|
  fx_disk := fx_disk s; fx_service := fx_service s; fx_loaded := loaded;
  fx_attachments := fx_attachments s; fx_reloads := reloads; fx_applied := fx_applied s;
  fx_sent := fx_sent s |}.
Definition set_applied keys (s : Fixture) : Fixture := {|
  fx_disk := fx_disk s; fx_service := fx_service s; fx_loaded := fx_loaded s;
  fx_attachments := fx_attachments s; fx_reloads := fx_reloads s; fx_applied := keys;
  fx_sent := fx_sent s |}.
Definition add_sent m (s : Fixture) : Fixture := {|
  fx_disk := fx_disk s; fx_service := fx_service s; fx_loaded := fx_loaded s;
  fx_attachments := fx_attachments s; fx_reloads := fx_reloads s; fx_applied := fx_applied s;
  fx_sent := fx_sent s ++ [m] |}.

(** [serde_json] on the two public files. *)
Class FixtureJson : Type := {
  enrollment_from_slice : bytes -> result Enrollment;
  enrollment_to_vec_pretty : Enrollment -> result bytes;
  keys_from_slice : bytes -> result (gset string);
  keys_to_vec_pretty : gset string -> result bytes;
}.

(** ** Files *)

Section files.
(** The account's file creation mask. *)
Context (umask : Z).
Definition created (user : Z) : Node :=
  {| file_type := Regular; owner := user; mode := Z.land 0x1b6 (Z.lnot umask); contents := [] |}.
(** Where writing to a path ends up: the kernel follows at most 40 links. *)
Fixpoint final (fuel : nat) (path : string) (files : Fs) : string :=
  match fuel, files !! path with
  | S fuel, Some n => match file_type n with Symlink target => final fuel target files | _ => path end
  | _, _ => path
  end.
(** Open a file for writing, created when missing and emptied when not. *)
Definition open_truncated (path : string) : M Disk string :=
  let* files := files in
  let* user := gets dk_user in
  let p := final 40 path files in
  match files !! p with
  | Some n => ensure (is_file n) "not a regular file"
  | None => ret tt
  end ;;;
  step (fun fs => match fs !! p with
                  | Some n => <[p := {| file_type := file_type n; owner := owner n; mode := mode n;
                                        contents := [] |}]> fs
                  | None => <[p := created user]> fs
                  end) ;;;
  ret p.
(** [std::fs::write]. *)
Definition write_file (path : string) (data : bytes) : M Disk unit :=
  let* p := open_truncated path in
  disk_op (append_to p data) (fun n => append_to p (take n data)).
(** [pending] is the path with its extension replaced. *)
(* @src core/broker_control.rs 21-35 atomic_write *)
Definition atomic_write (path pending : string) (data : bytes) : M Disk unit :=
  let* p := open_truncated pending in
  write_synced p data ;;;
  step (fun fs => match fs !! pending with Some n => <[path := n]> (delete pending fs) | None => fs end) ;;;
  step id ;;;
  step id.
End files.

(** ** Revocation enforced on the broker *)

Section control.
Context `{NKeys} `{MlsPackages} `{Sha256} `{Postcard Envelope} `{Postcard RegistrationPayload}
  `{Postcard CheckpointTuple} `{Postcard RequestTuple} `{Postcard Revocation} `{Base32} `{FixtureJson}.
Variable moments : nat -> Moment.
Context (umask : Z) (root : string).

(** The reply to a reload: no error, and the server that took it. *)
(* @src core/broker_control.rs 82-90 enforce (acknowledgment) *)
Definition reload_accepted (response : Value) : result unit :=
  check (match get response "error" with None | Some Null => true | Some _ => false end)
    "NATS rejected authorization reload" ;;?
  check (match get response "server" with Some _ => true | None => false end)
    "invalid NATS reload acknowledgment".
(** The broker reads the users on disk, or keeps what it has. *)
(* @src core/broker_control.rs 77-90 enforce (reload) *)
Definition reload : M Fixture unit := fun s =>
  let '(taken, reply) := default (false, Err External) (head (fx_reloads s)) in
  let loaded := match read_file (join root "auth/users.conf") (dk_fs (fx_disk s)) with
                | Ok users => if taken then users else fx_loaded s
                | Err _ => fx_loaded s
                end in
  (let? response := reply in reload_accepted response, set_reloaded loaded (tl (fx_reloads s)) s).

Definition chat_drop (name : string) : M Service unit :=
  call (fun _ b => (Ok tt, set_chat_consumers (delete name) b)).
(** A consumer that is not there is a success. *)
(* @src core/broker_control.rs 91-105 enforce (consumers) *)
Definition drop_consumers (revoked : gset string) : M Service unit :=
  let keys := merge_sort by_name (elements revoked) in
  ask (fun _ => tt) ;;;
  for_each keys (fun k => chat_drop (device_name k)) ;;;
  ask (fun _ => tt) ;;;
  for_each keys (fun k => mailbox_delete (device_name k)).

(* @src core/broker_control.rs 56-108 enforce *)
Definition enforce (log : RevocationLog) (force : bool) : M Fixture unit :=
  let revoked := log_keys log in
  let* applied := gets fx_applied in
  if negb force && bool_decide (revoked = applied) then ret tt
  else
    let* fs := gets (fun s => dk_fs (fx_disk s)) in
    let* all := lift (let? b := read_file (join root "public-enrollment.json") fs in
                      enrollment_from_slice b) in
    let* data := lift (keys_to_vec_pretty revoked) in
    on_root (atomic_write umask (join root "revoked-nkeys.json") (join root "revoked-nkeys.pending") data) ;;;
    on_root (atomic_write umask (join root "auth/users.conf") (join root "auth/users.pending")
      (as_bytes (render_users all revoked))) ;;;
    reload ;;;
    on_broker (drop_consumers revoked) ;;;
    modify (set_applied revoked).

(** ** Provisioning *)

(* @src core/transport.rs 376-398 provision_chat_consumers *)
Definition provision_chat_consumers (enrollment : Enrollment) : M Service unit :=
  ask (fun _ => tt) ;;;
  for_each (snd <$> endpoints enrollment) (fun k =>
    chat_create (device_name k) {|
      filter_subject := "epochgrid.v1.group.*.*"; filter_subjects := []; max_ack_pending := 1;
      max_batch := 1; deliver_subject := None; ack_explicit := true; ack_wait := 2 |}).
(** [found] is what [get_stream] says: the stream, that there is none, or an
    error; [changed] whether the update or the creation succeeds. *)
(* @src core/attachments.rs 307-339 provision *)
Definition provision_attachments (retention max_bytes : Z) (found changed : result unit) : M Fixture unit :=
  ensure ((60 <=? retention) && (retention <=? 31536000) && (1048576 <=? max_bytes))
    "invalid attachment retention or bucket capacity" ;;;
  lift found ;;;
  let* stream := gets fx_attachments in
  let subjects := ["$O.ATTACHMENTS.C.>"; "$O.ATTACHMENTS.M.>"] in
  match stream with
  | Some stream =>
      ensure (bool_decide (merge_sort by_name (as_subjects stream) = subjects))
        "unexpected attachment stream subjects" ;;;
      lift changed ;;;
      modify (set_attachments (Some {| as_subjects := as_subjects stream; as_max_age := retention;
                                       as_max_bytes := max_bytes |}))
  | None =>
      lift changed ;;;
      modify (set_attachments (Some {| as_subjects := subjects; as_max_age := retention;
                                       as_max_bytes := max_bytes |}))
  end.

(** ** The service *)

Variable k : KeyPair.

Definition read_state : M Service (Snapshot * RevocationLog) :=
  let* registrations := read_registrations in
  let* revocations := ask (fun b => read_log registrations (b_log b)) in
  let* revocations := lift revocations in
  ret (registrations, revocations).
(* @src service/main.rs 371-376 main (revoke) *)
Definition revoke_device (registrations : Snapshot) (request : RevokeRequest) : M Fixture Body.t :=
  let* result := attempt (
    let* log := on_broker (
      let* cutoff := chat_cutoff_call in
      call (fun env b =>
        let '(res, kv) := append_log registrations k request cutoff env (b_log b) in (res, set_log kv b))) in
    enforce log false) in
  ret (if is_ok result then Body.Revoked else Body.Rejected).
Definition or_rejected (m : M Service Body.t) : M Fixture Body.t :=
  let* r := attempt (on_broker m) in
  ret match r with Ok body => body | Err _ => Body.Rejected end.
(* @src service/main.rs 361-382 main (dispatch) *)
Definition dev_dispatch (enrollment : Enrollment) (subject : string) (request : result Body.t)
    (registrations : Snapshot) (revocations : RevocationLog) : M Fixture Body.t :=
  let revoked := log_keys revocations in
  let active : Enrollment := delete_where (fun _ k => is_revoked_key revoked k) enrollment in
  match request with
  | Ok (Body.Register registration) =>
      if bool_decide (subject = REGISTER) then
        let* r := attempt (on_broker (Directory.register active k registration)) in
        ret (if is_ok r then Body.Registered else Body.Rejected)
      else ret Body.Rejected
  | Ok Body.RegistrationAudit =>
      ret (if bool_decide (subject = AUDIT) then Body.AuditLog registrations else Body.Rejected)
  | Ok Body.Audit =>
      ret (if bool_decide (subject = AUDIT) && bool_decide (rl_entries revocations = [])
           then Body.AuditLog registrations else Body.Rejected)
  | Ok Body.RevocationAudit =>
      ret (if bool_decide (subject = REVOCATIONS) then Body.RevocationLog revocations else Body.Rejected)
  | Ok (Body.Revoke request) =>
      if bool_decide (subject = REVOKE) then revoke_device registrations request else ret Body.Rejected
  | Ok (Body.ListDevices user) =>
      if bool_decide (subject = DEVICES) then or_rejected (find_devices active user) else ret Body.Rejected
  | Ok (Body.Lookup user device) =>
      if bool_decide (subject = LOOKUP) then or_rejected (find active user device) else ret Body.Rejected
  | Ok (Body.ClaimKeyPackage user device group) =>
      if bool_decide (subject = KEYPACKAGE) then or_rejected (claim active user device group)
      else ret Body.Rejected
  | _ => ret Body.Rejected
  end.

(** One request. An error here ends the service. *)
(* @src service/main.rs 342-391 main (request) *)
Definition dev_request (enrollment : Enrollment) (subject : string) (reply : option string) (payload : bytes)
  : M Fixture unit :=
  match reply with
  | None => ret tt
  | Some reply =>
      if negb (starts_with "_INBOX." reply) then ret tt
      else
        let* state := attempt (on_broker read_state) in
        match state with
        | Err _ =>
            let* bytes := lift (encode Body.Rejected) in
            modify (add_sent (reply, bytes))
        | Ok (registrations, revocations) =>
            let* response := dev_dispatch enrollment subject (decode payload) registrations revocations in
            let* bytes := lift match encode response with
                               | Ok bytes => Ok bytes
                               | Err _ => encode Body.Rejected
                               end in
            modify (add_sent (reply, bytes))
        end
  end.
(* @src service/main.rs 335-341 main (retry) *)
Definition dev_retry : M Fixture unit :=
  let* _ := attempt (
    let* (_, revocations) := on_broker read_state in
    enforce revocations false) in
  ret tt.

(** From the connection to the first enforcement. [lock] is whether no other
    service owns the broker. *)
(* @src service/main.rs 297-331 main (start) *)
Definition dev_start (enrollment : Enrollment) (retention max_bytes : Z) (found changed : result unit)
    (lock : bool) : M Fixture unit :=
  provision_attachments retention max_bytes found changed ;;;
  on_broker (provision_mailboxes enrollment) ;;;
  on_broker (provision_chat_consumers enrollment) ;;;
  on_broker (reconcile enrollment k) ;;;
  let* registrations := on_broker read_registrations in
  on_broker (call (fun env b =>
    let during := match env with a :: _ => interference a | [] => id end in
    let '(res, kv) := initialize_log registrations k during (b_log b) in (res, set_log kv b))) ;;;
  ensure lock "another service owns this broker's revocation actuator" ;;;
  let* revocations := on_broker (
    let* r := ask (fun b => read_log registrations (b_log b)) in
    lift r) in
  enforce revocations true.

(** The life of a running service. *)
Inductive dev_op : Type :=
| DevRequest (subject : string) (reply : option string) (payload : bytes)
| DevRetry.
Definition run_dev_op (enrollment : Enrollment) (o : dev_op) : M Fixture unit :=
  match o with
  | DevRequest subject reply payload => dev_request enrollment subject reply payload
  | DevRetry => dev_retry
  end.
End control.

(** ** The configuration of the broker *)

Section configuration.
Context `{NKeys} `{FixtureJson}.
(** [opened] is the registration of a user's store, created when there is none;
    [canonical] is [canonicalize]. *)
Context (umask : Z) (opened : string -> result DeviceRegistration) (canonical : string -> result string).

(* @src core/transport.rs 179-189 dev_config_with_enrollment (users) *)
Fixpoint local_users (users : list string) : result Enrollment :=
  match users with
  | [] => Ok ∅
  | user :: users =>
      let? registration := opened user in
      let? all := local_users users in
      Ok (<[key (payload registration) := nats_public_key (payload registration)]> all)
  end.
(* @src core/transport.rs 196-211 dev_config_with_enrollment (addition) *)
Definition add_endpoint (extra : Enrollment) (addition : string) : result Enrollment :=
  let? (endpoint, key) := ok_or (split_once "=" addition) (Anyhow "use USER/DEVICE=NKEY") in
  let? (user, device) := ok_or (split_once "/" endpoint) (Anyhow "use USER/DEVICE=NKEY") in
  validate_id user ;;?
  validate_id device ;;?
  let endpoint := "users." +:+ user +:+ ".devices." +:+ device in
  check (match extra !! endpoint with None => true | Some old => bool_decide (old = key) end)
    "enrollment replacement requires a future revocation workflow" ;;?
  Ok (<[endpoint := key]> extra).
(* @src core/transport.rs 212-228 dev_config_with_enrollment (merge) *)
Definition merge_endpoint (all : Enrollment) (e : string * string) : result Enrollment :=
  let '(endpoint, key) := e in
  match split_on "." endpoint with
  | [u; user; d; device] =>
      check (bool_decide (u = "users") && bool_decide (d = "devices")) "invalid enrollment endpoint" ;;?
      validate_id user ;;?
      validate_id device ;;?
      check (negb (bool_decide (user = "service")) && negb (bool_decide (user = "system"))
             && bool_decide (all !! endpoint = None)) "reserved enrollment endpoint" ;;?
      check (starts_with "U" key) "user NKey required" ;;?
      let? _ := key_pair_type key in
      Ok (<[endpoint := key]> all)
  | _ => Err (Anyhow "invalid enrollment endpoint")
  end.
Fixpoint fold_result {A B} (f : B -> A -> result B) (b : B) (l : list A) : result B :=
  match l with
  | [] => Ok b
  | x :: l => let? b := f b x in fold_result f b l
  end.
Definition or_empty {A} (empty : A) (file : result A) : result A :=
  match file with
  | Err e => if bool_decide (e = NotFoundFile) then Ok empty else Err e
  | ok => ok
  end.
Definition key_set (all : Enrollment) : gset string := list_to_set (snd <$> map_to_list all).

Record DevPlan : Type := {
  dp_all : Enrollment;
  dp_extra : Enrollment;
  dp_system : string;
  dp_revoked : gset string;
}.
(** The devices of the fixture, and among them those that were added. *)
(* @src core/transport.rs 178-236 dev_config_with_enrollment (enrollment) *)
Definition dev_enrollment (root : string) (additions : list string) (files : Fs)
  : result (Enrollment * Enrollment) :=
  let? own := local_users ["alice"; "bob"; "service"] in
  let? old := or_empty ∅ (let? b := read_file (join root "additional-enrollment.json") files in
                          enrollment_from_slice b) in
  let? extra := fold_result add_endpoint old additions in
  let? all := fold_result merge_endpoint own (endpoints extra) in
  check (size (key_set all) =? size all)%nat "each device needs an independent NKey" ;;?
  Ok (all, extra).
(** Everything that is checked before a file is written. *)
(* @src core/transport.rs 178-247 dev_config_with_enrollment (checks) *)
Definition dev_plan (root : string) (additions : list string) (files : Fs) : result DevPlan :=
  let? (all, extra) := dev_enrollment root additions files in
  let? system := opened "system" in
  let? revoked := or_empty ∅ (let? b := read_file (join root "revoked-nkeys.json") files in
                              keys_from_slice b) in
  Ok {| dp_all := all; dp_extra := extra; dp_system := nats_public_key (payload system);
        dp_revoked := revoked |}.

(* @src core/transport.rs 259-266 dev_config_with_enrollment (nats.conf) *)
Definition nats_conf (jetstream system_key : string) (port : Z) : string :=
  "listen: 127.0.0.1:" +:+ pretty.pretty port +:+ newline
  +:+ "max_payload: 65536" +:+ newline
  +:+ "jetstream {store_dir: " +:+ quoted jetstream +:+ "}" +:+ newline
  +:+ "system_account: EG_SYS" +:+ newline
  +:+ "accounts { EG_SYS { users: [{nkey: " +:+ quoted system_key +:+ ", permissions: {publish: ["
  +:+ quoted "$SYS.REQ.SERVER.*.RELOAD" +:+ "], subscribe: [" +:+ quoted ("_INBOX." +:+ system_key +:+ ".>")
  +:+ "]}}] } }" +:+ newline
  +:+ "authorization { include " +:+ quoted "auth/users.conf" +:+ " }" +:+ newline.
(** The listener and the directory of the container. *)
(* @src core/transport.rs 267-276 dev_config_with_enrollment (compose) *)
Definition compose_conf (host jetstream : string) (port : Z) : string :=
  replace_all jetstream "/data" (replace_all ("127.0.0.1:" +:+ pretty.pretty port) "0.0.0.0:4222" host).

(* @src core/transport.rs 248-277 dev_config_with_enrollment (files) *)
Definition write_dev_config (root : string) (port : Z) (p : DevPlan) : M Disk unit :=
  create_dir_all (join root "auth") ;;;
  write_file umask (join root "auth/users.conf") (as_bytes (render_users (dp_all p) (dp_revoked p))) ;;;
  let* data := lift (enrollment_to_vec_pretty (dp_all p)) in
  write_file umask (join root "public-enrollment.json") data ;;;
  let* data := lift (enrollment_to_vec_pretty (dp_extra p)) in
  write_file umask (join root "additional-enrollment.json") data ;;;
  let* data := lift (enrollment_to_vec_pretty (delete SERVICE_ENDPOINT (dp_all p))) in
  write_file umask (join root "enrollment.json") data ;;;
  let* directory := lift (canonical root) in
  let jetstream := join directory "jetstream" in
  let host := nats_conf jetstream (dp_system p) port in
  write_file umask (join root "nats.conf") (as_bytes host) ;;;
  write_file umask (join root "nats-compose.conf") (as_bytes (compose_conf host jetstream port)).
(* @src core/transport.rs 177-278 dev_config_with_enrollment *)
Definition dev_config_with_enrollment (root : string) (port : Z) (additions : list string) : M Disk unit :=
  let* files := gets dk_fs in
  let* plan := lift (dev_plan root additions files) in
  write_dev_config root port plan.
(* @src core/transport.rs 172-174 dev_config *)
Definition dev_config (root : string) (port : Z) : M Disk unit := dev_config_with_enrollment root port [].
End configuration.

(** ** Writing a file aside *)

Section file_facts.
Context (umask : Z).

Lemma step_either f d r d' : step f d = (r, d') -> dk_fs d' = dk_fs d \/ dk_fs d' = f (dk_fs d).
Proof.
  unfold step, disk_op. intros [= <- <-]. simpl. destruct (default None (head (dk_io d))) as [[]|]; auto.
Qed.
Lemma step_done f d d' : step f d = (Ok tt, d') -> dk_fs d' = f (dk_fs d).
Proof. unfold step, disk_op. destruct (default None (head (dk_io d))); by intros [= <-]. Qed.
Lemma final_here n path files :
  (forall node, files !! path = Some node -> is_symlink node = false) -> final n path files = path.
Proof.
  destruct n as [|n]; simpl; intros Hf; destruct (files !! path) as [node|] eqn:Hn; try done.
  specialize (Hf _ eq_refl). unfold is_symlink in Hf. by destruct (file_type node).
Qed.
(** Everything but [p] is as it was. *)
Definition elsewhere (p : string) (d d' : Disk) : Prop :=
  forall q, q <> p -> dk_fs d' !! q = dk_fs d !! q.
#[export] Instance elsewhere_preorder p : PreOrder (elsewhere p).
Proof. split; [by intros d q|]. intros d1 d2 d3 H1 H2 q Hq. by rewrite H2, H1. Qed.

Lemma step_elsewhere p f :
  (forall fs q, q <> p -> f fs !! q = fs !! q) -> keeps (elsewhere p) (step f).
Proof.
  intros Hf d q Hq. destruct (step f d) as [r d2] eqn:Hs. cbn [snd]. apply step_either in Hs as [E|E]; rewrite E; [done|by apply Hf].
Qed.
Lemma disk_op_elsewhere p f partial :
  (forall fs q, q <> p -> f fs !! q = fs !! q) -> (forall n fs q, q <> p -> partial n fs !! q = fs !! q) ->
  keeps (elsewhere p) (disk_op f partial).
Proof. intros Hf Hp d q Hq. simpl. destruct (default None (head (dk_io d))); simpl; auto. Qed.
Lemma write_synced_elsewhere p data : keeps (elsewhere p) (write_synced p data).
Proof.
  unfold write_synced. apply keeps_bind; [apply _| |intros _]; apply disk_op_elsewhere;
    intros; try done; by apply append_to_other.
Qed.
Lemma open_truncated_elsewhere path d :
  final 40 path (dk_fs d) = path -> elsewhere path d (snd (open_truncated umask path d)).
Proof.
  intros Hf. unfold open_truncated. unfold bind at 1 2, files, gets. cbv zeta. rewrite Hf.
  assert (keeps (elsewhere path) (step (fun fs => match fs !! path with
    | Some n => <[path := {| file_type := file_type n; owner := owner n; mode := mode n; contents := [] |}]> fs
    | None => <[path := created umask (dk_user d)]> fs end))) as Hk.
  { apply step_elsewhere. intros fs q Hq. destruct (fs !! path); by rewrite lookup_insert_ne. }
  assert (forall m : M Disk unit, keeps (elsewhere path) m ->
    elsewhere path d (snd ((m ;;; step (fun fs => match fs !! path with
    | Some n => <[path := {| file_type := file_type n; owner := owner n; mode := mode n; contents := [] |}]> fs
    | None => <[path := created umask (dk_user d)]> fs end) ;;; ret path) d))) as Hgo.
  { intros m Hm. apply keeps_bind; [apply _|done|intros _]. apply keeps_bind; [apply _|exact Hk|intros _].
    apply keeps_ret, _. }
  apply Hgo. destruct (dk_fs d !! path); [apply keeps_ensure|apply keeps_ret]; apply _.
Qed.
Lemma open_truncated_Ok path d p d' :
  open_truncated umask path d = (Ok p, d') ->
  p = final 40 path (dk_fs d) /\ exists node, dk_fs d' !! p = Some node /\ is_file node = true /\ contents node = [].
Proof.
  unfold open_truncated. intros Hr. apply bind_Ok in Hr as (fs & d1 & [-> ->]%gets_Ok & Hr).
  apply bind_Ok in Hr as (user & d1 & [-> ->]%gets_Ok & Hr). cbv zeta in Hr.
  set (q := final 40 path (dk_fs d)) in *. apply bind_Ok in Hr as ([] & d1 & Hc & Hr).
  apply bind_Ok in Hr as ([] & d2 & Hs%step_done & [-> ->]%ret_Ok). split; [done|]. rewrite Hs.
  destruct (dk_fs d !! q) as [n|] eqn:Hq; [apply ensure_Ok in Hc as [Hf ->]|apply ret_Ok in Hc as [_ ->]];
    rewrite Hq; eexists; (split; [apply lookup_insert_eq|]); by split.
Qed.
Lemma append_to_Ok p data d d' node partial :
  disk_op (append_to p data) partial d = (Ok tt, d') -> dk_fs d !! p = Some node ->
  dk_fs d' !! p = Some {| file_type := file_type node; owner := owner node; mode := mode node;
                          contents := contents node ++ data |}.
Proof.
  unfold disk_op. destruct (default None (head (dk_io d))); intros [= <-] Hn. simpl.
  unfold append_to. by rewrite lookup_alter_eq, Hn.
Qed.

(** Whatever fails on the way, the path keeps what it led to, or leads to a file
    with exactly the new contents. *)
Lemma atomic_write_whole path pending data d r d' :
  atomic_write umask path pending data d = (r, d') -> path <> pending ->
  (forall node, dk_fs d !! pending = Some node -> is_symlink node = false) ->
  (forall q, q <> path -> q <> pending -> dk_fs d' !! q = dk_fs d !! q) /\
  (r <> Ok tt /\ dk_fs d' !! path = dk_fs d !! path \/ read_file path (dk_fs d') = Ok data).
Proof.
  intros Hr Hne Hlink. apply (final_here 40) in Hlink.
  pose proof (open_truncated_elsewhere pending d Hlink) as He.
  unfold atomic_write in Hr. apply bind_cases in Hr as [(e & Hm & ->)|(p & d1 & Hm & Hr)].
  { rewrite Hm in He. cbn [snd] in He. split; [intros; by apply He|]. left. split; [done|by apply He]. }
  rewrite Hm in He. cbn [snd] in He. apply open_truncated_Ok in Hm as (-> & node & Hnode & Hfile & Hempty).
  rewrite Hlink in *. pose proof (write_synced_elsewhere pending data d1) as He2.
  apply bind_cases in Hr as [(e & Hm & ->)|([] & d2 & Hm & Hr)]; rewrite Hm in He2; cbn [snd] in He2.
  { split; [intros q Hq Hq'; by rewrite He2, He|]. left. split; [done|]. by rewrite He2, He. }
  assert (exists n, dk_fs d2 !! pending = Some n /\ is_file n = true /\ contents n = data) as (n & Hn & Hf & Hd).
  { unfold write_synced in Hm. apply bind_Ok in Hm as ([] & dx & Ha & Hb).
    eapply append_to_Ok in Ha; [|exact Hnode]. unfold disk_op in Hb.
    destruct (default None (head (dk_io dx))) as [k|]; [discriminate Hb|]. injection Hb as <-. eexists. split; [exact Ha|].
    split; [exact Hfile|]. simpl. by rewrite Hempty. }
  assert (forall q, q <> path -> q <> pending -> dk_fs d2 !! q = dk_fs d !! q) as Hoth
    by (intros; by rewrite He2, He).
  assert (dk_fs d2 !! path = dk_fs d !! path) as Hpath by by rewrite He2, He.
  set (moved := fun fs : Fs => match fs !! pending with Some n => <[path := n]> (delete pending fs) | None => fs end) in *.
  assert (forall q, q <> path -> q <> pending -> moved (dk_fs d2) !! q = dk_fs d !! q) as Hoth'.
  { intros q Hq Hq'. unfold moved. rewrite Hn, lookup_insert_ne, lookup_delete_ne by done. by apply Hoth. }
  assert (read_file path (moved (dk_fs d2)) = Ok data) as Hread.
  { unfold moved. rewrite Hn. unfold read_file. erewrite Roles.follow_regular; [|apply lookup_insert_eq|].
    - simpl. by rewrite Hf, Hd.
    - unfold is_file in Hf. by apply bool_decide_eq_true_1 in Hf. }
  apply bind_cases in Hr as [(e & Hm3 & ->)|([] & d3 & Hm3 & Hr)].
  { apply step_either in Hm3 as [E|E]; rewrite E; (split; [done|]); [left|right]; done. }
  apply step_done in Hm3.
  assert (dk_fs d' = dk_fs d3) as ->.
  { apply bind_cases in Hr as [(e & Hm4 & ->)|([] & d4 & Hm4 & Hr)]; apply step_either in Hm4 as [E4|E4];
      [done..| |]; apply step_either in Hr as [E5|E5]; unfold id in *; congruence. }
  rewrite Hm3. split; [done|]. by right.
Qed.
End file_facts.

(** ** Enforcement *)

Section enforcement.
Context `{NKeys} `{MlsPackages} `{Sha256} `{Postcard Envelope} `{Postcard RegistrationPayload}
  `{Postcard CheckpointTuple} `{Postcard RequestTuple} `{Postcard Revocation} `{Base32} `{FixtureJson}.
Context (umask : Z) (root : string).

(** Nobody else creates a consumer while a call waits. *)
Definition tame (c : Call) : Prop := forall b name,
  (b_chat b !! name = None -> b_chat (meddle c b) !! name = None) /\
  (b_mailbox b !! name = None -> b_mailbox (meddle c b) !! name = None).
Definition no_more (s s' : Service) : Prop :=
  Forall tame (sv_calls s) ->
  Forall tame (sv_calls s') /\ forall name,
    (b_chat (sv_broker s) !! name = None -> b_chat (sv_broker s') !! name = None) /\
    (b_mailbox (sv_broker s) !! name = None -> b_mailbox (sv_broker s') !! name = None).
#[export] Instance no_more_preorder : PreOrder no_more.
Proof.
  split; [by intros s Hq; split|]. intros s1 s2 s3 H12 H23 Hq.
  destruct (H12 Hq) as [Hq2 Hn1]. destruct (H23 Hq2) as [Hq3 Hn2]. split; [done|]. intros name.
  specialize (Hn1 name) as [? ?]. specialize (Hn2 name) as [? ?]. split; auto.
Qed.
Lemma call_no_more {A} (f : list KvStore.Attempt -> Broker -> result A * Broker) :
  (forall env b name, (b_chat b !! name = None -> b_chat (snd (f env b)) !! name = None) /\
     (b_mailbox b !! name = None -> b_mailbox (snd (f env b)) !! name = None)) ->
  keeps no_more (call f).
Proof.
  intros Hf s Hq. unfold call. destruct (sv_calls s) as [|c cs]; [by split; [constructor|]|].
  apply Forall_cons_1 in Hq as [Hc Hcs].
  destruct (delivered c); [|by split; [|intros name; apply Hc]].
  pose proof (Hf (tries c) (meddle c (sv_broker s))) as Hb. destruct (f _ _) as [r b']. cbn [snd] in *.
  split; [by destruct (answered c)|]. intros name. specialize (Hb name) as [? ?].
  destruct (Hc (sv_broker s) name) as [? ?]. simpl. auto.
Qed.
Lemma broker_call_Ok {A} (f : list KvStore.Attempt -> Broker -> result A * Broker) s a s' :
  call f s = (Ok a, s') -> exists c, f (tries c) (meddle c (sv_broker s)) = (Ok a, sv_broker s').
Proof.
  unfold call. destruct (sv_calls s) as [|c cs]; [done|]. destruct (delivered c); [|done].
  destruct (f (tries c) (meddle c (sv_broker s))) as [r b'] eqn:Hf. destruct (answered c); intros [= -> <-].
  by exists c.
Qed.
Lemma ask_no_more {A} (f : Broker -> A) : keeps no_more (ask f).
Proof. apply call_no_more. by intros. Qed.
Lemma chat_drop_no_more name : keeps no_more (chat_drop name).
Proof.
  apply call_no_more. intros env b q. simpl. split; [|done]. intros Hq. rewrite lookup_delete_None. by right.
Qed.
Lemma mailbox_delete_no_more name : keeps no_more (mailbox_delete name).
Proof.
  apply call_no_more. intros env b q. simpl. split; [done|]. intros Hq. rewrite lookup_delete_None. by right.
Qed.
#[local] Hint Resolve ask_no_more chat_drop_no_more mailbox_delete_no_more : keeps.
Lemma drop_consumers_no_more revoked : keeps no_more (drop_consumers revoked).
Proof. unfold drop_consumers. keeps_all. Qed.

(** A loop of calls, each of which leaves a fact that the others keep. *)
Lemma for_each_no_more (f : string -> M Service unit) (P : string -> Service -> Prop) l s s' :
  (forall k, keeps no_more (f k)) ->
  (forall k s s', f k s = (Ok tt, s') -> P k s') ->
  (forall k s s', Forall tame (sv_calls s) -> no_more s s' -> P k s -> P k s') ->
  Forall tame (sv_calls s) -> for_each l f s = (Ok tt, s') -> Forall (fun k => P k s') l.
Proof.
  intros Hk Hp Hm. revert s. induction l as [|k l IH]; intros s Hq Hr; [constructor|].
  simpl in Hr. apply bind_Ok in Hr as ([] & s1 & Hf & Hr).
  pose proof (Hk k s) as Hh. rewrite Hf in Hh. destruct (Hh Hq) as [Hq1 _].
  constructor; [|by eapply IH]. eapply Hm; [exact Hq1| |by eapply Hp].
  pose proof (keeps_for_each no_more l f Hk s1) as Ht. by rewrite Hr in Ht.
Qed.
Definition dropped (revoked : gset string) (s : Service) : Prop := forall k, k ∈ revoked ->
  b_chat (sv_broker s) !! device_name k = None /\ b_mailbox (sv_broker s) !! device_name k = None.
Lemma drop_consumers_Ok revoked s s' :
  Forall tame (sv_calls s) -> drop_consumers revoked s = (Ok tt, s') -> dropped revoked s'.
Proof.
  intros Hq Hr. unfold drop_consumers in Hr.
  apply bind_Ok in Hr as ([] & s1 & R1 & Hr). pose proof (ask_no_more (fun _ => tt) s) as K1.
  rewrite R1 in K1. destruct (K1 Hq) as [Hq1 _].
  apply bind_Ok in Hr as ([] & s2 & R2 & Hr).
  pose proof (keeps_for_each no_more (merge_sort by_name (elements revoked)) (fun k => chat_drop (device_name k))
    (fun k => chat_drop_no_more _) s1) as K2. rewrite R2 in K2. destruct (K2 Hq1) as [Hq2 _].
  apply (for_each_no_more _ (fun k s => b_chat (sv_broker s) !! device_name k = None)) in R2; cycle 1.
  { intros k. apply chat_drop_no_more. }
  { intros k x x' Hx. apply broker_call_Ok in Hx as (c & [= <-]). simpl. apply lookup_delete_eq. }
  { intros k x x' Hx Hn. by apply (Hn Hx). }
  { done. }
  apply bind_Ok in Hr as ([] & s3 & R3 & Hr). pose proof (ask_no_more (fun _ => tt) s2) as K3.
  rewrite R3 in K3. destruct (K3 Hq2) as [Hq3 Hn3].
  pose proof (keeps_for_each no_more (merge_sort by_name (elements revoked))
    (fun k => mailbox_delete (device_name k)) (fun k => mailbox_delete_no_more _) s3) as K4.
  rewrite Hr in K4. destruct (K4 Hq3) as [_ Hn4].
  apply (for_each_no_more _ (fun k s => b_mailbox (sv_broker s) !! device_name k = None)) in Hr; cycle 1.
  { intros k. apply mailbox_delete_no_more. }
  { intros k x x' Hx. apply broker_call_Ok in Hx as (c & [= <-]). simpl. apply lookup_delete_eq. }
  { intros k x x' Hx Hn. by apply (Hn Hx). }
  { done. }
  intros k Hk. assert (k ∈ merge_sort by_name (elements revoked)) as Hin.
  { rewrite (merge_sort_Permutation by_name). by apply elem_of_elements. }
  apply list_elem_of_In in Hin. rewrite List.Forall_forall in R2, Hr.
  split; [|by apply Hr]. apply Hn4, Hn3. by apply R2.
Qed.

(** What the broker promises of a reload: a reply without an error, from a
    server, means the users on disk were taken. *)
Definition honest (s : Fixture) : Prop := forall taken v,
  (taken, Ok v) ∈ fx_reloads s -> reload_accepted v = Ok tt -> taken = true.
(** The keys the actuator counts as applied are out of the users the broker runs
    with and have no consumer. *)
Definition in_force (s : Fixture) : Prop :=
  (fx_applied s = ∅ \/ exists users, fx_loaded s = as_bytes (render_active users) /\
     forall endpoint k, (endpoint, k) ∈ users -> k ∉ fx_applied s) /\
  dropped (fx_applied s) (fx_service s).
Lemma join_distinct (a b : string) : a <> b -> join root a <> join root b.
Proof.
  intros Hab. unfold join. induction root as [|c r IH]; [by intros [=]|]. intros [= Heq]. by apply IH.
Qed.

Lemma reload_run s r s' :
  reload root s = (r, s') ->
  fx_disk s' = fx_disk s /\ fx_service s' = fx_service s /\ fx_applied s' = fx_applied s /\
  (honest s -> honest s') /\
  (fx_loaded s' = fx_loaded s \/
     read_file (join root "auth/users.conf") (dk_fs (fx_disk s)) = Ok (fx_loaded s')) /\
  (r = Ok tt -> honest s -> forall users,
     read_file (join root "auth/users.conf") (dk_fs (fx_disk s)) = Ok users -> fx_loaded s' = users).
Proof.
  unfold reload. destruct (default (false, Err External) (head (fx_reloads s))) as [taken reply] eqn:Hh.
  intros [= <- <-]. cbn [set_reloaded fx_disk fx_service fx_applied fx_loaded]. split_and!; try done.
  - unfold honest. cbn [fx_reloads set_reloaded]. intros Hs t v Hin. apply Hs.
    destruct (fx_reloads s); [done|]. by right.
  - destruct (read_file _ _); [|by left]. destruct taken; auto.
  - intros Hok Hs users ->. destruct reply as [v|e]; [|done]. simpl in Hok.
    assert (taken = true) as ->; [|done]. apply (Hs taken v); [|done].
    destruct (fx_reloads s) as [|x l]; simpl in Hh; [done|]. rewrite Hh. by left.
Qed.
Lemma on_root_run {A} (m : M Disk A) s r s' :
  on_root m s = (r, s') ->
  m (fx_disk s) = (r, fx_disk s') /\ fx_service s' = fx_service s /\ fx_loaded s' = fx_loaded s /\
  fx_applied s' = fx_applied s /\ fx_reloads s' = fx_reloads s.
Proof. unfold on_root. destruct (m (fx_disk s)) as [x d]. by intros [= -> <-]. Qed.
Lemma on_broker_run {A} (m : M Service A) s r s' :
  on_broker m s = (r, s') ->
  m (fx_service s) = (r, fx_service s') /\ fx_loaded s' = fx_loaded s /\ fx_applied s' = fx_applied s /\
  fx_reloads s' = fx_reloads s.
Proof. unfold on_broker. destruct (m (fx_service s)) as [x d]. by intros [= -> <-]. Qed.

(** The temporary files of the actuator are not links. *)
Definition plain_pending (files : Fs) : Prop := forall name node,
  name ∈ ["revoked-nkeys.pending"; "auth/users.pending"] -> files !! join root name = Some node ->
  is_symlink node = false.
Lemma write_users_run path pending data s r s' :
  path ∈ ["revoked-nkeys.json"; "auth/users.conf"] ->
  pending ∈ ["revoked-nkeys.pending"; "auth/users.pending"] ->
  (forall node, dk_fs (fx_disk s) !! join root pending = Some node -> is_symlink node = false) ->
  on_root (atomic_write umask (join root path) (join root pending) data) s = (r, s') ->
  fx_service s' = fx_service s /\ fx_loaded s' = fx_loaded s /\ fx_applied s' = fx_applied s /\
  fx_reloads s' = fx_reloads s /\ (r = Ok tt -> read_file (join root path) (dk_fs (fx_disk s')) = Ok data) /\
  forall name, name <> path -> name <> pending ->
    dk_fs (fx_disk s') !! join root name = dk_fs (fx_disk s) !! join root name.
Proof.
  intros Hpath Hpend Hplain Hr. apply on_root_run in Hr as (Hr & ? & ? & ? & ?).
  assert (path <> pending) as Hne by set_solver.
  apply atomic_write_whole in Hr as [Ho Hw]; [|by apply join_distinct|done].
  split_and!; try done; [|by intros; apply Ho; apply join_distinct].
  intros ->. by destruct Hw as [[? _]|?].
Qed.
Lemma dropped_mono keys keys' (s s' : Service) :
  Forall tame (sv_calls s) -> no_more s s' -> keys' ⊆ keys -> dropped keys s -> dropped keys' s'.
Proof.
  intros Hq Hn Hsub Hd k Hk. destruct (Hn Hq) as [_ Hall]. destruct (Hd k) as [? ?]; [set_solver|].
  split; by apply Hall.
Qed.
Lemma active_users_elem all revoked endpoint k :
  (endpoint, k) ∈ active_users all revoked -> k ∉ revoked.
Proof.
  unfold active_users. rewrite list_elem_of_In, List.filter_In. intros [_ Hn].
  unfold is_revoked_key in Hn. by apply negb_true_iff, bool_decide_eq_false_1 in Hn.
Qed.

(** The last steps, once the broker runs without the revoked keys. *)
Lemma drop_applied revoked users s r s' :
  (on_broker (drop_consumers revoked) ;;; modify (set_applied revoked)) s = (r, s') ->
  Forall tame (sv_calls (fx_service s)) -> fx_applied s ⊆ revoked -> dropped (fx_applied s) (fx_service s) ->
  fx_loaded s = as_bytes (render_active users) -> (forall endpoint k, (endpoint, k) ∈ users -> k ∉ revoked) ->
  in_force s' /\ match r with Ok _ => fx_applied s' = revoked | Err _ => fx_applied s' = fx_applied s end.
Proof.
  intros Hr Htame Hsub Hdrop Hload Hout.
  apply bind_cases in Hr as [(e & Hb & ->)|([] & s4 & Hb & Hr)];
    apply on_broker_run in Hb as (Hb & El4 & Ea4 & _);
    pose proof (drop_consumers_no_more revoked (fx_service s)) as Hnm; rewrite Hb in Hnm; cbn [snd] in Hnm.
  - split; [|done]. split.
    + right. exists users. rewrite El4, Ea4. split; [done|]. intros endpoint k Hin. specialize (Hout _ _ Hin). set_solver.
    + by eapply (dropped_mono (fx_applied s)); [exact Htame|exact Hnm|rewrite Ea4|].
  - injection Hr as <- <-. split; [|done]. split.
    + right. exists users. cbn [set_applied fx_loaded fx_applied]. by rewrite El4.
    + cbn [set_applied fx_applied fx_service]. by eapply drop_consumers_Ok.
Qed.

(** C17. Enforcing revocations is safe and retried until it is complete. Whatever
    fails in it, the keys applied so far stay out of the users the broker runs
    with and without consumers. When it succeeds every key of the log is applied:
    none is among the users the broker runs with, and none has a consumer left on
    either stream. When it fails the actuator remembers no more than before, so
    the next round, which is not forced, does not skip the work. *)
Theorem revocation_enforced log force s r s' :
  enforce umask root log force s = (r, s') ->
  honest s -> Forall tame (sv_calls (fx_service s)) -> plain_pending (dk_fs (fx_disk s)) ->
  fx_applied s ⊆ log_keys log -> in_force s ->
  in_force s' /\
  match r with
  | Ok _ => fx_applied s' = log_keys log
  | Err _ => fx_applied s' = fx_applied s /\ (force = false -> log_keys log <> fx_applied s')
  end.
Proof.
  intros Hr Hhon Htame Hplain Hsub [Husers Hdrop]. unfold enforce in Hr.
  apply bind_cases in Hr as [(e & [=] & _)|(applied & s0 & [-> ->]%gets_Ok & Hr)].
  destruct (negb force && bool_decide (log_keys log = fx_applied s)) eqn:Hskip.
  { apply andb_true_iff in Hskip as [_ Hskip]. bool_prop. injection Hr as <- <-. by split. }
  assert (force = false -> log_keys log <> fx_applied s) as Hagain.
  { intros ->. by apply bool_decide_eq_false_1 in Hskip. }
  clear Hskip. apply bind_cases in Hr as [(e & [=] & _)|(files & s0 & [-> ->]%gets_Ok & Hr)].
  apply bind_cases in Hr as [(e & [_ ->]%lift_Err & ->)|(all & s0 & [_ ->]%lift_Ok & Hr)]; [by split|].
  apply bind_cases in Hr as [(e & [_ ->]%lift_Err & ->)|(data & s0 & [_ ->]%lift_Ok & Hr)]; [by split|].
  assert (forall s1, fx_service s1 = fx_service s -> fx_loaded s1 = fx_loaded s -> fx_applied s1 = fx_applied s ->
    in_force s1) as Hsame.
  { intros s1 Es El Ea. unfold in_force. by rewrite Es, El, Ea. }
  apply bind_cases in Hr as [(e & Hw & ->)|([] & s1 & Hw & Hr)];
    (apply write_users_run in Hw as (Es1 & El1 & Ea1 & Er1 & _ & Ho1);
       [|by left|by left|intros node; apply Hplain; by left]).
  { split; [by apply Hsame|]. by rewrite Ea1. }
  assert (forall node, dk_fs (fx_disk s1) !! join root "auth/users.pending" = Some node -> is_symlink node = false)
    as Hplain1 by (intros node; rewrite Ho1 by done; apply Hplain; right; by left).
  apply bind_cases in Hr as [(e & Hw & ->)|([] & s2 & Hw & Hr)];
    (apply write_users_run in Hw as (Es2 & El2 & Ea2 & Er2 & Hu & _); [|by right; left|by right; left|done]).
  { split; [apply Hsame; congruence|by rewrite Ea2, Ea1]. }
  specialize (Hu eq_refl). assert (honest s2) as Hhon2 by (unfold honest; rewrite Er2, Er1; exact Hhon).
  assert (Forall tame (sv_calls (fx_service s2))) as Htame2 by (by rewrite Es2, Es1).
  assert (forall keys, keys ⊆ log_keys log -> exists users,
    as_bytes (render_users all (log_keys log)) = as_bytes (render_active users) /\
    forall endpoint k, (endpoint, k) ∈ users -> k ∉ keys) as Hnew.
  { intros keys Hk. exists (active_users all (log_keys log)). split; [done|].
    intros endpoint k Hin%active_users_elem. set_solver. }
  apply bind_cases in Hr as [(e & Hl & ->)|([] & s3 & Hl & Hr)];
    apply reload_run in Hl as (Ed3 & Es3 & Ea3 & _ & Hload & Hok3); rewrite Hu in Hload.
  { split; [|by rewrite Ea3, Ea2, Ea1]. destruct Hload as [El3|[= El3]].
    - apply Hsame; congruence.
    - split; [right; rewrite <- El3, Ea3, Ea2, Ea1; by apply Hnew|].
      by rewrite Ea3, Ea2, Ea1, Es3, Es2, Es1. }
  specialize (Hok3 eq_refl Hhon2 _ Hu).
  apply (drop_applied _ (active_users all (log_keys log))) in Hr as [Hf Ha].
  - split; [exact Hf|]. destruct r; [done|]. by rewrite Ha, Ea3, Ea2, Ea1.
  - by rewrite Es3.
  - by rewrite Ea3, Ea2, Ea1.
  - by rewrite Ea3, Ea2, Ea1, Es3, Es2, Es1.
  - exact Hok3.
  - apply active_users_elem.
Qed.
End enforcement.

(** ** What a configuration enrolls *)

Section plan_facts.
Context `{NKeys} `{FixtureJson} (opened : string -> result DeviceRegistration).

Lemma insert_grows (m : gmap string string) i x :
  (forall old, m !! i = Some old -> old = x) -> m ⊆ <[i := x]> m.
Proof.
  intros Hi. apply map_subseteq_spec. intros j y Hj. destruct (decide (i = j)) as [<-|Hne].
  - rewrite (Hi _ Hj). apply lookup_insert_eq.
  - by rewrite lookup_insert_ne.
Qed.
Lemma add_endpoint_grows extra addition extra' :
  add_endpoint extra addition = Ok extra' -> extra ⊆ extra'.
Proof.
  unfold add_endpoint. intros Ha. apply rbind_Ok in Ha as ([endpoint key] & _ & Ha).
  apply rbind_Ok in Ha as ([user device] & _ & Ha).
  apply rbind_Ok in Ha as ([] & _ & Ha). apply rbind_Ok in Ha as ([] & _ & Ha). cbv zeta in Ha.
  set (path := "users." +:+ _) in Ha. apply rbind_Ok in Ha as ([] & Hc%check_Ok & [= <-]).
  apply insert_grows. intros old Hold. change (@lookup string string Enrollment _ path extra) with
    (@lookup string string (gmap string string) _ path extra) in Hc. rewrite Hold in Hc. by bool_prop.
Qed.
Lemma merge_endpoint_Ok all endpoint key all' :
  merge_endpoint all (endpoint, key) = Ok all' ->
  all ⊆ all' /\ all' !! endpoint = Some key /\ is_Some (nkey_type key) /\ starts_with "U" key = true.
Proof.
  unfold merge_endpoint. destruct (split_on "." endpoint) as [|u [|user [|d [|device [|]]]]]; try done.
  intros Hm. inv_ok. bool_prop. unfold Enrollment in *. split_and!; [|apply lookup_insert_eq| |done].
  - apply insert_grows. intros old Hold. congruence.
  - unfold key_pair_type in *. destruct (nkey_type key); [by eexists|done].
Qed.
Lemma fold_result_keeps {A B} (R : B -> B -> Prop) `{!PreOrder R} (f : B -> A -> result B) l b b' :
  (forall b x b', f b x = Ok b' -> R b b') -> fold_result f b l = Ok b' -> R b b'.
Proof.
  intros Hf. revert b. induction l as [|x l IH]; intros b; simpl; [by intros [= ->]|].
  intros (b1 & Hx & Hr)%rbind_Ok. etrans; [by eapply Hf|by apply IH].
Qed.
Lemma merge_all all l all' :
  fold_result merge_endpoint all l = Ok all' ->
  all ⊆ all' /\ Forall (fun e => all' !! fst e = Some (snd e) /\ is_Some (nkey_type (snd e)) /\
    starts_with "U" (snd e) = true) l.
Proof.
  revert all. induction l as [|[endpoint key] l IH]; intros all; simpl; [by intros [= ->]|].
  intros (all1 & (Hs & Hl & Hk & Hu)%merge_endpoint_Ok & Hr)%rbind_Ok.
  destruct (IH _ Hr) as [Hs' Hall]. split; [by etrans|]. constructor; [|done].
  split; [|done]. by eapply lookup_weaken.
Qed.
Lemma keys_injective (all : gmap string string) e1 e2 k :
  size (key_set all) = size all -> all !! e1 = Some k -> all !! e2 = Some k -> e1 = e2.
Proof.
  intros Hsize H1 H2. unfold key_set in Hsize.
  assert (NoDup (snd <$> map_to_list all)) as Hnd.
  { apply (proj1 (size_list_to_set_nodup (snd <$> map_to_list all) (size all) ltac:(by rewrite length_fmap, length_map_to_list))).
    by apply Nat.eqb_eq. }
  apply elem_of_map_to_list in H1, H2.
  apply list_elem_of_lookup in H1 as [i Hi], H2 as [j Hj].
  assert (i = j) as <-; [|congruence].
  eapply (NoDup_lookup _ _ _ k Hnd); by rewrite list_lookup_fmap, ?Hi, ?Hj.
Qed.

(** Writing the development configuration checks everything first. A request
    that is refused changes no file. One that is accepted keeps every additional
    device already enrolled, with its key; enrolls every additional endpoint
    under a user key and no two endpoints under the same key; and leaves the keys
    of its own three users as they are. *)
Theorem dev_enrollment_sound umask canonical root port additions d :
  let '(r, d') := dev_config_with_enrollment umask opened canonical root port additions d in
  match dev_plan opened root additions (dk_fs d) with
  | Err e => r = Err e /\ d' = d
  | Ok p =>
      (forall old endpoint k,
         (let? b := read_file (join root "additional-enrollment.json") (dk_fs d) in
          enrollment_from_slice b) = Ok old ->
         old !! endpoint = Some k -> dp_extra p !! endpoint = Some k) /\
      (forall endpoint k, dp_extra p !! endpoint = Some k ->
         dp_all p !! endpoint = Some k /\ is_Some (nkey_type k) /\ starts_with "U" k = true) /\
      (forall e1 e2 k, dp_all p !! e1 = Some k -> dp_all p !! e2 = Some k -> e1 = e2) /\
      (forall own, local_users opened ["alice"; "bob"; "service"] = Ok own -> own ⊆ dp_all p)
  end.
Proof.
  unfold dev_config_with_enrollment.
  destruct (bind _ _ d) as [r d'] eqn:Hr.
  apply bind_cases in Hr as [(e & [=] & _)|(files & d0 & [-> ->]%gets_Ok & Hr)].
  destruct (dev_plan opened root additions (dk_fs d)) as [p|e] eqn:Hp.
  2: { by injection Hr as <- <-. }
  clear Hr. unfold dev_plan in Hp. apply rbind_Ok in Hp as ([all extra] & He & Hp). unfold dev_enrollment in He.
  apply rbind_Ok in He as (own & Hown & He). apply rbind_Ok in He as (old & Hold & He).
  apply rbind_Ok in He as (extra' & Hextra & He). apply rbind_Ok in He as (all' & Hall & He).
  apply rbind_Ok in He as ([] & Hsize%check_Ok & [= -> ->]). apply rbind_Ok in Hp as (system & _ & Hp). apply rbind_Ok in Hp as (revoked & _ & [= <-]).
  cbn [dp_extra dp_all]. apply merge_all in Hall as [Hsub Hmerged]. apply Nat.eqb_eq in Hsize.
  split_and!.
  - intros old' endpoint k Hold' Hk. rewrite Hold' in Hold. injection Hold as <-.
    apply (lookup_weaken old' extra); [exact Hk|].
    apply (fold_result_keeps (⊆) add_endpoint additions); [apply add_endpoint_grows|done].
  - intros endpoint k Hk%endpoints_elem. rewrite List.Forall_forall in Hmerged.
    apply (Hmerged (endpoint, k)). by apply list_elem_of_In.
  - intros e1 e2 k. by apply keys_injective.
  - intros own' Hown'. rewrite Hown' in Hown. by injection Hown as <-.
Qed.
End plan_facts.
