(* ===== verification/DeploymentExamples.v ===== *)
(** * Deployment: concrete homes

    A database whose creation is interrupted, an established home that is
    validated, a home set up in two attempts, a revocation enforced in the
    development fixture, and an authority that starts on the validated home: the
    witnesses of the theorems on databases, setup, validation, the fixture and the
    processes run on these. *)
From S2P Require Import Prelude External Wire AuthDb Capacity AuditTrail AuditFacts Identity Models Merkle TransparencyFacts Secrets Tls Callout CalloutExamples RoleExamples Files Mls ClientDb IdentityStore Trust TrustExamples Recovery Database DatabaseFacts Inspection Deployment Validation ValidationFacts Online OnlineFacts RecoveryExamples Setup SetupFacts Roles Registry KvStore Transparency Revocation Directory Authority Backend Development.

(** ** A database whose creation is interrupted

    The authority's database is opened on an empty directory; the process stops
    after the metadata was written, then after the file was created, and the
    third open completes. Inspection accepts exactly from then on. *)
Module InterruptedOpen.
Import Database DatabaseFacts Inspection.
#[local] Existing Instance digest_model.
Definition key_seeds : Seeds := {| xkey_public := fun _ => None; seed_pair := fun _ => None |}.
#[local] Existing Instance key_seeds.
Definition database_key : string := repeat_char 64 "a".
Definition empty_dir : Dir nat Keyring := {|
  d_file := None; d_state := None;
  d_vault := {| metadata_file := None; keyring := empty_keyring; saves := [] |}; d_io := [] |}.

(** The operations of an open in order: probe, three on the directory, probe,
    metadata, file, ... *)
Definition stop_after (n : nat) : list (bool * bool) := repeat (true, true) n ++ [(false, false)].
Definition interrupted : list dir_op := [
  Attempt true true slot_name (Ok database_key) (stop_after 6);
  Credential "device" User None true slot_name (Err External);
  Attempt true true "unused" (Err External) (stop_after 7)].

Example first_stop :
  d_file (run_dir_ops "auth" (take 1 interrupted) empty_dir) = None /\
  is_Some (d_state (run_dir_ops "auth" (take 1 interrupted) empty_dir)).
Proof. vm_compute. by split; [|eexists]. Qed.
Example second_stop : d_file (run_dir_ops "auth" interrupted empty_dir) = Some EmptyFile.
Proof. vm_compute. reflexivity. Qed.

Lemma open_crash_safe_witness :
  exists d'', open "auth" true true "unused" (Err External)
                (set_io [] (run_dir_ops "auth" interrupted empty_dir)) = (Ok tt, d'') /\
    established "auth" d''.
Proof.
  destruct (open_crash_safe "auth" interrupted empty_dir true "unused" (Err External))
    as (_ & _ & d'' & Hrun & He & _); [reflexivity|by right; left|vm_compute; discriminate|].
  exists d''. split; [exact Hrun|exact He].
Defined.

Definition fine : Pragmas := {|
  integrity_check := Ok "ok"; cipher_rows := Ok false; foreign_key_rows := Ok false |}.
Definition opened : Dir nat Keyring :=
  snd (open "auth" true true "unused" (Err External)
         (set_io [] (run_dir_ops "auth" interrupted empty_dir))).
Lemma opened_sound : sound "auth" opened.
Proof.
  pose proof (safe_open "auth" true true "unused" (Err External)
    (set_io [] (run_dir_ops "auth" interrupted empty_dir))) as Ho. unfold safe in Ho.
  assert (sound "auth" (set_io [] (run_dir_ops "auth" interrupted empty_dir))) as Hs
    by (apply (same_dir_sound "auth" (run_dir_ops "auth" interrupted empty_dir));
        [split; [|split]; reflexivity|];
        exact (proj2 (run_dir_ops_advances "auth" interrupted empty_dir eq_refl))).
  specialize (Ho Hs). unfold opened. destruct (open _ _ _ _ _ _) as [[[]|e] d]; [|by apply Ho].
  destruct Ho as [[_ Ha] _]. by apply Ha.
Qed.
Lemma inspect_agrees_with_open_witness :
  is_ok (fst (inspect "auth" fine opened)) = true.
Proof.
  apply (inspect_agrees_with_open "auth" fine true "unused" (Err External) opened);
    [by right; left|by split_and!|vm_compute; reflexivity|exact opened_sound|].
  vm_compute. reflexivity.
Defined.
End InterruptedOpen.

(** ** An established home, validated

    Stand-ins for the libraries validation reads through, a home with its six
    credentials and two databases, and a broker that reports the resources of
    its manifest; the witnesses of the theorems on validation run on these. *)
Module ValidatedHome.
Import Database DatabaseFacts Inspection Deployment Validation ValidationFacts Online OnlineFacts.
Import InterruptedOpen.
#[local] Existing Instances digest_model letter_keys.

(** *** The manifest and its resources *)

(** A setting is its JSON value, the empty text by default. *)
Definition defaults_model : StreamDefaults string := {|
  stream_default := {|
    sc_name := ""; sc_subjects := []; sc_storage := StorageFile; sc_retention := RetainLimits;
    sc_num_replicas := 1; sc_discard := DiscardOld; sc_max_bytes := 0; sc_max_messages := 0;
    sc_max_messages_per_subject := 0; sc_max_message_size := 0; sc_max_consumers := 0;
    sc_discard_new_per_subject := false; sc_max_age := ""; sc_no_ack := false;
    sc_persist_mode := None; sc_sealed := false; sc_template_owner := ""; sc_allow_rollup := false;
    sc_deny_delete := false; sc_deny_purge := false; sc_republish := ""; sc_mirror := "";
    sc_sources := None; sc_allow_direct := false; sc_mirror_direct := false;
    sc_subject_transform := ""; sc_allow_message_ttl := false; sc_subject_delete_marker_ttl := "";
    sc_pause_until := ""; sc_allow_message_schedules := false; sc_allow_message_counter := false;
    sc_consumer_limits := None |};
  setting_value := Text |}.
#[local] Existing Instance defaults_model.
#[local] Instance defaults_laws : StreamDefaultLaws string.
Proof. by split. Qed.

Definition manifest_2 : DeploymentManifest :=
  {| m_version := 2; m_replicas := 3; m_capacity := Some default_capacity |}.
Lemma manifest_2_wf : manifest_wf manifest_2.
Proof. split; [by right|]. split; [reflexivity|]. vm_compute. reflexivity. Qed.

(** The stream as created, and one whose subjects come in another order. *)
Definition chat : StreamConfig string := declared manifest_2 "CHAT".
Lemma compare_exact_witness :
  Contract manifest_2 "CHAT" chat /\ compare manifest_2 "CHAT" (declared manifest_2 "MAILBOX") <> Ok [].
Proof.
  split.
  - apply (proj1 (compare_exact manifest_2 "CHAT" chat manifest_2_wf)); [by left|]. vm_compute. reflexivity.
  - vm_compute. discriminate.
Defined.
Lemma published_compatible_witness : compare manifest_2 "KV_CHANNELS" (declared manifest_2 "KV_CHANNELS") = Ok [].
Proof.
  apply (published_compatible manifest_2 (declared manifest_2 "KV_CHANNELS") manifest_2_wf).
  do 3 right. left.
Defined.

(** *** A broker that reports them *)

(** An answer is the number of what it reports: 0 the account, 1 to 5 a resource. *)
Definition peers : ClusterInfo := {|
  cluster_leader := Some "node0";
  cluster_replicas := repeat {| peer_current := true; peer_offline := false; peer_lag := Some 0 |} 2 |}.
Definition api_model : ApiJson string := {|
  api_value := fun b => match b with [c] => Some (Number (Z.of_N (Byte.to_N c))) | _ => None end;
  api_account := fun v => match v with Number 0 => true | _ => false end;
  api_info := fun v =>
    match v with
    | Number n => (fun name => {| info_config := declared manifest_2 name; info_cluster := Some peers |})
                    <$> declared_names !! Z.to_nat (n - 1)
    | _ => None
    end |}.
#[local] Existing Instance api_model.
Definition answer (c : Byte.byte) : Exchange := {| x_events := []; x_reply := Payload [c] |}.
Definition answers : list Exchange := answer <$> [x00; x01; x02; x03; x04; x05].
Definition nats_server : Server :=
  {| srv_version := "2.14.5"; srv_max_payload := 65536; srv_connect_urls := [] |}.

Lemma startup_success_sound_witness :
  exists v info, answered answers v /\ api_info v = Some info /\
    Contract manifest_2 "MAILBOX" (info_config info) /\ healthy (info_cluster info) 3 = true.
Proof.
  refine (proj2 (proj2 (startup_success_sound nats_server manifest_2 false answers 6 manifest_2_wf _)) "MAILBOX" _).
  - vm_compute. reflexivity.
  - right. left.
Defined.
(** One wait less, and the deadline is the failure. *)
Example startup_cut_off :
  list.last (ck_id <$> rp_checks (inspect_resources nats_server manifest_2 false answers 5)) = Some "startup.deadline"
  /\ rp_success (inspect_resources nats_server manifest_2 false answers 5) = false.
Proof. vm_compute. done. Qed.

(** *** A home *)

Definition item_name (c : ascii) : string := String "U" (repeat_char 55 c).
Definition home_seeds : Seeds := {|
  xkey_public := fun s => if bool_decide (s = "SX") then Some "XENC" else None;
  seed_pair := fun s => if bool_decide (s = "SA") then Some (AccountKey, "AISSUER")
    else if bool_decide (s = "SU") then Some (UserKey, "UCONN")
    else if bool_decide (s = "SD") then Some (UserKey, "UDIR") else None |}.
#[local] Existing Instance home_seeds.

Definition held (c : ascii) (secret : string) : Item :=
  {| item_id := item_name c; item_locked := false; item_secret := secret |}.
Definition home_keyring : Keyring := {|
  service_available := true; default_collection := Some true; accepts := true;
  items := [held "A" "SA"; held "B" "SX"; held "C" "SU"; held "D" "SD";
            held "E" (repeat_char 64 "a"); held "F" (repeat_char 64 "b")] |}.
Definition reference_of (c : ascii) (k : Kind) (secret : string) : SecretRef :=
  {| sr_id := item_name c; sr_kind := k;
     sr_public_key := match kind_public k secret with Ok p => p | Err _ => "" end |}.
Definition issuer_ref : SecretRef := reference_of "A" Account "SA".
Definition encryption_ref : SecretRef := reference_of "B" XKey "SX".
Definition connection_ref : SecretRef := reference_of "C" User "SU".
Definition device_ref : SecretRef := reference_of "D" User "SD".
Definition auth_key : SecretRef := reference_of "E" Secrets.Database (repeat_char 64 "a").
Definition control_key : SecretRef := reference_of "F" Secrets.Database (repeat_char 64 "b").
Definition slot_of (r : SecretRef) : Slot :=
  {| slot_id := sr_id r; slot_kind := sr_kind r; slot_public_key := Some (sr_public_key r) |}.
Definition vault_of (l : list (string * SecretRef)) : VaultState Keyring := {|
  metadata_file := Some (Ok {| md_version := 1; slots := list_to_map (prod_map id slot_of <$> l) |});
  keyring := home_keyring; saves := [] |}.
Definition ready_dir {D} (role : string) (key : SecretRef) (password : string) (data : D)
    (l : list (string * SecretRef)) : Dir D Keyring := {|
  d_file := Some (Cipher password {| c_binding := Some (Some (1, role, sr_id key)); c_data := Some data |});
  d_state := Some (Ok {| db_version := 1; db_role := role; db_key := key; db_ready := true |});
  d_vault := vault_of l; d_io := [] |}.

Definition service_registration : DeviceRegistration := {|
  payload := {| protocol_version := 1; user_id := "service"; device_id := "laptop";
                nats_public_key := "UDIR"; mls_credential := []; mls_key_package := [];
                reg_generation := 1; created_at := 7 |};
  reg_signature := good_signature |}.
Definition registration_model : Postcard DeviceRegistration := {|
  to_allocvec := fun _ => Ok [x01]; take_from_bytes := fun b => Ok (service_registration, tl b) |}.
Definition reference_model : Json SecretRef :=
  {| to_json := fun _ => Ok "device"; from_json := fun _ => Ok device_ref |}.
Definition versions_model (t : string) : list Z :=
  if bool_decide (t = "auth_migrations") then [1; 2; 3]
  else if bool_decide (t = "epochgrid_migrations") then [1; 2; 3; 4; 5; 6; 7; 8] else [1; 2; 3; 4; 5; 6].
Definition catalog_model {D} : Catalog D := {|
  q_versions := fun _ t => Ok (versions_model t); q_object_type := fun _ _ => Ok "table";
  q_prepare := fun _ _ _ => Ok tt; q_identity_count := fun _ => Ok 1;
  q_identity := fun _ => Ok ("device", [x01]) |}.
#[local] Existing Instances registration_model reference_model catalog_model.

Definition home_config : Config := {|
  cfg_version := 2; issuer := issuer_ref; encryption := encryption_ref; connection := connection_ref;
  target_account := "APP"; control_nkey := "UDIR"; authorization_ttl_seconds := 30;
  development_plaintext := false; operator_jwt := None |}.
Definition config_model : ConfigJson := {|
  json_version := fun _ => Ok (Some 2); config_of_json := fun _ => Ok home_config;
  user_token_decode := fun _ => Err External |}.
Definition capacity_model : CapacityFile := fun _ => Ok default_capacity.
Definition manifest_model : ManifestJson string := {|
  manifest_input := fun _ => Ok {| in_version := 1; in_replicas := 3; in_capacity := None |};
  pretty_manifest := fun _ => Ok "manifest"; pretty_capacity := fun _ => Ok "capacity";
  pretty_stream := fun c => Ok (sc_name c) |}.
Definition addrs_model : ServerAddrs := fun url =>
  Some {| username := None; password := None; tls_required := starts_with "tls://" url |}.
Definition trust_model : TrustStore := {|
  pem_certificates := fun _ => Ok []; native_errors := false; native_certificates := ["root"];
  root_add := fun _ => true |}.
#[local] Existing Instances config_model capacity_model manifest_model addrs_model trust_model.

Definition owned (t : FileType) (m : Z) : Node :=
  {| file_type := t; owner := 7; mode := m; contents := [] |}.
Definition home_files : Fs := list_to_map
  (("/home", owned Directory 0x1C0) :: ("/home/control", owned Directory 0x1C0) ::
   ((fun name => (join "/home" name, owned Regular 0x180)) <$>
      ["auth.json"; "deployment.json"; "capacity.json"; "credentials.json"; "auth.database.json";
       "auth.sqlite"; "auth.sqlite-wal"; "control/credentials.json"; "control/identity.database.json";
       "control/identity.sqlite"])).
Definition site (files : Fs) : Site nat Keyring := {|
  s_uid := 7; s_files := files; s_env := fun _ => Ok None; s_now := Ok 1000;
  s_auth := ready_dir "auth" auth_key (repeat_char 64 "a") invited
    [("issuer", issuer_ref); ("encryption", encryption_ref); ("connection", connection_ref);
     ("database-auth", auth_key)];
  s_auth_pragmas := fine;
  s_control := ready_dir "identity" control_key (repeat_char 64 "b") 0%nat
    [("device", device_ref); ("database-identity", control_key)];
  s_control_pragmas := fine |}.
Definition canonical_model (path : string) : result string := Ok path.
Definition parent_model (path : string) : string := "/home".
Definition offline_model (files : Fs) (endpoint : option string) : Report :=
  offline canonical_model parent_model (site files) "/home" "/home/auth.json" endpoint.

Example home_passes : rp_success (offline_model home_files (Some "tls://broker")) = true.
Proof. vm_compute. reflexivity. Qed.
(** A file others may read fails, with its code, and so do the checks behind it. *)
Example open_file_fails :
  let r := offline_model (<["/home/auth.sqlite" := owned Regular 0x1A4]> home_files) None in
  (fun c => (ck_id c, ck_observed c)) <$> List.filter (fun c => bool_decide (ck_status c = Failed)) (rp_checks r)
  = [("local.permissions.auth.database", Text "permissions_too_open")] /\ rp_success r = false.
Proof. vm_compute. done. Qed.

Lemma validated_home_opens_witness :
  open "auth" true true "" (Err External) (s_auth (site home_files)) = (Ok tt, s_auth (site home_files)) /\
  open "identity" true true "" (Err External) (s_control (site home_files)) = (Ok tt, s_control (site home_files)).
Proof.
  apply (validated_home_opens canonical_model parent_model (site home_files) "/home" "/home/auth.json" None).
  - vm_compute. reflexivity.
  - do 4 (split; [vm_compute; reflexivity|]). split; vm_compute; reflexivity.
  - do 4 (split; [vm_compute; reflexivity|]). split; vm_compute; reflexivity.
  - reflexivity.
  - reflexivity.
Defined.

Definition options_model : ConnectOptions := {|
  subscription_capacity := 0; client_capacity := 0; connection_seconds := 5; require_tls := false;
  tls_client_config := None; opt_tls_first := false |}.
Definition node : Endpoint := {|
  ep_auth := ([], Some None); ep_flush := ([], Some true); ep_control := ([], Some None);
  ep_server := nats_server; ep_exchanges := answers |}.
Definition online_model (waits : nat) : Report :=
  online canonical_model parent_model options_model (site home_files) "/home" "/home/auth.json"
    [("tls://one", node); ("tls://two", node)] waits.

Lemma online_success_sound_witness :
  established_home canonical_model parent_model (site home_files) "/home" "/home/auth.json" None /\
  inspected_connection nats_server answers manifest_2.
Proof.
  destruct (online_success_sound canonical_model parent_model options_model (site home_files) "/home"
    "/home/auth.json" [("tls://one", node); ("tls://two", node)] 18)
    as (He & _ & config & m & Hin & Hall); [vm_compute; reflexivity|].
  split; [exact He|]. vm_compute in Hin. injection Hin as <- <-.
  exact (proj2 (proj2 (proj2 (proj2 (proj1 (Hall 1%nat "tls://two" node eq_refl)))))).
Defined.

Definition online_json : ReportJson := {|
  report_to_json := fun _ => []; report_from_json := fun _ => Ok (online_model 9);
  value_text := fun _ => "" |}.
#[local] Existing Instance online_json.
(** The deadline cuts the second endpoint off: the report fails and still parses. *)
Lemma validation_reports_parse_witness :
  rp_success (online_model 9) = false /\
  parse (report_to_json (online_model 9)) = Ok (online_model 9).
Proof.
  split; [vm_compute; reflexivity|].
  refine (validation_reports_parse canonical_model parent_model options_model (site home_files) "/home" "/home/auth.json"
    None [("tls://one", node); ("tls://two", node)] nats_server manifest_2 false answers 9 (online_model 9) _ manifest_2_wf _).
  - reflexivity.
  - right. left.
Defined.
End ValidatedHome.

(** ** A home set up in two attempts

    The first run stops when the manifest is written; the second completes it;
    a third, with other choices, is refused. Exports beside the result replace
    nothing. *)
Module TwoAttempts.
Import Setup SetupFacts.
Import InterruptedOpen ValidatedHome.
#[local] Existing Instances digest_model letter_keys home_seeds defaults_model manifest_model
  config_model capacity_model ValidatedHome.registration_model ValidatedHome.reference_model
  auth_pages device_pages no_mls payload_model.

Definition setup_json : SetupJson := {|
  pretty_value := fun _ => Ok "value";
  pretty_options := fun o => Ok (as_bytes (target o));
  pretty_config := fun c => Ok (as_bytes (target_account c)) |}.
Definition device_secret : Credentials := fun _ => Ok "SD".
#[local] Existing Instances setup_json device_secret.

Definition simple : InitOptions := {|
  auth_mode := Configuration; op_target_account := None; op_auth_account := None; op_replicas := 3 |}.
Definition other : InitOptions := {|
  auth_mode := Configuration; op_target_account := Some "OTHER"; op_auth_account := None; op_replicas := 3 |}.
Definition draws : SetupDraws := {|
  sd_lock := true; sd_database_lock := true; sd_vault_lock := true;
  sd_item := fun role =>
    if bool_decide (role = "issuer") then (item_name "A", Ok "SA")
    else if bool_decide (role = "encryption") then (item_name "B", Ok "SX")
    else if bool_decide (role = "connection") then (item_name "C", Ok "SU")
    else (item_name "E", Ok (repeat_char 64 "a"));
  sd_migrated := Ok tt; sd_control_opened := Ok tt; sd_clock := Ok 7; sd_random := ([], []) |}.

(** A directory with a note in it, and the control identity of an earlier run. *)
Definition bare (io : list (option nat)) : Disk := {|
  dk_fs := list_to_map [("/home", owned Directory 0x1C0); ("/home/notes", owned Regular 0x180)];
  dk_user := 7; dk_io := io |}.
Definition bare_home (io : list (option nat)) : Backend_home (St := unit) (V := Keyring) := {|
  bh_disk := bare io;
  bh_auth := {| d_file := None; d_state := None;
                d_vault := {| metadata_file := None; keyring := empty_keyring; saves := [] |}; d_io := [] |};
  bh_control := {| h_db := set_identity (fun _ => Some ("device", [x01])) fresh_device;
                   h_vault := vault_of [("device", device_ref)] |} |}.
Definition run_init (options : InitOptions) (b : Backend_home (St := unit) (V := Keyring)) :=
  initialize_home (X := string) default_capacity parent_model "/home" options draws b.

(** The first run stops after the bundle, the second at the last sync. *)
Definition first_attempt := snd (run_init simple (bare_home (repeat None 63 ++ [Some 0%nat]))).
Definition last_sync := bare_home (repeat None 76 ++ [Some 0%nat]).
Example two_attempts :
  dk_fs (bh_disk first_attempt) !! "/home/auth.json" = None /\
  fst (run_init simple first_attempt) = Ok tt /\ fst (run_init simple last_sync) = Err External.
Proof. vm_compute. done. Qed.

Lemma bare_no_orphans io : no_orphans "/home/deployment-artifacts" (dk_fs (bare io)).
Proof.
  intros _ name. apply not_elem_of_list_to_map_1. cbn.
  rewrite !elem_of_cons, elem_of_nil. intros [?|[?|[]]]; discriminate.
Qed.

Lemma setup_never_overwrites_witness :
  has "/home/notes" [] (dk_fs (bh_disk (snd (run_init simple last_sync)))) /\
  has "/home/notes" [] (dk_fs (snd (export (X := string) (V := Keyring) canonical_model parent_model "/home"
    "/home/auth.json" (Some 3) None true (Ok 1000) (vault_of []) (vault_of []) (bh_disk last_sync)))).
Proof.
  pose proof (setup_never_overwrites (X := string) default_capacity parent_model "/home" simple draws last_sync
    canonical_model "/home/auth.json" (Some 3) None true (Ok 1000) (vault_of []) (vault_of [])
    (bare_no_orphans _) (bare_no_orphans _)
    ltac:(intros name; discriminate) ltac:(intros name; discriminate)) as [Hi He].
  split; eapply has_grows; [exact Hi| |exact He|];
    exists (owned Regular 0x180); vm_compute; done.
Defined.

Lemma initialization_commits_witness :
  has "/home/auth.json" (as_bytes "EPOCHGRID") (dk_fs (bh_disk (snd (run_init simple last_sync)))).
Proof.
  destruct (run_init simple last_sync) as [r b'] eqn:Hrun. cbn [snd].
  destruct (initialization_commits (X := string) default_capacity parent_model "/home" simple draws last_sync
    r b' Hrun (bare_no_orphans _)) as (m & config & c & p & pt & a & pl & plt & data & H1 & H2 & H3 & H4 & H5 &
      H6 & H7 & H8 & H9 & H10 & H11 & Hd & Hh & Ht & _).
  - vm_compute. reflexivity.
  - replace b' with (snd (run_init simple last_sync)) by by rewrite Hrun. vm_compute. by eexists.
  - cbn in Hd. rewrite Ht in Hd. injection Hd as <-. exact Hh.
Defined.

Lemma retry_keeps_choices_witness :
  exists e b', run_init other first_attempt = (Err e, b') /\ bh_auth b' = bh_auth first_attempt.
Proof.
  destruct (retry_keeps_choices (X := string) default_capacity parent_model "/home" other draws first_attempt
    (as_bytes "EPOCHGRID")) as (e & b' & Hrun & Ha & _).
  - intros Hout. exfalso. revert Hout. vm_compute. discriminate.
  - exists (private_node 7 (as_bytes "EPOCHGRID")). vm_compute. done.
  - vm_compute. discriminate.
  - exists e, b'. split; [exact Hrun|exact Ha].
Defined.
End TwoAttempts.

(** ** A revocation enforced in the development fixture

    Two devices have consumers on both streams; one is revoked. The broker takes
    the users on disk at the second reload only, so the first round fails and the
    second completes. *)
Module EnforcedRevocation.
Import Development.
Definition two_devices : Registry.Enrollment :=
  {["users.alice.devices.laptop" := "UA"; "users.bob.devices.laptop" := "UB"]}.
Definition fixture_json : FixtureJson := {|
  enrollment_from_slice := fun _ => Ok two_devices;
  enrollment_to_vec_pretty := fun _ => Ok [x01];
  keys_from_slice := fun _ => Ok ∅;
  keys_to_vec_pretty := fun _ => Ok [x02] |}.
#[local] Existing Instance fixture_json.
Definition two_consumers : gmap string Consumer :=
  {[device_name "UA" := chat_config []; device_name "UB" := chat_config []]}.
Definition fixture_service : Service := {|
  sv_registry := sv_registry stopped;
  sv_broker := {| b_log := {| kv_entries := ∅; kv_last := 0 |};
                  b_directory := {| kv_entries := ∅; kv_last := 0 |};
                  b_chat := two_consumers; b_mailbox := two_consumers; b_chat_last := 5; b_published := [] |};
  sv_calls := repeat calm 10; sv_cancelled := false; sv_moment := 0%nat; sv_runtime := sv_runtime stopped;
  control_rate := control_rate stopped; revocation_rate := revocation_rate stopped;
  sv_denials := sv_denials stopped |}.
Definition public_file : Node := {| file_type := Regular; owner := 7; mode := 0x1a4; contents := [x01] |}.
Definition taken_reply : Value := Object [("server", Object [])].
Definition refused_reply : Value := Object [("error", Text "busy"); ("server", Object [])].
Definition two_running : Fixture := {|
  fx_disk := {| dk_fs := {["/dev/public-enrollment.json" := public_file]}; dk_user := 7; dk_io := [] |};
  fx_service := fixture_service; fx_loaded := as_bytes (render_users two_devices ∅);
  fx_attachments := None; fx_reloads := [(false, Ok refused_reply); (true, Ok taken_reply)];
  fx_applied := ∅; fx_sent := [] |}.
Definition round_of (s : Fixture) : result unit * Fixture := enforce 0x12 "/dev" revocations_1 false s.

Lemma calm_tame n : Forall tame (repeat calm n).
Proof.
  apply list.Forall_forall. intros c Hc. apply list_elem_of_In, repeat_spec in Hc as ->. by split.
Qed.
Lemma running_in_force : in_force two_running.
Proof. split; [by left|]. intros k Hk. cbn in Hk. set_solver. Qed.
Lemma running_honest : honest two_running.
Proof.
  intros taken v Hin Ha. cbn in Hin. apply elem_of_cons in Hin as [[= -> ->]|Hin].
  - discriminate Ha.
  - apply list_elem_of_singleton in Hin. by injection Hin.
Qed.

Lemma revocation_enforced_witness :
  is_ok (fst (round_of two_running)) = false /\
  (log_keys revocations_1 <> fx_applied (snd (round_of two_running))) /\
  in_force (snd (round_of two_running)) /\ is_ok (fst (round_of (snd (round_of two_running)))) = true.
Proof.
  destruct (round_of two_running) as [r s'] eqn:Hr. cbn [fst snd].
  assert (r = fst (round_of two_running)) as Er by by rewrite Hr.
  assert (s' = snd (round_of two_running)) as Es by by rewrite Hr.
  destruct (revocation_enforced 0x12 "/dev" revocations_1 false two_running r s' Hr) as [Hf Ho].
  - exact running_honest.
  - exact (calm_tame 10).
  - intros name node Hname Hnode. exfalso.
    apply elem_of_cons in Hname as [->|Hname]; [by vm_compute in Hnode|].
    apply list_elem_of_singleton in Hname as ->. by vm_compute in Hnode.
  - apply empty_subseteq.
  - exact running_in_force.
  - split; [rewrite Er; vm_compute; reflexivity|]. split; [|split; [exact Hf|rewrite Es; vm_compute; reflexivity]].
    destruct r as [u|e]; [exfalso; assert (is_ok (fst (round_of two_running)) = true) as Hx by by rewrite <- Er|].
    + vm_compute in Hx. discriminate Hx.
    + by apply Ho.
Defined.
Example second_round_completes :
  let s := snd (round_of (snd (round_of two_running))) in
  fx_applied s = {["UA"]} /\ fx_loaded s = as_bytes (render_users two_devices {["UA"]}) /\
  b_chat (sv_broker (fx_service s)) = {[device_name "UB" := chat_config []]}.
Proof. vm_compute. done. Qed.
End EnforcedRevocation.

(** ** An authority starts

    In production, on the validated home, with the broker of the validation and a
    registry with one device. *)
Module StartedAuthority.
Import Inspection Deployment Validation Online Backend ValidatedHome.
#[local] Existing Instances digest_model letter_keys home_seeds defaults_model manifest_model api_model
  config_model capacity_model addrs_model trust_model ValidatedHome.registration_model ValidatedHome.reference_model
  catalog_model auth_pages gate_envelope_model checkpoint_model TrustExamples.request_model
  TrustExamples.revocation_model TrustExamples.relay_model messages_model payload_model record_model
  kind_model RoleExamples.role_json_model frames_model.
Definition host : Machine := {| fs := home_files; euid := 7; runtime_active := false; disk := [] |}.
Definition launch : Launch := {|
  la_machine := host; la_service := stopped; la_made := []; la_answers := repeat true 20 |}.
Definition facts (k : KeyPair) : StartFacts := {|
  st_identity := Ok k; st_registry := Ok tt; st_reopened := Ok tt; st_max_payload := 65536;
  st_server := nats_server; st_denied := false; st_exchanges := answers; st_waits := 18; st_instant := 0;
  st_random := repeat x00 16; st_calls := many; st_lock := true |}.
Definition start_run f := serve_inner canonical_model parent_model (fun _ => None) options_model tick_moments
  (site home_files) "/home" "tls://broker" "/home/auth.json" None f launch.
Example starts :
  is_ok (fst (start_run (facts operator))) = true /\
  la_made (snd (start_run (facts operator))) =
    [ConnectService; SubscribeCallout; FlushService; ConnectControl; LookupDirectory; LookupLog;
     SubscribeIdentity; SubscribeChannel; FlushControl].
Proof. vm_compute. done. Qed.
Lemma start_gated_witness :
  exists key, public_key key = "UDIR" /\
    startup tick_moments key (booted (facts operator) stopped)
      = (Ok tt, la_service (snd (start_run (facts operator)))).
Proof.
  pose proof (start_gated canonical_model parent_model (fun _ => None) options_model tick_moments
    (site home_files) "/home" "tls://broker" "/home/auth.json" None (facts operator) launch) as Hg.
  change (serve_inner _ _ _ _ _ _ _ _ _ _ _ _) with (start_run (facts operator)) in Hg.
  destruct (start_run (facts operator)) as [r l'] eqn:Hr.
  assert (match r with Ok c => control_nkey (co_config c) | Err _ => EmptyString end = "UDIR") as Hc
    by (change r with (fst (r, l')); rewrite <- Hr; vm_compute; reflexivity).
  destruct r as [c|e]; [|discriminate Hc].
  destruct Hg as (_ & _ & _ & _ & _ & (key & Hkey & Hstart) & _). exists key.
  split; [exact (eq_trans Hkey Hc)|exact Hstart].
Defined.

(** The validation of the same home, which no roles are bound to, and of one whose
    database others may read. *)
Definition validate_run (files : Fs) := validate_command canonical_model parent_model options_model (site files)
  {| fs := files; euid := 7; runtime_active := false; disk := [] |} "/home" "/home/auth.json" None false []
  (fun _ => node) 18 (Err External) id.
Example command_fails :
  snd (validate_run (<["/home/auth.sqlite" := owned Regular 0x1A4]> home_files)) <> Ok tt.
Proof. vm_compute. discriminate. Qed.
(** The same home bound to roles, validated at the server's endpoint and one more;
    the authority's socket answers for a reconciled authority with a live worker. *)
Definition bindings_7 : Roles.Bindings := {|
  Roles.b_version := 1; Roles.authority_uid := 7; Roles.worker_uid := 8; Roles.worker_nkey := "UWORKER";
  Roles.socket := "/run/epochgrid/control.sock" |}.
#[local] Instance role_json_7 : Roles.RoleJson := {|
  Roles.bindings_from_slice := fun _ => Ok bindings_7; Roles.bindings_to_vec_pretty := fun _ => Err External;
  Roles.worker_config_from_slice := fun _ => Err External;
  Roles.worker_config_to_vec_pretty := fun _ => Err External;
  Roles.capabilities_to_vec_pretty := fun _ => Err External |}.
#[local] Instance status_frames : Ipc.FrameJson := {|
  Ipc.frame_to_vec := fun _ => Ok [x01];
  Ipc.frame_from_slice := fun _ => Ok {| Ipc.f_version := Roles.ROLE_VERSION; Ipc.f_sequence := 0;
                                          Ipc.f_operation := Ipc.OStatus true true |};
  Ipc.report_to_vec := fun _ => Err External; Ipc.report_from_slice := fun _ => Err External |}.
Definition role_files : Fs := <[Files.join "/home" Roles.BINDINGS := owned Regular 0x180]> home_files.
Definition online_run (answers : nat -> Endpoint) := validate_command canonical_model parent_model options_model
  (site role_files) {| fs := role_files; euid := 7; runtime_active := false; disk := [] |} "/home" "/home/auth.json"
  (Some "tls://one") true ["tls://two"] answers 18 (Ok 7) (fun _ => Ipc.write_u32 1 ++ [x01]).
Definition deaf : Endpoint := {|
  ep_auth := ([], None); ep_flush := ([], None); ep_control := ([], None); ep_server := nats_server;
  ep_exchanges := [] |}.
Example deaf_endpoint_fails :
  snd (online_run (fun i => if bool_decide (i = 1%nat) then deaf else node)) <> Ok tt.
Proof. vm_compute. discriminate. Qed.
Example online_passes : snd (online_run (fun _ => node)) = Ok tt.
Proof. vm_compute. reflexivity. Qed.
#[local] Instance online_command_json : ReportJson := {|
  report_to_json := fun _ => []; report_from_json := fun _ => Ok (fst (online_run (fun _ => node)));
  value_text := fun _ => EmptyString |}.
Lemma validate_command_sound_witness :
  snd (online_run (fun _ => node)) = Ok tt /\
  parse (report_to_json (fst (online_run (fun _ => node)))) = Ok (fst (online_run (fun _ => node))) /\
  exists config manifest,
    online_inputs (here (site role_files) {| fs := role_files; euid := 7; runtime_active := false; disk := [] |})
      "/home" "/home/auth.json" = Ok (config, manifest) /\
    check_transport config (from_lookup (fun _ => Ok None)) "tls://two" = Ok tt /\
    inspected_connection nats_server answers manifest.
Proof.
  pose proof (validate_command_sound canonical_model parent_model options_model (site role_files)
    {| fs := role_files; euid := 7; runtime_active := false; disk := [] |} "/home" "/home/auth.json"
    (Some "tls://one") true ["tls://two"] (fun _ => node) 18 (Ok 7) (fun _ => Ipc.write_u32 1 ++ [x01])) as Hv.
  change (validate_command _ _ _ _ _ _ _ _ _ _ _ _ _ _) with (online_run (fun _ => node)) in Hv.
  split; [vm_compute; reflexivity|].
  assert (report_from_json (report_to_json (fst (online_run (fun _ => node))))
          = Ok (fst (online_run (fun _ => node)))) as Hj by reflexivity.
  assert (snd (online_run (fun _ => node)) = Ok tt) as Hok by (vm_compute; reflexivity).
  destruct (online_run (fun _ => node)) as [report result]. destruct (Hv Hj) as [Hp Hs]. split; [exact Hp|].
  destruct (Hs Hok) as (_ & _ & Hon & _). destruct (Hon eq_refl) as (_ & config & manifest & Hin & Hall).
  exists config, manifest. split; [exact Hin|].
  destruct (Hall 1%nat "tls://two" eq_refl) as (Ht & _ & _ & _ & Hi). split; [exact Ht|exact Hi].
Defined.

(** The commands on its trail, stopped and running; an export to a free name, to one
    that is taken, and to one that another process takes first. *)
#[local] Existing Instance manifest_text.
Definition audit_facts (meanwhile : option Node) : AuditDraws := {|
  ad_file := Ok tt; ad_policy := Ok None; ad_rows := fun _ k => k; ad_store := Ok "store";
  ad_io := []; ad_meanwhile := meanwhile; ad_draws := (draw_model, draw_model, draw_model) |}.
Definition trail_of (running : bool) : Stopped := {|
  sp_machine := {| fs := home_files; euid := 7; runtime_active := running; disk := [] |}; sp_db := one_event |}.
Definition keep_after (running : bool) := audit_run (audit_facts None) "/home" (CRetention 1) (trail_of running).
Definition export_of (meanwhile : option Node) (output : string) :=
  audit_run (audit_facts meanwhile) "/home" (CExport output zeros 0 1 10) (trail_of false).
Example names_kept :
  is_ok (fst (export_of None "/home/auth.sqlite")) = false /\
  is_ok (fst (export_of (Some (blank 9)) "/trail")) = false /\
  fs (sp_machine (snd (export_of (Some (blank 9)) "/trail"))) !! "/trail" = Some (blank 9).
Proof. vm_compute. done. Qed.
End StartedAuthority.
