(* ===== verification/Attachments.v ===== *)
(** * Attachments

    [crates/epochgrid-core/src/attachments.rs]: manifests, their encoding inside
    a message, the encryption of a file under them, the local index of
    manifests, and the download that puts a file together from chunks it does
    not trust. *)
From stdpp Require Import sorting.
From S2P Require Import Prelude External Wire Capacity Identity Merkle Mls ClientDb IdentityStore Groups.

(* @src core/messaging.rs 11-11 MAX_PLAINTEXT *)
Definition MAX_PLAINTEXT : Z := 16384.
(* @src core/attachments.rs 17-17 BUCKET *)
Definition BUCKET : string := "ATTACHMENTS".
(* @src core/attachments.rs 19-19 HARD_MAX_BYTES *)
Definition HARD_MAX_BYTES : Z := 64 * 1024 * 1024.
(* @src core/attachments.rs 20-20 CHUNK *)
Definition CHUNK : Z := 32 * 1024.
(* @src core/attachments.rs 21-21 PREFIX *)
Definition ATTACHMENT_PREFIX : bytes := xff :: as_bytes "EGATT".

(** [slice::starts_with] and the rest. *)
Fixpoint strip_bytes (p l : bytes) : option bytes :=
  match p, l with
  | [], _ => Some l
  | a :: p, b :: l => if decide (a = b) then strip_bytes p l else None
  | _ :: _, [] => None
  end.
Lemma strip_bytes_app p l : strip_bytes p (p ++ l) = Some l.
Proof. induction p as [|a p IH]; simpl; [done|]. by rewrite decide_True. Qed.

(* @src core/attachments.rs 25-29 Limits *)
Record Limits : Type := { max_bytes : Z; ttl_seconds : Z }.
(* @src core/attachments.rs 31-36 default *)
Definition default_limits : Limits := {| max_bytes := 8 * 1024 * 1024; ttl_seconds := 604800 |}.
(* @src core/attachments.rs 50-60 validate *)
Definition validate_limits (l : Limits) : result unit :=
  check ((1 <=? max_bytes l) && (max_bytes l <=? HARD_MAX_BYTES))
    "attachment size limit must be 1–67108864 bytes" ;;?
  check ((1 <=? ttl_seconds l) && (ttl_seconds l <=? 31536000))
    "attachment lifetime must be 1–31536000 seconds".
(** A variable that is absent, not Unicode, or a string to parse. *)
Inductive EnvVar : Type := NotPresent | NotUnicode | Var (s : string).
(* @src core/attachments.rs 62-68 env_number *)
Definition env_number (name : string) (v : EnvVar) (default : Z) : result Z :=
  match v with
  | Var s => match parse_u64 s with
             | Ok n => Ok n
             | Err _ => Err (Anyhow ("invalid " +:+ name))
             end
  | NotPresent => Ok default
  | NotUnicode => Err (Anyhow ("invalid " +:+ name))
  end.
(* @src core/attachments.rs 39-49 from_env *)
Definition limits_from_env (max ttl : EnvVar) : result Limits :=
  let? m := env_number "EPOCHGRID_ATTACHMENT_MAX_BYTES" max (max_bytes default_limits) in
  let? t := env_number "EPOCHGRID_ATTACHMENT_TTL_SECONDS" ttl (ttl_seconds default_limits) in
  let limits := {| max_bytes := m; ttl_seconds := t |} in
  validate_limits limits ;;?
  Ok limits.

(* @src core/attachments.rs 72-81 object_id *)
Definition object_id (id : string) : result unit :=
  check ((slen id =? 32) && string_all is_lower_hex id) "invalid attachment ID".

(* @src core/attachments.rs 82-94 Manifest *)
Record Manifest : Type := {
  mf_id : string;
  filename : string;
  mime : string;
  size : Z;
  ciphertext_size : Z;
  expires_at : Z;
  mf_hash : bytes;
  mf_key : bytes;
  mf_nonce : bytes;
}.

Definition mime_char (c : ascii) : bool :=
  is_ascii_alphanumeric c || existsb (fun x => bool_decide (c = x)) ["/"; "."; "-"; "+"; "_"]%char.
(* @src core/attachments.rs 96-125 validate *)
Definition validate_manifest (m : Manifest) : result unit :=
  object_id (mf_id m) ;;?
  check (negb (bool_decide (filename m = EmptyString)) && (slen (filename m) <=? 255)
         && negb (bool_decide (filename m ∈ ["."; ".."]))
         && negb (existsb (fun c => is_control c || (c =? 47)%N || (c =? 92)%N) (chars (filename m))))
    "invalid attachment filename" ;;?
  check (negb (bool_decide (mime m = EmptyString)) && (slen (mime m) <=? 127)
         && negb (lacks "/" (mime m)) && string_all mime_char (mime m))
    "invalid attachment MIME type" ;;?
  check ((size m <=? HARD_MAX_BYTES) && (ciphertext_size m =? size m + 16) && (0 <? expires_at m))
    "invalid attachment size or expiration".

(** [{}] of an integer. *)
Fixpoint decimal_digits (fuel : nat) (n : Z) (acc : string) : string :=
  match fuel with
  | O => acc
  | S fuel =>
      let acc := String (ascii_of_N (48 + Z.to_N (n mod 10))) acc in
      if n <? 10 then acc else decimal_digits fuel (n / 10) acc
  end.
(* @src core/attachments.rs 131-136 summary *)
Definition summary (m : Manifest) : string :=
  "[attachment " +:+ mf_id m +:+ "] " +:+ filename m +:+ " ("
  +:+ decimal_digits 20 (size m) EmptyString +:+ " bytes, " +:+ mime m +:+ ")".

Section attachments.
Context `{Sha256} `{Aead} `{Postcard Manifest} `{Postcard (string * string)}.

(* @src core/attachments.rs 126-130 aad *)
Definition manifest_aad (gid : string) (m : Manifest) : result bytes :=
  let? b := to_allocvec (gid, mf_id m) in
  Ok (as_bytes "EpochGrid attachment v1" ++ [x00] ++ b).

(* @src core/attachments.rs 137-148 encode *)
Definition encode_manifest (m : Manifest) : result bytes :=
  validate_manifest m ;;?
  let? encoded := to_allocvec m in
  let b := ATTACHMENT_PREFIX ++ [x01] ++ encoded in
  check (zlen b <=? MAX_PLAINTEXT) "attachment manifest too large" ;;?
  Ok b.
(* @src core/attachments.rs 149-161 decode *)
Definition decode_manifest (b : bytes) : result (option Manifest) :=
  match strip_bytes ATTACHMENT_PREFIX b with
  | None => Ok None
  | Some r =>
      check ((zlen b <=? MAX_PLAINTEXT) && bool_decide (head r = Some x01))
        "unsupported attachment manifest version" ;;?
      let? (m, rest) := take_from_bytes (tl r) in
      check (bool_decide (rest = [])) "trailing attachment manifest bytes" ;;?
      validate_manifest m ;;?
      Ok (Some m)
  end.

(** [now] is the wall clock in seconds. *)
(* @src core/attachments.rs 162-186 decrypt *)
Definition decrypt_attachment (m : Manifest) (gid : string) (ciphertext : bytes) (l : Limits)
  (now : result Z) : result bytes :=
  validate_manifest m ;;?
  validate_limits l ;;?
  check ((size m <=? max_bytes l) && (zlen ciphertext =? ciphertext_size m))
    "attachment exceeds size limit or is truncated" ;;?
  let? clock := now in
  check (clock <? expires_at m) "attachment expired" ;;?
  let? aad := manifest_aad gid m in
  let? plaintext := ok_or (aead_decrypt (mf_key m) ciphertext (mf_nonce m) aad)
                      (Anyhow "attachment authentication failed") in
  let? same := (if zlen plaintext =? size m
                then let? h := hash plaintext in Ok (bool_decide (h = mf_hash m))
                else Ok false) in
  check same "attachment content hash mismatch" ;;?
  Ok plaintext.

(* @src core/attachments.rs 188-195 display *)
Definition display (b : bytes) : string :=
  match decode_manifest b with
  | Ok (Some m) => summary m
  | Ok None => from_utf8_lossy b
  | Err _ => "[unsupported or invalid attachment]"
  end.

(** [random], [key] and [nonce] are the provider's three draws. *)
(* @src core/attachments.rs 196-242 encrypt *)
Definition encrypt_attachment (gid name type : string) (b : bytes) (l : Limits)
  (random key nonce : bytes) (now : result Z) : result (Manifest * bytes) :=
  validate_limits l ;;?
  check (zlen b <=? max_bytes l) "attachment exceeds configured size limit" ;;?
  let? clock := now in
  let? expires := ok_or (checked_add64 clock (ttl_seconds l)) (Anyhow "attachment expiration overflow") in
  let? h := hash b in
  let m := {| mf_id := hex_bytes random; filename := name; mime := type; size := zlen b;
              ciphertext_size := zlen b + 16; expires_at := expires; mf_hash := h; mf_key := key;
              mf_nonce := nonce |} in
  validate_manifest m ;;?
  let? aad := manifest_aad gid m in
  let? ciphertext := ok_or (aead_encrypt key b nonce aad) (Anyhow "attachment encryption failed") in
  Ok (m, ciphertext).

(** ** The index *)

Section index.
Context {St : Type} `{Pages (ClientDb St)} `{Mls St}.
Implicit Types (d : ClientDb St).

(* @src core/attachments.rs 258-279 index_attachment *)
Definition index_attachment (gid : string) (b : bytes) : M (ClientDb St) unit :=
  match decode_manifest b with
  | Err _ => fail InvalidMessage
  | Ok None => ret tt
  | Ok (Some m) =>
      let* previous := gets (fun d => attachments_t (events d) !! (gid, mf_id m)) in
      lift (require (match previous with Some old => bool_decide (old = b) | None => true end)
              InvalidMessage) ;;;
      modify (set_events (set_attachments (insert_ignore (gid, mf_id m) b)))
  end.

Definition stored_manifest (b : bytes) : result Manifest :=
  let? o := decode_manifest b in ok_or o (Anyhow "invalid stored attachment").
Definition by_object (a b : (string * string) * bytes) : Prop := string_le (snd (fst a)) (snd (fst b)).
#[local] Instance by_object_dec : RelDecision by_object.
Proof. intros a b. unfold by_object. apply _. Defined.
(* @src core/attachments.rs 280-290 attachments *)
Definition attachments (name : string) d : result (list Manifest) :=
  let? g := group name d in
  rmap (fun '(_, b) => stored_manifest b)
    (take 1000 (merge_sort by_object
      (rows (fun k _ => bool_decide (fst k = grp_gid g)) (attachments_t (events d))))).
(* @src core/attachments.rs 291-304 attachment *)
Definition attachment (name id : string) d : result Manifest :=
  object_id id ;;?
  let? g := group name d in
  let? b := ok_or (attachments_t (events d) !! (grp_gid g, id))
    (Anyhow "attachment not found in authenticated local history; sync the channel first") in
  stored_manifest b.
End index.

(** ** Downloads *)

(** What the object store says of an object, and one stored chunk. *)
Record ObjectInfo : Type := {
  oi_deleted : bool; oi_bucket : string; oi_name : string; oi_link : bool; oi_size : Z;
  oi_chunks : Z; oi_nuid : string;
}.
Record StoredChunk : Type := { ck_subject : string; ck_sequence : Z; ck_payload : bytes }.

(** [fetch subject next] is the server's answer to
    [get_first_raw_message_by_subject]. *)
(* @src core/attachments.rs 430-447 download (chunks) *)
Fixpoint fetch_chunks (fetch : string -> Z -> result StoredChunk) (subject : string) (total : Z)
  (n : nat) (next : Z) (ciphertext : bytes) : result bytes :=
  match n with
  | O => Ok ciphertext
  | S n =>
      let? chunk := fetch subject next in
      check (bool_decide (ck_subject chunk = subject) && (next <=? ck_sequence chunk)
             && negb (bool_decide (ck_payload chunk = [])) && (zlen (ck_payload chunk) <=? CHUNK)
             && (zlen ciphertext + zlen (ck_payload chunk) <=? total))
        "invalid attachment chunk" ;;?
      let? next := ok_or (checked_add64 (ck_sequence chunk) 1) (Anyhow "attachment sequence overflow") in
      fetch_chunks fetch subject total n next (ciphertext ++ ck_payload chunk)
  end.

(* @src core/attachments.rs 388-452 download *)
Definition download {St} `{Pages (ClientDb St)} `{Mls St} `{Postcard RecoveryStatus}
  (name id : string) (l : Limits) (now now' : result Z) (info : result ObjectInfo)
  (fetch : string -> Z -> result StoredChunk) (d : ClientDb St) : result bytes :=
  validate_limits l ;;?
  let? status := recovery_status d in
  check (match status with Some _ => false | None => true end)
    "recovery-only home: enroll a fresh device and obtain a new invitation to resume messaging" ;;?
  let? m := attachment name id d in
  let? fresh := (if size m <=? max_bytes l then let? clock := now in Ok (clock <? expires_at m)
                 else Ok false) in
  check fresh "attachment expired or exceeds configured size limit" ;;?
  let? g := group name d in
  let? info := info in
  check (negb (oi_deleted info) && bool_decide (oi_bucket info = BUCKET)
         && bool_decide (oi_name info = id) && negb (oi_link info))
    "invalid attachment object or unsupported link" ;;?
  check ((oi_size info =? ciphertext_size m) && (0 <? oi_chunks info)
         && (oi_chunks info <=? (HARD_MAX_BYTES + 16 + CHUNK - 1) / CHUNK))
    "invalid attachment object size/chunk count" ;;?
  check (negb (bool_decide (oi_nuid info = EmptyString)) && (slen (oi_nuid info) <=? 64)
         && string_all is_ascii_alphanumeric (oi_nuid info))
    "invalid attachment chunk ID" ;;?
  let subject := "$O." +:+ BUCKET +:+ ".C." +:+ oi_nuid info in
  let? ciphertext := fetch_chunks fetch subject (oi_size info) (Z.to_nat (oi_chunks info)) 1 [] in
  decrypt_attachment m (grp_gid g) ciphertext l now'.
End attachments.
