(* ===== verification/Relationships.v ===== *)
(** * Application events

    [crates/epochgrid-core/src/relationships.rs]: the immutable events inside
    MLS application messages, their canonical encoding, their index, and the
    projection of a conversation: edits, replies and reactions applied in an
    order every device agrees on. *)
From stdpp Require Import sorting.
From S2P Require Import Prelude External Wire Capacity Identity Merkle Mls ClientDb IdentityStore Groups Attachments.

(* @src core/relationships.rs 12-12 PREFIX *)
Definition EVENT_PREFIX : bytes := xff :: as_bytes "EGMSG".
(* @src core/relationships.rs 13-13 MAX_APPLICATION *)
Definition MAX_APPLICATION : Z := MAX_PLAINTEXT + 512.

(* @src core/relationships.rs 15-24 Relation *)
Inductive Relation : Type :=
| ReplyTo (id : bytes)
| Replace (id : bytes)
| Reaction (target : bytes) (value : string) (add : bool).
#[global] Instance Relation_eq_dec : EqDecision Relation.
Proof. solve_decision. Defined.
(* @src core/relationships.rs 26-31 target *)
Definition target (r : Relation) : bytes :=
  match r with ReplyTo id | Replace id => id | Reaction id _ _ => id end.

(* @src core/relationships.rs 33-39 ApplicationEvent *)
Record ApplicationEvent : Type := {
  ae_nonce : bytes;
  ae_counter : Z;
  ae_content : bytes;
  ae_relation : option Relation;
}.
#[global] Instance ApplicationEvent_eq_dec : EqDecision ApplicationEvent.
Proof. solve_decision. Defined.

(* @src core/relationships.rs 64-86 validate *)
Definition validate_event (e : ApplicationEvent) : result unit :=
  check ((1 <=? ae_counter e) && (ae_counter e <=? i64_max)) "invalid application counter" ;;?
  match ae_relation e with
  | Some (Reaction _ value _) =>
      check (bool_decide (ae_content e = []) && negb (bool_decide (value = EmptyString))
             && (slen value <=? 32)
             && negb (existsb (fun c => is_control c || is_whitespace c) (chars value)))
        "reaction must contain 1–32 non-whitespace UTF-8 bytes and no content"
  | _ =>
      check (negb (bool_decide (ae_content e = [])) && (zlen (ae_content e) <=? MAX_PLAINTEXT))
        "message content must contain 1–16384 bytes"
  end ;;?
  match ae_relation e with
  | Some (Replace _) => let? _ := ok_or (from_utf8 (ae_content e)) (Anyhow "replacement must be text") in Ok tt
  | _ => Ok tt
  end.

(* @src core/relationships.rs 109-111 root *)
Definition event_root (e : ApplicationEvent) : bool :=
  match ae_relation e with None | Some (ReplyTo _) => true | _ => false end.

(* @src core/relationships.rs 131-133 id_text *)
Definition id_text (id : bytes) : string := hex_bytes id.
Definition short_id (id : bytes) : string := String.substring 0 12 (id_text id).

(* @src core/relationships.rs 112-129 transcript *)
Definition event_transcript (e : ApplicationEvent) : bytes :=
  match ae_relation e with
  | None | Some (ReplyTo _) => ae_content e
  | Some (Replace id) =>
      as_bytes ("[edit " +:+ short_id id +:+ "] " +:+ from_utf8_lossy (ae_content e))
  | Some (Reaction id value add) =>
      as_bytes ("[reaction " +:+ (if add : bool then "add" else "remove") +:+ " " +:+ short_id id
                +:+ " " +:+ value +:+ "]")
  end.

(** [u8::from_str_radix(.., 16)] of two lower-case hexadecimal digits. *)
Definition hex_value (c : ascii) : Z :=
  let n := Z.of_N (N_of_ascii c) in if is_ascii_digit c then n - 48 else n - 87.
Fixpoint hex_pairs (s : string) : bytes :=
  match s with
  | String a (String b r) =>
      default x00 (Byte.of_N (Z.to_N (hex_value a * 16 + hex_value b))) :: hex_pairs r
  | _ => []
  end.
(* @src core/relationships.rs 134-147 parse_id *)
Definition parse_id (text : string) : result bytes :=
  check ((slen text =? 64) && string_all is_lower_hex text)
    "message ID must be 64 lowercase hexadecimal characters" ;;?
  Ok (hex_pairs text).

(* @src core/relationships.rs 148-153 Record *)
Record EventRecord : Type := {
  er_row : Z; er_sender : string; er_id : string; er_event : ApplicationEvent;
}.

Definition ApplicationTuple : Type := (string * string * string * bytes)%type.
Definition LegacyTuple : Type := (string * string * bytes)%type.

Section relationships.
Context `{Sha256} `{Postcard ApplicationEvent} `{Postcard ApplicationTuple} `{Postcard LegacyTuple}.

(* @src core/relationships.rs 87-93 wire *)
Definition event_wire (e : ApplicationEvent) : result bytes :=
  validate_event e ;;?
  let? b := to_allocvec e in
  Ok (EVENT_PREFIX ++ [x01] ++ b).

(* @src core/relationships.rs 94-108 decode *)
Definition decode_event (b : bytes) : result (option ApplicationEvent) :=
  match strip_bytes EVENT_PREFIX b with
  | None => check (zlen b <=? MAX_PLAINTEXT) "oversized legacy message" ;;? Ok None
  | Some r =>
      check ((zlen b <=? MAX_APPLICATION) && bool_decide (head r = Some x01))
        "unsupported application envelope" ;;?
      let? (e, rest) := take_from_bytes (tl r) in
      check (bool_decide (rest = [])) "trailing application bytes" ;;?
      validate_event e ;;?
      let? again := event_wire e in
      check (bool_decide (again = b)) "noncanonical application envelope" ;;?
      Ok (Some e)
  end.

(** The identifier of an event and the event stored under it: an old message
    without an envelope becomes an event of its own. *)
(* @src core/relationships.rs 196-219 index_application (identifier) *)
Definition event_identity (gid sender : string) (ciphertext : bytes) (e : option ApplicationEvent)
  (plaintext : bytes) : result (bytes * ApplicationEvent) :=
  match e with
  | Some e =>
      let? w := event_wire e in
      let? b := to_allocvec (("epochgrid application id v1", gid, sender, w) : ApplicationTuple) in
      let? id := hash b in
      Ok (id, e)
  | None =>
      let? b := to_allocvec (("epochgrid legacy id v1", gid, ciphertext) : LegacyTuple) in
      let? id := hash b in
      Ok (id, {| ae_nonce := repeat x00 16; ae_counter := 0; ae_content := plaintext;
                 ae_relation := None |})
  end.
Definition event_kind (e : ApplicationEvent) : Z :=
  match ae_relation e with
  | None => 0 | Some (ReplyTo _) => 1 | Some (Replace _) => 2 | Some (Reaction _ _ _) => 3
  end.

Section store.
Context {St : Type} `{Pages (ClientDb St)} `{Mls St} `{Postcard DeviceRegistration}.
Implicit Types (d : ClientDb St).

Definition own_name d : result string :=
  let? r := registration d in
  Ok (user_id (payload r) +:+ "/" +:+ device_id (payload r)).

(** [COALESCE(MAX(e.counter),0)] over the events a sender has in a group. *)
Definition last_counter (gid sender : string) d : Z :=
  fold_right Z.max 0
    (map (fun '(_, e) => ev_counter e)
       (rows (fun row e => bool_decide (ev_gid e = gid)
                           && match transcript (chat d) !! row with
                              | Some t => bool_decide (tr_sender t = Some sender)
                              | None => false
                              end)
          (message_events (events d)))).
(* @src core/relationships.rs 41-63 new *)
Definition new_event (name : string) (content : bytes) (relation : option Relation) (nonce : bytes)
  (d : ClientDb St) : result ApplicationEvent :=
  let? own := registration d in
  let? g := group name d in
  let sender := user_id (payload own) +:+ "/" +:+ device_id (payload own) in
  let? counter := ok_or (checked_add64 (last_counter (grp_gid g) sender d) 1)
                    (Anyhow "application counter exhausted") in
  let e := {| ae_nonce := nonce; ae_counter := counter; ae_content := content;
              ae_relation := relation |} in
  validate_event e ;;?
  Ok e.

(** A row of the event index is displayed when another of the same event was. *)
(* @src core/relationships.rs 187-232 index_application *)
Definition index_application (row : Z) (gid sender : string) (ciphertext : bytes)
  (e : option ApplicationEvent) (plaintext : bytes) : M (ClientDb St) unit :=
  let* (id, e) := lift (event_identity gid sender ciphertext e plaintext) in
  let* b := lift (to_allocvec e) in
  let* table := gets (fun d => message_events (events d)) in
  let* table := lift (insert_row row
    {| ev_gid := gid; ev_message_id := id_text id;
       ev_target := (id_text ∘ target) <$> ae_relation e;
       ev_kind := event_kind e; ev_counter := ae_counter e; ev_event := b |} table) in
  modify (set_events (set_message_events (fun _ => table))) ;;;
  modify (fun d =>
    let shown := exists_row (fun r v => bool_decide (ev_gid v = gid)
        && bool_decide (ev_message_id v = id_text id)
        && match transcript (chat d) !! r with Some t => tr_displayed t | None => false end)
      (message_events (events d)) in
    set_chat (set_transcript (update_where (fun r _ => (r =? row) && shown)
      (fun t => {| tr_gid := tr_gid t; tr_payload := tr_payload t; tr_sender := tr_sender t;
                   tr_plaintext := tr_plaintext t; tr_outgoing := tr_outgoing t;
                   tr_sequence := tr_sequence t; tr_displayed := true |}))) d).

(* @src core/relationships.rs 233-242 application_id *)
Definition application_id (row : Z) d : option string :=
  ev_message_id <$> (message_events (events d) !! row).

(* @src core/relationships.rs 243-259 resolve_message *)
Definition resolve_message (name prefix : string) d : result bytes :=
  check ((8 <=? slen prefix) && (slen prefix <=? 64) && string_all is_lower_hex prefix)
    "use at least eight lowercase hexadecimal ID characters" ;;?
  let? g := group name d in
  match remove_dups (map (fun '(_, e) => ev_message_id e)
          (rows (fun _ e => bool_decide (ev_gid e = grp_gid g) && starts_with prefix (ev_message_id e))
             (message_events (events d)))) with
  | [id] => parse_id id
  | _ => Err (Anyhow "unknown or ambiguous message ID")
  end.

(** The events of a group joined with their transcript rows. *)
Definition joined (p : EventRow -> bool) d : list (Z * EventRow * TranscriptRow) :=
  omap (fun '(row, e) => (fun t => (row, e, t)) <$> (transcript (chat d) !! row))
    (rows (fun _ e => p e) (message_events (events d))).
Definition unpack (x : Z * EventRow * TranscriptRow) : result EventRecord :=
  let '(row, e, t) := x in
  let? sender := ok_or (tr_sender t) External in
  let? event := from_bytes (ev_event e) in
  Ok {| er_row := row; er_sender := sender; er_id := ev_message_id e; er_event := event |}.

(** [ORDER BY t.stream_sequence IS NULL, t.stream_sequence, e.transcript_id]. *)
Definition sequence_key (x : Z * EventRow * TranscriptRow) : bool * Z * Z :=
  let '(row, _, t) := x in
  match tr_sequence t with Some s => (false, s, row) | None => (true, 0, row) end.
Definition sequence_le (x y : Z * EventRow * TranscriptRow) : Prop :=
  let '(n, s, r) := sequence_key x in let '(n', s', r') := sequence_key y in
  (if Bool.eqb n n' then if s =? s' then r <=? r' else s <? s' else negb n) = true.
#[local] Instance sequence_le_dec : RelDecision sequence_le.
Proof.
  intros x y. unfold sequence_le. destruct (sequence_key x) as [[? ?] ?], (sequence_key y) as [[? ?] ?].
  apply _.
Defined.
(* @src core/relationships.rs 260-262 application *)
Definition application (gid : string) (id : bytes) d : result (option EventRecord) :=
  match merge_sort sequence_le (joined (fun e => bool_decide (ev_gid e = gid)
                                      && bool_decide (ev_message_id e = id_text id)) d) with
  | [] => Ok None
  | x :: _ => let? r := unpack x in Ok (Some r)
  end.

Definition is_text (e : ApplicationEvent) : bool :=
  match from_utf8 (ae_content e) with Some _ => true | None => false end.
(* @src core/relationships.rs 263-283 validate_relation *)
Definition validate_relation (name : string) (r : Relation) d : result unit :=
  let? g := group name d in
  let? o := application (grp_gid g) (target r) d in
  let? t := ok_or o (Anyhow "target message is not available locally") in
  check (event_root (er_event t)) "relationships must target a message or reply" ;;?
  match r with
  | Replace _ =>
      let? own := own_name d in
      check (bool_decide (er_sender t = own))
        "only the original sending device can edit a message" ;;?
      check (is_text (er_event t)) "only text messages can be edited"
  | _ => Ok tt
  end.

(** ** The projection *)

(** [ORDER BY e.counter, e.message_id, e.transcript_id]. *)
Definition update_le (x y : Z * EventRow * TranscriptRow) : Prop :=
  let '(r, e, _) := x in let '(r', e', _) := y in
  (if ev_counter e =? ev_counter e'
   then if decide (ev_message_id e = ev_message_id e') then r <=? r'
        else string_leb (ev_message_id e) (ev_message_id e')
   else ev_counter e <? ev_counter e') = true.
#[local] Instance update_le_dec : RelDecision update_le.
Proof. intros [[r e] t] [[r' e'] t']. unfold update_le. apply _. Defined.

(** What the updates of a message amount to: its content, whether it was
    edited, and for every device and reaction whether it is on. *)
Record Updates : Type := {
  up_seen : gset string;
  up_content : bytes;
  up_edited : bool;
  up_reactions : gmap (string * string) bool;
}.
(* @src core/relationships.rs 312-334 projected (updates) *)
Definition apply_update (root : EventRecord) (u : Updates) (r : EventRecord) : Updates :=
  if bool_decide (er_id r ∈ up_seen u) then u
  else
    let u := {| up_seen := {[er_id r]} ∪ up_seen u; up_content := up_content u;
                up_edited := up_edited u; up_reactions := up_reactions u |} in
    match ae_relation (er_event r) with
    | Some (Replace _) =>
        if bool_decide (er_sender r = er_sender root) && is_text (er_event root)
        then {| up_seen := up_seen u; up_content := ae_content (er_event r); up_edited := true;
                up_reactions := up_reactions u |}
        else u
    | Some (Reaction _ value add) =>
        {| up_seen := up_seen u; up_content := up_content u; up_edited := up_edited u;
           up_reactions := <[(er_sender r, value) := add]> (up_reactions u) |}
    | _ => u
    end.

(** The users with an active reaction, by value. *)
Definition user_of (device : string) : string :=
  match split_once "/" device with Some (u, _) => u | None => device end.
Definition reaction_users (m : gmap (string * string) bool) (value : string) : list string :=
  merge_sort string_le (remove_dups (map (fun '((device, _), _) => user_of device)
    (List.filter (fun '((_, v), active) => bool_decide (v = value) && active) (map_to_list m)))).
Definition reaction_values (m : gmap (string * string) bool) : list string :=
  merge_sort string_le (remove_dups (map (fun '((_, v), _) => v)
    (List.filter (fun '(_, active) => active) (map_to_list m)))).
Definition newline : string := String (ascii_of_nat 10) EmptyString.
Definition join (sep : string) (l : list string) : string := String.concat sep l.

Context `{Postcard Manifest}.

(* @src core/relationships.rs 284-373 projected *)
Definition projected (gid : string) (root : EventRecord) d : result string :=
  if negb (event_root (er_event root)) then
    let? relation := ok_or (ae_relation (er_event root)) (Anyhow "control relation missing") in
    let? o := application gid (target relation) d in
    match o with
    | None =>
        Ok ("[unresolved " +:+ short_id (target relation) +:+ "] "
            +:+ from_utf8_lossy (event_transcript (er_event root)))
    | Some t =>
        if negb (event_root (er_event t))
           || match relation with
              | Replace _ => negb (bool_decide (er_sender t = er_sender root)) || negb (is_text (er_event t))
              | _ => false
              end
        then Ok ("[ignored relationship to " +:+ String.substring 0 12 (er_id t)
                 +:+ ": unauthorized or invalid target]")
        else ok_or (from_utf8 (event_transcript (er_event root))) External
    end
  else
    let? updates := rmap unpack (merge_sort update_le
      (joined (fun e => bool_decide (ev_gid e = gid) && bool_decide (ev_target e = Some (er_id root))
                        && bool_decide (ev_kind e ∈ [2; 3])) d)) in
    let u := fold_left (apply_update root) updates
      {| up_seen := ∅; up_content := ae_content (er_event root); up_edited := false;
         up_reactions := ∅ |} in
    let text := display (up_content u) +:+ (if up_edited u then " [edited]" else "") in
    let? text := match ae_relation (er_event root) with
                 | Some (ReplyTo parent) =>
                     let? o := application gid parent d in
                     let who := match o with
                                | Some p => if event_root (er_event p) then er_sender p else "unavailable"
                                | None => "unavailable"
                                end in
                     Ok ("[reply to " +:+ who +:+ " " +:+ short_id parent +:+ "]" +:+ newline +:+ text)
                 | _ => Ok text
                 end in
    Ok (fold_left (fun text value =>
          text +:+ newline +:+ "[reaction " +:+ value +:+ ": "
          +:+ join ", " (reaction_users (up_reactions u) value) +:+ "]")
        (reaction_values (up_reactions u)) text).
End store.
End relationships.
