(* ===== verification/Messaging.v ===== *)
(** * Messages and history

    [crates/epochgrid-core/src/messaging.rs], [epochs.rs], [history.rs] and the
    index of [receipts.rs]: encryption and decryption of application events in
    one transaction with everything they record, commits from other devices,
    the staging of deliveries, their processing in stream order, and the queries
    on the transcript. *)
From stdpp Require Import sorting.
From S2P Require Import Prelude External Wire Capacity Identity Registry Policy KvStore Merkle Transparency Secrets Mls ClientDb IdentityStore Revocation Trust Groups Delivery Attachments Relationships.

(* @src core/messaging.rs 12-16 DecryptedMessage *)
Record DecryptedMessage : Type := { dm_sender : string; dm_plaintext : bytes }.
(* @src core/history.rs 8-15 HistoryEntry *)
Record HistoryEntry : Type := {
  he_id : Z;
  he_sequence : option Z;
  he_sender : option string;
  he_plaintext : option bytes;
  he_outgoing : bool;
}.
(* @src core/history.rs 16-22 SyncReport *)
Record SyncReport : Type := { staged : Z; decrypted : Z; rejected : Z; unavailable : Z }.

Section messaging.
Context {St : Type} `{Pages (ClientDb St)} `{Mls St} (capacity : Capacity).
Context `{NKeys} `{MlsPackages} `{Seeds} `{Credentials} `{Json SecretRef} `{Base32} `{Sha256}
  `{Postcard DeviceRegistration} `{Postcard RecoveryStatus} `{Postcard Envelope}
  `{Postcard RegistrationPayload} `{Postcard Intent} `{Postcard WelcomeRelay}
  `{Postcard Manifest} `{Postcard ApplicationEvent} `{Postcard ApplicationTuple}
  `{Postcard LegacyTuple}.
Implicit Types (d : ClientDb St).

(** ** Statements on the transcript *)

(** [INSERT INTO transcript]: the payload is unique; the new row's ID. *)
Definition insert_transcript (row : TranscriptRow) : M (ClientDb St) Z :=
  let* table := gets (fun d => transcript (chat d)) in
  lift (require (negb (exists_row (fun _ t => bool_decide (tr_payload t = tr_payload row)) table))
          SqlConstraint) ;;;
  modify (set_chat (set_transcript (insert (next_rowid table) row))) ;;;
  ret (next_rowid table).

(** The smallest sequence number a message was seen under; sequence numbers are
    unique. *)
Definition lower_sequence (p : TranscriptRow -> bool) (sequence : Z) : M (ClientDb St) unit :=
  let* table := gets (fun d => transcript (chat d)) in
  let changes (t : TranscriptRow) := p t && match tr_sequence t with
                                            | None => true
                                            | Some s => sequence <? s
                                            end in
  let changed := update_where (fun _ t => changes t)
    (fun t => {| tr_gid := tr_gid t; tr_payload := tr_payload t; tr_sender := tr_sender t;
                 tr_plaintext := tr_plaintext t; tr_outgoing := tr_outgoing t;
                 tr_sequence := Some sequence; tr_displayed := tr_displayed t |}) table in
  lift (require (negb (exists_row (fun _ t => changes t) table)
                 || (count_rows (fun _ t => bool_decide (tr_sequence t = Some sequence)) changed <=? 1))
          SqlConstraint) ;;;
  modify (set_chat (set_transcript (fun _ => changed))).

(* @src core/receipts.rs 64-70 index_receipt *)
Definition index_receipt (id : Z) (gid : string) (payload : bytes) : M (ClientDb St) unit :=
  let* reference := lift (hash payload) in
  modify (set_events (set_receipt_messages (fun m =>
    if exists_row (fun k v => (k =? id) || bool_decide (v = (gid, reference))) m then m
    else <[id := (gid, reference)]> m))).

(** Whether the ciphertext was received or sent by this device. *)
Definition known_ciphertext (b : bytes) d : bool :=
  bool_decide (b ∈ received (chat d))
  || exists_row (fun _ r => bool_decide (ob_payload r = b)) (outbox (chat d)).
Definition insert_received (b : bytes) : M (ClientDb St) unit :=
  let* seen := gets (fun d => bool_decide (b ∈ received (chat d))) in
  lift (require (negb seen) SqlConstraint) ;;;
  modify (set_chat (set_received (fun r => {[b]} ∪ r))).

(** ** Sending *)

(* @src core/messaging.rs 37-75 encrypt_event_inner *)
Definition encrypt_event_inner (name : string) (e : ApplicationEvent) (rnd : bytes)
  : M (ClientDb St) bytes :=
  let* application := lift (event_wire e) in
  let plaintext := event_transcript e in
  let* r := gets (group name) in
  let* descriptor := lift r in
  let* (signer, _) := signer in
  when (event_root e) (index_attachment (grp_gid descriptor) (ae_content e)) ;;;
  let* r := gets (load_group descriptor) in
  let* g := lift r in
  ensure_can_send g ;;;
  ensure (2 <=? zlen (g_members g)) "invite a peer before sending messages" ;;;
  let* b := provider (create_message signer g application rnd) in
  queue capacity (subject "message" descriptor) b ;;;
  let* r := gets own_name in
  let* sender := lift r in
  let* row := insert_transcript {| tr_gid := grp_gid descriptor; tr_payload := b;
    tr_sender := Some sender; tr_plaintext := Some plaintext; tr_outgoing := true;
    tr_sequence := None; tr_displayed := true |} in
  index_receipt row (grp_gid descriptor) b ;;;
  index_application row (grp_gid descriptor) sender b (Some e) plaintext ;;;
  ret b.
(* @src core/messaging.rs 34-36 encrypt_event *)
Definition encrypt_event (name : string) (e : ApplicationEvent) (rnd : bytes) : M (ClientDb St) bytes :=
  transaction capacity (encrypt_event_inner name e rnd).
(* @src core/messaging.rs 18-21 encrypt_message *)
Definition encrypt_message (name : string) (plaintext nonce rnd : bytes) : M (ClientDb St) bytes :=
  let* r := gets (new_event name plaintext None nonce) in
  let* e := lift r in
  encrypt_event name e rnd.
(* @src core/messaging.rs 22-33 encrypt_related *)
Definition encrypt_related (name : string) (relation : Relation) (content nonce rnd : bytes)
  : M (ClientDb St) bytes :=
  let* r := gets (validate_relation name relation) in
  lift r ;;;
  let* r := gets (new_event name content (Some relation) nonce) in
  let* e := lift r in
  encrypt_event name e rnd.

(** ** Receiving *)

(** The header of a private message of the group. *)
Definition private_header (b : bytes) (descriptor : Group) : result ProtocolMessage :=
  let? message := ok_or (parse_message b) InvalidMessage in
  require (private_message message) InvalidMessage ;;?
  let? protocol := ok_or (protocol_message message) InvalidMessage in
  require (bool_decide (pm_group_id protocol = grp_mls_id descriptor)) InvalidMessage ;;?
  Ok protocol.
Definition process_error (e : ProcessError) : error :=
  match e with
  | StorageFailure => Anyhow "MLS storage failure"
  | LibraryFailure => Anyhow "MLS library failure"
  | GroupStateFailure => Anyhow "MLS group state failure"
  | InvalidPacket => InvalidMessage
  end.
(** [process_message] on the shared connection. *)
Definition process (g : MlsGroup) (p : ProtocolMessage) : M (ClientDb St) Processed :=
  provider (fun s => match process_message g p s with
                     | (inl v, s) => (Ok v, s)
                     | (inr e, s) => (Err (process_error e), s)
                     end).

(** What a processed application message says: its sender and its event. *)
(* @src core/messaging.rs 121-131 decrypt_inner (content) *)
Definition application_of (p : Processed) : result (string * bytes * option ApplicationEvent) :=
  let? identity := ok_or (cred_identity (pr_credential p)) InvalidMessage in
  let? sender := ok_or (from_utf8 identity) InvalidMessage in
  match pr_content p with
  | ApplicationMessage plaintext =>
      require (zlen plaintext <=? MAX_APPLICATION) InvalidMessage ;;?
      let? e := (match decode_event plaintext with Ok e => Ok e | Err _ => Err InvalidMessage end) in
      Ok (sender, plaintext, e)
  | _ => Err InvalidMessage
  end.

(* @src core/messaging.rs 80-158 decrypt_inner *)
Definition decrypt_inner (name : string) (b : bytes) : M (ClientDb St) (option DecryptedMessage) :=
  lift (require (zlen b <=? MAX_WIRE) InvalidMessage) ;;;
  let* r := gets (group name) in
  let* descriptor := lift r in
  let* protocol := lift (private_header b descriptor) in
  lift (require (bool_decide (pm_content protocol = ApplicationContent)) InvalidMessage) ;;;
  let* known := gets (known_ciphertext b) in
  if known : bool then ret None
  else
    let* r := gets (load_group descriptor) in
    let* g := lift r in
    lift (require (is_active g) InvalidMessage) ;;;
    let* processed := process g protocol in
    let* content := lift (application_of processed) in
    let '(sender, plaintext, e) := content in
    when (match e with None => true | Some e => event_root e end)
      (index_attachment (grp_gid descriptor)
         (match e with None => plaintext | Some e => ae_content e end)) ;;;
    let plaintext := match e with None => plaintext | Some e => event_transcript e end in
    insert_received b ;;;
    let* row := insert_transcript {| tr_gid := grp_gid descriptor; tr_payload := b;
      tr_sender := Some sender; tr_plaintext := Some plaintext; tr_outgoing := false;
      tr_sequence := None; tr_displayed := false |} in
    index_receipt row (grp_gid descriptor) b ;;;
    index_application row (grp_gid descriptor) sender b e plaintext ;;;
    ret (Some {| dm_sender := sender; dm_plaintext := plaintext |}).
(* @src core/messaging.rs 76-79 decrypt_message *)
Definition decrypt_message (name : string) (b : bytes) : M (ClientDb St) (option DecryptedMessage) :=
  transaction capacity (decrypt_inner name b).

(* @src core/epochs.rs 6-27 before_join *)
Definition before_join (name : string) (b : bytes) d : result bool :=
  require (zlen b <=? MAX_WIRE) InvalidMessage ;;?
  let? message := ok_or (parse_message b) InvalidMessage in
  require (private_message message) InvalidMessage ;;?
  let? protocol := ok_or (protocol_message message) InvalidMessage in
  let? g := group name d in
  require (bool_decide (pm_group_id protocol = grp_mls_id g)) InvalidMessage ;;?
  let? epoch := ok_or (join_epochs (chat d) !! grp_gid g) NoRows in
  Ok (pm_epoch protocol <? epoch).

(* @src core/epochs.rs 28-79 process_handshake *)
Definition process_handshake (name : string) (b : bytes) (sequence : Z) : M (ClientDb St) unit :=
  let* r := gets (group name) in
  let* descriptor := lift r in
  let* protocol := lift (private_header b descriptor) in
  lift (require (bool_decide (pm_content protocol = CommitContent)) InvalidMessage) ;;;
  let* known := gets (known_ciphertext b) in
  if known : bool then ret tt
  else
    let* r := gets (load_group descriptor) in
    let* g := lift r in
    let* processed := process g protocol in
    let* index := lift (ok_or (pr_sender processed) InvalidMessage) in
    match pr_content processed with
    | StagedCommitMessage commit =>
        let* r := gets (validate_commit_author descriptor index commit sequence) in
        lift r ;;;
        block_revoked_outbox ;;;
        let* g := provider (merge_staged_commit g commit) in
        refresh_coordinator g ;;;
        insert_received b
    | _ => fail InvalidMessage
    end.

(** ** Staging and processing deliveries *)

(** [COMMIT] comes before the acknowledgment to the server. *)
(* @src core/history.rs 24-44 stage_chat *)
Definition stage_chat (sequence : Z) (s : string) (b : bytes) : M (ClientDb St) unit :=
  ensure ((0 <? sequence) && (sequence <=? i64_max)) "invalid CHAT sequence" ;;;
  ensure ((zlen b <=? MAX_WIRE) && (slen s <=? 256)) "invalid CHAT delivery size" ;;;
  transaction capacity (
    let* existing := gets (fun d => chat_deliveries (chat d) !! sequence) in
    match existing with
    | Some old =>
        ensure (bool_decide (dl_subject old = s) && bool_decide (dl_payload old = b))
          "CHAT sequence changed: possible stream reset; refusing to overwrite local history"
    | None =>
        check_database capacity false ;;;
        modify (set_chat (set_deliveries (insert sequence
          {| dl_subject := s; dl_payload := b; dl_state := Pending |})))
    end).

Definition set_delivery_state (sequence : Z) (s : DeliveryState) : M (ClientDb St) unit :=
  modify (set_chat (set_deliveries (update_where (fun k _ => k =? sequence)
    (fun r => {| dl_subject := dl_subject r; dl_payload := dl_payload r; dl_state := s |})))).

(** The first pending delivery of the group. *)
Definition for_group (g : Group) (r : Delivery) : bool :=
  bool_decide (dl_subject r = subject "message" g) || bool_decide (dl_subject r = subject "handshake" g).
Definition is_pending (g : Group) (r : Delivery) : bool :=
  for_group g r && bool_decide (dl_state r = Pending).
Definition pending_sequences (g : Group) d : list Z :=
  map fst (rows (fun _ r => is_pending g r) (chat_deliveries (chat d))).
Definition next_delivery (g : Group) d : option (Z * Delivery) :=
  sequence ← min_of (pending_sequences g d);
  r ← chat_deliveries (chat d) !! sequence;
  Some (sequence, r).

(** Whether a message was decrypted and whether a gap was recorded. *)
(* @src core/history.rs 53-67 process_history (transaction) *)
Definition process_delivery (name : string) (g : Group) (sequence : Z) (r : Delivery)
  : M (ClientDb St) (bool * bool) :=
  let* e := gets (before_join name (dl_payload r)) in
  let* old := lift e in
  if old || bool_decide (dl_subject r = subject "handshake" g) then
    when (negb old) (process_handshake name (dl_payload r) sequence) ;;;
    set_delivery_state sequence ProcessedDelivery ;;;
    ret (false, false)
  else
    let* message := decrypt_inner name (dl_payload r) in
    let* kept := gets (fun d => exists_row (fun _ t => bool_decide (tr_payload t = dl_payload r))
                                  (transcript (chat d))) in
    let* own := gets (fun d => exists_row (fun _ o => bool_decide (ob_payload o = dl_payload r))
                                 (outbox (chat d))) in
    (if kept : bool then ret tt
     else let* _ := insert_transcript {| tr_gid := grp_gid g; tr_payload := dl_payload r;
            tr_sender := None; tr_plaintext := None; tr_outgoing := own; tr_sequence := None;
            tr_displayed := false |} in ret tt) ;;;
    lower_sequence (fun t => bool_decide (tr_gid t = grp_gid g) && bool_decide (tr_payload t = dl_payload r))
      sequence ;;;
    set_delivery_state sequence ProcessedDelivery ;;;
    ret (match message with Some _ => true | None => false end, negb kept).

(** The loop ends when no delivery of the group is pending; every round takes
    one out, so their number is enough fuel. *)
(* @src core/history.rs 48-85 process_history (loop) *)
Fixpoint process_loop (fuel : nat) (name : string) (g : Group) (report : SyncReport)
  : M (ClientDb St) SyncReport := fun d =>
  match next_delivery g d with
  | None => (Ok report, d)
  | Some (sequence, r) =>
      match fuel with
      | O => (Err External, d)
      | S fuel =>
          match transaction capacity (process_delivery name g sequence r) d with
          | (Ok (message, gap), d) =>
              process_loop fuel name g
                {| staged := staged report; decrypted := decrypted report + (if message : bool then 1 else 0);
                   rejected := rejected report;
                   unavailable := unavailable report + (if gap : bool then 1 else 0) |} d
          | (Err InvalidMessage, d) =>
              let '(_, d) := set_delivery_state sequence RejectedDelivery d in
              process_loop fuel name g
                {| staged := staged report; decrypted := decrypted report;
                   rejected := rejected report + 1; unavailable := unavailable report |} d
          | (Err e, d) => (Err e, d)
          end
      end
  end.
(* @src core/history.rs 45-86 process_history *)
Definition process_history (name : string) : M (ClientDb St) SyncReport := fun d =>
  match group name d with
  | Err e => (Err e, d)
  | Ok g =>
      process_loop (length (pending_sequences g d)) name g
        {| staged := 0; decrypted := 0; rejected := 0; unavailable := 0 |} d
  end.

(** ** Queries *)

Definition history_entry (x : Z * TranscriptRow) : HistoryEntry :=
  {| he_id := fst x; he_sequence := tr_sequence (snd x); he_sender := tr_sender (snd x);
     he_plaintext := tr_plaintext (snd x); he_outgoing := tr_outgoing (snd x) |}.
(** [ORDER BY stream_sequence IS NULL, stream_sequence, id]. *)
Definition entry_le (x y : Z * TranscriptRow) : Prop :=
  match tr_sequence (snd x), tr_sequence (snd y) with
  | Some s, Some s' => (if s =? s' then fst x <=? fst y else s <? s') = true
  | Some _, None => True
  | None, Some _ => False
  | None, None => (fst x <=? fst y) = true
  end.
#[global] Instance entry_le_dec : RelDecision entry_le.
Proof. intros [i x] [j y]. unfold entry_le. simpl. destruct (tr_sequence x), (tr_sequence y); apply _. Defined.

(** The last [limit] entries, oldest first. *)
(* @src core/history.rs 87-101 history *)
Definition history (name : string) (limit : Z) (before : option Z) d : result (list HistoryEntry) :=
  check ((1 <=? limit) && (limit <=? 1000)) "history limit must be 1–1000" ;;?
  let? g := group name d in
  let l := merge_sort entry_le (rows (fun _ t => bool_decide (tr_gid t = grp_gid g)
             && match before with
                | None => true
                | Some s => match tr_sequence t with Some s' => s' <? s | None => false end
                end) (transcript (chat d))) in
  Ok (map history_entry (drop (length l - Z.to_nat limit) l)).

Definition is_unread (gid : string) (t : TranscriptRow) : bool :=
  bool_decide (tr_gid t = gid) && negb (tr_outgoing t)
  && match tr_plaintext t with Some _ => true | None => false end && negb (tr_displayed t).
(* @src core/history.rs 102-105 unread *)
Definition unread (name : string) d : result (option HistoryEntry) :=
  let? g := group name d in
  Ok (history_entry <$> head (merge_sort entry_le (rows (fun _ t => is_unread (grp_gid g) t)
                                                    (transcript (chat d))))).
(* @src core/history.rs 106-108 unread_count *)
Definition unread_count (name : string) d : result Z :=
  let? g := group name d in
  Ok (count_rows (fun _ t => is_unread (grp_gid g) t) (transcript (chat d))).

(** The row and every other row of the same event. *)
(* @src core/history.rs 109-115 mark_displayed *)
Definition mark_displayed (id : Z) : M (ClientDb St) unit :=
  modify (fun d =>
    let same (row : Z) := match message_events (events d) !! id, message_events (events d) !! row with
                    | Some a, Some b => bool_decide (ev_gid a = ev_gid b)
                                        && bool_decide (ev_message_id a = ev_message_id b)
                    | _, _ => false
                    end in
    set_chat (set_transcript (update_where
      (fun row t => negb (tr_displayed t) && ((row =? id) || same row))
      (fun t => {| tr_gid := tr_gid t; tr_payload := tr_payload t; tr_sender := tr_sender t;
                   tr_plaintext := tr_plaintext t; tr_outgoing := tr_outgoing t;
                   tr_sequence := tr_sequence t; tr_displayed := true |}))) d).

(* @src core/history.rs 116-125 rejected_history *)
Definition rejected_history (name : string) d : result Z :=
  let? g := group name d in
  Ok (count_rows (fun _ r => for_group g r && bool_decide (dl_state r = RejectedDelivery))
        (chat_deliveries (chat d))).

(* @src core/relationships.rs 165-168 ConversationEntry *)
Record ConversationEntry : Type := { ce_entry : HistoryEntry; ce_message_id : option string }.
(** An entry of a retransmitted event appears once, at its first row. *)
(* @src core/relationships.rs 374-400 conversation *)
Definition conversation (name : string) (limit : Z) (before : option Z) d
  : result (list ConversationEntry) :=
  let? g := group name d in
  let? l := history name limit before d in
  let? shown := rmap (fun entry =>
      match application_id (he_id entry) d with
      | None => Ok [{| ce_entry := entry; ce_message_id := None |}]
      | Some id =>
          let? parsed := parse_id id in
          let? o := application (grp_gid g) parsed d in
          let? event := ok_or o (Anyhow "event index missing") in
          if er_row event =? he_id entry then
            let? text := projected (grp_gid g) event d in
            Ok [{| ce_entry := {| he_id := he_id entry; he_sequence := he_sequence entry;
                                  he_sender := he_sender entry; he_plaintext := Some (as_bytes text);
                                  he_outgoing := he_outgoing entry |};
                   ce_message_id := Some id |}]
          else Ok []
      end) l in
  Ok (concat shown).
End messaging.
