(* ===== verification/Ephemeral.v ===== *)
(** * Ephemeral events and receipts

    [crates/epochgrid-core/src/ephemeral.rs] and [receipts.rs]: events that are
    sealed for the current epoch of a group and never stored, the bounded state
    of who is typing, and the receipts devices claim for messages. *)
From stdpp Require Import sorting.
From S2P Require Import Prelude External Wire Capacity Identity Registry Policy KvStore Merkle Transparency Secrets Mls ClientDb IdentityStore Revocation Trust Groups Delivery Attachments Relationships Messaging.

(* @src core/ephemeral.rs 19-19 TTL_MS *)
Definition TTL_MS : Z := 8000.

(* @src core/receipts.rs 11-15 ReceiptState *)
Inductive ReceiptState : Type := Delivered | Read.
#[global] Instance ReceiptState_eq_dec : EqDecision ReceiptState.
Proof. solve_decision. Defined.
(* @src core/ephemeral.rs 20-31 EphemeralEvent *)
Inductive EphemeralEvent : Type :=
| TypingStarted
| TypingStopped
| ReceiptRequest (message : bytes)
| Receipt (message : bytes) (state : ReceiptState).
#[global] Instance EphemeralEvent_eq_dec : EqDecision EphemeralEvent.
Proof. solve_decision. Defined.
(* @src core/ephemeral.rs 32-40 Envelope *)
Record EphemeralEnvelope : Type := {
  ep_version : Z;
  ep_epoch : Z;
  ep_leaf : Z;
  ep_id : bytes;
  ep_nonce : bytes;
  ep_ciphertext : bytes;
}.
(* @src core/ephemeral.rs 41-46 Body *)
Record EphemeralBody : Type := { eb_issued : Z; eb_event : EphemeralEvent; eb_signature : bytes }.
(** [expires] is on the monotonic clock, in milliseconds. *)
(* @src core/ephemeral.rs 47-54 AuthenticatedEvent *)
Record AuthenticatedEvent : Type := {
  au_sender : string;
  au_gid : string;
  au_epoch : Z;
  au_issued : Z;
  au_event : EphemeralEvent;
  au_expires : Z;
}.

Definition ContextTuple : Type := (string * string * Z * Z * Z * bytes * bytes)%type.
Definition SealTuple : Type := (string * bytes * Z * EphemeralEvent)%type.

(** [export_secret] of a group, and Ed25519 signatures of the suite. *)
Class MlsCrypto : Type := {
  export_secret : MlsGroup -> string -> bytes -> Z -> result bytes;
  suite_sign : Signer -> bytes -> result bytes;
  suite_verifies : bytes -> bytes -> bytes -> bool;
}.

(** ** Typing *)

(** The entries of [TypingState] by group and sender. *)
(* @src core/ephemeral.rs 222-227 TypingState *)
Definition TypingState : Type := gmap (string * string) AuthenticatedEvent.

(** An older or equal event does not replace a newer one; at the same instant a
    stop beats a start. *)
(* @src core/ephemeral.rs 239-247 accept (order) *)
Definition supersedes (old new : AuthenticatedEvent) : bool :=
  (au_epoch new <? au_epoch old)
  || (au_epoch old =? au_epoch new)
     && ((au_issued new <? au_issued old)
         || (au_issued old =? au_issued new)
            && (bool_decide (au_event old = TypingStopped) || bool_decide (au_event new = TypingStarted))).

Definition is_typing (e : EphemeralEvent) : bool :=
  match e with TypingStarted | TypingStopped => true | _ => false end.
Definition live (now : Z) (s : TypingState) : TypingState :=
  delete_where (fun _ e => negb (now <? au_expires e)) s.
(* @src core/ephemeral.rs 229-253 accept *)
Definition typing_accept (gid : string) (e : AuthenticatedEvent) (now : Z) (s : TypingState)
  : TypingState :=
  if negb (is_typing (au_event e)) then s
  else
    let s := live now s in
    let k := (gid, au_sender e) in
    match s !! k with
    | Some old => if supersedes old e then s else <[k := e]> s
    | None => if 256 <=? table_size s then s else <[k := e]> s
    end.
(* @src core/ephemeral.rs 254-265 active *)
Definition typing_active (gid : string) (epoch now : Z) (s : TypingState) : list (string * Z) :=
  map (fun '((_, sender), e) => (sender, au_expires e))
    (rows (fun k e => bool_decide (fst k = gid) && (au_epoch e =? epoch) && (now <? au_expires e)
                      && bool_decide (au_event e = TypingStarted)) s).

Section ephemeral.
Context {St : Type} `{Pages (ClientDb St)} `{Mls St} (capacity : Capacity).
Context `{NKeys} `{MlsPackages} `{Seeds} `{Credentials} `{Json SecretRef} `{Sha256} `{Aead} `{MlsCrypto}
  `{Postcard DeviceRegistration} `{Postcard RecoveryStatus} `{Postcard EphemeralEnvelope}
  `{Postcard EphemeralBody} `{Postcard ContextTuple} `{Postcard SealTuple}.
Implicit Types (d : ClientDb St).

(** ** Sealing and opening *)

(* @src core/ephemeral.rs 66-70 decode *)
Definition decode_all {A} `{Postcard A} (b : bytes) : result A :=
  let? (v, rest) := take_from_bytes b in
  check (bool_decide (rest = [])) "trailing ephemeral data" ;;?
  Ok v.

(* @src core/ephemeral.rs 72-82 context *)
Definition envelope_context (gid : string) (e : EphemeralEnvelope) : result bytes :=
  to_allocvec (("epochgrid ephemeral v1", gid, ep_version e, ep_epoch e, ep_leaf e, ep_id e, ep_nonce e)
               : ContextTuple).
(* @src core/ephemeral.rs 83-90 signing *)
Definition envelope_signing (gid : string) (e : EphemeralEnvelope) (b : EphemeralBody) : result bytes :=
  let? c := envelope_context gid e in
  to_allocvec (("epochgrid ephemeral signature v1", c, eb_issued b, eb_event b) : SealTuple).

(** [clock] is the wall clock in milliseconds. *)
(* @src core/ephemeral.rs 93-141 seal_ephemeral *)
Definition seal_ephemeral (name : string) (event : EphemeralEvent) (id nonce : bytes)
  (clock : result Z) : M (ClientDb St) bytes :=
  let* r := gets (group name) in
  let* descriptor := lift r in
  let* r := gets (load_group descriptor) in
  let* g := lift r in
  ensure_can_send g ;;;
  ensure (1 <? zlen (g_members g)) "ephemeral event needs a peer" ;;;
  let envelope c := {| ep_version := 1; ep_epoch := g_epoch g; ep_leaf := own_leaf g; ep_id := id;
                       ep_nonce := nonce; ep_ciphertext := c |} in
  let* now := lift clock in
  let body s := {| eb_issued := now; eb_event := event; eb_signature := s |} in
  let* (signer, _) := signer in
  let* m := lift (envelope_signing (grp_gid descriptor) (envelope []) (body [])) in
  let* s := lift (suite_sign signer m) in
  let* context := lift (envelope_context (grp_gid descriptor) (envelope [])) in
  let* key := lift (export_secret g "epochgrid ephemeral v1" context 32) in
  let* plain := lift (to_allocvec (body s)) in
  let* c := lift (ok_or (aead_encrypt key plain nonce context) (Anyhow "event encryption")) in
  lift (to_allocvec (envelope c)).

(** [instant] is the monotonic clock when the event is opened. *)
(* @src core/ephemeral.rs 145-220 open_ephemeral_at *)
Definition open_ephemeral_at (name : string) (b : bytes) (clock instant : Z)
  : M (ClientDb St) AuthenticatedEvent :=
  ensure (zlen b <=? 1024) "oversized ephemeral event" ;;;
  let* envelope := lift (decode_all (A:=EphemeralEnvelope) b) in
  ensure (ep_version envelope =? 1) "unsupported ephemeral version" ;;;
  let* r := gets (group name) in
  let* descriptor := lift r in
  let* r := gets (load_group descriptor) in
  let* g := lift r in
  ensure_can_send g ;;;
  ensure (ep_epoch envelope =? g_epoch g) "obsolete ephemeral epoch" ;;;
  let* member := lift (ok_or (member_at (ep_leaf envelope) g) (Anyhow "unknown ephemeral sender")) in
  let* revoked := gets (revoked_mls_key (m_signature_key member)) in
  ensure (bool_decide (revoked = None)) "revoked ephemeral sender" ;;;
  let* context := lift (envelope_context (grp_gid descriptor) envelope) in
  let* key := lift (export_secret g "epochgrid ephemeral v1" context 32) in
  let* plain := lift (ok_or (aead_decrypt key (ep_ciphertext envelope) (ep_nonce envelope) context)
                       (Anyhow "invalid ephemeral ciphertext")) in
  let* body := lift (decode_all (A:=EphemeralBody) plain) in
  ensure ((eb_issued body <=? sat_add64 clock 1000) && (clock <? sat_add64 (eb_issued body) TTL_MS))
    "expired or future ephemeral event" ;;;
  let* m := lift (envelope_signing (grp_gid descriptor) envelope body) in
  ensure (suite_verifies (m_signature_key member) m (eb_signature body)) "invalid ephemeral signature" ;;;
  let* identity := lift (ok_or (cred_identity (m_credential member)) (Anyhow "invalid sender credential")) in
  let* sender := lift (ok_or (from_utf8 identity) External) in
  let* (user, device) := lift (ok_or (split_once "/" sender) (Anyhow "invalid sender identity")) in
  lift (validate_id user) ;;;
  lift (validate_id device) ;;;
  ret {| au_sender := sender; au_gid := grp_gid descriptor; au_epoch := ep_epoch envelope;
         au_issued := eb_issued body; au_event := eb_event body;
         au_expires := instant + Z.min (sat_sub64 (sat_add64 (eb_issued body) TTL_MS) clock) TTL_MS |}.

(** ** Receipts *)

Definition receipt_rows (gid : string) (reference : bytes) (p : TranscriptRow -> bool) d
  : list (Z * TranscriptRow) :=
  omap (fun '(id, _) => t ← transcript (chat d) !! id; if p t then Some (id, t) else None)
    (rows (fun _ v => bool_decide (v = (gid, reference))) (receipt_messages (events d))).

(** [ORDER BY t.id DESC]. *)
Definition newest_first (a b : Z * bytes) : Prop := (fst b <=? fst a) = true.
#[local] Instance newest_first_dec : RelDecision newest_first.
Proof. intros a b. unfold newest_first. apply _. Defined.
(* @src core/receipts.rs 71-89 receipt_requests *)
Definition receipt_requests (name : string) (limit : Z) d : result (list EphemeralEvent) :=
  check ((1 <=? limit) && (limit <=? 100)) "receipt request limit must be 1–100" ;;?
  let? g := group name d in
  let l := omap (fun '(id, (gid, reference)) =>
      t ← transcript (chat d) !! id;
      if bool_decide (gid = grp_gid g) && tr_outgoing t
         && match tr_sequence t with Some _ => true | None => false end
      then Some (id, reference) else None) (map_to_list (receipt_messages (events d))) in
  rmap (fun '(_, reference) =>
      if zlen reference =? 32 then Ok (ReceiptRequest reference)
      else Err (Anyhow "invalid stored receipt reference"))
    (take (Z.to_nat limit) (merge_sort newest_first l)).

Definition receipt_rank (s : ReceiptState) : Z := match s with Delivered => 0 | Read => 1 end.
(** [ON CONFLICT DO UPDATE ... WHERE excluded.state > device_receipts.state]. *)
Definition raise_receipt (id : Z) (device : string) (s : ReceiptState) : M (ClientDb St) unit :=
  modify (set_events (set_device_receipts (fun m =>
    match m !! (id, device) with
    | Some old => if old <? receipt_rank s then <[(id, device) := receipt_rank s]> m else m
    | None => <[(id, device) := receipt_rank s]> m
    end))).
(* @src core/receipts.rs 90-127 process_receipt *)
Definition process_receipt (name : string) (e : AuthenticatedEvent) (instant : Z)
  : M (ClientDb St) (option EphemeralEvent) :=
  let* r := gets (group name) in
  let* g := lift r in
  let* r := gets (load_group g) in
  let* m := lift r in
  ensure_can_send m ;;;
  ensure (instant <? au_expires e) "expired receipt event" ;;;
  let* r := gets (fun d => if bool_decide (au_gid e = grp_gid g)
                           then let? epoch := group_epoch name d in Ok (au_epoch e =? epoch)
                           else Ok false) in
  let* current := lift r in
  ensure current "receipt group or epoch changed" ;;;
  match au_event e with
  | ReceiptRequest message =>
      let* l := gets (receipt_rows (grp_gid g) message (fun t =>
        negb (tr_outgoing t) && match tr_plaintext t with Some _ => true | None => false end
        && bool_decide (tr_sender t = Some (au_sender e)))) in
      ret ((fun '(_, t) => Receipt message (if tr_displayed t then Read else Delivered)) <$> head l)
  | Receipt message state =>
      let* l := gets (receipt_rows (grp_gid g) message tr_outgoing) in
      match l with
      | (id, _) :: _ => raise_receipt id (au_sender e) state
      | [] => ret tt
      end ;;;
      ret None
  | _ => ret None
  end.

(* @src core/receipts.rs 16-20 Submission *)
Inductive Submission : Type := Submitted | ServerAccepted.
(* @src core/receipts.rs 21-25 MessageStatus *)
Record MessageStatus : Type := { submission : Submission; devices : list (string * ReceiptState) }.
Definition by_device_name (a b : string * ReceiptState) : Prop := string_le (fst a) (fst b).
#[local] Instance by_device_name_dec : RelDecision by_device_name.
Proof. intros a b. unfold by_device_name. apply _. Defined.
(* @src core/receipts.rs 128-157 message_status *)
Definition message_status (id : Z) d : result MessageStatus :=
  match transcript (chat d) !! id with
  | Some t =>
      if tr_outgoing t then
        Ok {| submission := match tr_sequence t with Some _ => ServerAccepted | None => Submitted end;
              devices := merge_sort by_device_name
                (map (fun '((_, device), s) => (device, if s =? 1 then Read else Delivered))
                   (rows (fun k _ => fst k =? id) (device_receipts (events d)))) |}
      else Err NoRows
  | None => Err NoRows
  end.
(* @src core/receipts.rs 27-43 summary *)
Definition status_summary (s : MessageStatus) : string :=
  fold_left (fun text '(device, state) =>
      text +:+ "; " +:+ device +:+ ": " +:+ match state with Delivered => "delivered" | Read => "read" end)
    (devices s) (match submission s with Submitted => "submitted" | ServerAccepted => "server accepted" end).
End ephemeral.
