(* ===== verification/Flush.v ===== *)
(** * Sending the outbox

    [flush_outbox] of [crates/epochgrid-core/src/delivery.rs], [dispatch] of
    [authorization/delivery.rs], the status participant of [participants.rs],
    and [resume] of [history.rs], which puts sending and receiving together.
    The network is explicit: the answers to come are a list, what was published
    is a trace, and a list that ends is a lost connection. *)
From stdpp Require Import sorting.
From S2P Require Import Prelude External Wire Capacity Identity Registry Policy KvStore Merkle Transparency Secrets Mls ClientDb IdentityStore Revocation Trust Groups Delivery Attachments Relationships Messaging.

(** The acknowledgment of a published message. *)
Record Ack : Type := { ack_stream : string; ack_sequence : Z }.
Record Published : Type := {
  pb_id : Z; pb_subject : string; pb_msg_id : string; pb_payload : bytes;
}.
Record World (St : Type) : Type := {
  w_db : ClientDb St;
  w_answers : list (result Ack);
  w_trace : list Published;
}.
Arguments w_db {St}. Arguments w_answers {St}. Arguments w_trace {St}.
Definition set_w_db {St} (d : ClientDb St) (w : World St) : World St :=
  {| w_db := d; w_answers := w_answers w; w_trace := w_trace w |}.
(** Code on the database. *)
Definition on_store {St A} (m : M (ClientDb St) A) : M (World St) A := fun w =>
  let '(r, d) := m (w_db w) in (r, set_w_db d w).
(** [publish_with_headers(..).await?.await?]. *)
Definition publish {St} (p : Published) : M (World St) Ack := fun w =>
  let trace := w_trace w ++ [p] in
  match w_answers w with
  | [] => (Err External, {| w_db := w_db w; w_answers := []; w_trace := trace |})
  | a :: l => (a, {| w_db := w_db w; w_answers := l; w_trace := trace |})
  end.

(** [epochgrid/status] of a service participant. *)
(* @src core/participants.rs 11-11 STATUS_RESPONSE *)
Definition STATUS_RESPONSE : string :=
  "EpochGrid service online" +:+ newline +:+ "NATS connected" +:+ newline +:+ "MLS group active".

Section flush.
Context {St : Type} `{Pages (ClientDb St)} `{Mls St} (capacity : Capacity).
Context `{NKeys} `{MlsPackages} `{Seeds} `{Credentials} `{Json SecretRef} `{Base32} `{Sha256}
  `{Postcard DeviceRegistration} `{Postcard RecoveryStatus} `{Postcard Envelope}
  `{Postcard RegistrationPayload} `{Postcard Intent} `{Postcard WelcomeRelay} `{Postcard RelayTuple}
  `{Postcard PolicyUpdate} `{Postcard CheckpointTuple} `{Postcard RequestTuple} `{Postcard Revocation}
  `{Postcard FingerprintTuple} `{Postcard Checkpoint}
  `{Postcard Manifest} `{Postcard ApplicationEvent} `{Postcard ApplicationTuple} `{Postcard LegacyTuple}.
(** The authority's replies: [ask subject body] is the payload of the reply, and
    [refresh] whether the broker took the new permissions. *)
Variables (ask : string -> Body.t -> result bytes) (refresh : result unit).

(** ** Requests to the authority *)

(** Whether the row was a request, and then whether it was granted. *)
(* @src core/authorization/delivery.rs 167-255 dispatch *)
Definition dispatch (snapshot : Snapshot) (id : Z) (s : string) (b : bytes) : M (ClientDb St) bool :=
  if bool_decide (s = SUBJECT) then
    let* intent := lift (from_bytes b) in
    ensure (in_version intent =? 1) "unsupported authorization intent" ;;;
    let* ms := lift (intent_members snapshot intent) in
    let* reply := lift (ask SUBJECT (Body.PolicyQuery (in_gid intent))) in
    let* body := lift (decode reply) in
    match body with
    | Body.PolicyState state =>
        let* key := store_nkey in
        let* policy := lift (intent_policy key intent ms state) in
        match policy with
        | Some policy =>
            let* reply := lift (ask SUBJECT (Body.GroupPolicy policy)) in
            let* body := lift (decode reply) in
            ensure (match body with Body.PolicyApplied _ => true | _ => false end)
              "group policy rejected; queued work retained"
        | None => ret tt
        end ;;;
        lift refresh ;;;
        ret true
    | _ => fail (Anyhow "policy query rejected")
    end
  else if bool_decide (s = RELAY) then
    let* relay := lift (from_bytes b) in
    let signed id s := {| wr_version := wr_version relay; wr_gid := wr_gid relay;
                          wr_epoch := wr_epoch relay; recipient := recipient relay;
                          sender := sender relay; wr_id := id; wr_payload := wr_payload relay;
                          wr_signature := s |} in
    let* key := store_nkey in
    let* m := lift (relay_bytes (signed id (wr_signature relay))) in
    let* s := lift (nkey_sign key m) in
    let* reply := lift (ask RELAY (Body.RelayWelcome (signed id s))) in
    let* body := lift (decode reply) in
    ensure (match body with Body.WelcomeRelayed => true | _ => false end)
      "Welcome relay rejected; invitation retained" ;;;
    ret true
  else ret false.

(** ** The loop over the outbox *)

Definition mark_sent (id : Z) : M (ClientDb St) unit :=
  modify (set_chat (set_outbox (update_where (fun k _ => k =? id)
    (fun r => {| ob_subject := ob_subject r; ob_payload := ob_payload r; ob_sent := true |})))).

(** What the query of one batch selects, in the order of its IDs. *)
Definition sendable (after high : Z) (d : ClientDb St) (k : Z) (r : OutboxRow) : bool :=
  negb (ob_sent r) && (after <? k) && (k <=? high)
  && negb (bool_decide (k ∈ blocked_outbox (revocations d))).
Definition by_row (a b : Z * OutboxRow) : Prop := (fst a <=? fst b) = true.
#[export] Instance by_row_dec : RelDecision by_row.
Proof. intros a b. unfold by_row. apply _. Defined.
Definition batch (after high : Z) (d : ClientDb St) : list (Z * OutboxRow) :=
  take 16 (merge_sort by_row (rows (sendable after high d) (outbox (chat d)))).

(* @src core/delivery.rs 198-225 flush_outbox (row) *)
Definition send_row (snapshot : Snapshot) (x : Z * OutboxRow) : M (World St) unit :=
  let '(id, r) := x in
  let* done := on_store (dispatch snapshot id (ob_subject r) (ob_payload r)) in
  if done : bool then on_store (mark_sent id)
  else
    let* key := on_store store_nkey in
    let* ack := publish {| pb_id := id; pb_subject := ob_subject r;
                           pb_msg_id := public_key key +:+ ":" +:+ show id;
                           pb_payload := ob_payload r |} in
    on_store (transaction capacity (
      mark_sent id ;;;
      when (bool_decide (ack_stream ack = "CHAT"))
        (lower_sequence (fun t => bool_decide (tr_payload t = ob_payload r)) (ack_sequence ack)))).

(** The number of rows of the outbox is enough fuel: a batch is not empty and
    the next one starts after it. *)
(* @src core/delivery.rs 177-226 flush_outbox (loop) *)
Fixpoint flush_loop (fuel : nat) (snapshot : Snapshot) (after high : Z) : M (World St) unit := fun w =>
  match batch after high (w_db w), fuel with
  | [], _ => (Ok tt, w)
  | _ :: _, O => (Err External, w)
  | (x :: l) as rows, S fuel =>
      (for_each rows (send_row snapshot) ;;;
       flush_loop fuel snapshot (List.last (map fst rows) after) high) w
  end.
(* @src core/delivery.rs 165-227 flush_outbox *)
Definition flush_outbox (snapshot_reply log_reply : result bytes) : M (World St) unit :=
  let* snapshot := on_store (audit capacity snapshot_reply log_reply) in
  let* key := on_store store_nkey in
  let* revoked := gets (fun w => is_revoked (public_key key) (w_db w)) in
  ensure (negb revoked) "this device is revoked" ;;;
  on_store block_revoked_outbox ;;;
  let* n := gets (fun w => Z.to_nat (table_size (outbox (chat (w_db w))))) in
  let* high := gets (fun w => max_key (outbox (chat (w_db w)))) in
  flush_loop n snapshot 0 high.

(** ** The status participant *)

(* @src core/participants.rs 35-37 group_active *)
Definition group_active (name : string) (d : ClientDb St) : result bool :=
  let? g := group name d in let? m := load_group g d in Ok (is_active m).

Definition by_transcript (a b : Z * EventRow * TranscriptRow) : Prop :=
  (fst (fst a) <=? fst (fst b)) = true.
#[local] Instance by_transcript_dec : RelDecision by_transcript.
Proof. intros a b. unfold by_transcript. apply _. Defined.
(** The events no answer was decided for yet, oldest first. *)
Definition unanswered (gid : string) (d : ClientDb St) : list (Z * EventRow * TranscriptRow) :=
  take 100 (merge_sort by_transcript
    (joined (fun e => bool_decide (ev_gid e = gid)
                      && negb (bool_decide ((gid, ev_message_id e) ∈ participant_events (events d)))) d)).

(** One event: 1 when it was answered. *)
(* @src core/participants.rs 59-85 respond_status (event) *)
Definition respond_event (name : string) (g : Group) (nonce rnd : bytes)
  (x : Z * EventRow * TranscriptRow) : M (ClientDb St) Z :=
  let '(_, e, t) := x in
  let* answered := gets (fun d => bool_decide ((grp_gid g, ev_message_id e) ∈ participant_events (events d))) in
  if answered : bool then ret 0
  else
    modify (set_events (set_participant_events (union {[(grp_gid g, ev_message_id e)]}))) ;;;
    let* event := lift (from_bytes (ev_event e)) in
    let* sender := lift (ok_or (tr_sender t) External) in
    let* (_, device) := lift (ok_or (split_once "/" sender) (Anyhow "invalid authenticated sender")) in
    if bool_decide (device = "service") || match ae_relation event with Some _ => true | None => false end
       || negb (bool_decide (ae_content event = as_bytes "/status"))
    then ret 0
    else
      let* r := gets (resolve_message name (ev_message_id e)) in
      let* target := lift r in
      let* r := gets (new_event name (as_bytes STATUS_RESPONSE) (Some (ReplyTo target)) nonce) in
      let* response := lift r in
      let* _ := encrypt_event_inner capacity name response rnd in
      ret 1.

Fixpoint respond_all (name : string) (g : Group) (entropy : Z -> bytes * bytes)
  (l : list (Z * EventRow * TranscriptRow)) (replies : Z) : M (ClientDb St) Z :=
  match l with
  | [] => ret replies
  | x :: l =>
      let '(nonce, rnd) := entropy (fst (fst x)) in
      let* n := transaction capacity (respond_event name g nonce rnd x) in
      respond_all name g entropy l (replies + n)
  end.
(** [entropy row] is the randomness drawn for the answer to a row. *)
(* @src core/participants.rs 38-87 respond_status *)
Definition respond_status (name : string) (entropy : Z -> bytes * bytes) : M (ClientDb St) Z :=
  let* r := gets registration in
  let* own := lift r in
  ensure (bool_decide (device_id (payload own) = "service"))
    "participant requires a dedicated USER/service identity" ;;;
  let* r := gets (group name) in
  let* g := lift r in
  let* r := gets (load_group g) in
  let* m := lift r in
  ensure_can_send m ;;;
  let* l := gets (unanswered (grp_gid g)) in
  lift (rforall (fun '(_, _, t) => require (bool_decide (tr_sender t <> None)) External) l) ;;;
  respond_all name g entropy l 0.

(** ** Receiving and sending together *)

(** A delivery the server made: its stream, sequence, subject and payload, and
    whether its acknowledgment was confirmed. *)
Record ChatDelivery : Type := {
  cd_stream : string; cd_sequence : Z; cd_subject : string; cd_payload : bytes; cd_acked : bool;
}.
(** Each delivery is committed before it is acknowledged. *)
(* @src core/history.rs 175-203 catch_up (deliveries) *)
Fixpoint stage_all (l : list (result ChatDelivery)) : M (ClientDb St) unit :=
  match l with
  | [] => ret tt
  | x :: l =>
      let* m := lift x in
      ensure (bool_decide (cd_stream m = "CHAT")) "unexpected stream" ;;;
      stage_chat capacity (cd_sequence m) (cd_subject m) (cd_payload m) ;;;
      ensure (cd_acked m) "CHAT acknowledgment failed; ciphertext is staged locally" ;;;
      stage_all l
  end.
(** [deliveries] is what the consumer fetched for the backlog it reported, or an
    error to look it up. *)
(* @src core/history.rs 165-207 catch_up *)
Definition catch_up (name : string) (deliveries : result (list (result ChatDelivery)))
  : M (ClientDb St) SyncReport :=
  let* r := gets (group name) in
  let* _ := lift r in
  let* l := lift deliveries in
  stage_all l ;;;
  let* report := process_history capacity name in
  ret {| staged := zlen l; decrypted := decrypted report; rejected := rejected report;
         unavailable := unavailable report |}.

(** The replies to the two audits are those of the two flushes. *)
(* @src core/history.rs 209-222 resume *)
Definition resume (name : string) (before after : result bytes * result bytes)
  (deliveries : result (list (result ChatDelivery))) (rnd : bytes) : M (World St) SyncReport :=
  let* r := gets (fun w => group name (w_db w)) in
  let* _ := lift r in
  flush_outbox (fst before) (snd before) ;;;
  let* report := on_store (catch_up name deliveries) in
  let* _ := on_store (reconcile_revocations capacity name rnd) in
  flush_outbox (fst after) (snd after) ;;;
  ret report.
(* @src core/messaging.rs 172-181 send *)
Definition send (name : string) (plaintext nonce rnd rnd' : bytes)
  (before middle after : result bytes * result bytes)
  (deliveries : result (list (result ChatDelivery))) : M (World St) unit :=
  let* _ := resume name before middle deliveries rnd in
  let* _ := on_store (encrypt_message capacity name plaintext nonce rnd') in
  flush_outbox (fst after) (snd after).
End flush.
