(* ===== verification/ChatKeeps.v ===== *)
(** * What every operation of a device keeps

    [durable]: rows of the device's tables are only added or refined, and
    [chat_wf]: the bounds and keys of the tables. The operations of the client
    components keep both; the histories over them follow. *)
From stdpp Require Import sorting.
From S2P Require Import Prelude External Wire Capacity Identity Registry Policy KvStore Merkle Transparency Secrets Mls ClientDb IdentityStore Revocation Trust TrustFacts Groups Delivery Attachments Relationships Messaging Ephemeral Flush.

(** ** Rows are only added or refined *)

(** A queued message stays, and once sent it is never queued again. *)
Definition outbox_kept (_ : Z) (r r' : OutboxRow) : Prop :=
  ob_subject r' = ob_subject r /\ ob_payload r' = ob_payload r /\
  (ob_sent r = true -> ob_sent r' = true).
(** A staged delivery keeps its subject and ciphertext. It may change state only
    while it is pending, or when it is the one that is being processed. *)
Definition delivery_kept (open : option Z) (k : Z) (r r' : Delivery) : Prop :=
  dl_subject r' = dl_subject r /\ dl_payload r' = dl_payload r /\
  (open <> Some k -> dl_state r <> Pending -> dl_state r' = dl_state r).
(** A message in the transcript keeps its content, author and direction; what
    was displayed stays displayed and its sequence number can only be found to
    be lower. *)
Definition transcript_kept (_ : Z) (r r' : TranscriptRow) : Prop :=
  tr_gid r' = tr_gid r /\ tr_payload r' = tr_payload r /\ tr_sender r' = tr_sender r /\
  tr_plaintext r' = tr_plaintext r /\ tr_outgoing r' = tr_outgoing r /\
  (tr_displayed r = true -> tr_displayed r' = true) /\
  (forall s, tr_sequence r = Some s -> exists s', tr_sequence r' = Some s' /\ s' <= s).
Definition same_row {K V} (_ : K) (v v' : V) : Prop := v = v'.
Definition rank_kept {K} (_ : K) (s s' : Z) : Prop := s <= s'.

#[global] Instance outbox_kept_preorder k : PreOrder (outbox_kept k).
Proof.
  split; [by intros r|]. intros a b c (S1 & P1 & T1) (S2 & P2 & T2).
  split_and!; [congruence..|auto].
Qed.
#[global] Instance delivery_kept_preorder o k : PreOrder (delivery_kept o k).
Proof.
  split; [by intros r|]. intros a b c (S1 & P1 & T1) (S2 & P2 & T2).
  split_and!; [congruence..|]. intros Ho Hp. rewrite T2; [by apply T1|done|]. by rewrite T1.
Qed.
#[global] Instance transcript_kept_preorder k : PreOrder (transcript_kept k).
Proof.
  split.
  - intros r. split_and!; try done. intros s Hs. exists s. split; [done|lia].
  - intros a b c (?&?&?&?&?&D1&Q1) (?&?&?&?&?&D2&Q2). split_and!; [congruence..|auto|].
    intros s Hs. destruct (Q1 s Hs) as (s1 & Hs1 & ?). destruct (Q2 s1 Hs1) as (s2 & ? & ?).
    exists s2. split; [done|lia].
Qed.
#[global] Instance same_row_preorder {K V} (k : K) : PreOrder (@same_row K V k).
Proof. split; [done|]. intros a b c. unfold same_row. congruence. Qed.
#[global] Instance rank_kept_preorder {K} (k : K) : PreOrder (@rank_kept K k).
Proof. split; [intros a|intros a b c]; unfold rank_kept; lia. Qed.

Section durable.
Context {St : Type}.
Implicit Types (d : ClientDb St).

Record durable_at (open : option Z) d d' : Prop := {
  du_identity : forall x, local_identity d = Some x -> local_identity d' = Some x;
  du_groups : table_kept same_row (groups_t (chat d)) (groups_t (chat d'));
  du_outbox : table_kept outbox_kept (outbox (chat d)) (outbox (chat d'));
  du_blocked : blocked_outbox (revocations d) ⊆ blocked_outbox (revocations d');
  du_welcomes : table_kept same_row (welcomes (chat d)) (welcomes (chat d'));
  du_received : received (chat d) ⊆ received (chat d');
  du_deliveries : table_kept (delivery_kept open) (chat_deliveries (chat d)) (chat_deliveries (chat d'));
  du_transcript : table_kept transcript_kept (transcript (chat d)) (transcript (chat d'));
  du_receipt_messages : table_kept same_row (receipt_messages (events d)) (receipt_messages (events d'));
  du_receipts : table_kept rank_kept (device_receipts (events d)) (device_receipts (events d'));
  du_events : table_kept same_row (message_events (events d)) (message_events (events d'));
  du_attachments : table_kept same_row (attachments_t (events d)) (attachments_t (events d'));
  du_participants : participant_events (events d) ⊆ participant_events (events d');
}.
#[global] Instance durable_at_preorder open : PreOrder (durable_at open).
Proof.
  split.
  - intros d. by split.
  - intros a b c [] []. split; try (by etrans); auto.
Qed.
Definition durable : ClientDb St -> ClientDb St -> Prop := durable_at None.

Lemma durable_at_None open d d' : durable d d' -> durable_at open d d'.
Proof.
  intros []. split; try done. eapply table_kept_weaken; [|done].
  intros k r r' (? & ? & Hs). split_and!; [done..|]. intros _. by apply Hs.
Qed.
(** When the delivery that was processed was pending, nothing final changed. *)
Lemma durable_at_pending k d d' r :
  chat_deliveries (chat d) !! k = Some r -> dl_state r = Pending ->
  durable_at (Some k) d d' -> durable d d'.
Proof.
  intros Hk Hp []. split; try done. intros k' r1 Hr1.
  destruct (du_deliveries0 k' r1 Hr1) as (r2 & Hr2 & ? & ? & Hs). exists r2. split; [done|].
  split_and!; [done..|]. intros _ Hn. apply Hs; [|done]. intros [= ->]. congruence.
Qed.
End durable.

(** ** The bounds and keys of the tables *)

Section tables.
Context (capacity : Capacity) `{Postcard Manifest}.

(** The pending messages are within the budget and the reserve for recovery,
    each fits a packet, and no ciphertext is queued twice. *)
Record outbox_wf (m : gmap Z OutboxRow) : Prop := {
  ow_messages : zlen (pending m) <= pending_messages capacity + 32;
  ow_bytes : sum_bytes (pending m) <= pending_bytes capacity + 32 * MAX_WIRE;
  ow_size : forall k r, m !! k = Some r -> zlen (ob_payload r) <= MAX_WIRE;
  ow_unique : forall k r k' r', m !! k = Some r -> m !! k' = Some r' ->
    ob_payload r = ob_payload r' -> k = k';
}.
Record transcript_wf (m : gmap Z TranscriptRow) : Prop := {
  tw_payload : forall k t k' t', m !! k = Some t -> m !! k' = Some t' ->
    tr_payload t = tr_payload t' -> k = k';
  tw_sequence : forall k t k' t' s, m !! k = Some t -> m !! k' = Some t' ->
    tr_sequence t = Some s -> tr_sequence t' = Some s -> k = k';
}.
Record groups_wf (m : gmap string GroupEntry) : Prop := {
  gw_count : table_size m <= retained_groups capacity;
  gw_gid : forall k e k' e', m !! k = Some e -> m !! k' = Some e' -> ge_gid e = ge_gid e' -> k = k';
  gw_mls : forall k e k' e', m !! k = Some e -> m !! k' = Some e' -> ge_mls_id e = ge_mls_id e' -> k = k';
}.
Definition attachments_wf (m : gmap (string * string) bytes) : Prop :=
  forall gid id b, m !! (gid, id) = Some b ->
    exists f, decode_manifest b = Ok (Some f) /\ mf_id f = id.
Definition receipts_wf (m : gmap (Z * string) Z) : Prop :=
  forall k s, m !! k = Some s -> s = 0 \/ s = 1.

Lemma outbox_wf_insert m s b :
  outbox_wf m -> zlen b <= MAX_WIRE ->
  exists_row (fun _ r => bool_decide (ob_payload r = b)) m = false ->
  zlen (pending m) + 1 <= pending_messages capacity + 32 ->
  sum_bytes (pending m) + zlen b <= pending_bytes capacity + 32 * MAX_WIRE ->
  outbox_wf (<[next_rowid m := {| ob_subject := s; ob_payload := b; ob_sent := false |}]> m).
Proof.
  intros [_ _ Hs Hu] Hb Hex Hn Hz. rewrite exists_row_false in Hex.
  assert (forall k r, m !! k = Some r -> ob_payload r <> b) as Hnew.
  { intros k r Hk Hr. specialize (Hex _ _ Hk). simpl in Hex. by case_bool_decide. }
  split.
  - rewrite pending_insert by (done || apply next_rowid_fresh). unfold zlen in *. simpl. lia.
  - rewrite pending_insert by (done || apply next_rowid_fresh). unfold sum_bytes in *. simpl. lia.
  - intros k r [[_ <-]|[_ Hr]]%lookup_insert_Some; eauto.
  - intros k r k' r' [[<- <-]|[? Hr]]%lookup_insert_Some [[<- <-]|[? Hr']]%lookup_insert_Some Hp;
      simpl in *; eauto; exfalso; eapply Hnew; eauto.
Qed.
Lemma outbox_wf_sent m p :
  outbox_wf m ->
  outbox_wf (update_where p (fun r => {| ob_subject := ob_subject r; ob_payload := ob_payload r;
                                         ob_sent := true |}) m).
Proof.
  intros [Hn Hz Hs Hu].
  assert (forall k r, update_where p (fun r => {| ob_subject := ob_subject r;
    ob_payload := ob_payload r; ob_sent := true |}) m !! k = Some r ->
    exists r0, m !! k = Some r0 /\ ob_payload r = ob_payload r0) as Hold.
  { intros k r (r0 & ? & ->)%lookup_update_where_Some. exists r0. split; [done|]. by destruct (p k r0). }
  split.
  - rewrite pending_sent. pose proof (zlen_filter (fun '(k, r) => negb (p k r)) (pending m)). lia.
  - rewrite pending_sent. pose proof (sum_bytes_filter (fun '(k, r) => negb (p k r)) (pending m)). lia.
  - intros k r (r0 & ? & ->)%Hold. eauto.
  - intros k r k' r' (r0 & ? & ->)%Hold (r0' & ? & ->)%Hold. eauto.
Qed.

Lemma transcript_wf_insert m t :
  transcript_wf m -> exists_row (fun _ t' => bool_decide (tr_payload t' = tr_payload t)) m = false ->
  tr_sequence t = None -> transcript_wf (<[next_rowid m := t]> m).
Proof.
  intros [Hu Hq] Hex Ht.
  assert (forall k t', m !! k = Some t' -> tr_payload t' <> tr_payload t) as Hnew.
  { intros k t' Hk Hr. rewrite exists_row_false in Hex. specialize (Hex _ _ Hk). simpl in Hex.
    by case_bool_decide. }
  split.
  - intros k r k' r' [[<- <-]|[? Hr]]%lookup_insert_Some [[<- <-]|[? Hr']]%lookup_insert_Some Hp;
      simpl in *; eauto; exfalso; eapply Hnew; eauto.
  - intros k r k' r' s [[<- <-]|[? Hr]]%lookup_insert_Some [[<- <-]|[? Hr']]%lookup_insert_Some Hs Hs';
      try congruence; eauto.
Qed.
(** An update that leaves payloads and sequence numbers alone. *)
Lemma transcript_wf_update m p f :
  (forall t, tr_payload (f t) = tr_payload t /\ tr_sequence (f t) = tr_sequence t) ->
  transcript_wf m -> transcript_wf (update_where p f m).
Proof.
  intros Hf [Hu Hq].
  assert (forall k r, update_where p f m !! k = Some r -> exists r0, m !! k = Some r0 /\
    tr_payload r = tr_payload r0 /\ tr_sequence r = tr_sequence r0) as Hold.
  { intros k r (r0 & ? & ->)%lookup_update_where_Some. exists r0. split; [done|].
    destruct (p k r0); [apply Hf|done]. }
  split.
  - intros k r k' r' (r0 & ? & -> & _)%Hold (r0' & ? & -> & _)%Hold. eauto.
  - intros k r k' r' s (r0 & ? & _ & ->)%Hold (r0' & ? & _ & ->)%Hold. eauto.
Qed.
Definition with_sequence (s : Z) (t : TranscriptRow) : TranscriptRow :=
  {| tr_gid := tr_gid t; tr_payload := tr_payload t; tr_sender := tr_sender t;
     tr_plaintext := tr_plaintext t; tr_outgoing := tr_outgoing t;
     tr_sequence := Some s; tr_displayed := tr_displayed t |}.
Lemma transcript_wf_sequence m p s :
  transcript_wf m ->
  exists_row (fun _ t => p t) m = false \/
  count_rows (fun _ t => bool_decide (tr_sequence t = Some s))
    (update_where (fun _ t => p t) (with_sequence s) m) <= 1 ->
  transcript_wf (update_where (fun _ t => p t) (with_sequence s) m).
Proof.
  intros [Hu Hq] Hor.
  assert (forall k r, update_where (fun _ t => p t) (with_sequence s) m !! k = Some r ->
    exists r0, m !! k = Some r0 /\ tr_payload r = tr_payload r0 /\
      (tr_sequence r = tr_sequence r0 \/ p r0 = true /\ tr_sequence r = Some s)) as Hold.
  { intros k r (r0 & ? & ->)%lookup_update_where_Some. exists r0. split; [done|].
    destruct (p r0) eqn:?; auto. }
  split.
  - intros k r k' r' (r0 & ? & -> & _)%Hold (r0' & ? & -> & _)%Hold. eauto.
  - intros k r k' r' n Hk Hk' Hn Hn'.
    destruct (Hold _ _ Hk) as (r0 & H0 & _ & Hs0), (Hold _ _ Hk') as (r0' & H0' & _ & Hs0').
    destruct Hor as [Hex|Hc].
    + rewrite exists_row_false in Hex. pose proof (Hex _ _ H0) as Hp. specialize (Hex _ _ H0'). simpl in Hp, Hex.
      destruct Hs0 as [Hs0|[? _]], Hs0' as [Hs0'|[? _]]; [|congruence..].
      apply (Hq k r0 k' r0' n); congruence.
    + destruct (decide (n = s)) as [->|Hne].
      * eapply count_rows_le_1; [exact Hc|exact Hk| |exact Hk'|]; by apply bool_decide_eq_true.
      * destruct Hs0 as [Hs0|[_ ?]], Hs0' as [Hs0'|[_ ?]]; [|congruence..].
        apply (Hq k r0 k' r0' n); congruence.
Qed.
End tables.

(** ** The operations *)

Section operations.
Context {St : Type} `{Pages (ClientDb St)} `{Mls St} (capacity : Capacity).
Context `{NKeys} `{MlsPackages} `{Seeds} `{Credentials} `{Json SecretRef} `{Base32} `{Sha256}
  `{Aead} `{MlsCrypto} `{Postcard EphemeralEnvelope} `{Postcard EphemeralBody} `{Postcard ContextTuple}
  `{Postcard SealTuple}
  `{Postcard DeviceRegistration} `{Postcard RecoveryStatus} `{Postcard Envelope}
  `{Postcard RegistrationPayload} `{Postcard Intent} `{Postcard WelcomeRelay} `{Postcard RelayTuple}
  `{Postcard PolicyUpdate} `{Postcard CheckpointTuple} `{Postcard RequestTuple} `{Postcard Revocation}
  `{Postcard FingerprintTuple} `{Postcard Checkpoint}
  `{Postcard Manifest} `{Postcard ApplicationEvent} `{Postcard ApplicationTuple} `{Postcard LegacyTuple}.
Implicit Types (d : ClientDb St).

Record chat_wf d : Prop := {
  cw_outbox : outbox_wf capacity (outbox (chat d));
  cw_transcript : transcript_wf (transcript (chat d));
  cw_groups : groups_wf capacity (groups_t (chat d));
  cw_attachments : attachments_wf (attachments_t (events d));
  cw_receipts : receipts_wf (device_receipts (events d));
}.
Definition kept (open : option Z) d d' : Prop := durable_at open d d' /\ (chat_wf d -> chat_wf d').
#[global] Instance kept_preorder open : PreOrder (kept open).
Proof.
  split; [intros d; by split|]. intros a b c [D1 W1] [D2 W2]. split; [by etrans|auto].
Qed.

(** Statements on other tables. *)
Ltac other_tables := intros; split; [split; simpl; done | by intros []; split].

Lemma keeps_modify_at {S B} (R : S -> S -> Prop) `{!PreOrder R} f (k : unit -> M S B) s :
  R s (f s) -> keeps R (k tt) -> R s (snd (bind (modify f) k s)).
Proof. intros Hf Hk. etrans; [exact Hf|]. apply Hk. Qed.

Lemma keeps_insert_row {S K V B} `{Countable K} (R : S -> S -> Prop) `{!PreOrder R}
  (f : S -> gmap K V) k v (g : gmap K V -> S -> S) (rest : unit -> M S B) :
  (forall s m, insert_row k v (f s) = Ok m -> R s (g m s)) -> keeps R (rest tt) ->
  keeps R (let* t := gets f in let* t := lift (insert_row k v t) in bind (modify (g t)) rest).
Proof.
  intros Hg Hk s. apply keeps_bind_at; [|done]. intros t ? [-> ->]%gets_Ok.
  apply keeps_bind_at; [|by intros ? ? [_ ->]%lift_Err]. intros m ? [Hm ->]%lift_Ok.
  apply keeps_modify_at; auto.
Qed.

(** *** Shared statements *)

Section shared.
Context (o : option Z).

Lemma kept_set_autocommit b d : kept o d (set_autocommit b d).
Proof. other_tables. Qed.
Lemma kept_set_recovery b d : kept o d (set_recovery b d).
Proof. other_tables. Qed.
Lemma kept_set_cached_key k d : kept o d (set_cached_key k d).
Proof. other_tables. Qed.
Lemma kept_transaction_budget {A} recovery (m : M (ClientDb St) A) :
  keeps (kept o) m -> keeps (kept o) (transaction_budget capacity recovery m).
Proof.
  apply keeps_transaction_budget; [apply _|apply kept_set_autocommit|apply kept_set_recovery|].
  intros k d. apply kept_set_cached_key.
Qed.
Lemma kept_transaction {A} (m : M (ClientDb St) A) :
  keeps (kept o) m -> keeps (kept o) (transaction capacity m).
Proof. apply kept_transaction_budget. Qed.
Lemma kept_provider {A} (m : M St A) : keeps (kept o) (provider m).
Proof. apply keeps_provider. other_tables. Qed.
Lemma kept_check_database b : keeps (kept o) (check_database capacity b).
Proof. intros d. reflexivity. Qed.
#[local] Hint Resolve kept_provider kept_check_database : keeps.
Ltac kept_step :=
  first [ match goal with
                 |- keeps _ (bind (gets _) (fun t => bind (lift (insert_row _ _ t)) _)) =>
                   apply keeps_insert_row; [apply _|..]
                 end
               | keeps_step
               | apply kept_transaction
               | apply kept_transaction_budget
               | apply keeps_for_each; [apply _|intros ?] ].
Ltac kept_auto := repeat kept_step.

Lemma kept_nkey : keeps (kept o) store_nkey.
Proof. unfold store_nkey. keeps_auto. apply keeps_modify. other_tables. Qed.
#[local] Hint Resolve kept_nkey : keeps.
Lemma kept_signer : keeps (kept o) signer.
Proof. unfold signer, ensure_messaging_identity. keeps_auto. Qed.
#[local] Hint Resolve kept_signer : keeps.

Lemma kept_queue s b : keeps (kept o) (queue capacity s b).
Proof.
  unfold queue.
  intros d. apply keeps_bind_at; [|by intros ? ? [_ ->]%ensure_Err]. intros [] ? [Hsize ->]%ensure_Ok.
  apply keeps_bind_at; [|done]. intros auto ? [_ ->]%gets_Ok.
  apply keeps_bind_at; [|by intros ? ? [_ ->]%ensure_Err]. intros [] ? [_ ->]%ensure_Ok.
  apply keeps_bind_at; [|done]. intros recovery ? [_ ->]%gets_Ok.
  apply keeps_bind_at; [|by intros ? ? [= _ <-]]. intros [] ? [= _ <-].
  apply keeps_bind_at; [|done]. intros waiting ? [-> ->]%gets_Ok.
  apply keeps_bind_at; [|by intros ? ? [_ ->]%ensure_Err]. intros [] ? [Hroom ->]%ensure_Ok.
  apply keeps_bind_at; [|done]. intros table ? [-> ->]%gets_Ok.
  apply keeps_bind_at; [|by intros ? ? [_ ->]%lift_Err]. intros [] ? [Hnew ->]%lift_Ok.
  apply require_Ok in Hnew. bool_prop.
  assert (zlen (pending (outbox (chat d))) + 1 <= pending_messages capacity + 32) as Hn.
  { destruct recovery; lia. }
  assert (sum_bytes (pending (outbox (chat d))) + zlen b <= pending_bytes capacity + 32 * MAX_WIRE) as Hz.
  { destruct (checked_add64 _ _) as [n|] eqn:Hadd; [|done]. unfold checked_add64 in Hadd.
    destruct (_ <=? u64_max); [|done].
    injection Hadd as <-. bool_prop.
    assert (0 <= MAX_WIRE) by done. destruct recovery; lia. }
  split.
  - split; simpl; try done. apply table_kept_insert; [apply _|apply next_rowid_fresh].
  - intros []. split; simpl; try done. by apply outbox_wf_insert.
Qed.
#[local] Hint Resolve kept_queue : keeps.
Lemma kept_mark_sent id : keeps (kept o) (mark_sent id).
Proof.
  apply keeps_modify. intros d. split.
  - split; simpl; try done. apply table_kept_update; [apply _|]. intros k r _ _. by split_and!.
  - intros []. split; simpl; try done. by apply outbox_wf_sent.
Qed.

Lemma kept_refresh_coordinator g : keeps (kept o) (refresh_coordinator g).
Proof.
  intros d. unfold refresh_coordinator. destruct (match stored_coordinator g d with Some _ => _ | None => _ end);
    [reflexivity|].
  destruct (coordinator g d); [|reflexivity]. destruct (member_at _ g); [|reflexivity].
  match goal with |- kept o d (snd (?m d)) => cut (keeps (kept o) m); [by intros Hk|] end.
  keeps_auto. apply keeps_modify. other_tables.
Qed.
Lemma kept_block_group s : keeps (kept o) (block_group s).
Proof.
  apply keeps_modify. intros d. split; [split; simpl; try done; set_solver|by intros []; split].
Qed.
#[local] Hint Resolve kept_refresh_coordinator kept_block_group : keeps.
Lemma kept_ensure_can_send g : keeps (kept o) (ensure_can_send g).
Proof. unfold ensure_can_send. keeps_auto. Qed.
Lemma kept_block_revoked : keeps (kept o) block_revoked_outbox.
Proof.
  unfold block_revoked_outbox. keeps_auto. apply keeps_for_each; [apply _|]. intros g. keeps_auto.
Qed.
#[local] Hint Resolve kept_ensure_can_send kept_block_revoked : keeps.
Lemma kept_queue_policy g : keeps (kept o) (queue_policy capacity g).
Proof. unfold queue_policy. keeps_auto. Qed.
Lemma kept_queue_welcome g r b : keeps (kept o) (queue_welcome capacity g r b).
Proof. unfold queue_welcome. keeps_auto. Qed.
#[local] Hint Resolve kept_queue_policy kept_queue_welcome : keeps.
Lemma kept_publish_commit descriptor g b : keeps (kept o) (publish_commit capacity descriptor g b).
Proof. unfold publish_commit. keeps_auto. Qed.
#[local] Hint Resolve kept_publish_commit : keeps.

(** *** Groups and invitations *)

Lemma kept_insert_group g : keeps (kept o) (insert_group capacity g).
Proof.
  unfold insert_group. intros d.
  apply keeps_bind_at; [|done]. intros count ? [-> ->]%gets_Ok.
  apply keeps_bind_at; [|by intros ? ? [_ ->]%ensure_Err]. intros [] ? [Hcount ->]%ensure_Ok.
  apply keeps_bind_at; [|done]. intros taken ? [-> ->]%gets_Ok.
  apply keeps_bind_at; [|by intros ? ? [_ ->]%ensure_Err]. intros [] ? [Hfree ->]%ensure_Ok.
  bool_prop. rewrite exists_row_false in Hfree.
  assert (groups_t (chat d) !! grp_name g = None) as Hnone.
  { destruct (_ !! _) eqn:Hg; [|done]. specialize (Hfree _ _ Hg). simpl in Hfree.
    by rewrite bool_decide_eq_true_2 in Hfree. }
  assert (forall k e, groups_t (chat d) !! k = Some e ->
    ge_gid e <> grp_gid g /\ ge_mls_id e <> grp_mls_id g) as Hnew.
  { intros k e He. specialize (Hfree k e He). simpl in Hfree. by bool_prop. }
  apply keeps_modify_at; [apply _|..].
  - split; [split; simpl; try done; apply table_kept_insert; [apply _|done]|].
    intros [? ? [Hc Hg Hm] ? ?]. split; simpl; try done. split.
    + unfold table_size in *. rewrite map_size_insert_None by done. lia.
    + intros k e k' e' [[<- <-]|[? He]]%lookup_insert_Some [[<- <-]|[? He']]%lookup_insert_Some Heq;
        simpl in *; [done|by destruct (Hnew _ _ He')|by destruct (Hnew _ _ He)|by eapply Hg].
    + intros k e k' e' [[<- <-]|[? He]]%lookup_insert_Some [[<- <-]|[? He']]%lookup_insert_Some Heq;
        simpl in *; [done|by destruct (Hnew _ _ He')|by destruct (Hnew _ _ He)|by eapply Hm].
  - keeps_auto. apply keeps_modify. other_tables.
Qed.
#[local] Hint Resolve kept_insert_group : keeps.
Lemma kept_create_group name r1 r2 : keeps (kept o) (create_group capacity name r1 r2).
Proof.
  unfold create_group. kept_auto.
Qed.
Lemma kept_prepare_invitation name r rnd : keeps (kept o) (prepare_invitation capacity name r rnd).
Proof. unfold prepare_invitation. kept_auto. Qed.
Lemma kept_reconcile name rnd : keeps (kept o) (reconcile_revocations capacity name rnd).
Proof. unfold reconcile_revocations. kept_auto. Qed.
Lemma kept_remove_member name user device rnd :
  keeps (kept o) (remove_member capacity name user device rnd).
Proof. unfold remove_member. kept_auto. Qed.

Lemma kept_accept_welcome b r : keeps (kept o) (accept_welcome capacity b r).
Proof.
  unfold accept_welcome, ensure_messaging_identity. kept_auto.
  - other_tables.
  - apply keeps_modify. other_tables.
  - intros d m Hm. split; [split; simpl; try done; by (eapply table_kept_insert_row; [apply _|])|by intros []; split].
Qed.

#[local] Hint Resolve kept_accept_welcome kept_create_group kept_prepare_invitation kept_reconcile
  kept_remove_member : keeps.

(** *** Messages *)

Lemma kept_insert_transcript t :
  tr_sequence t = None -> keeps (kept o) (insert_transcript t).
Proof.
  intros Ht d. unfold insert_transcript.
  apply keeps_bind_at; [|done]. intros table ? [-> ->]%gets_Ok.
  apply keeps_bind_at; [|by intros ? ? [_ ->]%lift_Err]. intros [] ? [Hnew%require_Ok ->]%lift_Ok.
  bool_prop. apply keeps_modify_at; [apply _| |kept_auto]. split.
  - split; simpl; try done. apply table_kept_insert; [apply _|apply next_rowid_fresh].
  - intros []. split; simpl; try done. by apply transcript_wf_insert.
Qed.
Lemma kept_lower_sequence p n : keeps (kept o) (lower_sequence p n).
Proof.
  intros d. unfold lower_sequence.
  apply keeps_bind_at; [|done]. intros table ? [-> ->]%gets_Ok.
  apply keeps_bind_at; [|by intros ? ? [_ ->]%lift_Err]. intros [] ? [Hok%require_Ok ->]%lift_Ok.
  split.
  - split; simpl; try done. apply table_kept_update; [apply _|]. intros k t _ Hp. bool_prop.
    split_and!; try done. intros s Hs. simpl. rewrite Hs in *. bool_prop. exists n. split; [done|lia].
  - intros []. split; simpl; try done. apply (transcript_wf_sequence _ _ n); [done|].
    apply orb_prop in Hok as [Hn|Hc]; [left|right]; bool_prop; done.
Qed.
Lemma kept_update_transcript p f :
  (forall t, tr_payload (f t) = tr_payload t /\ tr_sequence (f t) = tr_sequence t) ->
  (forall k t, transcript_kept k t (f t)) ->
  forall d, kept o d (set_chat (set_transcript (update_where (p d) f)) d).
Proof.
  intros Hf Hk d. split.
  - split; simpl; try done. apply table_kept_update; [apply _|]. intros k t _ _. apply Hk.
  - intros []. split; simpl; try done. by apply transcript_wf_update.
Qed.
Lemma kept_index_receipt id gid b : keeps (kept o) (index_receipt id gid b).
Proof.
  unfold index_receipt. kept_auto. apply keeps_modify. intros d.
  split; [|by intros []; split]. split; simpl; try done.
  destruct (exists_row _ _) eqn:Hex; [done|]. apply table_kept_insert; [apply _|].
  destruct (_ !! id) eqn:Hid; [|done]. rewrite exists_row_false in Hex.
  specialize (Hex _ _ Hid). simpl in Hex. by rewrite Z.eqb_refl in Hex.
Qed.
Lemma kept_insert_received b : keeps (kept o) (insert_received b).
Proof.
  unfold insert_received. kept_auto. apply keeps_modify. intros d.
  split; [split; simpl; try done; set_solver|by intros []; split].
Qed.
Lemma kept_index_attachment gid b : keeps (kept o) (index_attachment gid b).
Proof.
  unfold index_attachment. destruct (decode_manifest b) as [[m|]|e] eqn:Hm; [|kept_auto..].
  kept_auto. apply keeps_modify. intros d. split.
  - split; simpl; try done. apply table_kept_insert_ignore. apply _.
  - intros []. split; simpl; try done. unfold insert_ignore.
    destruct (attachments_t (events d) !! (gid, mf_id m)); [done|].
    intros gid' id' b' [[[= <- <-] <-]|[_ Hb]]%lookup_insert_Some; eauto.
Qed.
Lemma kept_index_application row gid sender b e text :
  keeps (kept o) (index_application row gid sender b e text).
Proof.
  unfold index_application. kept_auto.
  - intros d m Hm. split; [split; simpl; try done; by (eapply table_kept_insert_row; [apply _|])|by intros []; split].
  - apply keeps_modify. intros d.
    apply (kept_update_transcript (fun d r _ => (r =? row) && _)); [by intros []|].
    intros k t. split_and!; try done. intros s Hs. exists s. split; [done|lia].
Qed.
#[local] Hint Resolve kept_index_receipt kept_insert_received kept_index_attachment
  kept_index_application kept_lower_sequence : keeps.
#[local] Hint Extern 1 (keeps _ (insert_transcript _)) => by apply kept_insert_transcript : keeps.

Lemma kept_encrypt_event_inner name e rnd : keeps (kept o) (encrypt_event_inner capacity name e rnd).
Proof. unfold encrypt_event_inner. kept_auto. Qed.
#[local] Hint Resolve kept_encrypt_event_inner : keeps.
Lemma kept_encrypt_event name e rnd : keeps (kept o) (encrypt_event capacity name e rnd).
Proof. unfold encrypt_event. kept_auto. Qed.
#[local] Hint Resolve kept_encrypt_event : keeps.
Lemma kept_encrypt_message name text nonce rnd :
  keeps (kept o) (encrypt_message capacity name text nonce rnd).
Proof. unfold encrypt_message. kept_auto. Qed.
Lemma kept_encrypt_related name r text nonce rnd :
  keeps (kept o) (encrypt_related capacity name r text nonce rnd).
Proof. unfold encrypt_related. kept_auto. Qed.
Lemma kept_decrypt_inner name b : keeps (kept o) (decrypt_inner name b).
Proof. unfold decrypt_inner, process. kept_auto. Qed.
#[local] Hint Resolve kept_encrypt_message kept_encrypt_related kept_decrypt_inner : keeps.
Lemma kept_decrypt_message name b : keeps (kept o) (decrypt_message capacity name b).
Proof. unfold decrypt_message. kept_auto. Qed.
Lemma kept_process_handshake name b n : keeps (kept o) (process_handshake name b n).
Proof. unfold process_handshake, process. kept_auto. Qed.
#[local] Hint Resolve kept_decrypt_message kept_process_handshake : keeps.

(** *** Staging, display and receipts *)

Lemma kept_stage_chat n s b : keeps (kept o) (stage_chat capacity n s b).
Proof.
  unfold stage_chat. do 2 (apply keeps_bind; [apply _|kept_auto|intros _]). apply kept_transaction.
  intros d. apply keeps_bind_at; [|done]. intros old ? [-> ->]%gets_Ok.
  destruct (chat_deliveries (chat d) !! n) eqn:Hn; [reflexivity|].
  apply keeps_bind_at; [|by intros ? ? [= _ <-]]. intros [] ? [= _ <-].
  split; [|by intros []; split]. split; simpl; try done. by (apply table_kept_insert; [apply _|]).
Qed.
Lemma kept_mark_displayed id : keeps (kept o) (mark_displayed id).
Proof.
  apply keeps_modify. intros d.
  apply (kept_update_transcript (fun d row t => negb (tr_displayed t) && ((row =? id) ||
    match message_events (events d) !! id, message_events (events d) !! row with
    | Some a, Some b => bool_decide (ev_gid a = ev_gid b) && bool_decide (ev_message_id a = ev_message_id b)
    | _, _ => false
    end))); [by intros []|].
  intros k t. split_and!; try done. intros s Hs. exists s. split; [done|lia].
Qed.
Lemma kept_raise_receipt id device s : keeps (kept o) (raise_receipt id device s).
Proof.
  apply keeps_modify. intros d. split.
  - split; simpl; try done. destruct (_ !! (id, device)) as [old|] eqn:Hold.
    + destruct (old <? receipt_rank s) eqn:Hlt; [|done]. bool_prop.
      eapply table_kept_replace; [apply _|done|]. unfold rank_kept. lia.
    + by (apply table_kept_insert; [apply _|]).
  - intros []. split; simpl; try done.
    assert (receipt_rank s = 0 \/ receipt_rank s = 1) as Hs by (destruct s; auto).
    assert (receipts_wf (<[(id, device) := receipt_rank s]> (device_receipts (events d)))) as Hi.
    { intros k r [[_ <-]|[_ Hr]]%lookup_insert_Some; eauto. }
    destruct (_ !! (id, device)); [|done]. by case_match.
Qed.
#[local] Hint Resolve kept_stage_chat kept_mark_displayed kept_raise_receipt : keeps.
Lemma kept_process_receipt name e instant : keeps (kept o) (process_receipt name e instant).
Proof. unfold process_receipt. kept_auto. Qed.
Lemma kept_seal name e id nonce clock : keeps (kept o) (seal_ephemeral name e id nonce clock).
Proof. unfold seal_ephemeral. kept_auto. Qed.
Lemma kept_open name b clock instant : keeps (kept o) (open_ephemeral_at name b clock instant).
Proof. unfold open_ephemeral_at. kept_auto. Qed.

(** *** The status participant *)

Lemma kept_respond_event name g nonce rnd x : keeps (kept o) (respond_event capacity name g nonce rnd x).
Proof.
  unfold respond_event. kept_auto. apply keeps_modify. intros d.
  split; [split; simpl; try done; set_solver|by intros []; split].
Qed.
Lemma kept_respond_all name g entropy l n :
  keeps (kept o) (respond_all capacity name g entropy l n).
Proof.
  revert n. induction l as [|x l IH]; intros n; simpl; kept_auto.
  apply kept_respond_event.
Qed.
Lemma kept_respond_status name entropy : keeps (kept o) (respond_status capacity name entropy).
Proof. unfold respond_status. kept_auto. apply kept_respond_all. Qed.
#[local] Hint Resolve kept_process_receipt kept_seal kept_open kept_respond_status : keeps.

(** *** The network *)

Section network.
Variables (ask : string -> Body.t -> result bytes) (refresh : result unit).

Lemma kept_dispatch snapshot id s b : keeps (kept o) (dispatch ask refresh snapshot id s b).
Proof. unfold dispatch. kept_auto. Qed.

Lemma kept_insert_identity {A} v (rest : unit -> M (ClientDb St) A) :
  keeps (kept o) (rest tt) ->
  keeps (kept o) (let* row := gets local_identity in
                  lift (match row with Some _ => Err SqlConstraint | None => Ok tt end) ;;;
                  let* x := modify (set_identity (fun _ => Some v)) in rest x).
Proof.
  intros Hk d. apply keeps_bind_at; [|done]. intros row ? [-> ->]%gets_Ok.
  apply keeps_bind_at; [|by intros ? ? [_ ->]%lift_Err]. intros [] ? [Hrow ->]%lift_Ok.
  apply keeps_modify_at; [apply _| |done].
  destruct (local_identity d) eqn:Hid; [done|].
  split; [|by intros []; split]. split; simpl; try done. intros x Hx. congruence.
Qed.
Lemma kept_init user device provisioned clock r1 r2 :
  keeps (kept o) (init capacity user device provisioned clock r1 r2).
Proof.
  unfold init, initialize. repeat first [apply kept_insert_identity | kept_step].
  apply keeps_modify. other_tables.
Qed.

(** The audits and the rest of the trust evidence. *)
Lemma kept_same d d' :
  device_trust_t (trust d') = device_trust_t (trust d) ->
  transparency_state (trust d') = transparency_state (trust d) ->
  revocations d' = revocations d ->
  local_identity d' = local_identity d -> chat d' = chat d -> events d' = events d -> kept o d d'.
Proof.
  intros _ _ Hr Hi Hc He. split.
  - split; rewrite ?Hr, ?Hi, ?Hc, ?He; try done.
  - intros []. split; by rewrite ?Hc, ?He.
Qed.
Lemma kept_observe user device fp : keeps (kept o) (observe user device fp).
Proof. unfold observe. kept_auto; apply keeps_modify; other_tables. Qed.
Lemma kept_accept_checkpoint s : keeps (kept o) (accept_checkpoint capacity s).
Proof.
  apply accept_checkpoint_keeps; [apply _|apply kept_same|other_tables|apply kept_observe|other_tables].
Qed.
Lemma kept_accept_revocations l s : keeps (kept o) (accept_revocations capacity l s).
Proof. apply accept_revocations_keeps; [apply _|apply kept_same|other_tables..]. Qed.
Lemma kept_audit r1 r2 : keeps (kept o) (audit capacity r1 r2).
Proof.
  apply audit_keeps; [apply _|apply kept_same|apply kept_accept_checkpoint|apply kept_accept_revocations].
Qed.
Lemma kept_trust_op op d : kept o d (trust_op capacity op d).
Proof.
  apply (run_keeps capacity (kept o) [op]).
  - apply kept_same.
  - other_tables.
  - apply kept_accept_checkpoint.
  - apply kept_accept_revocations.
  - apply kept_observe.
  - intros user device expected _. unfold verify_device. kept_auto. apply keeps_modify. other_tables.
Qed.
End network.

(** The delivery that is processed may leave its state. *)
Lemma kept_set_delivery_state n st : keeps (kept (Some n)) (set_delivery_state n st).
Proof.
  apply keeps_modify. intros d. split; [|by intros []; split].
  split; simpl; try done. apply table_kept_update; [apply _|]. intros k r _ Hk%Z.eqb_eq. subst.
  by split_and!.
Qed.
End shared.

Ltac kept_auto :=
  repeat first [keeps_step | apply kept_transaction | apply kept_transaction_budget].
#[local] Hint Resolve kept_check_database kept_provider kept_set_delivery_state kept_process_handshake
  kept_decrypt_inner kept_lower_sequence : keeps.
#[local] Hint Extern 1 (keeps _ (insert_transcript _)) => by apply kept_insert_transcript : keeps.

Lemma kept_process_delivery name g n r : keeps (kept (Some n)) (process_delivery name g n r).
Proof. unfold process_delivery. kept_auto. Qed.

Lemma kept_pending k d d' r :
  chat_deliveries (chat d) !! k = Some r -> dl_state r = Pending ->
  kept (Some k) d d' -> kept None d d'.
Proof. intros Hk Hp [Hd Hw]. split; [by eapply durable_at_pending|done]. Qed.

(** The next delivery is a pending one of the group. *)
Lemma min_of_Some l m : min_of l = Some m -> m ∈ l /\ Forall (Z.le m) l.
Proof.
  revert m. induction l as [|x l IH]; intros m; simpl; [done|].
  destruct (min_of l) as [m'|] eqn:Hl; intros [= <-].
  - destruct (IH _ eq_refl) as [Hin Hall]. split.
    + destruct (Z.min_spec x m') as [[_ ->]|[_ ->]]; [left|by right].
    + constructor; [lia|]. eapply Forall_impl; [|exact Hall]. simpl. lia.
  - destruct l; [|simpl in Hl; by destruct (min_of l)]. split; [left|]. repeat constructor. lia.
Qed.
Lemma next_delivery_Some g d n r :
  next_delivery g d = Some (n, r) ->
  chat_deliveries (chat d) !! n = Some r /\ for_group g r = true /\ dl_state r = Pending /\
  forall n' r', chat_deliveries (chat d) !! n' = Some r' -> is_pending g r' = true -> n <= n'.
Proof.
  unfold next_delivery. intros (n0 & Hm & (r0 & Hr & [= <- <-])%bind_Some)%bind_Some.
  apply min_of_Some in Hm as [Hin Hall]. unfold pending_sequences in *.
  apply list_elem_of_In, in_map_iff in Hin as ([n1 r1] & Hn & Hin). simpl in Hn. subst n1.
  apply list_elem_of_In, elem_of_rows in Hin as [Hr1 Hp]. simplify_eq.
  unfold is_pending in Hp. bool_prop. split_and!; try done.
  intros n' r' Hn' Hp'. apply (proj1 (List.Forall_forall _ _) Hall).
  apply in_map_iff. exists (n', r'). split; [done|]. by apply list_elem_of_In, elem_of_rows.
Qed.

Lemma kept_process_loop fuel name g report : keeps (kept None) (process_loop capacity fuel name g report).
Proof.
  revert report. induction fuel as [|fuel IH]; intros report d; simpl.
  - destruct (next_delivery g d) as [[]|]; reflexivity.
  - destruct (next_delivery g d) as [[n r]|] eqn:Hn; [|reflexivity].
    apply next_delivery_Some in Hn as (Hr & _ & Hp & _).
    destruct (transaction capacity _ d) as [[[message gap]|e] d'] eqn:Ht.
    + etrans; [|apply IH]. eapply kept_pending; [exact Hr|exact Hp|].
      pose proof (kept_transaction (Some n) _ (kept_process_delivery name g n r) d) as Hk.
      by rewrite Ht in Hk.
    + apply transaction_budget_Err in Ht.
      assert (kept None d d') as Hd by (destruct Ht as [->|[k ->]]; [done|];
        etrans; [apply (kept_set_recovery _ false)|apply kept_set_cached_key]).
      assert (chat_deliveries (chat d') !! n = Some r) as Hr' by (by destruct Ht as [->|[k ->]]).
      destruct e; try done. etrans; [exact Hd|]. etrans; [|apply IH].
      eapply kept_pending; [exact Hr'|exact Hp|]. apply kept_set_delivery_state.
Qed.
Lemma kept_process_history name : keeps (kept None) (process_history capacity name).
Proof.
  intros d. unfold process_history. destruct (group name d); [|reflexivity]. apply kept_process_loop.
Qed.

Lemma kept_stage_all l : keeps (kept None) (stage_all capacity l).
Proof.
  induction l as [|x l IH]; simpl; kept_auto. apply kept_stage_chat.
Qed.
Lemma kept_catch_up name l : keeps (kept None) (catch_up capacity name l).
Proof. unfold catch_up. kept_auto; [apply kept_stage_all|apply kept_process_history]. Qed.

(** *** The world *)

Definition world_kept (w w' : World St) : Prop := kept None (w_db w) (w_db w').
#[local] Instance world_kept_preorder : PreOrder world_kept.
Proof. split; [intros w; unfold world_kept; done|]. intros a b c. unfold world_kept. by etrans. Qed.
Lemma world_on_store {A} (m : M (ClientDb St) A) : keeps (kept None) m -> keeps world_kept (on_store m).
Proof. intros Hm w. unfold on_store, world_kept. specialize (Hm (w_db w)). by destruct (m (w_db w)). Qed.
Lemma world_publish p : keeps world_kept (publish (St:=St) p).
Proof. intros w. unfold publish, world_kept. destruct (w_answers w); simpl; reflexivity. Qed.
#[local] Hint Resolve world_publish : keeps.
Ltac world_auto :=
  repeat first [ keeps_step | apply world_on_store | apply kept_transaction
               | apply kept_mark_sent | apply kept_nkey | apply kept_block_revoked
               | apply kept_dispatch | apply kept_lower_sequence | apply kept_audit ].

Section network.
Variables (ask : string -> Body.t -> result bytes) (refresh : result unit).
Lemma world_send_row snapshot x : keeps world_kept (send_row capacity ask refresh snapshot x).
Proof. unfold send_row. world_auto. Qed.
Lemma world_flush_loop fuel snapshot after high :
  keeps world_kept (flush_loop capacity ask refresh fuel snapshot after high).
Proof.
  revert after. induction fuel as [|fuel IH]; intros after w; simpl.
  - by destruct (batch after high (w_db w)).
  - destruct (batch after high (w_db w)) as [|x l]; [done|].
    apply keeps_bind; [apply _| |intros; apply IH]. apply keeps_bind; [apply _|apply world_send_row|].
    intros _. apply keeps_for_each; [apply _|]. apply world_send_row.
Qed.
Lemma world_flush_outbox r1 r2 : keeps world_kept (flush_outbox capacity ask refresh r1 r2).
Proof. unfold flush_outbox. world_auto. apply world_flush_loop. Qed.
Lemma world_resume name before after l rnd :
  keeps world_kept (resume capacity ask refresh name before after l rnd).
Proof.
  unfold resume. world_auto;
    first [apply world_flush_outbox | apply kept_catch_up | apply kept_reconcile].
Qed.
Lemma world_send name text nonce r1 r2 before middle after l :
  keeps world_kept (send capacity ask refresh name text nonce r1 r2 before middle after l).
Proof.
  unfold send. world_auto;
    first [apply world_flush_outbox | apply world_resume | apply kept_encrypt_message].
Qed.
End network.
End operations.

(** ** Histories of a device

    Any sequence of the client's operations, with any replies from the network,
    any randomness and any clock: what was recorded stays recorded, and the
    bounds and keys of the tables hold throughout. *)
Section history.
Context {St : Type} `{Pages (ClientDb St)} `{Mls St} (capacity : Capacity).
Context `{NKeys} `{MlsPackages} `{Seeds} `{Credentials} `{Json SecretRef} `{Base32} `{Sha256}
  `{Aead} `{MlsCrypto} `{Postcard EphemeralEnvelope} `{Postcard EphemeralBody} `{Postcard ContextTuple}
  `{Postcard SealTuple}
  `{Postcard DeviceRegistration} `{Postcard RecoveryStatus} `{Postcard Envelope}
  `{Postcard RegistrationPayload} `{Postcard Intent} `{Postcard WelcomeRelay} `{Postcard RelayTuple}
  `{Postcard PolicyUpdate} `{Postcard CheckpointTuple} `{Postcard RequestTuple} `{Postcard Revocation}
  `{Postcard FingerprintTuple} `{Postcard Checkpoint}
  `{Postcard Manifest} `{Postcard ApplicationEvent} `{Postcard ApplicationTuple} `{Postcard LegacyTuple}.
Implicit Types (d : ClientDb St).

(** What a flush, a synchronization or a send finds at the other end. *)
Record Network : Type := {
  net_ask : string -> Body.t -> result bytes;
  net_refresh : result unit;
  net_answers : list (result Ack);
  net_audits : list (result bytes * result bytes);
  net_deliveries : result (list (result ChatDelivery));
}.
Definition net_audit (n : Network) (i : nat) : result bytes * result bytes :=
  default (Err External, Err External) (net_audits n !! i).

Inductive ChatOp : Type :=
| DoTrust (op : TrustOp)
| DoInit (user device : string) (provisioned : result SecretRef) (clock : result Z) (r1 r2 : bytes)
| DoCreate (name : string) (random rnd : bytes)
| DoInvite (name : string) (r : DeviceRegistration) (rnd : bytes)
| DoAccept (b : bytes) (inviter : DeviceRegistration)
| DoRemove (name user device : string) (rnd : bytes)
| DoReconcile (name : string) (rnd : bytes)
| DoEncrypt (name : string) (e : ApplicationEvent) (rnd : bytes)
| DoMessage (name : string) (text nonce rnd : bytes)
| DoRelated (name : string) (r : Relation) (text nonce rnd : bytes)
| DoDecrypt (name : string) (b : bytes)
| DoStage (sequence : Z) (subject : string) (b : bytes)
| DoProcess (name : string)
| DoDisplayed (id : Z)
| DoSeal (name : string) (e : EphemeralEvent) (id nonce : bytes) (clock : result Z)
| DoOpen (name : string) (b : bytes) (clock instant : Z)
| DoReceipt (name : string) (e : AuthenticatedEvent) (instant : Z)
| DoRespond (name : string) (entropy : Z -> bytes * bytes)
| DoFlush (n : Network)
| DoResume (name : string) (rnd : bytes) (n : Network)
| DoSend (name : string) (text nonce r1 r2 : bytes) (n : Network).

Definition on_network {A} (n : Network) (m : M (World St) A) d : ClientDb St :=
  w_db (snd (m {| w_db := d; w_answers := net_answers n; w_trace := [] |})).
Definition chat_op (o : ChatOp) d : ClientDb St :=
  match o with
  | DoTrust op => trust_op capacity op d
  | DoInit user device p clock r1 r2 => snd (init capacity user device p clock r1 r2 d)
  | DoCreate name r rnd => snd (create_group capacity name r rnd d)
  | DoInvite name r rnd => snd (prepare_invitation capacity name r rnd d)
  | DoAccept b r => snd (accept_welcome capacity b r d)
  | DoRemove name user device rnd => snd (remove_member capacity name user device rnd d)
  | DoReconcile name rnd => snd (reconcile_revocations capacity name rnd d)
  | DoEncrypt name e rnd => snd (encrypt_event capacity name e rnd d)
  | DoMessage name text nonce rnd => snd (encrypt_message capacity name text nonce rnd d)
  | DoRelated name r text nonce rnd => snd (encrypt_related capacity name r text nonce rnd d)
  | DoDecrypt name b => snd (decrypt_message capacity name b d)
  | DoStage n s b => snd (stage_chat capacity n s b d)
  | DoProcess name => snd (process_history capacity name d)
  | DoDisplayed id => snd (mark_displayed id d)
  | DoSeal name e id nonce clock => snd (seal_ephemeral name e id nonce clock d)
  | DoOpen name b clock instant => snd (open_ephemeral_at name b clock instant d)
  | DoReceipt name e instant => snd (process_receipt name e instant d)
  | DoRespond name entropy => snd (respond_status capacity name entropy d)
  | DoFlush n =>
      on_network n (flush_outbox capacity (net_ask n) (net_refresh n)
                      (fst (net_audit n 0)) (snd (net_audit n 0))) d
  | DoResume name rnd n =>
      on_network n (resume capacity (net_ask n) (net_refresh n) name (net_audit n 0) (net_audit n 1)
                      (net_deliveries n) rnd) d
  | DoSend name text nonce r1 r2 n =>
      on_network n (send capacity (net_ask n) (net_refresh n) name text nonce r1 r2 (net_audit n 0)
                      (net_audit n 1) (net_audit n 2) (net_deliveries n)) d
  end.
Definition run_chat_ops (ops : list ChatOp) d : ClientDb St := fold_left (fun d o => chat_op o d) ops d.

Lemma on_network_kept {A} n (m : M (World St) A) d :
  keeps (world_kept capacity) m -> kept capacity None d (on_network n m d).
Proof. intros Hm. exact (Hm {| w_db := d; w_answers := net_answers n; w_trace := [] |}). Qed.

Lemma chat_op_kept o d : kept capacity None d (chat_op o d).
Proof.
  destruct o; simpl.
  - apply kept_trust_op.
  - apply kept_init.
  - apply kept_create_group.
  - apply kept_prepare_invitation.
  - apply kept_accept_welcome.
  - apply kept_remove_member.
  - apply kept_reconcile.
  - apply kept_encrypt_event.
  - apply kept_encrypt_message.
  - apply kept_encrypt_related.
  - apply kept_decrypt_message.
  - apply kept_stage_chat.
  - apply kept_process_history.
  - apply kept_mark_displayed.
  - apply kept_seal.
  - apply kept_open.
  - apply kept_process_receipt.
  - apply kept_respond_status.
  - apply on_network_kept, world_flush_outbox.
  - apply on_network_kept, world_resume.
  - apply on_network_kept, world_send.
Qed.
Lemma run_chat_kept ops d : kept capacity None d (run_chat_ops ops d).
Proof.
  unfold run_chat_ops. revert d. induction ops as [|o ops IH]; intros d; [done|]. simpl.
  etrans; [apply chat_op_kept|apply IH].
Qed.

(** C22. Nothing a device recorded is lost or rewritten, whatever happens to it
    later. After any sequence of operations, failed ones included: a queued
    message is still in the outbox with its subject and ciphertext, and is not
    queued again once sent; a message blocked after a revocation stays blocked;
    a staged delivery has its subject and ciphertext, and its outcome once it
    has one; a transcript entry has its ciphertext, author, text and direction,
    stays displayed, and its sequence number can only be found to be lower;
    event records, attachment manifests and joined groups are the same rows,
    and a device's receipt never goes back from read to delivered. *)
Theorem history_durable ops d :
  let d' := run_chat_ops ops d in
  (forall id r, outbox (chat d) !! id = Some r ->
     exists r', outbox (chat d') !! id = Some r' /\ ob_subject r' = ob_subject r /\
       ob_payload r' = ob_payload r /\ (ob_sent r = true -> ob_sent r' = true)) /\
  blocked_outbox (revocations d) ⊆ blocked_outbox (revocations d') /\
  (forall n r, chat_deliveries (chat d) !! n = Some r ->
     exists r', chat_deliveries (chat d') !! n = Some r' /\ dl_subject r' = dl_subject r /\
       dl_payload r' = dl_payload r /\ (dl_state r <> Pending -> dl_state r' = dl_state r)) /\
  (forall id t, transcript (chat d) !! id = Some t ->
     exists t', transcript (chat d') !! id = Some t' /\ transcript_kept id t t') /\
  (forall id e, message_events (events d) !! id = Some e -> message_events (events d') !! id = Some e) /\
  (forall k b, attachments_t (events d) !! k = Some b -> attachments_t (events d') !! k = Some b) /\
  (forall name g, groups_t (chat d) !! name = Some g -> groups_t (chat d') !! name = Some g) /\
  (forall k s, device_receipts (events d) !! k = Some s ->
     exists s', device_receipts (events d') !! k = Some s' /\ s <= s').
Proof.
  destruct (run_chat_kept ops d) as [[Hid Hg Ho Hb Hw Hrc Hdl Ht Hrm Hrr He Ha Hp] _].
  split_and!; [|done|..].
  - intros id r (r' & ? & ? & ? & ?)%Ho. eauto.
  - intros n r (r' & ? & ? & ? & Hs)%Hdl. exists r'. split_and!; [done..|]. by apply Hs.
  - intros id t (t' & ? & ?)%Ht. eauto.
  - by intros id e (? & ? & <-)%He.
  - by intros k b (? & ? & <-)%Ha.
  - by intros name g (? & ? & <-)%Hg.
  - intros k s (s' & ? & ?)%Hrr. eauto.
Qed.

(** C35. The tables of a device are bounded and their keys mean what they say,
    through any sequence of operations: the pending outbox fits the configured
    number and bytes plus the reserve of 32 packets for removals, every queued
    packet fits the transport and is queued once; no ciphertext is in the
    transcript twice and no two entries claim one sequence number; the number
    of groups is within the capacity and their subject and MLS identifiers are
    unique; every indexed attachment decodes to a valid manifest of its own
    identifier; and a receipt is delivered or read. *)
Theorem tables_wellformed ops d :
  chat_wf capacity d -> chat_wf capacity (run_chat_ops ops d).
Proof. apply run_chat_kept. Qed.
End history.
