(* ===== verification/GroupFacts.v ===== *)
(** * Who may change a group

    The coordinator is a function of the members and the revocations every
    device knows, and a commit from another device is accepted exactly when its
    author was allowed to make it. *)
From stdpp Require Import sorting.
From S2P Require Import Prelude External Wire Capacity Identity KvStore Merkle Transparency Mls ClientDb IdentityStore Revocation Groups Delivery.

(** ** Minima *)

Lemma min_of_spec l m : min_of l = Some m <-> m ∈ l /\ forall x, x ∈ l -> m <= x.
Proof.
  revert m. induction l as [|x l IH]; intros m; simpl.
  - split; [done|]. by intros [?%elem_of_nil _].
  - destruct (min_of l) as [m'|] eqn:Hl.
    + destruct (proj1 (IH m') eq_refl) as [Hin Hle]. split.
      * intros [= <-]. split.
        -- destruct (Z.min_spec x m') as [[_ ->]|[_ ->]]; [left|by right].
        -- intros y [->|Hy]%elem_of_cons; [lia|]. specialize (Hle y Hy). lia.
      * intros [Hm Hall]. f_equal.
        assert (m <= x) by (apply Hall; left). assert (m <= m') by (apply Hall; by right).
        apply elem_of_cons in Hm as [->|Hm]; [lia|]. specialize (Hle m Hm). lia.
    + assert (l = []) as ->.
      { destruct l as [|y l]; [done|]. simpl in Hl. by destruct (min_of l). }
      split.
      * intros [= <-]. split; [left|]. intros y ->%list_elem_of_singleton. lia.
      * by intros [->%list_elem_of_singleton _].
Qed.
Lemma min_of_None l : min_of l = None <-> l = [].
Proof. destruct l as [|x l]; simpl; [done|]. by destruct (min_of l). Qed.
#[export] Instance min_of_proper : Proper ((≡ₚ) ==> eq) min_of.
Proof.
  intros l l' Hl. apply option_eq. intros m. rewrite !min_of_spec. by setoid_rewrite Hl.
Qed.

(** ** Members *)

Section facts.
Context {St : Type} `{Pages (ClientDb St)} `{Mls St}.
Implicit Types (d : ClientDb St).

(** Leaf indices and signature keys identify members, as in every MLS group. *)
Definition members_distinct (g : MlsGroup) : Prop :=
  NoDup (m_index <$> g_members g) /\ NoDup (m_signature_key <$> g_members g).
Definition revoked_member (m : MlsMember) d : Prop := revoked_mls_key (m_signature_key m) d <> None.
#[local] Instance revoked_member_dec m d : Decision (revoked_member m d).
Proof. unfold revoked_member. apply _. Defined.

Lemma NoDup_fmap_inj {A B} (f : A -> B) l x y :
  NoDup (f <$> l) -> x ∈ l -> y ∈ l -> f x = f y -> x = y.
Proof.
  induction l as [|z l IH]; [by intros _ ?%elem_of_nil|]. simpl.
  intros [Hz Hn]%list.NoDup_cons Hx Hy Hf.
  apply elem_of_cons in Hx as [->|Hx], Hy as [->|Hy]; [done|..|by apply IH].
  - destruct Hz. rewrite Hf. by apply list_elem_of_fmap_2.
  - destruct Hz. rewrite <- Hf. by apply list_elem_of_fmap_2.
Qed.

Lemma elem_of_revoked_leaves g d i :
  i ∈ revoked_leaves g d <-> exists m, m ∈ g_members g /\ m_index m = i /\ revoked_member m d.
Proof.
  unfold revoked_leaves, revoked_member. rewrite list_elem_of_In, in_map_iff.
  setoid_rewrite filter_In. setoid_rewrite <- list_elem_of_In. split.
  - intros (m & Hi & Hm & Hr). exists m. split_and!; [done..|]. by case_match.
  - intros (m & Hm & Hi & Hr). exists m. split_and!; [done..|]. by case_match.
Qed.
Lemma revoked_leaves_NoDup g d : NoDup (m_index <$> g_members g) -> NoDup (revoked_leaves g d).
Proof.
  unfold revoked_leaves. induction (g_members g) as [|m l IH]; [by intros; constructor|].
  simpl. intros [Hm Hl]%list.NoDup_cons. case_match; [|by apply IH]. simpl. constructor; [|by apply IH].
  rewrite list_elem_of_In, in_map_iff. intros (m' & Hi & [Hm' _]%filter_In). destruct Hm.
  rewrite <- Hi. apply list_elem_of_fmap_2. by apply list_elem_of_In.
Qed.

Lemma find_unique {A} (p : A -> bool) l x :
  x ∈ l -> p x = true -> (forall y, y ∈ l -> p y = true -> y = x) -> List.find p l = Some x.
Proof.
  intros Hx Hp Hu. destruct (List.find p l) as [y|] eqn:Hf.
  - apply List.find_some in Hf as [Hy%list_elem_of_In Hpy]. by rewrite (Hu y).
  - apply list_elem_of_In in Hx. eapply List.find_none in Hf; [|done]. congruence.
Qed.
Lemma member_at_Some g i m :
  member_at i g = Some m -> m ∈ g_members g /\ m_index m = i.
Proof. intros [Hm%list_elem_of_In Hi%Z.eqb_eq]%List.find_some. done. Qed.
Lemma member_at_unique g m :
  members_distinct g -> m ∈ g_members g -> member_at (m_index m) g = Some m.
Proof.
  intros [Hi _] Hm. apply find_unique; [done|lia|].
  intros y Hy Hyi%Z.eqb_eq. by apply (NoDup_fmap_inj m_index (g_members g)).
Qed.
Lemma member_with_key_Some g k m :
  member_with_key k g = Some m -> m ∈ g_members g /\ m_signature_key m = k.
Proof. intros [Hm%list_elem_of_In Hi%bool_decide_eq_true_1]%List.find_some. done. Qed.
Lemma member_with_key_spec g k m :
  members_distinct g ->
  member_with_key k g = Some m <-> m ∈ g_members g /\ m_signature_key m = k.
Proof.
  intros [_ Hk]. split; [apply member_with_key_Some|]. intros [Hm <-].
  apply find_unique; [done|by apply bool_decide_eq_true_2|].
  intros y Hy Hyk%bool_decide_eq_true_1. by apply (NoDup_fmap_inj m_signature_key (g_members g)).
Qed.

Lemma elem_of_active g d i :
  i ∈ active_leaves g (revoked_leaves g d) <->
  (exists m, m ∈ g_members g /\ m_index m = i) /\ i ∉ revoked_leaves g d.
Proof.
  unfold active_leaves. rewrite list_elem_of_In, filter_In, in_map_iff.
  setoid_rewrite <- list_elem_of_In. split.
  - intros [(m & Hi & Hm) Hn]. bool_prop. split; [eauto|done].
  - intros [(m & Hm & Hi) Hn]. split; [eauto|]. by rewrite bool_decide_eq_false_2.
Qed.
Lemma not_revoked_leaf g d m :
  members_distinct g -> m ∈ g_members g ->
  m_index m ∉ revoked_leaves g d <-> ~ revoked_member m d.
Proof.
  intros [Hi _] Hm. rewrite elem_of_revoked_leaves. split.
  - intros Hn Hr. destruct Hn. by exists m.
  - intros Hn (m' & Hm' & Hx & Hr). destruct Hn.
    by rewrite (NoDup_fmap_inj m_index (g_members g) m m').
Qed.

(** ** The coordinator *)

(** What the coordinator is: the member with the stored key if it is not
    revoked, otherwise the lowest leaf that is not revoked. *)
Lemma coordinator_spec g d i :
  members_distinct g ->
  coordinator g d = Some i <->
  exists m, m ∈ g_members g /\ m_index m = i /\ ~ revoked_member m d /\
    (stored_coordinator g d = Some (m_signature_key m) \/
     (forall m', m' ∈ g_members g -> stored_coordinator g d = Some (m_signature_key m') ->
        revoked_member m' d) /\
     (forall m', m' ∈ g_members g -> ~ revoked_member m' d -> i <= m_index m')).
Proof.
  intros Hd.
  set (fallback := min_of (active_leaves g (revoked_leaves g d))).
  assert (forall i, fallback = Some i <-> exists m, m ∈ g_members g /\ m_index m = i /\
    ~ revoked_member m d /\ forall m', m' ∈ g_members g -> ~ revoked_member m' d -> i <= m_index m') as Hf.
  { intros j. unfold fallback. rewrite min_of_spec. split.
    - intros [[(m & Hm & <-) Hn]%elem_of_active Hle]. exists m. rewrite not_revoked_leaf in Hn by done.
      split_and!; try done. intros m' Hm' Hr'. apply Hle, elem_of_active. split; [eauto|].
      by rewrite not_revoked_leaf.
    - intros (m & Hm & <- & Hn & Hle). split.
      + apply elem_of_active. split; [eauto|]. by rewrite not_revoked_leaf.
      + intros x [(m' & Hm' & <-) Hr']%elem_of_active. apply Hle; [done|].
        by rewrite not_revoked_leaf in Hr'. }
  unfold coordinator. fold fallback. destruct (stored_coordinator g d) as [k|] eqn:Hst.
  2: { rewrite Hf. split; intros (m & ?); exists m; naive_solver. }
  destruct (member_with_key k g) as [m|] eqn:Hk.
  - apply member_with_key_spec in Hk as [Hm <-]; [|done].
    assert (forall m', m' ∈ g_members g -> m_signature_key m' = m_signature_key m -> m' = m) as Huniq.
    { intros m' Hm' Heq. destruct Hd as [_ Hk]. by apply (NoDup_fmap_inj m_signature_key (g_members g)). }
    destruct (bool_decide (m_index m ∈ revoked_leaves g d)) eqn:Hr; bool_prop.
    + assert (revoked_member m d) as Hrm.
      { destruct (decide (revoked_member m d)) as [?|Hn]; [done|].
        by rewrite <- (not_revoked_leaf g) in Hn. }
      rewrite Hf. split; intros (m' & Hm' & Hi & Hn & Hrest); exists m'; split_and!; try done.
      * right. split; [|done]. intros m0 Hm0 [= Hk]. by rewrite (Huniq m0).
      * destruct Hrest as [[= Hk]|[_ ?]]; [|done]. by rewrite (Huniq m') in Hn.
    + rewrite not_revoked_leaf in Hr by done. split.
      * intros [= <-]. exists m. split_and!; try done. by left.
      * intros (m' & Hm' & <- & Hn & [[= Hk]|[Hall _]]); [by rewrite (Huniq m')|].
        by destruct (Hr (Hall m Hm eq_refl)).
  - assert (forall m', m' ∈ g_members g -> k <> m_signature_key m') as Hno.
    { intros m' Hm' ->.
      by rewrite (proj2 (member_with_key_spec g (m_signature_key m') m' Hd)) in Hk. }
    rewrite Hf. split; intros (m & Hm & Hi & Hn & Hrest); exists m; split_and!; try done.
    + right. split; [|done]. intros m' Hm' [= Hk']. by destruct (Hno m').
    + destruct Hrest as [[= Hk']|[_ ?]]; [|done]. by destruct (Hno m).
Qed.

Lemma coordinator_None g d :
  members_distinct g ->
  coordinator g d = None <-> forall m, m ∈ g_members g -> revoked_member m d.
Proof.
  intros Hd. split.
  - intros Hn m Hm. destruct (decide (revoked_member m d)) as [?|Hr]; [done|exfalso].
    assert (m_index m ∈ active_leaves g (revoked_leaves g d)) as Ha.
    { apply elem_of_active. split; [eauto|]. by rewrite not_revoked_leaf. }
    assert (min_of (active_leaves g (revoked_leaves g d)) <> None) as Hmin.
    { rewrite min_of_None. intros Hnil. rewrite Hnil in Ha. by apply elem_of_nil in Ha. }
    unfold coordinator in Hn. by repeat case_match.
  - intros Hall. destruct (coordinator g d) as [i|] eqn:Hc; [|done].
    apply coordinator_spec in Hc as (m & Hm & _ & Hr & _); [|done]. by destruct (Hr (Hall m Hm)).
Qed.

(** Devices agree on the coordinator. Two devices that see the same members
    (in whatever order their MLS libraries list them), hold the same stored
    coordinator for the group and know which members are revoked elect the same
    leaf. It is never the leaf of a revoked member, and there is none only when
    every member is revoked. *)
Theorem coordinator_agreed g g' d d' :
  members_distinct g -> g_members g ≡ₚ g_members g' ->
  stored_coordinator g d = stored_coordinator g' d' ->
  (forall m, m ∈ g_members g -> revoked_member m d <-> revoked_member m d') ->
  coordinator g d = coordinator g' d' /\
  (forall i, coordinator g d = Some i ->
     exists m, m ∈ g_members g /\ m_index m = i /\ ~ revoked_member m d) /\
  (coordinator g d = None <-> forall m, m ∈ g_members g -> revoked_member m d).
Proof.
  intros Hd Hp Hst Hr.
  assert (members_distinct g') as Hd' by (unfold members_distinct; by rewrite <- Hp).
  split_and!; [|intros i (m & ? & ? & ? & _)%coordinator_spec; eauto|by apply coordinator_None].
  apply option_eq. intros i. rewrite !coordinator_spec by done. rewrite <- Hst.
  setoid_rewrite <- Hp. split; intros (m & Hm & Hi & Hn & Hor); exists m; split_and!; try done.
  - by rewrite <- Hr.
  - destruct Hor as [?|[Hs Hle]]; [by left|right]. split.
    + intros m' Hm' Hk. apply Hr; [done|]. by apply Hs.
    + intros m' Hm' Hn'. apply Hle; [done|]. by rewrite Hr.
  - by rewrite Hr.
  - destruct Hor as [?|[Hs Hle]]; [by left|right]. split.
    + intros m' Hm' Hk. apply Hr; [done|]. by apply Hs.
    + intros m' Hm' Hn'. apply Hle; [done|]. by rewrite <- Hr.
Qed.

(** ** Commits from other devices *)

(** What the author of a commit is allowed: the stored coordinator anything the
    header checks let through, the elected one only to remove exactly the
    revoked leaves. *)
Definition commit_allowed (g : MlsGroup) (sender : MlsMember) (c : StagedCommit) d : Prop :=
  stored_coordinator g d = Some (m_signature_key sender) \/
  (coordinator g d = Some (m_index sender) /\ revoked_leaves g d <> [] /\
   remove_proposals c ≡ₚ revoked_leaves g d /\ add_proposals c = 0).

Lemma forallb_elem (l l' : list Z) :
  forallb (fun i => bool_decide (i ∈ l)) l' = true <-> l' ⊆ l.
Proof.
  rewrite forallb_forall. split.
  - intros Hall i Hi%list_elem_of_In. apply Hall in Hi. by bool_prop.
  - intros Hsub i Hi%list_elem_of_In. apply bool_decide_eq_true_2. by apply Hsub.
Qed.
(** Enough members in as many places is a permutation. *)
Lemma same_length_perm (l l' : list Z) :
  NoDup l -> zlen l' = zlen l -> l ⊆ l' -> l' ≡ₚ l.
Proof.
  intros Hn Hz Hs. symmetry. apply NoDup_Permutation_bis; [by apply NoDup_ListNoDup|unfold zlen in Hz; lia|].
  intros x Hx%list_elem_of_In. by apply list_elem_of_In, Hs.
Qed.

(** C18. A commit is accepted exactly when its author was allowed to make it. The
    author is a member of the group as the device has it; an update path in the
    commit is signed for the author's own key and credential; every proposal is
    an addition or a removal; a revoked author's commit comes no later than the
    revocation's cutoff; and the author is the group's stored coordinator, or
    the elected one, in which case the commit removes exactly the leaves of the
    revoked members, all of them, and does nothing else. *)
Theorem commit_accepted descriptor g index c sequence d :
  load_group descriptor d = Ok g -> members_distinct g ->
  validate_commit_author descriptor index c sequence d = Ok tt <->
  exists sender, sender ∈ g_members g /\ m_index sender = index /\
    (forall k credential, update_path c = Some (k, credential) ->
       k = m_signature_key sender /\ credential = m_credential sender) /\
    queued_proposals c = add_proposals c + zlen (remove_proposals c) /\
    (forall cutoff, revoked_mls_key (m_signature_key sender) d = Some cutoff -> sequence <= cutoff) /\
    commit_allowed g sender c d.
Proof.
  intros Hl Hd. unfold validate_commit_author. rewrite Hl. simpl.
  assert (forall sender, sender ∈ g_members g ->
    (stored_coordinator g d ≫= (fun k => m_index <$> member_with_key k g)) = Some (m_index sender) <->
    stored_coordinator g d = Some (m_signature_key sender)) as Hleader.
  { intros sender Hs. destruct (stored_coordinator g d) as [k|]; simpl; [|done]. split.
    - destruct (member_with_key k g) as [m|] eqn:Hk; simpl; [|done]. intros [= Hi].
      apply member_with_key_Some in Hk as [Hm <-]. destruct Hd as [Hdi _].
      by rewrite (NoDup_fmap_inj m_index (g_members g) m sender).
    - intros [= ->]. by rewrite (proj2 (member_with_key_spec g _ sender Hd)). }
  split.
  - intros Hv. apply rbind_Ok in Hv as (sender & Hat%ok_or_Ok & Hv).
    apply member_at_Some in Hat as [Hm Hi].
    apply rbind_Ok in Hv as ([] & Hpath%require_Ok & Hv).
    apply rbind_Ok in Hv as ([] & Hq%require_Ok & Hv).
    apply rbind_Ok in Hv as ([] & Hcut%require_Ok & Hv).
    exists sender. split_and!; try done; [|by bool_prop| |].
    + intros k credential Hu. rewrite Hu in Hpath. by bool_prop.
    + intros cutoff Hc. rewrite Hc in Hcut. by bool_prop.
    + destruct (bool_decide (_ = Some index)) eqn:Hlead; bool_prop.
      * left. subst index. by apply Hleader.
      * right. apply require_Ok in Hv. bool_prop. rewrite Hi. split_and!; try done.
        -- apply same_length_perm; [by apply revoked_leaves_NoDup; destruct Hd|done|by apply forallb_elem].
        -- lia.
  - intros (sender & Hm & <- & Hpath & Hq & Hcut & Hall).
    rewrite member_at_unique by done. simpl.
    replace (match update_path c with Some (k, credential) => _ | None => true end) with true.
    2: { destruct (update_path c) as [[k credential]|]; [|done]. destruct (Hpath _ _ eq_refl) as [-> ->].
         by rewrite !bool_decide_eq_true_2. }
    simpl. rewrite (proj2 (Z.eqb_eq _ _) Hq). simpl.
    replace (match revoked_mls_key (m_signature_key sender) d with Some _ => _ | None => true end) with true.
    2: { destruct (revoked_mls_key _ d) as [cutoff|]; [|done]. symmetry. apply Z.leb_le. by apply Hcut. }
    simpl. destruct (bool_decide (_ = Some (m_index sender))) eqn:Hlead; bool_prop; [done|].
    destruct Hall as [Hst|(Hc & Hne & Hp & Ha)]; [by destruct Hlead; apply Hleader|].
    rewrite Hc, !bool_decide_eq_true_2, bool_decide_eq_false_2 by done.
    assert (zlen (remove_proposals c) = zlen (revoked_leaves g d)) as Hz by (by rewrite Hp).
    rewrite (proj2 (Z.eqb_eq _ _) Hz), (proj2 (forallb_elem _ _)).
    2: { intros i. by rewrite Hp. }
    by rewrite (proj2 (Z.eqb_eq (queued_proposals c) _)) by lia.
Qed.
End facts.
