(* ===== verification/MessageFacts.v ===== *)
(** * Sending, receiving and draining

    What a successful encryption did, what an accepted message is, and that
    processing the staged deliveries of a group always comes to an end: each
    pending delivery is taken in stream order and settled, or a failure of the
    device itself stops the loop with the delivery still pending. *)
From stdpp Require Import sorting.
From S2P Require Import Prelude External Wire Capacity Identity Registry Policy KvStore Merkle Transparency Secrets Mls ClientDb IdentityStore Revocation Trust TrustFacts Groups Delivery Attachments Relationships Messaging Ephemeral Flush ChatKeeps GroupFacts.

Section facts.
Context {St : Type} `{Pages (ClientDb St)} `{Mls St} (capacity : Capacity).
Context `{NKeys} `{MlsPackages} `{Seeds} `{Credentials} `{Json SecretRef} `{Base32} `{Sha256}
  `{Postcard DeviceRegistration} `{Postcard RecoveryStatus} `{Postcard Envelope}
  `{Postcard RegistrationPayload} `{Postcard Intent} `{Postcard WelcomeRelay}
  `{Postcard Manifest} `{Postcard ApplicationEvent} `{Postcard ApplicationTuple} `{Postcard LegacyTuple}.
Implicit Types (d : ClientDb St).

(** ** What the steps did *)

Lemma set_cached_key_same k d : cached_key d = Some k -> set_cached_key (Some k) d = d.
Proof. destruct d; simpl. by intros ->. Qed.
Lemma store_nkey_Ok key d d' : store_nkey d = (Ok key, d') -> d' = set_cached_key (Some key) d.
Proof.
  unfold store_nkey. intros (cached & s & [-> ->]%gets_Ok & Hk)%bind_Ok.
  destruct (cached_key d) as [k|] eqn:Hc.
  - apply ret_Ok in Hk as [-> ->]. by rewrite set_cached_key_same.
  - apply bind_Ok in Hk as (row & s1 & [_ ->]%gets_Ok & Hk).
    apply bind_Ok in Hk as (encoded & s2 & [_ ->]%lift_Ok & Hk).
    apply bind_Ok in Hk as (reference & s3 & [_ ->]%lift_Ok & Hk).
    apply bind_Ok in Hk as (own & s4 & [_ ->]%gets_Ok & Hk).
    apply bind_Ok in Hk as (bound & s5 & [_ ->]%lift_Ok & Hk).
    apply bind_Ok in Hk as ([] & s6 & [_ ->]%ensure_Ok & Hk).
    apply bind_Ok in Hk as (secret & s7 & [_ ->]%lift_Ok & Hk).
    apply bind_Ok in Hk as (key' & s8 & [_ ->]%lift_Ok & Hk).
    apply bind_Ok in Hk as ([] & s9 & ->%modify_Ok & [-> ->]%ret_Ok). done.
Qed.
(** The key depends only on the identity and the cache. *)
Lemma store_nkey_frame d d' :
  local_identity d = local_identity d' -> cached_key d = cached_key d' ->
  fst (store_nkey d) = fst (store_nkey d').
Proof.
  intros Hi Hc. cbv [store_nkey bind gets lift ensure modify ret]. rewrite Hc.
  destruct (cached_key d'); [done|].
  assert (registration d = registration d') as -> by (unfold registration; by rewrite Hi).
  rewrite Hi. by repeat case_match.
Qed.
Lemma ensure_messaging_Ok u d d' :
  ensure_messaging_identity d = (Ok u, d') -> d' = d /\ recovery_status d = Ok None.
Proof.
  unfold ensure_messaging_identity. intros (r & s & [-> ->]%gets_Ok & Hk)%bind_Ok.
  apply bind_Ok in Hk as (o & s1 & [Hr ->]%lift_Ok & [Ho ->]%ensure_Ok).
  split; [done|]. by destruct o.
Qed.
Lemma signer_Ok x d d' : signer d = (Ok x, d') -> d' = d /\ recovery_status d = Ok None.
Proof.
  unfold signer. intros ([] & s & [-> Hr]%ensure_messaging_Ok & Hk)%bind_Ok.
  apply bind_Ok in Hk as (r & s1 & [_ ->]%gets_Ok & Hk).
  apply bind_Ok in Hk as (own & s2 & [_ ->]%lift_Ok & Hk).
  apply bind_Ok in Hk as (package & s3 & [_ ->]%lift_Ok & Hk).
  apply bind_Ok in Hk as (p & s4 & [_ ->]%gets_Ok & Hk).
  apply bind_Ok in Hk as (sg & s5 & [_ ->]%lift_Ok & [_ ->]%ret_Ok). done.
Qed.
(** A device sends only while it is itself in good standing, in an active group
    that contains no revoked member. *)
Lemma ensure_can_send_Ok g u d d' :
  ensure_can_send g d = (Ok u, d') ->
  exists key, d' = set_cached_key (Some key) d /\ fst (store_nkey d) = Ok key /\
    is_revoked (public_key key) d = false /\ is_active g = true /\
    forall m, m ∈ g_members g -> ~ revoked_member m d.
Proof.
  unfold ensure_can_send. intros (key & s & Hkey & Hk)%bind_Ok.
  pose proof (store_nkey_Ok _ _ _ Hkey) as ->.
  apply bind_Ok in Hk as (revoked & s1 & [-> ->]%gets_Ok & Hk).
  apply bind_Ok in Hk as ([] & s2 & [Hok ->]%ensure_Ok & Hk).
  apply bind_Ok in Hk as (leaves & s3 & [-> ->]%gets_Ok & [Hl ->]%ensure_Ok).
  bool_prop. exists key. split_and!; try done.
  - by rewrite Hkey.
  - intros m Hm Hr.
    assert (m_index m ∈ revoked_leaves g (set_cached_key (Some key) d)) as Hin.
    { apply elem_of_revoked_leaves. by exists m. }
    rewrite Hl in Hin. by apply elem_of_nil in Hin.
Qed.
Lemma queue_Ok s b u d d' :
  queue capacity s b d = (Ok u, d') ->
  d' = set_chat (set_outbox (insert (next_rowid (outbox (chat d)))
         {| ob_subject := s; ob_payload := b; ob_sent := false |})) d /\
  autocommit d = false /\ zlen b <= MAX_WIRE.
Proof.
  unfold queue. intros ([] & s1 & [Hz ->]%ensure_Ok & Hk)%bind_Ok.
  apply bind_Ok in Hk as (auto & s2 & [-> ->]%gets_Ok & Hk).
  apply bind_Ok in Hk as ([] & s3 & [Ha ->]%ensure_Ok & Hk).
  apply bind_Ok in Hk as (recovery & s4 & [_ ->]%gets_Ok & Hk).
  apply bind_Ok in Hk as ([] & s5 & [= _ <-] & Hk).
  apply bind_Ok in Hk as (waiting & s6 & [_ ->]%gets_Ok & Hk).
  apply bind_Ok in Hk as ([] & s7 & [_ ->]%ensure_Ok & Hk).
  apply bind_Ok in Hk as (table & s8 & [-> ->]%gets_Ok & Hk).
  apply bind_Ok in Hk as ([] & s9 & [_ ->]%lift_Ok & ->%modify_Ok). bool_prop. done.
Qed.
Lemma insert_transcript_Ok t row d d' :
  insert_transcript t d = (Ok row, d') ->
  row = next_rowid (transcript (chat d)) /\ d' = set_chat (set_transcript (insert row t)) d.
Proof.
  unfold insert_transcript. intros (table & s & [-> ->]%gets_Ok & Hk)%bind_Ok.
  apply bind_Ok in Hk as ([] & s1 & [_ ->]%lift_Ok & Hk).
  by apply bind_Ok in Hk as ([] & s2 & ->%modify_Ok & [-> ->]%ret_Ok).
Qed.
Lemma index_receipt_Ok id gid b u d d' :
  index_receipt id gid b d = (Ok u, d') ->
  exists f, d' = set_events (set_receipt_messages f) d.
Proof.
  unfold index_receipt. intros (r & s & [_ ->]%lift_Ok & ->%modify_Ok)%bind_Ok. by eexists.
Qed.
Lemma index_attachment_Ok gid b u d d' :
  index_attachment gid b d = (Ok u, d') ->
  exists f, d' = set_events (set_attachments f) d.
Proof.
  unfold index_attachment. destruct (decode_manifest b) as [[m|]|]; [| |done].
  - intros (r & s & [_ ->]%gets_Ok & Hk)%bind_Ok.
    apply bind_Ok in Hk as ([] & s1 & [_ ->]%lift_Ok & ->%modify_Ok). by eexists.
  - intros [_ ->]%ret_Ok. exists id. by destruct d as [? ? ? ? [] ? ? ? ? ? ?].
Qed.
(** The event's row, and the transcript row with everything but its display. *)
Lemma index_application_Ok row gid sender b e text u d d' :
  index_application row gid sender b e text d = (Ok u, d') ->
  exists id e' bytes p,
    event_identity gid sender b e text = Ok (id, e') /\ to_allocvec e' = Ok bytes /\
    message_events (events d) !! row = None /\
    chat d' = set_transcript (update_where p (fun t =>
      {| tr_gid := tr_gid t; tr_payload := tr_payload t; tr_sender := tr_sender t;
         tr_plaintext := tr_plaintext t; tr_outgoing := tr_outgoing t;
         tr_sequence := tr_sequence t; tr_displayed := true |})) (chat d) /\
    message_events (events d') = <[row := {| ev_gid := gid; ev_message_id := id_text id;
      ev_target := (id_text ∘ target) <$> ae_relation e'; ev_kind := event_kind e';
      ev_counter := ae_counter e'; ev_event := bytes |}]> (message_events (events d)) /\
    revocations d' = revocations d.
Proof.
  unfold index_application. intros ([id e'] & s & [Hi ->]%lift_Ok & Hk)%bind_Ok.
  apply bind_Ok in Hk as (bytes & s1 & [Hb ->]%lift_Ok & Hk).
  apply bind_Ok in Hk as (table & s2 & [-> ->]%gets_Ok & Hk).
  apply bind_Ok in Hk as (table' & s3 & [[Hrow ->]%insert_row_Ok ->]%lift_Ok & Hk).
  apply bind_Ok in Hk as ([] & s4 & ->%modify_Ok & ->%modify_Ok).
  do 4 eexists. split_and!; done.
Qed.
Lemma provider_Ok {A} (m : M St A) x d d' :
  provider m d = (Ok x, d') -> exists s, m (mls d) = (Ok x, s) /\ d' = set_mls (fun _ => s) d.
Proof. unfold provider. destruct (m (mls d)) as [r s] eqn:Hm. intros [= -> <-]. eauto. Qed.
Lemma when_Ok {S} b (m : M S unit) u s s' : when b m s = (Ok u, s') -> (b = true /\ m s = (Ok u, s')) \/ s' = s.
Proof. destruct b; simpl; [by left|]. intros [_ ->]%ret_Ok. by right. Qed.

(** ** Encryption *)

Lemma encrypt_event_Ok name e rnd d b d' :
  encrypt_event capacity name e rnd d = (Ok b, d') ->
  exists descriptor g key application sg sender row t,
    group name d = Ok descriptor /\ load_group descriptor d = Ok g /\
    fst (store_nkey d) = Ok key /\ is_revoked (public_key key) d = false /\
    is_active g = true /\ 2 <= zlen (g_members g) /\
    (forall m, m ∈ g_members g -> ~ revoked_member m d) /\
    validate_event e = Ok tt /\ event_wire e = Ok application /\
    fst (create_message sg g application rnd (mls d)) = Ok b /\ zlen b <= MAX_WIRE /\
    outbox (chat d') = <[next_rowid (outbox (chat d)) :=
      {| ob_subject := subject "message" descriptor; ob_payload := b; ob_sent := false |}]> (outbox (chat d)) /\
    own_name d = Ok sender /\ row = next_rowid (transcript (chat d)) /\
    transcript (chat d') !! row = Some t /\ tr_payload t = b /\ tr_sender t = Some sender /\
    tr_plaintext t = Some (event_transcript e) /\ tr_gid t = grp_gid descriptor /\ tr_outgoing t = true /\
    (exists r, message_events (events d') !! row = Some r /\ ev_gid r = grp_gid descriptor /\
       to_allocvec e = Ok (ev_event r) /\ ev_counter r = ae_counter e).
Proof.
  unfold encrypt_event. intros (_ & d1 & Hrun & _ & _ & ->)%transaction_budget_Ok.
  unfold encrypt_event_inner in Hrun.
  apply bind_Ok in Hrun as (application & s1 & [Hw ->]%lift_Ok & Hk).
  apply bind_Ok in Hk as (r & s2 & [-> ->]%gets_Ok & Hk).
  apply bind_Ok in Hk as (descriptor & s3 & [Hg ->]%lift_Ok & Hk).
  apply bind_Ok in Hk as ([sg credential] & s4 & [-> _]%signer_Ok & Hk).
  apply bind_Ok in Hk as ([] & s5 & Ha & Hk).
  set (d0 := set_recovery false (set_autocommit false d)) in *.
  assert (exists f, s5 = set_events f d0) as [f ->].
  { apply when_Ok in Ha as [[_ Ha]| ->]; [apply index_attachment_Ok in Ha as [f ->]; by eexists|].
    exists id. by destruct d. }
  apply bind_Ok in Hk as (r & s6 & [-> ->]%gets_Ok & Hk).
  apply bind_Ok in Hk as (g & s7 & [Hl ->]%lift_Ok & Hk).
  apply bind_Ok in Hk as ([] & s8 & (key & -> & Hkey & Hrev & Hact & Hmem)%ensure_can_send_Ok & Hk).
  apply bind_Ok in Hk as ([] & s9 & [Htwo ->]%ensure_Ok & Hk).
  apply bind_Ok in Hk as (b' & s10 & (st & Hc & ->)%provider_Ok & Hk).
  apply bind_Ok in Hk as ([] & s11 & (-> & _ & Hz)%queue_Ok & Hk).
  apply bind_Ok in Hk as (r & s12 & [-> ->]%gets_Ok & Hk).
  apply bind_Ok in Hk as (sender & s13 & [Hs ->]%lift_Ok & Hk).
  apply bind_Ok in Hk as (row & s14 & [-> ->]%insert_transcript_Ok & Hk).
  apply bind_Ok in Hk as ([] & s15 & [fr ->]%index_receipt_Ok & Hk).
  apply bind_Ok in Hk as ([] & s16 & (id & e' & eb & p & Hid & Heb & _ & Hch & Hev & _)%index_application_Ok & Hk).
  apply ret_Ok in Hk as [-> ->].
  unfold event_identity in Hid. inv_ok. simpl in Hch, Hev. bool_prop.
  exists descriptor, g, key, application, sg, sender. do 2 eexists.
  pose proof Hw as Hv. apply rbind_Ok in Hv as ([] & Hv & _).
  split_and!; try done.
  - by rewrite <- Hkey; apply store_nkey_frame.
  - exact (f_equal fst Hc).
  - simpl. by rewrite Hch.
  - simpl. rewrite Hch. simpl. rewrite lookup_update_where, lookup_insert_eq. reflexivity.
  - simpl. by case_match.
  - simpl. by case_match.
  - simpl. by case_match.
  - simpl. by case_match.
  - simpl. by case_match.
  - eexists. split_and!; [simpl; rewrite Hev; by rewrite lookup_insert_eq|done..].
Qed.
(** C19. A message leaves this device only when it may. When an encryption
    succeeds: the device is not itself revoked, its group is active, has at
    least two members and none of them is revoked; the event is a valid one and
    the ciphertext is the library's over its canonical encoding. In the same
    transaction, exactly one row was added to the outbox, last and unsent, and
    the transcript and the event index record the same message under one new
    row: this ciphertext, this device as its author, the event's text. *)
Theorem encrypt_event_spec name e rnd d b d' :
  encrypt_event capacity name e rnd d = (Ok b, d') ->
  exists descriptor g key application sg sender row t,
    group name d = Ok descriptor /\ load_group descriptor d = Ok g /\
    fst (store_nkey d) = Ok key /\ is_revoked (public_key key) d = false /\
    is_active g = true /\ 2 <= zlen (g_members g) /\
    (forall m, m ∈ g_members g -> ~ revoked_member m d) /\
    validate_event e = Ok tt /\ event_wire e = Ok application /\
    fst (create_message sg g application rnd (mls d)) = Ok b /\ zlen b <= MAX_WIRE /\
    outbox (chat d') = <[next_rowid (outbox (chat d)) :=
      {| ob_subject := subject "message" descriptor; ob_payload := b; ob_sent := false |}]> (outbox (chat d)) /\
    own_name d = Ok sender /\ row = next_rowid (transcript (chat d)) /\
    transcript (chat d') !! row = Some t /\ tr_payload t = b /\ tr_sender t = Some sender /\
    tr_plaintext t = Some (event_transcript e) /\ tr_gid t = grp_gid descriptor /\ tr_outgoing t = true /\
    (exists r, message_events (events d') !! row = Some r /\ ev_gid r = grp_gid descriptor /\
       to_allocvec e = Ok (ev_event r) /\ ev_counter r = ae_counter e).
Proof. exact (encrypt_event_Ok name e rnd d b d'). Qed.

(** ** Draining the staged deliveries *)

Definition same_deliveries d d' : Prop := chat_deliveries (chat d') = chat_deliveries (chat d).
#[local] Instance same_deliveries_preorder : PreOrder same_deliveries.
Proof. split; [done|]. intros a b c. unfold same_deliveries. congruence. Qed.
Ltac other_table := apply keeps_modify; intros ?; reflexivity.

#[local] Hint Extern 1 (keeps same_deliveries (modify _)) => other_table : keeps.
#[local] Hint Extern 1 (keeps same_deliveries (provider _)) => by apply keeps_provider : keeps.

Lemma deliveries_refresh g : keeps same_deliveries (refresh_coordinator g).
Proof.
  intros d. unfold refresh_coordinator.
  destruct (match stored_coordinator g d with Some _ => _ | None => _ end); [done|].
  destruct (coordinator g d); [|done]. destruct (member_at _ g); [|done].
  match goal with |- same_deliveries d (snd (?m d)) => cut (keeps same_deliveries m); [by intros Hk|] end.
  keeps_auto.
Qed.
Lemma deliveries_block : keeps same_deliveries block_revoked_outbox.
Proof.
  unfold block_revoked_outbox, block_group. keeps_auto. apply keeps_for_each; [apply _|].
  intros g. keeps_auto.
Qed.
Lemma deliveries_insert_transcript t : keeps same_deliveries (insert_transcript t).
Proof. unfold insert_transcript. keeps_auto. Qed.
Lemma deliveries_lower_sequence p n : keeps same_deliveries (lower_sequence p n).
Proof. unfold lower_sequence. keeps_auto. Qed.
Lemma deliveries_index_attachment gid b : keeps same_deliveries (index_attachment gid b).
Proof. unfold index_attachment. keeps_auto. Qed.
#[local] Hint Resolve deliveries_refresh deliveries_block deliveries_insert_transcript
  deliveries_lower_sequence deliveries_index_attachment : keeps.
Lemma deliveries_decrypt name b : keeps same_deliveries (decrypt_inner name b).
Proof.
  unfold decrypt_inner, process, insert_received, index_receipt, index_application. keeps_auto.
Qed.
Lemma deliveries_handshake name b n : keeps same_deliveries (process_handshake name b n).
Proof. unfold process_handshake, process, insert_received. keeps_auto. Qed.
#[local] Hint Resolve deliveries_decrypt deliveries_handshake : keeps.

Definition settle (n : Z) (st : DeliveryState) (m : gmap Z Delivery) : gmap Z Delivery :=
  update_where (fun k _ => k =? n)
    (fun r => {| dl_subject := dl_subject r; dl_payload := dl_payload r; dl_state := st |}) m.

(** A delivery that was processed is settled, and only it. *)
Lemma process_delivery_settles name g n r x d d' :
  process_delivery name g n r d = (Ok x, d') ->
  chat_deliveries (chat d') = settle n ProcessedDelivery (chat_deliveries (chat d)).
Proof.
  unfold process_delivery. intros (e & s & [-> ->]%gets_Ok & Hk)%bind_Ok.
  apply bind_Ok in Hk as (old & s1 & [_ ->]%lift_Ok & Hk).
  destruct (old || _).
  - apply bind_Ok in Hk as ([] & s2 & Hm & Hk).
    apply bind_Ok in Hk as ([] & s3 & ->%modify_Ok & [_ ->]%ret_Ok).
    assert (keeps same_deliveries (when (negb old) (process_handshake name (dl_payload r) n))) as Hs by keeps_auto.
    specialize (Hs d). rewrite Hm in Hs. unfold same_deliveries in Hs. simpl in *. by rewrite Hs.
  - apply bind_Ok in Hk as (message & s2 & Hm & Hk).
    apply bind_Ok in Hk as (kept & s3 & [-> ->]%gets_Ok & Hk).
    apply bind_Ok in Hk as (own & s4 & [-> ->]%gets_Ok & Hk).
    apply bind_Ok in Hk as ([] & s5 & Hi & Hk).
    apply bind_Ok in Hk as ([] & s6 & Hl & Hk).
    apply bind_Ok in Hk as ([] & s7 & ->%modify_Ok & [_ ->]%ret_Ok).
    pose proof (deliveries_decrypt name (dl_payload r) d) as Hs. rewrite Hm in Hs.
    assert (same_deliveries s5 s6) as Hs2.
    { match type of Hl with lower_sequence ?p _ _ = _ => pose proof (deliveries_lower_sequence p n s5) as Hk end.
      by rewrite Hl in Hk. }
    assert (same_deliveries s2 s5) as Hs1.
    { match type of Hi with ?m s2 = _ => assert (keeps same_deliveries m) as Hk by keeps_auto end.
      specialize (Hk s2). by rewrite Hi in Hk. }
    unfold same_deliveries in *. simpl in *. by rewrite Hs2, Hs1, Hs.
Qed.
Lemma settle_pending g n st d d' r :
  chat_deliveries (chat d) !! n = Some r -> is_pending g r = true -> st <> Pending ->
  chat_deliveries (chat d') = settle n st (chat_deliveries (chat d)) ->
  (length (pending_sequences g d') < length (pending_sequences g d))%nat.
Proof.
  intros Hn Hp Hst Hd. unfold pending_sequences. rewrite !length_map, Hd.
  rewrite (rows_perm _ (fun k r => is_pending g r && negb (k =? n)) (chat_deliveries (chat d))).
  - rewrite (rows_filter (fun _ r => is_pending g r) (fun k _ => negb (k =? n))).
    apply (filter_length_lt _ _ (n, r)); [by apply elem_of_rows|]. simpl. by rewrite Z.eqb_refl.
  - intros k v. unfold settle. rewrite lookup_update_where.
    destruct (chat_deliveries (chat d) !! k) as [v0|] eqn:Hk; simpl; [|naive_solver].
    destruct (k =? n) eqn:Hkn; simpl.
    + split; [intros [[= <-] Hv]|intros [_ Hv]; by rewrite andb_false_r in Hv].
      unfold is_pending in Hv. simpl in Hv. bool_prop. congruence.
    + split; intros [[= <-] Hv]; (split; [done|]); [by rewrite Hv|]. by rewrite andb_true_r in Hv.
Qed.

Lemma next_delivery_None g d : next_delivery g d = None -> pending_sequences g d = [].
Proof.
  unfold next_delivery. destruct (min_of (pending_sequences g d)) as [n|] eqn:Hm; [|by rewrite <- min_of_None].
  simpl. apply ChatKeeps.min_of_Some in Hm as [Hin _]. unfold pending_sequences in Hin.
  apply list_elem_of_In, in_map_iff in Hin as ([n' r] & <- & Hin). simpl.
  apply list_elem_of_In, elem_of_rows in Hin as [-> _]. done.
Qed.
Lemma next_delivery_chat g d d' : chat d' = chat d -> next_delivery g d' = next_delivery g d.
Proof. intros Hc. unfold next_delivery, pending_sequences. by rewrite Hc. Qed.

(** What a run of the loop leaves: nothing pending, or the delivery at which the
    device itself failed. Other deliveries are not touched. *)
Definition drained name g d (r : result SyncReport) d' : Prop :=
  (forall report, r = Ok report -> pending_sequences g d' = []) /\
  (forall e, r = Err e -> e <> InvalidMessage /\ exists n x d1,
     next_delivery g d' = Some (n, x) /\ next_delivery g d1 = Some (n, x) /\
     transaction capacity (process_delivery name g n x) d1 = (Err e, d')) /\
  (forall n x, chat_deliveries (chat d) !! n = Some x -> is_pending g x = false ->
     chat_deliveries (chat d') !! n = Some x).

(** A round of the loop: the first pending delivery is settled. *)
Lemma round_shrinks g n r st d d1 :
  next_delivery g d = Some (n, r) -> st <> Pending ->
  chat_deliveries (chat d1) = settle n st (chat_deliveries (chat d)) ->
  (length (pending_sequences g d1) < length (pending_sequences g d))%nat /\
  (forall k x, chat_deliveries (chat d) !! k = Some x -> is_pending g x = false ->
     chat_deliveries (chat d1) !! k = Some x).
Proof.
  intros Hn Hst Hd. apply next_delivery_Some in Hn as (Hr & Hf & Hp & _).
  assert (is_pending g r = true) as Hpend.
  { unfold is_pending. rewrite Hf. by apply bool_decide_eq_true_2. }
  split; [by eapply settle_pending|]. intros k x Hk Hx. rewrite Hd. unfold settle.
  rewrite lookup_update_where, Hk. simpl. destruct (k =? n) eqn:Hkn; [|done].
  apply Z.eqb_eq in Hkn as ->. congruence.
Qed.
Lemma drained_step name g d d1 r d' :
  (forall k x, chat_deliveries (chat d) !! k = Some x -> is_pending g x = false ->
     chat_deliveries (chat d1) !! k = Some x) ->
  drained name g d1 r d' -> drained name g d r d'.
Proof. intros Hk (HO & HE & Ho). split_and!; auto. Qed.

Lemma process_loop_drains fuel name g report d :
  (length (pending_sequences g d) <= fuel)%nat ->
  (forall fuel', (length (pending_sequences g d) <= fuel')%nat ->
     process_loop capacity fuel' name g report d = process_loop capacity fuel name g report d) /\
  drained name g d (fst (process_loop capacity fuel name g report d))
    (snd (process_loop capacity fuel name g report d)).
Proof.
  revert report d. induction fuel as [|fuel IH]; intros report d Hfuel.
  - assert (next_delivery g d = None) as Hn.
    { destruct (next_delivery g d) as [[n r]|] eqn:Hn; [|done].
      unfold next_delivery in Hn. destruct (pending_sequences g d); [done|simpl in Hfuel; lia]. }
    split.
    + intros [|fuel'] _; simpl; by rewrite Hn.
    + simpl. rewrite Hn. split_and!; [|done|done]. intros _ _. by apply next_delivery_None.
  - destruct (next_delivery g d) as [[n r]|] eqn:Hn.
    2: { split; [intros [|fuel'] _; simpl; by rewrite Hn|]. simpl. rewrite Hn.
         split_and!; [|done|done]. intros _ _. by apply next_delivery_None. }
    assert (forall fuel', (length (pending_sequences g d) <= fuel')%nat -> exists f, fuel' = S f) as HS.
    { intros [|f] Hf; [|eauto]. unfold next_delivery in Hn.
      destruct (pending_sequences g d); [done|simpl in Hf; lia]. }
    destruct (transaction capacity (process_delivery name g n r) d) as [[[message gap]|e] d1] eqn:Ht.
    + pose proof Ht as Hrun. apply transaction_budget_Ok in Hrun as (_ & d2 & Hrun & _ & _ & Hd1).
      apply process_delivery_settles in Hrun.
      destruct (round_shrinks g n r ProcessedDelivery d d1) as [Hlt Hkeep]; [done..|by rewrite Hd1|].
      simpl. rewrite Hn, Ht.
      match goal with |- context [process_loop capacity fuel name g ?rep d1] =>
        destruct (IH rep d1) as [Hf Hdr]; [lia|] end.
      split; [|by eapply drained_step].
      intros fuel' Hle. destruct (HS _ Hle) as [f ->]. simpl. rewrite Hn, Ht. apply Hf. lia.
    + pose proof Ht as Hrun. apply transaction_budget_Err in Hrun.
      assert (chat d1 = chat d) as Hchat by (by destruct Hrun as [->|[k ->]]).
      destruct (decide (e = InvalidMessage)) as [->|Hne].
      * destruct (round_shrinks g n r RejectedDelivery d (snd (set_delivery_state n RejectedDelivery d1)))
          as [Hlt Hkeep]; [done..|simpl; by rewrite Hchat|].
        simpl. rewrite Hn, Ht. simpl.
        match goal with |- context [process_loop capacity fuel name g ?rep ?d2] =>
          destruct (IH rep d2) as [Hf Hdr]; [simpl in *; lia|] end.
        split; [|by eapply drained_step].
        intros fuel' Hle. destruct (HS _ Hle) as [f ->]. simpl. rewrite Hn, Ht. simpl. apply Hf.
        simpl in *. lia.
      * assert (forall f, process_loop capacity (S f) name g report d = (Err e, d1)) as Hout.
        { intros f. simpl. rewrite Hn, Ht. by destruct e. }
        rewrite Hout. split.
        -- intros fuel' Hle. destruct (HS _ Hle) as [f ->]. apply Hout.
        -- simpl. split_and!; [done| |by rewrite Hchat]. intros e' [= <-]. split; [done|].
           exists n, r, d. split_and!; [by rewrite (next_delivery_chat g d)|done|done].
Qed.

(** C20. Processing a group's staged deliveries always comes to an end. The
    number of pending deliveries is enough fuel: more changes nothing. When the
    loop returns a report, no delivery of the group is pending. It returns an
    error only when the device itself failed, not for a bad packet, which is
    rejected: the transaction of one delivery failed with this error and was
    undone, that delivery is the first of the group that is still pending, and a
    retry starts there. Deliveries that were settled or belong to other groups
    are not touched. *)
Theorem process_history_drains name g d r d' :
  group name d = Ok g -> process_history capacity name d = (r, d') ->
  (forall fuel, (length (pending_sequences g d) <= fuel)%nat ->
     process_loop capacity fuel name g
       {| staged := 0; decrypted := 0; rejected := 0; unavailable := 0 |} d = (r, d')) /\
  (forall report, r = Ok report -> pending_sequences g d' = []) /\
  (forall e, r = Err e -> e <> InvalidMessage /\ exists n x d1,
     next_delivery g d' = Some (n, x) /\ next_delivery g d1 = Some (n, x) /\
     transaction capacity (process_delivery name g n x) d1 = (Err e, d')) /\
  (forall n x, chat_deliveries (chat d) !! n = Some x -> is_pending g x = false ->
     chat_deliveries (chat d') !! n = Some x).
Proof.
  intros Hg. unfold process_history. rewrite Hg. intros Hrun.
  destruct (process_loop_drains (length (pending_sequences g d)) name g
    {| staged := 0; decrypted := 0; rejected := 0; unavailable := 0 |} d) as [Hf (HO & HE & Ho)]; [done|].
  rewrite Hrun in Hf, HO, HE, Ho. split_and!; auto.
Qed.
End facts.

(** ** Events and attachments: encodings and integrity

    The canonical envelope of application events, and what a downloaded
    attachment is worth: nothing the object store answers can pass for the file
    the sender described. *)
(** *** Application events *)

Section events.
Context `{Postcard ApplicationEvent}.

(** C36. The envelope of an application event is canonical and loses nothing: a
    byte string of at most 16896 bytes decodes to an event exactly when it is
    the encoding of that event. In particular an encoded event decodes to
    itself, invalid events have no encoding, and no two byte strings decode to
    the same event. *)
Theorem event_canonical e b :
  postcard_law e -> zlen b <= MAX_APPLICATION ->
  decode_event b = Ok (Some e) <-> event_wire e = Ok b.
Proof.
  intros (enc & Henc & Hdec) Hz. split.
  - unfold decode_event. destruct (strip_bytes EVENT_PREFIX b) as [r|]; intros Hd; inv_ok; [|done].
    destruct a0 as [e' rest]. inv_ok. bool_prop. congruence.
  - intros Hw. pose proof Hw as Hw'. unfold event_wire in Hw'.
    apply rbind_Ok in Hw' as ([] & Hv & Hw'). rewrite Henc in Hw'.
    assert (b = EVENT_PREFIX ++ [x01] ++ enc) as -> by (symmetry; by injection Hw').
    set (b := EVENT_PREFIX ++ [x01] ++ enc) in *.
    assert (strip_bytes EVENT_PREFIX b = Some ([x01] ++ enc)) as Hs by apply strip_bytes_app.
    unfold decode_event. rewrite Hs, (proj2 (Z.leb_le _ _) Hz). cbn [head tl app].
    rewrite bool_decide_eq_true_2 by done. cbn [andb check rbind].
    specialize (Hdec []). rewrite app_nil_r in Hdec. rewrite Hdec. cbn [rbind].
    rewrite bool_decide_eq_true_2, Hv, Hw by done. cbn [check rbind].
    by rewrite bool_decide_eq_true_2.
Qed.
(** Anything else that is small enough is a message of the time before events. *)
Lemma decode_legacy b :
  strip_bytes EVENT_PREFIX b = None -> zlen b <= MAX_PLAINTEXT -> decode_event b = Ok None.
Proof. intros Hs Hz. unfold decode_event. rewrite Hs. by rewrite (proj2 (Z.leb_le _ _) Hz). Qed.
End events.

(** *** Attachments *)

Section attachments.
Context `{Sha256} `{Aead} `{Postcard Manifest} `{Postcard (string * string)}.

Lemma checked_add64_Some a b n : checked_add64 a b = Some n -> n = a + b /\ n <= u64_max.
Proof. unfold checked_add64. destruct (a + b <=? u64_max) eqn:Hle; [|done]. intros [= <-]. lia. Qed.

(** C37. A file that was encrypted for a group can be decrypted with its
    manifest, by anyone in the group whose size limit admits it, until it
    expires: the result is the file. The manifest itself is valid, names the
    file's size and type, and expires the configured time after the
    encryption. *)
Theorem attachment_roundtrip gid name type b l l' random key nonce now now' clock clock' m c :
  aead_law -> zlen c = zlen b + 16 ->
  encrypt_attachment gid name type b l random key nonce now = Ok (m, c) ->
  now = Ok clock -> now' = Ok clock' -> clock' < expires_at m ->
  validate_limits l' = Ok tt -> zlen b <= max_bytes l' ->
  decrypt_attachment m gid c l' now' = Ok b /\
  validate_manifest m = Ok tt /\ size m = zlen b /\ filename m = name /\ mime m = type /\
  expires_at m = clock + ttl_seconds l.
Proof.
  intros Hlaw Htag Henc -> -> Hlive Hl Hmax. unfold encrypt_attachment in Henc.
  apply rbind_Ok in Henc as ([] & _ & Henc). apply rbind_Ok in Henc as ([] & _ & Henc).
  apply rbind_Ok in Henc as (? & [= <-] & Henc).
  apply rbind_Ok in Henc as (expires & [Hexp _]%ok_or_Ok%checked_add64_Some & Henc).
  apply rbind_Ok in Henc as (h & Hh & Henc). apply rbind_Ok in Henc as ([] & Hm & Henc).
  apply rbind_Ok in Henc as (aad & Haad & Henc).
  apply rbind_Ok in Henc as (c' & Hc%ok_or_Ok & [= <- <-]).
  split_and!; try done. unfold decrypt_attachment. rewrite Hm, Hl. simpl in *.
  rewrite (proj2 (Z.leb_le _ _) Hmax), (proj2 (Z.eqb_eq _ _) Htag). simpl.
  rewrite (proj2 (Z.ltb_lt _ _) Hlive). simpl.
  change (manifest_aad gid _) with (manifest_aad gid {| mf_id := hex_bytes random; filename := name;
    mime := type; size := zlen b; ciphertext_size := zlen b + 16; expires_at := expires; mf_hash := h;
    mf_key := key; mf_nonce := nonce |}).
  rewrite Haad. simpl. rewrite (Hlaw _ _ _ _ _ Hc). simpl. rewrite Z.eqb_refl, Hh. simpl.
  by rewrite bool_decide_eq_true_2.
Qed.

Lemma decrypt_Ok m gid c l now b :
  decrypt_attachment m gid c l now = Ok b ->
  zlen b = size m /\ hash b = Ok (mf_hash m) /\ size m <= max_bytes l /\
  zlen c = ciphertext_size m /\
  (exists clock, now = Ok clock /\ clock < expires_at m) /\
  exists aad, manifest_aad gid m = Ok aad /\ aead_decrypt (mf_key m) c (mf_nonce m) aad = Some b.
Proof.
  unfold decrypt_attachment. intros Hd. apply rbind_Ok in Hd as ([] & _ & Hd).
  apply rbind_Ok in Hd as ([] & _ & Hd). apply rbind_Ok in Hd as ([] & Hs%check_Ok & Hd).
  apply rbind_Ok in Hd as (clock & -> & Hd). apply rbind_Ok in Hd as ([] & Hlive%check_Ok & Hd).
  apply rbind_Ok in Hd as (aad & Haad & Hd). apply rbind_Ok in Hd as (text & Ht%ok_or_Ok & Hd).
  apply rbind_Ok in Hd as (same & Hsame & Hd). apply rbind_Ok in Hd as ([] & ->%check_Ok & [= ->]).
  destruct (zlen b =? size m) eqn:Hz; [|done]. apply rbind_Ok in Hsame as (h & Hh & [= Hb]).
  bool_prop. subst h. split_and!; try done; eauto.
Qed.
End attachments.

Section download.
Context {St : Type} `{Pages (ClientDb St)} `{Mls St} `{Sha256} `{Aead} `{Postcard Manifest}
  `{Postcard (string * string)} `{Postcard RecoveryStatus}.
Implicit Types (d : ClientDb St).

(** A download is what the sender encrypted, or an error. Whatever the object
    store answers, a download that succeeds gives bytes whose length and hash
    are those of the manifest the device had indexed from an authenticated
    message of this group, which decrypt under the manifest's key and nonce
    bound to this group and file; it is within the local size limit, has not
    expired at either check, and exactly the manifest's ciphertext size was fetched. A home restored for recovery downloads nothing. *)
Theorem download_authentic name id l now now' info fetch d b :
  download name id l now now' info fetch d = Ok b ->
  exists m g ciphertext aad,
    group name d = Ok g /\ attachment name id d = Ok m /\ recovery_status d = Ok None /\
    zlen b = size m /\ size m <= max_bytes l /\ hash b = Ok (mf_hash m) /\
    manifest_aad (grp_gid g) m = Ok aad /\ zlen ciphertext = ciphertext_size m /\
    aead_decrypt (mf_key m) ciphertext (mf_nonce m) aad = Some b /\
    (exists clock, now = Ok clock /\ clock < expires_at m) /\
    (exists clock, now' = Ok clock /\ clock < expires_at m).
Proof.
  unfold download. intros Hd.
  apply rbind_Ok in Hd as ([] & _ & Hd). apply rbind_Ok in Hd as (status & Hst & Hd).
  apply rbind_Ok in Hd as ([] & Hnone%check_Ok & Hd). apply rbind_Ok in Hd as (m & Hm & Hd).
  apply rbind_Ok in Hd as (fresh & Hfresh & Hd). apply rbind_Ok in Hd as ([] & ->%check_Ok & Hd).
  apply rbind_Ok in Hd as (g & Hg & Hd). apply rbind_Ok in Hd as (oi & _ & Hd).
  apply rbind_Ok in Hd as ([] & _ & Hd). apply rbind_Ok in Hd as ([] & Hsize%check_Ok & Hd).
  apply rbind_Ok in Hd as ([] & _ & Hd). apply rbind_Ok in Hd as (c & Hc & Hd).
  apply decrypt_Ok in Hd as (Hz & Hh & Hmax & Hcz & Hlive & aad & Haad & Hb).
  bool_prop. exists m, g, c, aad. split_and!; try done.
  - by destruct status.
  - destruct (size m <=? max_bytes l); [|done]. apply rbind_Ok in Hfresh as (clock & -> & [= Hl]).
    exists clock. split; [done|]. lia.
Qed.
End download.
