(* ===== verification/FlushFacts.v ===== *)
(** * The outbox is sent in order

    Reading the outbox in batches is not observable: a flush sends the rows that
    were sendable when it began, one after the other in the order of their
    identifiers, until one of them fails. *)
From stdpp Require Import sorting.
From S2P Require Import Prelude External Wire Capacity Identity Registry Policy KvStore Merkle Transparency Secrets Mls ClientDb IdentityStore Revocation Trust TrustFacts Groups GroupFacts Delivery Attachments Relationships Messaging Ephemeral Flush ChatKeeps MessageFacts.

Section facts.
Context {St : Type} `{Pages (ClientDb St)} `{Mls St} (capacity : Capacity).
Context `{NKeys} `{MlsPackages} `{Seeds} `{Credentials} `{Json SecretRef} `{Base32} `{Sha256}
  `{Postcard DeviceRegistration} `{Postcard RecoveryStatus} `{Postcard Envelope}
  `{Postcard RegistrationPayload} `{Postcard Intent} `{Postcard WelcomeRelay} `{Postcard RelayTuple}
  `{Postcard PolicyUpdate} `{Postcard CheckpointTuple} `{Postcard RequestTuple} `{Postcard Revocation}
  `{Postcard FingerprintTuple} `{Postcard Checkpoint}
  `{Postcard Manifest} `{Postcard ApplicationEvent} `{Postcard ApplicationTuple} `{Postcard LegacyTuple}.
Variables (ask : string -> Body.t -> result bytes) (refresh : result unit).
Implicit Types (d : ClientDb St) (w : World St).

(** ** The rows a flush sends *)

(** The rows of the outbox that may be sent, in order. *)
Definition to_send (after high : Z) d : list (Z * OutboxRow) :=
  merge_sort by_row (rows (sendable after high d) (outbox (chat d))).

#[local] Instance by_row_total : Total by_row.
Proof. intros a b. unfold by_row. lia. Qed.
#[local] Instance by_row_trans : Transitive by_row.
Proof. intros a b c. unfold by_row. lia. Qed.

Lemma elem_of_to_send after high d k r :
  (k, r) ∈ to_send after high d <->
  outbox (chat d) !! k = Some r /\ ob_sent r = false /\ after < k <= high /\
  k ∉ blocked_outbox (revocations d).
Proof.
  unfold to_send. rewrite (merge_sort_Permutation by_row), elem_of_rows. unfold sendable.
  rewrite !andb_true_iff, !negb_true_iff, bool_decide_eq_false, Z.ltb_lt, Z.leb_le. naive_solver.
Qed.
Lemma to_send_NoDup after high d : NoDup (map fst (to_send after high d)).
Proof. unfold to_send. rewrite (merge_sort_Permutation by_row). apply rows_keys_NoDup. Qed.
Lemma to_send_sorted after high d : StronglySorted by_row (to_send after high d).
Proof. apply (StronglySorted_merge_sort by_row). Qed.

(** What comes after a row that is reached does not depend on the rows before it. *)
Lemma to_send_drop after high d d' k r l1 l2 :
  to_send after high d = l1 ++ (k, r) :: l2 ->
  (forall j, k < j -> outbox (chat d') !! j = outbox (chat d) !! j) ->
  blocked_outbox (revocations d') = blocked_outbox (revocations d) ->
  to_send k high d' = l2.
Proof.
  intros Hl Ho Hb. pose proof (to_send_sorted after high d) as Hs.
  pose proof (to_send_NoDup after high d) as Hn. rewrite Hl in Hs, Hn.
  rewrite map_app, map_cons in Hn. apply list.NoDup_app in Hn as (_ & Hdis & Hn).
  apply StronglySorted_app in Hs as (Hcross & _ & Hs).
  apply StronglySorted_cons in Hs as [Hk Hs]. apply list.NoDup_cons in Hn as [Hk' Hn].
  eapply (StronglySorted_unique_strong by_row); [|apply to_send_sorted|done|].
  - intros [j x] [j' x'] Hj Hj' H1' H2'. unfold by_row in *. simpl in *.
    assert (j = j') as -> by lia. apply elem_of_to_send in Hj as (Hj & _ & Hlt & _).
    assert ((j', x') ∈ to_send after high d) as Hin.
    { rewrite Hl. apply elem_of_app. right. by right. }
    apply elem_of_to_send in Hin as (Hin & _). rewrite Ho in Hj by lia. congruence.
  - apply NoDup_Permutation.
    + apply (NoDup_fmap_1 fst). apply to_send_NoDup.
    + by apply (NoDup_fmap_1 fst).
    + intros [j x]. rewrite elem_of_to_send, Hb. split.
      * intros (Hj & Hsent & Hlt & Hbl). rewrite Ho in Hj by lia.
        assert ((j, x) ∈ to_send after high d) as Hin.
        { apply elem_of_to_send. split_and!; try done; [|lia].
          assert ((k, r) ∈ to_send after high d) as Hkin by (rewrite Hl; apply elem_of_app; right; left).
          apply elem_of_to_send in Hkin. lia. }
        rewrite Hl in Hin. apply elem_of_app in Hin as [Hin|[[= -> ->]|Hin]%elem_of_cons]; [|lia|done].
        specialize (Hcross (j, x) (k, r) Hin ltac:(left)). unfold by_row in Hcross. simpl in Hcross. lia.
      * intros Hin.
        assert ((j, x) ∈ to_send after high d) as Hin' by (rewrite Hl; apply elem_of_app; right; by right).
        apply elem_of_to_send in Hin' as (Hj & Hsent & Hlt & Hbl).
        assert (k < j).
        { assert (by_row (k, r) (j, x)) as Hle by (by eapply (proj1 (list.Forall_forall _ _) Hk)).
          assert (j <> k).
          { intros ->. destruct Hk'. apply list_elem_of_In, in_map_iff. exists (k, x). split; [done|].
            by apply list_elem_of_In. }
          unfold by_row in Hle. simpl in Hle. lia. }
        split_and!; try done; [by rewrite Ho|lia].
Qed.

(** ** One row *)

(** Only row [id] of the outbox may have changed; the rest of what a flush reads
    is the same. *)
Definition only_row (id : Z) d d' : Prop :=
  (forall k, k <> id -> outbox (chat d') !! k = outbox (chat d) !! k) /\
  blocked_outbox (revocations d') = blocked_outbox (revocations d).
Definition same_outbox d d' : Prop :=
  outbox (chat d') = outbox (chat d) /\
  blocked_outbox (revocations d') = blocked_outbox (revocations d).
#[local] Instance only_row_preorder id : PreOrder (only_row id).
Proof.
  split; [done|]. intros a b c [O1 B1] [O2 B2]. split; [|congruence].
  intros k Hk. by rewrite O2, O1.
Qed.
#[local] Instance same_outbox_preorder : PreOrder same_outbox.
Proof. split; [done|]. intros a b c [O1 B1] [O2 B2]. split; congruence. Qed.
Lemma same_only id d d' : same_outbox d d' -> only_row id d d'.
Proof. intros [Ho Hb]. split; [|done]. intros k _. by rewrite Ho. Qed.

Lemma nkey_same : keeps same_outbox store_nkey.
Proof. unfold store_nkey. keeps_auto. by apply keeps_modify. Qed.
Lemma nkey_chat d : chat (snd (store_nkey d)) = chat d.
Proof.
  pose (R := fun d d' => chat d' = chat d).
  assert (PreOrder R) by (split; [done|]; intros ? ? ? ? ?; unfold R in *; congruence).
  assert (keeps R store_nkey) as Hk; [|exact (Hk d)]. unfold store_nkey. keeps_auto. by apply keeps_modify.
Qed.
Lemma dispatch_same snapshot id s b : keeps same_outbox (dispatch ask refresh snapshot id s b).
Proof.
  unfold dispatch. pose proof nkey_same as Hn. keeps_auto.
Qed.
Lemma lower_same p n : keeps same_outbox (lower_sequence p n).
Proof. unfold lower_sequence. keeps_auto. by apply keeps_modify. Qed.
Lemma mark_only id : keeps (only_row id) (mark_sent id).
Proof.
  apply keeps_modify. intros d. split; [|done]. intros k Hk. simpl.
  rewrite lookup_update_where. destruct (outbox (chat d) !! k); simpl; [|done].
  by rewrite (proj2 (Z.eqb_neq k id)).
Qed.
Lemma confirm_only id r (ack : Ack) :
  keeps (only_row id) (transaction capacity (
    mark_sent id ;;;
    when (bool_decide (ack_stream ack = "CHAT"))
      (lower_sequence (fun t => bool_decide (tr_payload t = ob_payload r)) (ack_sequence ack)))).
Proof.
  apply keeps_transaction_budget; [apply _|..].
  1-3: intros ? d; split; done.
  apply keeps_bind; [apply _|apply mark_only|]. intros _. apply keeps_when; [apply _|].
  intros d. apply same_only, lower_same.
Qed.
Lemma mark_sent_run id d r :
  outbox (chat d) !! id = Some r ->
  exists r', outbox (chat (snd (mark_sent id d))) !! id = Some r' /\ ob_sent r' = true.
Proof.
  intros Hr. simpl. rewrite lookup_update_where, Hr. simpl. rewrite Z.eqb_refl. by eexists.
Qed.

Lemma on_store_run {A} (m : M (ClientDb St) A) w r w' :
  on_store m w = (r, w') -> m (w_db w) = (r, w_db w') /\ w_trace w' = w_trace w.
Proof. unfold on_store. destruct (m (w_db w)) as [r0 d0]. by intros [= <- <-]. Qed.

Lemma publish_run (p : Published) w r w' :
  publish p w = (r, w') -> w_db w' = w_db w /\ w_trace w' = w_trace w ++ [p].
Proof. unfold publish. destruct (w_answers w); by intros [= _ <-]. Qed.

Definition only_row_world (id : Z) w w' : Prop := only_row id (w_db w) (w_db w').
#[local] Instance only_row_world_preorder id : PreOrder (only_row_world id).
Proof. split; [intros w; by unfold only_row_world|]. intros a b c. unfold only_row_world. by etrans. Qed.
Lemma world_only {A} id (m : M (ClientDb St) A) :
  keeps (only_row id) m -> keeps (only_row_world id) (on_store m).
Proof.
  intros Hm w. unfold on_store, only_row_world. specialize (Hm (w_db w)). by destruct (m (w_db w)).
Qed.
Lemma same_keeps {A} id (m : M (ClientDb St) A) : keeps same_outbox m -> keeps (only_row id) m.
Proof. intros Hm d. apply same_only, Hm. Qed.
Lemma send_row_only snapshot id r : keeps (only_row_world id) (send_row capacity ask refresh snapshot (id, r)).
Proof.
  unfold send_row. apply keeps_bind; [apply _|apply world_only, same_keeps, dispatch_same|].
  intros [|]; [apply world_only, mark_only|].
  apply keeps_bind; [apply _|apply world_only, same_keeps, nkey_same|]. intros key.
  apply keeps_bind; [apply _| |intros ack; apply world_only, confirm_only].
  intros w. destruct (publish _ w) as [a w'] eqn:Hp. apply publish_run in Hp as [Hdb _].
  unfold only_row_world. simpl. by rewrite Hdb.
Qed.
(** At most one message is published for a row, and it is that row's. *)
Lemma send_row_trace snapshot id r w :
  exists ps, w_trace (snd (send_row capacity ask refresh snapshot (id, r) w)) = w_trace w ++ ps /\
    (ps = [] \/ exists p, ps = [p] /\ pb_id p = id /\ pb_subject p = ob_subject r /\
                          pb_payload p = ob_payload r).
Proof.
  assert (forall t : list Published, exists ps, t = t ++ ps /\ (ps = [] \/ exists p, ps = [p] /\
    pb_id p = id /\ pb_subject p = ob_subject r /\ pb_payload p = ob_payload r)) as Hnone.
  { intros t. exists []. rewrite app_nil_r. auto. }
  unfold send_row, bind. destruct (on_store (dispatch _ _ _ _ _ _) w) as [[done|e] w1] eqn:Hd;
    apply on_store_run in Hd as [_ Ht1]; [|simpl; rewrite Ht1; apply Hnone].
  destruct done.
  { destruct (on_store (mark_sent id) w1) as [m w2] eqn:Hm. apply on_store_run in Hm as [_ Ht2].
    simpl. rewrite Ht2, Ht1. apply Hnone. }
  destruct (on_store store_nkey w1) as [[key|e] w2] eqn:Hk; apply on_store_run in Hk as [_ Ht2];
    [|simpl; rewrite Ht2, Ht1; apply Hnone].
  destruct (publish _ w2) as [[ack|e] w3] eqn:Hp; apply publish_run in Hp as [_ Ht3].
  - destruct (on_store _ w3) as [m w4] eqn:Hc. apply on_store_run in Hc as [_ Ht4].
    eexists. split; [simpl; by rewrite Ht4, Ht3, Ht2, Ht1|]. right. by eexists.
  - eexists. split; [simpl; by rewrite Ht3, Ht2, Ht1|]. right. by eexists.
Qed.
(** A row that was sent is recorded as sent. *)
Lemma send_row_sent snapshot id r w w' r0 :
  send_row capacity ask refresh snapshot (id, r) w = (Ok tt, w') ->
  outbox (chat (w_db w)) !! id = Some r0 ->
  exists r', outbox (chat (w_db w')) !! id = Some r' /\ ob_sent r' = true.
Proof.
  intros Hrun Hr0. unfold send_row in Hrun.
  apply bind_Ok in Hrun as (done & w1 & [Hd _]%on_store_run & Hk).
  pose proof (dispatch_same snapshot id (ob_subject r) (ob_payload r) (w_db w)) as [Hs _].
  rewrite Hd in Hs. simpl in Hs. rewrite <- Hs in Hr0. clear Hs Hd. destruct done.
  - apply on_store_run in Hk as [Hm _]. destruct (mark_sent_run id (w_db w1) r0) as (r' & Hr'); [done|].
    rewrite Hm in Hr'. by exists r'.
  - apply bind_Ok in Hk as (key & w2 & [Hkey _]%on_store_run & Hk).
    pose proof (nkey_same (w_db w1)) as [Hs _]. rewrite Hkey in Hs. simpl in Hs. rewrite <- Hs in Hr0.
    apply bind_Ok in Hk as (ack & w3 & [Hdb _]%publish_run & [Hc _]%on_store_run). rewrite <- Hdb in Hr0.
    apply transaction_budget_Ok in Hc as (_ & d1 & Hrun & _ & _ & ->).
    apply bind_Ok in Hrun as ([] & d2 & Hm & Hw).
    destruct (mark_sent_run id (set_recovery false (set_autocommit false (w_db w3))) r0) as (r' & Hr' & Hsent);
      [done|]. rewrite Hm in Hr'. exists r'. split; [|done]. simpl in *.
    apply when_Ok in Hw as [[_ Hw]| ->]; [|done].
    match type of Hw with lower_sequence ?p ?n _ = _ => pose proof (lower_same p n d2) as [Hl _] end.
    rewrite Hw in Hl. simpl in Hl. by rewrite Hl.
Qed.

(** ** The loop *)

Abbreviation send snapshot := (send_row capacity ask refresh snapshot).

#[local] Arguments send_row : simpl never.
(** Rows that are not in the list are not touched. *)
Lemma send_all_frame snapshot l w k :
  k ∉ map fst l ->
  outbox (chat (w_db (snd (for_each l (send snapshot) w)))) !! k = outbox (chat (w_db w)) !! k.
Proof.
  revert w. induction l as [|[id r] l IH]; intros w Hk; simpl; [done|].
  simpl in Hk. rewrite not_elem_of_cons in Hk. destruct Hk as [Hne Hk].
  pose proof (send_row_only snapshot id r w) as [Ho _]. unfold bind.
  destruct (send snapshot (id, r) w) as [[[]|e] w1]; simpl in *; [|by apply Ho].
  rewrite IH by done. by apply Ho.
Qed.
Lemma send_all_blocked snapshot l w :
  blocked_outbox (revocations (w_db (snd (for_each l (send snapshot) w)))) =
  blocked_outbox (revocations (w_db w)).
Proof.
  revert w. induction l as [|[id r] l IH]; intros w; simpl; [done|].
  pose proof (send_row_only snapshot id r w) as [_ Hb]. unfold bind.
  destruct (send snapshot (id, r) w) as [[[]|e] w1]; simpl in *; [|done]. by rewrite IH.
Qed.
Lemma for_each_app {S A} (l1 l2 : list A) (f : A -> M S unit) s :
  for_each (l1 ++ l2) f s = bind (for_each l1 f) (fun _ => for_each l2 f) s.
Proof.
  revert s. induction l1 as [|a l1 IH]; intros s; simpl; [done|].
  unfold bind in *. destruct (f a s) as [[[]|e] s1]; [|done]. apply IH.
Qed.

(** Reading the outbox in batches of sixteen cannot be observed. With fuel
    for the rows there are, the batched loop does exactly what sending every
    sendable row, one after the other in the order of their identifiers, does:
    the same result, the same database and the same messages on the wire,
    whatever the answers are. *)
Theorem batches_unobservable fuel snapshot after high w :
  (length (to_send after high (w_db w)) <= fuel)%nat ->
  flush_loop capacity ask refresh fuel snapshot after high w =
  for_each (to_send after high (w_db w)) (send snapshot) w.
Proof.
  revert after w. induction fuel as [|fuel IH]; intros after w Hfuel; simpl.
  - unfold batch. fold (to_send after high (w_db w)).
    by destruct (to_send after high (w_db w)) as [|x l]; [|simpl in Hfuel; lia].
  - unfold batch. fold (to_send after high (w_db w)).
    set (L := to_send after high (w_db w)) in *.
    assert (for_each L (send snapshot) w = bind (for_each (take 16 L) (send snapshot))
      (fun _ => for_each (drop 16 L) (send snapshot)) w) as -> by (by rewrite <- for_each_app, take_drop).
    destruct (take 16 L) as [|x l] eqn:Htake.
    { destruct L as [|y L']; [done|]. by simpl in Htake. }
    change (bind (for_each (x :: l) (send snapshot)) (fun _ =>
      flush_loop capacity ask refresh fuel snapshot (List.last (map fst (x :: l)) after) high) w = 
      bind (for_each (x :: l) (send snapshot)) (fun _ => for_each (drop 16 L) (send snapshot)) w).
    pose proof (send_all_frame snapshot (x :: l) w) as Hframe.
    pose proof (send_all_blocked snapshot (x :: l) w) as Hblocked.
    unfold bind. destruct (for_each (x :: l) (send snapshot) w) as [[[]|e] w1] eqn:Hall; [|done].
    cbn [snd] in Hframe, Hblocked.
    destruct (List.exists_last (l:=x :: l)) as (l1 & [k r] & Hl1); [done|]. rewrite Hl1 in *.
    rewrite map_app. change (map fst [(k, r)]) with [k]. rewrite List.last_last.
    assert (L = l1 ++ (k, r) :: drop 16 L) as HL.
    { rewrite <- (take_drop 16 L) at 1. by rewrite Htake, <- app_assoc. }
    assert (to_send k high (w_db w1) = drop 16 L) as Hnext.
    { eapply to_send_drop; [exact HL| |exact Hblocked]. intros j Hj. apply Hframe.
      intros Hin. apply list_elem_of_In, in_map_iff in Hin as ([j' r'] & <- & Hin). simpl in Hj.
      pose proof (to_send_sorted after high (w_db w)) as Hs. fold L in Hs. rewrite HL in Hs.
      apply StronglySorted_app in Hs as (Hcross & _ & _).
      apply list_elem_of_In, elem_of_app in Hin as [Hin|Hin%list_elem_of_singleton].
      - specialize (Hcross _ (k, r) Hin ltac:(left)). unfold by_row in Hcross. simpl in Hcross. lia.
      - injection Hin as -> ->. lia. }
    rewrite IH, Hnext; [done|]. rewrite Hnext.
    assert (length L = length (l1 ++ (k, r) :: drop 16 L)) as Hlen by (by rewrite <- HL).
    rewrite length_app in Hlen. simpl in Hlen. lia.
Qed.

(** ** The whole flush *)

(** Sending rows in order: a prefix is sent, the next one failed, the others were
    not reached. *)
Definition sent_in_order (l : list (Z * OutboxRow)) (r : result unit) w w' : Prop :=
  exists done rest ps, l = done ++ rest /\ (r = Ok tt <-> rest = []) /\
    (forall id x, (id, x) ∈ done ->
       exists x', outbox (chat (w_db w')) !! id = Some x' /\ ob_sent x' = true) /\
    (forall id x, (id, x) ∈ tail rest -> outbox (chat (w_db w')) !! id = outbox (chat (w_db w)) !! id) /\
    w_trace w' = w_trace w ++ ps /\ map pb_id ps `sublist_of` map fst (done ++ take 1 rest) /\
    Forall (fun p => exists x, (pb_id p, x) ∈ l /\ pb_subject p = ob_subject x /\
                               pb_payload p = ob_payload x) ps.

Lemma send_all_in_order snapshot l w :
  NoDup (map fst l) -> (forall id x, (id, x) ∈ l -> outbox (chat (w_db w)) !! id = Some x) ->
  sent_in_order l (fst (for_each l (send snapshot) w)) w (snd (for_each l (send snapshot) w)).
Proof.
  revert w. induction l as [|[id x] l IH]; intros w Hn Hin.
  { exists [], [], []. simpl. rewrite app_nil_r. split_and!; try done. by intros ? ? ?%elem_of_nil. }
  simpl in Hn. apply list.NoDup_cons in Hn as [Hid Hn].
  destruct (send_row_trace snapshot id x w) as (ps & Htr & Hps).
  pose proof (send_row_only snapshot id x w) as [Honly _].
  assert (map pb_id ps `sublist_of` [id]) as Hsub.
  { destruct Hps as [->|(p & -> & <- & _)]; [apply sublist_nil_l|done]. }
  assert (Forall (fun p => exists x', (pb_id p, x') ∈ (id, x) :: l /\ pb_subject p = ob_subject x' /\
    pb_payload p = ob_payload x') ps) as Hall.
  { destruct Hps as [->|(p & -> & Hp & Hs & Hb)]; [constructor|]. constructor; [|constructor].
    exists x. rewrite Hp. split_and!; [left|done..]. }
  change (for_each ((id, x) :: l) (send snapshot) w) with
    (bind (send snapshot (id, x)) (fun _ => for_each l (send snapshot)) w).
  unfold bind. destruct (send snapshot (id, x) w) as [[[]|e] w1] eqn:Hrun; cbn [snd] in *.
  - destruct (IH w1 Hn) as (done & rest & ps' & -> & Hr & Hdone & Hrest & Htr' & Hsub' & Hall').
    { intros id' x' Hx'. rewrite Honly; [apply Hin; by right|].
      intros ->. destruct Hid. apply list_elem_of_In, in_map_iff. exists (id, x'). split; [done|].
      by apply list_elem_of_In. }
    exists ((id, x) :: done), rest, (ps ++ ps'). split_and!; [done|done|..].
    + intros id' x' [[= -> ->]|Hx']%elem_of_cons; [|by eapply Hdone].
      destruct (send_row_sent snapshot id x w w1 x Hrun) as (x2 & Hx2 & Hs); [apply Hin; left|].
      exists x2. split; [|done]. by rewrite send_all_frame.
    + intros id' x' Hx'. rewrite (Hrest id' x' Hx'). apply Honly. intros ->. destruct Hid.
      apply list_elem_of_In, in_map_iff. exists (id, x'). split; [done|]. apply in_or_app. right.
      apply list_elem_of_In in Hx'. by destruct rest; [|right].
    + by rewrite Htr', Htr, app_assoc.
    + rewrite map_app. change (map fst (((id, x) :: done) ++ take 1 rest)) with ([id] ++ map fst (done ++ take 1 rest)).
      by apply sublist_app.
    + apply Forall_app. split; [exact Hall|]. eapply Forall_impl; [|exact Hall'].
      intros p (x' & Hx' & ?). exists x'. split; [by right|done].
  - exists [], ((id, x) :: l), ps. split_and!; try done; [by intros ? ? ?%elem_of_nil|].
    intros id' x' Hx'. apply Honly. intros ->. destruct Hid. apply list_elem_of_In, in_map_iff.
    exists (id, x'). split; [done|]. by apply list_elem_of_In.
Qed.

(** What the checks before a flush leave alone. *)
Definition same_mail d d' : Prop :=
  chat d' = chat d /\ blocked_outbox (revocations d') = blocked_outbox (revocations d).
#[local] Instance same_mail_preorder : PreOrder same_mail.
Proof. split; [done|]. intros a b c [? ?] [? ?]. split; congruence. Qed.
Lemma audit_same_mail r1 r2 : keeps same_mail (audit capacity r1 r2).
Proof.
  assert (forall d d', revocations d' = revocations d -> chat d' = chat d -> same_mail d d') as Hsame
    by (intros d d' Hr Hc; split; congruence).
  apply audit_keeps; [apply _|..].
  - intros d d' _ _ Hr _ Hc _. by apply Hsame.
  - intros s. apply accept_checkpoint_keeps; [apply _|..]; try done.
    + intros d d' _ _ Hr _ Hc _. by apply Hsame.
    + intros user device fp. unfold observe. keeps_auto; by apply keeps_modify.
  - intros l s. apply accept_revocations_keeps; [apply _|..].
    + intros d d' _ _ Hr _ Hc _. by apply Hsame.
    + intros l' d. split; [done|]. cbn. unfold set_revoked. by destruct (revocations d).
    + intros c d. split; [done|]. cbn. by destruct (revocations d).
Qed.

(** A group whose queued messages must stay: this device is no longer in it, or a
    member of it is known to be revoked. *)
Definition withheld (g : Group) d : Prop := exists m, load_group g d = Ok m /\
  (is_active m = false \/ exists member, member ∈ g_members m /\ revoked_member member d).
Definition withheld_row (gs : list Group) d (id : Z) : Prop := exists g x, g ∈ gs /\ withheld g d /\
  outbox (chat d) !! id = Some x /\ ob_sent x = false /\ ob_subject x = subject "message" g.
Lemma withheld_iff g d m : load_group g d = Ok m ->
  withheld g d <-> is_active m && bool_decide (revoked_leaves m d = []) = false.
Proof.
  intros Hm. rewrite andb_false_iff, bool_decide_eq_false. split.
  - intros (m' & Hm' & Hw). rewrite Hm in Hm'. injection Hm' as <-. destruct Hw as [?|(member & Hin & Hr)]; [by left|right].
    intros Hn. assert (m_index member ∈ revoked_leaves m d) as Hi by (apply elem_of_revoked_leaves; by exists member).
    rewrite Hn in Hi. by apply elem_of_nil in Hi.
  - intros [?|Hn]; exists m; (split; [done|]); [by left|right].
    destruct (revoked_leaves m d) as [|i l] eqn:Hl; [done|].
    destruct (proj1 (elem_of_revoked_leaves m d i)) as (member & Hin & _ & Hr); [rewrite Hl; by left|].
    by exists member.
Qed.
(** The databases that differ in the blocked rows only. *)
Definition only_blocked d d' : Prop := exists b, d' = set_revocations (set_blocked (fun _ => b)) d.
Lemma withheld_blocked g d d' : only_blocked d d' -> withheld g d' <-> withheld g d.
Proof. by intros [b ->]. Qed.
Lemma set_blocked_twice b f d :
  set_revocations (set_blocked f) (set_revocations (set_blocked (fun _ => b)) d) =
  set_revocations (set_blocked (fun _ => f b)) d.
Proof. by destruct d as [? ? []]. Qed.
Lemma set_blocked_same d : set_revocations (set_blocked (fun _ => blocked_outbox (revocations d))) d = d.
Proof. by destruct d as [? ? []]. Qed.

(** Blocking adds exactly the unsent messages of the groups that are withheld. *)
Lemma block_revoked_Ok d d' : block_revoked_outbox d = (Ok tt, d') ->
  only_blocked d d' /\ forall id, id ∈ blocked_outbox (revocations d') <->
    id ∈ blocked_outbox (revocations d) \/ withheld_row (groups d) d id.
Proof.
  intros (gs & d0 & [-> ->]%gets_Ok & Hr)%bind_Ok. revert Hr. generalize (groups d) as gs. intros gs.
  assert (only_blocked d d) as Hd by (exists (blocked_outbox (revocations d)); by rewrite set_blocked_same).
  cut (forall s, only_blocked d s -> forall s', for_each gs (fun descriptor =>
      let* r := gets (load_group descriptor) in let* g := lift r in
      let* leaves := gets (revoked_leaves g) in
      if is_active g && bool_decide (leaves = []) then ret tt else block_group (subject "message" descriptor)) s = (Ok tt, s') ->
    only_blocked d s' /\ forall id, id ∈ blocked_outbox (revocations s') <->
      id ∈ blocked_outbox (revocations s) \/ withheld_row gs d id); [eauto|]. clear Hd.
  induction gs as [|g gs IH]; intros s Hs s' Hr; simpl in Hr.
  { apply ret_Ok in Hr as [_ ->]. split; [done|]. intros id. split; [by left|].
    by intros [?|(g & x & ?%elem_of_nil & _)]. }
  apply bind_Ok in Hr as ([] & s1 & Hg & Hr).
  apply bind_Ok in Hg as (r & s2 & [-> ->]%gets_Ok & Hg). apply bind_Ok in Hg as (m & s2 & [Hm ->]%lift_Ok & Hg).
  apply bind_Ok in Hg as (leaves & s2 & [-> ->]%gets_Ok & Hg).
  assert (load_group g d = Ok m) as Hmd by (by destruct Hs as [b ->]).
  assert (revoked_leaves m s = revoked_leaves m d) as Hl by (by destruct Hs as [b ->]).
  assert (outbox (chat s) = outbox (chat d)) as Ho by (by destruct Hs as [b ->]). rewrite Hl in Hg.
  assert (only_blocked d s1 /\ forall id, id ∈ blocked_outbox (revocations s1) <->
    id ∈ blocked_outbox (revocations s) \/ withheld_row [g] d id) as [Hs1 Hb1].
  { pose proof (withheld_iff g d m Hmd) as Hw. destruct (_ && _) eqn:Hc.
    - apply ret_Ok in Hg as [_ ->]. split; [done|]. intros id. split; [by left|].
      intros [?|(g' & x & ->%list_elem_of_singleton & Hx & _)]; [done|]. by apply Hw in Hx.
    - apply modify_Ok in Hg as ->. split.
      { destruct Hs as [b ->]. rewrite set_blocked_twice. by eexists. }
      intros id. cbn. rewrite elem_of_union, elem_of_list_to_set, list_elem_of_In, in_map_iff.
      setoid_rewrite <- list_elem_of_In. split; [|intros [?|(g' & x & ->%list_elem_of_singleton & _ & Hx & Hsent & Hsub)]].
      + intros [([id' x] & <- & Hx)|?]; [right|by left]. apply elem_of_rows in Hx as [Hx [Hsent Hsub]%andb_true_iff].
        bool_prop. rewrite Ho in Hx. exists g, x. split_and!; [by left|by apply Hw|done|by destruct (ob_sent x)|done].
      + by right.
      + left. exists (id, x). split; [done|]. apply elem_of_rows. rewrite Ho, Hsent, Hsub. split; [done|].
        by rewrite bool_decide_eq_true_2. }
  destruct (IH s1 Hs1 s' Hr) as [Hs' Hb']. split; [done|]. intros id. rewrite Hb', Hb1.
  unfold withheld_row. split.
  - intros [[?|(g' & x & ->%list_elem_of_singleton & ?)]|(g' & x & ? & ?)]; [by left|right; exists g, x|right; exists g', x].
    + split; [by left|done].
    + split; [by right|done].
  - intros [?|(g' & x & [->|?]%elem_of_cons & ?)]; [by left; left|left; right; exists g, x|right; by exists g', x].
    split; [by left|done].
Qed.
Lemma block_chat d : chat (snd (block_revoked_outbox d)) = chat d.
Proof.
  pose (R := fun d d' => chat d' = chat d).
  assert (PreOrder R) by (split; [done|]; intros ? ? ? ? ?; unfold R in *; congruence).
  assert (keeps R block_revoked_outbox) as Hkb; [|exact (Hkb d)].
  unfold block_revoked_outbox, block_group. keeps_auto. apply keeps_for_each; [done|].
  intros g. keeps_auto. by apply keeps_modify.
Qed.

(** The checks before anything is sent: the audit of the directory accepts what
    the service answered, the device's key is there and not revoked, and the rows
    of withheld groups are blocked. *)
Inductive cleared r1 r2 d : Snapshot -> KeyPair -> ClientDb St -> Prop :=
| cleared_by snapshot key d1 d2 d3 :
    audit capacity r1 r2 d = (Ok snapshot, d1) -> store_nkey d1 = (Ok key, d2) ->
    is_revoked (public_key key) d2 = false -> block_revoked_outbox d2 = (Ok tt, d3) ->
    cleared r1 r2 d snapshot key d3.
Lemma cleared_same r1 r2 d snapshot key d' : cleared r1 r2 d snapshot key d' ->
  chat d' = chat d /\ is_revoked (public_key key) d' = false /\
  forall id, id ∈ blocked_outbox (revocations d') <->
    id ∈ blocked_outbox (revocations d) \/ withheld_row (groups d) d' id.
Proof.
  intros [s k d1 d2 d3 Ha Hk Hrev Hb].
  pose proof (audit_same_mail r1 r2 d) as [Hc1 Hb1]. rewrite Ha in Hc1, Hb1. cbn [snd] in Hc1, Hb1.
  apply store_nkey_Ok in Hk as ->. pose proof (block_chat (set_cached_key (Some k) d1)) as Hc3. rewrite Hb in Hc3.
  cbn [snd] in Hc3. destruct (block_revoked_Ok _ _ Hb) as [Ho Hin]. split_and!; [by rewrite Hc3|by destruct Ho as [b ->]|].
  intros id. rewrite Hin. cbn [set_cached_key revocations]. rewrite Hb1.
  assert (groups (set_cached_key (Some k) d1) = groups d) as -> by (unfold groups; cbn; by rewrite Hc1).
  unfold withheld_row. setoid_rewrite (withheld_blocked _ _ _ Ho). by rewrite Hc3.
Qed.
Lemma flush_cleared r1 r2 w :
  let '(r, w') := flush_outbox capacity ask refresh r1 r2 w in
  (exists snapshot key d, cleared r1 r2 (w_db w) snapshot key d /\
     flush_loop capacity ask refresh (Z.to_nat (table_size (outbox (chat d)))) snapshot 0 (max_key (outbox (chat d)))
       (set_w_db d w) = (r, w')) \/
  (forall snapshot key d, ~ cleared r1 r2 (w_db w) snapshot key d) /\
  w_trace w' = w_trace w /\ chat (w_db w') = chat (w_db w) /\ exists e, r = Err e.
Proof.
  unfold flush_outbox, bind, gets, ensure, on_store.
  pose proof (audit_same_mail r1 r2 (w_db w)) as [Hc1 _].
  destruct (audit capacity r1 r2 (w_db w)) as [[snapshot|e] d1] eqn:Ha; cbn [snd w_db set_w_db] in *.
  2: { right. split_and!; [|done..|by eexists]. intros s k d [s' k' d1' d2 d3 Ha' _ _ _]. congruence. }
  destruct (store_nkey d1) as [[key|e] d2] eqn:Hk; cbn [w_db set_w_db].
  2: { right. split_and!; [|done| |by eexists].
       - intros s k d [s' k' d1' d2' d3 Ha' Hk' _ _]. congruence.
       - cbn. pose proof (nkey_chat d1) as Hn. rewrite Hk in Hn. cbn [snd] in Hn. congruence. }
  pose proof (nkey_chat d1) as Hn. rewrite Hk in Hn. cbn [snd] in Hn.
  destruct (is_revoked (public_key key) d2) eqn:Hrev; cbn [negb w_db set_w_db].
  { right. split_and!; [|done|cbn; congruence|by eexists].
    intros s k d [s' k' d1' d2' d3 Ha' Hk' Hr' _]. congruence. }
  pose proof (block_chat d2) as Hb.
  destruct (block_revoked_outbox d2) as [[[]|e] d3] eqn:Hbl; cbn [snd w_db w_answers w_trace set_w_db] in *.
  2: { right. split_and!; [|done|cbn; congruence|by eexists].
       intros s k d [s' k' d1' d2' d3' Ha' Hk' _ Hb']. congruence. }
  match goal with |- context [flush_loop _ _ _ ?n ?sn ?a ?h ?x] =>
    destruct (flush_loop capacity ask refresh n sn a h x) as [r w'] eqn:Hl end.
  left. exists snapshot, key, d3. split; [by econstructor|]. exact Hl.
Qed.

(** C21. A flush sends in order and never what it must not. It goes ahead exactly
    when it is cleared: the audit of the directory succeeded, this device's own
    key is not among the revoked ones the audit may just have brought, and the
    unsent messages of every group this device left, or that holds a revoked
    member, were blocked, those and no others. Otherwise it refuses before anything
    is sent. When it goes ahead it works through the rows that are unsent and not
    blocked, in increasing order of their identifiers: a prefix of them is recorded
    as sent, the next one, if any, is where it failed, and the rows behind it are as
    they were. What is published are, in this order and at most once each, the
    subjects and ciphertexts of rows that were reached; success means that no such
    row is left. *)
Theorem flush_in_order r1 r2 w r w' :
  flush_outbox capacity ask refresh r1 r2 w = (r, w') ->
  (forall snapshot key d, ~ cleared r1 r2 (w_db w) snapshot key d) /\
    w_trace w' = w_trace w /\ outbox (chat (w_db w')) = outbox (chat (w_db w)) /\ (exists e, r = Err e) \/
  exists snapshot key d, cleared r1 r2 (w_db w) snapshot key d /\
    let mail := outbox (chat (w_db w)) in
    let l := to_send 0 (max_key mail) d in
    is_revoked (public_key key) d = false /\ chat d = chat (w_db w) /\
    (forall id, id ∈ blocked_outbox (revocations d) <->
       id ∈ blocked_outbox (revocations (w_db w)) \/
       exists g x, g ∈ groups (w_db w) /\ withheld g d /\ mail !! id = Some x /\ ob_sent x = false /\
         ob_subject x = subject "message" g) /\
    StronglySorted by_row l /\ NoDup (map fst l) /\
    (forall id x, (id, x) ∈ l <-> mail !! id = Some x /\ ob_sent x = false /\ 0 < id <= max_key mail /\
       id ∉ blocked_outbox (revocations d)) /\
    sent_in_order l r (set_w_db d w) w'.
Proof.
  intros Hrun. pose proof (flush_cleared r1 r2 w) as Hc. rewrite Hrun in Hc.
  destruct Hc as [(snapshot & key & d & Hc & Hl)|(Hn & Ht & Hchat & He)]; [right|left; by rewrite Hchat].
  destruct (cleared_same _ _ _ _ _ _ Hc) as (Hchat & Hrev & Hb). exists snapshot, key, d. split; [done|]. cbv zeta.
  rewrite <- Hchat. rewrite batches_unobservable in Hl.
  2: { cbn [w_db set_w_db]. unfold to_send. rewrite (merge_sort_Permutation by_row). unfold rows, table_size.
       rewrite Nat2Z.id. rewrite <- length_map_to_list. apply List.filter_length_le. }
  cbn [w_db set_w_db] in Hl. set (l := to_send 0 _ d) in *.
  split_and!; [done|done|exact Hb|apply to_send_sorted|apply to_send_NoDup|apply elem_of_to_send|].
  pose proof (send_all_in_order snapshot l (set_w_db d w)) as Hs. rewrite Hl in Hs. apply Hs; [apply to_send_NoDup|].
  intros id x Hx. by apply elem_of_to_send in Hx as (Hx & _).
Qed.
End facts.
