(* ===== verification/ClientOps.v ===== *)
(** * What a device asks of the network

    The requests of [crates/epochgrid-core/src/transport.rs] with their renewal
    of an expired admission, [invite] and [join_next] of [delivery.rs], and the
    transfer of attachments of [attachments.rs]. What the servers answer is
    explicit; an operation cut short by a deadline is one whose next answer is an
    error. *)
From stdpp Require Import sorting.
From S2P Require Import Prelude External Wire Capacity Identity Registry Policy KvStore Merkle Transparency Secrets Files Mls ClientDb IdentityStore Revocation Trust Groups Recovery RecoveryFiles Delivery Attachments Relationships Messaging Flush.

(** ** Requests *)

(** An attempt that may expire with the lease of the connection. *)
Inductive Attempted (A : Type) : Type := Done (a : A) | Expired | Refused (e : error).
Arguments Done {A} a. Arguments Expired {A}. Arguments Refused {A} e.

Definition Elapsed : error := Anyhow "deadline has elapsed".
(** [seen] are the counts of connections read while waiting, until the deadline. *)
(* @src core/transport.rs 448-451 refresh_authorization (wait) *)
Fixpoint await_connect (before : Z) (seen : list Z) : result unit :=
  match seen with
  | [] => Err Elapsed
  | n :: seen => if n <=? before then await_connect before seen else Ok tt
  end.
(* @src core/transport.rs 442-455 refresh_authorization *)
Definition refresh_authorization (before : Z) (reconnect : result unit) (seen : list Z) (flushed : result unit)
  : result unit :=
  reconnect ;;?
  await_connect before seen ;;?
  flushed.

(** The connection: the answers to come, what each renewal of the admission
    gives, and a trace of what was sent. *)
Record Link : Type := {
  lk_answers : list (Attempted bytes);
  lk_renewals : list (result unit);
  lk_sent : list (string * bytes);
}.
Definition request (subject : string) (payload : bytes) : M Link (Attempted bytes) := fun l =>
  (Ok (default (Refused External) (head (lk_answers l))),
   {| lk_answers := tl (lk_answers l); lk_renewals := lk_renewals l;
      lk_sent := lk_sent l ++ [(subject, payload)] |}).
(** A message published on the connection. *)
Definition link_publish (subject : string) (payload : bytes) (sent : result unit) : M Link unit := fun l =>
  (sent, {| lk_answers := lk_answers l; lk_renewals := lk_renewals l;
            lk_sent := lk_sent l ++ [(subject, payload)] |}).
Definition renew : M Link unit := fun l =>
  (default (Err External) (head (lk_renewals l)),
   {| lk_answers := lk_answers l; lk_renewals := tl (lk_renewals l); lk_sent := lk_sent l |}).

Section link.
Context {L : Type}.
(** An attempt, repeated once after a renewal when it expired. *)
(* @src core/transport.rs 499-519 consumer_read_retry *)
Definition consumer_read_retry {A} (read : M L (Attempted A)) (renew : M L unit) : M L A :=
  let* first := read in
  match first with
  | Done a => ret a
  | Expired =>
      renew ;;;
      let* second := read in
      match second with Done a => ret a | Expired => fail Elapsed | Refused e => fail e end
  | Refused e => fail e
  end.
End link.

Section requests.
Context `{NKeys} `{MlsPackages} `{Postcard Envelope} `{Postcard RegistrationPayload}.

(* @src core/transport.rs 459-476 request_idempotent *)
Definition request_idempotent (subject : string) (body : Body.t) : M Link bytes :=
  let* payload := lift (encode body) in
  consumer_read_retry (request subject payload) renew.
Definition request_once (subject : string) (body : Body.t) : M Link bytes :=
  let* payload := lift (encode body) in
  let* answer := request subject payload in
  match answer with Done b => ret b | Expired => fail Elapsed | Refused e => fail e end.

(* @src core/transport.rs 24-36 register *)
Definition register (r : DeviceRegistration) : M Link unit :=
  let* reply := request_once REGISTER (Body.Register r) in
  let* body := lift (decode reply) in
  ensure (match body with Body.Registered => true | _ => false end) "registration rejected".

(** The device that was asked for, with a valid registration. *)
Definition found_device (user device : string) (reply : bytes) (missing : string) (different : string)
  : result DeviceRegistration :=
  let? body := decode reply in
  match body with
  | Body.Found r =>
      verify r ;;?
      check (bool_decide (user_id (payload r) = user) && bool_decide (device_id (payload r) = device))
        different ;;?
      Ok r
  | _ => Err (Anyhow missing)
  end.
(* @src core/transport.rs 38-64 lookup *)
Definition directory_lookup (user device : string) : M Link DeviceRegistration :=
  lift (validate_id user) ;;;
  lift (validate_id device) ;;;
  let* reply := request_once LOOKUP (Body.Lookup user device) in
  lift (found_device user device reply "device not found or lookup rejected"
          "directory returned a different device").
(* @src core/transport.rs 300-330 claim_keypackage *)
Definition claim_keypackage (user device group : string) : M Link DeviceRegistration :=
  lift (validate_id user) ;;;
  lift (validate_id device) ;;;
  lift (validate_id group) ;;;
  let* reply := request_idempotent KEYPACKAGE (Body.ClaimKeyPackage user device group) in
  lift (found_device user device reply
    "KeyPackage unavailable (one invitation per device until replenishment is implemented)"
    "directory endpoint mismatch").
End requests.

(** ** Operations of a device *)

(** The store with its published messages, the requests, the files, and the
    objects uploaded. *)
Record Client (St : Type) : Type := {
  cl_world : World St;
  cl_link : Link;
  cl_disk : Disk;
  cl_objects : list (string * bytes);
}.
Arguments cl_world {St}. Arguments cl_link {St}. Arguments cl_disk {St}. Arguments cl_objects {St}.
Section lifts.
Context {St : Type}.
Definition on_world {A} (m : M (World St) A) : M (Client St) A := fun c =>
  let '(r, w) := m (cl_world c) in
  (r, {| cl_world := w; cl_link := cl_link c; cl_disk := cl_disk c; cl_objects := cl_objects c |}).
Definition on_link {A} (m : M Link A) : M (Client St) A := fun c =>
  let '(r, l) := m (cl_link c) in
  (r, {| cl_world := cl_world c; cl_link := l; cl_disk := cl_disk c; cl_objects := cl_objects c |}).
Definition on_files {A} (m : M Disk A) : M (Client St) A := fun c =>
  let '(r, d) := m (cl_disk c) in
  (r, {| cl_world := cl_world c; cl_link := cl_link c; cl_disk := d; cl_objects := cl_objects c |}).
Definition on_db {A} (m : M (ClientDb St) A) : M (Client St) A := on_world (on_store m).
Definition read_db {A} (f : ClientDb St -> result A) : M (Client St) A :=
  let* r := gets (fun c => f (w_db (cl_world c))) in lift r.
(** [bucket.put]. *)
Definition put_object (stored : result unit) (id : string) (b : bytes) : M (Client St) unit := fun c =>
  (stored, {| cl_world := cl_world c; cl_link := cl_link c; cl_disk := cl_disk c;
              cl_objects := match stored with Ok _ => cl_objects c ++ [(id, b)] | Err _ => cl_objects c end |}).
End lifts.

(** [Path::file_name]. *)
Definition file_name (path : string) : option string :=
  let parts := List.filter (fun p => negb (bool_decide (p = EmptyString)) && negb (bool_decide (p = ".")))
                 (split_on "/" path) in
  match List.last parts EmptyString with
  | EmptyString => None
  | name => if bool_decide (name = "..") then None else Some name
  end.

Section operations.
Context {St : Type} `{Pages (ClientDb St)} `{Mls St} (capacity : Capacity).
Context `{NKeys} `{MlsPackages} `{Seeds} `{Credentials} `{Json SecretRef} `{Base32} `{Sha256} `{Aead}
  `{Postcard DeviceRegistration} `{Postcard RecoveryStatus} `{Postcard Envelope}
  `{Postcard RegistrationPayload} `{Postcard Intent} `{Postcard WelcomeRelay} `{Postcard RelayTuple}
  `{Postcard PolicyUpdate} `{Postcard CheckpointTuple} `{Postcard RequestTuple} `{Postcard Revocation}
  `{Postcard FingerprintTuple} `{Postcard Checkpoint}
  `{Postcard Manifest} `{Postcard ApplicationEvent} `{Postcard ApplicationTuple} `{Postcard LegacyTuple}
  `{Postcard (string * string)}.
Variables (ask : string -> Body.t -> result bytes) (refresh : result unit).

(** The replies to an audit: the registration log's and the revocation log's. *)
Abbreviation Replies := (result bytes * result bytes)%type.

(** What a synchronization draws: the audits before and after, the deliveries
    and the randomness of a removal. *)
Record SyncDraws : Type := {
  sy_before : Replies;
  sy_deliveries : result (list (result ChatDelivery));
  sy_random : bytes;
  sy_after : Replies;
}.
Definition synchronize (name : string) (s : SyncDraws) : M (Client St) SyncReport :=
  on_world (resume capacity ask refresh name (sy_before s) (sy_after s) (sy_deliveries s) (sy_random s)).

(* @src core/delivery.rs 228-255 invite *)
Definition invite (name user device : string) (s : SyncDraws) (logs : Replies) (random : bytes)
    (after : Replies) : M (Client St) unit :=
  lift (validate_id user) ;;;
  lift (validate_id device) ;;;
  let* descriptor := read_db (group name) in
  let* _ := synchronize name s in
  let* ms := read_db (members name) in
  (if bool_decide (user +:+ "/" +:+ device ∈ ms) then ret tt
   else
     let* g := read_db (load_group descriptor) in
     let* leader := gets (fun c => coordinator g (w_db (cl_world c))) in
     ensure (bool_decide (Some (own_leaf g) = leader)) "only the active group coordinator can invite" ;;;
     let* expected := on_db (Trust.lookup capacity (fst logs) (snd logs) user device) in
     let* recipient := on_link (claim_keypackage user device (grp_gid descriptor)) in
     ensure (bool_decide (recipient = expected))
       "KeyPackage differs from authenticated log; invitation blocked" ;;;
     on_db (prepare_invitation capacity name recipient random)) ;;;
  on_world (flush_outbox capacity ask refresh (fst after) (snd after)).

(** [consumer] reads the information of this device's consumer of a stream. *)
(* @src core/transport.rs 480-497 device_consumer *)
Definition device_consumer {A} (consumer : string -> M Link (Attempted A)) : M (Client St) A :=
  let* key := on_db store_nkey in
  on_link (consumer_read_retry (consumer ("device_" +:+ public_key key)) renew).
(** [batch] is the next delivery of the mailbox consumer, [acked] whether its
    acknowledgment was confirmed. *)
(* @src core/delivery.rs 256-284 join_next *)
Definition join_next (inviter device : string) (logs : Replies)
    (consumer : string -> M Link (Attempted unit)) (batch : result (option bytes)) (acked : result unit) (renewed : result unit) : M (Client St) Group :=
  let* registration := on_db (Trust.lookup capacity (fst logs) (snd logs) inviter device) in
  device_consumer consumer ;;;
  let* next := lift batch in
  let* message := lift (ok_or next
    (Anyhow "no invitation available; run channel join again after an invite")) in
  let* descriptor := on_db (accept_welcome capacity message registration) in
  lift acked ;;;
  let* dynamic := read_db dynamic_authorization in
  (if dynamic : bool then lift renewed else ret tt) ;;;
  ret descriptor.

(** The configuration of the consumer of CHAT: its filters and how many
    deliveries may be unacknowledged. *)
Record ChatConsumer : Type := { cc_filter : string; cc_filters : list string; cc_max_ack_pending : Z }.
Definition group_filter (subject : string) : bool :=
  bool_decide (subject = "epochgrid.v1.group._none_.message") ||
  match split_on "." subject with
  | [a; b; c; gid; kind] =>
      bool_decide ([a; b; c] = ["epochgrid"; "v1"; "group"]) && is_ok (validate_gid gid)
      && (bool_decide (kind = "message") || bool_decide (kind = "handshake"))
  | _ => false
  end.
(* @src core/history.rs 137-164 consumer *)
Definition chat_consumer (consumer : string -> M Link (Attempted ChatConsumer)) : M (Client St) ChatConsumer :=
  let* c := device_consumer consumer in
  let* dynamic := read_db dynamic_authorization in
  ensure ((if dynamic : bool
           then bool_decide (cc_filter c = EmptyString) && negb (bool_decide (cc_filters c = []))
                && forallb group_filter (cc_filters c)
           else bool_decide (cc_filter c = "epochgrid.v1.group.*.*"))
          && (cc_max_ack_pending c =? 1))
    "unexpected CHAT consumer configuration" ;;;
  ret c.

(** What an upload draws; [up_retention] is the retention of the bucket. *)
Record UploadDraws : Type := {
  up_sync : SyncDraws;
  up_retention : result Z;
  up_entropy : bytes * bytes * bytes;
  up_clock : result Z;
  up_stored : result unit;
  up_send : Replies * Replies * Replies;
  up_deliveries : result (list (result ChatDelivery));
  up_random : bytes * bytes * bytes;
}.
(* @src core/attachments.rs 371-385 send_file (transfer) *)
Definition transfer (name gid filename mime : string) (data : bytes) (l : Limits) (u : UploadDraws)
  : M (Client St) string :=
  let* _ := synchronize name (up_sync u) in
  let* retention := lift (up_retention u) in
  ensure (0 <? retention) "attachment bucket requires finite retention" ;;;
  let l := {| max_bytes := max_bytes l; ttl_seconds := Z.min (ttl_seconds l) retention |} in
  let '(random, key, nonce) := up_entropy u in
  let* encrypted := lift (encrypt_attachment gid filename mime data l random key nonce (up_clock u)) in
  let '(manifest, ciphertext) := encrypted in
  put_object (up_stored u) (mf_id manifest) ciphertext ;;;
  let* encoded := lift (encode_manifest manifest) in
  let '(before, middle, after) := up_send u in
  let '(nonce, rnd, rnd') := up_random u in
  on_world (send capacity ask refresh name encoded nonce rnd rnd' before middle after (up_deliveries u)) ;;;
  ret (mf_id manifest).
(* @src core/attachments.rs 341-386 send_file *)
Definition send_file (name path mime : string) (l : Limits) (u : UploadDraws) : M (Client St) string :=
  lift (validate_limits l) ;;;
  on_db ensure_messaging_identity ;;;
  let* g := read_db (group name) in
  let* ms := read_db (members name) in
  ensure (2 <=? zlen ms) "invite a peer before sending attachments" ;;;
  let* fs := gets (fun c => dk_fs (cl_disk c)) in
  let* node := lift (follow 40 path fs) in
  ensure (is_file node) "attachment must be a regular file" ;;;
  ensure (is_file node && (zlen (contents node) <=? max_bytes l))
    "attachment exceeds configured size limit or is not a regular file" ;;;
  let data := take (Z.to_nat (max_bytes l + 1)) (contents node) in
  let* filename := lift (ok_or (file_name path) (Anyhow "attachment filename must be UTF-8")) in
  transfer name (grp_gid g) filename mime data l u.

(** The output is created only after every byte was authenticated, and removed
    again when writing it fails. *)
(* @src core/attachments.rs 454-482 save_file *)
Definition save_file (name id output : string) (l : Limits) (now now' : result Z) (info : result ObjectInfo)
    (fetch : string -> Z -> result StoredChunk) : M (Client St) unit :=
  let* plaintext := read_db (download name id l now now' info fetch) in
  on_files (new_file output (write_synced output plaintext)).
End operations.
