(* ===== verification/Opening.v ===== *)
(** * Opening a device's store

    [IdentityStore::open] of [crates/epochgrid-core/src/identity.rs] and the eight
    migrations it runs ([migrate_*] of identity.rs, trust.rs, revocation.rs,
    recovery.rs, attachments.rs, receipts.rs, relationships.rs and
    participants.rs): each is one transaction with the version it records, and an
    open can stop between any two. *)
From stdpp Require Import sorting.
From S2P Require Import Prelude External Wire Capacity Identity Registry Merkle Transparency Files Mls ClientDb IdentityStore Revocation Groups Setup Development Delivery Attachments Relationships Messaging.

(** ** State

    The tables as an open finds them, and the rows of [epochgrid_migrations]. A
    table holds nothing before the migration that creates it. *)
Record Upgrade (St : Type) : Type := { up_versions : gset Z; up_db : ClientDb St }.
Arguments up_versions {St}. Arguments up_db {St}.
(** What interrupts each migration, by its version: an error of the database, or
    the end of the process. *)
Abbreviation Faults := (Z -> option error).
Definition undisturbed : Faults := fun _ => None.
(** [COALESCE(MAX(version),0)]. *)
Definition schema_version (versions : gset Z) : Z := foldr Z.max 0 (elements versions).

(** What comes before the tables are read: no plaintext database, the directory
    and its permissions, the lock, the two opens of the database and the
    migrations of the MLS storage between them. *)
Record Prepared : Type := {
  pr_plaintext : result unit;
  pr_directory : result unit;
  pr_lock : result unit;
  pr_database : result unit;
  pr_storage : result unit;
  pr_reopened : result unit;
}.

Section opening.
Context {St : Type} `{Pages (ClientDb St)} `{Mls St} `{MlsPackages} `{Base32} `{Sha256}
  `{Postcard ApplicationEvent} `{Postcard ApplicationTuple} `{Postcard LegacyTuple}.
Implicit Types (d : ClientDb St) (u : Upgrade St).

Definition by_rowid (a b : Z * TranscriptRow) : Prop := fst a <= fst b.
#[local] Instance by_rowid_dec : RelDecision by_rowid.
Proof. intros a b. unfold by_rowid. apply _. Defined.
Definition with_loaded (f : MlsGroup -> M (ClientDb St) unit) (g : Group) : M (ClientDb St) unit :=
  let* r := gets (load_group g) in
  let* m := lift r in
  f m.
(* @src core/identity.rs 145-149 migrate_multi_device (group) *)
Definition seed_epoch (g : Group) (m : MlsGroup) : M (ClientDb St) unit :=
  let* epochs := gets (fun d => join_epochs (chat d)) in
  lift (require (g_epoch m <=? i64_max) External) ;;;
  let* epochs := lift (insert_row (grp_gid g) (g_epoch m) epochs) in
  modify (set_chat (set_join_epochs (fun _ => epochs))).
(* @src core/identity.rs 144-150 migrate_multi_device (groups) *)
Definition seed_join_epochs : M (ClientDb St) unit :=
  let* gs := gets groups in
  for_each gs (fun g => with_loaded (seed_epoch g) g).
(* @src core/revocation.rs 247-249 migrate_revocation (groups) *)
Definition seed_coordinators : M (ClientDb St) unit :=
  let* gs := gets groups in
  for_each gs (with_loaded refresh_coordinator).
(* @src core/receipts.rs 55-57 migrate_receipts (transcript) *)
Definition seed_receipts : M (ClientDb St) unit :=
  let* table := gets (fun d => transcript (chat d)) in
  for_each (merge_sort by_rowid (map_to_list table)) (fun '(row, t) => index_receipt row (tr_gid t) (tr_payload t)).
(* @src core/relationships.rs 179-181 migrate_relationships (transcript) *)
Definition seed_applications : M (ClientDb St) unit :=
  let* table := gets (fun d => transcript (chat d)) in
  for_each (merge_sort by_rowid (map_to_list table)) (fun '(row, t) =>
    match tr_sender t, tr_plaintext t with
    | Some sender, Some plaintext => index_application row (tr_gid t) sender (tr_payload t) None plaintext
    | _, _ => ret tt
    end).

Section migrations.
Context (capacity : Capacity) (fault : Faults).
(** One transaction: the tables, their rows and the version, or none of them. *)
Definition migration (version : Z) (fill : M (ClientDb St) unit) : M (Upgrade St) unit := fun u =>
  let '(r, d) := transaction capacity
      (fill ;;; lift (match fault version with Some e => Err e | None => Ok tt end)) (up_db u) in
  (r, {| up_versions := if is_ok r then {[version]} ∪ up_versions u else up_versions u; up_db := d |}).
Definition migrate (version : Z) (fill : M (ClientDb St) unit) : M (Upgrade St) unit :=
  let* exists_ := gets (fun u => bool_decide (version ∈ up_versions u)) in
  if exists_ : bool then ret tt else migration version fill.

(* @src core/identity.rs 129-157 migrate_multi_device *)
Definition migrate_multi_device : M (Upgrade St) unit :=
  let* version := gets (fun u => schema_version (up_versions u)) in
  ensure (version <=? 8) "local schema is newer than this client" ;;;
  if version =? 0 then migration 1 seed_join_epochs else ret tt.
(* @src core/trust.rs 56-75 migrate_trust *)
Definition migrate_trust : M (Upgrade St) unit := migrate 2 (ret tt).
(* @src core/revocation.rs 234-254 migrate_revocation *)
Definition migrate_revocation : M (Upgrade St) unit := migrate 3 seed_coordinators.
(* @src core/recovery.rs 244-257 migrate_recovery *)
Definition migrate_recovery : M (Upgrade St) unit := migrate 4 (ret tt).
(* @src core/attachments.rs 244-257 migrate_attachments *)
Definition migrate_attachments : M (Upgrade St) unit := migrate 5 (ret tt).
(* @src core/receipts.rs 46-63 migrate_receipts *)
Definition migrate_receipts : M (Upgrade St) unit := migrate 6 seed_receipts.
(* @src core/relationships.rs 170-186 migrate_relationships *)
Definition migrate_relationships : M (Upgrade St) unit := migrate 7 seed_applications.
(* @src core/participants.rs 21-34 migrate_participants *)
Definition migrate_participants : M (Upgrade St) unit := migrate 8 (ret tt).
End migrations.

(** A validated policy keeps the limits far below the width of their sums. *)
(* @src core/capacity.rs 117-135 check_client *)
Definition check_client (capacity : Capacity) (reserve : bool) d : result unit :=
  check (table_size (groups_t (chat d)) <=? retained_groups capacity) "capacity exhausted: local groups" ;;?
  let pending := rows (fun _ r => negb (ob_sent r)) (outbox (chat d)) in
  let extra := if reserve then 32 else 0 in
  check ((zlen pending <=? pending_messages capacity + extra)
         && (foldr (fun '(_, r) n => zlen (ob_payload r) + n) 0 pending
             <=? pending_bytes capacity + extra * MAX_WIRE))
    "capacity below retained pending outbox usage" ;;?
  check_database_pure capacity reserve d.

(* @src core/identity.rs 62-128 open *)
Definition store_open (p : Prepared) (loaded : result Capacity) (fault : Faults) : M (Upgrade St) unit :=
  lift (pr_plaintext p) ;;;
  lift (pr_directory p) ;;;
  lift (pr_lock p) ;;;
  lift (pr_database p) ;;;
  lift (pr_storage p) ;;;
  lift (pr_reopened p) ;;;
  let* capacity := lift loaded in
  migrate_multi_device capacity fault ;;;
  migrate_trust capacity fault ;;;
  migrate_revocation capacity fault ;;;
  migrate_recovery capacity fault ;;;
  migrate_attachments capacity fault ;;;
  migrate_receipts capacity fault ;;;
  migrate_relationships capacity fault ;;;
  migrate_participants capacity fault ;;;
  let* r := gets (fun u => check_client capacity true (up_db u)) in
  lift r.

(** ** What the migrations keep *)

(** The tables of a store that is upgraded: rows are added to the join epochs
    and to the two indexes, coordinators are stored, messages may become
    displayed, and nothing else changes. *)
Definition displayed (t : TranscriptRow) : TranscriptRow := {|
  tr_gid := tr_gid t; tr_payload := tr_payload t; tr_sender := tr_sender t; tr_plaintext := tr_plaintext t;
  tr_outgoing := tr_outgoing t; tr_sequence := tr_sequence t; tr_displayed := true |}.
Definition shown_more (m m' : gmap Z TranscriptRow) : Prop := forall row,
  m' !! row = m !! row \/ m' !! row = displayed <$> m !! row.
Record upgraded d d' : Prop := {
  ug_identity : local_identity d' = local_identity d;
  ug_trust : trust d' = trust d;
  ug_revoked : revoked_devices (revocations d') = revoked_devices (revocations d);
  ug_blocked : blocked_outbox (revocations d') = blocked_outbox (revocations d);
  ug_checkpoint : revocation_checkpoint_t (revocations d') = revocation_checkpoint_t (revocations d);
  ug_groups : groups_t (chat d') = groups_t (chat d);
  ug_epochs : join_epochs (chat d) ⊆ join_epochs (chat d');
  ug_outbox : outbox (chat d') = outbox (chat d);
  ug_welcomes : welcomes (chat d') = welcomes (chat d);
  ug_received : received (chat d') = received (chat d);
  ug_deliveries : chat_deliveries (chat d') = chat_deliveries (chat d);
  ug_transcript : shown_more (transcript (chat d)) (transcript (chat d'));
  ug_references : receipt_messages (events d) ⊆ receipt_messages (events d');
  ug_receipts : device_receipts (events d') = device_receipts (events d);
  ug_events : message_events (events d) ⊆ message_events (events d');
  ug_attachments : attachments_t (events d') = attachments_t (events d);
  ug_participants : participant_events (events d') = participant_events (events d);
  ug_mls : mls d' = mls d;
  ug_recovery : recovery_metadata d' = recovery_metadata d;
}.
(** The connection is as it was opened. *)
Definition same_connection d d' : Prop :=
  cached_key d' = cached_key d /\ recovery_budget d' = recovery_budget d /\
  cl_autocommit d' = cl_autocommit d /\ cl_commit_ok d' = cl_commit_ok d.
Definition upgrades d d' : Prop := upgraded d d' /\ same_connection d d'.

#[local] Instance shown_more_preorder : PreOrder shown_more.
Proof.
  split; [by left|]. intros m1 m2 m3 H12 H23 row.
  destruct (H12 row) as [E12|E12], (H23 row) as [E23|E23]; rewrite E12 in E23; auto.
  rewrite E23. destruct (m1 !! row); auto.
Qed.
#[local] Instance upgraded_preorder : PreOrder upgraded.
Proof.
  split; [by split|]. intros d1 d2 d3 [] []. split; try congruence; by etrans.
Qed.
#[local] Instance upgrades_preorder : PreOrder upgrades.
Proof.
  split; [by split; [|split_and!]|]. intros d1 d2 d3 [? (?&?&?&?)] [? (?&?&?&?)].
  split; [by etrans|]. split_and!; congruence.
Qed.

Lemma upgrades_epochs d t : join_epochs (chat d) ⊆ t -> upgrades d (set_chat (set_join_epochs (fun _ => t)) d).
Proof. intros Ht. split; [|by split_and!]. by split. Qed.
Lemma upgrades_coordinators d f : upgrades d (set_revocations (set_coordinators f) d).
Proof. split; [by split|by split_and!]. Qed.
Lemma upgrades_references d f :
  receipt_messages (events d) ⊆ f (receipt_messages (events d)) ->
  upgrades d (set_events (set_receipt_messages f) d).
Proof. intros Hf. split; [by split|by split_and!]. Qed.
Lemma upgrades_indexed d t :
  message_events (events d) ⊆ t -> upgrades d (set_events (set_message_events (fun _ => t)) d).
Proof. intros Hf. split; [by split|by split_and!]. Qed.
Lemma upgrades_shown d p : upgrades d (set_chat (set_transcript (update_where p displayed)) d).
Proof.
  split; [split; try done|by split_and!]. intros row. cbn. unfold update_where. rewrite map_lookup_imap.
  destruct (transcript (chat d) !! row) as [t|]; [|by left]. cbn. destruct (p row t); auto.
Qed.
Lemma insert_row_grows {V} (k : Z) (v : V) (m t : gmap Z V) : insert_row k v m = Ok t -> m ⊆ t.
Proof. unfold insert_row. destruct (m !! k) eqn:Hk; [done|]. intros [= <-]. by apply insert_subseteq. Qed.

Lemma with_loaded_upgrades f g : (forall m, keeps upgrades (f m)) -> keeps upgrades (with_loaded f g).
Proof. intros Hf. unfold with_loaded. keeps_all. Qed.
Lemma seed_epoch_upgrades g m : keeps upgrades (seed_epoch g m).
Proof.
  intros d. unfold seed_epoch.
  unfold bind, gets, lift, modify. destruct (require _ _); [|done].
  destruct (insert_row _ _ _) as [t|e] eqn:Ht; [|done]. cbn [snd].
  apply upgrades_epochs. unfold insert_row in Ht. destruct (join_epochs (chat d) !! grp_gid _) eqn:Hk; [done|].
  injection Ht as <-. by apply insert_subseteq.
Qed.
Lemma seed_join_epochs_upgrades : keeps upgrades seed_join_epochs.
Proof.
  unfold seed_join_epochs. keeps_all. apply with_loaded_upgrades. intros m. apply seed_epoch_upgrades.
Qed.
Lemma refresh_coordinator_upgrades g : keeps upgrades (refresh_coordinator g).
Proof.
  intros d. unfold refresh_coordinator. repeat case_match; try done.
  all: unfold bind, lift, modify; destruct (from_mls_id _); [|done]; apply upgrades_coordinators.
Qed.
Lemma seed_coordinators_upgrades : keeps upgrades seed_coordinators.
Proof.
  unfold seed_coordinators. keeps_all. apply with_loaded_upgrades, refresh_coordinator_upgrades.
Qed.
Lemma index_receipt_upgrades row gid b : keeps upgrades (index_receipt row gid b).
Proof.
  intros d. unfold index_receipt, bind, lift, modify. destruct (hash b) as [h|]; [|done]. cbn [snd].
  apply upgrades_references. destruct (exists_row _ _) eqn:Hx; [done|]. apply insert_subseteq.
  destruct (receipt_messages (events d) !! row) as [v|] eqn:Hv; [|done].
  assert (exists_row (fun k v => (k =? row) || bool_decide (v = (gid, h))) (receipt_messages (events d)) = true);
    [|congruence].
  apply exists_row_true. exists row, v. by rewrite Z.eqb_refl.
Qed.
Lemma seed_receipts_upgrades : keeps upgrades seed_receipts.
Proof. unfold seed_receipts. keeps_all. apply index_receipt_upgrades. Qed.
Lemma index_application_upgrades row gid sender b e text :
  keeps upgrades (index_application row gid sender b e text).
Proof.
  intros d. unfold index_application, bind, lift, gets, modify.
  destruct (event_identity gid sender b e text) as [[id e']|]; [|done].
  destruct (to_allocvec e') as [eb|]; [|done]. cbv iota beta.
  destruct (insert_row _ _ _) as [t|] eqn:Ht; [|done]. cbn [snd].
  etrans; [apply (upgrades_indexed d t); by eapply insert_row_grows|]. apply upgrades_shown.
Qed.
Lemma seed_applications_upgrades : keeps upgrades seed_applications.
Proof. unfold seed_applications. keeps_all. apply index_application_upgrades. Qed.

(** ** One migration *)

Lemma schema_version_le (versions : gset Z) n :
  0 <= n -> schema_version versions <= n <-> forall v, v ∈ versions -> v <= n.
Proof.
  intros Hn. unfold schema_version. setoid_rewrite <- elem_of_elements.
  induction (elements versions) as [|x l IH]; simpl; [set_solver|].
  setoid_rewrite elem_of_cons. rewrite Z.max_lub_iff, IH. split; [by intros [? ?] v [->|?]; auto|]. auto.
Qed.
Lemma schema_version_member (versions : gset Z) v : v ∈ versions -> v <= schema_version versions.
Proof.
  intros Hv. unfold schema_version. apply elem_of_elements in Hv.
  induction (elements versions) as [|x l IH]; simpl; [set_solver|].
  apply elem_of_cons in Hv as [->|Hv]; [lia|]. specialize (IH Hv). lia.
Qed.
Lemma schema_version_nonneg (versions : gset Z) : 0 <= schema_version versions.
Proof. unfold schema_version. induction (elements versions); simpl; lia. Qed.
Lemma schema_version_mono (versions versions' : gset Z) :
  versions ⊆ versions' -> schema_version versions <= schema_version versions'.
Proof.
  intros Hs. apply schema_version_le; [apply schema_version_nonneg|]. intros v Hv.
  apply schema_version_member. set_solver.
Qed.

(** A connection that was just opened, and one on tables this client knows. *)
Definition connected u : Prop :=
  cl_autocommit (up_db u) = true /\ cached_key (up_db u) = None /\ recovery_budget (up_db u) = false.
Definition fresh u : Prop :=
  cl_autocommit (up_db u) = true /\ cached_key (up_db u) = None /\ recovery_budget (up_db u) = false /\
  schema_version (up_versions u) <= 8.
Definition begun d : ClientDb St := set_recovery false (set_cl_autocommit false d).
Definition committed d : ClientDb St := set_cl_autocommit true (set_recovery false d).
Lemma migration_run capacity fault v fill u r u' :
  keeps upgrades fill -> fresh u -> v <= 8 -> migration capacity fault v fill u = (r, u') ->
  fresh u' /\ match r with
  | Ok _ => exists d1, fill (begun (up_db u)) = (Ok tt, d1) /\
      check_database_pure capacity false d1 = Ok tt /\ cl_commit_ok d1 = true /\
      u' = {| up_versions := {[v]} ∪ up_versions u; up_db := committed d1 |} /\
      upgraded (up_db u) (up_db u')
  | Err _ => u' = u
  end.
Proof.
  intros Hk (Ha & Hc & Hr & Hs) Hv Hm. unfold migration in Hm.
  destruct (transaction _ _ _) as [r1 d] eqn:Ht. injection Hm as <- <-.
  pose proof (Hk (begun (up_db u))) as Hu. unfold transaction, transaction_budget in Ht. cbn [autocommit set_autocommit commit_ok client_connection] in Ht.
  rewrite Ha in Ht. fold (begun (up_db u)) in Ht. rewrite !bind_assoc in Ht.
  destruct (fill (begun (up_db u))) as [[[]|e] d1] eqn:Hf; cbn [snd] in Hu; destruct Hu as [Hu (Hu1 & Hu2 & Hu3 & Hu4)].
  2: { unfold bind at 1 in Ht. rewrite Hf in Ht. injection Ht as <- <-. unfold rolled_back. cbn. rewrite Hu1. cbn.
       rewrite Hc. split; [done|]. destruct u as [vs []]; cbn in *. by subst. }
  rewrite (bind_run _ _ _ _ _ Hf) in Ht.
  destruct (match fault v with Some e => Err e | None => Ok tt end) as [[]|e] eqn:Hfault.
  2: { unfold bind at 1 in Ht. cbn in Ht. injection Ht as <- <-. unfold rolled_back. rewrite Hu1. cbn.
       rewrite Hc. split; [done|]. destruct u as [vs []]; cbn in *. by subst. }
  rewrite (bind_run _ _ d1 tt d1) in Ht by done. unfold bind, check_database in Ht.
  destruct (check_database_pure capacity false d1) as [[]|e] eqn:Hcap.
  2: { injection Ht as <- <-. unfold rolled_back. rewrite Hu1. cbn.
       rewrite Hc. split; [done|]. destruct u as [vs []]; cbn in *. by subst. }
  cbn in Ht. destruct (cl_commit_ok d1) eqn:Hcommit; injection Ht as <- <-.
  - split; [split_and!; try done; [by cbn; rewrite Hu1|]|].
    + apply schema_version_le; [lia|]. intros x Hx. cbn in Hx.
      apply elem_of_union in Hx as [->%elem_of_singleton|Hx]; [done|].
      etrans; [by apply schema_version_member|done].
    + exists d1. split_and!; try done. by destruct Hu.
  - unfold rolled_back. rewrite Hu1. cbn. rewrite Hc. split; [done|]. destruct u as [vs []]; cbn in *. by subst.
Qed.

(** ** Interrupted upgrades *)

(** A step of an upgrade that would complete from [u] in [u']: an attempt under
    any policy and any interruption either completes it there, or leaves a store
    from which it completes there; once it was done, it does nothing. *)
Definition resumes (m : Capacity -> Faults -> M (Upgrade St) unit) : Prop := forall c c' f u u',
  fresh u -> m c undisturbed u = (Ok tt, u') ->
  fresh u' /\ up_versions u ⊆ up_versions u' /\
  (forall r w, m c' f u = (r, w) ->
     fresh w /\ up_versions u ⊆ up_versions w /\ m c undisturbed w = (Ok tt, u') /\ (r = Ok tt -> w = u')) /\
  (forall w, fresh w -> up_versions u' ⊆ up_versions w -> m c undisturbed w = (Ok tt, w)).

Lemma resumes_bind m1 m2 : resumes m1 -> resumes m2 -> resumes (fun c f => m1 c f ;;; m2 c f).
Proof.
  intros H1' H2' c c' f u u' Hu Hrun. apply bind_Ok in Hrun as ([] & u1 & Hm1 & Hm2).
  destruct (H1' c c' f _ _ Hu Hm1) as (Hu1 & Hg1 & Ha1 & Hd1).
  destruct (H2' c c' f _ _ Hu1 Hm2) as (Hu2 & Hg2 & Ha2 & Hd2).
  split_and!; [done|by etrans| |].
  - intros r w Hr. apply bind_cases in Hr as [(e & Hr & ->)|([] & w1 & Hr & Hr')].
    + destruct (Ha1 _ _ Hr) as (Hw & Hgw & Hmw & _). split_and!; try done.
      by rewrite (bind_run _ _ _ _ _ Hmw).
    + destruct (Ha1 _ _ Hr) as (_ & _ & _ & Hw1). rewrite (Hw1 eq_refl) in Hr'.
      destruct (Ha2 _ _ Hr') as (Hw & Hgw & Hmw & Hok). split_and!; try done; [by etrans|].
      by rewrite (bind_run _ _ w tt w) by by apply Hd1.
  - intros w Hw Hs. rewrite (bind_run _ _ w tt w); [by apply Hd2|]. apply Hd1; [done|by etrans].
Qed.
Lemma migration_resumes v fill c c' f u u' r w :
  keeps upgrades fill -> v <= 8 -> fresh u -> v ∉ up_versions u ->
  migration c undisturbed v fill u = (Ok tt, u') -> migration c' f v fill u = (r, w) ->
  r = Ok tt /\ w = u' \/ is_ok r = false /\ w = u.
Proof.
  intros Hk Hv Hu Hnew Hm Hm'. apply migration_run in Hm as (_ & d1 & Hf & _ & _ & -> & _); try done.
  apply migration_run in Hm' as [_ Hr]; try done. destruct r as [[]|e]; [|by right].
  destruct Hr as (d2 & Hf' & _ & _ & -> & _). left. split; [done|]. congruence.
Qed.
Lemma migrate_resumes v fill :
  keeps upgrades fill -> v <= 8 -> resumes (fun c f => migrate c f v fill).
Proof.
  intros Hk Hv c c' f u u' Hu Hrun. unfold migrate in *.
  rewrite (bind_run _ _ u (bool_decide (v ∈ up_versions u)) u) in Hrun by done.
  assert (forall w, v ∈ up_versions w -> (let* x := gets (fun u => bool_decide (v ∈ up_versions u)) in
    if x : bool then ret tt else migration c undisturbed v fill) w = (Ok tt, w)) as Hdone.
  { intros w Hw. rewrite (bind_run _ _ w true w); [done|]. unfold gets. by rewrite bool_decide_eq_true_2. }
  case_bool_decide as Hin.
  { injection Hrun as <-. split_and!; try done.
    - intros r w Hr. rewrite (bind_run _ _ u true u) in Hr; [|unfold gets; by rewrite bool_decide_eq_true_2].
      injection Hr as <- <-. split_and!; try done. by apply Hdone.
    - intros w Hw Hs. apply Hdone. set_solver. }
  destruct (migration_run _ _ _ _ _ _ _ Hk Hu Hv Hrun) as (Hu' & d1 & _ & _ & _ & Eu & _).
  split_and!; [done|subst u'; set_solver| |].
  - intros r w Hr. rewrite (bind_run _ _ u false u) in Hr; [|unfold gets; by rewrite bool_decide_eq_false_2].
    destruct (migration_resumes _ _ _ _ _ _ _ _ _ Hk Hv Hu Hin Hrun Hr) as [[-> ->]|[Hr' ->]].
    + split_and!; try done; [subst u'; set_solver|]. apply Hdone. subst u'. set_solver.
    + split_and!; try done; [|by intros ->].
      by rewrite (bind_run _ _ u false u); [|unfold gets; by rewrite bool_decide_eq_false_2].
  - intros w Hw Hs. apply Hdone. subst u'. set_solver.
Qed.
Lemma migrate_multi_device_resumes : resumes migrate_multi_device.
Proof.
  intros c c' f u u' Hu Hrun. unfold migrate_multi_device in *.
  assert (forall c f w, fresh w -> (let* version := gets (fun u => schema_version (up_versions u)) in
    ensure (version <=? 8) "local schema is newer than this client" ;;;
    if version =? 0 then migration c f 1 seed_join_epochs else ret tt) w =
    (if schema_version (up_versions w) =? 0 then migration c f 1 seed_join_epochs else ret tt) w) as Hrew.
  { intros c0 f0 w (_ & _ & _ & Hs). rewrite (bind_run _ _ w (schema_version (up_versions w)) w) by done.
    apply Z.leb_le in Hs. rewrite Hs. by rewrite (bind_run _ _ w tt w). }
  assert (forall w, fresh w -> 0 < schema_version (up_versions w) ->
    (let* version := gets (fun u => schema_version (up_versions u)) in
    ensure (version <=? 8) "local schema is newer than this client" ;;;
    if version =? 0 then migration c undisturbed 1 seed_join_epochs else ret tt) w = (Ok tt, w)) as Hdone.
  { intros w Hw Hpos. rewrite Hrew by done. by destruct (Z.eqb_spec (schema_version (up_versions w)) 0); [lia|]. }
  rewrite Hrew in Hrun by done.
  pose proof (schema_version_nonneg (up_versions u)) as Hnn.
  destruct (Z.eqb_spec (schema_version (up_versions u)) 0) as [Hz|Hz].
  2: { injection Hrun as <-. split_and!; try done.
       - intros r w Hr. rewrite Hrew in Hr by done.
         destruct (Z.eqb_spec (schema_version (up_versions u)) 0); [done|]. injection Hr as <- <-.
         split_and!; try done. apply Hdone; [done|lia].
       - intros w Hw Hs. apply Hdone; [done|]. pose proof (schema_version_mono _ _ Hs). lia. }
  assert (1 ∉ up_versions u) as Hin by (intros Hin%schema_version_member; lia).
  destruct (migration_run _ _ 1 _ _ _ _ seed_join_epochs_upgrades Hu ltac:(lia) Hrun)
    as (Hu' & d1 & _ & _ & _ & Eu & _).
  assert (1 <= schema_version (up_versions u')) as Hu1 by (apply schema_version_member; subst u'; set_solver).
  split_and!; [done|subst u'; set_solver| |].
  - intros r w Hr. rewrite Hrew, Hz in Hr by done.
    destruct (migration_resumes 1 _ _ _ _ _ _ _ _ seed_join_epochs_upgrades ltac:(lia) Hu Hin Hrun Hr)
      as [[-> ->]|[Hr' ->]].
    + split_and!; try done; [subst u'; set_solver|]. apply Hdone; [done|lia].
    + split_and!; try done; [|by intros ->]. rewrite Hrew by done. rewrite Hz. exact Hrun.
  - intros w Hw Hs. apply Hdone; [done|]. pose proof (schema_version_mono _ _ Hs). lia.
Qed.
Definition ladder (c : Capacity) (f : Faults) : M (Upgrade St) unit :=
  migrate_multi_device c f ;;; migrate_trust c f ;;; migrate_revocation c f ;;; migrate_recovery c f ;;;
  migrate_attachments c f ;;; migrate_receipts c f ;;; migrate_relationships c f ;;; migrate_participants c f.
Lemma keeps_upgrades_ret : keeps upgrades (ret tt).
Proof. by intros d. Qed.
Lemma ladder_resumes : resumes ladder.
Proof.
  pose proof keeps_upgrades_ret as Hret.
  refine (resumes_bind migrate_multi_device _ migrate_multi_device_resumes _).
  refine (resumes_bind migrate_trust _ (migrate_resumes 2 _ Hret ltac:(lia)) _).
  refine (resumes_bind migrate_revocation _ (migrate_resumes 3 _ seed_coordinators_upgrades ltac:(lia)) _).
  refine (resumes_bind migrate_recovery _ (migrate_resumes 4 _ Hret ltac:(lia)) _).
  refine (resumes_bind migrate_attachments _ (migrate_resumes 5 _ Hret ltac:(lia)) _).
  refine (resumes_bind migrate_receipts _ (migrate_resumes 6 _ seed_receipts_upgrades ltac:(lia)) _).
  refine (resumes_bind migrate_relationships _ (migrate_resumes 7 _ seed_applications_upgrades ltac:(lia)) _).
  exact (migrate_resumes 8 _ Hret ltac:(lia)).
Qed.

(** ** Complete indexes *)

(** What the indexes hold once their migration ran: an epoch for each group, a
    reference for each message, an event for each message that was decrypted. *)
Definition epochs_seeded d : Prop := forall name e, groups_t (chat d) !! name = Some e ->
  is_Some (join_epochs (chat d) !! ge_gid e).
Definition referenced (row : Z) (t : TranscriptRow) d : Prop := exists h k v,
  hash (tr_payload t) = Ok h /\ receipt_messages (events d) !! k = Some v /\
  (k = row \/ v = (tr_gid t, h)).
Definition indexed_event (row : Z) (t : TranscriptRow) d : Prop :=
  is_Some (tr_sender t) -> is_Some (tr_plaintext t) -> is_Some (message_events (events d) !! row).
Definition all_messages (P : Z -> TranscriptRow -> ClientDb St -> Prop) d : Prop :=
  forall row t, transcript (chat d) !! row = Some t -> P row t d.
(** What a migration that runs writes. The epoch of a group is the one its MLS
    state is at; the event of a decrypted message is the one of a message
    without an envelope, under the digest of its group and ciphertext. *)
Definition at_current_epochs d d' : Prop := forall name e, groups_t (chat d) !! name = Some e ->
  exists epoch, group_epoch name d = Ok epoch /\ join_epochs (chat d') !! ge_gid e = Some epoch.
Definition legacy_event (row : Z) (t : TranscriptRow) d : Prop := forall sender text,
  tr_sender t = Some sender -> tr_plaintext t = Some text ->
  exists tuple id b,
    to_allocvec (("epochgrid legacy id v1", tr_gid t, tr_payload t) : LegacyTuple) = Ok tuple /\
    hash tuple = Ok id /\
    to_allocvec {| ae_nonce := repeat x00 16; ae_counter := 0; ae_content := text; ae_relation := None |} = Ok b /\
    message_events (events d) !! row = Some
      {| ev_gid := tr_gid t; ev_message_id := id_text id; ev_target := None; ev_kind := 0; ev_counter := 0;
         ev_event := b |}.
(** What a store holds in these two tables after some attempts: what it held when
    it was already migrated, or what the migration writes. *)
Record seeded u u' : Prop := {
  sd_epochs : if bool_decide (1 ∈ up_versions u) then join_epochs (chat (up_db u')) = join_epochs (chat (up_db u))
              else 1 ∈ up_versions u' -> at_current_epochs (up_db u) (up_db u');
  sd_events : if bool_decide (7 ∈ up_versions u) then message_events (events (up_db u')) = message_events (events (up_db u))
              else 7 ∈ up_versions u' -> all_messages legacy_event (up_db u');
}.
Record consistent u : Prop := {
  cs_epochs : 1 ∈ up_versions u -> epochs_seeded (up_db u);
  cs_references : 6 ∈ up_versions u -> all_messages referenced (up_db u);
  cs_events : 7 ∈ up_versions u -> all_messages indexed_event (up_db u);
}.

Lemma epochs_seeded_upgraded d d' : upgraded d d' -> epochs_seeded d -> epochs_seeded d'.
Proof.
  intros Hu He name e. rewrite (ug_groups _ _ Hu). intros [m Hm]%He. exists m.
  eapply lookup_weaken; [exact Hm|apply Hu].
Qed.
Lemma referenced_upgraded row t d d' : upgraded d d' -> referenced row t d -> referenced row t d'.
Proof.
  intros Hu (h & k & v & Hh & Hk & Ho). exists h, k, v. split_and!; try done.
  eapply lookup_weaken; [exact Hk|apply Hu].
Qed.
Lemma indexed_event_upgraded row t d d' : upgraded d d' -> indexed_event row t d -> indexed_event row t d'.
Proof.
  intros Hu Hi Hs Hp. destruct (Hi Hs Hp) as [e He]. exists e. eapply lookup_weaken; [exact He|apply Hu].
Qed.
(** Every message of the upgraded store was in the old one, but for its display. *)
Lemma all_messages_upgraded (P : Z -> TranscriptRow -> ClientDb St -> Prop) d d' :
  upgraded d d' -> (forall row t, P row t d' -> P row (displayed t) d') ->
  (forall row t, transcript (chat d) !! row = Some t -> P row t d') -> all_messages P d'.
Proof.
  intros Hu Hshow Hall row t Ht. destruct (ug_transcript _ _ Hu row) as [E|E]; rewrite E in Ht; [by apply Hall|].
  destruct (transcript (chat d) !! row) as [t0|] eqn:Ht0; [|done]. injection Ht as <-. by apply Hshow, Hall.
Qed.

Lemma legacy_indexed row t d : legacy_event row t d -> indexed_event row t d.
Proof. intros Hl [sender Hs] [text Ht]. destruct (Hl _ _ Hs Ht) as (? & ? & ? & _ & _ & _ & ->). by eexists. Qed.
Lemma legacy_event_upgraded row t d d' : upgraded d d' -> legacy_event row t d -> legacy_event row t d'.
Proof.
  intros Hu Hl sender text Hs Ht. destruct (Hl _ _ Hs Ht) as (tuple & id & b & ? & ? & ? & Hrow).
  exists tuple, id, b. split_and!; try done. eapply lookup_weaken; [exact Hrow|apply Hu].
Qed.
Lemma group_epoch_upgraded name d d' : upgraded d d' -> group_epoch name d' = group_epoch name d.
Proof. intros Hu. unfold group_epoch, group, load_group. by rewrite (ug_groups _ _ Hu), (ug_mls _ _ Hu). Qed.
Lemma at_current_epochs_seeded d d' : upgraded d d' -> at_current_epochs d d' -> epochs_seeded d'.
Proof.
  intros Hu Ha name e He. rewrite (ug_groups _ _ Hu) in He. destruct (Ha _ _ He) as (epoch & _ & ->). by eexists.
Qed.

Lemma seed_join_epochs_complete d d' : seed_join_epochs d = (Ok tt, d') -> at_current_epochs d d'.
Proof.
  intros Hr. unfold seed_join_epochs in Hr. apply bind_Ok in Hr as (gs & d0 & [-> ->]%gets_Ok & Hr).
  assert (forall g s s', with_loaded (seed_epoch g) g s = (Ok tt, s') -> upgraded s s') as Hstep.
  { intros g s s' Hg. pose proof (with_loaded_upgrades (seed_epoch g) g (seed_epoch_upgrades g) s) as Hk.
    rewrite Hg in Hk. apply Hk. }
  apply (for_each_Ok (upgraded d) (fun g s => exists m, load_group g d = Ok m /\
    join_epochs (chat s) !! grp_gid g = Some (g_epoch m))) in Hr as (_ & Hall & _); [| | |done].
  - intros name e He. rewrite List.Forall_forall in Hall.
    destruct (Hall {| grp_name := name; grp_gid := ge_gid e; grp_mls_id := ge_mls_id e |}) as (m & Hm & Hj).
    { apply list_elem_of_In. unfold groups. rewrite (merge_sort_Permutation by_group_name).
      apply list_elem_of_fmap. exists (name, e). split; [done|]. by apply elem_of_map_to_list. }
    exists (g_epoch m). split; [|exact Hj]. unfold group_epoch, group. rewrite He. simpl. by rewrite Hm.
  - intros g s s' Hds Hg. split; [etrans; [exact Hds|by eapply Hstep]|]. unfold with_loaded in Hg.
    apply bind_Ok in Hg as (r & s1 & [-> ->]%gets_Ok & Hg). apply bind_Ok in Hg as (m & s1 & [Hm ->]%lift_Ok & Hg).
    apply bind_Ok in Hg as (t & s1 & [-> ->]%gets_Ok & Hg). apply bind_Ok in Hg as ([] & s1 & [_ ->]%lift_Ok & Hg).
    apply bind_Ok in Hg as (t & s1 & [[_ ->]%insert_row_Ok ->]%lift_Ok & ->%modify_Ok). cbn.
    rewrite lookup_insert_eq. exists m. split; [|done]. unfold load_group in *. by rewrite <- (ug_mls _ _ Hds).
  - intros g g' s s' _ (m & Hm & Hj) Hg. exists m. split; [done|].
    eapply lookup_weaken; [exact Hj|]. by eapply ug_epochs, Hstep.
Qed.
Lemma seed_receipts_complete d d' : seed_receipts d = (Ok tt, d') -> all_messages referenced d'.
Proof.
  intros Hr. pose proof (seed_receipts_upgrades d) as Hu. rewrite Hr in Hu. destruct Hu as [Hu _]. cbn [snd] in Hu.
  apply (all_messages_upgraded _ d); [done|done|].
  unfold seed_receipts in Hr. apply bind_Ok in Hr as (table & d0 & [-> ->]%gets_Ok & Hr).
  apply (for_each_Ok (fun _ => True) (fun '(row, t) s => referenced row t s)) in Hr as (_ & Hall & _); [| | |done].
  - intros row t Ht. rewrite List.Forall_forall in Hall. apply (Hall (row, t)), list_elem_of_In.
    rewrite (merge_sort_Permutation by_rowid). by apply elem_of_map_to_list.
  - intros [row t] s s' _ Hg. split; [done|]. unfold index_receipt in Hg.
    apply bind_Ok in Hg as (h & s1 & [Hh ->]%lift_Ok & ->%modify_Ok). unfold referenced. cbn.
    destruct (exists_row _ _) eqn:Hx.
    + apply exists_row_true in Hx as (k & v & Hk & Ho). apply orb_true_iff in Ho. exists h, k, v.
      split_and!; [done|done|]. destruct Ho; [left; lia|right; by bool_prop].
    + exists h, row, (tr_gid t, h). rewrite lookup_insert_eq. auto.
  - intros [row t] [row' t'] s s' _ Hp Hg. pose proof (index_receipt_upgrades row' (tr_gid t') (tr_payload t') s) as Hk.
    rewrite Hg in Hk. by eapply referenced_upgraded; [apply Hk|].
Qed.
Lemma seed_applications_complete d d' : seed_applications d = (Ok tt, d') -> all_messages legacy_event d'.
Proof.
  intros Hr. pose proof (seed_applications_upgrades d) as Hu. rewrite Hr in Hu. destruct Hu as [Hu _]. cbn [snd] in Hu.
  apply (all_messages_upgraded _ d); [done|done|].
  unfold seed_applications in Hr. apply bind_Ok in Hr as (table & d0 & [-> ->]%gets_Ok & Hr).
  apply (for_each_Ok (fun _ => True) (fun '(row, t) s => legacy_event row t s)) in Hr as (_ & Hall & _); [| | |done].
  - intros row t Ht. rewrite List.Forall_forall in Hall. apply (Hall (row, t)), list_elem_of_In.
    rewrite (merge_sort_Permutation by_rowid). by apply elem_of_map_to_list.
  - intros [row t] s s' _ Hg. split; [done|]. intros sender text Hs Hp. rewrite Hs, Hp in Hg.
    unfold index_application in Hg. apply bind_Ok in Hg as ([id e] & s1 & [He ->]%lift_Ok & Hg).
    apply rbind_Ok in He as (tuple & Htuple & He). apply rbind_Ok in He as (id' & Hid & [= -> <-]).
    apply bind_Ok in Hg as (b & s1 & [Hb ->]%lift_Ok & Hg). apply bind_Ok in Hg as (table & s1 & [-> ->]%gets_Ok & Hg).
    apply bind_Ok in Hg as (table & s1 & [[_ ->]%insert_row_Ok ->]%lift_Ok & Hg).
    apply bind_Ok in Hg as ([] & s1 & ->%modify_Ok & ->%modify_Ok). exists tuple, id, b.
    split_and!; [done..|]. cbn. by rewrite lookup_insert_eq.
  - intros [row t] [row' t'] s s' _ Hp Hg. eapply legacy_event_upgraded; [|exact Hp].
    destruct (tr_sender t') as [sender|], (tr_plaintext t') as [text|]; try (by apply ret_Ok in Hg as [_ ->]).
    pose proof (index_application_upgrades row' (tr_gid t') sender (tr_payload t') None text s) as Hk.
    rewrite Hg in Hk. apply Hk.
Qed.

(** ** A whole open *)

(** What the other migrations leave alone. *)
Definition same_seeds d d' : Prop :=
  join_epochs (chat d') = join_epochs (chat d) /\ message_events (events d') = message_events (events d).
#[local] Instance same_seeds_preorder : PreOrder same_seeds.
Proof. split; [done|]. intros d1 d2 d3 [? ?] [? ?]. split; congruence. Qed.
Definition same_events d d' : Prop := message_events (events d') = message_events (events d).
#[local] Instance same_events_preorder : PreOrder same_events.
Proof. split; [done|]. intros d1 d2 d3 ? ?. unfold same_events in *. congruence. Qed.
Definition same_epochs d d' : Prop := join_epochs (chat d') = join_epochs (chat d).
#[local] Instance same_epochs_preorder : PreOrder same_epochs.
Proof. split; [done|]. intros d1 d2 d3 ? ?. unfold same_epochs in *. congruence. Qed.
Lemma seed_join_epochs_other : keeps same_events seed_join_epochs.
Proof. unfold seed_join_epochs, with_loaded, seed_epoch. keeps_all; by intros d. Qed.
Lemma seed_coordinators_same : keeps same_seeds seed_coordinators.
Proof.
  unfold seed_coordinators, with_loaded. keeps_all. intros d. unfold refresh_coordinator. repeat case_match; try done.
  all: unfold bind, lift, modify; by destruct (from_mls_id _).
Qed.
Lemma seed_receipts_same : keeps same_seeds seed_receipts.
Proof. unfold seed_receipts, index_receipt. keeps_all; by intros d. Qed.
Lemma seed_applications_epochs : keeps same_epochs seed_applications.
Proof. unfold seed_applications, index_application. keeps_all; by intros d. Qed.

(** What a migration writes, by its version, from [d] to [d']; the tables of the
    other migrations stay as they are. *)
Record complete (v : Z) d d' : Prop := {
  cp_epochs : if v =? 1 then at_current_epochs d d' else join_epochs (chat d') = join_epochs (chat d);
  cp_references : v = 6 -> all_messages referenced d';
  cp_events : if v =? 7 then all_messages legacy_event d'
              else message_events (events d') = message_events (events d);
}.
Definition climbs u u' : Prop := fresh u ->
  fresh u' /\ up_versions u ⊆ up_versions u' /\ upgraded (up_db u) (up_db u') /\
  (consistent u -> consistent u') /\ seeded u u'.
Lemma seeded_refl u : seeded u u.
Proof. split; by case_bool_decide. Qed.
Lemma seeded_trans u1 u2 u3 :
  up_versions u1 ⊆ up_versions u2 -> upgraded (up_db u1) (up_db u2) -> upgraded (up_db u2) (up_db u3) ->
  seeded u1 u2 -> seeded u2 u3 -> seeded u1 u3.
Proof.
  intros Hv Hu12 Hu23 [He1 Hm1] [He2 Hm2]. split.
  - destruct (bool_decide_reflect (1 ∈ up_versions u1)) as [Hin1|Hin1].
    { rewrite bool_decide_eq_true_2 in He2 by set_solver. congruence. }
    intros Hv3. destruct (bool_decide_reflect (1 ∈ up_versions u2)) as [Hin2|Hin2]; intros name e He.
    + rewrite He2. by apply He1.
    + destruct (He2 Hv3 name e) as (epoch & Hg & Hj); [by rewrite (ug_groups _ _ Hu12)|].
      exists epoch. split; [|done]. by rewrite <- (group_epoch_upgraded _ _ _ Hu12).
  - destruct (bool_decide_reflect (7 ∈ up_versions u1)) as [Hin1|Hin1].
    { rewrite bool_decide_eq_true_2 in Hm2 by set_solver. congruence. }
    intros Hv3. destruct (bool_decide_reflect (7 ∈ up_versions u2)) as [Hin2|Hin2]; [|by apply Hm2].
    apply (all_messages_upgraded _ _ _ Hu23); [done|]. intros row t Ht. specialize (Hm1 Hin2 row t Ht).
    by eapply legacy_event_upgraded.
Qed.
#[local] Instance climbs_preorder : PreOrder climbs.
Proof.
  split; [by intros u Hu; split_and!; [..|apply seeded_refl]|]. intros u1 u2 u3 H12 H23 Hu.
  destruct (H12 Hu) as (Hu2 & ? & ? & ? & ?). destruct (H23 Hu2) as (Hu3 & ? & ? & ? & ?).
  split_and!; [done|by etrans|by etrans|auto|by eapply seeded_trans].
Qed.
Lemma all_messages_more (P : Z -> TranscriptRow -> ClientDb St -> Prop) d d' :
  upgraded d d' -> (forall row t, P row t d -> P row t d') -> (forall row t, P row t d' -> P row (displayed t) d') ->
  all_messages P d -> all_messages P d'.
Proof. intros Hu Hmore Hshow Hall. eapply all_messages_upgraded; [done|done|]. intros row t Ht. by apply Hmore, Hall. Qed.
Lemma complete_consistent v u u' :
  upgraded (up_db u) (up_db u') -> up_versions u' = {[v]} ∪ up_versions u ->
  complete v (up_db u) (up_db u') -> consistent u -> consistent u'.
Proof.
  intros Hu Ev [He Hr Hm] [].
  split; rewrite Ev; intros [<-%elem_of_singleton|Hin]%elem_of_union; auto.
  - by apply (at_current_epochs_seeded _ _ Hu).
  - eapply epochs_seeded_upgraded; eauto.
  - eapply all_messages_more; eauto. intros row t. by apply referenced_upgraded.
  - intros row t Ht. by apply legacy_indexed, Hm.
  - eapply all_messages_more; eauto. intros row t. by apply indexed_event_upgraded.
Qed.
Lemma complete_seeded v u u' :
  v ∉ up_versions u -> up_versions u' = {[v]} ∪ up_versions u -> complete v (up_db u) (up_db u') -> seeded u u'.
Proof.
  intros Hnew Ev [He _ Hm]. split; rewrite Ev.
  - case_bool_decide as Hin; [|intros [<-%elem_of_singleton|?]%elem_of_union; done].
    destruct (Z.eqb_spec v 1) as [->|]; [done|exact He].
  - case_bool_decide as Hin; [|intros [<-%elem_of_singleton|?]%elem_of_union; done].
    destruct (Z.eqb_spec v 7) as [->|]; [done|exact Hm].
Qed.
(** What [fill] writes inside the transaction is what the store then has. *)
Definition fills v (fill : M (ClientDb St) unit) : Prop := keeps upgrades fill /\
  forall d d', fill d = (Ok tt, d') -> complete v d d'.
Lemma complete_begun v d d' : complete v (begun d) d' -> complete v d (committed d').
Proof. by intros [He Hr Hm]; split; destruct (v =? 1), (v =? 7). Qed.
Lemma migration_climbs c f v fill u :
  fills v fill -> v <= 8 -> v ∉ up_versions u -> climbs u (snd (migration c f v fill u)).
Proof.
  intros [Hk Hc] Hv Hnew Hu. destruct (migration c f v fill u) as [r u'] eqn:Hm. cbn [snd].
  apply migration_run in Hm as [Hu' Hr]; try done.
  destruct r as [[]|e]; [|subst; split_and!; try done; apply seeded_refl].
  destruct Hr as (d1 & Hf & _ & _ & Eu & Hup). apply Hc, complete_begun in Hf.
  assert (up_versions u' = {[v]} ∪ up_versions u) as Ev by by subst u'.
  assert (complete v (up_db u) (up_db u')) as Hcp by by subst u'.
  split_and!; [done|rewrite Ev; set_solver|done|by apply (complete_consistent v)|by apply (complete_seeded v)].
Qed.
Lemma migration_Ok c f v fill u u' : migration c f v fill u = (Ok tt, u') -> v ∈ up_versions u'.
Proof.
  unfold migration. destruct (transaction _ _ _) as [[[]|e] d]; [|done]. intros [= <-]. cbn. set_solver.
Qed.
Lemma migrate_climbs c f v fill : fills v fill -> v <= 8 -> keeps climbs (migrate c f v fill).
Proof.
  intros Hf Hv u. unfold migrate. rewrite (bind_run _ _ u (bool_decide (v ∈ up_versions u)) u) by done.
  case_bool_decide; [reflexivity|by apply migration_climbs].
Qed.
Lemma migrate_Ok c f v fill u u' : migrate c f v fill u = (Ok tt, u') -> v ∈ up_versions u'.
Proof.
  unfold migrate. intros (b & u1 & [-> ->]%gets_Ok & Hr)%bind_Ok. case_bool_decide; [|by eapply migration_Ok].
  by apply ret_Ok in Hr as [_ ->].
Qed.
Lemma fills_epochs : fills 1 seed_join_epochs.
Proof.
  split; [apply seed_join_epochs_upgrades|]. intros d d' Hf. split; [by apply seed_join_epochs_complete|done|].
  pose proof (seed_join_epochs_other d) as Hk. by rewrite Hf in Hk.
Qed.
Lemma migrate_multi_device_climbs c f : keeps climbs (migrate_multi_device c f).
Proof.
  intros u. unfold migrate_multi_device. rewrite (bind_run _ _ u (schema_version (up_versions u)) u) by done.
  unfold bind, ensure. destruct (_ <=? _); [|reflexivity].
  destruct (Z.eqb_spec (schema_version (up_versions u)) 0) as [Hz|]; [|reflexivity].
  apply migration_climbs; [apply fills_epochs|lia|]. intros Hin%schema_version_member. lia.
Qed.
Lemma fills_other v fill :
  keeps upgrades fill -> keeps same_seeds fill -> v <> 1 -> v <> 6 -> v <> 7 -> fills v fill.
Proof.
  intros Hk Hs Hn1 Hn6 Hn7. split; [done|]. intros d d' Hf. pose proof (Hs d) as Hd. rewrite Hf in Hd. destruct Hd as [He Hm].
  split; [by destruct (Z.eqb_spec v 1)|lia|by destruct (Z.eqb_spec v 7)].
Qed.
Lemma migrate_nothing_climbs c f v : v <= 8 -> v <> 1 -> v <> 6 -> v <> 7 -> keeps climbs (migrate c f v (ret tt)).
Proof. intros. apply migrate_climbs; [|done]. by apply fills_other; [apply keeps_upgrades_ret|apply keeps_ret, _|..]. Qed.
Lemma fills_references : fills 6 seed_receipts.
Proof.
  split; [apply seed_receipts_upgrades|]. intros d d' Hf.
  pose proof (seed_receipts_same d) as Hd. rewrite Hf in Hd. destruct Hd as [He Hm].
  split; [exact He|intros _; by eapply seed_receipts_complete|exact Hm].
Qed.
Lemma fills_events : fills 7 seed_applications.
Proof.
  split; [apply seed_applications_upgrades|]. intros d d' Hf.
  split; [|done|by eapply seed_applications_complete].
  pose proof (seed_applications_epochs d) as Hd. by rewrite Hf in Hd.
Qed.
Definition later_migrations c f : list (Z * M (Upgrade St) unit) :=
  [(2, migrate_trust c f); (3, migrate_revocation c f); (4, migrate_recovery c f); (5, migrate_attachments c f);
   (6, migrate_receipts c f); (7, migrate_relationships c f); (8, migrate_participants c f)].
Lemma later_migrations_climb c f : Forall (fun '(_, m) => keeps climbs m) (later_migrations c f).
Proof.
  unfold later_migrations.
  do 8 (lazymatch goal with |- Forall _ (_ :: _) => apply List.Forall_cons | |- _ => idtac end);
    [..|apply List.Forall_nil].
  1, 3, 4, 7: by apply migrate_nothing_climbs.
  - apply migrate_climbs; [|lia]. by apply fills_other; [apply seed_coordinators_upgrades|apply seed_coordinators_same|..].
  - apply migrate_climbs; [apply fills_references|lia].
  - apply migrate_climbs; [apply fills_events|lia].
Qed.

Lemma ladder_climbs c f : keeps climbs (ladder c f).
Proof.
  pose proof (later_migrations_climb c f) as Hall. unfold later_migrations in Hall.
  repeat match goal with Hl : Forall _ (_ :: _) |- _ => apply Forall_cons_1 in Hl as [? Hl] end.
  unfold ladder. apply keeps_bind; [apply _|apply migrate_multi_device_climbs|intros _].
  repeat (apply keeps_bind; [apply _|done|intros _]). done.
Qed.
Definition all_versions : gset Z := list_to_set [1; 2; 3; 4; 5; 6; 7; 8].
(** Versions were applied in order: the first is there when any is. *)
Definition in_order u : Prop := 0 < schema_version (up_versions u) -> 1 ∈ up_versions u.
Lemma migrate_multi_device_first c f u r u' :
  fresh u -> in_order u -> migrate_multi_device c f u = (r, u') ->
  in_order u' /\ (r = Ok tt -> 1 ∈ up_versions u').
Proof.
  intros Hu Ho Hr. pose proof Hu as (_ & _ & _ & Hs). unfold migrate_multi_device in Hr.
  rewrite (bind_run _ _ u (schema_version (up_versions u)) u) in Hr by done. apply Z.leb_le in Hs. rewrite Hs in Hr.
  rewrite (bind_run _ _ u tt u) in Hr by done. destruct (Z.eqb_spec (schema_version (up_versions u)) 0) as [Hz|Hz].
  - apply migration_run in Hr as [_ Hr]; [|apply seed_join_epochs_upgrades|done|lia]. destruct r as [[]|e].
    + destruct Hr as (d1 & _ & _ & _ & -> & _). assert (1 ∈ {[1]} ∪ up_versions u) by set_solver. split; [by intros _|done].
    + subst u'. by split.
  - injection Hr as <- <-. split; [done|]. intros _. apply Ho. pose proof (schema_version_nonneg (up_versions u)). lia.
Qed.
Lemma ladder_loop c f u :
  ladder c f u = (migrate_multi_device c f ;;; for_each (later_migrations c f) snd) u.
Proof.
  unfold ladder, later_migrations, for_each, snd, bind. repeat (case_match; try done).
  all: by match goal with u : unit |- _ => destruct u end.
Qed.
Lemma loop_climbs (l : list (Z * M (Upgrade St) unit)) :
  Forall (fun '(_, m) => keeps climbs m) l -> keeps climbs (for_each l snd).
Proof.
  induction 1 as [|[v m] l Hm Hl IH]; [apply keeps_ret, _|]. simpl. by apply keeps_bind; [apply _| |intros _].
Qed.
Lemma loop_versions (l : list (Z * M (Upgrade St) unit)) u u' :
  Forall (fun '(_, m) => keeps climbs m) l ->
  Forall (fun '(v, m) => forall s s', m s = (Ok tt, s') -> v ∈ up_versions s') l ->
  fresh u -> for_each l snd u = (Ok tt, u') -> Forall (fun '(v, _) => v ∈ up_versions u') l.
Proof.
  intros Hl Hv. revert u. induction l as [|[v m] l IH]; intros u Hu Hr; [constructor|].
  apply Forall_cons_1 in Hl as [Hm Hl], Hv as [Hvm Hv]. simpl in Hr. apply bind_Ok in Hr as ([] & u1 & Hr1 & Hr).
  pose proof (Hm u Hu) as Hu1. rewrite Hr1 in Hu1. destruct Hu1 as [Hu1 _].
  pose proof (loop_climbs l Hl u1 Hu1) as (_ & Hg & _). rewrite Hr in Hg. cbn [snd] in Hg.
  constructor; [apply Hg; by eapply Hvm|by eapply IH].
Qed.
Lemma ladder_run c f u r u' :
  fresh u -> in_order u -> ladder c f u = (r, u') -> in_order u' /\ (r = Ok tt -> all_versions ⊆ up_versions u').
Proof.
  intros Hu Ho Hr. rewrite ladder_loop in Hr.
  pose proof (migrate_multi_device_climbs c f u Hu) as Hc.
  apply bind_cases in Hr as [(e & Hm & ->)|([] & u1 & Hm & Hr)]; rewrite Hm in Hc; destruct Hc as (Hu1 & _);
    apply migrate_multi_device_first in Hm as [Ho1 H1in]; try done.
  specialize (H1in eq_refl). cbn [snd] in Hu1. pose proof (later_migrations_climb c f) as Hall.
  pose proof (loop_climbs _ Hall u1 Hu1) as (_ & Hg & _). rewrite Hr in Hg. cbn [snd] in Hg.
  split; [intros _; set_solver|]. intros ->.
  assert (Forall (fun '(v, _) => v ∈ up_versions u') (later_migrations c f)) as Hin.
  { apply (loop_versions _ u1); try done.
    unfold later_migrations. repeat constructor; intros s s' Hs; by eapply migrate_Ok. }
  intros v Hv. unfold all_versions in Hv. apply elem_of_list_to_set, elem_of_cons in Hv as [->|Hv]; [by apply Hg|].
  assert (exists m, (v, m) ∈ later_migrations c f) as [m Hvm].
  { apply list_elem_of_In in Hv. simpl in Hv. unfold later_migrations.
    repeat destruct Hv as [<-|Hv]; [..|done]; eexists; rewrite list_elem_of_In; simpl; eauto 10. }
  rewrite List.Forall_forall in Hin. by apply list_elem_of_In, Hin in Hvm.
Qed.

Definition prepared (p : Prepared) : result unit :=
  pr_plaintext p ;;? pr_directory p ;;? pr_lock p ;;? pr_database p ;;? pr_storage p ;;? pr_reopened p.
Lemma store_open_eq p loaded f u :
  store_open p loaded f u =
  match (prepared p ;;? loaded) with
  | Ok c => let '(r, w) := ladder c f u in (r ;;? check_client c true (up_db w), w)
  | Err e => (Err e, u)
  end.
Proof.
  unfold store_open, prepared, ladder, bind, lift, gets.
  destruct p as [[[]|] [[]|] [[]|] [[]|] [[]|] [[]|]]; simpl; try done.
  destruct loaded as [c|]; simpl; [|done].
  repeat (match goal with |- context [match ?m with _ => _ end] =>
    lazymatch m with context [match _ with _ => _ end] => fail | _ => destruct m as [[[]|?] ?] end end; [|done]).
  by destruct (migrate_participants c f u0) as [[[]|] ?].
Qed.
Lemma store_open_run p loaded f u r u' :
  store_open p loaded f u = (r, u') ->
  u' = u /\ is_ok r = false \/
  exists c r1, loaded = Ok c /\ ladder c f u = (r1, u') /\ r = (r1 ;;? check_client c true (up_db u')).
Proof.
  rewrite store_open_eq. destruct (prepared p); simpl; [|intros [= <- <-]; left; by split].
  destruct loaded as [c|]; simpl; [|intros [= <- <-]; left; by split].
  destruct (ladder c f u) as [r1 w] eqn:Hl. intros [= <- <-]. right. by exists c, r1.
Qed.
Lemma ladder_newer c f u : 8 < schema_version (up_versions u) -> exists e, ladder c f u = (Err e, u).
Proof.
  intros Hs. unfold ladder, migrate_multi_device. eexists. unfold bind at 1. unfold bind at 1.
  unfold gets. unfold bind at 1, ensure. destruct (Z.leb_spec (schema_version (up_versions u)) 8); [lia|done].
Qed.

(** C27. An upgrade can be interrupted anywhere. Whatever attempts were made before,
    under whatever policies and however far each came, an open that would have
    succeeded on the store as it was succeeds now, and leaves the same store. *)
Theorem upgrade_resumes attempts p loaded u u' :
  connected u -> store_open p loaded undisturbed u = (Ok tt, u') ->
  store_open p loaded undisturbed
    (fold_left (fun u '(p, loaded, fault) => snd (store_open p loaded fault u)) attempts u) = (Ok tt, u').
Proof.
  intros Hc Hr. assert (fresh u) as Hu.
  { destruct Hc as (? & ? & ?). split_and!; try done.
    destruct (Z.leb_spec (schema_version (up_versions u)) 8) as [|Hs]; [done|].
    apply store_open_run in Hr as [[_ Hr]|(c & r1 & _ & Hl & Hr)]; [done|].
    destruct (ladder_newer c undisturbed u Hs) as [e He]. rewrite He in Hl. by injection Hl as <- <-. }
  clear Hc. revert u Hu Hr. induction attempts as [|[[p' loaded'] f] attempts IH]; intros u Hu Hr; [done|].
  cbn [fold_left]. destruct (store_open p' loaded' f u) as [r w] eqn:Hw. cbn [snd].
  apply store_open_run in Hw as [[-> _]|(c' & r1 & -> & Hl & _)]; [by apply IH|].
  rewrite store_open_eq in Hr. destruct (prepared p ;;? loaded) as [c|e] eqn:Hp; [|done].
  destruct (ladder c undisturbed u) as [[[]|e] u1] eqn:Hl2; [|done].
  destruct (ladder_resumes c c' f _ _ Hu Hl2) as (_ & _ & Ha & _).
  destruct (Ha _ _ Hl) as (Hw & _ & Hmw & _). apply IH; [done|].
  by rewrite store_open_eq, Hp, Hmw.
Qed.

(** C11. Opening a store loses nothing. Whatever fails: the identity, the pins, the
    groups, the outbox, the messages and the MLS state are as they were, what was
    indexed stays indexed, and applied migrations stay applied. A store of a newer
    client is left as it is. A store that had the epochs its groups were joined at
    keeps exactly those, and one that had none gets, for each group, the epoch the
    group is at now; likewise its events stay exactly as they are, or every
    decrypted message gets the event of a message without an envelope, with its
    text, under the digest of its group and ciphertext. When the open succeeds
    every migration was applied, so every group has its epoch, every message its
    reference and every decrypted message its event, and the policy holds the
    store. *)
Theorem open_upgrades p loaded fault u r u' :
  store_open p loaded fault u = (r, u') ->
  connected u -> in_order u -> consistent u ->
  upgraded (up_db u) (up_db u') /\ up_versions u ⊆ up_versions u' /\ in_order u' /\ consistent u' /\
  (8 < schema_version (up_versions u) -> is_ok r = false /\ u' = u) /\
  (1 ∈ up_versions u -> join_epochs (chat (up_db u')) = join_epochs (chat (up_db u))) /\
  (1 ∉ up_versions u -> 1 ∈ up_versions u' -> at_current_epochs (up_db u) (up_db u')) /\
  (7 ∈ up_versions u -> message_events (events (up_db u')) = message_events (events (up_db u))) /\
  (7 ∉ up_versions u -> 7 ∈ up_versions u' -> all_messages legacy_event (up_db u')) /\
  (r = Ok tt -> all_versions ⊆ up_versions u' /\ epochs_seeded (up_db u') /\
     all_messages referenced (up_db u') /\ all_messages indexed_event (up_db u') /\
     exists c, loaded = Ok c /\ check_client c true (up_db u') = Ok tt).
Proof.
  intros Hr (Ha & Hk & Hb) Ho Hc.
  apply store_open_run in Hr as [[-> Hr]|(c & r1 & -> & Hl & ->)].
  { split_and!; try done. by intros ->. }
  destruct (Z.leb_spec (schema_version (up_versions u)) 8) as [Hs|Hs].
  2: { destruct (ladder_newer c fault u Hs) as [e He]. rewrite He in Hl. injection Hl as <- <-. by split_and!. }
  assert (fresh u) as Hu by done.
  pose proof (ladder_climbs c fault u Hu) as Hcl. rewrite Hl in Hcl. destruct Hcl as (_ & Hg & Hup & Hcs & [He Hm]).
  apply ladder_run in Hl as [Ho' Hall]; try done. specialize (Hcs Hc).
  split_and!; try done; [lia| | | | |].
  1, 2: intros Hin; by first [rewrite bool_decide_eq_true_2 in He by done
    |rewrite bool_decide_eq_false_2 in He by done].
  1, 2: intros Hin; by first [rewrite bool_decide_eq_true_2 in Hm by done
    |rewrite bool_decide_eq_false_2 in Hm by done].
  destruct r1 as [[]|]; [|done]. intros Hcheck. specialize (Hall eq_refl).
  destruct Hcs as [H1in H6in H7in]. cbn [snd] in *.
  split_and!; [done|apply H1in, Hall|apply H6in, Hall|apply H7in, Hall|by exists c]; set_solver.
Qed.

(** ** The policy of a store *)

Definition CAPACITY_FILE : string := "capacity.json".
Definition CAPACITY_PENDING : string := "capacity.pending".
Section policy.
Context `{CapacityFile} (encoded : Capacity -> bytes) (home : string).
(** The link is seen, not what it leads to. *)
Definition plain_file (files : Fs) (path : string) : result unit :=
  match files !! path with
  | Some n => check (is_file n) "capacity policy must be a regular file"
  | None => Ok tt
  end.
(** [inspected] is the store as its read-only inspection opened it; the policy is
    saved as a private file, whatever the mask. *)
(* @src core/capacity.rs 138-159 install_client *)
Definition install_client (policy : result bytes) (lock : result unit) (inspected : result (ClientDb St))
  : M Disk unit :=
  let* capacity := lift (let? b := policy in Capacity.load (Ok (Some b))) in
  lift lock ;;;
  let* d := lift inspected in
  lift (check_client capacity false d) ;;;
  let* fs := files in
  lift (rforall (plain_file fs) [Files.join home CAPACITY_FILE; Files.join home CAPACITY_PENDING]) ;;;
  atomic_write 0x3f (Files.join home CAPACITY_FILE) (Files.join home CAPACITY_PENDING) (encoded capacity).

(** Installing a policy replaces the old one whole or keeps it, whatever fails,
    and touches nothing but it and its temporary file. The policy that is there
    afterwards, when it is not the old one, is valid and the store fits it. *)
Theorem policy_installed_whole policy lock inspected disk r disk' :
  install_client policy lock inspected disk = (r, disk') ->
  (forall q, q <> Files.join home CAPACITY_FILE -> q <> Files.join home CAPACITY_PENDING ->
     dk_fs disk' !! q = dk_fs disk !! q) /\
  (r <> Ok tt /\ dk_fs disk' !! Files.join home CAPACITY_FILE = dk_fs disk !! Files.join home CAPACITY_FILE \/
   exists c d, inspected = Ok d /\ Capacity.validate c = Ok tt /\ check_client c false d = Ok tt /\
     read_file (Files.join home CAPACITY_FILE) (dk_fs disk') = Ok (encoded c)).
Proof.
  intros Hr. unfold install_client in Hr.
  apply bind_cases in Hr as [(e & [_ ->]%lift_Err & ->)|(c & d0 & [Hc ->]%lift_Ok & Hr)]; [by split; [|left]|].
  apply bind_cases in Hr as [(e & [_ ->]%lift_Err & ->)|([] & d0 & [_ ->]%lift_Ok & Hr)]; [by split; [|left]|].
  apply bind_cases in Hr as [(e & [_ ->]%lift_Err & ->)|(d & d0 & [-> ->]%lift_Ok & Hr)]; [by split; [|left]|].
  apply bind_cases in Hr as [(e & [_ ->]%lift_Err & ->)|([] & d0 & [Hd ->]%lift_Ok & Hr)]; [by split; [|left]|].
  apply bind_cases in Hr as [(e & [=] & _)|(fs & d0 & [-> ->]%gets_Ok & Hr)].
  apply bind_cases in Hr as [(e & [_ ->]%lift_Err & ->)|([] & d0 & [Hf ->]%lift_Ok & Hr)]; [by split; [|left]|].
  apply atomic_write_whole in Hr as [Ho Hw].
  - split; [done|]. destruct Hw as [Hw|Hw]; [by left|]. right. exists c, d. split_and!; try done.
    apply rbind_Ok in Hc as (b & _ & Hc). by apply (load_or_default_valid (Ok (Some b))).
  - by apply Development.join_distinct.
  - intros node Hn. apply rforall_Ok in Hf. rewrite List.Forall_forall in Hf.
    assert (plain_file (dk_fs disk) (Files.join home CAPACITY_PENDING) = Ok tt) as Hp
      by (apply Hf; right; by left).
    unfold plain_file in Hp. rewrite Hn in Hp. apply check_Ok in Hp. unfold is_symlink.
    unfold is_file in Hp. bool_prop. by rewrite Hp.
Qed.
End policy.
End opening.
