(* ===== verification/Tui.v ===== *)
(** * The terminal interface

    [crates/epochgrid-client/src/tui/mod.rs]: what is typed becomes an action,
    what is displayed comes from the worker's snapshot, and a round of the event
    loop. The layout and the wrapping of the terminal library are an interface.
    Instants are milliseconds of the monotonic clock. *)
From stdpp Require Import sorting.
From S2P Require Import Prelude External Mls ClientDb Trust Groups Attachments Recovery.

(** ** What the worker reports *)

(* @src client/tui/mod.rs 34-38 ChannelView *)
Record ChannelView : Type := { cv_name : string; cv_unread : Z }.
(* @src client/tui/mod.rs 39-47 MessageView *)
Record MessageView : Type := {
  mv_message_id : option string;
  mv_status : option string;
  mv_id : Z;
  mv_sequence : option Z;
  mv_sender : string;
  mv_text : string;
}.
(* @src client/tui/mod.rs 18-33 Snapshot *)
Record Snapshot : Type := {
  sn_identity : string;
  sn_channels : list ChannelView;
  sn_selected : option string;
  sn_messages : list MessageView;
  sn_typing : list (string * Z);
  sn_members : list string;
  sn_status : string;
  sn_notice : string;
  sn_security_warning : option string;
  sn_older : bool;
  sn_fatal : option string;
  sn_send_count : Z;
  sn_send_error : option string;
}.
Definition initial_snapshot : Snapshot := {|
  sn_identity := ""; sn_channels := []; sn_selected := None; sn_messages := []; sn_typing := [];
  sn_members := []; sn_status := ""; sn_notice := ""; sn_security_warning := None; sn_older := false;
  sn_fatal := None; sn_send_count := 0; sn_send_error := None |}.

(* @src client/tui/mod.rs 68-73 RelationDraft *)
Inductive RelationDraft : Type :=
| DraftReply (target : string)
| DraftEdit (target : string)
| DraftReaction (target : string) (add : bool).
(* @src client/tui/mod.rs 74-109 Action *)
Inductive Action : Type :=
| Typing (name : string) (active : bool) (observed : Z)
| Attach (name path : string)
| SaveAttachment (name id path : string)
| Select (name : string)
| Create (name : string)
| Send (name text : string) (relation : option RelationDraft)
| Invite (name user device : string)
| Join (user device : string)
| Older
| Latest
| Viewed (ids : list Z).
#[global] Instance RelationDraft_eq_dec : EqDecision RelationDraft.
Proof. solve_decision. Defined.
#[global] Instance Action_eq_dec : EqDecision Action.
Proof. solve_decision. Defined.

(** ** Text *)

(** [char::escape_default] of a control character. *)
Definition escape_control (c : N) : string :=
  if (c =? 9)%N then "\t"
  else if (c =? 13)%N then "\r"
  else "\u{" +:+ (if (c <? 16)%N then String (hex_digit c) EmptyString
                  else String (hex_digit (c / 16)) (String (hex_digit (c mod 16)) EmptyString)) +:+ "}".
(* @src client/tui/mod.rs 110-120 safe_text *)
Definition safe_text (text : string) : string :=
  String.concat EmptyString (map (fun '(c, piece) =>
    match c with
    | Some c => if is_control c && negb (c =? 10)%N then escape_control c else string_of_bytes piece
    | None => string_of_bytes piece
    end) (utf8_pieces (as_bytes text))).

(** [str::lines]: a line ends at a line feed, with the carriage return before
    it; nothing follows the last line feed. *)
Definition line_feed : ascii := "010"%char.
Fixpoint strip_return (s : string) : string :=
  match s with
  | String "013"%char EmptyString => EmptyString
  | String c r => String c (strip_return r)
  | EmptyString => EmptyString
  end.
Fixpoint closed_lines (l : list string) : list string :=
  match l with
  | [] => []
  | [last] => if bool_decide (last = EmptyString) then [] else [last]
  | line :: rest => strip_return line :: closed_lines rest
  end.
Definition lines (s : string) : list string := closed_lines (split_on line_feed s).

(** [str::split_whitespace]. *)
Definition piece_space (x : option N * bytes) : bool :=
  match fst x with Some c => is_whitespace c | None => false end.
Fixpoint fields (l : list (option N * bytes)) (current : bytes) : list string :=
  let done := match current with [] => [] | _ => [string_of_bytes current] end in
  match l with
  | [] => done
  | x :: l => if piece_space x then done ++ fields l [] else fields l (current ++ snd x)
  end.
Definition split_whitespace (s : string) : list string := fields (utf8_pieces (as_bytes s)) [].
Definition blank (s : string) : bool := bool_decide (trim s = EmptyString).

(** ** What is typed *)

Definition COMMANDS : string := "Commands: /status, /create NAME, /invite USER [DEVICE], /join INVITER [DEVICE], /members, /reply ID TEXT, /edit ID TEXT, /react ID VALUE, /unreact ID VALUE, /attach PATH, /save ID PATH, /help, /quit; // sends a literal slash".
Definition HELP : string := "Tab channels | Up/Down scroll | PgUp older / PgDn latest | /create NAME | /invite USER [DEVICE] | /join INVITER [DEVICE] | /members | /devices | /status | /reply ID TEXT | /edit ID TEXT | /react ID VALUE | /unreact ID VALUE | /attach PATH | /save ID PATH | /quit | // literal slash".

Definition relation_of (prefix target : string) : RelationDraft :=
  if bool_decide (prefix = "/reply ") then DraftReply target
  else if bool_decide (prefix = "/edit ") then DraftEdit target
  else DraftReaction target (bool_decide (prefix = "/react ")).
(** The first prefix the input has, with what follows it. *)
Fixpoint first_prefix (prefixes : list string) (input : string) : option (string * string) :=
  match prefixes with
  | [] => None
  | p :: l => match strip_prefix p input with
              | Some arguments => Some (p, arguments)
              | None => first_prefix l input
              end
  end.
(* @src client/tui/mod.rs 134-155 submit (relation) *)
Definition submit_relation (prefix arguments : string) (name : result string) : result Action :=
  let? (target, text) := ok_or (split_once " " (trim arguments))
                           (Anyhow "use COMMAND MESSAGE_ID TEXT_OR_REACTION") in
  check (negb (blank text)) "text or reaction is required" ;;?
  let? name := name in
  Ok (Send name text (Some (relation_of prefix target))).
(* @src client/tui/mod.rs 175-206 submit (command) *)
Definition submit_command (input : string) (name : result string) : result Action :=
  match split_whitespace input with
  | ["/status"] => let? name := name in Ok (Send name "/status" None)
  | ["/create"; channel] => Ok (Create channel)
  | ["/invite"; user] => let? name := name in Ok (Invite name user "laptop")
  | ["/invite"; user; device] => let? name := name in Ok (Invite name user device)
  | ["/join"; user] => Ok (Join user "laptop")
  | ["/join"; user; device] => Ok (Join user device)
  | _ => Err (Anyhow COMMANDS)
  end.
(* @src client/tui/mod.rs 121-216 submit *)
Definition submit (input : string) (selected : option string) : result Action :=
  let name := ok_or selected (Anyhow "select or create a channel first") in
  match strip_prefix "//" input with
  | Some message => let? name := name in Ok (Send name (String "/" message) None)
  | None =>
  match first_prefix ["/reply "; "/edit "; "/react "; "/unreact "] input with
  | Some (prefix, arguments) => submit_relation prefix arguments name
  | None =>
  match strip_prefix "/attach " input with
  | Some path =>
      check (negb (blank path)) "use /attach PATH" ;;?
      let? name := name in Ok (Attach name (trim path))
  | None =>
  match strip_prefix "/save " input with
  | Some arguments =>
      let? (id, path) := ok_or (split_once " " (trim arguments))
                           (Anyhow "use /save ATTACHMENT_ID OUTPUT_PATH") in
      check (negb (blank path)) "output path required" ;;?
      let? name := name in Ok (SaveAttachment name id (trim path))
  | None =>
      if starts_with "/" input then submit_command input name
      else
        check (negb (bool_decide (input = EmptyString)) && (slen input <=? MAX_PLAINTEXT))
          "message must contain 1–16384 bytes" ;;?
        let? name := name in Ok (Send name input None)
  end end end end.

(** ** Notices *)

(* @src client/tui/mod.rs 217-224 Notice *)
Inductive Notice : Type := NoNotice | NoticeText (text : string) | Members | Devices.
(* @src client/tui/mod.rs 239-259 text *)
Definition notice_text (n : Notice) (state : Snapshot) : string :=
  match sn_security_warning state with
  | Some warning => warning
  | None =>
      match n with
      | NoNotice => sn_notice state
      | NoticeText text => text
      | Devices => "Device leaves: " +:+ String.concat ", " (sn_members state)
      | Members => "Members: " +:+ String.concat ", "
                     (merge_sort string_le (remove_dups (member_label <$> sn_members state)))
      end
  end.

(** ** The interface's state *)

(* @src client/tui/mod.rs 261-266 Ui *)
Record Ui : Type := { input : string; notice : Notice; scroll : Z }.
Definition set_input f (u : Ui) : Ui := {| input := f (input u); notice := notice u; scroll := scroll u |}.
Definition set_notice n (u : Ui) : Ui := {| input := input u; notice := n; scroll := scroll u |}.
Definition set_scroll n (u : Ui) : Ui := {| input := input u; notice := notice u; scroll := n |}.
Definition clear_input : Ui -> Ui := set_input (fun _ => EmptyString).

(** The send the worker was asked for: how many it had finished, and the draft. *)
Definition Pending : Type := option (Z * string).
(* @src client/tui/mod.rs 268-279 finish_send *)
Definition ui_finish_send (state : Snapshot) (pending : Pending) (u : Ui) : Ui * Pending :=
  match pending with
  | Some (count, draft) =>
      if count <? sn_send_count state then
        (match sn_send_error state with
         | Some error => set_notice (NoticeText ("Send failed; draft retained: " +:+ error)) u
         | None => if bool_decide (input u = draft) then clear_input u else u
         end, None)
      else (u, pending)
  | None => (u, pending)
  end.

(** A character is its code point. *)
Inductive KeyCode : Type :=
| Char (c : N) | Backspace | Esc | Up | Down | PageUp | PageDown | Tab | BackTab | Enter | OtherKey.
Inductive KeyKind : Type := Press | Repeat | Release.
Record KeyEvent : Type := { code : KeyCode; control : bool; alt : bool; kind : KeyKind }.
#[global] Instance KeyCode_eq_dec : EqDecision KeyCode.
Proof. solve_decision. Defined.
#[global] Instance KeyKind_eq_dec : EqDecision KeyKind.
Proof. solve_decision. Defined.

(** [String::push] and [String::pop]. *)
Definition push (c : N) (s : string) : string := s +:+ string_of_bytes (utf8_encode c).
Definition pop (s : string) : string :=
  string_of_bytes (concat (map snd (List.removelast (utf8_pieces (as_bytes s))))).
Definition push_bounded (c : N) (u : Ui) : Ui :=
  if slen (input u) + zlen (utf8_encode c) <=? MAX_PLAINTEXT then set_input (push c) u else u.

Definition position {A} (p : A -> bool) (l : list A) : option nat :=
  fst <$> list_find (fun a => p a = true) l.
(** The channel after or before the selected one, around the list. *)
(* @src client/tui/mod.rs 315-328 key (Tab) *)
Definition next_channel (forward : bool) (state : Snapshot) : option string :=
  let n := length (sn_channels state) in
  let index := default 0%nat (position (fun c => bool_decide (Some (cv_name c) = sn_selected state))
                                       (sn_channels state)) in
  let next := if forward then ((index + 1) mod n)%nat else ((index + n - 1) mod n)%nat in
  cv_name <$> sn_channels state !! next.

(* @src client/tui/mod.rs 281-346 key *)
Definition key_input (k : KeyEvent) (state : Snapshot) : M Ui (option Action) :=
  let u16_max := 65535 in
  if bool_decide (kind k = Release) then ret None
  else
    match code k with
    | Char c => if control k || alt k then ret None else modify (push_bounded c) ;;; ret None
    | Backspace => modify (set_input pop) ;;; ret None
    | Esc => modify clear_input ;;; ret None
    | Up => modify (fun u => set_scroll (Z.min (scroll u + 1) u16_max) u) ;;; ret None
    | Down => modify (fun u => set_scroll (Z.max (scroll u - 1) 0) u) ;;; ret None
    | PageUp => modify (set_scroll 0) ;;; ret (Some Older)
    | PageDown => modify (set_scroll 0) ;;; ret (Some Latest)
    | (Tab | BackTab) as c =>
        match sn_channels state with
        | [] => ret None
        | _ =>
            modify (set_scroll 0) ;;;
            let* name := lift (ok_or (next_channel (bool_decide (c = Tab)) state) External) in
            ret (Some (Select name))
        end
    | Enter =>
        let* u := gets id in
        if bool_decide (input u = EmptyString) then ret None
        else if bool_decide (input u = "/members") then
          modify (fun u => clear_input (set_notice Members u)) ;;; ret None
        else if bool_decide (input u = "/devices") then
          modify (fun u => clear_input (set_notice Devices u)) ;;; ret None
        else if bool_decide (input u = "/help") then
          modify (fun u => clear_input (set_notice (NoticeText HELP) u)) ;;; ret None
        else let* a := lift (submit (input u) (sn_selected state)) in ret (Some a)
    | OtherKey => ret None
    end.

(** ** Drawing *)

(** A slice of a string past its end stops the program. *)
Definition Panic : error := Anyhow "byte index out of range".
Definition slice_to (n : nat) (s : string) : result string :=
  if (n <=? String.length s)%nat then Ok (String.substring 0 n s) else Err Panic.
(* @src client/tui/mod.rs 48-67 message_lines *)
Definition message_lines (m : MessageView) : result (list string) :=
  let sequence := match mv_sequence m with None => "pending" | Some s => show s end in
  let? id := match mv_message_id m with
             | None => Ok EmptyString
             | Some id => let? short := slice_to 12 id in Ok (" #" +:+ short)
             end in
  Ok ((safe_text (mv_sender m) +:+ " [" +:+ sequence +:+ "]" +:+ id) :: lines (mv_text m)
      ++ match mv_status m with Some status => [safe_text status] | None => [] end ++ [EmptyString]).

(** The layouts of the screen's rows and columns, the width of a text, and the
    rows a line takes at a width: [Layout::areas] of the constraints in the
    source, [Line::width] and [Paragraph] with [Wrap]. *)
Record Rect : Type := { x : Z; y : Z; width : Z; height : Z }.
Class Ratatui : Type := {
  rows_of : Rect -> Rect * Rect * Rect * Rect;
  columns_of : Rect -> Rect * Rect;
  text_width : string -> Z;
  wrap : Z -> string -> list string;
}.

(** What is put on the screen, row by row. *)
Record Frame : Type := {
  fr_header : string;
  fr_channels : list (string * bool);
  fr_title : string;
  fr_body : list string;
  fr_compose : string * Z;
  fr_cursor : option (Z * Z);
  fr_footer : string;
}.

Section draw.
Context `{Ratatui}.

Definition wrapped (w : Z) (l : list string) : list string := concat (wrap w <$> l).
(** [Paragraph::line_count]. *)
Definition line_count (w : Z) (l : list string) : Z := zlen (wrapped w l).
Definition messages_area (area : Rect) : Rect :=
  let '(_, body, _, _) := rows_of area in snd (columns_of body).
Definition inner (n : Z) : Z := sat_sub64 n 2.
(** The rows skipped above the visible ones. *)
Definition top_row (total height scroll : Z) : Z :=
  Z.min (sat_sub64 (sat_sub64 total height) scroll) 65535.

(** The ids of the messages with a row of text between [top] and [top + height],
    the first message starting at [offset]. *)
(* @src client/tui/mod.rs 378-401 visible_ids (messages) *)
Fixpoint visible_from (w top height offset : Z) (l : list MessageView) : result (list Z) :=
  match l with
  | [] => Ok []
  | m :: l =>
      let? all := message_lines m in
      let header := line_count w (take 1 all) in
      let text_height := line_count w (lines (mv_text m)) in
      let visible := negb (bool_decide (mv_text m = EmptyString))
                     && (offset + header <? top + height) && (top <? offset + header + text_height) in
      let? rest := visible_from w top height (offset + line_count w all) l in
      Ok (if visible then mv_id m :: rest else rest)
  end.
(* @src client/tui/mod.rs 347-402 visible_ids *)
Definition visible_ids (area : Rect) (state : Snapshot) (u : Ui) : result (list Z) :=
  let messages := messages_area area in
  let w := inner (width messages) in
  let h := inner (height messages) in
  if (w =? 0) || (h =? 0) then Ok []
  else
    let? heights := rmap (fun m => let? l := message_lines m in Ok (line_count w l)) (sn_messages state) in
    let top := top_row (fold_right Z.add 0 heights) h (scroll u) in
    visible_from w top h 0 (sn_messages state).

Definition typing_users (state : Snapshot) (now : Z) : list string :=
  merge_sort string_le (remove_dups (omap (fun '(s, expiry) =>
    if now <? expiry then fst <$> split_once "/" s else None) (sn_typing state))).
(* @src client/tui/mod.rs 440-461 draw (title) *)
Definition title (state : Snapshot) (now : Z) : string :=
  let typing := String.concat ", " (typing_users state now) in
  default "No channel — /create NAME or /join INVITER" (sn_selected state)
  +:+ (if sn_older state then " (older page)" else EmptyString)
  +:+ (if bool_decide (typing = EmptyString) then EmptyString else " — " +:+ typing +:+ " is typing").
(* @src client/tui/mod.rs 421-434 draw (channels) *)
Definition channel_item (state : Snapshot) (c : ChannelView) : string * bool :=
  let selected := bool_decide (sn_selected state = Some (cv_name c)) in
  ((if selected then ">" else " ") +:+ " #" +:+ cv_name c +:+ " (" +:+ show (cv_unread c) +:+ ")", selected).
(** [now] is the instant the typing users are read. *)
(* @src client/tui/mod.rs 403-495 draw *)
Definition draw (area : Rect) (state : Snapshot) (now : Z) (u : Ui) : result Frame :=
  let '(header, body, compose, footer) := rows_of area in
  let messages := messages_area area in
  let? all := rmap message_lines (sn_messages state) in
  let body := wrapped (inner (width messages)) (concat all) in
  let height_in := inner (height messages) in
  let top := top_row (zlen body) height_in (scroll u) in
  let input := safe_text (input u) in
  let w := text_width input in
  let offset := Z.min (sat_sub64 w (sat_sub64 (width compose) 3)) 65535 in
  Ok {| fr_header := "EpochGrid | " +:+ safe_text (sn_identity state) +:+ " | " +:+ safe_text (sn_status state);
        fr_channels := channel_item state <$> sn_channels state;
        fr_title := title state now;
        fr_body := take (Z.to_nat height_in) (drop (Z.to_nat top) body);
        fr_compose := (input, offset);
        fr_cursor := if (3 <=? width compose) && (3 <=? height compose)
                     then Some (x compose + 1 + Z.min (sat_sub64 w offset mod 65536) (width compose - 3), y compose + 1)
                     else None;
        fr_footer := safe_text (notice_text (notice u) state) +:+ String line_feed
          "Tab channels | Up/Down scroll | PgUp older | PgDn latest | /help | Ctrl-C quit" |}.
End draw.

(** ** Typing notices *)

(* @src client/tui/mod.rs 497-502 DraftActivity *)
Record DraftActivity : Type := {
  da_draft : string;
  da_edited : option Z;
  da_announced : option (string * Z);
}.
Definition no_activity : DraftActivity := {| da_draft := EmptyString; da_edited := None; da_announced := None |}.
(** [now.duration_since(t)] is zero when [t] is later. *)
Definition since (now t : Z) : Z := Z.max (now - t) 0.
(** The channel a notice is due for: the selected one, while a message to it is
    being written. *)
(* @src client/tui/mod.rs 515-522 update (target) *)
Definition typing_target (draft : string) (selected : option string) (pending : bool) (edited : option Z)
    (now : Z) : option string :=
  if negb pending && negb (bool_decide (draft = EmptyString))
     && (negb (starts_with "/" draft) || starts_with "//" draft)
     && match edited with Some t => since now t <? 3000 | None => false end
  then selected else None.
(* @src client/tui/mod.rs 504-550 update *)
Definition update_activity (draft : string) (selected : option string) (pending : bool) (now : Z)
    (a : DraftActivity) : list Action * DraftActivity :=
  let edited := if bool_decide (da_draft a = draft) then da_edited a else Some now in
  let target := typing_target draft selected pending edited now in
  let '(stopped, announced) :=
    match da_announced a with
    | Some (name, last) =>
        if bool_decide (Some name = target) then ([], Some (name, last))
        else ([Typing name false now], None)
    | None => ([], None)
    end in
  let '(started, announced) :=
    match target with
    | Some name =>
        if match announced with Some (_, last) => 2000 <=? since now last | None => true end
        then ([Typing name true now], Some (name, now)) else ([], announced)
    | None => ([], announced)
    end in
  (stopped ++ started, {| da_draft := draft; da_edited := edited; da_announced := announced |}).

(** ** The event loop *)

(** The commands the worker has yet to take, at most 32. *)
Record Commands : Type := { queue : list Action; receiver : bool }.
Definition try_send (a : Action) (c : Commands) : bool * Commands :=
  if receiver c && (length (queue c) <? 32)%nat
  then (true, {| queue := queue c ++ [a]; receiver := receiver c |}) else (false, c).

Record Screen : Type := {
  ui : Ui;
  viewed : list Z;
  pending : Pending;
  activity : DraftActivity;
  commands : Commands;
}.
Definition set_ui f (s : Screen) : Screen := {| ui := f (ui s); viewed := viewed s; pending := pending s;
  activity := activity s; commands := commands s |}.
Definition set_viewed v (s : Screen) : Screen := {| ui := ui s; viewed := v; pending := pending s;
  activity := activity s; commands := commands s |}.
Definition set_pending p (s : Screen) : Screen := {| ui := ui s; viewed := viewed s; pending := p;
  activity := activity s; commands := commands s |}.
Definition set_activity a (s : Screen) : Screen := {| ui := ui s; viewed := viewed s; pending := pending s;
  activity := a; commands := commands s |}.
Definition set_commands c (s : Screen) : Screen := {| ui := ui s; viewed := viewed s; pending := pending s;
  activity := activity s; commands := c |}.
Definition initial_screen : Screen := {|
  ui := {| input := EmptyString; notice := NoNotice; scroll := 0 |}; viewed := []; pending := None;
  activity := no_activity; commands := {| queue := []; receiver := true |} |}.
Definition submit_action (a : Action) : M Screen bool := fun s =>
  let '(sent, c) := try_send a (commands s) in (Ok sent, set_commands c s).
Definition on_ui {A} (m : M Ui A) : M Screen A := fun s =>
  let '(r, u) := m (ui s) in (r, set_ui (fun _ => u) s).

Inductive Input : Type := Key (k : KeyEvent) | Paste (text : string) | OtherEvent.
Inductive Flow : Type := Continue | Leave.

Definition clears (a : Action) : bool :=
  match a with
  | Send _ _ _ | Create _ | Invite _ _ _ | Join _ _ | Attach _ _ | SaveAttachment _ _ _ => true
  | _ => false
  end.
Definition is_send (a : Action) : bool := match a with Send _ _ _ => true | _ => false end.
(* @src client/tui/mod.rs 601-640 run (key) *)
Definition run_key (k : KeyEvent) (state : Snapshot) : M Screen Flow :=
  let* s := gets id in
  if (bool_decide (code k = Char 99) && control k)
     || (bool_decide (code k = Enter) && bool_decide (input (ui s) = "/quit")) then ret Leave
  else if bool_decide (code k = Enter) && match pending s with Some _ => true | None => false end
  then ret Continue
  else
    let* r := attempt (on_ui (key_input k state)) in
    match r with
    | Ok (Some action) =>
        let* sent := submit_action action in
        if sent : bool then
          let* s := gets id in
          (if is_send action then modify (set_pending (Some (sn_send_count state, input (ui s))))
           else if clears action then modify (set_ui clear_input)
           else ret tt) ;;;
          modify (set_ui (set_notice NoNotice)) ;;;
          ret Continue
        else
          modify (set_ui (set_notice (NoticeText "Worker busy; input retained, try again"))) ;;;
          ret Continue
    | Ok None => ret Continue
    | Err e => modify (set_ui (set_notice (NoticeText (error_text e)))) ;;; ret Continue
    end.
(* @src client/tui/mod.rs 641-648 run (paste) *)
Definition run_paste (text : string) : M Screen Flow :=
  modify (set_ui (fun u => fold_left (fun u c => push_bounded c u)
                             (List.filter (fun c => negb (is_control c)) (chars text)) u)) ;;;
  ret Continue.

Section run.
Context `{Ratatui}.

(** One round. [state] is what the worker last reported, [now] and [later] the
    instants of the two readings of the clock, [drawn] whether the terminal took
    the frame, and [event] what was read from it. *)
(* @src client/tui/mod.rs 572-652 run (round) *)
Definition round (area : Rect) (state : Snapshot) (now later : Z) (drawn : result unit)
    (event : result (option Input)) : M Screen Flow :=
  match sn_fatal state with Some error => fail (Anyhow error) | None => ret tt end ;;;
  modify (fun s => let '(u, p) := ui_finish_send state (pending s) (ui s) in set_pending p (set_ui (fun _ => u) s)) ;;;
  let* s := gets id in
  let '(notices, a) := update_activity (input (ui s)) (sn_selected state)
                         (match pending s with Some _ => true | None => false end) now (activity s) in
  modify (set_activity a) ;;;
  for_each notices (fun n => let* _ := submit_action n in ret tt) ;;;
  let* ids := lift (visible_ids area state (ui s)) in
  let* _ := lift (draw area state later (ui s)) in
  lift drawn ;;;
  let* s := gets id in
  (if bool_decide (viewed s = ids) then ret tt
   else let* sent := submit_action (Viewed ids) in
        if sent : bool then modify (set_viewed ids) else ret tt) ;;;
  let* e := lift event in
  match e with
  | Some (Key k) => if bool_decide (kind k = Release) then ret Continue else run_key k state
  | Some (Paste text) => run_paste text
  | Some OtherEvent | None => ret Continue
  end.
End run.
