(* ===== verification/TuiFacts.v ===== *)
(** * What the interface shows and sends

    A message counts as read when a row of its text is on the screen; typing
    notices follow the draft; a draft stays bounded and becomes the message that
    was typed. *)
From stdpp Require Import sorting.
From S2P Require Import Prelude External Mls ClientDb Trust Groups Attachments Recovery Tui.

(** ** Visible messages *)

(** Every line takes at least a row, where there is a column. *)
Class RatatuiLaws `{Ratatui} : Prop := {
  wrap_nonempty : forall w l, 0 < w -> wrap w l <> [];
  wrap_nothing : forall l, wrap 0 l = [];
}.

Section visible.
Context `{RatatuiLaws}.
#[local] Arguments wrapped : simpl never.
#[local] Arguments lines : simpl never.

Lemma wrapped_app w a b : wrapped w (a ++ b) = wrapped w a ++ wrapped w b.
Proof. unfold wrapped. by rewrite fmap_app, concat_app. Qed.
Lemma line_count_app w a b : line_count w (a ++ b) = line_count w a + line_count w b.
Proof. unfold line_count, zlen. rewrite wrapped_app, length_app. lia. Qed.

Lemma split_on_nonempty sep s : split_on sep s <> [].
Proof.
  destruct s as [|c s]; [done|]. cbn. destruct (decide (c = sep)); [done|]. by destruct (split_on sep s).
Qed.
Lemma lines_nonempty s : s <> EmptyString -> lines s <> [].
Proof.
  unfold lines. destruct s as [|c s]; [done|]. intros _. cbn. destruct (decide (c = line_feed)).
  - destruct (split_on line_feed s) eqn:E; [by apply split_on_nonempty in E|]. done.
  - destruct (split_on line_feed s) as [|f [|g l]]; cbn; try done;
      rewrite bool_decide_eq_false_2 by done; done.
Qed.
Lemma text_rows w s : 0 < w -> s <> EmptyString -> 0 < line_count w (lines s).
Proof.
  intros Hw Hs. apply lines_nonempty in Hs. destruct (lines s) as [|l ls]; [done|].
  unfold line_count, zlen, wrapped. cbn. rewrite length_app.
  pose proof (wrap_nonempty w l Hw). destruct (wrap w l); [done|]. cbn. lia.
Qed.
Lemma no_text w : line_count w (lines EmptyString) = 0.
Proof. done. Qed.

(** The rows before the text of a message, and those of the text. *)
Definition all_rows (w : Z) (l : list MessageView) : option (list string) :=
  ok (let? all := rmap message_lines l in Ok (wrapped w (concat all))).
Definition header_rows (w : Z) (m : MessageView) : list string :=
  match message_lines m with Ok (h :: _) => wrap w h | _ => [] end.
Definition text_of (w : Z) (m : MessageView) : list string := wrapped w (lines (mv_text m)).
(** A row of the text of [m], which the messages [pre] precede, is row [i] of
    the body of the frame, [top] rows being skipped. *)
Definition on_screen (w top : Z) (f : Frame) (pre : list MessageView) (m : MessageView) : Prop :=
  exists before i j row, all_rows w pre = Some before /\
    fr_body f !! i = Some row /\ text_of w m !! j = Some row /\
    top + Z.of_nat i = zlen before + zlen (header_rows w m) + Z.of_nat j.

Lemma message_lines_Ok m all :
  message_lines m = Ok all -> exists h rest, all = h :: lines (mv_text m) ++ rest.
Proof.
  unfold message_lines. intros Hm. apply rbind_Ok in Hm as (id & _ & [= <-]). by eexists _, _.
Qed.

Lemma all_rows_cons w m l all rest :
  message_lines m = Ok all -> all_rows w l = Some rest -> all_rows w (m :: l) = Some (wrapped w all ++ rest).
Proof.
  unfold all_rows. intros Hm Hl. cbn. rewrite Hm. cbn. destruct (rmap message_lines l) as [r|e]; [|done].
  cbn in *. injection Hl as <-. by rewrite wrapped_app.
Qed.
Lemma all_rows_app w l l' a b :
  all_rows w l = Some a -> all_rows w l' = Some b -> all_rows w (l ++ l') = Some (a ++ b).
Proof.
  revert a. induction l as [|m l IH]; intros a Ha Hb; [by injection Ha as <-|].
  destruct (message_lines m) as [all|e] eqn:Hm; [|unfold all_rows in Ha; cbn in Ha; by rewrite Hm in Ha].
  destruct (all_rows w l) as [r|] eqn:Hr.
  - rewrite (all_rows_cons _ _ _ _ _ Hm Hr) in Ha. injection Ha as <-. cbn [app].
    rewrite (all_rows_cons _ _ _ _ _ Hm (IH _ eq_refl Hb)). by rewrite app_assoc.
  - unfold all_rows in Ha, Hr. cbn in Ha. rewrite Hm in Ha. cbn in Ha. by destruct (rmap message_lines l).
Qed.
(** A message's part of the body: header, text, rest. *)
Lemma message_rows w m all :
  message_lines m = Ok all ->
  exists rest, wrapped w all = header_rows w m ++ text_of w m ++ rest /\
    line_count w (take 1 all) = zlen (header_rows w m) /\ line_count w (lines (mv_text m)) = zlen (text_of w m).
Proof.
  intros Hm. destruct (message_lines_Ok _ _ Hm) as (h & rest & ->).
  exists (wrapped w rest). unfold header_rows, text_of, line_count. rewrite Hm.
  replace (take 1 (h :: lines (mv_text m) ++ rest)) with [h] by (by destruct (lines (mv_text m) ++ rest)).
  change (h :: lines (mv_text m) ++ rest) with ([h] ++ lines (mv_text m) ++ rest). rewrite !wrapped_app.
  assert (wrapped w [h] = wrap w h) as -> by (unfold wrapped; cbn; by rewrite app_nil_r). done.
Qed.

(** Two intervals of rows meet in a row. *)
Lemma rows_meet (a t top h : Z) :
  0 < t -> 0 < h -> a < top + h -> top < a + t ->
  exists i j, 0 <= i < h /\ 0 <= j < t /\ top + i = a + j.
Proof.
  intros. destruct (decide (a <= top)).
  - exists 0, (top - a). lia.
  - exists (a - top), 0. lia.
Qed.

Lemma visible_from_exact w top h f : forall l pre before rest ids,
  0 < w -> 0 < h -> 0 <= top -> all_rows w pre = Some before -> all_rows w l = Some rest ->
  fr_body f = take (Z.to_nat h) (drop (Z.to_nat top) (before ++ rest)) ->
  visible_from w top h (zlen before) l = Ok ids ->
  forall id, id ∈ ids <-> exists mid m post, l = mid ++ m :: post /\ mv_id m = id /\ on_screen w top f (pre ++ mid) m.
Proof.
  induction l as [|m l IH]; intros pre before rest ids Hw Hh Htop Hpre Hrest Hf Hv id.
  { injection Hv as <-. split; [by intros ?%elem_of_nil|]. intros (mid & ? & ? & He & _). by destruct mid. }
  cbn in Hv. apply rbind_Ok in Hv as (all & Hm & Hv). apply rbind_Ok in Hv as (ids' & Hv & Hids).
  destruct (message_rows w m all Hm) as (tail & Hrows & Hhead & Htext).
  destruct (all_rows w l) as [r|] eqn:Hr.
  2: { unfold all_rows in Hrest, Hr. cbn in Hrest. rewrite Hm in Hrest. cbn in Hrest. by destruct (rmap message_lines l). }
  rewrite (all_rows_cons _ _ _ _ _ Hm Hr) in Hrest. injection Hrest as <-.
  assert (all_rows w [m] = Some (wrapped w all)) as Hone
    by (rewrite (all_rows_cons w m [] all [] Hm eq_refl); by rewrite app_nil_r).
  specialize (IH (pre ++ [m]) (before ++ wrapped w all) r ids' Hw Hh Htop (all_rows_app _ _ _ _ _ Hpre Hone) eq_refl).
  rewrite <- app_assoc in IH.
  replace (zlen (before ++ wrapped w all)) with (zlen before + line_count w all) in IH
    by (unfold line_count, zlen; rewrite length_app; lia).
  specialize (IH Hf Hv id).
  assert ((exists mid m0 post, m :: l = mid ++ m0 :: post /\ mv_id m0 = id /\ on_screen w top f (pre ++ mid) m0)
    <-> (mv_id m = id /\ on_screen w top f pre m) \/ id ∈ ids') as ->.
  { rewrite IH. split.
    - intros (mid & m0 & post & He & Hid & Hon). destruct mid as [|m1 mid]; injection He as <- Hl.
      + left. by rewrite app_nil_r in Hon.
      + right. exists mid, m0, post. split_and!; [done..|]. by rewrite <- app_assoc.
    - intros [[Hid Hon]|(mid & m0 & post & -> & Hid & Hon)].
      + exists [], m, l. rewrite app_nil_r. done.
      + exists (m :: mid), m0, post. rewrite <- app_assoc in Hon. done. }
  assert (on_screen w top f pre m <-> (negb (bool_decide (mv_text m = EmptyString))
    && (zlen before + line_count w (take 1 all) <? top + h)
    && (top <? zlen before + line_count w (take 1 all) + line_count w (lines (mv_text m)))) = true) as Hon.
  { rewrite Hhead, Htext. split.
    - intros (b & i & j & row & Hb & Hi & Hj & Heq). rewrite Hpre in Hb. injection Hb as <-.
      apply lookup_lt_Some in Hi, Hj. rewrite Hf, length_take in Hi.
      assert (mv_text m <> EmptyString) as Hne.
      { intros E. unfold text_of in Hj. rewrite E in Hj.
        change (wrapped w (lines EmptyString)) with (@nil string) in Hj. cbn in Hj. lia. }
      rewrite bool_decide_eq_false_2 by done. unfold zlen in *. cbn. apply andb_true_intro. lia.
    - intros [[Hne Hlt]%andb_prop Hgt]%andb_prop. bool_prop.
      pose proof (text_rows w (mv_text m) Hw Hne) as Ht. rewrite Htext in Ht.
      destruct (rows_meet (zlen before + zlen (header_rows w m)) (zlen (text_of w m)) top h)
        as (i & j & Hi & Hj & Heq); [lia..|].
      destruct (lookup_lt_is_Some_2 (text_of w m) (Z.to_nat j)) as [row Hrow]; [unfold zlen in Hj; lia|].
      exists before, (Z.to_nat i), (Z.to_nat j), row. split_and!; [done| |done|lia].
      rewrite Hf, lookup_take, lookup_drop by lia. rewrite decide_True by lia.
      replace (Z.to_nat top + Z.to_nat i)%nat with (length before + (length (header_rows w m) + Z.to_nat j))%nat
        by (unfold zlen in Heq; lia).
      rewrite lookup_app_r by lia. rewrite Nat.add_comm, Nat.add_sub, Hrows.
      rewrite <- !app_assoc, lookup_app_r by lia. rewrite Nat.add_comm, Nat.add_sub.
      apply lookup_app_l_Some; done. }
  rewrite Hon. destruct (_ && _) eqn:E in Hids |- *; injection Hids as <-.
  - rewrite elem_of_cons. split; [intros [->|?]; [by left|by right]|]. intros [[-> _]|?]; [by left|by right].
  - split; [by right|]. intros [[_ ?]|?]; done.
Qed.

Lemma total_rows w : forall l heights body,
  rmap (fun m => let? l := message_lines m in Ok (line_count w l)) l = Ok heights ->
  rmap message_lines l = Ok body -> fold_right Z.add 0 heights = zlen (wrapped w (concat body)).
Proof.
  induction l as [|m l IH]; intros heights body Hh Hb; [by injection Hh as <-; injection Hb as <-|].
  cbn in Hh, Hb. destruct (message_lines m) as [all|e]; [|done]. cbn in Hh, Hb.
  destruct (rmap _ l) as [hs|e] eqn:E in Hh; [|done]. destruct (rmap message_lines l) as [bs|e]; [|done].
  injection Hh as <-. injection Hb as <-. cbn. rewrite wrapped_app, (IH _ _ E eq_refl).
  unfold line_count, zlen. rewrite length_app. lia.
Qed.
Lemma wrapped_nothing l : wrapped 0 l = [].
Proof. unfold wrapped. induction l as [|x l IH]; [done|]. cbn. by rewrite wrap_nothing. Qed.

(** C25. A message counts as read when it was shown. The ids reported to the worker
    after a round are those of the messages of which a row of text is on the
    screen drawn in that round, at the place the scrolled list has it; a message
    whose header alone is visible is not among them. *)
Theorem read_when_shown area state now u ids body f :
  visible_ids area state u = Ok ids -> draw area state now u = Ok f ->
  let w := inner (width (messages_area area)) in
  all_rows w (sn_messages state) = Some body ->
  let top := top_row (zlen body) (inner (height (messages_area area))) (scroll u) in
  forall id, id ∈ ids <->
    exists pre m post, sn_messages state = pre ++ m :: post /\ mv_id m = id /\ on_screen w top f pre m.
Proof.
  intros Hv Hd w Hbody top id. unfold visible_ids in Hv. unfold draw in Hd.
  destruct (rows_of area) as [[[header rows] compose] footer].
  apply rbind_Ok in Hd as (all & Hall & [= <-]).
  assert (body = wrapped w (concat all)) as ->
    by (unfold all_rows in Hbody; rewrite Hall in Hbody; by injection Hbody as <-).
  fold w in Hv. set (h := inner (height (messages_area area))) in *.
  assert (0 <= w /\ 0 <= h) as [Hw Hh] by (unfold w, h, inner, sat_sub64; lia).
  destruct (decide (w = 0 \/ h = 0)) as [Hz|Hnz].
  - assert ((w =? 0) || (h =? 0) = true) as Hb by lia. rewrite Hb in Hv. injection Hv as <-.
    split; [by intros ?%elem_of_nil|]. intros (pre & m & post & _ & _ & b & i & j & row & _ & Hi & _).
    exfalso. cbn [fr_body] in Hi. fold w h in Hi. destruct Hz as [Hz|Hz]; rewrite Hz in Hi; cbn [Z.to_nat] in Hi.
    + rewrite wrapped_nothing, drop_nil, take_nil in Hi. done.
    + done.
  - assert ((w =? 0) || (h =? 0) = false) as Hb by lia. rewrite Hb in Hv.
    apply rbind_Ok in Hv as (heights & Hhs & Hv). rewrite (total_rows _ _ _ _ Hhs Hall) in Hv.
    apply (visible_from_exact w top h _ _ [] [] (wrapped w (concat all)) ids); try done; try lia.
    unfold top, top_row, sat_sub64. lia.
Qed.
End visible.

(** ** Typing notices *)

(** What peers were told last: the channel typed in, and when. *)
Definition hear (shown : option (string * Z)) (a : Action) : option (string * Z) :=
  match a with Typing name active at_ => if active then Some (name, at_) else None | _ => shown end.
(** A stop is for the channel announced; a start comes when none is, or repeats
    the same one two seconds later. *)
Fixpoint orderly (shown : option (string * Z)) (l : list Action) : Prop :=
  match l with
  | [] => True
  | Typing name active at_ as a :: l =>
      match shown, active with
      | None, true => True
      | None, false => False
      | Some (name', t), true => name' = name /\ 2000 <= since at_ t
      | Some (name', _), false => name' = name
      end /\ orderly (hear shown a) l
  | _ :: _ => False
  end.
Lemma orderly_app shown l l' :
  orderly shown (l ++ l') <-> orderly shown l /\ orderly (fold_left hear l shown) l'.
Proof.
  revert shown. induction l as [|a l IH]; intros shown; [by cbn; split; [|intros [_ ?]]|].
  destruct a; cbn; try (split; [done|by intros [[] _]]). rewrite IH. tauto.
Qed.

Record Draft : Type := { dr_text : string; dr_selected : option string; dr_pending : bool; dr_now : Z }.
Fixpoint run_drafts (l : list Draft) (a : DraftActivity) : list Action * DraftActivity :=
  match l with
  | [] => ([], a)
  | d :: l =>
      let '(notices, a) := update_activity (dr_text d) (dr_selected d) (dr_pending d) (dr_now d) a in
      let '(more, a) := run_drafts l a in (notices ++ more, a)
  end.

(** A message to [name] is being written. *)
Definition writing (d : Draft) (name : string) : Prop :=
  dr_selected d = Some name /\ dr_pending d = false /\ dr_text d <> EmptyString /\
  (starts_with "/" (dr_text d) = false \/ starts_with "//" (dr_text d) = true).
Lemma typing_target_Some d edited now name :
  typing_target (dr_text d) (dr_selected d) (dr_pending d) edited now = Some name ->
  writing d name /\ exists t, edited = Some t /\ since now t < 3000.
Proof.
  unfold typing_target, writing. destruct (_ && _) eqn:E; [|done]. intros Hn.
  repeat match goal with H : _ && _ = true |- _ => apply andb_prop in H as [? ?] end.
  destruct edited as [t|]; [|done].
  match goal with H : (_ <? _) = true |- _ => apply Z.ltb_lt in H end. bool_prop.
  split; [|by eexists]. split_and!; [done..|].
  match goal with H : _ \/ _ |- _ => destruct H; bool_prop; auto end.
Qed.

Lemma update_activity_step d a :
  let '(notices, a') := update_activity (dr_text d) (dr_selected d) (dr_pending d) (dr_now d) a in
  orderly (da_announced a) notices /\ fold_left hear notices (da_announced a) = da_announced a' /\
  (forall name t, da_announced a' = Some (name, t) -> writing d name).
Proof.
  unfold update_activity. set (edited := if bool_decide (da_draft a = dr_text d) then _ else _).
  set (target := typing_target _ _ _ _ _).
  assert (forall name, target = Some name -> writing d name) as Hw
    by (intros name Ht; by apply typing_target_Some in Ht as [? _]).
  destruct (da_announced a) as [[n t]|].
  - case_bool_decide as Hn; [destruct target as [name|]; [|done]; injection Hn as <-|].
    + destruct (2000 <=? since (dr_now d) t) eqn:E; cbn; split_and!; try done; try lia;
        intros name t' [= <- <-]; auto.
    + destruct target as [name|]; cbn; split_and!; try done. intros name' t' [= <- <-]. auto.
  - destruct target as [name|]; cbn; split_and!; try done. intros name' t' [= <- <-]. auto.
Qed.
(** Typing notices follow the draft. Over any sequence of rounds: a stop is sent
    only for the channel announced, and a start when no channel is, or for the
    same one at least two seconds after the last; what peers were told last is
    what the interface remembers; and a channel announced is the selected one,
    with a message to it in writing that is no command and not on its way. *)
Theorem typing_orderly l d notices a :
  run_drafts (l ++ [d]) no_activity = (notices, a) ->
  orderly None notices /\ fold_left hear notices None = da_announced a /\
  (forall name t, da_announced a = Some (name, t) -> writing d name).
Proof.
  change None with (da_announced no_activity). generalize no_activity as a0. revert notices a.
  induction l as [|d' l IH]; intros notices a a0; cbn.
  - pose proof (update_activity_step d a0) as Hs. destruct (update_activity _ _ _ _ _) as [n1 a1].
    intros [= <- <-]. rewrite app_nil_r. naive_solver.
  - pose proof (update_activity_step d' a0) as Hs. destruct (update_activity _ _ _ _ _) as [n1 a1].
    destruct (run_drafts (l ++ [d]) a1) as [n2 a2] eqn:E. intros [= <- <-].
    destruct Hs as (Ho & Hf & _). destruct (IH _ _ _ E) as (Ho2 & Hf2 & Hw).
    rewrite orderly_app, fold_left_app, Hf. done.
Qed.

(** ** What is typed *)

Lemma slen_as_bytes s : slen s = zlen (as_bytes s).
Proof.
  unfold slen, zlen, as_bytes, String.list_byte_of_string. rewrite length_map. f_equal.
  induction s as [|c s IH]; [done|]. cbn. by rewrite IH.
Qed.
Lemma slen_of_bytes l : slen (string_of_bytes l) = zlen l.
Proof.
  rewrite slen_as_bytes. unfold as_bytes, string_of_bytes.
  by rewrite String.list_byte_of_string_of_list_byte.
Qed.

(** The bytes of pieces of a string. *)
Definition plen (l : list (option N * bytes)) : Z := zlen (concat (map snd l)).
Lemma plen_cons x l : plen (x :: l) = zlen (snd x) + plen l.
Proof. unfold plen, zlen. cbn. rewrite length_app. lia. Qed.
Lemma plen_app l l' : plen (l ++ l') = plen l + plen l'.
Proof. unfold plen, zlen. rewrite map_app, concat_app, length_app. lia. Qed.
Lemma plen_nonneg l : 0 <= plen l.
Proof. unfold plen, zlen. lia. Qed.
Lemma plen_rev l : plen (rev l) = plen l.
Proof.
  induction l as [|x l IH]; [done|]. cbn [rev]. rewrite plen_app, !plen_cons, IH.
  change (plen []) with 0. lia.
Qed.
Lemma plen_drop_whitespace l : plen (drop_whitespace l) <= plen l.
Proof.
  induction l as [|[[c|] p] l IH]; [done| |done]. cbn. destruct (is_whitespace c); [|done].
  rewrite plen_cons. cbn. unfold zlen. lia.
Qed.
Lemma plen_removelast l : plen (List.removelast l) <= plen l.
Proof.
  induction l as [|x l IH]; [done|]. cbn. destruct l as [|y l].
  - rewrite plen_cons. cbn. unfold plen, zlen. cbn. lia.
  - rewrite !(plen_cons x). lia.
Qed.
Lemma plen_chunks fuel l : plen (utf8_chunks fuel l) <= zlen l.
Proof.
  revert l. induction fuel as [|fuel IH]; intros l; [unfold plen, zlen; cbn; lia|].
  destruct l as [|b l]; [done|]. cbn [utf8_chunks]. destruct (utf8_next (b :: l)) as [c n].
  rewrite plen_cons. specialize (IH (drop n (b :: l))). cbn [snd]. unfold zlen in *.
  rewrite length_take. rewrite length_drop in IH. lia.
Qed.
Lemma slen_trim s : slen (trim s) <= slen s.
Proof.
  unfold trim. rewrite slen_of_bytes, (slen_as_bytes s). fold (plen (rev (drop_whitespace (rev (drop_whitespace (utf8_pieces (as_bytes s))))))).
  rewrite plen_rev. etrans; [apply plen_drop_whitespace|]. rewrite plen_rev.
  etrans; [apply plen_drop_whitespace|]. apply plen_chunks.
Qed.
Lemma slen_pop s : slen (pop s) <= slen s.
Proof.
  unfold pop. rewrite slen_of_bytes, (slen_as_bytes s). fold (plen (List.removelast (utf8_pieces (as_bytes s)))).
  etrans; [apply plen_removelast|]. apply plen_chunks.
Qed.
Lemma slen_strip p s r : strip_prefix p s = Some r -> slen s = slen p + slen r.
Proof.
  revert s. induction p as [|c p IH]; intros s; [by intros [= <-]|]. destruct s as [|d s]; [done|].
  cbn. destruct (decide (c = d)); [|done]. intros Hs%IH. unfold slen in *. cbn. lia.
Qed.
Lemma slen_split sep s a b : split_once sep s = Some (a, b) -> slen s = slen a + 1 + slen b.
Proof.
  revert a. induction s as [|c s IH]; intros a; [done|]. cbn. destruct (decide (c = sep)).
  - intros [= <- <-]. unfold slen. cbn. lia.
  - destruct (split_once sep s) as [[a' b']|]; [|done]. intros [= <- <-]. specialize (IH a' eq_refl).
    unfold slen in *. cbn. lia.
Qed.
Lemma slen_positive s : s <> EmptyString -> 0 < slen s.
Proof. destruct s; [done|]. unfold slen. cbn. lia. Qed.
Lemma blank_empty s : blank s = false -> 0 < slen s.
Proof. intros Hb. apply slen_positive. intros ->. done. Qed.

Lemma slen_fields l : forall current f, f ∈ fields l current -> slen f <= zlen current + plen l.
Proof.
  induction l as [|x l IH]; intros current f; cbn [fields].
  - destruct current as [|b current]; [by intros ?%elem_of_nil|].
    intros ->%list_elem_of_singleton. rewrite slen_of_bytes. change (plen []) with 0. lia.
  - rewrite plen_cons. pose proof (plen_nonneg l). destruct (piece_space x).
    + rewrite elem_of_app. intros [Hf|Hf%IH].
      * destruct current as [|b current]; [by apply elem_of_nil in Hf|].
        apply list_elem_of_singleton in Hf as ->. rewrite slen_of_bytes. unfold zlen. lia.
      * change (zlen []) with 0 in Hf. unfold zlen in *. lia.
    + intros Hf%IH. unfold zlen in *. rewrite length_app in Hf. lia.
Qed.
Lemma first_prefix_Some l input p arguments :
  first_prefix l input = Some (p, arguments) -> strip_prefix p input = Some arguments.
Proof.
  induction l as [|q l IH]; [done|]. cbn. destruct (strip_prefix q input) eqn:E; [|done]. by intros [= <- <-].
Qed.

(** A send goes to the selected channel, with text from what was typed. *)
Lemma submit_send input selected name text relation :
  submit input selected = Ok (Send name text relation) ->
  selected = Some name /\ 0 < slen text <= slen input.
Proof.
  unfold submit. destruct (strip_prefix "//" input) as [m|] eqn:E1.
  { intros Hs. apply rbind_Ok in Hs as (c & Hc%ok_or_Ok & [= -> <- <-]). split; [done|].
    apply slen_strip in E1. unfold slen in *. cbn [String.length] in *. lia. }
  destruct (first_prefix _ input) as [[p args]|] eqn:E2.
  { apply first_prefix_Some, slen_strip in E2. unfold submit_relation. intros Hs.
    apply rbind_Ok in Hs as ([target t] & Ht%ok_or_Ok & Hs). apply rbind_Ok in Hs as ([] & Hb%check_Ok & Hs).
    apply rbind_Ok in Hs as (c & Hc%ok_or_Ok & [= -> <- <-]). split; [done|].
    apply slen_split in Ht. pose proof (slen_trim args).
    apply negb_true_iff, blank_empty in Hb. unfold slen in *. lia. }
  destruct (strip_prefix "/attach " input).
  { intros Hs. apply rbind_Ok in Hs as ([] & _ & Hs). by apply rbind_Ok in Hs as (c & _ & ?). }
  destruct (strip_prefix "/save " input).
  { intros Hs. apply rbind_Ok in Hs as ([id path] & _ & Hs). apply rbind_Ok in Hs as ([] & _ & Hs).
    by apply rbind_Ok in Hs as (c & _ & ?). }
  destruct (starts_with "/" input) eqn:E5.
  - unfold submit_command. pose proof (slen_fields (utf8_pieces (as_bytes input)) [] "/status") as Hf.
    fold (split_whitespace input) in Hf. pose proof (plen_chunks (length (as_bytes input)) (as_bytes input)) as Hp.
    rewrite <- slen_as_bytes in Hp. intros Hs.
    assert (split_whitespace input = ["/status"] -> slen "/status" <= slen input) as Hlen.
    { intros Heq. rewrite Heq in Hf. specialize (Hf (list_elem_of_here _ _)).
      unfold utf8_pieces in Hf. change (zlen []) with 0 in Hf. lia. }
    repeat match type of Hs with context [match ?x with _ => _ end] => destruct x eqn:? end; try done;
      apply rbind_Ok in Hs as (c & Hc%ok_or_Ok & Hs); try done.
    injection Hs as -> <- <-. split; [done|]. split; [done|]. by apply Hlen.
  - intros Hs. apply rbind_Ok in Hs as ([] & Hc%check_Ok & Hs).
    apply rbind_Ok in Hs as (c & Hn%ok_or_Ok & [= -> <- <-]). bool_prop.
    split; [done|]. split; [by apply slen_positive|done].
Qed.
Definition sendable (limit : Z) (a : Action) : Prop :=
  match a with Send _ text _ => 0 < slen text <= limit | _ => True end.

(** What to type for a text: a slash before it is doubled. *)
Definition escaped (text : string) : string := if starts_with "/" text then String "/" text else text.
Lemma strip_slash text : starts_with "/" text = true -> exists r, text = String "/" r.
Proof.
  unfold starts_with. destruct text as [|c r]; [done|]. cbn. destruct (decide _) as [<-|]; [|done]. by exists r.
Qed.
Lemma strip_none p text : starts_with "/" text = false -> strip_prefix (String "/" p) text = None.
Proof.
  unfold starts_with. destruct text as [|c r]; [done|]. cbn. by destruct (decide _).
Qed.
(** Any text can be sent. What is typed is sent to the selected channel as it
    is, a leading slash doubled; and every message an input submits goes to the
    selected channel, is not empty and is no longer than the input. *)
Theorem text_sent channel :
  (forall text, text <> EmptyString -> slen text <= MAX_PLAINTEXT ->
     submit (escaped text) (Some channel) = Ok (Send channel text None)) /\
  (forall input selected name text relation,
     submit input selected = Ok (Send name text relation) ->
     selected = Some name /\ 0 < slen text <= slen input).
Proof.
  split.
  - intros text Hne Hlen. unfold escaped, submit. destruct (starts_with "/" text) eqn:E.
    + by apply strip_slash in E as [r ->].
    + rewrite !(strip_none _ _ E). cbn [first_prefix]. rewrite !(strip_none _ _ E), E.
      rewrite bool_decide_eq_false_2 by done. by rewrite (proj2 (Z.leb_le _ _) Hlen).
  - exact submit_send.
Qed.

(** ** The size of a draft *)

Definition bounded (s : Screen) : Prop :=
  slen (input (ui s)) <= MAX_PLAINTEXT /\ Forall (sendable MAX_PLAINTEXT) (queue (commands s)).
Definition bounded_ui (u : Ui) : Prop := slen (input u) <= MAX_PLAINTEXT.
Definition keeps_bounded (s s' : Screen) : Prop := bounded s -> bounded s'.
#[local] Instance keeps_bounded_preorder : PreOrder keeps_bounded.
Proof. unfold keeps_bounded. split; [by intros s|]. intros a b c Hab Hbc Ha. auto. Qed.

Lemma push_bounded_ok c u : bounded_ui u -> bounded_ui (push_bounded c u).
Proof.
  unfold bounded_ui, push_bounded. intros Hu. destruct (_ <=? _) eqn:E; [|done].
  cbn. unfold push. rewrite slen_app, slen_of_bytes. lia.
Qed.
Lemma key_input_bounded k state u :
  bounded_ui u -> bounded_ui (snd (key_input k state u)) /\
  forall a, fst (key_input k state u) = Ok (Some a) -> sendable MAX_PLAINTEXT a.
Proof.
  intros Hu. unfold key_input. destruct (bool_decide _); [done|].
  destruct (code k); try (cbn; split; [done|by intros a [= <-]]).
  - destruct (control k || alt k); [done|]. cbn. split; [by apply push_bounded_ok|done].
  - cbn. split; [|done]. unfold bounded_ui in *. cbn. pose proof (slen_pop (input u)). lia.
  - destruct (sn_channels state); [done|]. unfold bind, modify, lift, ret.
    destruct (ok_or _ _); cbn; [|done]. split; [done|by intros ? [= <-]].
  - destruct (sn_channels state); [done|]. unfold bind, modify, lift, ret.
    destruct (ok_or _ _); cbn; [|done]. split; [done|by intros ? [= <-]].
  - unfold bind, gets, id. repeat (destruct (bool_decide _); [done|]). unfold lift, ret.
    destruct (submit (input u) (sn_selected state)) as [a|e] eqn:Hs; [|done]. cbn. split; [done|].
    intros a' [= <-]. unfold bounded_ui in Hu. destruct a; try done.
    apply submit_send in Hs as [_ Hs]. cbn. lia.
Qed.
Lemma submit_action_bounded a : sendable MAX_PLAINTEXT a -> keeps keeps_bounded (submit_action a).
Proof.
  intros Ha s [Hu Hq]. unfold submit_action, try_send. destruct (_ && _); split; try done.
  cbn. apply Forall_app; split; [done|]. by apply Forall_singleton.
Qed.
Lemma on_ui_bounded f : (forall u, bounded_ui u -> bounded_ui (f u)) ->
  keeps keeps_bounded (modify (S := Screen) (set_ui f)).
Proof. intros Hf s [Hu Hq]. split; [|done]. by apply Hf. Qed.
Lemma other_bounded f : (forall s, ui (f s) = ui s /\ commands (f s) = commands s) ->
  keeps keeps_bounded (modify (S := Screen) f).
Proof. intros Hf s [Hu Hq]. cbn. destruct (Hf s) as [E1 E2]. split; by rewrite ?E1, ?E2. Qed.

Lemma run_key_bounded k state : keeps keeps_bounded (run_key k state).
Proof.
  unfold run_key. apply keeps_bind; [apply _|by intros s|]. intros s0.
  destruct (_ || _); [apply keeps_ret; apply _|]. destruct (_ && _); [apply keeps_ret; apply _|].
  intros s [Hu Hq]. destruct (key_input_bounded k state (ui s) Hu) as [Hu' Ha].
  unfold bind at 1, attempt, on_ui. destruct (key_input k state (ui s)) as [r u]. cbn [fst snd] in *.
  assert (bounded (set_ui (fun _ => u) s)) as Hb by by split.
  revert Hb. generalize (set_ui (fun _ => u) s) as s1. intros s1. revert s1.
  change (keeps keeps_bounded (match r with
    | Ok (Some action) =>
        let* sent := submit_action action in
        if sent : bool then
          let* s := gets id in
          (if is_send action then modify (set_pending (Some (sn_send_count state, input (ui s))))
           else if clears action then modify (set_ui clear_input)
           else ret tt) ;;;
          modify (set_ui (set_notice NoNotice)) ;;;
          ret Continue
        else
          modify (set_ui (set_notice (NoticeText "Worker busy; input retained, try again"))) ;;;
          ret Continue
    | Ok None => ret Continue
    | Err e => modify (set_ui (set_notice (NoticeText (error_text e)))) ;;; ret Continue
    end)).
  pose proof (on_ui_bounded). pose proof other_bounded.
  assert (forall n, keeps keeps_bounded (modify (S := Screen) (set_ui (set_notice n)))) by (intros; by apply on_ui_bounded).
  assert (keeps keeps_bounded (modify (S := Screen) (set_ui clear_input))) by (by apply on_ui_bounded).
  assert (forall p, keeps keeps_bounded (modify (S := Screen) (set_pending p))) by (intros; by apply other_bounded).
  destruct r as [[a|]|e]; [|keeps_auto..]. pose proof (submit_action_bounded a (Ha a eq_refl)). keeps_auto.
Qed.
Lemma paste_bounded text : keeps keeps_bounded (run_paste text).
Proof.
  unfold run_paste. apply keeps_bind; [apply _| |intros; apply keeps_ret; apply _].
  apply on_ui_bounded. generalize (List.filter (fun c => negb (is_control c)) (chars text)).
  induction l as [|c l IH]; intros u Hu; [done|]. cbn. apply IH. by apply push_bounded_ok.
Qed.
Lemma finish_send_bounded state :
  keeps keeps_bounded (modify (fun s => let '(u, p) := ui_finish_send state (pending s) (ui s) in
                                        set_pending p (set_ui (fun _ => u) s))).
Proof.
  intros s [Hu Hq]. cbn. unfold ui_finish_send.
  destruct (pending s) as [[n d]|]; [|by split]. destruct (n <? _); [|by split].
  destruct (sn_send_error state); [by split|]. case_bool_decide; by split.
Qed.
Lemma notices_typing text selected p now a :
  Forall (sendable MAX_PLAINTEXT) (fst (update_activity text selected p now a)).
Proof.
  unfold update_activity. destruct (typing_target _ _ _ _ _) as [n|]; destruct (da_announced a) as [[m t]|];
    repeat case_bool_decide; repeat match goal with |- context [if ?b then _ else _] => destruct b end;
    cbn; repeat constructor.
Qed.

Section rounds.
Context `{Ratatui}.

Lemma round_bounded area state now later drawn event :
  keeps keeps_bounded (round area state now later drawn event).
Proof.
  unfold round. pose proof finish_send_bounded. pose proof paste_bounded. pose proof run_key_bounded.
  apply keeps_bind; [apply _|by destruct (sn_fatal state); keeps_auto|intros _].
  apply keeps_bind; [apply _|done|intros _]. apply keeps_bind; [apply _|keeps_auto|intros s].
  pose proof (notices_typing (input (ui s)) (sn_selected state)
    (match pending s with Some _ => true | None => false end) now (activity s)) as Hn.
  destruct (update_activity _ _ _ _ _) as [notices a]. cbn [fst] in Hn.
  assert (keeps keeps_bounded (modify (set_activity a))) as Ha by by apply other_bounded.
  assert (forall ids, keeps keeps_bounded (modify (S := Screen) (set_viewed ids))) by (intros; by apply other_bounded).
  assert (forall ids, keeps keeps_bounded (submit_action (Viewed ids))) by (intros; by apply submit_action_bounded).
  apply keeps_bind; [apply _|done|intros _]. apply keeps_bind; [apply _| |intros _; keeps_auto].
  clear Ha. induction Hn as [|n notices Hn _ IH]; [apply keeps_ret; apply _|]. cbn [for_each].
  apply keeps_bind; [apply _| |intros _; exact IH].
  pose proof (submit_action_bounded n Hn). keeps_auto.
Qed.

(** A round of the interface, or the worker takes a command. *)
Inductive screen_op : Type :=
| Round (area : Rect) (state : Snapshot) (now later : Z) (drawn : result unit) (event : result (option Input))
| Take.
Definition take_command (s : Screen) : Screen :=
  set_commands {| queue := tl (queue (commands s)); receiver := receiver (commands s) |} s.
Definition run_screen (s : Screen) (o : screen_op) : Screen :=
  match o with
  | Round area state now later drawn event => snd (round area state now later drawn event s)
  | Take => take_command s
  end.
(** What waits to be sent is sendable. Whatever is typed, pasted and reported,
    the draft never exceeds the size of a message, and every message queued for
    the worker is neither empty nor too long. *)
Theorem drafts_bounded ops :
  let s := fold_left run_screen ops initial_screen in
  slen (input (ui s)) <= MAX_PLAINTEXT /\
  (forall name text relation, Send name text relation ∈ queue (commands s) -> 0 < slen text <= MAX_PLAINTEXT).
Proof.
  assert (forall s, bounded s -> bounded (fold_left run_screen ops s)) as Hall.
  { induction ops as [|o ops IH]; intros s Hs; [done|]. cbn. apply IH. destruct o; [by apply round_bounded|].
    destruct Hs as [Hu Hq]. split; [done|]. cbn. destruct (queue (commands s)); [done|]. by inversion Hq. }
  destruct (Hall initial_screen) as [Hu Hq]; [split; [done|constructor]|]. split; [done|].
  intros name text relation Hin. rewrite List.Forall_forall in Hq. by apply list_elem_of_In, Hq in Hin.
Qed.
End rounds.
