(* ===== verification/Session.v ===== *)
(** * The worker behind the interface

    [crates/epochgrid-client/src/tui/worker.rs]: a session holds the device's
    store and at most one connection, carries out the interface's actions, keeps
    the store synchronized, and reports a snapshot after every step. Every
    operation takes what it draws from outside; one cut short by a deadline is
    one whose next answer is an error. Instants are milliseconds. *)
From stdpp Require Import sorting.
From S2P Require Import Prelude External Wire Capacity Identity Registry Policy KvStore Merkle Transparency Secrets Files Mls ClientDb IdentityStore Revocation Trust Groups Recovery RecoveryFiles Delivery Attachments Relationships Messaging Ephemeral Flush ClientOps Tui.

(* @src client/tui/worker.rs 57-62 PendingJoin *)
Record PendingJoin : Type := { pj_user : string; pj_device : string; pj_deadline : Z; pj_retry : Z }.

(** [se_connected] is whether there is a client, [se_subscribed] whether its
    ephemeral subscriptions stand, to the subjects [se_subjects]. *)
(* @src client/tui/worker.rs 64-82 Session *)
Record Session (St : Type) : Type := {
  se_client : Client St;
  se_selected : option string;
  se_before : option Z;
  se_connected : bool;
  se_subscribed : bool;
  se_subjects : list string;
  se_typing : TypingState;
  se_receipt_poll : Z;
  se_receipt_cursor : nat;
  se_retry : Z;
  se_delay : Z;
  se_status : string;
  se_notice : string;
  se_join : option PendingJoin;
  se_send_count : Z;
  se_send_error : option string;
}.
Arguments se_client {St}. Arguments se_selected {St}. Arguments se_before {St}.
Arguments se_connected {St}. Arguments se_subscribed {St}. Arguments se_subjects {St}.
Arguments se_typing {St}. Arguments se_receipt_poll {St}. Arguments se_receipt_cursor {St}.
Arguments se_retry {St}. Arguments se_delay {St}. Arguments se_status {St}. Arguments se_notice {St}.
Arguments se_join {St}. Arguments se_send_count {St}. Arguments se_send_error {St}.

(** The parts of a session that change together: the view, the connection, the
    receipts, the notices, and the sends. *)
Section setters.
Context {St : Type}.
Implicit Types s : Session St.
Definition set_client c s : Session St := {| se_client := c; se_selected := se_selected s;
  se_before := se_before s; se_connected := se_connected s; se_subscribed := se_subscribed s;
  se_subjects := se_subjects s; se_typing := se_typing s; se_receipt_poll := se_receipt_poll s;
  se_receipt_cursor := se_receipt_cursor s; se_retry := se_retry s; se_delay := se_delay s;
  se_status := se_status s; se_notice := se_notice s; se_join := se_join s;
  se_send_count := se_send_count s; se_send_error := se_send_error s |}.
Definition set_view selected before s : Session St := {| se_client := se_client s; se_selected := selected;
  se_before := before; se_connected := se_connected s; se_subscribed := se_subscribed s;
  se_subjects := se_subjects s; se_typing := se_typing s; se_receipt_poll := se_receipt_poll s;
  se_receipt_cursor := se_receipt_cursor s; se_retry := se_retry s; se_delay := se_delay s;
  se_status := se_status s; se_notice := se_notice s; se_join := se_join s;
  se_send_count := se_send_count s; se_send_error := se_send_error s |}.
Definition set_connection connected subscribed subjects typing s : Session St := {| se_client := se_client s;
  se_selected := se_selected s; se_before := se_before s; se_connected := connected;
  se_subscribed := subscribed; se_subjects := subjects; se_typing := typing;
  se_receipt_poll := se_receipt_poll s; se_receipt_cursor := se_receipt_cursor s; se_retry := se_retry s;
  se_delay := se_delay s; se_status := se_status s; se_notice := se_notice s; se_join := se_join s;
  se_send_count := se_send_count s; se_send_error := se_send_error s |}.
Definition set_receipts poll cursor s : Session St := {| se_client := se_client s;
  se_selected := se_selected s; se_before := se_before s; se_connected := se_connected s;
  se_subscribed := se_subscribed s; se_subjects := se_subjects s; se_typing := se_typing s;
  se_receipt_poll := poll; se_receipt_cursor := cursor; se_retry := se_retry s; se_delay := se_delay s;
  se_status := se_status s; se_notice := se_notice s; se_join := se_join s;
  se_send_count := se_send_count s; se_send_error := se_send_error s |}.
Definition set_backoff retry delay status s : Session St := {| se_client := se_client s;
  se_selected := se_selected s; se_before := se_before s; se_connected := se_connected s;
  se_subscribed := se_subscribed s; se_subjects := se_subjects s; se_typing := se_typing s;
  se_receipt_poll := se_receipt_poll s; se_receipt_cursor := se_receipt_cursor s; se_retry := retry;
  se_delay := delay; se_status := status; se_notice := se_notice s; se_join := se_join s;
  se_send_count := se_send_count s; se_send_error := se_send_error s |}.
Definition set_se_notice notice s : Session St := {| se_client := se_client s;
  se_selected := se_selected s; se_before := se_before s; se_connected := se_connected s;
  se_subscribed := se_subscribed s; se_subjects := se_subjects s; se_typing := se_typing s;
  se_receipt_poll := se_receipt_poll s; se_receipt_cursor := se_receipt_cursor s; se_retry := se_retry s;
  se_delay := se_delay s; se_status := se_status s; se_notice := notice; se_join := se_join s;
  se_send_count := se_send_count s; se_send_error := se_send_error s |}.
Definition set_join j s : Session St := {| se_client := se_client s;
  se_selected := se_selected s; se_before := se_before s; se_connected := se_connected s;
  se_subscribed := se_subscribed s; se_subjects := se_subjects s; se_typing := se_typing s;
  se_receipt_poll := se_receipt_poll s; se_receipt_cursor := se_receipt_cursor s; se_retry := se_retry s;
  se_delay := se_delay s; se_status := se_status s; se_notice := se_notice s; se_join := j;
  se_send_count := se_send_count s; se_send_error := se_send_error s |}.
Definition set_sends count error s : Session St := {| se_client := se_client s;
  se_selected := se_selected s; se_before := se_before s; se_connected := se_connected s;
  se_subscribed := se_subscribed s; se_subjects := se_subjects s; se_typing := se_typing s;
  se_receipt_poll := se_receipt_poll s; se_receipt_cursor := se_receipt_cursor s; se_retry := se_retry s;
  se_delay := se_delay s; se_status := se_status s; se_notice := se_notice s; se_join := se_join s;
  se_send_count := count; se_send_error := error |}.
(** Without subscriptions, with the list of subjects and the typing state kept. *)
Definition unsubscribe s : Session St :=
  set_connection (se_connected s) false (se_subjects s) (se_typing s) s.
Definition se_db (s : Session St) : ClientDb St := w_db (cl_world (se_client s)).
Definition client_op {A} (m : M (Client St) A) : M (Session St) A := fun s =>
  let '(r, c) := m (se_client s) in (r, set_client c s).
Definition db_op {A} (m : M (ClientDb St) A) : M (Session St) A := client_op (on_db m).
Definition query {A} (f : ClientDb St -> result A) : M (Session St) A :=
  let* r := gets (fun s => f (se_db s)) in lift r.
Definition publish_on (subject : string) (payload : bytes) (sent : result unit) : M (Session St) unit :=
  client_op (on_link (link_publish subject payload sent)).
End setters.

Section session.
Context {St : Type} `{Pages (ClientDb St)} `{Mls St} (capacity : Capacity).
Context `{NKeys} `{MlsPackages} `{Seeds} `{Credentials} `{Json SecretRef} `{Base32} `{Sha256} `{Aead}
  `{MlsCrypto}
  `{Postcard DeviceRegistration} `{Postcard RecoveryStatus} `{Postcard Envelope}
  `{Postcard RegistrationPayload} `{Postcard Intent} `{Postcard WelcomeRelay} `{Postcard RelayTuple}
  `{Postcard PolicyUpdate} `{Postcard CheckpointTuple} `{Postcard RequestTuple} `{Postcard Revocation}
  `{Postcard FingerprintTuple} `{Postcard Checkpoint}
  `{Postcard Manifest} `{Postcard ApplicationEvent} `{Postcard ApplicationTuple} `{Postcard LegacyTuple}
  `{Postcard (string * string)} `{Postcard EphemeralEnvelope} `{Postcard EphemeralBody}
  `{Postcard ContextTuple} `{Postcard SealTuple}.
Variables (ask : string -> Body.t -> result bytes) (refresh : result unit).
Implicit Types s : Session St.

(** The credential is loaded before anything else. *)
(* @src client/tui/worker.rs 84-109 new *)
Definition new_session (now : Z) (c : Client St) : result (Session St) * Client St :=
  match registration (w_db (cl_world c)) with
  | Err e => (Err e, c)
  | Ok _ =>
      let '(r, c) := on_db store_nkey c in
      (let? _ := r in
       Ok {| se_client := c; se_selected := grp_name <$> head (groups (w_db (cl_world c)));
             se_before := None; se_connected := false; se_subscribed := false; se_subjects := [];
             se_typing := ∅; se_receipt_poll := now; se_receipt_cursor := 0; se_retry := now; se_delay := 1;
             se_status := "Offline — connecting"; se_notice := "Type /help for commands";
             se_join := None; se_send_count := 0; se_send_error := None |}, c)
  end.

(** ** The snapshot *)

(* @src client/tui/worker.rs 131-149 snapshot (message) *)
Definition message_view (d : ClientDb St) (e : ConversationEntry) : result MessageView :=
  let entry := ce_entry e in
  let? status := if he_outgoing entry
                 then let? m := message_status (he_id entry) d in Ok (Some (status_summary m))
                 else Ok None in
  Ok {| mv_message_id := ce_message_id e; mv_status := status; mv_id := he_id entry;
        mv_sequence := he_sequence entry;
        mv_text := match he_plaintext entry with
                   | Some text => safe_text (display text)
                   | None => "[plaintext unavailable]"
                   end;
        mv_sender := default "unknown" (he_sender entry) |}.
(* @src client/tui/worker.rs 110-185 snapshot *)
Definition snapshot (now : Z) s : result Snapshot :=
  let d := se_db s in
  let? own := registration d in
  let? channels := rmap (fun g => let? n := unread_count (grp_name g) d in
                                  Ok {| cv_name := grp_name g; cv_unread := n |}) (groups d) in
  let? (ms, messages) :=
    match se_selected s with
    | Some name =>
        let? ms := members name d in
        let? l := conversation name 100 (se_before s) d in
        let? views := rmap (message_view d) l in
        Ok (ms, views)
    | None => Ok ([], [])
    end in
  let? typing :=
    match se_selected s with
    | Some name =>
        let? g := group name d in
        let? epoch := group_epoch name d in
        Ok (typing_active (grp_gid g) epoch now (se_typing s))
    | None => Ok []
    end in
  let? notice :=
    match trust_warning d, se_selected s with
    | Some warning, _ => Ok warning
    | None, Some name =>
        let? rejected := rejected_history name d in
        Ok (if 0 <? rejected
            then show rejected +:+ " invalid/undecryptable messages quarantined. " +:+ se_notice s
            else se_notice s)
    | None, None => Ok (se_notice s)
    end in
  Ok {| sn_identity := user_id (payload own) +:+ "/" +:+ device_id (payload own);
        sn_channels := channels; sn_selected := se_selected s; sn_messages := messages;
        sn_typing := typing; sn_members := ms; sn_status := se_status s; sn_notice := notice;
        sn_security_warning := trust_warning d;
        sn_older := match se_before s with Some _ => true | None => false end;
        sn_fatal := None; sn_send_count := se_send_count s; sn_send_error := se_send_error s |}.

(** ** Sending *)

(* @src client/tui/worker.rs 397-421 finish_send (encrypt) *)
Definition encrypt_draft (name text : string) (relation : option RelationDraft) (nonce random : bytes)
  : M (ClientDb St) bytes :=
  let target t := let* r := gets (resolve_message name t) in lift r in
  match relation with
  | None => encrypt_message capacity name (as_bytes text) nonce random
  | Some (DraftReply t) =>
      let* target := target t in
      encrypt_related capacity name (ReplyTo target) (as_bytes text) nonce random
  | Some (DraftEdit t) =>
      let* target := target t in
      encrypt_related capacity name (Replace target) (as_bytes text) nonce random
  | Some (DraftReaction t add) =>
      let* target := target t in
      encrypt_related capacity name (Reaction target text add) [] nonce random
  end.
(* @src client/tui/worker.rs 390-428 finish_send *)
Definition finish_send (synced : result unit) (name text : string) (relation : option RelationDraft)
    (nonce random : bytes) : M (Session St) unit :=
  let* r := attempt (lift synced ;;; db_op (encrypt_draft name text relation nonce random)) in
  modify (fun s => set_sends (se_send_count s + 1)
    (match r with Err e => Some (error_text e) | Ok _ => None end) s) ;;;
  let* _ := lift r in
  modify (fun s => set_view (se_selected s) None s) ;;;
  modify (set_se_notice "Encrypted message saved locally; pending server acknowledgment").

(** ** Actions *)

(** What an action draws: the clock, whether the connection is up, and what each
    of the operations it may carry out draws. *)
Record CommandDraws : Type := {
  cd_now : Z;
  cd_up : bool;
  cd_seal : bytes * bytes * result Z;
  cd_sent : result unit;
  cd_group : bytes * bytes;
  cd_sync : SyncDraws;
  cd_late : bool;
  cd_random : bytes * bytes;
  cd_limits : result Limits;
  cd_upload : UploadDraws;
  cd_clocks : result Z * result Z;
  cd_object : result ObjectInfo;
  cd_fetch : string -> Z -> result StoredChunk;
  cd_logs : (result bytes * result bytes) * (result bytes * result bytes);
}.
Definition seal_on (name : string) (event : EphemeralEvent) (seal : bytes * bytes * result Z) : M (Session St) bytes :=
  let '(id, nonce, clock) := seal in db_op (seal_ephemeral name event id nonce clock).
(** [client.context(message)?]. *)
Definition connected_or (message : string) : M (Session St) unit :=
  let* s := gets id in ensure (se_connected s) message.
(** [timeout(..).await.context(message).and_then(|r| r)]. *)
Definition within {S A} (late : bool) (message : string) (m : M S A) : M S A :=
  let* r := attempt m in
  if late then fail (Anyhow message) else lift r.

(* @src client/tui/worker.rs 432-459 command (Typing) *)
Definition command_typing (name : string) (active : bool) (observed : Z) (w : CommandDraws) : M (Session St) unit :=
  let* s := gets id in
  if (since (cd_now w) observed <? 1000) && bool_decide (se_status s = "Online") && se_connected s && cd_up w
  then
    let* sealed := attempt (seal_on name (if active then TypingStarted else TypingStopped) (cd_seal w)) in
    match sealed with
    | Ok payload =>
        let* g := query (group name) in
        let* _ := attempt (publish_on (subject "ephemeral" g) payload (cd_sent w)) in ret tt
    | Err _ => ret tt
    end
  else ret tt.
(* @src client/tui/worker.rs 465-474 command (Older) *)
Definition command_older : M (Session St) unit :=
  let* s := gets id in
  match se_selected s with
  | Some name =>
      let* l := query (history name 100 (se_before s)) in
      match min_of (omap he_sequence l) with
      | Some first =>
          let* earlier := query (history name 1 (Some first)) in
          if bool_decide (earlier = []) then ret tt
          else modify (set_view (Some name) (Some first))
      | None => ret tt
      end
  | None => ret tt
  end.
(* @src client/tui/worker.rs 489-510 command (Send) *)
Definition command_send (name text : string) (relation : option RelationDraft) (w : CommandDraws)
  : M (Session St) unit :=
  let* s := gets id in
  let* synced := attempt (
    if se_connected s && cd_up w
    then let* _ := within (cd_late w) "sync before send timed out; retry after reconnect"
                     (client_op (synchronize capacity ask refresh name (cd_sync w))) in ret tt
    else ret tt) in
  finish_send synced name text relation (fst (cd_random w)) (snd (cd_random w)).

(* @src client/tui/worker.rs 430-569 command *)
Definition command (a : Action) (w : CommandDraws) : M (Session St) unit :=
  match a with
  | Typing name active observed => command_typing name active observed w
  | Select name =>
      let* _ := query (group name) in
      modify (set_view (Some name) None)
  | Older => command_older
  | Latest => modify (fun s => set_view (se_selected s) None s)
  | Viewed ids => for_each ids (fun id => db_op (mark_displayed id))
  | Create name =>
      let* _ := db_op (create_group capacity name (fst (cd_group w)) (snd (cd_group w))) in
      modify (set_view (Some name) None) ;;;
      modify (set_se_notice "Channel created; invite a peer before sending")
  | Send name text relation => command_send name text relation w
  | Attach name path =>
      connected_or "offline; retry attachment when connected" ;;;
      let* limits := lift (cd_limits w) in
      let* id := client_op (send_file capacity ask refresh name path "application/octet-stream" limits (cd_upload w)) in
      modify (set_se_notice ("Encrypted attachment sent: " +:+ id))
  | SaveAttachment name id path =>
      connected_or "offline; retry download when connected" ;;;
      let* limits := lift (cd_limits w) in
      client_op (save_file name id path limits (fst (cd_clocks w)) (snd (cd_clocks w)) (cd_object w) (cd_fetch w)) ;;;
      modify (set_se_notice ("Authenticated attachment saved: " +:+ path))
  | Invite name user device =>
      connected_or "offline; retry invite when connected" ;;;
      within (cd_late w) "invite timed out; retry the same invite to resume"
        (client_op (invite capacity ask refresh name user device (cd_sync w) (fst (cd_logs w))
                      (fst (cd_random w)) (snd (cd_logs w)))) ;;;
      modify (set_se_notice "Invitation delivered")
  | Join user device =>
      let* s := gets id in
      ensure (bool_decide (pj_user <$> se_join s = None)) "a join is already pending" ;;;
      modify (set_join (Some {| pj_user := user; pj_device := device; pj_deadline := cd_now w + 20000;
                                pj_retry := cd_now w |})) ;;;
      modify (set_se_notice "Waiting for connection to join channel")
  end.

(** ** Joining *)

(** What connecting gives: [Transient] is a deadline, or a failure of the
    transport or of name resolution. *)
Inductive Connecting : Type := Connects | Transient | Rejects (e : error).
Record JoinDraws : Type := {
  jd_now : Z;
  jd_connect : Connecting;
  jd_after : Z;
  jd_late : bool;
  jd_logs : result bytes * result bytes;
  jd_consumer : string -> M Link (Attempted unit);
  jd_batch : result (option bytes);
  jd_acked : result unit;
  jd_renewed : result unit;
}.
Definition failed (e : error) : string := "Action failed: " +:+ error_text e.
(* @src client/tui/worker.rs 261-281 resume_join (join) *)
Definition join_channel (p : PendingJoin) (w : JoinDraws) : M (Session St) unit :=
  let* r := attempt (within (jd_late w) "join timed out; retry to acknowledge any redelivery"
    (client_op (join_next capacity (pj_user p) (pj_device p) (jd_logs w) (jd_consumer w) (jd_batch w)
                  (jd_acked w) (jd_renewed w)))) in
  modify (fun s => set_connection true false (se_subjects s) (se_typing s) s) ;;;
  match r with
  | Ok g => modify (set_view (Some (grp_name g)) None) ;;; modify (set_se_notice "Channel joined")
  | Err e => modify (set_se_notice (failed e))
  end.
(* @src client/tui/worker.rs 213-282 resume_join *)
Definition resume_join (w : JoinDraws) : M (Session St) unit :=
  let* s := gets id in
  match se_join s with
  | None => ret tt
  | Some p =>
      modify (set_join None) ;;;
      if pj_deadline p <=? jd_now w then
        modify (set_se_notice "Action failed: connection unavailable; join timed out, retry /join")
      else if jd_now w <? pj_retry p then modify (set_join (Some p))
      else
        match jd_connect w with
        | Connects => join_channel p w
        | Transient =>
            modify (set_join (Some {| pj_user := pj_user p; pj_device := pj_device p;
                                      pj_deadline := pj_deadline p; pj_retry := jd_after w + 1000 |})) ;;;
            modify (set_se_notice "Waiting for connection to join channel")
        | Rejects e => modify (set_se_notice (failed e))
        end
  end.

(** ** Synchronizing *)

(** A message taken from the subscriptions, with the clocks it is opened and
    processed at and the draws of an answer. *)
Record Popped : Type := {
  po_subject : string;
  po_payload : bytes;
  po_clock : Z;
  po_instants : Z * Z * Z;
  po_seal : bytes * bytes * result Z;
  po_sent : result unit;
}.
Record NetworkDraws : Type := {
  nd_now : Z;
  nd_late : bool;
  nd_connect : result unit;
  nd_audit : result bytes * result bytes;
  nd_flushes : (result bytes * result bytes) * (result bytes * result bytes);
  nd_subscribed : result unit;
  nd_deliveries : result (list (result ChatDelivery));
  nd_removals : string -> bytes;
  nd_flushed : result unit;
  nd_popped : list Popped;
  nd_poll : Z * Z;
  nd_requests : nat -> (bytes * bytes * result Z) * result unit;
  nd_after : Z;
}.
(* @src client/tui/worker.rs 295-309 network (subscribe) *)
Definition subscribe (w : NetworkDraws) : M (Session St) unit :=
  let* subjects := gets (fun s => subject "ephemeral" <$> groups (se_db s)) in
  let* s := gets id in
  if se_subscribed s && bool_decide (se_subjects s = subjects) then ret tt
  else
    lift (nd_subscribed w) ;;;
    modify (fun s => set_connection (se_connected s) true subjects (se_typing s) s).
(* @src client/tui/worker.rs 310-319 network (catch up) *)
Definition catch_up_all (w : NetworkDraws) : M (Session St) unit :=
  let* l := gets (fun s => groups (se_db s)) in
  match l with
  | g :: _ =>
      let* _ := db_op (catch_up capacity (grp_name g) (nd_deliveries w)) in
      let* l := gets (fun s => groups (se_db s)) in
      for_each l (fun g =>
        let* _ := db_op (process_history capacity (grp_name g)) in
        let* _ := db_op (reconcile_revocations capacity (grp_name g) (nd_removals w (grp_name g))) in
        ret tt) ;;;
      client_op (on_world (flush_outbox capacity ask refresh (fst (snd (nd_flushes w))) (snd (snd (nd_flushes w)))))
  | [] => lift (nd_flushed w)
  end.
(** An event of another device of one of the groups: answered when it asks for a
    receipt, and shown when it is about typing. *)
(* @src client/tui/worker.rs 328-341 network (event) *)
Definition ephemeral_event (l : list Group) (own : string) (p : Popped) : M (Session St) unit :=
  let '(opened, processed, shown) := po_instants p in
  match List.find (fun g => bool_decide (subject "ephemeral" g = po_subject p)) l with
  | None => ret tt
  | Some g =>
      let* r := attempt (db_op (open_ephemeral_at (grp_name g) (po_payload p) (po_clock p) opened)) in
      match r with
      | Err _ => ret tt
      | Ok event =>
          if bool_decide (au_sender event = own) then ret tt
          else
            let* response := db_op (process_receipt (grp_name g) event processed) in
            match response with
            | Some response =>
                let* payload := seal_on (grp_name g) response (po_seal p) in
                publish_on (subject "ephemeral" g) payload (po_sent p)
            | None => ret tt
            end ;;;
            modify (fun s => set_connection (se_connected s) (se_subscribed s) (se_subjects s)
                               (typing_accept (grp_gid g) event shown (se_typing s)) s)
      end
  end.
(* @src client/tui/worker.rs 320-343 network (events) *)
Definition ephemeral_events (w : NetworkDraws) : M (Session St) unit :=
  let* l := gets (fun s => groups (se_db s)) in
  let* own := query registration in
  let own := user_id (payload own) +:+ "/" +:+ device_id (payload own) in
  for_each (take 32 (nd_popped w)) (ephemeral_event l own).
(* @src client/tui/worker.rs 350-357 network (request) *)
Definition request_receipt (name : string) (g : Group) (requests : list EphemeralEvent) (w : NetworkDraws)
    (offset : nat) : M (Session St) unit :=
  let* cursor := gets se_receipt_cursor in
  let* request := lift (ok_or (requests !! ((cursor + offset) mod length requests)%nat) External) in
  let* payload := seal_on name request (fst (nd_requests w offset)) in
  publish_on (subject "ephemeral" g) payload (snd (nd_requests w offset)).
(* @src client/tui/worker.rs 344-366 network (receipts) *)
Definition request_receipts (w : NetworkDraws) : M (Session St) unit :=
  let* s := gets id in
  if fst (nd_poll w) <? se_receipt_poll s then ret tt
  else
    modify (fun s => set_receipts (snd (nd_poll w) + 5000) (se_receipt_cursor s) s) ;;;
    match se_selected s with
    | None => ret tt
    | Some name =>
        let* requests := query (receipt_requests name 100) in
        let* g := query (group name) in
        let* ms := query (members name) in
        (if 1 <? zlen ms
         then for_each (seq 0 (Nat.min (length requests) 8)) (request_receipt name g requests w)
         else ret tt) ;;;
        modify (fun s => set_receipts (se_receipt_poll s)
          (match requests with [] => 0%nat | _ => ((se_receipt_cursor s + 8) mod length requests)%nat end) s)
    end.
(* @src client/tui/worker.rs 288-367 network (body) *)
Definition network_body (w : NetworkDraws) : M (Session St) unit :=
  let* s := gets id in
  (if se_connected s then ret tt
   else lift (nd_connect w) ;;;
        modify (fun s => set_connection true (se_subscribed s) (se_subjects s) (se_typing s) s)) ;;;
  let* _ := db_op (audit capacity (fst (nd_audit w)) (snd (nd_audit w))) in
  client_op (on_world (flush_outbox capacity ask refresh (fst (fst (nd_flushes w))) (snd (fst (nd_flushes w))))) ;;;
  subscribe w ;;;
  catch_up_all w ;;;
  let* s := gets id in
  (if se_subscribed s then ephemeral_events w else ret tt) ;;;
  request_receipts w.
(* @src client/tui/worker.rs 284-389 network *)
Definition network (w : NetworkDraws) : M (Session St) unit :=
  let* s := gets id in
  if negb (se_connected s) && (nd_now w <? se_retry s) then ret tt
  else
    let* r := attempt (network_body w) in
    match r, nd_late w with
    | Ok _, false => modify (fun s => set_backoff (se_retry s) 1 "Online" s)
    | _, late =>
        modify (set_se_notice (match r, late with
          | Err e, false => "Sync failed: " +:+ error_text e
          | _, _ => "Network timeout; durable work will be retried"
          end)) ;;;
        modify (fun s => set_connection false false (se_subjects s) ∅ s) ;;;
        modify (fun s => set_backoff (nd_after w + se_delay s * 1000) (Z.min (se_delay s * 2) 8)
          ("Offline — retry in " +:+ show (se_delay s) +:+ "s; encrypted sends stay queued") s)
    end.

(** ** The worker's loop *)

Inductive WorkerEvent : Type :=
| CommandEvent (a : Action) (w : CommandDraws)
| TickEvent (j : JoinDraws) (w : NetworkDraws).
(** One turn and the snapshot after it; an error ends the worker. *)
(* @src client/tui/worker.rs 194-211 run (turn) *)
Definition turn (e : WorkerEvent) (now : Z) : M (Session St) Snapshot :=
  match e with
  | CommandEvent a w =>
      let* r := attempt (command a w) in
      match r with Ok _ => ret tt | Err e => modify (set_se_notice (failed e)) end
  | TickEvent j w =>
      let* s := gets id in
      match se_join s with Some _ => resume_join j | None => network w end ;;;
      let* l := gets (fun s => groups (se_db s)) in
      for_each l (fun g => let* _ := db_op (process_history capacity (grp_name g)) in ret tt)
  end ;;;
  let* r := gets (snapshot now) in lift r.
End session.
