(* ===== verification/SessionFacts.v ===== *)
(** * The interface and its worker together

    A draft that was sent stays in the input until the worker has finished it:
    it is cleared only when the message is in the store, and kept when it is
    not. The worker's turns lose nothing the device recorded. *)
From stdpp Require Import sorting.
From S2P Require Import Prelude External Wire Capacity Identity Registry Policy KvStore Merkle Transparency Secrets Files Mls ClientDb IdentityStore Revocation Trust TrustFacts Groups Recovery RecoveryFiles Delivery Attachments Relationships Messaging Ephemeral Flush ChatKeeps MessageFacts ClientOps Tui TuiFacts Session.

Section session_facts.
Context {St : Type} `{Pages (ClientDb St)} `{Mls St} (capacity : Capacity).
Context `{NKeys} `{MlsPackages} `{Seeds} `{Credentials} `{Json SecretRef} `{Base32} `{Sha256} `{Aead}
  `{MlsCrypto}
  `{Postcard DeviceRegistration} `{Postcard RecoveryStatus} `{Postcard Envelope}
  `{Postcard RegistrationPayload} `{Postcard Intent} `{Postcard WelcomeRelay} `{Postcard RelayTuple}
  `{Postcard PolicyUpdate} `{Postcard CheckpointTuple} `{Postcard RequestTuple} `{Postcard Revocation}
  `{Postcard FingerprintTuple} `{Postcard Checkpoint}
  `{Postcard Manifest} `{Postcard ApplicationEvent} `{Postcard ApplicationTuple} `{Postcard LegacyTuple}
  `{Postcard (string * string)} `{Postcard EphemeralEnvelope} `{Postcard EphemeralBody}
  `{Postcard ContextTuple} `{Postcard SealTuple}.
Variables (ask : string -> Body.t -> result bytes) (refresh : result unit).
Implicit Types s : Session St.

(** ** What a turn keeps of the store *)

Definition client_kept (c c' : Client St) : Prop :=
  world_kept capacity (cl_world c) (cl_world c').
Definition session_kept s s' : Prop := client_kept (se_client s) (se_client s').
#[global] Instance world_preorder : PreOrder (world_kept (St := St) capacity).
Proof. split; [intros w; unfold world_kept; done|]. intros a b c. unfold world_kept. by etrans. Qed.
#[global] Instance client_preorder : PreOrder client_kept.
Proof. unfold client_kept. split; [intros c; done|]. intros a b c. by etrans. Qed.
#[global] Instance session_preorder : PreOrder session_kept.
Proof. unfold session_kept. split; [intros c; done|]. intros a b c. by etrans. Qed.

Lemma client_world {A} (m : M (World St) A) : keeps (world_kept capacity) m -> keeps client_kept (on_world m).
Proof. intros Hm c. specialize (Hm (cl_world c)). unfold on_world, client_kept. by destruct (m (cl_world c)). Qed.
Lemma client_db {A} (m : M (ClientDb St) A) : keeps (kept capacity None) m -> keeps client_kept (on_db m).
Proof. intros Hm. by apply client_world, world_on_store. Qed.
Lemma client_link {A} (m : M Link A) : keeps client_kept (on_link (St := St) m).
Proof. intros c. unfold on_link, client_kept. by destruct (m (cl_link c)). Qed.
Lemma client_files {A} (m : M Disk A) : keeps client_kept (on_files (St := St) m).
Proof. intros c. unfold on_files, client_kept. by destruct (m (cl_disk c)). Qed.
Lemma client_put r id b : keeps client_kept (put_object (St := St) r id b).
Proof. intros c. done. Qed.
Lemma session_client {A} (m : M (Client St) A) : keeps client_kept m -> keeps session_kept (client_op m).
Proof. intros Hm s. specialize (Hm (se_client s)). unfold client_op, session_kept. by destruct (m (se_client s)). Qed.
Lemma session_db {A} (m : M (ClientDb St) A) : keeps (kept capacity None) m -> keeps session_kept (db_op m).
Proof. intros Hm. by apply session_client, client_db. Qed.
Lemma session_publish subject b r : keeps session_kept (publish_on (St := St) subject b r).
Proof. apply session_client, client_link. Qed.
Lemma session_modify f : (forall s, se_client (f s) = se_client s) -> keeps session_kept (modify f).
Proof. intros Hf s. unfold session_kept. cbn. by rewrite Hf. Qed.
Lemma session_gets {A} (f : Session St -> A) : keeps session_kept (gets f).
Proof. by apply keeps_gets; apply _. Qed.
Lemma client_gets {A} (f : Client St -> A) : keeps client_kept (gets f).
Proof. by apply keeps_gets; apply _. Qed.

Lemma kept_messaging_identity : keeps (kept (St := St) capacity None) ensure_messaging_identity.
Proof. unfold ensure_messaging_identity. keeps_auto. Qed.
Lemma kept_lookup r1 r2 user device : keeps (kept (St := St) capacity None) (Trust.lookup capacity r1 r2 user device).
Proof.
  apply lookup_keeps; first [apply _ | apply kept_same | apply kept_observe | apply kept_accept_checkpoint
                            | apply kept_accept_revocations].
Qed.

#[local] Hint Resolve session_gets client_gets client_link client_files client_put session_publish kept_nkey
  kept_audit kept_lookup kept_prepare_invitation kept_accept_welcome kept_messaging_identity
  kept_create_group kept_mark_displayed kept_encrypt_message kept_encrypt_related kept_seal kept_open
  kept_process_history kept_process_receipt kept_reconcile kept_catch_up
  world_flush_outbox world_resume world_send : keeps.
Ltac session_auto :=
  repeat first
    [ progress keeps_step
    | match goal with
      | |- keeps session_kept (modify _) => apply session_modify; done
      | |- keeps session_kept (db_op _) => apply session_db
      | |- keeps session_kept (client_op _) => apply session_client
      | |- keeps client_kept (on_db _) => apply client_db
      | |- keeps client_kept (on_world _) => apply client_world
      | |- keeps _ (for_each _ _) => apply keeps_for_each; try typeclasses eauto
      | |- keeps _ (gets _) => apply keeps_gets; typeclasses eauto
      | |- keeps _ (let '_ := ?x in _) => destruct x
      end ].

Lemma kept_synchronize name w : keeps client_kept (synchronize capacity ask refresh name w).
Proof. unfold synchronize. session_auto. Qed.
Lemma kept_read_db {A} (f : ClientDb St -> result A) : keeps client_kept (read_db f).
Proof. unfold read_db. session_auto. Qed.
Lemma kept_query {A} (f : ClientDb St -> result A) : keeps session_kept (query f).
Proof. unfold query. session_auto. Qed.
#[local] Hint Resolve kept_synchronize kept_read_db kept_query : keeps.
Lemma kept_within {S A} (R : S -> S -> Prop) `{!PreOrder R} late msg (m : M S A) :
  keeps R m -> keeps R (within late msg m).
Proof. intros Hm. unfold within. keeps_auto. Qed.
Lemma kept_invite name user device w logs random after :
  keeps client_kept (invite capacity ask refresh name user device w logs random after).
Proof. unfold invite. session_auto. Qed.
Lemma kept_join_next inviter device logs consumer batch acked renewed :
  keeps client_kept (join_next capacity inviter device logs consumer batch acked renewed).
Proof. unfold join_next, device_consumer. session_auto. Qed.
Lemma kept_send_file name path mime l u : keeps client_kept (send_file capacity ask refresh name path mime l u).
Proof. unfold send_file, transfer. session_auto. Qed.
Lemma kept_save_file name id output l now now' info fetch :
  keeps client_kept (save_file name id output l now now' info fetch).
Proof. unfold save_file. session_auto. Qed.
#[local] Hint Resolve kept_invite kept_join_next kept_send_file kept_save_file : keeps.
Lemma kept_draft name text relation nonce random :
  keeps (kept capacity None) (encrypt_draft capacity name text relation nonce random).
Proof. unfold encrypt_draft. session_auto. Qed.
#[local] Hint Resolve kept_draft : keeps.
Lemma kept_finish_send synced name text relation nonce random :
  keeps session_kept (finish_send capacity synced name text relation nonce random).
Proof. unfold finish_send. session_auto. Qed.
Lemma kept_seal_on name e w : keeps session_kept (seal_on name e w).
Proof. unfold seal_on. session_auto. Qed.
#[local] Hint Resolve kept_finish_send kept_seal_on : keeps.
Lemma kept_command a w : keeps session_kept (command capacity ask refresh a w).
Proof.
  unfold command, command_typing, command_older, command_send, connected_or.
  session_auto; try (apply kept_within; [apply _|]; session_auto).
Qed.
Lemma kept_resume_join w : keeps session_kept (resume_join capacity w).
Proof.
  unfold resume_join, join_channel. session_auto; apply kept_within; [apply _|]; session_auto.
Qed.
Lemma kept_network w : keeps session_kept (network capacity ask refresh w).
Proof.
  unfold network, network_body, subscribe, catch_up_all, ephemeral_events, ephemeral_event, request_receipts,
    request_receipt.
  session_auto.
Qed.
Lemma kept_turn e now : keeps session_kept (turn capacity ask refresh e now).
Proof.
  pose proof kept_command. pose proof kept_resume_join. pose proof kept_network.
  unfold turn. session_auto.
Qed.

(** ** Only a send counts as one *)

Definition same_sends s s' : Prop := se_send_count s' = se_send_count s /\ se_send_error s' = se_send_error s.
#[local] Instance same_sends_preorder : PreOrder same_sends.
Proof. unfold same_sends. split; [by intros s|]. intros a b c [] []. split; congruence. Qed.
Lemma sends_modify f : (forall s, se_send_count (f s) = se_send_count s /\ se_send_error (f s) = se_send_error s) ->
  keeps same_sends (modify f).
Proof. intros Hf s. exact (Hf s). Qed.
Lemma sends_client {A} (m : M (Client St) A) : keeps same_sends (client_op m).
Proof. intros s. unfold client_op. by destruct (m (se_client s)). Qed.
Ltac sends_auto :=
  repeat first
    [ progress keeps_step
    | match goal with
      | |- keeps same_sends (modify _) => apply sends_modify; done
      | |- keeps same_sends (client_op _) => apply sends_client
      | |- keeps same_sends (db_op _) => apply sends_client
      | |- keeps same_sends (publish_on _ _ _) => apply sends_client
      | |- keeps same_sends (within _ _ _) => apply kept_within; [apply _|]
      | |- keeps _ (for_each _ _) => apply keeps_for_each; try typeclasses eauto
      | |- keeps _ (gets _) => apply keeps_gets; typeclasses eauto
      | |- keeps _ (let '_ := ?x in _) => destruct x
      end ].
Lemma sends_command a w : is_send a = false -> keeps same_sends (command capacity ask refresh a w).
Proof.
  intros Ha. unfold command, command_typing, command_older, connected_or, query, seal_on.
  destruct a; try done; sends_auto.
Qed.
(** ** What a finished send leaves *)

Definition drafted (relation : option RelationDraft) (text : string) (e : ApplicationEvent) : Prop :=
  match relation, ae_relation e with
  | None, None | Some (DraftReply _), Some (ReplyTo _) | Some (DraftEdit _), Some (Replace _) =>
      ae_content e = as_bytes text
  | Some (DraftReaction _ add), Some (Reaction _ value add') => value = text /\ add' = add /\ ae_content e = []
  | _, _ => False
  end.
(** The message is in the transcript, as this device's, and in the outbox. *)
Definition recorded (d : ClientDb St) (a : Action) : Prop :=
  match a with
  | Send name text relation => exists e g row t id r,
      drafted relation text e /\ groups_t (chat d) !! name = Some g /\
      transcript (chat d) !! row = Some t /\ tr_outgoing t = true /\ tr_gid t = ge_gid g /\
      tr_plaintext t = Some (event_transcript e) /\
      outbox (chat d) !! id = Some r /\ ob_payload r = tr_payload t
  | _ => True
  end.
Lemma recorded_kept a d d' : kept capacity None d d' -> recorded d a -> recorded d' a.
Proof.
  intros [Hd _]. destruct a; try done.
  intros (e & g & row & t & id & r & He & Hg & Ht & Ho & Hgid & Hp & Hr & Hpay).
  destruct (du_transcript _ _ _ Hd row t Ht) as (t' & Ht' & E1 & E2 & _ & E3 & E4 & _).
  destruct (du_outbox _ _ _ Hd id r Hr) as (r' & Hr' & _ & F1 & _).
  destruct (du_groups _ _ _ Hd name g Hg) as (g' & Hg' & <-).
  exists e, g, row, t', id, r'. split_and!; congruence.
Qed.
Lemma new_event_Ok name content relation nonce (d : ClientDb St) e :
  new_event name content relation nonce d = Ok e -> ae_content e = content /\ ae_relation e = relation.
Proof.
  unfold new_event. intros Hn. apply rbind_Ok in Hn as (? & _ & Hn). apply rbind_Ok in Hn as (? & _ & Hn).
  apply rbind_Ok in Hn as (? & _ & Hn). by apply rbind_Ok in Hn as (? & _ & [= <-]).
Qed.
Lemma encrypted_recorded name e rnd relation text d b d' :
  drafted relation text e -> encrypt_event capacity name e rnd d = (Ok b, d') ->
  recorded d' (Send name text relation).
Proof.
  intros He Hrun. pose proof (kept_encrypt_event capacity None name e rnd d) as Hk. rewrite Hrun in Hk. cbn in Hk.
  apply encrypt_event_Ok in Hrun as (descriptor & g & key & app & sg & sender & row & t & Hg & _ & _ & _ & _ & _
    & _ & _ & _ & _ & _ & Hout & _ & _ & Ht & Hpay & _ & Hplain & Hgid & Hoo & _).
  unfold group in Hg. apply rbind_Ok in Hg as (entry & Hentry%ok_or_Ok & Hg).
  assert (ge_gid entry = grp_gid descriptor) as Hid by (injection Hg as <-; done).
  destruct Hk as [Hd _]. destruct (du_groups _ _ _ Hd name entry Hentry) as (g' & Hg' & <-).
  exists e, entry, row, t, (next_rowid (outbox (chat d))). eexists. split_and!; [done..|congruence|done| |].
  - rewrite Hout. apply lookup_insert_eq.
  - done.
Qed.
Lemma draft_recorded name text relation nonce random d b d' :
  encrypt_draft capacity name text relation nonce random d = (Ok b, d') -> recorded d' (Send name text relation).
Proof.
  unfold encrypt_draft, encrypt_message, encrypt_related. intros Hrun.
  destruct relation as [[t|t|t add]|].
  1-3: apply bind_Ok in Hrun as (target & d1 & Ht & Hrun);
    apply bind_Ok in Ht as (x & d2 & [-> ->]%gets_Ok & [_ ->]%lift_Ok);
    apply bind_Ok in Hrun as (x & d2 & [-> ->]%gets_Ok & Hrun);
    apply bind_Ok in Hrun as ([] & d2 & [_ ->]%lift_Ok & Hrun).
  all: apply bind_Ok in Hrun as (x & d2 & [-> ->]%gets_Ok & Hrun);
    apply bind_Ok in Hrun as (e & d2 & [[Hc Hr]%new_event_Ok ->]%lift_Ok & Hrun);
    eapply encrypted_recorded; [|exact Hrun]; unfold drafted; rewrite Hr; done.
Qed.
Lemma command_send_run name text relation w s :
  match command capacity ask refresh (Send name text relation) w s with
  | (Ok _, s') => se_send_count s' = se_send_count s + 1 /\ se_send_error s' = None /\
                  recorded (se_db s') (Send name text relation)
  | (Err e, s') => se_send_count s' = se_send_count s + 1 /\ se_send_error s' = Some (error_text e)
  end.
Proof.
  unfold command, command_send. rewrite (bind_run _ _ _ s s) by done.
  assert (keeps same_sends (attempt (if se_connected s && cd_up w
    then let* _ := within (cd_late w) "sync before send timed out; retry after reconnect"
                     (client_op (synchronize capacity ask refresh name (cd_sync w))) in ret tt
    else ret tt))) as Hk by sends_auto.
  specialize (Hk s). unfold bind at 1. destruct (attempt _ s) as [[synced|e] s1] eqn:Hs;
    [|by apply attempt_Err in Hs].
  cbn [snd] in Hk. destruct Hk as [Hc He]. unfold finish_send, bind at 1, attempt.
  destruct ((lift synced;;; db_op _) s1) as [r s2] eqn:Hr.
  assert (same_sends s1 s2) as [Hc2 He2].
  { assert (keeps same_sends (lift synced;;;
      db_op (encrypt_draft capacity name text relation (fst (cd_random w)) (snd (cd_random w))))) as Hk
      by sends_auto. specialize (Hk s1). by rewrite Hr in Hk. }
  unfold bind, modify, lift. destruct r as [b|e]; cbn.
  - split; [congruence|]. split; [done|].
    apply bind_Ok in Hr as (u & s3 & [_ ->]%lift_Ok & Hr).
    unfold db_op, client_op, on_db, on_world, on_store in Hr.
    destruct (encrypt_draft _ _ _ _ _ _ _) as [r d'] eqn:Hd. injection Hr as -> <-. by apply draft_recorded in Hd.
  - split; [congruence|done].
Qed.

(** ** The two together *)

Context `{Ratatui}.
(** The interface, the worker with the snapshot it published last, and, as a
    history, the sends it finished. *)
Record App : Type := {
  ap_screen : Screen;
  ap_session : Session St;
  ap_published : Snapshot;
  ap_finished : list (Action * bool);
}.
Definition started (s : Session St) : App := {|
  ap_screen := initial_screen; ap_session := s; ap_published := initial_snapshot; ap_finished := [] |}.

Definition fatal (message : string) (n : Snapshot) : Snapshot := {|
  sn_identity := sn_identity n; sn_channels := sn_channels n; sn_selected := sn_selected n;
  sn_messages := sn_messages n; sn_typing := sn_typing n; sn_members := sn_members n;
  sn_status := sn_status n; sn_notice := sn_notice n; sn_security_warning := sn_security_warning n;
  sn_older := sn_older n; sn_fatal := Some message; sn_send_count := sn_send_count n;
  sn_send_error := sn_send_error n |}.
(** A turn of the worker, unless it has ended. *)
Definition work (e : WorkerEvent) (now : Z) (queue : list Action) (a : App) : App :=
  let '(r, s) := turn capacity ask refresh e now (ap_session a) in
  {| ap_screen := set_commands {| queue := queue; receiver := is_ok r |} (ap_screen a);
     ap_session := s;
     ap_published := match r with Ok n => n | Err e => fatal (error_text e) (ap_published a) end;
     ap_finished := match e with
       | CommandEvent c w =>
           if is_send c then ap_finished a ++ [(c, is_ok (fst (command capacity ask refresh c w (ap_session a))))]
           else ap_finished a
       | TickEvent _ _ => ap_finished a
       end |}.
Inductive AppOp : Type :=
| Interface (area : Rect) (now later : Z) (drawn : result unit) (event : result (option Input))
| Work (w : CommandDraws) (now : Z)
| Tick (j : JoinDraws) (w : NetworkDraws) (now : Z).
Definition run_app (a : App) (o : AppOp) : App :=
  let alive := receiver (commands (ap_screen a)) in
  match o with
  | Interface area now later drawn event =>
      {| ap_screen := snd (round area (ap_published a) now later drawn event (ap_screen a));
         ap_session := ap_session a; ap_published := ap_published a; ap_finished := ap_finished a |}
  | Work w now =>
      match alive, queue (commands (ap_screen a)) with
      | true, c :: l => work (CommandEvent c w) now l a
      | _, _ => a
      end
  | Tick j w now => if alive then work (TickEvent j w) now (queue (commands (ap_screen a))) a else a
  end.

Definition sends (s : Screen) : list Action := List.filter is_send (queue (commands s)).
(** A send of the draft. *)
Definition send_of (draft : string) (a : Action) : Prop :=
  exists name text relation, a = Send name text relation /\ submit draft (Some name) = Ok a.
(** Where the draft is: nothing in flight; in the queue; or finished. *)
Definition tracked (a : App) : Prop :=
  let s := ap_session a in
  match pending (ap_screen a) with
  | None => sends (ap_screen a) = []
  | Some (count, draft) =>
      (exists c, sends (ap_screen a) = [c] /\ send_of draft c /\ se_send_count s = count) \/
      (sends (ap_screen a) = [] /\ se_send_count s = count + 1 /\
       exists c ok l, ap_finished a = l ++ [(c, ok)] /\ send_of draft c /\
         (ok = true <-> se_send_error s = None))
  end.
Record coherent (a : App) : Prop := {
  co_tracked : tracked a;
  co_count : sn_fatal (ap_published a) = None -> sn_send_count (ap_published a) = se_send_count (ap_session a)
    /\ sn_send_error (ap_published a) = se_send_error (ap_session a);
  co_recorded : forall c, (c, true) ∈ ap_finished a -> recorded (se_db (ap_session a)) c;
}.

(** *** The worker's side *)

Lemma snapshot_sends now s n : snapshot now s = Ok n ->
  sn_fatal n = None /\ sn_send_count n = se_send_count s /\ sn_send_error n = se_send_error s.
Proof.
  unfold snapshot. intros Hs. do 2 (apply rbind_Ok in Hs as (? & _ & Hs)).
  apply rbind_Ok in Hs as ([ms messages] & _ & Hs). do 2 (apply rbind_Ok in Hs as (? & _ & Hs)).
  by injection Hs as <-.
Qed.
(** A turn that ends well publishes the state it leaves. *)
Lemma turn_Ok e now s n s' :
  turn capacity ask refresh e now s = (Ok n, s') -> snapshot now s' = Ok n.
Proof.
  unfold turn. intros Hrun. apply bind_Ok in Hrun as (u & s1 & _ & Hrun).
  apply bind_Ok in Hrun as (r & s2 & [-> ->]%gets_Ok & [Hr ->]%lift_Ok). done.
Qed.
Lemma turn_command c w now s :
  snd (turn capacity ask refresh (CommandEvent c w) now s) =
  match command capacity ask refresh c w s with
  | (Ok _, s') => s' | (Err e, s') => set_se_notice (failed e) s'
  end.
Proof.
  unfold turn, bind, attempt, gets, lift, ret, modify.
  by destruct (command capacity ask refresh c w s) as [[u|e] s'].
Qed.
Lemma turn_tick_sends j w now s : same_sends s (snd (turn capacity ask refresh (TickEvent j w) now s)).
Proof.
  revert s. change (keeps same_sends (turn capacity ask refresh (TickEvent j w) now)). unfold turn.
  unfold resume_join, join_channel, network, network_body, subscribe, catch_up_all, ephemeral_events,
    ephemeral_event, request_receipts, request_receipt, query, seal_on.
  sends_auto.
Qed.

Lemma work_coherent e now l a :
  coherent a ->
  match e with
  | CommandEvent c _ => queue (commands (ap_screen a)) = c :: l
  | TickEvent _ _ => queue (commands (ap_screen a)) = l
  end -> coherent (work e now l a).
Proof.
  intros [Ht Hc Hr] Hq. unfold work.
  pose proof (kept_turn e now (ap_session a)) as Hkept.
  destruct (turn capacity ask refresh e now (ap_session a)) as [r s'] eqn:Hturn. cbn [snd] in Hkept.
  assert (sn_fatal (match r with Ok n => n | Err e => fatal (error_text e) (ap_published a) end) = None ->
    sn_send_count (match r with Ok n => n | Err e => fatal (error_text e) (ap_published a) end) = se_send_count s' /\
    sn_send_error (match r with Ok n => n | Err e => fatal (error_text e) (ap_published a) end) = se_send_error s') as Hpub.
  { destruct r as [n|err]; [|done]. by apply turn_Ok, snapshot_sends in Hturn as (_ & ? & ?). }
  assert (forall c, recorded (se_db (ap_session a)) c -> recorded (se_db s') c) as Hstable
    by (intros c; by apply recorded_kept).
  destruct e as [c w|j w].
  - pose proof (turn_command c w now (ap_session a)) as Hs'. rewrite Hturn in Hs'. cbn [snd] in Hs'.
    destruct (is_send c) eqn:Hsend.
    + destruct c as [| | | | |name text relation| | | | |]; try done.
      pose proof (command_send_run name text relation w (ap_session a)) as Hrun.
      destruct (command _ _ _ _ _ _) as [res s1] eqn:Hcmd.
      assert (se_send_count s' = se_send_count s1 /\ se_send_error s' = se_send_error s1 /\ se_db s' = se_db s1)
        as (En & Ee & Ed) by (rewrite Hs'; by destruct res).
      assert (se_send_count s1 = se_send_count (ap_session a) + 1 /\
        (is_ok res = true <-> se_send_error s1 = None)) as [E1 E2]
        by (destruct res as [[]|err]; destruct Hrun as (-> & -> & ?) || destruct Hrun as [-> ->]; by split).
      split; cbn; [|done|].
      * unfold tracked, sends in *. cbn. rewrite Hq in Ht. cbn in Ht.
        destruct (pending (ap_screen a)) as [[count draft]|]; [|done]. right.
        destruct Ht as [(c & Hl & Hof & <-)|[Hl _]]; [|done]. injection Hl as <- Hl.
        split_and!; [done|congruence|]. exists (Send name text relation), (is_ok res), (ap_finished a).
        split_and!; [done|done|]. by rewrite Ee.
      * intros c Hin. rewrite elem_of_app, list_elem_of_singleton in Hin. destruct Hin as [Hin|[= -> Hok]].
        -- by apply Hstable, Hr.
        -- rewrite Ed. cbn in Hok. destruct res as [[]|]; [|done]. by destruct Hrun as (_ & _ & ?).
    + assert (same_sends (ap_session a) s') as [Hn He].
      { pose proof (sends_command c w Hsend (ap_session a)) as [Hn He]. rewrite Hs'.
        by destruct (command _ _ _ _ _ _) as [[]]. }
      split; cbn; [|done|].
      * unfold tracked, sends in *. cbn. rewrite Hq in Ht. cbn in Ht. rewrite Hsend in Ht. rewrite Hn, He. exact Ht.
      * intros c' Hin. by apply Hstable, Hr.
  - pose proof (turn_tick_sends j w now (ap_session a)) as [Hn He]. rewrite Hturn in Hn, He. cbn [snd] in Hn, He.
    split; cbn; [|done|].
    + unfold tracked, sends in *. cbn. rewrite <- Hq, Hn, He. exact Ht.
    + intros c Hin. by apply Hstable, Hr.
Qed.

(** *** The interface's side *)

Definition calm (s s' : Screen) : Prop := sends s' = sends s /\ pending s' = pending s.
#[local] Instance calm_preorder : PreOrder calm.
Proof. unfold calm. split; [by intros s|]. intros a b c [] []. split; congruence. Qed.
Lemma calm_modify f : (forall s : Screen, sends (f s) = sends s /\ pending (f s) = pending s) -> keeps calm (modify f).
Proof. intros Hf s. exact (Hf s). Qed.
Lemma calm_submit c : is_send c = false -> keeps calm (submit_action c).
Proof.
  intros Hc s. unfold submit_action, try_send, calm, sends. destruct (_ && _); cbn; [|done].
  rewrite filter_app. cbn. by rewrite Hc, app_nil_r.
Qed.
Ltac calm_auto :=
  repeat first
    [ progress keeps_step
    | match goal with
      | |- keeps calm (modify _) => apply calm_modify; done
      | |- keeps calm (submit_action _) => apply calm_submit; done
      | |- keeps _ (gets _) => apply keeps_gets; typeclasses eauto
      end ].
Lemma calm_notices draft selected p now act :
  keeps calm (for_each (fst (update_activity draft selected p now act))
                (fun n => let* _ := submit_action n in ret tt)).
Proof.
  assert (Forall (fun c => is_send c = false) (fst (update_activity draft selected p now act))) as Hall.
  { unfold update_activity. destruct (typing_target _ _ _ _ _) as [n|]; destruct (da_announced act) as [[m t]|];
      repeat case_bool_decide; repeat match goal with |- context [if ?b then _ else _] => destruct b end;
      cbn; repeat constructor. }
  induction Hall as [|n l Hn _ IH]; cbn [for_each]; [calm_auto|].
  apply keeps_bind; [apply _| |intros _; exact IH]. apply keeps_bind; [apply _|by apply calm_submit|calm_auto].
Qed.

(** A key submits a message only as Enter, with the input as it is. *)
Lemma key_input_send k state u c u' :
  key_input k state u = (Ok (Some c), u') -> is_send c = true ->
  code k = Enter /\ u' = u /\ submit (input u) (sn_selected state) = Ok c.
Proof.
  unfold key_input. destruct (bool_decide _); [done|].
  destruct (code k); try (cbn; by intros [= <- <-]).
  - destruct (_ || _); by intros [= ].
  - destruct (sn_channels state); [done|]. unfold bind, modify, lift, ret.
    destruct (ok_or _ _); [|done]. by intros [= <- <-].
  - destruct (sn_channels state); [done|]. unfold bind, modify, lift, ret.
    destruct (ok_or _ _); [|done]. by intros [= <- <-].
  - unfold bind, gets, id. repeat (destruct (bool_decide _); [done|]). unfold lift, ret.
    destruct (submit (input u) (sn_selected state)) as [a|e]; [|done]. by intros [= <- <-].
Qed.
Lemma run_key_calm k state (s : Screen) :
  calm s (snd (run_key k state s)) \/
  (pending s = None /\ exists c, send_of (input (ui s)) c /\
     sends (snd (run_key k state s)) = sends s ++ [c] /\
     pending (snd (run_key k state s)) = Some (sn_send_count state, input (ui s))).
Proof.
  unfold run_key. rewrite (bind_run _ _ _ s s) by done.
  destruct (_ || _); [by left|]. destruct (_ && _) eqn:Hbusy; [by left|].
  destruct (key_input k state (ui s)) as [r u] eqn:Hk.
  rewrite (bind_run _ _ s r (set_ui (fun _ => u) s)) by (unfold attempt, on_ui; by rewrite Hk).
  assert (calm s (set_ui (fun _ => u) s)) as Hcalm by done.
  destruct r as [[c|]|e]; [|by left..]. destruct (is_send c) eqn:Hc.
  - apply key_input_send in Hk as (Hcode & -> & Hsubmit); [|done].
    destruct (submit_action c (set_ui (fun _ => ui s) s)) as [res s2] eqn:Hsub. pose proof Hsub as Hrun.
    unfold submit_action, try_send in Hsub. destruct (_ && _) in Hsub; injection Hsub as <- <-;
      rewrite (bind_run _ _ _ _ _ Hrun); [|by left]. right. split.
    + destruct (pending s); [|done]. rewrite Hcode in Hbusy. by case_bool_decide.
    + exists c. split.
      { destruct c as [| | | | |name text relation| | | | |]; try done.
        pose proof (submit_send _ _ _ _ _ Hsubmit) as [Hsel _]. rewrite Hsel in Hsubmit. by exists name, text, relation. }
      unfold bind, gets, modify, ret, id. cbn.
      unfold sends. cbn. rewrite filter_app. cbn. by rewrite Hc.
  - left. transitivity (set_ui (fun _ => u) s); [done|].
    match goal with |- calm ?a (snd (?m ?a)) => cut (keeps calm m); [by intros Hm; apply Hm|] end.
    calm_auto.
Qed.
(** A round settles what finished first; then it queues one send at most, of
    the draft, when none is in flight. *)
Definition at_most_one (n : Z) (s s' : Screen) : Prop :=
  calm s s' \/
  (pending s = None /\ exists draft c, send_of draft c /\ sends s' = sends s ++ [c] /\ pending s' = Some (n, draft)).
Lemma calm_then {A B} n (m : M Screen A) (k : A -> M Screen B) :
  keeps calm m -> (forall a, keeps (at_most_one n) (k a)) -> keeps (at_most_one n) (let* a := m in k a).
Proof.
  intros Hm Hk s. specialize (Hm s). unfold bind. destruct (m s) as [[a|e] s1]; [|by left].
  cbn [snd] in Hm. destruct Hm as [Hsends Hpending]. unfold at_most_one, calm. rewrite <- Hsends, <- Hpending.
  apply (Hk a s1).
Qed.
Lemma key_at_most_one k state : keeps (at_most_one (sn_send_count state)) (run_key k state).
Proof.
  intros s. destruct (run_key_calm k state s) as [?|(? & c & ? & ? & ?)]; [by left|].
  right. split; [done|]. by exists (input (ui s)), c.
Qed.
Lemma calm_paste text : keeps calm (run_paste text).
Proof. unfold run_paste. calm_auto. Qed.
Definition settle (n : Snapshot) (s : Screen) : Screen :=
  let '(u, p) := ui_finish_send n (pending s) (ui s) in set_pending p (set_ui (fun _ => u) s).
Lemma round_sends area n now later drawn event (s : Screen) :
  sn_fatal n = None -> at_most_one (sn_send_count n) (settle n s) (snd (round area n now later drawn event s)).
Proof.
  intros Hf. unfold round. rewrite Hf. rewrite (bind_run _ _ s tt s) by done.
  rewrite (bind_run _ _ s tt (settle n s)) by done.
  match goal with |- at_most_one _ _ (snd (?m _)) => cut (keeps (at_most_one (sn_send_count n)) m); [by auto|] end.
  clear s.
  apply calm_then; [calm_auto|intros s].
  destruct (update_activity _ _ _ _ _) as [notices act] eqn:Hact.
  assert (notices = fst (update_activity (input (ui s)) (sn_selected n)
    (match pending s with Some _ => true | None => false end) now (activity s))) as -> by by rewrite Hact.
  apply calm_then; [calm_auto|intros _]. apply calm_then; [apply calm_notices|intros _].
  do 3 (apply calm_then; [calm_auto|intros ?]). apply calm_then; [calm_auto|intros s'].
  apply calm_then; [calm_auto; by apply calm_submit|intros _]. apply calm_then; [calm_auto|intros e].
  destruct e as [[k|text|]|]; [destruct (bool_decide _)| | |]; try apply key_at_most_one;
    intros s''; left; first [apply calm_paste|done].
Qed.
Lemma round_fatal area n now later drawn event (s : Screen) e :
  sn_fatal n = Some e -> snd (round area n now later drawn event s) = s.
Proof. intros Hf. unfold round. by rewrite Hf. Qed.

Lemma settle_tracked a :
  coherent a -> sn_fatal (ap_published a) = None ->
  let s := settle (ap_published a) (ap_screen a) in
  sends s = sends (ap_screen a) /\
  ((pending s = pending (ap_screen a) /\ exists c draft, sends s = [c] /\ send_of draft c /\
      pending s = Some (se_send_count (ap_session a), draft)) \/
   (pending s = None /\ sends s = [])).
Proof.
  intros [Ht Hc _] Hf. destruct (Hc Hf) as [Hn _]. unfold settle, ui_finish_send, tracked in *.
  destruct (pending (ap_screen a)) as [[count draft]|] eqn:Hp; [|split; [done|right; by split]].
  rewrite Hn. destruct Ht as [(c & Hs & Hof & Hcount)|(Hs & Hcount & _)].
  - rewrite Hcount, Z.ltb_irrefl. split; [done|]. left. split; [done|]. by exists c, draft.
  - assert (count <? se_send_count (ap_session a) = true) as -> by lia.
    split; [done|]. right. split; [done|]. exact Hs.
Qed.
Lemma round_coherent a area now later drawn event :
  coherent a -> coherent (run_app a (Interface area now later drawn event)).
Proof.
  intros Ha. pose proof Ha as [Ht Hc Hr]. split; [|exact Hc|exact Hr]. unfold tracked. cbn [run_app ap_screen ap_session ap_finished].
  destruct (sn_fatal (ap_published a)) as [e|] eqn:Hf; [by erewrite round_fatal|].
  pose proof (settle_tracked a Ha Hf) as [_ Hs]. destruct (Hc eq_refl) as [Hn _].
  destruct (round_sends area _ now later drawn event (ap_screen a) Hf) as [[-> ->]|(Hp & draft & c & Hof & -> & ->)].
  - destruct Hs as [(_ & c & draft & ? & ? & ->)|[-> ?]]; [|done]. left. by exists c.
  - destruct Hs as [(_ & c' & draft' & _ & _ & Hp')|[_ ->]]; [congruence|]. left. by exists c.
Qed.
Lemma run_app_coherent a o : coherent a -> coherent (run_app a o).
Proof.
  intros Ha. destruct o; cbn [run_app]; [by apply round_coherent| |].
  - destruct (receiver _); [|done]. destruct (queue _) as [|c l] eqn:Hq; [done|]. by apply work_coherent.
  - destruct (receiver _); [|done]. by apply work_coherent.
Qed.
Lemma reachable_coherent s0 ops : se_send_count s0 = 0 -> se_send_error s0 = None ->
  coherent (fold_left run_app ops (started s0)).
Proof.
  intros Hn He. assert (coherent (started s0)) as Ha.
  { split; [done| |]; cbn; [by rewrite Hn, He|]. intros c. by rewrite elem_of_nil. }
  revert Ha. generalize (started s0). induction ops as [|o ops IH]; intros a Ha; [done|].
  cbn. by apply IH, run_app_coherent.
Qed.

(** C7. A sent draft is settled as it ended. However the rounds of the interface
    and the turns of the worker interleave, while the worker lives: either the
    send is still queued, once, and the draft stays; or the worker finished it,
    and the next round clears the draft only when the message is in the store
    and the outbox, and keeps it, with the worker's reason, when it is not. *)
Theorem draft_settled s0 ops count draft :
  se_send_count s0 = 0 -> se_send_error s0 = None ->
  let a := fold_left run_app ops (started s0) in
  pending (ap_screen a) = Some (count, draft) -> sn_fatal (ap_published a) = None ->
  let s := settle (ap_published a) (ap_screen a) in
  (pending s = Some (count, draft) /\ ui s = ui (ap_screen a) /\
     exists c, sends s = [c] /\ send_of draft c) \/
  (pending s = None /\ sends s = [] /\ exists c ok l, ap_finished a = l ++ [(c, ok)] /\ send_of draft c /\
     if ok : bool
     then recorded (se_db (ap_session a)) c /\
       input (ui s) = (if bool_decide (input (ui (ap_screen a)) = draft) then EmptyString
                       else input (ui (ap_screen a)))
     else input (ui s) = input (ui (ap_screen a)) /\ exists e, se_send_error (ap_session a) = Some e /\
       notice (ui s) = NoticeText ("Send failed; draft retained: " +:+ e)).
Proof.
  intros Hn He a Hp Hf. pose proof (reachable_coherent s0 ops Hn He) as [Ht Hc Hr]. fold a in Ht, Hc, Hr.
  destruct (Hc Hf) as [Hcount Herr]. unfold tracked in Ht. rewrite Hp in Ht. unfold settle, ui_finish_send.
  rewrite Hp, Hcount, Herr. destruct Ht as [(c & Hs & Hof & Heq)|(Hs & Heq & c & ok & l & Hfin & Hof & Hok)].
  - left. rewrite Heq, Z.ltb_irrefl. cbn. split_and!; [done|done|]. by exists c.
  - right. assert (count <? se_send_count (ap_session a) = true) as -> by lia. cbn.
    split_and!; [done|exact Hs|]. exists c, ok, l. split_and!; [done|done|]. destruct ok.
    + rewrite (proj1 Hok eq_refl). split; [apply Hr; rewrite Hfin; set_solver|]. by case_bool_decide.
    + destruct (se_send_error (ap_session a)) as [e|]; [|by assert (false = true) by by apply Hok].
      cbn. split; [done|]. by exists e.
Qed.
End session_facts.
