(* ===== verification/Cli.v ===== *)
(** * The commands of the client

    [crates/epochgrid-client/src/main.rs], [chat.rs], [participant.rs] and the
    [run] of [recovery.rs] and of [tui/mod.rs]: what each of the twelve commands
    asks of the store, the vault, the disk and the network, in which order, and
    what it prints; with [list] of [devices.rs], [revoke] of [revocation.rs] and
    [exchange] of [receipts.rs], which only commands use. Loops that wait are
    over the events they see; a wait that ends without the event it is for is
    the end of the list. The homes the development configuration opens besides
    this device's own are inputs. *)
From stdpp Require Import sorting.
From S2P Require Import Prelude Opening Development External Wire Capacity Identity Registry Policy Callout KvStore Merkle Transparency Secrets Files Mls ClientDb IdentityStore Revocation Trust TrustFacts Groups Recovery RecoveryFacts RecoveryFiles Delivery Attachments Relationships Messaging Ephemeral Flush ChatKeeps ClientOps Tui Session SessionFacts.

(** ** The directory's answers *)

Section directory.
Context `{NKeys} `{MlsPackages} `{Postcard Envelope} `{Postcard RegistrationPayload}.

Fixpoint valid_devices (user : string) (devices keys : list string) (l : list DeviceRegistration) : result unit :=
  match l with
  | [] => Ok tt
  | r :: l =>
      verify r ;;?
      check (bool_decide (user_id (payload r) = user)) "directory returned a different user" ;;?
      check (negb (bool_decide (device_id (payload r) ∈ devices))
             && negb (bool_decide (nats_public_key (payload r) ∈ keys)))
        "directory returned duplicate device identity" ;;?
      valid_devices user (device_id (payload r) :: devices) (nats_public_key (payload r) :: keys) l
  end.
(* @src core/devices.rs 40-57 validate_list *)
Definition validate_list (user : string) (l : list DeviceRegistration) : result unit :=
  check (zlen l <=? 32) "too many devices in response" ;;?
  valid_devices user [] [] l.
(* @src core/devices.rs 26-39 list *)
Definition list_devices (user : string) : M Link (list DeviceRegistration) :=
  lift (validate_id user) ;;;
  let* reply := request_once DEVICES (Body.ListDevices user) in
  let* body := lift (decode reply) in
  match body with
  | Body.Devices l => lift (validate_list user l) ;;; ret l
  | _ => fail (Anyhow "device listing rejected or unsupported by service")
  end.
End directory.

(** ** Text *)

(** [trim_end_matches('\n')]. *)
Fixpoint trim_newlines (s : string) : string :=
  match s with
  | EmptyString => EmptyString
  | String c r =>
      match trim_newlines r with
      | EmptyString => if decide (c = line_feed) then EmptyString else String c EmptyString
      | r => String c r
      end
  end.
Definition sequence_text (s : option Z) : string := match s with Some n => show n | None => "pending" end.

Section text.
Context `{Postcard Manifest}.
(** Control characters are escaped, except for line feeds and tabs. *)
(* @src client/chat.rs 9-20 text *)
Definition chat_text (b : bytes) : string :=
  String.concat EmptyString (map (fun '(c, piece) =>
    match c with
    | Some c => if External.is_control c && negb (c =? 10)%N && negb (c =? 9)%N then escape_control c else string_of_bytes piece
    | None => string_of_bytes piece
    end) (utf8_pieces (as_bytes (display b)))).
(* @src client/chat.rs 21-41 display *)
Definition entry_line (e : HistoryEntry) (numbered : bool) : string :=
  let prefix := if numbered then "[" +:+ sequence_text (he_sequence e) +:+ "] " else EmptyString in
  match he_plaintext e with
  | Some text => prefix +:+ default "unknown" (he_sender e) +:+ "> " +:+ trim_newlines (chat_text text)
  | None => prefix +:+ "[plaintext unavailable: processed before local history was enabled]"
  end.
End text.

(** ** The shell *)

(** The device, what its vault holds, and what was printed. *)
Record Shell (St V : Type) : Type := {
  sh_client : Client St; sh_vault : VaultState V; sh_out : list string; sh_err : list string;
}.
Arguments sh_client {St V}. Arguments sh_vault {St V}. Arguments sh_out {St V}. Arguments sh_err {St V}.
Definition store_of {St V} (s : Shell St V) : ClientDb St := w_db (cl_world (sh_client s)).
Definition on_client {St V A} (m : M (Client St) A) : M (Shell St V) A := fun s =>
  let '(r, c) := m (sh_client s) in
  (r, {| sh_client := c; sh_vault := sh_vault s; sh_out := sh_out s; sh_err := sh_err s |}).
Definition on_store_db {St V A} (m : M (ClientDb St) A) : M (Shell St V) A := on_client (on_db m).
Definition reading {St V A} (f : ClientDb St -> result A) : M (Shell St V) A := on_client (read_db f).
(** The store together with the vault. *)
Definition on_home {St V A} (m : M (Home (St := St) (V := V)) A) : M (Shell St V) A := fun s =>
  let c := sh_client s in
  let '(r, h) := m {| h_db := store_of s; h_vault := sh_vault s |} in
  (r, {| sh_client := {| cl_world := set_w_db (h_db h) (cl_world c); cl_link := cl_link c; cl_disk := cl_disk c;
                         cl_objects := cl_objects c |};
         sh_vault := h_vault h; sh_out := sh_out s; sh_err := sh_err s |}).
Definition say {St V} (line : string) : M (Shell St V) unit :=
  modify (fun s => {| sh_client := sh_client s; sh_vault := sh_vault s; sh_out := sh_out s ++ [line];
                      sh_err := sh_err s |}).
Definition warn {St V} (line : string) : M (Shell St V) unit :=
  modify (fun s => {| sh_client := sh_client s; sh_vault := sh_vault s; sh_out := sh_out s;
                      sh_err := sh_err s ++ [line] |}).

Section cli.
Context {St : Type} `{Pages (ClientDb St)} `{Mls St} {V : Type} `{Backend V} (capacity : Capacity).
Context `{NKeys} `{MlsPackages} `{Seeds} `{Credentials} `{Json SecretRef} `{Base32} `{Sha256} `{Aead}
  `{MlsCrypto}
  `{Postcard DeviceRegistration} `{Postcard RecoveryStatus} `{Postcard Envelope}
  `{Postcard RegistrationPayload} `{Postcard Intent} `{Postcard WelcomeRelay} `{Postcard RelayTuple}
  `{Postcard PolicyUpdate} `{Postcard CheckpointTuple} `{Postcard RequestTuple} `{Postcard Revocation}
  `{Postcard FingerprintTuple} `{Postcard Checkpoint}
  `{Postcard Manifest} `{Postcard ApplicationEvent} `{Postcard ApplicationTuple} `{Postcard LegacyTuple}
  `{Postcard (string * string)} `{Postcard EphemeralEnvelope} `{Postcard EphemeralBody}
  `{Postcard ContextTuple} `{Postcard SealTuple} `{Postcard RecoveryArchive} `{CapacityFile} `{FixtureJson}.
Variables (ask : string -> Body.t -> result bytes) (refresh : result unit).
Implicit Types (d : ClientDb St).
Abbreviation Replies := (result bytes * result bytes)%type.

(** What a command finds: whether the store opens and the server admits the
    device, the logs it audits first and afterwards, a synchronization, a flush,
    the randomness of what it encrypts, and whether its deadline passed. *)
Record Net : Type := {
  nt_open : result unit;
  nt_connect : result unit;
  nt_logs : Replies;
  nt_logs_after : Replies;
  nt_sync : SyncDraws;
  nt_flush : Replies;
  nt_random : bytes * bytes;
  nt_late : bool;
}.
(** [IdentityStore::open] and [transport::connect]. *)
Definition open_store (n : Net) : M (Shell St V) unit := lift (nt_open n).
(* @src core/transport.rs 10-13 connect *)
Definition connect (n : Net) : M (Shell St V) unit :=
  let* _ := on_store_db store_nkey in lift (nt_connect n).
Definition flush (r : Replies) : M (Shell St V) unit :=
  on_client (on_world (flush_outbox capacity ask refresh (fst r) (snd r))).
Definition sync (name : string) (s : SyncDraws) : M (Shell St V) SyncReport :=
  on_client (synchronize capacity ask refresh name s).
Definition audit_logs (r : Replies) : M (Shell St V) Wire.Snapshot := on_store_db (audit capacity (fst r) (snd r)).
Definition lookup_device (r : Replies) (user device : string) : M (Shell St V) DeviceRegistration :=
  on_store_db (Trust.lookup capacity (fst r) (snd r) user device).

(** ** Requests only commands make *)

(** [draws gid] is what the synchronization of a group finds. *)
(* @src core/revocation.rs 311-341 revoke *)
Definition revoke_device (user device : string) (n : Net) (draws : string -> SyncDraws) : M (Shell St V) unit :=
  let* snapshot := audit_logs (nt_logs n) in
  let* record := lift (ok_or (find_record snapshot user device) (Anyhow "device not registered")) in
  let* key := on_store_db store_nkey in
  let* request := lift (request_signed user device (nats_public_key (payload record)) key) in
  let* reply := on_client (on_link (request_once REVOKE (Body.Revoke request))) in
  let* body := lift (decode reply) in
  ensure (match body with Body.Revoked => true | _ => false end)
    "revocation not completed; intent may be durable, inspect status and retry" ;;;
  let* _ := audit_logs (nt_logs_after n) in
  let* l := reading (fun d => Ok (groups d)) in
  for_each l (fun g => let* _ := sync (grp_name g) (draws (grp_gid g)) in ret tt).

(** What an exchange of receipts sees until its deadline: a tick, with how each
    request is sealed and sent, or what the subscription gives. *)
Inductive ExchangeEvent : Type :=
| Ticked (seals : list (bytes * bytes * result Z * result unit)) (flushed : result unit)
| Heard (message : option Popped).
Definition seal_and_publish (name : string) (g : Group) (event : EphemeralEvent)
    (w : bytes * bytes * result Z * result unit) : M (Shell St V) unit :=
  let '(id, nonce, clock, sent) := w in
  let* payload := on_store_db (seal_ephemeral name event id nonce clock) in
  on_client (on_link (link_publish (subject "ephemeral" g) payload sent)).
Definition no_draw : bytes * bytes * result Z * result unit := ([], [], Err External, Err External).
(* @src core/receipts.rs 188-203 exchange (event) *)
Definition exchange_event (name own : string) (g : Group) (e : ExchangeEvent) : M (Shell St V) unit :=
  match e with
  | Ticked seals flushed =>
      let* requests := reading (receipt_requests name 100) in
      for_each (imap (fun i r => (r, default no_draw (seals !! i))) requests)
        (fun '(r, w) => seal_and_publish name g r w) ;;;
      lift flushed
  | Heard None => fail (Anyhow "receipt subscription ended")
  | Heard (Some p) =>
      let '(opened, processed, _) := po_instants p in
      let* r := attempt (on_store_db (open_ephemeral_at name (po_payload p) (po_clock p) opened)) in
      match r with
      | Err _ => ret tt
      | Ok event =>
          if bool_decide (au_sender event = own) then ret tt
          else
            let* response := on_store_db (process_receipt name event processed) in
            match response with
            | Some response => seal_and_publish name g response (po_seal p, po_sent p)
            | None => ret tt
            end
      end
  end.
(* @src core/receipts.rs 160-211 exchange *)
Definition exchange (name : string) (seconds : Z) (n : Net) (subscribed flushed : result unit)
    (seen : list ExchangeEvent) : M (Shell St V) unit :=
  ensure ((1 <=? seconds) && (seconds <=? 60)) "receipt exchange must be 1–60 seconds" ;;;
  let* g := reading (group name) in
  let* r := attempt (
    let* _ := audit_logs (nt_logs n) in
    let* _ := sync name (nt_sync n) in
    lift subscribed ;;;
    lift flushed) in
  (if nt_late n then fail Elapsed else lift r) ;;;
  let* own := reading registration in
  for_each seen (exchange_event name (user_id (payload own) +:+ "/" +:+ device_id (payload own)) g).

(** ** Chat *)

(* @src client/chat.rs 42-49 report *)
Definition report (r : SyncReport) : M (Shell St V) unit :=
  if (0 <? rejected r) || (0 <? unavailable r)
  then warn ("EpochGrid history: " +:+ show (rejected r) +:+ " rejected, " +:+ show (unavailable r)
             +:+ " unavailable; use message history to inspect retained history")
  else ret tt.
(* @src client/chat.rs 50-76 history *)
Definition chat_history (name : string) (limit : Z) (before : option Z) (offline : bool) (n : Net)
  : M (Shell St V) unit :=
  ensure ((1 <=? limit) && (limit <=? 1000)) "history limit must be 1–1000" ;;;
  open_store n ;;;
  let* r := if offline then on_store_db (process_history capacity name)
            else connect n ;;; sync name (nt_sync n) in
  report r ;;;
  let* l := reading (conversation name limit before) in
  for_each l (fun e => say (entry_line (ce_entry e) true)) ;;;
  let* rejected := reading (rejected_history name) in
  if 0 <? rejected
  then warn ("EpochGrid: " +:+ show rejected +:+ " invalid or undecryptable deliveries retained in local quarantine")
  else ret tt.

(** The next message no one saw, shown and marked. *)
Definition show_unread (name : string) : M (Shell St V) bool :=
  let* next := reading (unread name) in
  match next with
  | Some e => say (entry_line e false) ;;; on_store_db (mark_displayed (he_id e)) ;;; ret true
  | None => ret false
  end.
(** [polls] are the synchronizations before the deadline. *)
(* @src client/chat.rs 91-99 receive (loop) *)
Fixpoint await_message (name : string) (polls : list SyncDraws) : M (Shell St V) unit :=
  match polls with
  | [] => fail (Anyhow "timed out waiting for an authenticated message")
  | s :: polls =>
      let* r := sync name s in
      report r ;;;
      let* shown := show_unread name in
      if shown : bool then ret tt else await_message name polls
  end.
(* @src client/chat.rs 77-103 receive *)
Definition chat_receive (name : string) (n : Net) (polls : list SyncDraws) : M (Shell St V) unit :=
  open_store n ;;;
  let* _ := reading (group name) in
  let* _ := on_store_db (process_history capacity name) in
  let* shown := show_unread name in
  if shown : bool then ret tt
  else
    connect n ;;;
    flush (nt_flush n) ;;;
    warn ("EpochGrid listening: " +:+ name) ;;;
    await_message name polls.

(** Every unread message, in order; the transcript has more rows than are
    unread. *)
(* @src client/chat.rs 109-112 interactive (drain) *)
Fixpoint drain (fuel : nat) (name : string) : M (Shell St V) unit :=
  let* shown := show_unread name in
  if shown : bool then match fuel with O => fail External | S fuel => drain fuel name end else ret tt.
Definition drain_unread (name : string) : M (Shell St V) unit :=
  let* n := reading (fun d => Ok (Z.to_nat (table_size (transcript (chat d))))) in
  drain n name.
Record SendDraws : Type := {
  ms_random : bytes * bytes * bytes;
  ms_replies : Replies * Replies * Replies;
  ms_deliveries : result (list (result ChatDelivery));
}.
Definition send_text (name text : string) (w : SendDraws) : M (Shell St V) unit :=
  let '(nonce, rnd, rnd') := ms_random w in
  let '(before, middle, after) := ms_replies w in
  on_client (on_world (send capacity ask refresh name (as_bytes text) nonce rnd rnd' before middle after
                         (ms_deliveries w))).
(** What the loop of a chat waits for: a signal, a line of input or its end, and
    the next poll. *)
Inductive ChatEvent : Type :=
| Interrupted
| InputLine (line : option (result string)) (w : SendDraws)
| Polled (s : SyncDraws).
(* @src client/chat.rs 125-145 interactive (loop) *)
Fixpoint chat_loop (name : string) (l : list ChatEvent) : M (Shell St V) unit :=
  match l with
  | [] | Interrupted :: _ | InputLine None _ :: _ => ret tt
  | InputLine (Some line) w :: l =>
      let* line := lift line in
      if bool_decide (line = "/quit") then ret tt
      else if bool_decide (line = EmptyString) then chat_loop name l
      else
        let* sent := attempt (send_text name line w) in
        (if is_ok sent then ret tt
         else warn "EpochGrid send failed; pending ciphertext can be retried with channel flush") ;;;
        chat_loop name l
  | Polled s :: l =>
      let* r := sync name s in
      report r ;;;
      drain_unread name ;;;
      chat_loop name l
  end.
(* @src client/chat.rs 104-147 interactive *)
Definition interactive (name : string) (n : Net) (l : list ChatEvent) : M (Shell St V) unit :=
  open_store n ;;;
  connect n ;;;
  let* r := sync name (nt_sync n) in
  report r ;;;
  drain_unread name ;;;
  say ("[" +:+ name +:+ "] — encrypted chat with catch-up; /quit exits") ;;;
  chat_loop name l.

(* @src client/chat.rs 149-167 events *)
Definition chat_events (name : string) (offline : bool) (n : Net) : M (Shell St V) unit :=
  open_store n ;;;
  (if offline then ret tt
   else connect n ;;; let* r := sync name (nt_sync n) in report r) ;;;
  let* l := reading (history name 100 None) in
  for_each l (fun e =>
    let* id := reading (fun d => Ok (application_id (he_id e) d)) in
    say ("id: " +:+ default "unavailable" id) ;;;
    say (entry_line e true)).

(** The relation of an operation, and the content of its event. *)
Definition relation_for (operation text : string) (id : bytes) : result (Relation * bytes) :=
  if bool_decide (operation = "reply") then Ok (ReplyTo id, as_bytes text)
  else if bool_decide (operation = "edit") then Ok (Replace id, as_bytes text)
  else if bool_decide (operation = "react") || bool_decide (operation = "unreact")
  then Ok (Reaction id text (bool_decide (operation = "react")), [])
  else Err (Anyhow "unknown relationship operation").
(* @src client/chat.rs 168-204 relate *)
Definition relate (name target text operation : string) (n : Net) : M (Shell St V) unit :=
  open_store n ;;;
  connect n ;;;
  within (nt_late n) "relationship operation timed out; sync to resume any queued event" (
    let* _ := audit_logs (nt_logs n) in
    let* _ := sync name (nt_sync n) in
    let* id := reading (resolve_message name target) in
    let* (relation, content) := lift (relation_for operation text id) in
    let* _ := on_store_db (encrypt_related capacity name relation content (fst (nt_random n)) (snd (nt_random n))) in
    flush (nt_flush n)) ;;;
  say "EpochGrid encrypted relationship accepted by server".

(** ** The status participant *)

(** A pass: what its synchronization and its flush find, the randomness of the
    answers, whether it took too long, and whether a signal came meanwhile or
    before the next. *)
Record Pass : Type := {
  pa_sync : SyncDraws;
  pa_entropy : Z -> bytes * bytes;
  pa_flush : Replies;
  pa_late : bool;
  pa_signal : option (result unit);
  pa_pause : option (result unit);
}.
(* @src client/participant.rs 32-44 run (pass) *)
Definition participant_pass (name : string) (p : Pass) : M (Shell St V) unit :=
  within (pa_late p) "participant pass timed out" (
    let* _ := sync name (pa_sync p) in
    let* active := reading (group_active name) in
    ensure active "participant removed from channel" ;;;
    let* _ := on_store_db (respond_status capacity name (pa_entropy p)) in
    flush (pa_flush p)).
(* @src client/participant.rs 31-64 run (loop) *)
Fixpoint participant_loop (name : string) (once : bool) (l : list Pass) : M (Shell St V) unit :=
  match l with
  | [] => ret tt
  | p :: l =>
      let* r := attempt (participant_pass name p) in
      match pa_signal p with
      | Some signal => lift signal
      | None =>
          if once then lift r
          else
            let* active := reading (group_active name) in
            let* key := if active : bool then let* key := on_store_db store_nkey in ret (Some key) else ret None in
            let* revoked := reading (fun d => Ok (match key with Some k => is_revoked (public_key k) d | None => true end)) in
            ensure (active && negb revoked) "participant removed or revoked" ;;;
            match pa_pause p with Some signal => lift signal | None => participant_loop name once l end
      end
  end.
(* @src client/participant.rs 17-65 run *)
Definition participant_run (name : string) (once : bool) (n : Net) (l : list Pass) : M (Shell St V) unit :=
  open_store n ;;;
  let* own := reading registration in
  ensure (bool_decide (device_id (payload own) = "service"))
    "initialize a dedicated identity with --device service" ;;;
  let* active := reading (group_active name) in
  ensure active "participant is removed from this channel" ;;;
  connect n ;;;
  warn "EpochGrid service participant running; Ctrl-C stops" ;;;
  participant_loop name once l.

(** ** The commands *)

(* @src client/main.rs 87-95 Transparency *)
Inductive TransparencyCommand : Type := AuditLog | TransparencyStatus | PinKey (key : string).
(* @src client/main.rs 96-126 Device *)
Inductive DeviceCommand : Type :=
| RevokeDevice (user device : string)
| Fingerprint (user device : option string) (offline : bool)
| VerifyFingerprint (user device fingerprint : string)
| AddDevice (user device : string)
| ListDevices (user : option string).
(* @src client/main.rs 127-153 Identity *)
Inductive IdentityCommand : Type :=
| EnrollDevice (device : string)
| VerifyIdentity (user device fingerprint : string)
| InitIdentity (user device : string)
| ShowIdentity
| RegisterIdentity
| LookupIdentity (user device : string).
(* @src client/main.rs 154-191 Channel *)
Inductive ChannelCommand : Type :=
| RemoveMember (name user device : string)
| CreateChannel (name : string)
| ListMembers (name : string) (users : bool)
| ListChannels
| SyncChannel (name : string)
| FlushChannel
| InviteMember (name user device : string)
| JoinChannel (from device : string).
(* @src client/main.rs 192-208 Attachment *)
Inductive AttachmentCommand : Type :=
| SendAttachment (name file mime : string)
| ListAttachments (name : string)
| SaveFile (name id output : string).
(* @src client/main.rs 209-263 Message *)
Inductive MessageCommand : Type :=
| MessageEvents (name : string) (offline : bool)
| ReplyMessage (name target text : string)
| EditMessage (name target text : string)
| ReactMessage (name target value : string) (remove : bool)
| MessageReceipts (name : string) (wait : Z) (offline : bool)
| SendMessage (name : string)
| MessageHistory (name : string) (limit : Z) (before : option Z) (offline : bool)
| ReceiveMessage (name : string) (timeout : Z).

(* @src client/main.rs 290-329 main (Attachment) *)
Definition attachment_command (c : AttachmentCommand) (n : Net) (limits : result Limits) (u : UploadDraws)
    (clocks : result Z * result Z) (info : result ObjectInfo) (fetch : string -> Z -> result StoredChunk)
  : M (Shell St V) unit :=
  open_store n ;;;
  match c with
  | ListAttachments name =>
      let* l := reading (attachments name) in
      for_each l (fun m => say (summary m))
  | SendAttachment name file mime =>
      connect n ;;;
      let* limits := lift limits in
      let* id := on_client (send_file capacity ask refresh name file mime limits u) in
      say ("EpochGrid encrypted attachment sent: " +:+ id)
  | SaveFile name id output =>
      connect n ;;;
      let* limits := lift limits in
      on_client (save_file name id output limits (fst clocks) (snd clocks) info fetch) ;;;
      say ("EpochGrid authenticated attachment saved: " +:+ output)
  end.

Definition optionally {A} (o : option A) (f : A -> M (Shell St V) unit) : M (Shell St V) unit :=
  match o with Some a => f a | None => ret tt end.
(** The groups whose keys do not yet follow the revocations. *)
Definition say_pending (prefix : string) : M (Shell St V) unit :=
  let* l := reading (fun d => Ok (groups d)) in
  for_each l (fun g =>
    let* pending := reading (rekey_pending (grp_name g)) in
    if pending : bool then say (prefix +:+ grp_name g) else ret tt).
(* @src client/main.rs 353-388 main (Status) *)
Definition transparency_status : M (Shell St V) unit :=
  let* checkpoint := reading stored_checkpoint in
  match checkpoint with
  | Some c =>
      say ("EpochGrid transparency checkpoint: " +:+ show (cp_size c) +:+ " registrations; signer " +:+ cp_signer c) ;;;
      say ("Root: " +:+ hex_bytes_upper (cp_root c))
  | None =>
      say "EpochGrid transparency: no audited checkpoint" ;;;
      let* key := reading (fun d => Ok (directory_key d)) in
      optionally key (fun key => say ("Pinned signer: " +:+ key))
  end ;;;
  let* checkpoint := reading revocation_checkpoint in
  optionally checkpoint (fun c =>
    say ("Revocation checkpoint: " +:+ show (cp_size c) +:+ " devices; signer " +:+ cp_signer c)) ;;;
  say_pending "MLS rekey pending: " ;;;
  let* warning := reading (fun d => Ok (trust_warning d)) in
  optionally warning say.
(* @src client/main.rs 335-389 main (Transparency) *)
Definition transparency_command (c : TransparencyCommand) (n : Net) : M (Shell St V) unit :=
  open_store n ;;;
  match c with
  | PinKey key =>
      on_store_db (pin_directory key) ;;;
      say ("EpochGrid directory key pinned: " +:+ key)
  | AuditLog =>
      connect n ;;;
      let* snapshot := audit_logs (nt_logs n) in
      say ("EpochGrid transparency audit passed: " +:+ show (cp_size (checkpoint snapshot))
           +:+ " registrations; signer " +:+ cp_signer (checkpoint snapshot)) ;;;
      say "First contact is trust-on-first-use unless the signer was pinned independently."
  | TransparencyStatus => transparency_status
  end.

(* @src client/main.rs 736-748 verify_device *)
Definition verify_remote (user device fp : string) (n : Net) : M (Shell St V) unit :=
  connect n ;;;
  let* _ := lookup_device (nt_logs n) user device in
  on_store_db (verify_device user device fp) ;;;
  say ("EpochGrid device verified: " +:+ user +:+ "/" +:+ device).
(* @src client/main.rs 409-452 main (Fingerprint) *)
Definition fingerprint_command (user device : option string) (offline : bool) (n : Net) : M (Shell St V) unit :=
  match user, offline with
  | Some user, true =>
      let* observed := reading (fun d =>
        ok_or (device_trust user (default "laptop" device) d) (Anyhow "device has not been observed")) in
      say ("EpochGrid device: " +:+ dt_user observed +:+ "/" +:+ dt_device observed +:+ " ["
           +:+ dt_state observed +:+ "]") ;;;
      say ("Pinned fingerprint: " +:+ display_fingerprint (dt_fingerprint observed)) ;;;
      say ("Latest fingerprint: " +:+ display_fingerprint (dt_latest observed))
  | _, _ =>
      let* r := match user with
                | Some user => connect n ;;; lookup_device (nt_logs n) user (default "laptop" device)
                | None => reading registration
                end in
      say ("EpochGrid device: " +:+ user_id (payload r) +:+ "/" +:+ device_id (payload r)) ;;;
      let* fp := lift (fingerprint r) in
      say ("Fingerprint: " +:+ display_fingerprint fp)
  end.
(** What generating an identity draws: the credential stored in the keyring, the
    clock, and the randomness of its keys. *)
Record InitDraws : Type := { id_provisioned : result SecretRef; id_clock : result Z; id_random : bytes * bytes }.
Definition init_device (user device : string) (w : InitDraws) : M (Shell St V) DeviceRegistration :=
  on_store_db (init capacity user device (id_provisioned w) (id_clock w) (fst (id_random w)) (snd (id_random w))).
(* @src client/main.rs 390-484 main (Device) *)
Definition device_command (c : DeviceCommand) (n : Net) (w : InitDraws) (draws : string -> SyncDraws)
  : M (Shell St V) unit :=
  open_store n ;;;
  match c with
  | RevokeDevice user device =>
      connect n ;;;
      revoke_device user device n draws ;;;
      say ("EpochGrid NATS access revoked: " +:+ user +:+ "/" +:+ device
           +:+ ". MLS groups rekey as their active coordinators sync.") ;;;
      say_pending "Rekey pending: "
  | Fingerprint user device offline => fingerprint_command user device offline n
  | VerifyFingerprint user device fp => verify_remote user device fp n
  | AddDevice user device =>
      let* r := init_device user device w in
      say ("EpochGrid device initialized: " +:+ user +:+ "/" +:+ device) ;;;
      say ("Operator enrollment: " +:+ user +:+ "/" +:+ device +:+ "=" +:+ nats_public_key (payload r))
  | ListDevices user =>
      let* own := reading registration in
      let user := default (user_id (payload own)) user in
      connect n ;;;
      let* l := on_store_db (user_devices capacity (fst (nt_logs n)) (snd (nt_logs n)) user) in
      for_each l (fun r =>
        let p := payload r in
        let* t := reading (fun d => Ok (device_trust (user_id p) (device_id p) d)) in
        let* revoked := reading (fun d => Ok (is_revoked (nats_public_key p) d)) in
        say (user_id p +:+ "/" +:+ device_id p +:+ " " +:+ nats_public_key p +:+ " ["
             +:+ (if revoked : bool then "revoked" else "active") +:+ "] ["
             +:+ match t with Some t => dt_state t | None => "unverified" end +:+ "]"))
  end.

(* @src client/main.rs 510-550 main (Receipts) *)
Definition receipts_command (name : string) (wait : Z) (offline : bool) (n : Net)
    (subscribed flushed : result unit) (seen : list ExchangeEvent) : M (Shell St V) unit :=
  ensure ((1 <=? wait) && (wait <=? 60)) "receipt wait must be 1–60 seconds" ;;;
  open_store n ;;;
  (if offline then ret tt else connect n ;;; exchange name wait n subscribed flushed seen) ;;;
  let* l := reading (history name 100 None) in
  for_each (List.filter he_outgoing l) (fun e =>
    let* status := reading (message_status (he_id e)) in
    say ("[" +:+ sequence_text (he_sequence e) +:+ "] " +:+ status_summary status)).
(** [typed] is the text on the standard input, of one byte more than a message
    at most; [polls] the synchronizations before the deadline. *)
(* @src client/main.rs 491-573 main (Message) *)
Definition message_command (c : MessageCommand) (n : Net) (typed : result string) (w : SendDraws)
    (polls : list SyncDraws) (subscribed flushed : result unit) (seen : list ExchangeEvent) : M (Shell St V) unit :=
  match c with
  | MessageEvents name offline => chat_events name offline n
  | ReplyMessage name target text => relate name target text "reply" n
  | EditMessage name target text => relate name target text "edit" n
  | ReactMessage name target value remove =>
      relate name target value (if remove then "unreact" else "react") n
  | MessageReceipts name wait offline => receipts_command name wait offline n subscribed flushed seen
  | SendMessage name =>
      let* text := lift typed in
      open_store n ;;;
      connect n ;;;
      send_text name text w ;;;
      say "EpochGrid encrypted message accepted by server"
  | MessageHistory name limit before offline => chat_history name limit before offline n
  | ReceiveMessage name _ => chat_receive name n polls
  end.

(** What joining a channel draws. *)
Record JoinNet : Type := {
  jn_consumer : string -> M Link (Attempted unit);
  jn_batch : result (option bytes);
  jn_acked : result unit;
  jn_renewed : result unit;
}.
(* @src client/main.rs 581-639 main (Channel) *)
Definition channel_command (c : ChannelCommand) (n : Net) (j : JoinNet) : M (Shell St V) unit :=
  open_store n ;;;
  match c with
  | RemoveMember name user device =>
      connect n ;;;
      let* r := attempt (
        let* _ := sync name (nt_sync n) in
        on_store_db (remove_member capacity name user device (snd (nt_random n))) ;;;
        flush (nt_flush n)) in
      (if nt_late n then fail Elapsed else lift r) ;;;
      say ("EpochGrid removed " +:+ user +:+ "/" +:+ device +:+ "; channel epoch advanced")
  | CreateChannel name =>
      let* g := on_store_db (create_group capacity name (fst (nt_random n)) (snd (nt_random n))) in
      say ("EpochGrid channel created: " +:+ grp_name g +:+ " (" +:+ grp_gid g +:+ ")")
  | ListMembers name by_user =>
      let* l := reading (if by_user then users name else members name) in
      for_each l say
  | InviteMember name user device =>
      connect n ;;;
      on_client (invite capacity ask refresh name user device (nt_sync n) (nt_logs n) (snd (nt_random n)) (nt_flush n)) ;;;
      say ("EpochGrid invitation delivered to " +:+ user +:+ "/" +:+ device)
  | JoinChannel from device =>
      connect n ;;;
      let* g := on_client (join_next capacity from device (nt_logs n) (jn_consumer j) (jn_batch j) (jn_acked j)
                             (jn_renewed j)) in
      say ("EpochGrid channel joined: " +:+ grp_name g +:+ " (" +:+ grp_gid g +:+ ")")
  | SyncChannel name =>
      connect n ;;;
      let* r := sync name (nt_sync n) in
      say ("EpochGrid caught up: " +:+ show (decrypted r) +:+ " decrypted, " +:+ show (rejected r)
           +:+ " rejected, " +:+ show (unavailable r) +:+ " unavailable")
  | FlushChannel =>
      connect n ;;;
      flush (nt_flush n) ;;;
      say "EpochGrid outbox delivered"
  | ListChannels =>
      let* l := reading (fun d => Ok (groups d)) in
      for_each l (fun g => say (grp_name g +:+ " " +:+ grp_gid g))
  end.

(** [serde_json::to_string_pretty] of a registration. *)
Variable pretty : RegistrationPayload -> result string.
(** What an enrollment draws: the token typed, the options of the connection,
    and whether the server admitted it with the token. *)
Record EnrollDraws : Type := {
  en_typed : result string; en_options : result unit; en_admitted : result unit;
}.
(** The identity there is, when it is the one to enroll, or a new one. *)
(* @src client/main.rs 656-665 main (Enroll, registration) *)
Definition enrolled_registration (user device : string) (w : InitDraws) : M (Shell St V) DeviceRegistration :=
  let* existing := attempt (reading registration) in
  match existing with
  | Ok r =>
      ensure (bool_decide (user_id (payload r) = user) && bool_decide (device_id (payload r) = device))
        "existing device differs from enrollment; use a fresh home" ;;;
      ret r
  | Err _ => init_device user device w
  end.
(* @src client/main.rs 677-693 main (Enroll, request) *)
Definition ask_enrollment (token : string) (own : DeviceRegistration) : M (Shell St V) unit :=
  let* reply := on_client (on_link (request_once ENROLL (Body.Enroll token own))) in
  let* body := lift (decode reply) in
  ensure (match body with Body.Registered => true | _ => false end) "enrollment rejected".
(* @src client/main.rs 650-694 main (Enroll) *)
Definition enroll_device (device : string) (n : Net) (w : InitDraws) (e : EnrollDraws) : M (Shell St V) unit :=
  let* typed := lift (en_typed e) in
  let token := trim typed in
  let* user := lift (token_user token) in
  let* r := enrolled_registration user device w in
  let* _ := on_store_db store_nkey in
  lift (en_options e) ;;;
  (if is_ok (en_admitted e) then ret tt else connect n) ;;;
  ask_enrollment token r ;;;
  say ("EpochGrid device enrolled: " +:+ user +:+ "/" +:+ device).
(* @src client/main.rs 712-731 main (Register) *)
Definition register_identity (n : Net) : M (Shell St V) unit :=
  on_store_db ensure_messaging_identity ;;;
  connect n ;;;
  let* own := reading registration in
  on_client (on_link (register own)) ;;;
  let* own := reading registration in
  let* logged := lookup_device (nt_logs n) (user_id (payload own)) (device_id (payload own)) in
  ensure (bool_decide (logged = own)) "own registration differs from authenticated log" ;;;
  say "EpochGrid device registered".
(* @src client/main.rs 640-733 main (Identity) *)
Definition identity_command (c : IdentityCommand) (n : Net) (w : InitDraws) (e : EnrollDraws) : M (Shell St V) unit :=
  open_store n ;;;
  match c with
  | VerifyIdentity user device fp => verify_remote user device fp n
  | EnrollDevice device => enroll_device device n w e
  | InitIdentity user device =>
      let* r := init_device user device w in
      say ("EpochGrid identity initialized: " +:+ user_id (payload r) +:+ "/" +:+ device_id (payload r)
           +:+ " (" +:+ nats_public_key (payload r) +:+ ")")
  | ShowIdentity =>
      let* own := reading registration in
      let* text := lift (pretty (payload own)) in
      say text
  | LookupIdentity user device =>
      connect n ;;;
      let* r := lookup_device (nt_logs n) user device in
      let* text := lift (pretty (payload r)) in
      say text
  | RegisterIdentity => register_identity n
  end.

(** *** Recovery *)

(* @src client/recovery.rs 14-33 Command *)
Inductive RecoveryCommand : Type :=
| ExportRecovery (output secret_file : string)
| RestoreRecovery (input secret_file : string)
| ShowRecovery.
(** What recovering draws: the clock, the secret and the nonce of a package, the
    entries of the home, whether the vault's lock is free, and the name of a new
    credential. *)
Record RecoveryDraws : Type := {
  rw_clock : result Z; rw_random : result bytes; rw_nonce : result bytes; rw_entries : list (string * bool);
  rw_lock_free : bool; rw_fresh : string;
}.
Definition on_disk {A} (m : M Disk A) : M (Shell St V) A := on_client (on_files m).
(* @src client/recovery.rs 167-197 run (status) *)
Definition show_recovery : M (Shell St V) unit :=
  let* _ := reading registration in
  let* status := reading recovery_status in
  match status with
  | Some status =>
      say "EpochGrid recovery-only home: identity administration; messaging disabled" ;;;
      say ("Exported at " +:+ show (exported_at status) +:+ " UTC Unix seconds; restored at "
           +:+ show (restored_at status) +:+ " UTC Unix seconds") ;;;
      say ("Device fingerprint: " +:+ display_fingerprint (rs_fingerprint status)) ;;;
      for_each (rs_groups status) (fun g =>
        say ("Re-invitation hint: " +:+ hint_name g +:+ " (" +:+ hint_gid g
             +:+ ") — no membership or history restored")) ;;;
      let* warning := reading (fun d => Ok (trust_warning d)) in
      optionally warning say
  | None => say "EpochGrid normal messaging home; recovery exports are not tracked locally"
  end.
(* @src client/recovery.rs 100-199 run *)
Definition recovery_command (c : RecoveryCommand) (n : Net) (w : RecoveryDraws) : M (Shell St V) unit :=
  match c with
  | ExportRecovery output secret_file =>
      open_store n ;;;
      let* (package, secret) := on_store_db (export_recovery (rw_clock w) (rw_random w) (rw_nonce w)) in
      on_disk (save_files package secret output secret_file) ;;;
      say ("EpochGrid encrypted recovery package saved: " +:+ output) ;;;
      say ("Recovery secret saved separately: " +:+ secret_file +:+ ". Keep it apart from the package.") ;;;
      say "Recovers identity administration and trust evidence only; no MLS secrets or message history."
  | RestoreRecovery input secret_file =>
      let* disk := on_disk (gets id) in
      let* _ := on_home (run_restore capacity input secret_file (dk_fs disk) (rw_entries w) (nt_open n) (rw_clock w)
                           (rw_lock_free w) (rw_fresh w)) in
      let* own := reading registration in
      say ("EpochGrid recovery-only identity restored: " +:+ user_id (payload own) +:+ "/"
           +:+ device_id (payload own)) ;;;
      say "Audit the directory, enroll a fresh device, revoke the lost device, and obtain a new invitation. This home cannot chat."
  | ShowRecovery => open_store n ;;; show_recovery
  end.

(** *** The policy of the store *)

(** The policy that was read, the device's lock, whether the store can be
    inspected, and how a policy is written. *)
Record InstallDraws : Type := {
  iw_policy : result bytes; iw_lock : result unit; iw_inspected : result unit; iw_encoded : Capacity -> bytes;
}.
(* @src client/main.rs 286-289 main (CapacityInstall) *)
Definition install_command (home : string) (w : InstallDraws) : M (Shell St V) unit :=
  let* d := gets store_of in
  on_disk (install_client (iw_encoded w) home (iw_policy w) (iw_lock w) (let? _ := iw_inspected w in Ok d)) ;;;
  say "Capacity policy installed; existing identities and history preserved.".

(** *** The development configuration *)

(** What the configuration finds: the registrations in the homes of the local
    users, and which of them is the home of this device, if any. *)
Record DevDraws : Type := {
  dv_opened : string -> result DeviceRegistration; dv_umask : Z; dv_canonical : string -> result string;
  dv_here : option (string * InitDraws);
}.
Definition LOCAL_USERS : list string := ["alice"; "bob"; "service"; "system"].
(** The identity there is, or a new one. *)
(* @src core/transport.rs 181-184 dev_config_with_enrollment (open) *)
Definition open_local (user : string) (n : Net) (w : InitDraws) : M (Shell St V) DeviceRegistration :=
  open_store n ;;;
  let* existing := attempt (reading registration) in
  match existing with
  | Ok r => ret r
  | Err _ => init_device user (if bool_decide (user = "system") then "operator" else "laptop") w
  end.
Fixpoint users_before (user : string) (l : list string) : list string :=
  match l with
  | [] => []
  | u :: l => if bool_decide (u = user) then [] else u :: users_before user l
  end.
(** A home is opened when those before it were, and the last one after the
    enrollment was checked. *)
Definition opened_homes (root : string) (enroll : list string) (n : Net) (w : DevDraws) (files : Fs)
  : M (Shell St V) (string -> result DeviceRegistration) :=
  match dv_here w with
  | Some (user, i) =>
      if bool_decide (user ∈ LOCAL_USERS)
         && forallb (fun u => is_ok (dv_opened w u)) (users_before user LOCAL_USERS)
         && (negb (bool_decide (user = "system")) || is_ok (dev_enrollment (dv_opened w) root enroll files))
      then
        let* r := attempt (open_local user n i) in
        ret (fun u => if bool_decide (u = user) then r else dv_opened w u)
      else ret (dv_opened w)
  | None => ret (dv_opened w)
  end.
(* @src client/main.rs 574-580 main (DevConfig) *)
Definition dev_config_command (root : string) (port : Z) (enroll : list string) (n : Net) (w : DevDraws)
  : M (Shell St V) unit :=
  let* disk := on_disk (gets id) in
  let* opened := opened_homes root enroll n w (dk_fs disk) in
  on_disk (dev_config_with_enrollment (dv_umask w) opened (dv_canonical w) root port enroll) ;;;
  say ("EpochGrid development configuration ready in " +:+ root).

(** *** The terminal interface *)

Context `{Ratatui}.
Definition app_op := run_app capacity ask refresh.
(** Rounds of the interface and turns of the worker, until a round leaves or
    fails. *)
(* @src client/tui/mod.rs 572-652 run (loop) *)
Fixpoint app_loop (ops : list AppOp) (a : App (St := St)) : result unit * App (St := St) :=
  match ops with
  | [] => (Ok tt, a)
  | o :: ops =>
      let a' := app_op a o in
      match o with
      | Interface area now later drawn event =>
          match fst (round area (ap_published a) now later drawn event (ap_screen a)) with
          | Ok Continue => app_loop ops a'
          | Ok Leave => (Ok tt, a')
          | Err e => (Err e, a')
          end
      | _ => app_loop ops a'
      end
  end.
Definition by_worker (o : AppOp) : bool := match o with Interface _ _ _ _ _ => false | _ => true end.
(** What the interface finds: whether there is a terminal and whether it takes
    the interface, when the worker starts, and what happens then. *)
Record TuiDraws : Type := {
  tw_terminal : result unit; tw_taken : result unit; tw_now : Z; tw_ops : list AppOp;
}.
(** The worker opens the store on its own thread; what stops it there is shown by
    the interface as it ends. *)
(* @src client/tui/mod.rs 559-654 run *)
Definition tui_command (n : Net) (w : TuiDraws) : M (Shell St V) unit :=
  lift (tw_terminal w) ;;;
  open_store n ;;;
  let* s := on_client (new_session (tw_now w)) in
  on_client (fun c =>
    let a := started (set_client c s) in
    let '(r, a) :=
      match tw_taken w with
      | Ok _ => app_loop (tw_ops w) a
      | Err e => (Err e, fold_left app_op (List.filter by_worker (tw_ops w)) a)
      end in
    (r, se_client (ap_session a))).

(** A command with what it finds. *)
(* @src client/main.rs 28-86 Command *)
Inductive Command : Type :=
| CapacityInstallCmd (home : string) (w : InstallDraws)
| ParticipantCmd (name : string) (once : bool) (l : list Pass)
| AttachmentCmd (c : AttachmentCommand) (limits : result Limits) (u : UploadDraws) (clocks : result Z * result Z)
    (info : result ObjectInfo) (fetch : string -> Z -> result StoredChunk)
| RecoveryCmd (c : RecoveryCommand) (w : RecoveryDraws)
| TransparencyCmd (c : TransparencyCommand)
| TuiCmd (w : TuiDraws)
| DeviceCmd (c : DeviceCommand) (w : InitDraws) (draws : string -> SyncDraws)
| ChatCmd (name : string) (l : list ChatEvent)
| MessageCmd (c : MessageCommand) (typed : result string) (w : SendDraws) (polls : list SyncDraws)
    (subscribed flushed : result unit) (seen : list ExchangeEvent)
| IdentityCmd (c : IdentityCommand) (w : InitDraws) (e : EnrollDraws)
| ChannelCmd (c : ChannelCommand) (j : JoinNet)
| DevConfigCmd (root : string) (port : Z) (enroll : list string) (w : DevDraws).
Definition needs_messaging (c : Command) : bool :=
  match c with
  | TuiCmd _ | ChatCmd _ _ | MessageCmd _ _ _ _ _ _ _ | ChannelCmd _ _ | AttachmentCmd _ _ _ _ _ _ => true
  | _ => false
  end.
Definition run_command (c : Command) (n : Net) : M (Shell St V) unit :=
  match c with
  | AttachmentCmd c limits u clocks info fetch => attachment_command c n limits u clocks info fetch
  | ParticipantCmd name once l => participant_run name once n l
  | TransparencyCmd c => transparency_command c n
  | DeviceCmd c w draws => device_command c n w draws
  | ChatCmd name l => interactive name n l
  | MessageCmd c typed w polls subscribed flushed seen => message_command c n typed w polls subscribed flushed seen
  | ChannelCmd c j => channel_command c n j
  | IdentityCmd c w e => identity_command c n w e
  | CapacityInstallCmd home w => install_command home w
  | RecoveryCmd c w => recovery_command c n w
  | TuiCmd w => tui_command n w
  | DevConfigCmd root port enroll w => dev_config_command root port enroll n w
  end.
(** [policy] is what reading the transport policy gave, [first] what opening the
    store before the command gave. *)
(* @src client/main.rs 264-285 main *)
Definition main (policy first : result unit) (c : Command) (n : Net) : M (Shell St V) unit :=
  lift policy ;;;
  (if needs_messaging c then lift first ;;; on_store_db ensure_messaging_identity else ret tt) ;;;
  run_command c n.

(** ** What commands keep *)

(** The store keeps what it has, and the vault every credential: only a restore
    touches the vault, and it only adds to it. *)
Definition shell_kept (s s' : Shell St V) : Prop :=
  client_kept capacity (sh_client s) (sh_client s') /\ vault_le (sh_vault s) (sh_vault s').
#[local] Instance shell_preorder : PreOrder shell_kept.
Proof. split; [intros s; by split|]. intros a b c [] []. split; by etrans. Qed.
Lemma shell_client {A} (m : M (Client St) A) : keeps (client_kept capacity) m -> keeps shell_kept (on_client m).
Proof. intros Hm s. specialize (Hm (sh_client s)). unfold on_client, shell_kept. by destruct (m (sh_client s)). Qed.
Lemma shell_db {A} (m : M (ClientDb St) A) : keeps (kept capacity None) m -> keeps shell_kept (on_store_db m).
Proof. intros Hm. by apply shell_client, client_db. Qed.
Lemma shell_read {A} (f : ClientDb St -> result A) : keeps shell_kept (reading f).
Proof. apply shell_client, kept_read_db. Qed.
Lemma shell_modify f : (forall s, sh_client (f s) = sh_client s /\ sh_vault (f s) = sh_vault s) ->
  keeps shell_kept (modify f).
Proof. intros Hf s. unfold shell_kept. cbn. destruct (Hf s) as [-> ->]. by split. Qed.
Lemma kept_devices r1 r2 user : keeps (kept (St := St) capacity None) (user_devices capacity r1 r2 user).
Proof. intros d. apply (kept_trust_op capacity None (OpDevices r1 r2 user)). Qed.
Lemma kept_pin key : keeps (kept (St := St) capacity None) (pin_directory key).
Proof. intros d. apply (kept_trust_op capacity None (OpPin key)). Qed.
Lemma kept_verify_device user device fp : keeps (kept (St := St) capacity None) (verify_device user device fp).
Proof. intros d. apply (kept_trust_op capacity None (OpVerify user device fp)). Qed.
#[local] Hint Resolve shell_read client_link client_files client_put kept_nkey kept_audit kept_lookup kept_devices
  kept_pin kept_verify_device kept_prepare_invitation kept_accept_welcome kept_messaging_identity
  kept_create_group kept_remove_member kept_mark_displayed kept_encrypt_message kept_encrypt_related kept_seal
  kept_open kept_process_history kept_process_receipt kept_respond_status kept_init
  kept_synchronize kept_invite kept_join_next kept_send_file kept_save_file
  world_flush_outbox world_resume world_send : keeps.
Ltac shell_auto :=
  repeat first
    [ progress keeps_step
    | match goal with
      | |- keeps shell_kept (modify _) => apply shell_modify; done
      | |- keeps shell_kept (on_store_db _) => apply shell_db
      | |- keeps shell_kept (on_client _) => apply shell_client
      | |- keeps (client_kept _) (on_world _) => apply client_world
      | |- keeps shell_kept (within _ _ _) => apply kept_within; [apply _|]
      | |- keeps _ (for_each _ _) => apply keeps_for_each; try typeclasses eauto
      | |- keeps _ (gets _) => apply keeps_gets; typeclasses eauto
      | |- keeps _ (let '_ := ?x in _) => destruct x
      end ].
Lemma kept_show name : keeps shell_kept (show_unread name).
Proof. unfold show_unread, say. shell_auto. Qed.
Lemma kept_drain fuel name : keeps shell_kept (drain fuel name).
Proof. pose proof kept_show. induction fuel; cbn [drain]; shell_auto. Qed.
Lemma kept_await name l : keeps shell_kept (await_message name l).
Proof. pose proof kept_show. induction l; cbn [await_message]; unfold sync, report, warn; shell_auto. Qed.
Lemma kept_chat_loop name l : keeps shell_kept (chat_loop name l).
Proof.
  pose proof kept_drain. induction l as [|[|[line|] w|s] l IH]; cbn [chat_loop];
    unfold send_text, drain_unread, sync, report, warn; shell_auto.
Qed.
Lemma kept_participant_loop name once l : keeps shell_kept (participant_loop name once l).
Proof.
  induction l as [|p l IH]; cbn [participant_loop]; [shell_auto|]. unfold participant_pass, sync, flush. shell_auto.
Qed.
Lemma kept_say_pending prefix : keeps shell_kept (say_pending prefix).
Proof. unfold say_pending, say. shell_auto. Qed.
Lemma kept_exchange_event name own g e : keeps shell_kept (exchange_event name own g e).
Proof. unfold exchange_event, seal_and_publish. shell_auto. Qed.
Lemma kept_exchange name seconds n r1 r2 l : keeps shell_kept (exchange name seconds n r1 r2 l).
Proof. pose proof kept_exchange_event. unfold exchange, audit_logs, sync. shell_auto. Qed.
#[local] Hint Resolve kept_show kept_drain kept_await kept_chat_loop kept_participant_loop kept_say_pending
  kept_exchange : keeps.
Lemma kept_attachment c n limits u clocks info fetch :
  keeps shell_kept (attachment_command c n limits u clocks info fetch).
Proof. unfold attachment_command, open_store, connect, say. shell_auto. Qed.
Lemma kept_transparency c n : keeps shell_kept (transparency_command c n).
Proof. unfold transparency_command, transparency_status, open_store, connect, audit_logs, optionally, say. shell_auto. Qed.
Lemma kept_device c n w draws : keeps shell_kept (device_command c n w draws).
Proof.
  unfold device_command, revoke_device, fingerprint_command, verify_remote, init_device, open_store, connect,
    audit_logs, lookup_device, sync, say. shell_auto.
Qed.
Lemma kept_message c n typed w polls r1 r2 seen : keeps shell_kept (message_command c n typed w polls r1 r2 seen).
Proof.
  unfold message_command, receipts_command, chat_events, relate, chat_history, chat_receive, send_text, open_store,
    connect, audit_logs, sync, flush, report, say, warn. shell_auto.
Qed.
Lemma kept_channel c n j : keeps shell_kept (channel_command c n j).
Proof. unfold channel_command, open_store, connect, sync, flush, say. shell_auto. Qed.
Lemma kept_identity c n w e : keeps shell_kept (identity_command c n w e).
Proof.
  unfold identity_command, enroll_device, enrolled_registration, ask_enrollment, register_identity, verify_remote, init_device, open_store, connect,
    lookup_device, say. shell_auto.
Qed.
Lemma kept_admin d d' : chat d' = chat d -> events d' = events d ->
  blocked_outbox (revocations d') = blocked_outbox (revocations d) ->
  (forall x, local_identity d = Some x -> local_identity d' = Some x) -> kept capacity None d d'.
Proof.
  intros Hc He Hb Hi. split.
  - split; rewrite ?Hc, ?He, ?Hb; done.
  - intros []. split; by rewrite ?Hc, ?He.
Qed.
Context `{!BackendLaws V}.
Lemma kept_on_home {A} (m : M (Home (St := St) (V := V)) A) :
  (forall h, admin_only h (snd (m h))) -> keeps shell_kept (on_home m).
Proof.
  intros Hm s. specialize (Hm {| h_db := store_of s; h_vault := sh_vault s |}). unfold on_home.
  destruct (m _) as [r h]. destruct Hm as [(Hc & He & _ & _ & Hb & Hi) Hv]. split; [by apply kept_admin|exact Hv].
Qed.
Lemma run_restore_admin input secret_file files entries opened clock lock_free fresh h :
  admin_only h (snd (run_restore (St := St) (V := V) capacity input secret_file files entries opened clock lock_free fresh h)).
Proof.
  unfold run_restore. apply read_then; [apply _|done|]. intros archive _.
  apply read_then; [apply _|by unfold ensure; case_match|]. intros _ _.
  apply read_then; [apply _|done|]. intros _ _. by apply restore_admin.
Qed.
Lemma kept_export clock random nonce : keeps (kept (St := St) capacity None) (export_recovery clock random nonce).
Proof. unfold export_recovery, export_archive. keeps_auto. Qed.
#[local] Hint Resolve kept_export : keeps.
Lemma kept_recovery c n w : keeps shell_kept (recovery_command c n w).
Proof.
  pose proof run_restore_admin as Hr. unfold recovery_command, show_recovery, open_store, on_disk, optionally, say.
  destruct c; shell_auto. by apply kept_on_home.
Qed.
Lemma kept_install home w : keeps shell_kept (install_command home w).
Proof. unfold install_command, on_disk, say. shell_auto. Qed.
Lemma kept_dev_config root port enroll n w : keeps shell_kept (dev_config_command root port enroll n w).
Proof. unfold dev_config_command, opened_homes, open_local, init_device, open_store, on_disk, say. shell_auto. Qed.
Lemma kept_new_session now : keeps (client_kept capacity) (new_session (St := St) now).
Proof.
  intros c. unfold new_session. destruct (registration _); [|done].
  pose proof (client_db capacity store_nkey (kept_nkey capacity None) c) as Hk. by destruct (on_db store_nkey c).
Qed.
Lemma kept_app_op a o : session_kept capacity (ap_session a) (ap_session (app_op a o)).
Proof.
  assert (forall e now l, session_kept capacity (ap_session a) (ap_session (work capacity ask refresh e now l a))) as Hw.
  { intros e now l. unfold work. pose proof (kept_turn capacity ask refresh e now (ap_session a)) as Hk.
    by destruct (turn _ _ _ _ _ _). }
  unfold app_op, run_app. destruct o; [done| |]; repeat case_match; done || apply Hw.
Qed.
Lemma kept_app_ops ops a : session_kept capacity (ap_session a) (ap_session (fold_left app_op ops a)).
Proof.
  revert a. induction ops as [|o ops IH]; intros a; cbn [fold_left]; [done|].
  etrans; [apply kept_app_op|apply IH].
Qed.
Lemma kept_app_loop ops a : session_kept capacity (ap_session a) (ap_session (snd (app_loop ops a))).
Proof.
  revert a. induction ops as [|o ops IH]; intros a; cbn [app_loop]; [done|].
  repeat case_match; try apply kept_app_op; (etrans; [apply kept_app_op|apply IH]).
Qed.
Lemma kept_tui n w : keeps shell_kept (tui_command n w).
Proof.
  unfold tui_command, open_store. apply keeps_bind; [apply _|auto with keeps|intros _].
  apply keeps_bind; [apply _|auto with keeps|intros _].
  apply keeps_bind; [apply _|apply shell_client, kept_new_session|intros s].
  apply shell_client. intros c. cbv zeta. destruct (tw_taken w) as [u|e].
  - pose proof (kept_app_loop (tw_ops w) (started (set_client c s))) as Hk. by destruct (app_loop _ _).
  - apply (kept_app_ops _ (started (set_client c s))).
Qed.
#[local] Hint Resolve kept_recovery kept_install kept_dev_config kept_tui : keeps.
Lemma kept_run c n : keeps shell_kept (run_command c n).
Proof.
  pose proof kept_attachment. pose proof kept_transparency. pose proof kept_device. pose proof kept_message.
  pose proof kept_channel. pose proof kept_identity.
  destruct c; cbn [run_command]; auto;
    unfold participant_run, interactive, drain_unread, sync, report, open_store, connect, say, warn; shell_auto.
Qed.
Lemma kept_main policy first c n : keeps shell_kept (main policy first c n).
Proof. pose proof kept_run. unfold main. shell_auto. Qed.

(** ** Draining the unread messages *)

Definition unread_keys (gid : string) d : list Z :=
  map fst (rows (fun _ t => is_unread gid t) (transcript (chat d))).
Lemma elem_of_unread gid d k :
  k ∈ unread_keys gid d <-> exists t, transcript (chat d) !! k = Some t /\ is_unread gid t = true.
Proof.
  unfold unread_keys. rewrite list_elem_of_In, in_map_iff. split.
  - intros ([k' t] & <- & Hin). exists t. by apply list_elem_of_In, elem_of_rows in Hin.
  - intros (t & Ht & Hu). exists (k, t). split; [done|]. by apply list_elem_of_In, elem_of_rows.
Qed.
Lemma mark_displayed_run k d : exists d',
  mark_displayed k d = (Ok tt, d') /\ groups_t (chat d') = groups_t (chat d) /\
  (forall row t', transcript (chat d') !! row = Some t' -> exists t, transcript (chat d) !! row = Some t /\
     (t' = t /\ (row = k -> tr_displayed t = true) \/ tr_displayed t' = true)).
Proof.
  eexists. split; [done|]. split; [done|]. cbn. intros row t' (t & Ht & ->)%lookup_update_where_Some.
  exists t. split; [done|]. destruct (_ && _) eqn:Hp; [by right|]. left. split; [done|].
  intros ->. rewrite Z.eqb_refl, orb_true_l, andb_true_r in Hp. by destruct (tr_displayed t).
Qed.
Lemma mark_displayed_fewer gid k d d' :
  k ∈ unread_keys gid d -> mark_displayed k d = (Ok tt, d') ->
  (length (unread_keys gid d') < length (unread_keys gid d))%nat.
Proof.
  intros Hk Hrun. destruct (mark_displayed_run k d) as (d2 & Hrun2 & _ & Hrows).
  rewrite Hrun in Hrun2. injection Hrun2 as <-.
  assert (forall t, is_unread gid t = true -> tr_displayed t = true -> False) as Hno.
  { intros t Hu Hd. unfold is_unread in Hu. by rewrite Hd, andb_false_r in Hu. }
  change (S (length (unread_keys gid d')) <= length (unread_keys gid d))%nat.
  change (length (k :: unread_keys gid d') <= length (unread_keys gid d))%nat.
  apply submseteq_length, NoDup_submseteq.
  - constructor; [|apply rows_keys_NoDup]. intros (t' & Ht' & Hu)%elem_of_unread.
    apply Hrows in Ht' as (t & Ht & [[-> Hd]|Hd]); [|by eapply Hno].
    eapply Hno; [exact Hu|auto].
  - intros row [->|Hin]%elem_of_cons; [done|]. apply elem_of_unread in Hin as (t' & Ht' & Hu).
    apply elem_of_unread. apply Hrows in Ht' as (t & Ht & [[-> _]|Hd]); [by exists t|].
    exfalso. by eapply Hno.
Qed.
Lemma unread_head name g d : group name d = Ok g ->
  match unread name d with
  | Ok (Some e) => he_id e ∈ unread_keys (grp_gid g) d
  | Ok None => unread_keys (grp_gid g) d = []
  | Err _ => False
  end.
Proof.
  intros Hg. unfold unread. rewrite Hg. cbn [rbind]. unfold unread_keys.
  pose proof (merge_sort_Permutation entry_le (rows (fun _ t => is_unread (grp_gid g) t) (transcript (chat d)))) as Hp.
  destruct (merge_sort _ _) as [|x l]; cbn.
  - apply Permutation_nil in Hp. by rewrite Hp.
  - destruct x as [k t]. rewrite <- Hp. cbn. left.
Qed.
Lemma show_unread_run name g s : group name (store_of s) = Ok g ->
  match show_unread name s with
  | (Ok true, s') => group name (store_of s') = Ok g /\
      (length (unread_keys (grp_gid g) (store_of s')) < length (unread_keys (grp_gid g) (store_of s)))%nat /\
      (exists line, sh_out s' = sh_out s ++ [line]) /\ sh_err s' = sh_err s
  | (Ok false, s') => s' = s /\ unread_keys (grp_gid g) (store_of s) = []
  | (Err _, _) => False
  end.
Proof.
  intros Hg. pose proof (unread_head name g (store_of s) Hg) as Hu. unfold show_unread, reading, read_db.
  destruct (unread name (store_of s)) as [[e|]|] eqn:Hn; [| |done].
  all: rewrite (bind_run _ _ s _ s) by (unfold on_client, bind, gets, lift; fold (store_of s); rewrite Hn; by destruct s).
  2: done.
  unfold say. rewrite (bind_run _ _ s tt _) by done.
  destruct (mark_displayed_run (he_id e) (store_of s)) as (d' & Hrun & Hgroups & _).
  pose proof (mark_displayed_fewer _ _ _ _ Hu Hrun) as Hfewer.
  set (s1 := {| sh_client := sh_client s; sh_vault := sh_vault s; sh_out := sh_out s ++ [entry_line e false];
               sh_err := sh_err s |}).
  set (c := {| cl_world := set_w_db d' (cl_world (sh_client s)); cl_link := cl_link (sh_client s);
               cl_disk := cl_disk (sh_client s); cl_objects := cl_objects (sh_client s) |}).
  rewrite (bind_run _ _ s1 tt {| sh_client := c; sh_vault := sh_vault s1; sh_out := sh_out s1; sh_err := sh_err s1 |})
    by (unfold on_store_db, on_client, on_db, on_world, on_store, s1; cbn [sh_client]; unfold store_of in Hrun;
        by rewrite Hrun).
  cbn. split_and!; [|done|by eexists|done]. unfold group in *. unfold store_of. cbn. by rewrite Hgroups.
Qed.
Lemma drain_run name g fuel s :
  group name (store_of s) = Ok g -> (length (unread_keys (grp_gid g) (store_of s)) <= fuel)%nat ->
  exists s' shown, drain fuel name s = (Ok tt, s') /\ unread_keys (grp_gid g) (store_of s') = [] /\
    sh_out s' = sh_out s ++ shown /\ sh_err s' = sh_err s /\
    (length shown <= length (unread_keys (grp_gid g) (store_of s)))%nat.
Proof.
  revert s. induction fuel as [|fuel IH]; intros s Hg Hlen; cbn [drain];
    pose proof (show_unread_run name g s Hg) as Hs;
    destruct (show_unread name s) as [[[]|e] s1] eqn:Hrun; try done; rewrite (bind_run _ _ _ _ _ Hrun);
    destruct Hs as (Hg1 & Hfewer & Hsaid) || destruct Hs as (-> & Hno).
  - lia.
  - exists s, []. rewrite app_nil_r. cbn. split_and!; [done..|lia].
  - destruct Hsaid as [[line Hout] Herr]. destruct (IH s1 Hg1) as (s' & shown & Hd & Hno & Ho & He & Hl); [lia|].
    exists s', (line :: shown). rewrite Ho, Hout, He, Herr, <- app_assoc. cbn. split_and!; [done..|lia].
  - exists s, []. rewrite app_nil_r. cbn. split_and!; [done..|lia].
Qed.

(** Showing the unread messages comes to an end. Where the channel is known,
    all of them are shown or marked with one that was, nothing is unread
    afterwards, and every entry that was unread is displayed. *)
Theorem unread_drained name g s :
  group name (store_of s) = Ok g ->
  exists s' shown, drain_unread name s = (Ok tt, s') /\ unread name (store_of s') = Ok None /\
    sh_out s' = sh_out s ++ shown /\ sh_err s' = sh_err s /\
    (length shown <= length (unread_keys (grp_gid g) (store_of s)))%nat /\
    forall k t, transcript (chat (store_of s)) !! k = Some t -> is_unread (grp_gid g) t = true ->
      exists t', transcript (chat (store_of s')) !! k = Some t' /\ tr_displayed t' = true.
Proof.
  intros Hg. set (n := Z.to_nat (table_size (transcript (chat (store_of s))))).
  assert (length (unread_keys (grp_gid g) (store_of s)) <= n)%nat as Hlen.
  { unfold n, table_size, unread_keys, rows. rewrite length_map, Nat2Z.id, <- length_map_to_list. apply filter_length_le. }
  destruct (drain_run name g n s Hg Hlen) as (s' & shown & Hrun & Hno & Ho & He & Hl).
  exists s', shown. split.
  { unfold drain_unread, reading, read_db.
    rewrite (bind_run _ _ s n s) by by destruct s. exact Hrun. }
  pose proof (kept_drain n name s) as Hk. rewrite Hrun in Hk. destruct Hk as [[Hk _] _].
  change (durable_at None (store_of s) (store_of s')) in Hk.
  assert (group name (store_of s') = Ok g) as Hg'.
  { unfold group in *. apply rbind_Ok in Hg as (entry & Hentry%ok_or_Ok & Hg).
    destruct (du_groups _ _ _ Hk name entry Hentry) as (entry' & -> & <-). exact Hg. }
  split; [|split_and!; [done..|]].
  - pose proof (unread_head name g (store_of s') Hg') as Hu.
    destruct (unread name (store_of s')) as [[e|]|]; [|done..]. rewrite Hno in Hu. by apply elem_of_nil in Hu.
  - intros k t Ht Hu. destruct (du_transcript _ _ _ Hk k t Ht) as (t' & Ht' & E1 & E2 & E3 & E4 & E5 & E6).
    exists t'. split; [done|]. destruct (tr_displayed t') eqn:Hd; [done|]. exfalso.
    assert (k ∈ unread_keys (grp_gid g) (store_of s')) as Hin.
    { apply elem_of_unread. exists t'. split; [done|]. unfold is_unread in *.
      rewrite E1, E4, E5, Hd. by apply andb_prop in Hu as [-> _]. }
    rewrite Hno in Hin. by apply elem_of_nil in Hin.
Qed.

(** ** What commands never do *)

(** Nothing asked of the network, published or uploaded. *)
Definition quiet (s s' : Shell St V) : Prop :=
  let c := sh_client s in let c' := sh_client s' in
  cl_link c' = cl_link c /\ w_trace (cl_world c') = w_trace (cl_world c) /\
  w_answers (cl_world c') = w_answers (cl_world c) /\ cl_objects c' = cl_objects c.
#[local] Instance quiet_preorder : PreOrder quiet.
Proof. unfold quiet. split; [intros s; done|]. intros a b c (?&?&?&?) (?&?&?&?). split_and!; congruence. Qed.
Lemma quiet_db {A} (m : M (ClientDb St) A) : keeps quiet (on_store_db m).
Proof.
  intros s. unfold on_store_db, on_client, on_db, on_world, on_store, quiet. by destruct (m _).
Qed.
Lemma quiet_read {A} (f : ClientDb St -> result A) : keeps quiet (reading f).
Proof. intros s. unfold reading, on_client, read_db, bind, gets, lift, quiet. by destruct (f _). Qed.
Lemma quiet_modify f : (forall s, sh_client (f s) = sh_client s) -> keeps quiet (modify f).
Proof. intros Hf s. unfold quiet. cbn. by rewrite Hf. Qed.
Lemma quiet_disk {A} (m : M Disk A) : keeps quiet (on_disk m).
Proof. intros s. unfold on_disk, on_client, on_files, quiet. by destruct (m _). Qed.
Lemma quiet_home {A} (m : M (Home (St := St) (V := V)) A) : keeps quiet (on_home m).
Proof. intros s. unfold on_home, quiet. by destruct (m _). Qed.
#[local] Hint Resolve quiet_db quiet_read quiet_disk quiet_home : keeps.
Ltac quiet_auto :=
  repeat first
    [ progress keeps_step
    | match goal with
      | |- keeps quiet (modify _) => apply quiet_modify; done
      | |- keeps _ (for_each _ _) => apply keeps_for_each; try typeclasses eauto
      | |- keeps _ (let '_ := ?x in _) => destruct x
      end ].
(** The commands that are said to be offline, and those about the store alone. *)
Definition offline_command (c : Command) : bool :=
  match c with
  | AttachmentCmd (ListAttachments _) _ _ _ _ _ | TransparencyCmd (PinKey _ | TransparencyStatus)
  | DeviceCmd (Fingerprint _ _ true | Fingerprint None _ _ | AddDevice _ _) _ _
  | MessageCmd (MessageEvents _ true | MessageReceipts _ _ true | MessageHistory _ _ _ true) _ _ _ _ _ _
  | ChannelCmd (CreateChannel _ | ListMembers _ _ | ListChannels) _
  | IdentityCmd (InitIdentity _ _ | ShowIdentity) _ _
  | CapacityInstallCmd _ _ | RecoveryCmd _ _ | DevConfigCmd _ _ _ _ => true
  | _ => false
  end.
(** A command that is said to work offline contacts nobody. It asks the servers
    nothing, publishes nothing and uploads nothing, whatever the outcome. *)
Theorem offline_contacts_nobody policy first c n s :
  offline_command c = true -> quiet s (snd (main policy first c n s)).
Proof.
  intros Hc. revert s. change (keeps quiet (main policy first c n)). unfold main.
  apply keeps_bind; [apply _|quiet_auto|intros _]. apply keeps_bind; [apply _|quiet_auto|intros _].
  destruct c as [| | [] | [] | [] | | [? ?|[] ? []|? ? ?|? ?|?] | | [? []|? ? ?|? ? ?|? ? ? ?|? ? []|?|? ? ? []|? ?] | [] | [] |];
    try done; cbn [run_command message_command];
    unfold install_command, recovery_command, show_recovery, dev_config_command, opened_homes, open_local, attachment_command, transparency_command, device_command, channel_command, identity_command, open_store, transparency_status, optionally, say_pending, fingerprint_command, init_device, chat_events,
      receipts_command, chat_history, report, say, warn; quiet_auto.
Qed.

Lemma initialize_Ok user device reference key clock r1 r2 d r d' :
  initialize user device reference key clock r1 r2 d = (Ok r, d') ->
  user_id (payload r) = user /\ device_id (payload r) = device /\
  exists encoded b, local_identity d' = Some (encoded, b) /\ to_allocvec r = Ok b.
Proof.
  unfold initialize. intros Hrun. do 3 (apply bind_Ok in Hrun as (? & ? & _ & Hrun)).
  apply bind_Ok in Hrun as (? & ? & _ & Hrun). apply bind_Ok in Hrun as (signer & ? & _ & Hrun).
  apply bind_Ok in Hrun as (? & ? & _ & Hrun). apply bind_Ok in Hrun as ([credential package] & ? & _ & Hrun).
  do 3 (apply bind_Ok in Hrun as (? & ? & _ & Hrun)).
  apply bind_Ok in Hrun as (encoded & ? & _ & Hrun). apply bind_Ok in Hrun as (b & ? & [Hb ->]%lift_Ok & Hrun).
  apply bind_Ok in Hrun as (? & ? & _ & Hrun). apply bind_Ok in Hrun as (? & ? & _ & Hrun).
  apply bind_Ok in Hrun as (? & ? & ->%modify_Ok & [= <- <-]). cbn. split_and!; [done..|]. by exists encoded, b.
Qed.
Definition identity_is d (r : DeviceRegistration) : Prop :=
  exists reference b, local_identity d = Some (reference, b) /\ (from_bytes b = Ok r \/ to_allocvec r = Ok b).
Lemma init_device_Ok user device w s r s' :
  init_device user device w s = (Ok r, s') ->
  user_id (payload r) = user /\ device_id (payload r) = device /\ identity_is (store_of s') r.
Proof.
  unfold init_device, on_store_db, on_client, on_db, on_world, on_store. fold (store_of s).
  destruct (init _ _ _ _ _ _ _ (store_of s)) as [x d'] eqn:Hi. intros [= -> <-]. unfold store_of. cbn.
  unfold init in Hi. do 6 (apply bind_Ok in Hi as (? & ? & _ & Hi)). apply bind_Ok in Hi as (key & ? & _ & Hi).
  apply bind_Ok in Hi as (r' & d1 & Ht & Hi). apply bind_Ok in Hi as (? & ? & ->%modify_Ok & [= -> <-]).
  apply transaction_budget_Ok in Ht as (_ & d2 & Ht & _ & _ & ->). apply initialize_Ok in Ht as (? & ? & encoded & b & ? & ?).
  split_and!; [done..|]. exists encoded, b. cbn. auto.
Qed.
Lemma enrolled_Ok user device w s r s' :
  enrolled_registration user device w s = (Ok r, s') ->
  user_id (payload r) = user /\ device_id (payload r) = device /\ identity_is (store_of s') r.
Proof.
  unfold enrolled_registration. intros (existing & s1 & Hex & Hrun)%bind_Ok.
  apply attempt_Ok in Hex. destruct existing as [own|err].
  - apply bind_Ok in Hrun as ([] & s2 & [Hm ->]%ensure_Ok & [= <- <-]). bool_prop. split_and!; [done..|].
    unfold reading, on_client, read_db, bind, gets, lift in Hex. fold (store_of s) in Hex.
    injection Hex as Hown <-. unfold registration in Hown.
    apply rbind_Ok in Hown as ([reference b] & Hrow%ok_or_Ok & Hb). exists reference, b. auto.
  - by apply init_device_Ok in Hrun.
Qed.
Definition link_of (s : Shell St V) : Link := cl_link (sh_client s).
Lemma request_run subj body s x s' :
  on_client (on_link (request_once subj body)) s = (x, s') ->
  cl_world (sh_client s') = cl_world (sh_client s) /\
  (lk_sent (link_of s') = lk_sent (link_of s) /\ is_ok x = false \/
   exists sent, encode body = Ok sent /\ lk_sent (link_of s') = lk_sent (link_of s) ++ [(subj, sent)] /\
     forall reply, x = Ok reply -> head (lk_answers (link_of s)) = Some (Done reply)).
Proof.
  unfold on_client, on_link, request_once, link_of, bind, lift.
  destruct (encode body) as [sent|e] eqn:He; [|intros [= <- <-]; by auto].
  unfold request. destruct (lk_answers (cl_link (sh_client s))) as [|[a| |e] l]; cbn; intros [= <- <-]; cbn;
    (split; [done|]); right; exists sent; (split_and!; [done..|]); intros reply; congruence.
Qed.
Lemma identity_is_kept s s' r : shell_kept s s' -> identity_is (store_of s) r -> identity_is (store_of s') r.
Proof.
  intros [[Hk _] _] (reference & b & Hrow & Hb). exists reference, b. split; [|done]. by apply (du_identity _ _ _ Hk).
Qed.
Lemma quiet_sent s s' : quiet s s' -> lk_sent (link_of s') = lk_sent (link_of s).
Proof. intros [Hl _]. unfold link_of. by rewrite Hl. Qed.
Lemma quiet_enrolled user device w : keeps quiet (enrolled_registration user device w).
Proof. unfold enrolled_registration, init_device. quiet_auto. Qed.

Lemma ask_enrollment_run token own s r s' :
  ask_enrollment token own s = (r, s') ->
  store_of s' = store_of s /\
  (lk_sent (link_of s') = lk_sent (link_of s) /\ is_ok r = false \/
   exists sent, encode (Body.Enroll token own) = Ok sent /\
     lk_sent (link_of s') = lk_sent (link_of s) ++ [(ENROLL, sent)] /\
     (r = Ok tt -> exists reply, head (lk_answers (link_of s)) = Some (Done reply) /\ decode reply = Ok Body.Registered)).
Proof.
  unfold ask_enrollment. intros Hrun.
  assert (forall s4 : Shell St V, cl_world (sh_client s4) = cl_world (sh_client s) -> store_of s4 = store_of s) as Hsame
    by (intros s4 Hw; unfold store_of; by rewrite Hw).
  apply bind_cases in Hrun as [(err & Hm & ->)|(reply & s4 & Hm & Hrun)]; apply request_run in Hm as [Hw Hsent];
    specialize (Hsame _ Hw).
  { split; [done|]. destruct Hsent as [[-> _]|(sent & He & Hs & _)]; [by left|]. right. by exists sent. }
  destruct Hsent as [[_ ?]|(sent & He & Hs & Ha)]; [done|].
  apply bind_cases in Hrun as [(err & [_ ->]%lift_Err & ->)|(body & ? & [Hd ->]%lift_Ok & Hrun)];
    [split; [done|]; right; by exists sent|].
  destruct r as [[]|err]; [apply ensure_Ok in Hrun as [Hb ->]|apply ensure_Err in Hrun as [_ ->]];
    (split; [done|]); right; exists sent; (split_and!; [done..|]); [|done].
  intros _. exists reply. rewrite Hd. split; [by apply Ha|]. by destruct body.
Qed.

(** C24. An enrollment token is used for this device alone. An enrollment never
    replaces the identity there is; it sends at most one request, with the token
    that was typed and the registration of this device for the user the token
    names; an identity of another user or device is refused before anything is
    sent; and it succeeds only when the authority answered that the device is
    registered. *)
Theorem enrollment_bound device n w e s r s' :
  enroll_device device n w e s = (r, s') ->
  (forall x, local_identity (store_of s) = Some x -> local_identity (store_of s') = Some x) /\
  (lk_sent (link_of s') = lk_sent (link_of s) /\ is_ok r = false \/
   exists typed user own sent, en_typed e = Ok typed /\ token_user (trim typed) = Ok user /\
     identity_is (store_of s') own /\ user_id (payload own) = user /\ device_id (payload own) = device /\
     encode (Body.Enroll (trim typed) own) = Ok sent /\
     lk_sent (link_of s') = lk_sent (link_of s) ++ [(ENROLL, sent)] /\
     (r = Ok tt -> exists reply, head (lk_answers (link_of s)) = Some (Done reply) /\ decode reply = Ok Body.Registered)).
Proof.
  intros Hrun. split.
  { pose proof (kept_identity (EnrollDevice device) {| nt_open := Ok tt; nt_connect := nt_connect n;
      nt_logs := nt_logs n; nt_logs_after := nt_logs_after n; nt_sync := nt_sync n; nt_flush := nt_flush n;
      nt_random := nt_random n; nt_late := nt_late n |} w e s) as [[Hk _] _].
    change (durable_at None (store_of s) (store_of (snd (enroll_device device n w e s)))) in Hk.
    rewrite Hrun in Hk. apply (du_identity _ _ _ Hk). }
  unfold enroll_device in Hrun.
  apply bind_cases in Hrun as [(err & [_ ->]%lift_Err & ->)|(typed & ? & [Ht ->]%lift_Ok & Hrun)]; [by left|].
  apply bind_cases in Hrun as [(err & [_ ->]%lift_Err & ->)|(user & ? & [Hu ->]%lift_Ok & Hrun)]; [by left|].
  pose proof (quiet_enrolled user device w s) as Hq.
  apply bind_cases in Hrun as [(err & Hm & ->)|(own & s1 & Hm & Hrun)]; rewrite Hm in Hq; cbn [snd] in Hq;
    [left; split; [by apply quiet_sent|done]|].
  apply enrolled_Ok in Hm as (Huser & Hdevice & Hid).
  apply bind_cases in Hrun as [(err & Hm & ->)|(key & s2 & Hm & Hrun)];
    (pose proof (quiet_db store_nkey s1) as Hq2; rewrite Hm in Hq2; cbn [snd] in Hq2);
    [left; split; [by apply quiet_sent; etrans|done]|].
  apply bind_cases in Hrun as [(err & [_ ->]%lift_Err & ->)|(? & ? & [_ ->]%lift_Ok & Hrun)];
    [left; split; [by apply quiet_sent; etrans|done]|].
  assert (keeps quiet (if is_ok (en_admitted e) then ret tt else connect n)) as Hq3 by (unfold connect; quiet_auto).
  specialize (Hq3 s2).
  assert (shell_kept s1 s2) as Hk1.
  { pose proof (shell_db store_nkey (kept_nkey capacity None) s1) as Hk. by rewrite Hm in Hk. }
  assert (keeps shell_kept (if is_ok (en_admitted e) then ret tt else connect n)) as Hk2
    by (unfold connect; shell_auto). specialize (Hk2 s2).
  apply bind_cases in Hrun as [(err & Hc & ->)|([] & s3 & Hc & Hrun)]; rewrite Hc in Hq3, Hk2; cbn [snd] in Hq3, Hk2;
    [left; split; [by apply quiet_sent; do 2 (etrans; [done|])|done]|].
  assert (quiet s s3) as Hq4 by by do 2 (etrans; [done|]).
  assert (identity_is (store_of s3) own) as Hid3.
  { eapply identity_is_kept; [exact Hk2|]. by eapply identity_is_kept. }
  destruct Hq4 as [Hlink _]. fold (link_of s3) (link_of s) in Hlink. clear Hq Hq2 Hq3 Hk1 Hk2 Hm Hc.
  assert (forall x s4, ask_enrollment (trim typed) own s3 = (x, s4) -> store_of s4 = store_of s3 /\
    (lk_sent (link_of s4) = lk_sent (link_of s) /\ is_ok x = false \/ exists sent,
      encode (Body.Enroll (trim typed) own) = Ok sent /\ lk_sent (link_of s4) = lk_sent (link_of s) ++ [(ENROLL, sent)] /\
      (x = Ok tt -> exists reply, head (lk_answers (link_of s)) = Some (Done reply) /\ decode reply = Ok Body.Registered)))
    as Hask by (intros y s4 Ha; apply ask_enrollment_run in Ha; by rewrite Hlink in Ha).
  apply bind_cases in Hrun as [(err & Hm & ->)|([] & s4 & Hm & Hrun)]; apply Hask in Hm as [Hst Hsent].
  - destruct Hsent as [?|(sent & ? & ? & ?)]; [by left|]. right. exists typed, user, own, sent. rewrite Hst. by split_and!.
  - destruct Hsent as [[_ ?]|(sent & ? & ? & ?)]; [done|]. right. exists typed, user, own, sent.
    injection Hrun as <- <-. change (store_of _) with (store_of s4). rewrite Hst. split_and!; auto.
Qed.
End cli.

(** ** A history of commands *)

Section history.
Context {St : Type} `{Pages (ClientDb St)} `{Mls St} {V : Type} `{Backend V} `{!BackendLaws V}.
Context `{NKeys} `{MlsPackages} `{Seeds} `{Credentials} `{Json SecretRef} `{Base32} `{Sha256} `{Aead}
  `{MlsCrypto}
  `{Postcard DeviceRegistration} `{Postcard RecoveryStatus} `{Postcard Envelope}
  `{Postcard RegistrationPayload} `{Postcard Intent} `{Postcard WelcomeRelay} `{Postcard RelayTuple}
  `{Postcard PolicyUpdate} `{Postcard CheckpointTuple} `{Postcard RequestTuple} `{Postcard Revocation}
  `{Postcard FingerprintTuple} `{Postcard Checkpoint}
  `{Postcard Manifest} `{Postcard ApplicationEvent} `{Postcard ApplicationTuple} `{Postcard LegacyTuple}
  `{Postcard (string * string)} `{Postcard EphemeralEnvelope} `{Postcard EphemeralBody}
  `{Postcard ContextTuple} `{Postcard SealTuple} `{Postcard RecoveryArchive} `{CapacityFile} `{FixtureJson}
  `{Ratatui}.
Variable pretty : RegistrationPayload -> result string.

(** A process of the client: the policy its store was opened under, what the
    service answers it, and its command. *)
Record Invocation : Type := {
  iv_capacity : Capacity; iv_ask : string -> Body.t -> result bytes; iv_refresh : result unit;
  iv_policy : result unit; iv_first : result unit; iv_command : Command; iv_net : Net;
}.
Definition invoke (s : Shell St V) (i : Invocation) : Shell St V :=
  snd (main (iv_capacity i) (iv_ask i) (iv_refresh i) pretty (iv_policy i) (iv_first i) (iv_command i) (iv_net i) s).
Lemma invoke_kept s i : durable (store_of s) (store_of (invoke s i)) /\
  vault_le (sh_vault s) (sh_vault (invoke s i)) /\
  (chat_wf (iv_capacity i) (store_of s) -> chat_wf (iv_capacity i) (store_of (invoke s i))).
Proof.
  destruct (kept_main (iv_capacity i) (iv_ask i) (iv_refresh i) pretty (iv_policy i) (iv_first i) (iv_command i)
    (iv_net i) s) as [[Hd Hw] Hv]. by split_and!.
Qed.
Lemma invoke_all_kept l s : durable (store_of s) (store_of (fold_left invoke l s)) /\
  vault_le (sh_vault s) (sh_vault (fold_left invoke l s)) /\
  forall c, (forall i, i ∈ l -> iv_capacity i = c) -> chat_wf c (store_of s) ->
    chat_wf c (store_of (fold_left invoke l s)).
Proof.
  revert s. induction l as [|i l IH]; intros s; [by split_and!|]. cbn [fold_left].
  destruct (invoke_kept s i) as (Hd & Hv & Hw), (IH (invoke s i)) as (Hd' & Hv' & Hw').
  split_and!; [by etrans|by etrans|]. intros c Hc Hs. apply Hw'; [intros i' Hi'; apply Hc; by right|].
  rewrite <- (Hc i ltac:(left)) in Hs |- *. by apply Hw.
Qed.

End history.
