(* ===== verification/ChatExamples.v ===== *)
(** * A device in a group of two

    A small MLS library and a device that is in a group with another one, on
    which the theorems about sending, receiving, flushing and downloading are
    applied. *)
From stdpp Require Import sorting.
From S2P Require Import Prelude External Wire Capacity AuditTrail Identity Registry Policy Models KvStore Merkle Transparency TransparencyFacts Secrets Files Mls ClientDb IdentityStore Revocation RevocationFacts Trust TrustFacts TrustExamples Groups GroupFacts Recovery Delivery Attachments Relationships Messaging Ephemeral Flush ChatKeeps MessageFacts FlushFacts RecoveryFiles Development ClientOps Opening Tui TuiFacts Session SessionFacts Cli.

(** ** The library *)

Definition general_id : bytes := as_bytes ("epochgrid/v1/general/" +:+ gid_1).
Definition member_of (device : string) (i : Z) : MlsMember :=
  let name := as_bytes (alice +:+ "/" +:+ device) in
  {| m_index := i; m_signature_key := name; m_credential := {| cred_tls := name; cred_identity := Some name |} |}.
Definition general : MlsGroup := {|
  group_id := general_id; g_epoch := 1; g_members := [member_of "laptop" 0; member_of "phone" 1];
  own_leaf := 1; is_active := true |}.
Definition seal_byte : Byte.byte := x77.
(** A ciphertext is the plaintext behind one byte; its sender is leaf 0. *)
Definition chat_mls : Mls (list MlsGroup) := {|
  mls_load := fun id st => Ok (List.find (fun g => bool_decide (group_id g = id)) st);
  read_signer := fun k _ => Some {| signer_public := k; signer_private := k |};
  new_signer := fun r => Ok {| signer_public := r; signer_private := r |};
  store_signer := fun _ => ret tt;
  build_key_package := fun _ b _ => ret (b, b);
  new_group := fun _ id c _ => fun st =>
    let g := {| group_id := id; g_epoch := 0; own_leaf := 0; is_active := true;
                g_members := [{| m_index := 0; m_signature_key := cred_tls c; m_credential := c |}] |} in
    (Ok g, g :: st);
  create_message := fun _ _ b _ => ret (seal_byte :: b);
  add_members := fun _ _ _ _ => fail External;
  remove_members := fun _ _ _ _ => fail External;
  merge_pending_commit := fun g => ret g;
  process_message := fun _ m st =>
    (inl {| pr_credential := m_credential (member_of "laptop" 0); pr_sender := Some 0;
            pr_content := ApplicationMessage (pm_bytes m) |}, st);
  merge_staged_commit := fun g _ => ret g;
  parse_message := fun b =>
    match b with
    | x77 :: r => Some {| private_message := true; welcome_message := false;
                          protocol_message := Some {| pm_group_id := general_id; pm_epoch := 1;
                                                      pm_content := ApplicationContent; pm_bytes := r |} |}
    | _ => None
    end;
  stage_welcome := fun _ => fail External;
  into_group := fun _ => ret tt |}.

(** ** Encodings *)

Definition hello : ApplicationEvent := {|
  ae_nonce := repeat x00 16; ae_counter := 1; ae_content := as_bytes "hello"; ae_relation := None |}.
Definition event_model : Postcard ApplicationEvent := {|
  to_allocvec := fun e => if bool_decide (e = hello) then Ok [x48] else Err External;
  take_from_bytes := fun b => match b with x48 :: rest => Ok (hello, rest) | _ => Err External end |}.
Definition no_codec {A} : Postcard A := {|
  to_allocvec := fun _ => Err External; take_from_bytes := fun _ => Err External |}.
Definition tag_codec {A} (t : A -> bytes) : Postcard A := {|
  to_allocvec := fun a => Ok (t a); take_from_bytes := fun _ => Err External |}.
Definition identity_model : Postcard DeviceRegistration := {|
  to_allocvec := fun _ => Err External; take_from_bytes := fun b => Ok (reg_b, b) |}.
Definition chat_pages : Pages (ClientDb (list MlsGroup)) := {|
  page_count := fun _ => 1; page_size := fun _ => SqlInteger 4096 |}.
Definition no_json : Json SecretRef := {|
  to_json := fun _ => Err External; from_json := fun _ => Err External |}.
Definition no_seeds : Seeds := {| xkey_public := fun _ => None; seed_pair := fun _ => None |}.
Definition no_credentials : Credentials := fun _ => Err External.
Definition no_base32 : Base32 := {| base32_encode := fun _ => EmptyString; base32_decode := fun _ => None |}.
Definition manifest_0 : Manifest := {|
  mf_id := gid_1; filename := "notes.txt"; mime := "text/plain"; size := 2; ciphertext_size := 18;
  expires_at := 1000 + 604800; mf_hash := x02 :: x01 :: repeat x00 30; mf_key := [x05]; mf_nonce := [x06] |}.
Definition manifest_model : Postcard Manifest := {|
  to_allocvec := fun m => if bool_decide (mf_id m = gid_1) then Ok [x4d] else Err External;
  take_from_bytes := fun b => match b with x4d :: rest => Ok (manifest_0, rest) | _ => Err External end |}.
(** Sixteen bytes of tag behind the text. *)
Definition aead_model : Aead := {|
  aead_encrypt := fun _ text _ _ => Some (text ++ repeat x00 16);
  aead_decrypt := fun _ c _ _ => Some (take (length c - 16) c) |}.
Definition intent_model : Postcard Intent := no_codec.
Definition relay_model : Postcard WelcomeRelay := no_codec.
Definition relay_tuple_model : Postcard RelayTuple := no_codec.
Definition policy_update_model : Postcard PolicyUpdate := no_codec.
Definition status_model : Postcard RecoveryStatus := no_codec.
Definition application_model : Postcard ApplicationTuple := tag_codec (fun '(_, _, _, b) => b).
Definition legacy_model : Postcard LegacyTuple := tag_codec (fun '(_, _, b) => b).
Definition pair_model : Postcard (string * string) := tag_codec (fun '(a, b) => as_bytes (a +:+ b)).
Definition no_crypto : MlsCrypto := {|
  export_secret := fun _ _ _ _ => Err External; suite_sign := fun _ _ => Err External;
  suite_verifies := fun _ _ _ => false |}.
Definition ephemeral_model : Postcard EphemeralEnvelope := no_codec.
Definition ephemeral_body_model : Postcard EphemeralBody := no_codec.
Definition context_model : Postcard ContextTuple := no_codec.
Definition seal_model : Postcard SealTuple := no_codec.
#[local] Existing Instances no_crypto ephemeral_model ephemeral_body_model context_model seal_model
  chat_mls event_model identity_model chat_pages no_json no_seeds
  no_credentials no_base32 manifest_model aead_model intent_model relay_model relay_tuple_model
  policy_update_model status_model application_model legacy_model pair_model digest_model
  trust_envelope_model checkpoint_model stored_checkpoint_model request_model revocation_model
  fingerprint_model.

(** ** The device *)

Definition general_group : Group := {| grp_name := "general"; grp_gid := gid_1; grp_mls_id := general_id |}.
Definition device : ClientDb (list MlsGroup) := {|
  local_identity := Some ("{}", []);
  trust := {| device_trust_t := ∅; transparency_state := None; trust_alert := None |};
  revocations := {| revoked_devices := []; group_coordinators := {[gid_1 := m_signature_key (member_of "laptop" 0)]};
                    blocked_outbox := ∅; revocation_checkpoint_t := None |};
  chat := {| groups_t := {["general" := {| ge_gid := gid_1; ge_mls_id := general_id |}]};
             join_epochs := {[gid_1 := 0]}; outbox := ∅; welcomes := ∅; received := ∅;
             chat_deliveries := ∅; transcript := ∅ |};
  events := {| receipt_messages := ∅; device_receipts := ∅; message_events := ∅;
               attachments_t := ∅; participant_events := ∅ |};
  mls := [general]; recovery_metadata := None;
  cached_key := Some {| public_key := "UB"; seed := "SUB" |}; recovery_budget := false;
  cl_autocommit := true; cl_commit_ok := true |}.

(** It says hello. *)
Definition hello_bytes : bytes := seal_byte :: EVENT_PREFIX ++ [x01; x48].
#[local] Abbreviation said := (snd (encrypt_event default_capacity "general" hello [] device)).
Example says_hello :
  fst (encrypt_event default_capacity "general" hello [] device) = Ok hello_bytes /\
  outbox (chat said) = {[1 := {| ob_subject := subject "message" general_group;
                                 ob_payload := hello_bytes; ob_sent := false |}]}.
Proof. vm_compute. split; reflexivity. Qed.
Lemma encrypt_event_spec_witness :
  exists key, fst (store_nkey device) = Ok key /\ is_revoked (public_key key) device = false.
Proof.
  destruct (encrypt_event_spec default_capacity "general" hello [] device hello_bytes said)
    as (? & ? & key & ? & ? & ? & ? & ? & _ & _ & Hk & Hr & _); [apply run_fst; vm_compute; reflexivity|].
  by exists key.
Defined.

(** ** The other one answers *)

Definition staged_twice : ClientDb (list MlsGroup) :=
  snd (stage_chat default_capacity 7 (subject "message" general_group) [x00]
    (snd (stage_chat default_capacity 5 (subject "message" general_group) hello_bytes device))).
Example history_processed :
  fst (process_history default_capacity "general" staged_twice) =
  Ok {| staged := 0; decrypted := 1; rejected := 1; unavailable := 0 |}.
Proof. vm_compute. reflexivity. Qed.
Lemma process_history_drains_witness :
  pending_sequences general_group (snd (process_history default_capacity "general" staged_twice)) = [].
Proof.
  destruct (process_history_drains default_capacity "general" general_group staged_twice
    (Ok {| staged := 0; decrypted := 1; rejected := 1; unavailable := 0 |})
    (snd (process_history default_capacity "general" staged_twice))) as (_ & HO & _);
    [vm_compute; reflexivity|apply run_fst; vm_compute; reflexivity|by eapply HO].
Defined.

(** ** The outbox is flushed *)

Definition no_authority : string -> Body.t -> result bytes := fun _ _ => Err External.
Definition online : World (list MlsGroup) :=
  {| w_db := said; w_answers := [Ok {| ack_stream := "CHAT"; ack_sequence := 9 |}]; w_trace := [] |}.
#[local] Abbreviation flushed :=
  (snd (flush_outbox default_capacity no_authority (Ok tt) (Ok [x11]) (Ok [x20]) online)).
Example flush_publishes :
  fst (flush_outbox default_capacity no_authority (Ok tt) (Ok [x11]) (Ok [x20]) online) = Ok tt /\
  map pb_msg_id (w_trace flushed) = ["UB:1"].
Proof. vm_compute. split; reflexivity. Qed.
Lemma flush_in_order_witness :
  exists snapshot key d, cleared default_capacity (Ok [x11]) (Ok [x20]) said snapshot key d /\
    is_revoked (public_key key) d = false /\
    forall p, p ∈ w_trace flushed -> exists x, outbox (chat said) !! pb_id p = Some x /\ pb_payload p = ob_payload x.
Proof.
  destruct (flush_in_order default_capacity no_authority (Ok tt) (Ok [x11]) (Ok [x20]) online
    (Ok tt) flushed) as [(_ & _ & _ & e & He)|(snapshot & key & d & Hc & Hr & _ & _ & _ & _ & Hl & Hs)];
    [apply run_fst; vm_compute; reflexivity|discriminate He|].
  exists snapshot, key, d. split; [exact Hc|]. split; [exact Hr|].
  destruct Hs as (_ & _ & ps & _ & _ & _ & _ & Htr & _ & Hall). rewrite Htr. intros p Hp. apply list_elem_of_In in Hp.
  destruct (proj1 (List.Forall_forall _ _) Hall p Hp) as (x & Hx & _ & Hpay). exists x. split; [|exact Hpay].
  exact (proj1 (proj1 (Hl _ _) Hx)).
Defined.
(** Once the other member is known to be revoked the message stays. *)
Definition betrayed : World (list MlsGroup) :=
  {| w_db := set_revocations (set_revoked (fun _ => [("UA", {| rv_user := "alice"; rv_device := "laptop";
               rv_mls_key := m_signature_key (member_of "laptop" 0); rv_cutoff := 5 |})])) said;
     w_answers := w_answers online; w_trace := [] |}.
Example message_withheld :
  let '(r, w) := flush_outbox default_capacity no_authority (Ok tt) (Ok [x11]) (Ok [x20]) betrayed in
  r = Ok tt /\ w_trace w = [] /\ bool_decide (blocked_outbox (revocations (w_db w)) = {[1]}) = true.
Proof. vm_compute. split_and!; reflexivity. Qed.
Lemma batches_unobservable_witness :
  flush_loop default_capacity no_authority (Ok tt) 1 log_1 0 1 online =
  for_each (to_send 0 1 said) (send_row default_capacity no_authority (Ok tt) log_1) online.
Proof.
  apply (batches_unobservable default_capacity no_authority (Ok tt) 1 log_1 0 1 online).
  vm_compute. repeat constructor.
Defined.

(** ** The group *)

Lemma general_distinct : members_distinct general.
Proof. split; vm_compute; repeat constructor; set_solver. Qed.
Lemma coordinator_agreed_witness :
  coordinator general device =
  coordinator {| group_id := general_id; g_epoch := 1; own_leaf := 0; is_active := true;
                 g_members := [member_of "phone" 1; member_of "laptop" 0] |} said.
Proof.
  refine (proj1 (coordinator_agreed general {| group_id := general_id; g_epoch := 1; own_leaf := 0;
    is_active := true; g_members := [member_of "phone" 1; member_of "laptop" 0] |} device said
    general_distinct _ _ _)).
  - simpl. constructor.
  - vm_compute. reflexivity.
  - intros m Hm. unfold revoked_member. by vm_compute.
Defined.
(** The coordinator, leaf 0, adds somebody. *)
Definition addition : StagedCommit := {|
  update_path := None; queued_proposals := 1; add_proposals := 1; remove_proposals := []; commit_state := [] |}.
Lemma commit_accepted_witness :
  exists sender, sender ∈ g_members general /\ m_index sender = 0 /\ commit_allowed general sender addition device.
Proof.
  assert (load_group general_group device = Ok general) as Hl by (vm_compute; reflexivity).
  destruct (proj1 (commit_accepted general_group general 0 addition 3 device Hl general_distinct))
    as (sender & Hm & Hi & _ & _ & _ & Hc); [vm_compute; reflexivity|by exists sender].
Defined.

(** ** Histories *)

Lemma device_wf : chat_wf default_capacity device.
Proof.
  split; simpl.
  - split; [vm_compute; discriminate|vm_compute; discriminate|done|done].
  - by split.
  - split; [vm_compute; discriminate|..];
      by intros k e k' e' [<- <-]%lookup_singleton_Some [<- <-]%lookup_singleton_Some.
  - done.
  - done.
Qed.
Definition busy_day : list ChatOp :=
  [DoStage 5 (subject "message" general_group) hello_bytes; DoProcess "general";
   DoEncrypt "general" hello []; DoDisplayed 1;
   DoFlush {| net_ask := no_authority; net_refresh := Ok tt; net_answers := []; net_audits := [];
              net_deliveries := Err External |}].
Lemma tables_wellformed_witness : chat_wf default_capacity (run_chat_ops default_capacity busy_day device).
Proof. apply (tables_wellformed default_capacity busy_day device). exact device_wf. Defined.
Lemma history_durable_witness :
  exists r, outbox (chat (run_chat_ops default_capacity busy_day said)) !! 1 = Some r /\
    ob_payload r = hello_bytes.
Proof.
  assert (outbox (chat said) !! 1 = Some {| ob_subject := subject "message" general_group;
    ob_payload := hello_bytes; ob_sent := false |}) as H1 by (vm_compute; reflexivity).
  destruct (proj1 (history_durable default_capacity busy_day said) 1 _ H1) as (r & Hr & _ & Hp & _).
  exact (ex_intro _ r (conj Hr Hp)).
Defined.

(** ** Events and files *)

Lemma event_canonical_witness : decode_event (EVENT_PREFIX ++ [x01; x48]) = Ok (Some hello).
Proof.
  apply (event_canonical hello (EVENT_PREFIX ++ [x01; x48])); [|vm_compute; discriminate|vm_compute; reflexivity].
  exists [x48]. split; [vm_compute; reflexivity|done].
Defined.

Lemma aead_model_law : aead_law.
Proof.
  intros key text nonce aad c Hc.
  assert (c = text ++ repeat x00 16) as -> by (symmetry; by injection Hc).
  cbn [aead_decrypt aead_model]. by rewrite length_app, repeat_length, Nat.add_sub, take_app_length.
Qed.
Definition notes : bytes := [x01; x02].
Definition sealed_notes : bytes := notes ++ repeat x00 16.
Lemma attachment_roundtrip_witness :
  decrypt_attachment manifest_0 gid_1 sealed_notes default_limits (Ok 1001) = Ok notes.
Proof.
  refine (proj1 (attachment_roundtrip gid_1 "notes.txt" "text/plain" notes default_limits default_limits
    (hex_pairs gid_1) [x05] [x06] (Ok 1000) (Ok 1001) 1000 1001 manifest_0 sealed_notes
    aead_model_law eq_refl _ eq_refl eq_refl eq_refl eq_refl _)); vm_compute; [reflexivity|discriminate].
Defined.

Definition with_file : ClientDb (list MlsGroup) :=
  snd (index_attachment gid_1 (ATTACHMENT_PREFIX ++ [x01; x4d]) device).
Definition stored_object : ObjectInfo := {|
  oi_deleted := false; oi_bucket := BUCKET; oi_name := gid_1; oi_link := false; oi_size := 18;
  oi_chunks := 2; oi_nuid := "abc" |}.
Definition two_chunks : string -> Z -> result StoredChunk := fun s next =>
  if next =? 1 then Ok {| ck_subject := s; ck_sequence := 4; ck_payload := take 10 sealed_notes |}
  else Ok {| ck_subject := s; ck_sequence := 6; ck_payload := drop 10 sealed_notes |}.
Lemma download_authentic_witness :
  exists m, attachment "general" gid_1 with_file = Ok m /\ zlen notes = size m /\ hash notes = Ok (mf_hash m).
Proof.
  destruct (download_authentic "general" gid_1 default_limits (Ok 1001) (Ok 1002) (Ok stored_object)
    two_chunks with_file notes) as (m & g & c & aad & _ & Hm & _ & Hz & _ & Hh & _);
    [vm_compute; reflexivity|by exists m].
Defined.

(** ** The interface and its worker *)

(** Every line takes one row where there is a column. *)
Definition one_row : Ratatui := {|
  rows_of := fun a => (a, a, a, a); columns_of := fun a => (a, a); text_width := slen;
  wrap := fun w l => if w <=? 0 then [] else [l] |}.
#[local] Existing Instance one_row.
#[local] Instance one_row_laws : RatatuiLaws.
Proof.
  split; [|done]. intros w l Hw. cbn. destruct (Z.leb_spec w 0); [lia|done].
Qed.
Definition terminal : Rect := {| x := 0; y := 0; width := 80; height := 24 |}.

Definition offline_client : Client (list MlsGroup) := {|
  cl_world := {| w_db := device; w_answers := []; w_trace := [] |};
  cl_link := {| lk_answers := []; lk_renewals := []; lk_sent := [] |};
  cl_disk := {| dk_fs := ∅; dk_user := 7; dk_io := [] |}; cl_objects := [] |}.
Definition offline_draws : NetworkDraws := {|
  nd_now := 0; nd_late := false; nd_connect := Err External; nd_audit := (Err External, Err External);
  nd_flushes := ((Err External, Err External), (Err External, Err External));
  nd_subscribed := Err External; nd_deliveries := Err External; nd_removals := fun _ => [];
  nd_flushed := Err External; nd_popped := []; nd_poll := (0, 0);
  nd_requests := fun _ => (([], [], Err External), Err External); nd_after := 0 |}.
Definition no_join : JoinDraws := {|
  jd_now := 0; jd_connect := Transient; jd_after := 0; jd_late := false; jd_logs := (Err External, Err External);
  jd_consumer := fun _ => fail External; jd_batch := Err External; jd_acked := Err External;
  jd_renewed := Err External |}.
Definition unanswered : result bytes * result bytes := (Err External, Err External).
Definition no_sync : SyncDraws := {|
  sy_before := unanswered; sy_deliveries := Err External; sy_random := []; sy_after := unanswered |}.
Definition send_draws (nonce : bytes) : CommandDraws := {|
  cd_now := 0; cd_up := false; cd_seal := ([], [], Err External); cd_sent := Err External; cd_group := ([], []);
  cd_sync := no_sync; cd_late := false; cd_random := (nonce, []); cd_limits := Err External;
  cd_upload := {| up_sync := no_sync; up_retention := Err External; up_entropy := ([], [], []);
    up_clock := Err External; up_stored := Err External; up_send := (unanswered, unanswered, unanswered);
    up_deliveries := Err External; up_random := ([], [], []) |};
  cd_clocks := (Err External, Err External); cd_object := Err External;
  cd_fetch := fun _ _ => Err External; cd_logs := (unanswered, unanswered) |}.
Definition session_0 : Session (list MlsGroup) := {|
  se_client := offline_client; se_selected := Some "general"; se_before := None; se_connected := false;
  se_subscribed := false; se_subjects := []; se_typing := ∅; se_receipt_poll := 0; se_receipt_cursor := 0;
  se_retry := 0; se_delay := 1; se_status := "Offline — connecting"; se_notice := "Type /help for commands";
  se_join := None; se_send_count := 0; se_send_error := None |}.
Definition enter : Input := Key {| code := Enter; control := false; alt := false; kind := Press |}.
(** The worker reports; hello is typed and sent; the worker takes it. *)
Definition sends_hello : list AppOp := [
  Tick no_join offline_draws 0; Interface terminal 0 0 (Ok tt) (Ok (Some (Paste "hello")));
  Interface terminal 0 0 (Ok tt) (Ok (Some enter)) ].
Definition app l := fold_left (run_app default_capacity no_authority (Ok tt)) l (started session_0).

Example session_starts : fst (new_session 0 offline_client) = Ok session_0.
Proof. vm_compute. reflexivity. Qed.
(** The worker tells nobody that it is typed, being offline, and saves the
    message; the next round clears the draft. *)
Definition app_sent := app (sends_hello ++ [Work (send_draws []) 0; Work (send_draws (repeat x00 16)) 0]).
Definition app_refused := app (sends_hello ++ [Work (send_draws []) 0; Work (send_draws []) 0]).
Definition next_round (a : App (St := list MlsGroup)) : Screen :=
  snd (round terminal (ap_published a) 0 0 (Ok tt) (Ok None) (ap_screen a)).
Example hello_cleared :
  input (ui (next_round app_sent)) = "" /\ pending (next_round app_sent) = None /\
  map mv_text (sn_messages (ap_published app_sent)) = ["hello"] /\ viewed (next_round app_sent) = [1].
Proof. vm_compute. done. Qed.
Example hello_retained :
  input (ui (next_round app_refused)) = "hello" /\ pending (next_round app_refused) = None /\
  sn_messages (ap_published app_refused) = [].
Proof. vm_compute. done. Qed.
Lemma draft_settled_witness : recorded (se_db (ap_session app_sent)) (Send "general" "hello" None).
Proof.
  destruct (draft_settled default_capacity no_authority (Ok tt) session_0
    (sends_hello ++ [Work (send_draws []) 0; Work (send_draws (repeat x00 16)) 0]) 0 "hello"
    eq_refl eq_refl) as [(Hp & _)|(_ & _ & c & ok & l & Hfin & _ & Hok)].
  - vm_compute. reflexivity.
  - vm_compute. reflexivity.
  - exfalso. revert Hp. vm_compute. discriminate.
  - assert (l ++ [(c, ok)] = [] ++ [(Send "general" "hello" None, true)]) as Hl
      by (rewrite <- Hfin; vm_compute; reflexivity).
    apply app_inj_tail in Hl as [_ Hl]. injection Hl as -> ->. exact (proj1 Hok).
Defined.

Lemma read_when_shown_witness :
  exists m, m ∈ sn_messages (ap_published app_sent) /\ mv_id m = 1 /\ mv_text m <> EmptyString.
Proof.
  destruct (visible_ids terminal (ap_published app_sent) (ui (ap_screen app_sent))) as [ids|] eqn:Hv;
    [|exfalso; revert Hv; vm_compute; discriminate].
  destruct (draw terminal (ap_published app_sent) 0 (ui (ap_screen app_sent))) as [f|] eqn:Hd;
    [|exfalso; revert Hd; vm_compute; discriminate].
  destruct (all_rows 78 (sn_messages (ap_published app_sent))) as [body|] eqn:Hb;
    [|exfalso; revert Hb; vm_compute; discriminate].
  assert (1 ∈ ids) as H1 by (revert Hv; vm_compute; intros [= <-]; constructor).
  destruct (proj1 (read_when_shown terminal (ap_published app_sent) 0 (ui (ap_screen app_sent)) ids body f
    Hv Hd Hb 1) H1) as (pre & m & post & Hm & Hid & _ & i & j & row & _ & _ & Ht & _).
  exists m. split; [rewrite Hm; apply elem_of_app; right; left|]. split; [exact Hid|].
  intros Hempty. unfold text_of in Ht. rewrite Hempty in Ht. discriminate.
Defined.
Lemma text_sent_witness : submit "//etc" (Some "general") = Ok (Send "general" "/etc" None).
Proof.
  refine (proj1 (text_sent "general") "/etc" _ _); vm_compute; discriminate.
Defined.

(** A start, its repetition two seconds later, and the stop when the draft is gone. *)
Definition drafts : list Draft := [
  {| dr_text := "h"; dr_selected := Some "general"; dr_pending := false; dr_now := 0 |};
  {| dr_text := "he"; dr_selected := Some "general"; dr_pending := false; dr_now := 1999 |};
  {| dr_text := "hel"; dr_selected := Some "general"; dr_pending := false; dr_now := 2000 |}].
Definition emptied : Draft :=
  {| dr_text := ""; dr_selected := Some "general"; dr_pending := false; dr_now := 2500 |}.
Lemma typing_orderly_witness :
  orderly None [Typing "general" true 0; Typing "general" true 2000; Typing "general" false 2500].
Proof.
  refine (proj1 (typing_orderly drafts emptied _ _ _)). vm_compute. reflexivity.
Defined.

(** ** Commands *)

Definition enroll_envelope_model : Postcard Envelope := {|
  to_allocvec := fun e =>
    match version e, body e with
    | 1, Body.Enroll token r => if bool_decide (token = token_2 /\ r = reg_b) then Ok [x50] else Err External
    | _, _ => @to_allocvec _ trust_envelope_model e
    end;
  take_from_bytes := fun b =>
    match b with
    | x51 :: rest => Ok ({| version := 1; body := Body.Registered |}, rest)
    | _ => @take_from_bytes _ trust_envelope_model b
    end |}.
Definition net : Net := {|
  nt_open := Ok tt; nt_connect := Ok tt; nt_logs := unanswered; nt_logs_after := unanswered;
  nt_sync := no_sync; nt_flush := unanswered; nt_random := ([], []); nt_late := false |}.
Definition shell (d : ClientDb (list MlsGroup)) (answers : list (Attempted bytes)) : Shell (list MlsGroup) Keyring := {|
  sh_client := {| cl_world := {| w_db := d; w_answers := []; w_trace := [] |};
                  cl_link := {| lk_answers := answers; lk_renewals := []; lk_sent := [] |};
                  cl_disk := {| dk_fs := ∅; dk_user := 7; dk_io := [] |}; cl_objects := [] |};
  sh_vault := {| metadata_file := None; keyring := empty_keyring; saves := [] |}; sh_out := []; sh_err := [] |}.
(** No recovery package, policy or development fixture is read here. *)
Definition archive_none : Postcard RecoveryArchive := no_codec.
Definition no_capacity_file : CapacityFile := fun _ => Err External.
Definition no_fixtures : FixtureJson := {|
  enrollment_from_slice := fun _ => Err External; enrollment_to_vec_pretty := fun _ => Err External;
  keys_from_slice := fun _ => Err External; keys_to_vec_pretty := fun _ => Err External |}.
#[local] Existing Instances archive_none no_capacity_file no_fixtures.
Definition no_init : InitDraws := {| id_provisioned := Err External; id_clock := Err External; id_random := ([], []) |}.
Definition typed_token : EnrollDraws := {|
  en_typed := Ok (token_2 +:+ String line_feed EmptyString); en_options := Ok tt; en_admitted := Err External |}.
#[local] Existing Instances enroll_envelope_model base32_model.
Definition enrolling (name : string) :=
  enroll_device default_capacity name net no_init typed_token (shell device [Done [x51]]).
Example enrolls :
  fst (enrolling "phone") = Ok tt /\ lk_sent (cl_link (sh_client (snd (enrolling "phone")))) = [(Callout.ENROLL, [x50])] /\
  fst (enrolling "laptop") = Err (Anyhow "existing device differs from enrollment; use a fresh home").
Proof. vm_compute. done. Qed.

Lemma enrollment_bound_witness :
  exists own sent, user_id (payload own) = alice /\ encode (Body.Enroll (Recovery.trim token_2) own) = Ok sent.
Proof.
  destruct (enrolling "phone") as [r s'] eqn:Hrun.
  destruct (enrollment_bound default_capacity (fun _ => Ok "") "phone" net no_init typed_token (shell device [Done [x51]]) r s' Hrun)
    as [_ [[Hl Hr]|(typed & user & own & sent & Ht & Hu & _ & Huser & _ & Henc & _)]].
  - exfalso. replace r with (fst (enrolling "phone")) in Hr by by rewrite Hrun. revert Hr. vm_compute. discriminate.
  - injection Ht as <-. assert (user = alice) as -> by (revert Hu; vm_compute; by intros [= <-]).
    exists own, sent. split; [exact Huser|exact Henc].
Defined.
Definition offline_listing : Command :=
  MessageCmd (MessageHistory "general" 10 None true) (Err External)
    {| ms_random := ([], [], []); ms_replies := (unanswered, unanswered, unanswered); ms_deliveries := Err External |}
    [] (Err External) (Err External) [].
Lemma offline_contacts_nobody_witness :
  lk_sent (cl_link (sh_client (snd (main default_capacity no_authority (Ok tt) (fun _ => Ok "") (Ok tt) (Ok tt)
    offline_listing net (shell (snd (process_history default_capacity "general" staged_twice)) []))))) = [].
Proof.
  pose proof (offline_contacts_nobody default_capacity no_authority (Ok tt) (fun _ => Ok "") (Ok tt) (Ok tt)
    offline_listing net (shell (snd (process_history default_capacity "general" staged_twice)) []) eq_refl) as [Hl _].
  rewrite Hl. reflexivity.
Defined.
Lemma unread_drained_witness :
  exists s', drain_unread "general" (shell (snd (process_history default_capacity "general" staged_twice)) [])
    = (Ok tt, s') /\ unread "general" (store_of s') = Ok None.
Proof.
  destruct (unread_drained default_capacity "general" general_group
    (shell (snd (process_history default_capacity "general" staged_twice)) [])) as (s' & shown & Hrun & Hn & _);
    [vm_compute; reflexivity|].
  exists s'. split; [exact Hrun|exact Hn].
Defined.
(** The device, its message unsent, is asked for what it has, shows its recovery
    status, starts its interface, sends the message, and lists again. *)
Definition unsent : Shell (list MlsGroup) Keyring :=
  {| sh_client := {| cl_world := online; cl_link := cl_link (sh_client (shell said []));
                     cl_disk := cl_disk (sh_client (shell said [])); cl_objects := [] |};
     sh_vault := sh_vault (shell said []); sh_out := []; sh_err := [] |}.
Definition no_recovery : RecoveryDraws := {|
  rw_clock := Err External; rw_random := Err External; rw_nonce := Err External; rw_entries := [];
  rw_lock_free := true; rw_fresh := EmptyString |}.
Definition no_batch : JoinNet := {|
  jn_consumer := fun _ => fail External; jn_batch := Err External; jn_acked := Err External;
  jn_renewed := Err External |}.
Definition working_net : Net := {|
  nt_open := Ok tt; nt_connect := Ok tt; nt_logs := unanswered; nt_logs_after := unanswered;
  nt_sync := no_sync; nt_flush := (Ok [x11], Ok [x20]); nt_random := ([], []); nt_late := false |}.
Definition invocation (c : Command) : Invocation := {|
  iv_capacity := default_capacity; iv_ask := no_authority; iv_refresh := Ok tt; iv_policy := Ok tt;
  iv_first := Ok tt; iv_command := c; iv_net := working_net |}.
Definition an_evening : list Invocation := map invocation [
  offline_listing; RecoveryCmd ShowRecovery no_recovery;
  RecoveryCmd (RestoreRecovery "package" "secret") no_recovery;
  TuiCmd {| tw_terminal := Ok tt; tw_taken := Ok tt; tw_now := 0; tw_ops := sends_hello |};
  ChannelCmd FlushChannel no_batch; offline_listing].
#[local] Abbreviation evening_over := (fold_left (invoke (fun _ => Ok EmptyString)) an_evening unsent).
Example evening_sends :
  sh_out evening_over =
    ["[pending] " +:+ alice +:+ "/phone> hello"; "EpochGrid normal messaging home; recovery exports are not tracked locally";
     "EpochGrid outbox delivered"; "[9] " +:+ alice +:+ "/phone> hello"] /\
  map pb_payload (w_trace (cl_world (sh_client evening_over))) = [hello_bytes].
Proof. vm_compute. split; reflexivity. Qed.

(** ** An old store is upgraded

    A store without any migration holds a group and a message. The first attempt
    stops in the sixth migration, the second finds no policy, the third
    completes. *)
Module OldStore.
Definition any_event : Postcard ApplicationEvent := tag_codec ae_content.
#[local] Existing Instance any_event.
Definition old_message : TranscriptRow := {|
  tr_gid := gid_1; tr_payload := hello_bytes; tr_sender := Some "alice/laptop"; tr_plaintext := Some (as_bytes "hi");
  tr_outgoing := false; tr_sequence := Some 3; tr_displayed := false |}.
(** The group is at its fourth epoch by now. *)
Definition general_later : MlsGroup := {|
  group_id := general_id; g_epoch := 4; g_members := g_members general; own_leaf := 1; is_active := true |}.
Definition old_tables : ClientDb (list MlsGroup) :=
  set_mls (fun _ => [general_later]) (set_cached_key None (set_revocations (set_coordinators (fun _ => ∅))
    (set_chat (fun t => set_transcript (fun _ => {[1 := old_message]}) (set_join_epochs (fun _ => ∅) t)) device))).
Definition old_store : Upgrade (list MlsGroup) := {| up_versions := ∅; up_db := old_tables |}.
Definition ready : Prepared := {|
  pr_plaintext := Ok tt; pr_directory := Ok tt; pr_lock := Ok tt; pr_database := Ok tt; pr_storage := Ok tt;
  pr_reopened := Ok tt |}.
Definition stops_at (v : Z) : Faults := fun x => if x =? v then Some External else None.
Definition earlier : list (Prepared * result Capacity * Faults) :=
  [(ready, Ok default_capacity, stops_at 6); (ready, Err External, undisturbed)].
Definition reached : Upgrade (list MlsGroup) :=
  fold_left (fun u '(p, loaded, fault) => snd (store_open p loaded fault u)) earlier old_store.
Example stopped_halfway : bool_decide (up_versions reached = {[1; 2; 3; 4; 5]}) = true.
Proof. vm_compute. reflexivity. Qed.

Lemma upgrade_resumes_witness :
  up_versions (snd (store_open ready (Ok default_capacity) undisturbed reached)) = all_versions /\
  fst (store_open ready (Ok default_capacity) undisturbed reached) = Ok tt.
Proof.
  destruct (store_open ready (Ok default_capacity) undisturbed old_store) as [r u'] eqn:Hr.
  assert (r = Ok tt) as -> by (change r with (fst (r, u')); rewrite <- Hr; vm_compute; reflexivity).
  assert (up_versions u' = all_versions) as Hv
    by (change u' with (snd (Ok tt : result unit, u')); rewrite <- Hr; apply (bool_decide_eq_true_1 (_ = all_versions)); vm_compute; reflexivity).
  pose proof (upgrade_resumes earlier ready (Ok default_capacity) old_store u'
    ltac:(by split_and!) Hr) as Hw.
  fold reached in Hw. rewrite Hw. by split.
Defined.
Lemma open_upgrades_witness :
  let u' := snd (store_open ready (Ok default_capacity) undisturbed old_store) in
  join_epochs (chat (up_db u')) !! gid_1 = Some 4 /\ all_messages legacy_event (up_db u').
Proof.
  destruct (store_open ready (Ok default_capacity) undisturbed old_store) as [r u'] eqn:Hr.
  assert (r = Ok tt) as -> by (change r with (fst (r, u')); rewrite <- Hr; vm_compute; reflexivity).
  destruct (open_upgrades ready (Ok default_capacity) undisturbed old_store (Ok tt) u' Hr)
    as (_ & _ & _ & _ & _ & _ & Hepochs & _ & Hevents & Hall).
  - by split_and!.
  - intros Hpos. by vm_compute in Hpos.
  - constructor; intros Hin; exfalso; exact (not_elem_of_empty _ Hin).
  - destruct (Hall eq_refl) as (Hv & _). cbn [snd]. split.
    + destruct (Hepochs (not_elem_of_empty _) (Hv 1 ltac:(vm_compute; reflexivity)) "general"
        {| ge_gid := gid_1; ge_mls_id := general_id |}) as (epoch & Hg & Hj); [vm_compute; reflexivity|].
      vm_compute in Hg. injection Hg as <-. exact Hj.
    + exact (Hevents (not_elem_of_empty _) (Hv 7 ltac:(vm_compute; reflexivity))).
Defined.
End OldStore.
